(* ===== verification/_CoqProject ===== *)
-Q . S2P
Prelude.v
Numbers.v
Types.v
Encoding.v
JsonLib.v
MemoryTypes.v
ContextEngine.v
ContextEngineFacts.v
JsonStorage.v
DbStorage.v
ToolBase.v
TodoList.v
ResourceManager.v
McpManager.v
SkillEngine.v
TurnState.v
ToolParser.v
PromptUtils.v
AgentWorker.v
ReactWorker.v
Agent.v
SessionManager.v
HistoryStore.v
DreamProcessor.v
AgentConfigJson.v
AgentConfigStore.v
Transport.v
McpClient.v
OpenAIModel.v
AnthropicModel.v
AskUser.v
Files.v
FileTools.v
FileState.v
ExecTool.v
SearchTools.v
EntityDecay.v
HttpMemory.v
MemoryRuntime.v
BuiltinMemory.v
HtmlPages.v
WebSearch.v
Calendar.v
Cron.v
CronJobs.v
AtomicFile.v
Channels.v
PbFrame.v
FeishuChannel.v
FeishuBot.v
ChannelService.v
McpServers.v
HttpStream.v
HttpChannels.v
HttpMcp.v
HttpSessions.v
HttpAgents.v
ConsoleText.v
Cli.v
Notebook.v
ConfigWatcher.v
Heartbeat.v
Notify.v
ToolCatalog.v
DataDir.v
Boot.v
HostMemory.v
McpConnection.v
Clock.v
SessionAccess.v
Lifecycle.v
