(* ===== verification/Prelude.v ===== *)
(** * jiuwen-lite: a verification library for the agent framework

    The framework runs conversational agents: a session's conversation is kept by
    a context engine, and a worker alternates between calling a language model and
    executing the tools the model asks for, until the model answers.  The example
    application jiuwenClaw runs such agents behind a console, an HTTP server, Feishu
    channels and schedulers.  This library models both, from the bytes a provider
    sends to the history file on disk, and proves what makes each part correct.
    Sources are named below the repository's src/ directory or, when they begin with
    examples/, beside it.

    ** Files

    Foundations.
    - [Prelude.v]: [outcome] (a C++ call that may throw) and [res] (one whose behaviour
      may also be undefined), [std::string] operations with their [npos] behaviour,
      [std::set<std::string>] as a sorted list ([sset_*]), reachability of a step
      relation ([reach], [reach_invariant]), the hint databases [jw] and [jw_simpl],
      and shared lemmas.
    - [Numbers.v]: numbers in text, at the width of [int] and [long long].
    - [Types.v], [MemoryTypes.v]: the structs and enums of include/ with their default
      values.
    - [Encoding.v]: src/utils/encoding.cpp, [FixStringUTF8] against the grammar of
      RFC 3629.
    - [JsonLib.v]: nlohmann::json is third-party, so it is a class [Json] with the laws
      [JsonLaws] the framework relies on; [JsonTree] is an instance that shows the laws
      can hold and lets the witnesses compute.
    - [Files.v], [AtomicFile.v]: the file system as a class, and files that are replaced
      through a temporary one; [MemDisk] is the instance of the witnesses.
    - [Calendar.v], [Clock.v]: calendar time, and src/utils/time_utils.cpp with the time
      tool.

    The conversation.
    - [ContextEngine.v], [ContextEngineFacts.v]: src/context_engine/ (context_engine.cpp,
      storage_base.cpp).  The buffer, the token estimate, the merging, segmenting,
      compressing and trimming that make a context window, and the tool pairing passes.
      Storage is the class [ContextStorage] with the laws [ContextStorageLaws].
    - [JsonStorage.v], [DbStorage.v]: json_storage.cpp and db_storage.cpp, two instances
      of that class, on a JSON file and on SQLite (a class of the statements it runs).

    Tools and registries.
    - [ToolBase.v], [ToolCatalog.v]: include/tool.h, src/tools/tool.cpp, and the name,
      description and parameters of every tool.
    - [TodoList.v], [AskUser.v], [FileTools.v], [FileState.v], [ExecTool.v],
      [SearchTools.v], [WebSearch.v], [HtmlPages.v]: the builtin tools: todo list,
      questions to the user with their dispatcher, reading, writing and editing files,
      file states, the shell, directory listings, glob and grep, web search and fetch.
    - [Notebook.v], [Notify.v], [Cron.v], [CronJobs.v]: the tools of the example:
      notebooks, notifications, cron expressions, and reminders with the thread that
      fires them.
    - [ResourceManager.v]: resource_manager.cpp, the registry of tools, models and memory
      runtimes with its two schema caches.
    - [SkillEngine.v]: skill_engine.cpp.
    - [Transport.v]: src/utils/curl_client.cpp, retry_helper.h.  libcurl is the class
      [Curl].
    - [McpManager.v], [McpClient.v], [McpConnection.v]: mcp_config_manager.cpp,
      mcp_connection.cpp, mcp_client.cpp, mcp_tool.cpp and the registry's MCP operations,
      over a heap of shared connections and the clients they own.

    A turn.
    - [TurnState.v]: turn_state_proxy.cpp, capability_selector.cpp, the tools tool_search
      and skill_search, and the seeding of a turn.  A model is the class [LanguageModel].
    - [ToolParser.v], [PromptUtils.v]: src/utils/tool_parser.cpp, prompt_utils.cpp.
    - [OpenAIModel.v], [AnthropicModel.v]: the two back ends: the request that carries a
      window, and the response read from its stream.
    - [AgentWorker.v]: src/core/agent_worker.cpp, in a state monad [Wk] whose result is a
      value, an exception or undefined behaviour.
    - [ReactWorker.v]: src/workers/react_worker.cpp, the loop and its entry.
    - [Agent.v]: src/core/agent.cpp, one turn ([Agent.Invoke]), the activity of the
      sessions and the cycles of the consolidation thread.
    - [SessionManager.v]: src/session/session_manager.cpp.  Sessions, the gate that bounds
      concurrent turns and the mutex of each session, as a step relation over the program
      counters of the calls in progress; removal and reloading.
    - [SessionAccess.v]: the thread-local environment of a turn, the accessors, channel
      messages and [Shutdown] of the same file.

    Memory.
    - [HistoryStore.v], [DreamProcessor.v]: src/core/history_store.cpp and
      dream_processor.cpp, the event log with its cursors and the consolidation that runs
      without a memory runtime.
    - [MemoryRuntime.v]: include/memory_runtime.h as a class with laws, and the callbacks a
      session installs; [HttpMemory.v] and [BuiltinMemory.v] are its instances
      (src/memory/); [EntityDecay.v] is entity_decay.cpp, which both call; [HostMemory.v]
      is the model client a consolidation is given.

    Configuration.
    - [AgentConfigJson.v], [AgentConfigStore.v], [ConfigWatcher.v]: src/config/: the codec,
      the store of defaults and overrides, and the watcher of files.
    - [DataDir.v]: src/utils/data_dir.cpp.

    The application (examples/jiuwenClaw/).
    - [Channels.v], [ChannelService.v], [PbFrame.v], [FeishuChannel.v], [FeishuBot.v]: the
      registry of channels, the service that runs a bot for each, and the Feishu adapter:
      the frames of its connection, the connection, and the bot.
    - [McpServers.v]: the registry of MCP servers.
    - [HttpStream.v], [HttpChannels.v], [HttpMcp.v], [HttpSessions.v], [HttpAgents.v]:
      adapters/http_server/: streamed answers and the endpoints.
    - [ConsoleText.v], [Cli.v]: the text of the console, and the console of main.cpp.
    - [Heartbeat.v]: heartbeat_manager.cpp.
    - [Boot.v], [Lifecycle.v]: what main.cpp sets up, and the order in which it stops it
      while other threads act.

    ** How the parts interact

    A call [SessionManager.step]s through the gate, finds or creates its entry, locks the
    session, binds the active agent and runs its turn, [Agent.Invoke]: the user message is
    recorded and [ReactWorker.Invoke] called.

    [ReactWorker.Invoke] snapshots the cancel generation, seeds the [TurnState] (through
    [GetEffectiveMode] and [findRelevant]) and runs [ReactLoop].  An iteration takes the
    window of the [Engine] ([GetContextWindow], that is [ApplyContextLimits]), builds the
    prompt ([BuildPrompt]: templates, skills, tool catalog, memory, todo snippet), calls
    the model with the schemas of the [ToolDomain] ([CallModelStream]), reads the tool
    calls of the response ([tool_calls_of], which in fallback mode uses
    [ExtractAllToolCalls]), executes them in order ([run_tools], [ExecuteTool]) and records
    each turn in the engine ([add_message]), which stores it through its [ContextStorage]
    and reports it to the event sink.  [OpenAIModel] and [AnthropicModel] are what stands
    behind [LanguageModel]; [native_request_paired] takes a window of the engine into a
    request.  The sink of a session is its memory runtime ([MemoryRuntime.sink_event]) or
    [HistoryStore.AppendEvent]; the runtime also provides the context of the prompt, after
    the filter of [EntityDecay].  When conversations end the consolidation thread of the
    agent ([ConsolidationStep]) makes a pass: the memory runtime's, with [HostMemory]'s client, or
    [DreamProcessor.Run] on the agent's store.

    [McpClient.handshake] gives the answer [McpManager.Connect] registers tools from;
    [McpConnection] joins the two with the calls that connect on demand.  [McpServers]
    hands its configurations to [McpManager.Load].

    The registries of the application save through [AtomicFile].  An HTTP handler changes a
    registry and then what follows it: [HttpChannels] the channels and [ChannelService],
    which starts [FeishuBot]s over [FeishuChannel] over [PbFrame]; [HttpMcp] the servers,
    the manager, the tools of the live agent and the configurations; [HttpAgents] the
    configuration store and the session manager; [HttpSessions] acts on the manager through
    its [SessionManager.action]s.  [Heartbeat] and [CronJobs] begin turns in their
    sessions.  [Boot] puts registry, catalog, store and the default agent of [Cli]
    together; [Lifecycle] runs the stop of all of it ([cleanup], ending in
    [SessionAccess.Shutdown]) against the moves of the other threads, those that the
    server and the bots detach included.

    What is outside the repository is an argument: [Json], [Curl], [Sqlite], [AgentMemory],
    [LanguageModel], the tool objects ([tool_Invoke]), [Shell], [Walk], [StdRegex],
    [FileSystem], [FileRename], [NetWorld], [CronHost], [LocalTime], [FeishuNet],
    [Desktop], and [Environment] (clock, files, the cancel generation other threads move,
    the event sink).  Their state is one type [X] that the calls thread.  Laws are stated
    where a theorem needs them, with an instance that keeps them.

    ** What the theorems show

    - The turn: it adds a transcript to the conversation, one result per call under its id,
      the answer last ([turn_transcript]); the loop ends ([react_terminates]); a cancelled
      turn stops ([cancelled_turn_stops]); failures become results
      ([failures_become_results]); the offered schemas ([offered_schemas],
      [tools_offered]).
    - The providers: whatever way the bytes of a reply are cut, the response is the reply
      ([openai_reply_received]); requests keep calls and results paired and in the shape
      the provider demands ([native_request_paired], [anthropic_request_shape]); the delay
      between attempts stays in its bounds ([backoff_bounds]).
    - Sessions, in every interleaving of calls: one turn per session
      ([one_turn_per_session]), the bound on concurrent turns ([turns_bounded]), reloading
      ([reload_is_graceful]), the entry a turn works on ([turn_stays_with_session]),
      answers to questions ([answers_are_provided]), directory names
      ([SanitizePathName_spec], [restart_session_names]); and where the code loses slots,
      waiters, bindings, directories and agents ([lost_slots_block_forever],
      [lifted_limit_strands_waiters], [queued_turn_rebinds_entry],
      [second_removal_deletes_live_directory], [shutdown_stops_known]).
    - Consolidation and memory: when passes happen ([consolidation_follows_conversations]),
      what the log gives back ([history_roundtrip]), that every entry is consolidated once
      ([dream_batches]), the memory a session is shown ([session_memory_fresh],
      [context_received], [expiry_consistent]), what reaches the runtimes
      ([library_sees_conversation], [messages_recorded], [losses_counted]), the circuit
      breaker ([circuit_breaker_refines]), and that an outage is taken for an update
      ([outage_looks_like_update]).
    - The window: pairing, size, retention of the newest user message, token bound,
      transparency ([window_*]), and the undefined behaviour of a negative limit
      ([window_negative_limit]).
    - Persistence: [message_roundtrip], [restart_roundtrip], [db_restart_roundtrip],
      [sessions_isolated], [configs_survive_restart], [channels_survive_restart],
      [servers_survive_restart], [merge_keeps_types].
    - Registry: caches never stale for completed calls ([schemas_never_stale]), and the
      interleaving in which they are ([reregistration_race]); MCP ([load_runs_listed],
      [connect_offers_tools], [mcp_call_output], [readded_server_stays_stopped],
      [new_timeouts_ignored], [mcp_unregister_restores], [SyncMcpTools_spec],
      [removed_server_comes_back]).
    - Disclosure: [turn_monotone], [seed_turn_spec], [recall_ignores_prose],
      [ResolveModeByTokenBudget_monotone], [catalog_sections].
    - Text: [FixStringUTF8_spec], [rendered_call_extracted], [extraction_terminates],
      [extraction_misreads], [ParseAction_diverges], [render_pieces],
      [render_terminates], [skill_file_roundtrip], [GetJsonSchema_describes],
      [clock_texts_read].
    - Tools: [todo_calls_spec], [todo_items_ok], [todo_response_reports_list], [edit_file_replaces],
      [read_file_pages], [write_file_content], [check_guards_edit], [exec_runs_plan],
      [truncate_bounds], [glob_finds], [grep_shows_matches], [search_polite],
      [search_answers], [ddg_page_parsed], [flat_notebook_edited], [own_notebook_lost],
      [notification_shown].
    - Time: [next_fire_earliest], [check_refines], [add_refines], [sleep_in_time],
      [heartbeat_wakes_agent]; and the days and minutes the watcher of reminders misses
      ([both_days_missed], [missed_minute_put_off]).
    - Channels and the server: [frame_roundtrip] and the frames on which the decoder does
      not end ([stuck_frame_loops]), [text_message_acked], [cards_in_order],
      [events_once], [bots_follow_registry]; [stream_delivered], [requests_keep_step],
      [mcp_requests_consistent], [deletion_cascades], [reserved_sessions_stay],
      [partial_update_diverges].
    - The application: [primary_agent_starts], [query_given], [answer_printed_once],
      [chunks_do_not_matter], [changes_reported_once], [services_stopped_first], and what
      runs on after the stop: the bot of a late request ([late_request_outlives_shutdown])
      and the turns left to detached threads ([detached_begins],
      [streamed_chat_outlives_shutdown]).

    ** Bounds and fuel

    [RenderPrompt] and [ExtractAllToolCalls] run on the length of their text, and the
    termination theorems show that is enough.  [ReactLoop] needs [maxIterations] rounds
    when that is not negative, and so does the second phase of the dream processor.
    [ParseAction] may need any amount, which [ParseAction_diverges] proves.  The retry loop
    makes [1 + maxRetries] attempts.  Nested configuration values are read with the depth
    of their JSON as fuel.  Replacing and counting in files run on the length of the content
    plus two, the input loop of the console and the paragraphs of a card on their length
    plus one.  Decoding an encoded frame takes seven rounds and one for each
    header; for other bytes no number may be enough ([stuck_frame_loops]).  A step field of a cron expression has as many values as its range,
    and a search for the next fire goes through the 525600 minutes of a year.  [int] is a
    [Z]; where the code converts to an unsigned type or may overflow, the wrap or the
    undefined behaviour is written out ([trim_window], [idle_seconds],
    [ComputeBackoffDelayMs], [take_id]), and theorems that need sizes below [2^31] say so.
    Interleavings have no bound: their theorems are about every reachable state.

    ** Not modelled

    Logging, and the text printed on the console besides answers and questions; the loading
    of plug-ins; the branches of Windows builds; the per-thread handle of libcurl and its
    global initialisation; waiting, waking and joining of threads (except that the stop of
    a scheduler waits for its turn, in [Lifecycle]), and the singletons; the
    base class of models and the legacy consolidator, which only forward; the parts of
    HTTP that the server library does (matching of paths, static files); the conversion of
    a notification script for Windows; and the tests. *)
From Stdlib Require Import ZArith Lia String Ascii List Sorted Structures.OrdersEx.
From stdpp Require Import base decidable list strings gmap sets pretty.

#[global] Set Default Goal Selector "!".
#[global] Arguments String.append !_ _ / : simpl nomatch.

(** ** Outcomes of calls that may throw

    [Throw e] is a C++ exception whose [what()] is [e]; every exception the
    modelled code raises or catches derives from [std::exception]. *)

Inductive outcome (A : Type) : Type :=
  | Ok (a : A)
  | Throw (what : string).
Arguments Ok {A} a.
Arguments Throw {A} what.

Definition obind {A B} (m : outcome A) (k : A -> outcome B) : outcome B :=
  match m with Ok a => k a | Throw e => Throw e end.

Definition is_ok {A} (m : outcome A) : bool :=
  match m with Ok _ => true | Throw _ => false end.

(** A call that may also run into undefined behaviour. *)
Inductive res (A : Type) := Val (a : A) | Exc (what : string) | Undefined.
Arguments Val {A} a.
Arguments Exc {A} what.
Arguments Undefined {A}.

Declare Scope cxx_scope.
Delimit Scope cxx_scope with cxx.
Notation "x <-- m ;; k" := (obind m (fun x => k))
  (at level 100, m at next level, right associativity) : cxx_scope.
Open Scope cxx_scope.

(** A loop whose body may throw. *)
Fixpoint outcome_map {A B} (f : A -> outcome B) (l : list A) : outcome (list B) :=
  match l with
  | [] => Ok []
  | a :: l => b <-- f a ;; bs <-- outcome_map f l ;; Ok (b :: bs)
  end.

Lemma outcome_map_ok {A B} (f : A -> outcome B) (g : B -> A) (l : list B) :
  (forall b, b ∈ l -> f (g b) = Ok b) -> outcome_map f (map g l) = Ok l.
Proof.
  induction l as [|b l IH]; intros Hg; [done|]. cbn [map outcome_map]. rewrite Hg by left. cbn [obind].
  rewrite IH; [done|]. intros b' Hb. apply Hg. by right.
Qed.

(** ** Automation shared by the files

    [jw_simpl] rewrites with the equations of the library's lists, strings and
    sets; [jw] holds the side conditions the component files discharge with
    [eauto]. *)

Create HintDb jw.
Create Rewrite HintDb jw_simpl.

Ltac jw_simplify := repeat (progress autorewrite with jw_simpl in * || simplify_eq/=).
Ltac jw_auto := jw_simplify; eauto 8 with jw.

(** Case analysis on the innermost [match] or [if] of the goal. *)
Ltac case_goal :=
  match goal with
  | |- context [match ?x with _ => _ end] =>
      lazymatch x with
      | context [match _ with _ => _ end] => fail
      | _ => destruct x eqn:?
      end
  end.

(** ** [std::string]

    A [std::string] is a Rocq [string], one [ascii] per byte.  Positions are
    [nat]; a search that returns [std::string::npos] is [None].  Where the code
    goes on to compute with [npos] the definitions say so: [npos + 1] wraps to
    [0] ([npos_succ]), and a count computed from [npos] is larger than any
    string, so [substr] runs to the end ([substr_upto]). *)

Definition NL : ascii := "010"%char.
Definition CR : ascii := "013"%char.
Definition TAB : ascii := "009"%char.
Definition DQUOTE : ascii := "034"%char.
Definition BSLASH : ascii := "092"%char.
(** One-character strings used in the messages. *)
Definition nl : string := String NL "".
Definition dq : string := String DQUOTE "".

Fixpoint str_take (n : nat) (s : string) : string :=
  match n, s with
  | S n', String c s' => String c (str_take n' s')
  | _, _ => ""
  end.

Fixpoint str_drop (n : nat) (s : string) : string :=
  match n, s with
  | 0, _ => s
  | S n', String _ s' => str_drop n' s'
  | S _, EmptyString => ""
  end.

(** [s.substr(pos, n)] for [pos <= s.size()]. *)
Definition substr (s : string) (pos n : nat) : string := str_take n (str_drop pos s).

(** [s.substr(pos, end - pos)] where [end] may be [npos]. *)
Definition substr_upto (s : string) (pos : nat) (e : option nat) : string :=
  match e with
  | Some e => substr s pos (e - pos)
  | None => str_drop pos s
  end.

(** [npos + 1] is [0] in [size_t]. *)
Definition npos_succ (o : option nat) : nat :=
  match o with Some i => S i | None => 0 end.

(** [s.replace(pos, n, t)]. *)
Definition str_replace (s : string) (pos n : nat) (t : string) : string :=
  str_take pos s +:+ t +:+ str_drop (pos + n) s.

(** [s[i]], for [i < s.size()]. *)
Definition str_at (s : string) (i : nat) : option ascii := String.get i s.

Fixpoint find_if (p : ascii -> bool) (s : string) : option nat :=
  match s with
  | EmptyString => None
  | String c s' => if p c then Some 0 else S <$> find_if p s'
  end.

(** [s.find_first_of(chars satisfying p, pos)]. *)
Definition find_if_from (p : ascii -> bool) (s : string) (pos : nat) : option nat :=
  Nat.add pos <$> find_if p (str_drop pos s).

(** [s.find(c, pos)]. *)
Definition find_char (c : ascii) (s : string) (pos : nat) : option nat :=
  find_if_from (Ascii.eqb c) s pos.

Fixpoint find_last_if (p : ascii -> bool) (s : string) : option nat :=
  match s with
  | EmptyString => None
  | String c s' =>
      match find_last_if p s' with
      | Some i => Some (S i)
      | None => if p c then Some 0 else None
      end
  end.

(** [s.rfind(c)]. *)
Definition rfind_char (c : ascii) (s : string) : option nat := find_last_if (Ascii.eqb c) s.

(** [s.rfind(p, 0) == 0]. *)
Fixpoint starts_with (p s : string) : bool :=
  match p, s with
  | EmptyString, _ => true
  | String c p', String d s' => Ascii.eqb c d && starts_with p' s'
  | String _ _, EmptyString => false
  end.

Fixpoint find_sub (p s : string) : option nat :=
  if starts_with p s then Some 0
  else match s with
       | EmptyString => None
       | String _ s' => S <$> find_sub p s'
       end.

(** [s.find(p, pos)]. *)
Definition find_str (p s : string) (pos : nat) : option nat :=
  if decide (pos <= String.length s) then Nat.add pos <$> find_sub p (str_drop pos s) else None.

(** Characters of the sets the code passes to [find_first_not_of]. *)
Definition is_blank (c : ascii) : bool := Ascii.eqb c " " || Ascii.eqb c TAB.
Definition is_space4 (c : ascii) : bool := is_blank c || Ascii.eqb c CR || Ascii.eqb c NL.

Definition str_empty (s : string) : bool :=
  match s with EmptyString => true | _ => false end.

Definition byte_of (c : ascii) : N := N_of_ascii c.

Fixpoint str_map (f : ascii -> ascii) (s : string) : string :=
  match s with EmptyString => "" | String c s' => String (f c) (str_map f s') end.

Fixpoint str_filter (p : ascii -> bool) (s : string) : string :=
  match s with
  | EmptyString => ""
  | String c s' => if p c then String c (str_filter p s') else str_filter p s'
  end.

(** [::tolower] in the "C" locale. *)
Definition tolower (c : ascii) : ascii :=
  if (N.leb 65 (byte_of c) && N.leb (byte_of c) 90)%N then ascii_of_N (byte_of c + 32) else c.
Definition lower (s : string) : string := str_map tolower s.

(** Whether [s.find(p)] finds anything. *)
Definition has_sub (p s : string) : bool :=
  match find_str p s 0 with Some _ => true | None => false end.

(** What a function that takes a [const char*] reads of a string. *)
Definition NUL : ascii := "000"%char.
Fixpoint c_str (s : string) : string :=
  match s with
  | EmptyString => ""
  | String c s' => if Ascii.eqb c NUL then "" else String c (c_str s')
  end.

(** The lines [std::getline] yields: a final newline does not start a line. *)
Fixpoint getlines_aux (cur s : string) : list string :=
  match s with
  | EmptyString => match cur with EmptyString => [] | _ => [cur] end
  | String c s' =>
      if Ascii.eqb c NL then cur :: getlines_aux "" s'
      else getlines_aux (cur +:+ String c "") s'
  end.
Definition getlines (s : string) : list string := getlines_aux "" s.

(** [std::to_string] on integers, and on lengths. *)
Definition to_string (z : Z) : string := pretty z.
Definition nat_to_string (n : nat) : string := pretty n.

Definition string_concat (l : list string) : string := fold_right String.append "" l.

(** *** Numbers and words *)

Definition digit_of (c : ascii) : option N :=
  let b := byte_of c in if (48 <=? b)%N && (b <=? 57)%N then Some (b - 48)%N else None.

(** The digits at the start of a text, read after [acc]. *)
Fixpoint digits (acc : N) (s : string) : N :=
  match s with
  | String c s' => match digit_of c with Some d => digits (acc * 10 + d)%N s' | None => acc end
  | EmptyString => acc
  end.

(** [isspace] in the "C" locale. *)
Definition is_space (c : ascii) : bool :=
  let b := byte_of c in (b =? 32)%N || ((9 <=? b)%N && (b <=? 13)%N).

Fixpoint skip_space (s : string) : string :=
  match s with String c s' => if is_space c then skip_space s' else s | EmptyString => "" end.

(** The words [operator>>] reads. *)
Fixpoint words_aux (cur s : string) : list string :=
  match s with
  | EmptyString => if str_empty cur then [] else [cur]
  | String c s' =>
      if is_space c then (if str_empty cur then words_aux "" s' else cur :: words_aux "" s')
      else words_aux (cur +:+ String c "") s'
  end.
Definition words (s : string) : list string := words_aux "" s.

(** *** Lemmas on strings *)

Lemma str_app_assoc (a b c : string) : (a +:+ b) +:+ c = a +:+ b +:+ c.
Proof. induction a as [|x a IH]; [done | cbn; by rewrite IH]. Qed.

Lemma str_app_nil_r (a : string) : a +:+ "" = a.
Proof. induction a as [|x a IH]; [done | cbn; by rewrite IH]. Qed.

Lemma string_concat_app (l l' : list string) :
  string_concat (l ++ l') = string_concat l +:+ string_concat l'.
Proof.
  unfold string_concat. induction l as [|s l IH]; [done|]. cbn [app fold_right]. by rewrite IH, str_app_assoc.
Qed.

Lemma str_length_app (a b : string) :
  String.length (a +:+ b) = String.length a + String.length b.
Proof. induction a as [|x a IH]; [done | cbn; by rewrite IH]. Qed.

Lemma str_take_drop (n : nat) (s : string) : str_take n s +:+ str_drop n s = s.
Proof. revert s; induction n as [|n IH]; intros [|c s]; try done. cbn. by rewrite IH. Qed.

Lemma str_length_take (n : nat) (s : string) :
  String.length (str_take n s) = Nat.min n (String.length s).
Proof. revert s; induction n as [|n IH]; intros [|c s]; try done. cbn. by rewrite IH. Qed.

Lemma str_length_drop (n : nat) (s : string) :
  String.length (str_drop n s) = String.length s - n.
Proof. revert s; induction n as [|n IH]; intros [|c s]; try done. cbn. by rewrite IH. Qed.

Lemma str_length_substr (s : string) (pos n : nat) :
  String.length (substr s pos n) = Nat.min n (String.length s - pos).
Proof. unfold substr. by rewrite str_length_take, str_length_drop. Qed.

Lemma str_take_ge (n : nat) (s : string) : String.length s <= n -> str_take n s = s.
Proof.
  revert s; induction n as [|n IH]; intros [|c s] H; cbn in *; try done; [lia|].
  rewrite IH; [done | lia].
Qed.

Lemma str_drop_ge (n : nat) (s : string) : String.length s <= n -> str_drop n s = "".
Proof.
  revert s; induction n as [|n IH]; intros [|c s] H; cbn in *; try done; [lia|].
  apply IH; lia.
Qed.

Lemma str_drop_drop (n m : nat) (s : string) : str_drop n (str_drop m s) = str_drop (m + n) s.
Proof.
  revert s; induction m as [|m IH]; intros [|c s]; cbn; try done.
  by destruct n.
Qed.

Lemma str_take_app (a b : string) : str_take (String.length a) (a +:+ b) = a.
Proof. induction a as [|x a IH]; [by destruct b | cbn; by rewrite IH]. Qed.

Lemma str_take_app_le n a b : n <= String.length a -> str_take n (a +:+ b) = str_take n a.
Proof.
  revert a; induction n as [|n IH]; intros [|c a] Hn; cbn in *; try done; try lia.
  rewrite IH; [done|lia].
Qed.
Lemma str_drop_app (a b : string) : str_drop (String.length a) (a +:+ b) = b.
Proof. induction a as [|x a IH]; [by destruct b | cbn; by rewrite IH]. Qed.

Lemma starts_with_spec (p s : string) : starts_with p s = true <-> exists t, s = p +:+ t.
Proof.
  revert s; induction p as [|c p IH]; intros s; cbn.
  - split; [intros _; by exists s | done].
  - destruct s as [|d s]; cbn.
    + split; [done | intros [t ?]; discriminate].
    + rewrite andb_true_iff, IH, Ascii.eqb_eq. split.
      * intros [-> [t ->]]. by exists t.
      * intros [t [= -> ->]]. eauto.
Qed.

Lemma starts_with_app (p t : string) : starts_with p (p +:+ t) = true.
Proof. apply starts_with_spec. by exists t. Qed.

Lemma find_if_Some (p : ascii -> bool) (s : string) (i : nat) :
  find_if p s = Some i ->
  i < String.length s /\ exists c, String.get i s = Some c /\ p c = true.
Proof.
  revert i; induction s as [|c s IH]; intros i H; cbn in H; [done|].
  destruct (p c) eqn:Hc.
  - simplify_eq. cbn. split; [lia | by exists c].
  - apply fmap_Some in H as (j & Hj & ->). apply IH in Hj as [? (d & ? & ?)].
    cbn. split; [lia | by exists d].
Qed.

Lemma find_sub_Some (p s : string) (i : nat) :
  find_sub p s = Some i -> exists a b, s = a +:+ p +:+ b /\ String.length a = i.
Proof.
  revert i; induction s as [|c s IH]; intros i H; cbn in H.
  - destruct (starts_with p "") eqn:Hp; [simplify_eq | done].
    apply starts_with_spec in Hp as [t Ht]. by exists "", t.
  - destruct (starts_with p (String c s)) eqn:Hp.
    + simplify_eq. apply starts_with_spec in Hp as [t Ht]. by exists "", t.
    + apply fmap_Some in H as (j & Hj & ->). apply IH in Hj as (a & b & -> & <-).
      by exists (String c a), b.
Qed.

Lemma find_sub_bound (p s : string) (i : nat) :
  find_sub p s = Some i -> i + String.length p <= String.length s.
Proof.
  intros (a & b & -> & <-)%find_sub_Some. rewrite !str_length_app. lia.
Qed.

Lemma find_str_bound (p s : string) (pos i : nat) :
  find_str p s pos = Some i -> pos <= i /\ i + String.length p <= String.length s.
Proof.
  unfold find_str. case_decide; [|done].
  intros (j & Hj & ->)%fmap_Some. apply find_sub_bound in Hj.
  rewrite str_length_drop in Hj. lia.
Qed.

Lemma find_char_bound (c : ascii) (s : string) (pos i : nat) :
  find_char c s pos = Some i -> pos <= i < String.length s.
Proof.
  unfold find_char, find_if_from. intros (j & Hj & ->)%fmap_Some.
  apply find_if_Some in Hj as [Hj _]. rewrite str_length_drop in Hj. lia.
Qed.

Lemma str_empty_spec (s : string) : str_empty s = true <-> s = "".
Proof. by destruct s. Qed.

Lemma str_empty_false (s : string) : str_empty s = false <-> s <> "".
Proof. by destruct s. Qed.

(** [s.back()] and [s.front()] of a non-empty string. *)
Definition back_is (c : ascii) (s : string) : bool :=
  match String.get (String.length s - 1) s with Some d => Ascii.eqb c d | None => false end.
Definition front_is (c : ascii) (s : string) : bool :=
  match s with String d _ => Ascii.eqb c d | EmptyString => false end.

(** *** Searching in concatenations *)

Fixpoint occurs (c : ascii) (s : string) : bool :=
  match s with EmptyString => false | String d s' => Ascii.eqb c d || occurs c s' end.

Lemma occurs_app c a b : occurs c (a +:+ b) = occurs c a || occurs c b.
Proof. induction a as [|d a IH]; [done|]. cbn. by rewrite IH, orb_assoc. Qed.

Lemma c_str_id s : occurs NUL s = false -> c_str s = s.
Proof.
  induction s as [|c s IH]; [done|]. cbn [occurs c_str]. intros [Hc Hs]%orb_false_iff.
  by rewrite Ascii.eqb_sym, Hc, IH.
Qed.

Lemma occurs_c_str s : occurs NUL (c_str s) = false.
Proof.
  induction s as [|c s IH]; [done|]. cbn [c_str]. destruct (Ascii.eqb c NUL) eqn:E; [done|].
  cbn [occurs]. by rewrite Ascii.eqb_sym, E.
Qed.

Lemma has_sub_spec p s : has_sub p s = true <-> exists a b, s = a +:+ p +:+ b.
Proof.
  unfold has_sub, find_str. rewrite decide_True by lia. change (str_drop 0 s) with s. split.
  - destruct (find_sub p s) as [i|] eqn:E; [|done]. intros _. apply find_sub_Some in E as (a & b & -> & _). by exists a, b.
  - intros (a & b & ->). enough (find_sub p (a +:+ p +:+ b) <> None) as Hn by (by destruct (find_sub _ _)).
    induction a as [|c a IH].
    + change ("" +:+ p +:+ b) with (p +:+ b). destruct (p +:+ b) eqn:E; cbn; rewrite <- E, starts_with_app; done.
    + cbn. destruct (starts_with p (String c (a +:+ p +:+ b))); [done|]. by destruct (find_sub p (a +:+ p +:+ b)).
Qed.

Lemma getlines_aux_line cur l rest :
  occurs NL l = false -> getlines_aux cur (l +:+ nl +:+ rest) = (cur +:+ l) :: getlines rest.
Proof.
  revert cur; induction l as [|c l IH]; intros cur Hl.
  - cbn. by rewrite str_app_nil_r.
  - cbn [occurs] in Hl. apply orb_false_iff in Hl as [Hc Hl].
    change (String c l +:+ nl +:+ rest) with (String c (l +:+ nl +:+ rest)).
    cbn [getlines_aux]. rewrite Ascii.eqb_sym, Hc, IH by done. by rewrite str_app_assoc.
Qed.

(** A text of whole lines. *)
Definition log_text (ls : list string) : string := string_concat (map (fun l => l +:+ nl) ls).

Lemma getlines_log (ls : list string) :
  Forall (fun l => occurs NL l = false) ls -> getlines (log_text ls) = ls.
Proof.
  induction 1 as [|l ls Hl _ IH]; [done|]. unfold log_text in *. cbn [map string_concat fold_right].
  rewrite str_app_assoc. unfold getlines. rewrite getlines_aux_line by done. by f_equal.
Qed.

Lemma starts_with_sep p a c b :
  occurs c p = false -> starts_with p (a +:+ String c b) = starts_with p a.
Proof.
  revert a; induction p as [|x p IH]; intros a; cbn; [by destruct a|].
  intros [Hx Hp]%orb_false_iff. destruct a as [|y a]; cbn.
  - rewrite Ascii.eqb_sym, Hx. done.
  - by rewrite IH.
Qed.

Lemma find_sub_sep p a c b :
  p <> "" -> occurs c p = false -> find_sub p a = None ->
  find_sub p (a +:+ String c b) = (fun i => S (String.length a) + i) <$> find_sub p b.
Proof.
  intros Hp Hc. induction a as [|x a IH]; intros Ha.
  - pose proof (starts_with_sep p "" c b Hc) as Hsw. cbn in Hsw |- *. rewrite Hsw.
    destruct p; [done|]. done.
  - pose proof (starts_with_sep p (String x a) c b Hc) as Hsw. cbn in Ha |- *.
    cbn in Hsw. rewrite Hsw. destruct (starts_with p (String x a)); [done|].
    rewrite IH by (by destruct (find_sub p a)).
    destruct (find_sub p b); [|done]. cbn. done.
Qed.

Lemma starts_with_occurs p a c : starts_with p a = true -> occurs c p = true -> occurs c a = true.
Proof.
  intros [t ->]%starts_with_spec Hc. by rewrite occurs_app, Hc.
Qed.

Lemma find_sub_none p a c : occurs c p = true -> occurs c a = false -> find_sub p a = None.
Proof.
  intros Hp. induction a as [|x a IH]; intros Ha.
  - destruct p; [done|]. done.
  - cbn. destruct (starts_with p (String x a)) eqn:E.
    { rewrite (starts_with_occurs _ _ _ E Hp) in Ha. done. }
    cbn in Ha. apply orb_false_iff in Ha as [_ Ha]. by rewrite IH.
Qed.

Lemma find_sub_here p a : find_sub p (p +:+ a) = Some 0.
Proof. destruct (p +:+ a) eqn:E; cbn; rewrite <- E, starts_with_app; done. Qed.

(** A search from the start. *)
Lemma find_str_0 p s : find_str p s 0 = find_sub p s.
Proof. unfold find_str. rewrite decide_True by lia. cbn [str_drop]. by destruct (find_sub p s). Qed.

Lemma find_if_app (p : ascii -> bool) (a : string) (c : ascii) (b : string) :
  (forall d, occurs d a = true -> p d = false) -> p c = true ->
  find_if p (a +:+ String c b) = Some (String.length a).
Proof.
  intros Ha Hc. induction a as [|x a IH]; cbn; [by rewrite Hc|].
  rewrite (Ha x) by (cbn; by rewrite Ascii.eqb_refl).
  rewrite IH; [done|]. intros d Hd. apply Ha. cbn. by rewrite Hd, orb_true_r.
Qed.

Lemma starts_with_line q a r :
  occurs NL q = false -> occurs NL a = false ->
  starts_with (q +:+ nl) (a +:+ nl +:+ r) = starts_with (q +:+ nl) (a +:+ nl).
Proof.
  revert a; induction q as [|y q IH]; intros a Hq Ha.
  - destruct a as [|x a]; [done|]. cbn -[Ascii.eqb] in *. apply orb_false_iff in Ha as [-> _]. done.
  - cbn -[Ascii.eqb] in Hq. apply orb_false_iff in Hq as [Hy Hq].
    destruct a as [|x a]; cbn -[Ascii.eqb].
    + by rewrite Ascii.eqb_sym, Hy.
    + cbn -[Ascii.eqb] in Ha. apply orb_false_iff in Ha as [_ Ha]. by rewrite <- IH.
Qed.

(** A line that does not hold the pattern is skipped whole. *)
Lemma find_sub_line q a r :
  occurs NL q = false -> occurs NL a = false -> q <> "" ->
  find_sub (q +:+ nl) (a +:+ nl) = None ->
  find_sub (q +:+ nl) (a +:+ nl +:+ r)
  = (fun i => S (String.length a) + i) <$> find_sub (q +:+ nl) r.
Proof.
  intros Hq Ha Hne. induction a as [|x a IH]; intros Hn.
  - destruct q as [|y q]; [done|]. cbn -[Ascii.eqb nl] in Hq.
    apply orb_false_iff in Hq as [Hy _]. cbn -[Ascii.eqb].
    by rewrite Ascii.eqb_sym, Hy.
  - pose proof (starts_with_line q (String x a) r Hq Ha) as Hs.
    cbn -[Ascii.eqb nl] in Ha. apply orb_false_iff in Ha as [_ Ha].
    cbn -[nl] in Hs, Hn |- *. rewrite Hs.
    destruct (starts_with (q +:+ nl) (String x (a +:+ nl))); [done|].
    rewrite IH; [|done|]; [by destruct (find_sub (q +:+ nl) r)|].
    by destruct (find_sub (q +:+ nl) (a +:+ nl)).
Qed.

Lemma find_char_first (c : ascii) (a b : string) :
  occurs c a = false -> find_char c (a +:+ String c b) 0 = Some (String.length a).
Proof.
  intros Ha. unfold find_char, find_if_from. cbn [str_drop]. rewrite find_if_app; [done | | apply Ascii.eqb_refl].
  intros d Hd. apply Ascii.eqb_neq. intros ->. congruence.
Qed.

Lemma find_char_none (c : ascii) (a : string) : occurs c a = false -> find_char c a 0 = None.
Proof.
  intros Ha. unfold find_char, find_if_from. cbn [str_drop]. destruct (find_if (Ascii.eqb c) a) as [i|] eqn:E; [|done].
  exfalso. revert i E. induction a as [|d a IH]; intros i E; [done|]. cbn in E, Ha.
  destruct (Ascii.eqb c d); [done|]. destruct (find_if (Ascii.eqb c) a); [|done]. by eapply IH.
Qed.

Lemma str_drop_app_S (a : string) (c : ascii) (b : string) : str_drop (String.length a + 1) (a +:+ String c b) = b.
Proof. rewrite <- str_drop_drop, str_drop_app. done. Qed.

Lemma find_sub_extend p s t i : find_sub p s = Some i -> find_sub p (s +:+ t) = Some i.
Proof.
  revert i. induction s as [|c s IH]; intros i Hs.
  - cbn in Hs. destruct p; [|done]. injection Hs as <-. by destruct t.
  - cbn [find_sub] in Hs. cbn [String.append find_sub]. destruct (starts_with p (String c s)) eqn:E.
    + apply starts_with_spec in E as [r Hr]. change (String c (s +:+ t)) with (String c s +:+ t).
      by rewrite Hr, str_app_assoc, starts_with_app.
    + destruct (find_sub p s) as [j|] eqn:Ej; [|done]. injection Hs as <-. rewrite (IH j) by done.
      destruct (starts_with p (String c (s +:+ t))) eqn:E2; [|done]. exfalso.
      apply find_sub_bound in Ej. apply starts_with_spec in E2 as [r Hr].
      assert (str_take (String.length p) (String c s) = p) as Hp.
      { rewrite <- (str_take_app_le _ _ t) by (cbn; lia). change (String c s +:+ t) with (String c (s +:+ t)). by rewrite Hr, str_take_app. }
      rewrite <- (str_take_drop (String.length p) (String c s)), Hp, starts_with_app in E. done.
Qed.

Lemma find_char_behind c p a b : occurs c a = false -> find_char c (p +:+ a +:+ String c b) (String.length p) = Some (String.length p + String.length a).
Proof.
  intros Ha. pose proof (find_char_first c a b Ha) as Hf. unfold find_char, find_if_from in *. rewrite str_drop_app. cbn [str_drop] in Hf.
  destruct (find_if _ _); [|done]. cbn in *. congruence.
Qed.

(** Text without the pattern's first character is skipped. *)
Lemma find_sub_skip c p a b :
  occurs c a = false -> find_sub (String c p) (a +:+ b)
  = (fun i => String.length a + i) <$> find_sub (String c p) b.
Proof.
  induction a as [|x a IH]; intros Ha.
  { change ("" +:+ b) with b. by destruct (find_sub (String c p) b). }
  cbn -[Ascii.eqb] in *. apply orb_false_iff in Ha as [Hx Ha]. rewrite Hx, IH by done.
  by destruct (find_sub (String c p) b).
Qed.

Lemma find_last_if_last p a c :
  p c = true -> find_last_if p (a +:+ String c "") = Some (String.length a).
Proof. intros Hc. induction a as [|x a IH]; cbn; [by rewrite Hc | by rewrite IH]. Qed.

Lemma eqb_false (c d : ascii) : c <> d -> Ascii.eqb c d = false.
Proof. apply Ascii.eqb_neq. Qed.

Lemma find_last_app (p : ascii -> bool) a c b :
  p c = true -> (forall d, occurs d b = true -> p d = false) ->
  find_last_if p (a +:+ String c b) = Some (String.length a).
Proof.
  intros Hc Hb. induction a as [|x a IH]; cbn; [|by rewrite IH].
  rewrite Hc. enough (find_last_if p b = None) as -> by done.
  induction b as [|y b IH]; [done|]. cbn in *.
  rewrite IH.
  - rewrite (Hb y); [done|]. by rewrite Ascii.eqb_refl.
  - intros d Hd. apply Hb. by rewrite Hd, orb_true_r.
Qed.

#[export] Hint Rewrite str_app_assoc str_app_nil_r str_length_app str_length_take
  str_length_drop : jw_simpl.
#[export] Hint Resolve starts_with_app : jw.

(** ** [std::set<std::string>]

    A [std::set] is the sorted list of its elements, so that iterating it and
    comparing two sets with [==] are what the code does.  [operator<] on
    [std::string] compares the bytes as unsigned characters, which is
    [String.compare]. *)

Definition str_lt (x y : string) : Prop := String.compare x y = Lt.

#[export] Instance str_lt_trans : Transitive str_lt.
Proof. exact (StrictOrder_Transitive (R := String_as_OT.lt)). Qed.

Lemma str_lt_irrefl (x : string) : ~ str_lt x x.
Proof. intros H. exact (StrictOrder_Irreflexive (R := String_as_OT.lt) x H). Qed.

Lemma str_compare_lt_gt (x y : string) : String.compare x y = Gt -> str_lt y x.
Proof. unfold str_lt. rewrite String.compare_antisym. by destruct (String.compare y x). Qed.

Fixpoint sset_insert (x : string) (s : list string) : list string :=
  match s with
  | [] => [x]
  | y :: s' =>
      match String.compare x y with
      | Lt => x :: s
      | Eq => s
      | Gt => y :: sset_insert x s'
      end
  end.

(** [s.insert(first, last)]. *)
Definition sset_insert_all (l s : list string) : list string :=
  fold_left (fun acc x => sset_insert x acc) l s.

Definition sset_of_list (l : list string) : list string := sset_insert_all l [].

(** [s.count(x) > 0]. *)
Definition sset_mem (x : string) (s : list string) : bool := bool_decide (x ∈ s).

Definition sset_ok (s : list string) : Prop := StronglySorted str_lt s.

Lemma elem_of_sset_insert (x y : string) (s : list string) :
  y ∈ sset_insert x s <-> y = x \/ y ∈ s.
Proof.
  induction s as [|z s IH]; cbn; [set_solver|].
  destruct (String.compare x z) eqn:E.
  - apply String.compare_eq_iff in E. set_solver.
  - set_solver.
  - rewrite !elem_of_cons, IH. tauto.
Qed.

Lemma elem_of_sset_insert_all (y : string) (l s : list string) :
  y ∈ sset_insert_all l s <-> y ∈ l \/ y ∈ s.
Proof.
  unfold sset_insert_all. revert s; induction l as [|x l IH]; intros s; cbn; [set_solver|].
  rewrite IH, elem_of_sset_insert. set_solver.
Qed.

Lemma elem_of_sset_of_list (y : string) (l : list string) : y ∈ sset_of_list l <-> y ∈ l.
Proof. unfold sset_of_list. rewrite elem_of_sset_insert_all. set_solver. Qed.

Lemma sset_mem_spec (x : string) (s : list string) : sset_mem x s = true <-> x ∈ s.
Proof. apply bool_decide_eq_true. Qed.

Lemma sset_mem_false (x : string) (s : list string) : sset_mem x s = false <-> x ∉ s.
Proof. apply bool_decide_eq_false. Qed.

Lemma sset_insert_ok (x : string) (s : list string) : sset_ok s -> sset_ok (sset_insert x s).
Proof.
  unfold sset_ok. induction s as [|y s IH]; intros Hs; cbn; [repeat constructor|].
  apply StronglySorted_inv in Hs as [Hs Hy].
  destruct (String.compare x y) eqn:E.
  - by constructor.
  - constructor; [by constructor|]. constructor; [done|].
    eapply List.Forall_impl; [|exact Hy]. intros z Hz. by transitivity y.
  - constructor; [by apply IH|]. apply List.Forall_forall. intros z Hz.
    apply list_elem_of_In, elem_of_sset_insert in Hz as [->|Hz].
    + by apply str_compare_lt_gt.
    + rewrite List.Forall_forall in Hy. apply Hy. by apply list_elem_of_In.
Qed.

Lemma sset_insert_all_ok (l s : list string) : sset_ok s -> sset_ok (sset_insert_all l s).
Proof.
  unfold sset_insert_all. revert s; induction l as [|x l IH]; intros s Hs; cbn; [done|].
  apply IH. by apply sset_insert_ok.
Qed.

Lemma sset_of_list_ok (l : list string) : sset_ok (sset_of_list l).
Proof. apply sset_insert_all_ok. constructor. Qed.

(** Two sets with the same elements are equal, so [==] on sets compares their
    elements. *)
Lemma sset_ext (s t : list string) :
  sset_ok s -> sset_ok t -> (forall x, x ∈ s <-> x ∈ t) -> s = t.
Proof.
  unfold sset_ok. revert t; induction s as [|x s IH]; intros t Hs Ht Hst.
  - destruct t as [|y t]; [done|]. specialize (Hst y). set_solver.
  - destruct t as [|y t]; [specialize (Hst x); set_solver|].
    apply StronglySorted_inv in Hs as [Hs Hx]. apply StronglySorted_inv in Ht as [Ht Hy].
    rewrite List.Forall_forall in Hx, Hy.
    assert (x = y) as <-.
    { assert (x ∈ y :: t) as Hxt by (apply Hst; left).
      assert (y ∈ x :: s) as Hys by (apply Hst; left).
      apply elem_of_cons in Hxt as [|Hxt]; [done|].
      apply elem_of_cons in Hys as [|Hys]; [done|].
      apply list_elem_of_In in Hxt, Hys.
      destruct (str_lt_irrefl x). transitivity y; auto. }
    f_equal. apply IH; [done..|]. intros z. specialize (Hst z). split; intros Hz.
    + assert (z ∈ x :: t) as Hz' by set_solver.
      apply elem_of_cons in Hz' as [->|?]; [|done].
      destruct (str_lt_irrefl x). apply Hx. by apply list_elem_of_In.
    + assert (z ∈ x :: s) as Hz' by set_solver.
      apply elem_of_cons in Hz' as [->|?]; [|done].
      destruct (str_lt_irrefl x). apply Hy. by apply list_elem_of_In.
Qed.

Lemma sset_of_list_eq (l k : list string) :
  sset_of_list l = sset_of_list k <-> (forall x, x ∈ l <-> x ∈ k).
Proof.
  split.
  - intros H x. pose proof (elem_of_sset_of_list x l) as Hl.
    pose proof (elem_of_sset_of_list x k) as Hk. rewrite H in Hl. tauto.
  - intros H. apply sset_ext; [apply sset_of_list_ok..|].
    intros x. by rewrite !elem_of_sset_of_list.
Qed.

#[export] Hint Resolve sset_insert_ok sset_insert_all_ok sset_of_list_ok : jw.

(** ** Lists *)

(** [std::find(l.begin(), l.end(), x) != l.end()]. *)
Definition list_has (x : string) (l : list string) : bool := bool_decide (x ∈ l).

(** [l.erase(std::remove(l.begin(), l.end(), x), l.end())]. *)
Definition list_erase (x : string) (l : list string) : list string :=
  List.filter (fun y => negb (String.eqb y x)) l.

Lemma list_has_spec (x : string) (l : list string) : list_has x l = true <-> x ∈ l.
Proof. apply bool_decide_eq_true. Qed.

Lemma list_has_false (x : string) (l : list string) : list_has x l = false <-> x ∉ l.
Proof. apply bool_decide_eq_false. Qed.

Lemma elem_of_filterb {A} (p : A -> bool) (x : A) (l : list A) :
  x ∈ List.filter p l <-> x ∈ l /\ p x = true.
Proof. rewrite !list_elem_of_In. apply filter_In. Qed.

Lemma elem_of_list_erase (x y : string) (l : list string) :
  y ∈ list_erase x l <-> y ∈ l /\ y <> x.
Proof. unfold list_erase. by rewrite elem_of_filterb, negb_true_iff, String.eqb_neq. Qed.

Lemma filterb_idem {A} (p : A -> bool) (l : list A) :
  List.filter p (List.filter p l) = List.filter p l.
Proof.
  induction l as [|x l IH]; [done|]. cbn. destruct (p x) eqn:E; cbn; [|done].
  by rewrite E, IH.
Qed.

Lemma filterb_all {A} (p : A -> bool) (l : list A) :
  (forall x, x ∈ l -> p x = true) -> List.filter p l = l.
Proof.
  induction l as [|x l IH]; [done|]. intros H. cbn. rewrite H by left.
  f_equal. apply IH. intros y Hy. apply H. by right.
Qed.

Lemma filterb_length {A} (p : A -> bool) (l : list A) :
  length (List.filter p l) <= length l.
Proof. induction l as [|x l IH]; cbn; [done|]. destruct (p x); cbn; lia. Qed.

Lemma NoDup_filterb {A} (p : A -> bool) (l : list A) : NoDup l -> NoDup (List.filter p l).
Proof.
  induction 1 as [|x l Hx Hl IH]; cbn; [constructor|].
  destruct (p x); [|done]. constructor; [|done]. rewrite elem_of_filterb. tauto.
Qed.

(** ** Reachability

    The reflexive transitive closure of a step relation, with invariants by
    rule induction. *)

Inductive reach {S : Type} (step : S -> S -> Prop) (init : S) : S -> Prop :=
  | reach_refl : reach step init init
  | reach_step s s' : reach step init s -> step s s' -> reach step init s'.

Lemma reach_invariant {S} (step : S -> S -> Prop) (P : S -> Prop) (init : S) :
  P init -> (forall s s', P s -> step s s' -> P s') -> forall s, reach step init s -> P s.
Proof. intros H0 Hs s. induction 1; eauto. Qed.

Lemma reach_trans {S} (step : S -> S -> Prop) (a b c : S) :
  reach step a b -> reach step b c -> reach step a c.
Proof. intros Hab. induction 1; eauto using reach_step. Qed.

#[export] Hint Constructors reach : jw.
