(* ===== verification/Numbers.v ===== *)
(** * Numbers in text

    What [std::stoi], [std::stoll] and [operator>>] read from the start of a text,
    and that they read back what [std::to_string] writes. *)
From Stdlib Require Import ZArith NArith Lia String Ascii List.
From stdpp Require Import base decidable list strings pretty.
From S2P Require Import Prelude.
Open Scope Z_scope.

(** ** [int] arithmetic *)

Definition int_in_range (z : Z) : bool := (- 2 ^ 31 <=? z) && (z <? 2 ^ 31).
(** An [int] result: [None] when the operation overflows. *)
Definition int_result (z : Z) : option Z := if int_in_range z then Some z else None.

(** [static_cast<int>]. *)
Definition int_cast (z : Z) : Z := (z + 2 ^ 31) mod 2 ^ 32 - 2 ^ 31.

Lemma int_cast_id (z : Z) : - 2 ^ 31 <= z < 2 ^ 31 -> int_cast z = z.
Proof. intros Hz. unfold int_cast. rewrite Z.mod_small; lia. Qed.

Lemma int_result_ok (z : Z) : - 2 ^ 31 <= z < 2 ^ 31 -> int_result z = Some z.
Proof.
  intros Hz. unfold int_result, int_in_range. destruct (Z.leb_spec (- 2 ^ 31) z), (Z.ltb_spec z (2 ^ 31)); try lia. done.
Qed.

(** ** Reading *)

Fixpoint after_digits (s : string) : string :=
  match s with
  | String c s' => match digit_of c with Some _ => after_digits s' | None => s end
  | EmptyString => ""
  end.

(** A number of [lo, hi) and the text after it; [None] when there are no digits or it
    is out of range. *)
Definition scan_number (lo hi : Z) (s : string) : option (Z * string) :=
  let t := skip_space s in
  let '(negative, u) :=
    match t with
    | String c t' => if Ascii.eqb c "-" then (true, t') else if Ascii.eqb c "+" then (false, t')
                     else (false, t)
    | EmptyString => (false, "")
    end in
  match u with
  | String c _ =>
      match digit_of c with
      | None => None
      | Some _ =>
          let z := if negative : bool then - Z.of_N (digits 0 u) else Z.of_N (digits 0 u) in
          if (lo <=? z) && (z <? hi) then Some (z, after_digits u) else None
      end
  | EmptyString => None
  end.

(** An [int] by [operator>>]; [std::stoi] and [std::stoll], [None] where they throw. *)
Definition read_int : string -> option (Z * string) := scan_number (- 2 ^ 31) (2 ^ 31).
Definition stoi (s : string) : option Z := fst <$> read_int s.
Definition stoll (s : string) : option Z := fst <$> scan_number (- 2 ^ 63) (2 ^ 63) s.

Lemma digit_of_pretty d : (d < 10)%N -> digit_of (pretty_N_char d) = Some d.
Proof. intros Hd. assert (d = 0 \/ d = 1 \/ d = 2 \/ d = 3 \/ d = 4 \/ d = 5 \/ d = 6 \/ d = 7 \/ d = 8 \/ d = 9)%N
  as Hc by lia. by repeat destruct Hc as [->|Hc]; [.. | subst]. Qed.

Lemma digits_pretty (x : N) (s : string) : (0 < x)%N -> digits 0 (pretty_N_go x s) = digits x s.
Proof.
  revert s. induction (N.lt_wf_0 x) as [x _ IH]; intros s Hx.
  rewrite pretty_N_go_step by done.
  assert (x mod 10 < 10)%N as Hm by (by apply N.mod_lt).
  pose proof (N.div_mod x 10 ltac:(done)) as Hx2.
  destruct (decide (x / 10 = 0)%N) as [E|E].
  - rewrite E in *. rewrite pretty_N_go_0. cbn [digits]. rewrite digit_of_pretty by done. f_equal. lia.
  - assert (x / 10 < x)%N by (by apply N.div_lt).
    rewrite IH by lia. cbn [digits]. rewrite digit_of_pretty by done. f_equal. lia.
Qed.

Lemma pretty_head (x : N) (s : string) :
  (0 < x)%N -> exists c t, pretty_N_go x s = String c t /\ is_Some (digit_of c).
Proof.
  revert s. induction (N.lt_wf_0 x) as [x _ IH]; intros s Hx.
  rewrite pretty_N_go_step by done.
  destruct (decide (x / 10 = 0)%N) as [E|E].
  - rewrite E, pretty_N_go_0. eexists _, _. split; [done|].
    rewrite digit_of_pretty by (by apply N.mod_lt). by eexists.
  - assert (x / 10 < x)%N by (by apply N.div_lt). apply IH; [done | by apply N.neq_0_lt_0].
Qed.

Lemma digit_char c d : digit_of c = Some d ->
  is_space c = false /\ Ascii.eqb c "-" = false /\ Ascii.eqb c "+" = false /\ Ascii.eqb c NL = false.
Proof.
  intros Hd. assert (forall e, digit_of e = None -> Ascii.eqb c e = false) as He.
  { intros e Hn. apply Ascii.eqb_neq. congruence. }
  split_and!; [|by apply He..]. unfold digit_of, is_space in *.
  destruct (N.leb_spec 48 (byte_of c)); [|done]. cbn in Hd.
  destruct (N.eqb_spec (byte_of c) 32), (N.leb_spec (byte_of c) 13); try lia.
Qed.

(** What follows a number does not extend it. *)
Definition no_digit (s : string) : Prop :=
  match s with String c _ => digit_of c = None | EmptyString => True end.

Lemma digits_app (acc : N) (a b : string) :
  (forall c, occurs c a = true -> is_Some (digit_of c)) -> no_digit b -> digits acc (a +:+ b) = digits acc a.
Proof.
  intros Ha Hb. revert acc; induction a as [|c a IH]; intros acc.
  - destruct b as [|d b]; [done|]. cbn in *. by rewrite Hb.
  - change (String c a +:+ b) with (String c (a +:+ b)). cbn [digits].
    destruct (Ha c) as [d ->]; [cbn; by rewrite Ascii.eqb_refl|].
    apply IH. intros c' Hc'. apply Ha. cbn. by rewrite Hc', orb_true_r.
Qed.

Lemma after_digits_app (a b : string) :
  (forall c, occurs c a = true -> is_Some (digit_of c)) -> no_digit b -> after_digits (a +:+ b) = b.
Proof.
  intros Ha Hb. induction a as [|c a IH].
  - destruct b as [|d b]; [done|]. cbn in *. by rewrite Hb.
  - change (String c a +:+ b) with (String c (a +:+ b)). cbn [after_digits].
    destruct (Ha c) as [d ->]; [cbn; by rewrite Ascii.eqb_refl|].
    apply IH. intros c' Hc'. apply Ha. cbn. by rewrite Hc', orb_true_r.
Qed.

Lemma pretty_digits (x : N) (s : string) :
  (forall c, occurs c s = true -> is_Some (digit_of c)) ->
  forall c, occurs c (pretty_N_go x s) = true -> is_Some (digit_of c).
Proof.
  revert s. induction (N.lt_wf_0 x) as [x _ IH]; intros s Hs.
  destruct (decide (x = 0)%N) as [->|Hx]; [by rewrite pretty_N_go_0|].
  rewrite pretty_N_go_step by lia. apply IH; [by apply N.div_lt; lia|].
  intros c. cbn [occurs]. intros [Hc|Hc]%orb_true_iff; [|by apply Hs].
  apply Ascii.eqb_eq in Hc as ->. rewrite digit_of_pretty by (by apply N.mod_lt). by eexists.
Qed.

Lemma pretty_pos (p : positive) :
  exists c t, pretty_N_go (N.pos p) "" = String c t /\ is_Some (digit_of c) /\
    digits 0 (String c t) = N.pos p /\ forall d, occurs d (String c t) = true -> is_Some (digit_of d).
Proof.
  destruct (pretty_head (N.pos p) "" ltac:(lia)) as (c & t & E & Hd).
  pose proof (digits_pretty (N.pos p) "" ltac:(lia)) as Hv.
  pose proof (pretty_digits (N.pos p) "" ltac:(done)) as Hall. rewrite E in *.
  exists c, t. by split_and!.
Qed.

(** A written number is read back, and what follows it is left. *)
Lemma scan_number_to_string (lo hi z : Z) (rest : string) :
  lo <= z < hi -> no_digit rest -> scan_number lo hi (to_string z +:+ rest) = Some (z, rest).
Proof.
  intros Hz Hrest.
  assert (forall b : bool, (if (lo <=? z) && (z <? hi) then Some (z, rest) else None) = Some (z, rest)) as Hin
    by (intros _; destruct (Z.leb_spec lo z), (Z.ltb_spec z hi); try lia; done).
  destruct z as [|p|p].
  - change (to_string 0 +:+ rest) with (String "0" rest). unfold scan_number. cbn [skip_space].
    destruct (digit_char "0" 0%N eq_refl) as (Hs & Hm & Hp & _). rewrite Hs, Hm, Hp.
    change (digit_of "0") with (Some 0%N). cbn iota beta. change (String "0" rest) with ("0" +:+ rest).
    assert (forall c, occurs c "0" = true -> is_Some (digit_of c)) as H0.
    { intros c Hc. cbn [occurs] in Hc. rewrite orb_false_r in Hc. apply Ascii.eqb_eq in Hc as ->. by eexists. }
    rewrite (digits_app 0 "0" rest), (after_digits_app "0" rest) by done. apply Hin, true.
  - change (to_string (Z.pos p)) with (pretty_N_go (N.pos p) "").
    destruct (pretty_pos p) as (c & t & -> & [d Hd] & Hv & Hall).
    destruct (digit_char c d Hd) as (Hs & Hm & Hp & _).
    unfold scan_number. change (String c t +:+ rest) with (String c (t +:+ rest)). cbn [skip_space].
    rewrite Hs, Hm, Hp. cbn iota beta. rewrite Hd. change (String c (t +:+ rest)) with (String c t +:+ rest).
    rewrite digits_app, after_digits_app, Hv by done. apply Hin, true.
  - change (to_string (Z.neg p)) with (String "-" (pretty_N_go (N.pos p) "")).
    destruct (pretty_pos p) as (c & t & -> & [d Hd] & Hv & Hall).
    unfold scan_number. change (String "-" (String c t) +:+ rest) with (String "-" (String c t +:+ rest)).
    cbn [skip_space]. change (is_space "-") with false. cbn iota. rewrite Ascii.eqb_refl.
    change (String c t +:+ rest) with (String c (t +:+ rest)). cbn iota beta. rewrite Hd.
    change (String c (t +:+ rest)) with (String c t +:+ rest).
    rewrite digits_app, after_digits_app, Hv by done. apply Hin, true.
Qed.

Lemma stoi_to_string (z : Z) : - 2 ^ 31 <= z < 2 ^ 31 -> stoi (to_string z) = Some z.
Proof.
  intros Hz. unfold stoi, read_int. rewrite <- (str_app_nil_r (to_string z)).
  by rewrite scan_number_to_string.
Qed.

Lemma stoll_to_string (z : Z) : - 2 ^ 63 <= z < 2 ^ 63 -> stoll (to_string z) = Some z.
Proof.
  intros Hz. unfold stoll. rewrite <- (str_app_nil_r (to_string z)). by rewrite scan_number_to_string.
Qed.

Lemma scan_number_range (lo hi : Z) (s rest : string) (z : Z) :
  scan_number lo hi s = Some (z, rest) -> lo <= z < hi.
Proof.
  unfold scan_number. intros E. repeat case_match; simplify_eq;
    match goal with H : _ && _ = true |- _ => apply andb_true_iff in H as [?%Z.leb_le ?%Z.ltb_lt] end; lia.
Qed.

Lemma stoi_range (s : string) (z : Z) : stoi s = Some z -> - 2 ^ 31 <= z < 2 ^ 31.
Proof. unfold stoi. intros ([z' r] & E & ->)%fmap_Some. by apply scan_number_range in E. Qed.

Lemma occurs_false (c : ascii) (s : string) :
  (forall d, occurs d s = true -> d <> c) -> occurs c s = false.
Proof. intros Hs. destruct (occurs c s) eqn:E; [by destruct (Hs c E) | done]. Qed.

(** A written number is digits, and perhaps a sign. *)
Lemma to_string_chars (z : Z) (d : ascii) :
  occurs d (to_string z) = true -> d = "-"%char \/ is_Some (digit_of d).
Proof.
  intros Hd. destruct z as [|p|p].
  - cbn in Hd. rewrite orb_false_r in Hd. apply Ascii.eqb_eq in Hd as ->. right. by eexists.
  - change (to_string (Z.pos p)) with (pretty_N_go (N.pos p) "") in Hd.
    destruct (pretty_pos p) as (c & t & E & _ & _ & Hall). rewrite E in Hd. right. by apply Hall.
  - change (to_string (Z.neg p)) with (String "-" (pretty_N_go (N.pos p) "")) in Hd.
    destruct (pretty_pos p) as (c & t & E & _ & _ & Hall). rewrite E in Hd.
    cbn [occurs] in Hd. apply orb_true_iff in Hd as [Hd|Hd]; [left; by apply Ascii.eqb_eq in Hd|].
    right. by apply Hall.
Qed.

Lemma pretty_length (k : nat) (x : N) (s : string) :
  (x < 10 ^ N.of_nat k)%N -> (String.length (pretty_N_go x s) <= k + String.length s)%nat.
Proof.
  revert x s; induction k as [|k IH]; intros x s Hx.
  { assert (x = 0)%N as -> by (cbn in Hx; lia). by rewrite pretty_N_go_0. }
  destruct (decide (x = 0)%N) as [->|Hn]; [rewrite pretty_N_go_0; lia|].
  rewrite pretty_N_go_step by lia. etrans; [apply IH|cbn [String.length]; lia].
  apply N.Div0.div_lt_upper_bound. rewrite Nat2N.inj_succ, N.pow_succ_r' in Hx. lia.
Qed.

(** A number below [10 ^ k] has at most [k] digits. *)
Lemma to_string_length (k : nat) (z : Z) :
  0 <= z < 10 ^ Z.of_nat k -> (String.length (to_string z) <= Nat.max 1 k)%nat.
Proof.
  intros Hz. destruct z as [|p|p]; [cbn; lia | | lia].
  change (to_string (Z.pos p)) with (pretty_N_go (N.pos p) "").
  assert (N.pos p < 10 ^ N.of_nat k)%N as Hp.
  { apply N2Z.inj_lt. rewrite N2Z.inj_pow, nat_N_Z. apply Hz. }
  pose proof (pretty_length k (N.pos p) "" Hp) as Hl. cbn [String.length] in Hl. lia.
Qed.

Lemma to_string_not_empty (z : Z) : to_string z <> "".
Proof.
  destruct z as [|p|p]; [done| |done]. change (to_string (Z.pos p)) with (pretty_N_go (N.pos p) "").
  by destruct (pretty_pos p) as (c & t & -> & _).
Qed.

(** A number is written on one line. *)
Lemma to_string_no_nl (z : Z) : occurs NL (to_string z) = false.
Proof.
  apply occurs_false. intros d Hd. destruct (to_string_chars z d Hd) as [->|[v Hv]]; [done|]. by intros ->.
Qed.

Lemma digits_only (n : Z) (d : ascii) : 0 <= n -> digit_of d = None -> occurs d (to_string n) = false.
Proof.
  intros Hn Hd. apply occurs_false. intros e He ->. destruct n as [|p|p]; [|  |lia].
  - cbn in He. rewrite orb_false_r in He. by apply Ascii.eqb_eq in He as ->.
  - change (to_string (Z.pos p)) with (pretty_N_go (N.pos p) "") in He.
    destruct (pretty_pos p) as (c & t & E & _ & _ & Hall). rewrite E in He.
    apply Hall in He as [? Hs]. congruence.
Qed.
