(* ===== verification/Types.v ===== *)
(** * Data types of the framework (include/types.h, include/model.h,
    include/memory_config.h, include/config_node.h, include/memory_types.h)

    Records for the structs with their default initialisers as [default_*]
    values, inductive types for the enums.  A C++ [int] is a [Z]; floats are
    [spec_float] values, on which the library only does copying and the
    conversion between [double] and [float]. *)
From Stdlib Require Import ZArith String Ascii List Floats.SpecFloat.
From stdpp Require Import base decidable list strings gmap.
From S2P Require Import Prelude.
Open Scope Z_scope.

(** ** Messages (include/model.h) *)

Record ToolCall := mkToolCall {
  tc_id : string;
  tc_name : string;
  tc_argumentsJson : string
}.

Record Message := mkMessage {
  m_role : string;
  m_content : string;
  m_toolCalls : list ToolCall;
  m_toolCallId : string;
  m_toolName : string;
  m_payloadRef : string;
  m_timestamp : string
}.

(** A default-constructed [Message] with its role and content set. *)
Definition text_message (role content : string) : Message :=
  mkMessage role content [] "" "" "" "".

Definition set_content (c : string) (m : Message) : Message :=
  mkMessage (m_role m) c (m_toolCalls m) (m_toolCallId m) (m_toolName m) (m_payloadRef m)
    (m_timestamp m).
Definition set_toolCalls (tcs : list ToolCall) (m : Message) : Message :=
  mkMessage (m_role m) (m_content m) tcs (m_toolCallId m) (m_toolName m) (m_payloadRef m)
    (m_timestamp m).
Definition set_timestamp (t : string) (m : Message) : Message :=
  mkMessage (m_role m) (m_content m) (m_toolCalls m) (m_toolCallId m) (m_toolName m)
    (m_payloadRef m) t.

Record ModelResponse := mkModelResponse {
  mr_content : string;
  mr_toolCalls : list ToolCall;
  mr_isFinished : bool;
  mr_finishReason : string;
  mr_isRetryable : bool;
  mr_statusCode : option Z
}.

Definition default_ModelResponse : ModelResponse := mkModelResponse "" [] false "" false None.

(** ** Configuration (include/types.h, include/memory_config.h,
    include/config_node.h) *)

Inductive ModelFormatType := OPENAI | ANTHROPIC.
Inductive AgentWorkMode := REACT | PLAN_AND_EXECUTE | WORKFLOW.
Inductive PromptResourceType := TEXT | FILE_PATH.
Inductive StorageType := MEMORY_ONLY | JSON_FILE | DATABASE.
Inductive ToolDisclosureMode := DISABLED | PROGRESSIVE | SELECTIVE | AUTO.

Record RetryPolicy := mkRetryPolicy {
  maxRetries : Z;
  baseDelayMs : Z;
  maxDelayMs : Z;
  withJitter : bool
}.
Definition default_RetryPolicy : RetryPolicy := mkRetryPolicy 2 400 3000 true.

(** A node is its [fields_] map; [V] is the type of the values. *)
Record NodeOf (V : Type) := mkConfigNode { fields_ : gmap string V }.
Arguments mkConfigNode {V}.
Arguments fields_ {V}.

(** [std::variant] of the six alternatives; a null [shared_ptr<ConfigNode>] is
    [CVNode None]. *)
Inductive ConfigValue :=
  | CVInt (n : Z)
  | CVFloat (f : spec_float)
  | CVBool (b : bool)
  | CVString (s : string)
  | CVList (l : list string)
  | CVNode (n : option (NodeOf ConfigValue)).
Definition ConfigNode : Type := NodeOf ConfigValue.
Definition default_ConfigNode : ConfigNode := mkConfigNode ∅.

Record PromptResource := mkPromptResource {
  pr_type : PromptResourceType;
  pr_value : string
}.
Definition default_PromptResource : PromptResource := mkPromptResource TEXT "".

Record ModelConfig := mkModelConfig {
  baseUrl : string;
  apiKey : string;
  modelName : string;
  provider : string;
  formatType : ModelFormatType;
  useNativeFunctionCalling : bool;
  extraParams : ConfigNode;
  retryPolicy : RetryPolicy
}.
Definition default_ModelConfig : ModelConfig :=
  mkModelConfig "" "" "" "" OPENAI true default_ConfigNode default_RetryPolicy.

Record ContextConfig := mkContextConfig {
  maxContextTokens : Z;
  maxMessages : Z;
  cc_sessionId : string;
  storagePath : string;
  storageType : StorageType;
  enableSummarization : bool
}.
Definition default_ContextConfig : ContextConfig :=
  mkContextConfig 4096 50 "" "" JSON_FILE false.

Record DreamConfig := mkDreamConfig {
  dc_dataBasePath : string;
  historyPath : string;
  maxBatchSize : Z;
  dc_maxIterations : Z;
  maxToolResultChars : Z;
  historyEntryPreviewMaxChars : Z;
  memoryFileMaxChars : Z
}.
Definition default_DreamConfig : DreamConfig := mkDreamConfig "" "" 20 10 16000 4000 32000.

Record MemoryConfig := mkMemoryConfig {
  mc_enabled : bool;
  mc_mode : string;
  mc_provider : string;
  mc_dataPath : string;
  serverUrl : string;
  serverApiKey : string;
  serverTimeoutSeconds : Z;
  serverMaxRetries : Z;
  serverCircuitThreshold : Z;
  serverCircuitCooldownSeconds : Z;
  tokenBudget : Z;
  offloadToolResultChars : Z;
  enablePayloadOffload : bool;
  idleConsolidationSeconds : Z;
  excludedConsolidationSessionIds : list string;
  modelEnabled : bool;
  modelFormatType : string;
  modelBaseUrl : string;
  modelApiKey : string;
  mc_modelName : string;
  modelOrganization : string;
  modelAnthropicVersion : string;
  modelTimeoutSeconds : Z;
  modelTemperature : spec_float;
  modelMaxTokens : Z;
  eventEntityTypes : list string;
  eventEntityTtlDays : Z;
  mc_extraParams : ConfigNode
}.
Definition default_MemoryConfig : MemoryConfig :=
  mkMemoryConfig true "sdk" "builtin.compat" "" "" "" 10 2 5 30 4096 8000 true 60 []
    false "openai" "" "" "" "" "2023-06-01" 60 (S754_zero false) 0
    ["topic"; "task"; "project"; "file"]%string 7 default_ConfigNode.

Record AgentConfig := mkAgentConfig {
  ac_id : string;
  ac_name : string;
  ac_description : string;
  ac_version : string;
  ac_mode : AgentWorkMode;
  modelConfig : ModelConfig;
  promptTemplates : gmap string PromptResource;
  contextConfig : ContextConfig;
  dreamConfig : DreamConfig;
  memoryConfig : MemoryConfig;
  skillDirectory : string;
  maxIterations : Z;
  dataBasePath : string;
  maxConcurrentSessions : Z;
  defaultTools : list string;
  toolDisclosureMode : ToolDisclosureMode;
  toolSchemaTokenBudget : Z;
  toolCatalogTokenBudget : Z;
  alwaysOnTools : list string;
  mcpServerIds : list string
}.
(** [AgentConfig cfg{}] value-initialises [mode] to its first enumerator. *)
Definition default_AgentConfig : AgentConfig :=
  mkAgentConfig "" "" "" "" REACT default_ModelConfig ∅ default_ContextConfig
    default_DreamConfig default_MemoryConfig "" 10 "" 3 [] SELECTIVE 0 0 [] [].

(** ** Events (include/memory_types.h, include/types.h) *)

Inductive MemoryEventType :=
  | SESSION_STARTED | SESSION_ENDED | MESSAGE_APPENDED | TOOL_CALL_STARTED
  | TOOL_CALL_FINISHED | PAYLOAD_OFFLOADED | CONSOLIDATION_REQUESTED
  | CONSOLIDATION_COMPLETED.

(** Without [metadata], which no code of the repository sets: it is always the
    empty object. *)
Record MemoryEvent := mkMemoryEvent {
  ev_type : MemoryEventType;
  ev_agentId : string;
  ev_sessionId : string;
  ev_role : string;
  ev_content : string;
  ev_toolCallId : string;
  ev_toolName : string;
  ev_payloadRef : string;
  ev_storeCursor : string;
  ev_timestamp : string
}.

Record HistoryEntry := mkHistoryEntry {
  he_cursor : Z;
  he_timestamp : string;
  he_role : string;
  he_content : string;
  he_toolCallId : string;
  he_toolName : string;
  he_payloadRef : string
}.

(** ** Decidable equality *)

#[export] Instance ToolCall_eq_dec : EqDecision ToolCall.
Proof. solve_decision. Defined.
#[export] Instance Message_eq_dec : EqDecision Message.
Proof. solve_decision. Defined.
#[export] Instance ModelFormatType_eq_dec : EqDecision ModelFormatType.
Proof. solve_decision. Defined.
#[export] Instance ToolDisclosureMode_eq_dec : EqDecision ToolDisclosureMode.
Proof. solve_decision. Defined.
#[export] Instance StorageType_eq_dec : EqDecision StorageType.
Proof. solve_decision. Defined.
#[export] Instance MemoryEventType_eq_dec : EqDecision MemoryEventType.
Proof. solve_decision. Defined.
#[export] Instance MemoryEvent_eq_dec : EqDecision MemoryEvent.
Proof. solve_decision. Defined.
