(* ===== verification/Encoding.v ===== *)
(** * UTF-8 repair (src/utils/encoding.cpp)

    [FixStringUTF8] against the RFC 3629 grammar [utf8]: its result is always
    well formed, and it changes exactly the ill-formed strings. *)
From Stdlib Require Import ZArith NArith Lia ZifyBool String Ascii List.
From stdpp Require Import base decidable list strings.
From S2P Require Import Prelude Numbers.
Open Scope N_scope.

Definition kReplacement : string :=
  String (ascii_of_N 239) (String (ascii_of_N 191) (String (ascii_of_N 189) "")).

Definition in_range (lo hi : N) (c : ascii) : bool := (lo <=? byte_of c) && (byte_of c <=? hi).

(** [(c & 0xC0) == 0x80]. *)
Definition IsCont (c : ascii) : bool := N.land (byte_of c) 192 =? 128.

(** The lead byte's [expectedLength], [minSecond] and [maxSecond]; [None] for a
    byte that starts no sequence. *)
Definition lead_info (c : ascii) : option (nat * N * N) :=
  if in_range 194 223 c then Some (2%nat, 128, 191)
  else if in_range 224 239 c then
    Some (3%nat, if byte_of c =? 224 then 160 else 128, if byte_of c =? 237 then 159 else 191)
  else if in_range 240 244 c then
    Some (4%nat, if byte_of c =? 240 then 144 else 128, if byte_of c =? 244 then 143 else 191)
  else None.

Fixpoint all_cont (n : nat) (s : string) : bool :=
  match n, s with
  | O, _ => true
  | S n', String c s' => IsCont c && all_cont n' s'
  | S _, EmptyString => false
  end.

(** The tests on the bytes after lead byte [c]: the sequence is all there, the
    second byte is in the lead's range, the others are continuation bytes.  The
    result is the number of bytes after the lead. *)
Definition valid_tail (c : ascii) (rest : string) : option nat :=
  match lead_info c with
  | None => None
  | Some (expectedLength, minSecond, maxSecond) =>
      if Nat.ltb (String.length rest) (expectedLength - 1) then None
      else match rest with
           | String b2 rest' =>
               if (byte_of b2 <? minSecond) || (maxSecond <? byte_of b2) then None
               else if all_cont (expectedLength - 2) rest' then Some (expectedLength - 1)%nat
               else None
           | EmptyString => None
           end
  end.

(** The loop over [i]; [copy] bytes of an accepted sequence are still to be
    appended by [result.append(str, i, expectedLength)]. *)
Fixpoint fix_loop (copy : nat) (s : string) : string :=
  match s with
  | EmptyString => ""
  | String c s' =>
      match copy with
      | S k => String c (fix_loop k s')
      | O =>
          if byte_of c <=? 127 then String c (fix_loop 0 s')
          else match valid_tail c s' with
               | Some k => String c (fix_loop k s')
               | None => kReplacement +:+ fix_loop 0 s'
               end
      end
  end.

Definition FixStringUTF8 (str : string) : string := fix_loop 0 str.

(** ** The grammar of RFC 3629 *)

Definition tail (c : ascii) : bool := in_range 128 191 c.

Inductive utf8 : string -> Prop :=
  | utf8_nil : utf8 ""
  | utf8_1 c s : byte_of c <= 127 -> utf8 s -> utf8 (String c s)
  | utf8_2 a b s : in_range 194 223 a -> tail b -> utf8 s -> utf8 (String a (String b s))
  | utf8_3 a b c s :
      (byte_of a = 224 /\ in_range 160 191 b) \/ (in_range 225 236 a /\ tail b) \/
      (byte_of a = 237 /\ in_range 128 159 b) \/ (in_range 238 239 a /\ tail b) ->
      tail c -> utf8 s -> utf8 (String a (String b (String c s)))
  | utf8_4 a b c d s :
      (byte_of a = 240 /\ in_range 144 191 b) \/ (in_range 241 243 a /\ tail b) \/
      (byte_of a = 244 /\ in_range 128 143 b) ->
      tail c -> tail d -> utf8 s -> utf8 (String a (String b (String c (String d s)))).

(** ** Lemmas *)

Lemma IsCont_tail (c : ascii) : IsCont c = tail c.
Proof. destruct c as [[] [] [] [] [] [] [] []]; reflexivity. Qed.

Lemma in_range_spec (lo hi : N) (c : ascii) :
  in_range lo hi c = true <-> lo <= byte_of c <= hi.
Proof. unfold in_range. rewrite andb_true_iff, !N.leb_le. tauto. Qed.

Ltac ranges :=
  repeat match goal with
    | H : Is_true _ |- _ => apply Is_true_true in H
    | |- Is_true _ => apply Is_true_true
    | H : in_range _ _ _ = true |- _ => apply in_range_spec in H
    | H : tail _ = true |- _ => apply in_range_spec in H
    | |- in_range _ _ _ = true => apply in_range_spec
    | |- tail _ = true => apply in_range_spec
    end.

(** Choose the alternative of the grammar whose ranges hold. *)
Ltac pick_range :=
  first [ lia
        | split; ranges; lia
        | left; split; ranges; lia
        | right; pick_range ].

Lemma in_range_false (lo hi : N) (c : ascii) :
  in_range lo hi c = false <-> byte_of c < lo \/ hi < byte_of c.
Proof. rewrite <- not_true_iff_false, in_range_spec. lia. Qed.

Lemma lead_info_cases (c : ascii) n lo hi :
  lead_info c = Some (n, lo, hi) ->
  (n = 2%nat /\ 194 <= byte_of c <= 223 /\ lo = 128 /\ hi = 191) \/
  (n = 3%nat /\ 224 <= byte_of c <= 239 /\ lo = (if byte_of c =? 224 then 160 else 128) /\
     hi = (if byte_of c =? 237 then 159 else 191)) \/
  (n = 4%nat /\ 240 <= byte_of c <= 244 /\ lo = (if byte_of c =? 240 then 144 else 128) /\
     hi = (if byte_of c =? 244 then 143 else 191)).
Proof.
  unfold lead_info. intros H.
  destruct (in_range 194 223 c) eqn:E1; [apply in_range_spec in E1; simplify_eq; tauto|].
  destruct (in_range 224 239 c) eqn:E2; [apply in_range_spec in E2; simplify_eq; tauto|].
  destruct (in_range 240 244 c) eqn:E3; [apply in_range_spec in E3; simplify_eq; tauto | done].
Qed.

(** An accepted sequence is one of the grammar's, and copying it keeps the rest. *)
Lemma valid_tail_sound (c : ascii) (s : string) (k : nat) :
  valid_tail c s = Some k ->
  fix_loop k s = str_take k s +:+ fix_loop 0 (str_drop k s) /\
  forall t, utf8 t -> utf8 (String c (str_take k s +:+ t)).
Proof.
  unfold valid_tail. destruct (lead_info c) as [[[n lo] hi]|] eqn:El; [|done].
  destruct (Nat.ltb _ _) eqn:Hlen; [done|]. apply Nat.ltb_ge in Hlen.
  destruct s as [|b2 s]; [done|]. destruct (_ || _) eqn:Hb; [done|].
  apply orb_false_iff in Hb as [?%N.ltb_ge ?%N.ltb_ge].
  destruct (all_cont (n - 2) s) eqn:Hc; [|done]. intros [= <-].
  apply lead_info_cases in El as [(-> & Hr & -> & ->)|[(-> & Hr & -> & ->)|(-> & Hr & -> & ->)]];
    cbn [Nat.sub all_cont String.length] in *.
  - split; [done|]. intros t Ht. apply utf8_2; ranges; [lia..|done].
  - destruct s as [|b3 s]; [done|]. rewrite andb_true_r, IsCont_tail in Hc.
    split; [done|]. intros t Ht. apply utf8_3; ranges; [|lia|done].
    destruct (byte_of c =? 224) eqn:? in *; destruct (byte_of c =? 237) eqn:? in *;
      destruct (byte_of c <=? 236) eqn:?; pick_range.
  - destruct s as [|b3 [|b4 s]]; [done| |].
    { by rewrite andb_false_r in Hc. }
    rewrite andb_true_r, !IsCont_tail in Hc. apply andb_true_iff in Hc as [Hc3 Hc4].
    split; [done|]. intros t Ht. apply utf8_4; ranges; [|lia|lia|done].
    destruct (byte_of c =? 240) eqn:? in *; destruct (byte_of c =? 244) eqn:? in *; pick_range.
Qed.

Lemma kReplacement_utf8 (t : string) : utf8 t -> utf8 (kReplacement +:+ t).
Proof.
  intros Ht. apply utf8_3; [do 3 right; split; reflexivity | reflexivity | done].
Qed.

Lemma valid_tail_bound (c : ascii) (s : string) (k : nat) :
  valid_tail c s = Some k -> (k <= String.length s)%nat.
Proof.
  unfold valid_tail. destruct (lead_info c) as [[[n lo] hi]|]; [|done].
  destruct (Nat.ltb_spec (String.length s) (n - 1)); [done|]. destruct s as [|b s]; [done|].
  destruct (_ || _); [done|]. destruct (all_cont _ _); [|done]. intros [= <-]. lia.
Qed.

Lemma fix_utf8_aux (n : nat) (s : string) : (String.length s <= n)%nat -> utf8 (fix_loop 0 s).
Proof.
  revert s; induction n as [|n IH]; intros [|c s] Hn; cbn [String.length fix_loop] in *;
    try (by constructor); [lia|].
  destruct (N.leb_spec (byte_of c) 127); [apply utf8_1; [done|]; apply IH; lia|].
  destruct (valid_tail c s) as [k|] eqn:E.
  - destruct (valid_tail_sound c s k E) as [-> Hk]. apply Hk. apply IH.
    rewrite str_length_drop. lia.
  - apply kReplacement_utf8, IH. lia.
Qed.

(** Completeness: on a well-formed string every sequence is accepted. *)
Lemma fix_utf8_id (s : string) : utf8 s -> fix_loop 0 s = s.
Proof.
  induction 1 as [|c s Hc Hs IH|a b s Ha Hb Hs IH|a b c s Hab Hc Hs IH|a b c d s Hab Hc Hd Hs IH];
    [done|..]; cbn [fix_loop]; ranges.
  - by rewrite (proj2 (N.leb_le _ _)), IH.
  - rewrite (proj2 (N.leb_gt _ _)) by lia. unfold valid_tail, lead_info.
    rewrite (proj2 (in_range_spec 194 223 a)) by lia. cbn [Nat.sub String.length Nat.ltb Nat.leb].
    rewrite (proj2 (N.ltb_ge _ _)) by lia. rewrite (proj2 (N.ltb_ge _ _)) by lia. cbn.
    by rewrite IH.
  - assert (224 <= byte_of a <= 239) as Ha
      by (destruct Hab as [[? ?]|[[? ?]|[[? ?]|[? ?]]]]; ranges; lia).
    rewrite (proj2 (N.leb_gt _ _)) by lia. unfold valid_tail, lead_info.
    rewrite (proj2 (in_range_false 194 223 a)) by lia.
    rewrite (proj2 (in_range_spec 224 239 a)) by lia.
    cbn [Nat.sub String.length Nat.ltb Nat.leb all_cont].
    rewrite IsCont_tail. unfold tail. rewrite (proj2 (in_range_spec 128 191 c) Hc).
    rewrite (proj2 (orb_false_iff _ _)); [cbn; by rewrite IH|].
    rewrite !N.ltb_ge. destruct (byte_of a =? 224) eqn:?, (byte_of a =? 237) eqn:?;
      destruct Hab as [[? ?]|[[? ?]|[[? ?]|[? ?]]]]; ranges; lia.
  - assert (240 <= byte_of a <= 244) as Ha
      by (destruct Hab as [[? ?]|[[? ?]|[? ?]]]; ranges; lia).
    rewrite (proj2 (N.leb_gt _ _)) by lia. unfold valid_tail, lead_info.
    rewrite (proj2 (in_range_false 194 223 a)) by lia.
    rewrite (proj2 (in_range_false 224 239 a)) by lia.
    rewrite (proj2 (in_range_spec 240 244 a)) by lia.
    cbn [Nat.sub String.length Nat.ltb Nat.leb all_cont].
    rewrite !IsCont_tail. unfold tail. rewrite (proj2 (in_range_spec 128 191 c) Hc), (proj2 (in_range_spec 128 191 d) Hd).
    rewrite (proj2 (orb_false_iff _ _)); [cbn; by rewrite IH|].
    rewrite !N.ltb_ge. destruct (byte_of a =? 240) eqn:?, (byte_of a =? 244) eqn:?;
      destruct Hab as [[? ?]|[[? ?]|[? ?]]]; ranges; lia.
Qed.

Lemma FixStringUTF8_utf8 (s : string) : utf8 (FixStringUTF8 s).
Proof. by apply (fix_utf8_aux (String.length s)). Qed.
#[export] Hint Resolve FixStringUTF8_utf8 : jw.

(** A string the scan leaves alone, by computation. *)
Lemma utf8_ascii (s : string) : fix_loop 0 s = s -> utf8 s.
Proof. intros <-. apply FixStringUTF8_utf8. Qed.

(** C39.  The repaired string is always well-formed UTF-8, and the repair is the
    identity on exactly the well-formed strings, so it is idempotent. *)
Theorem FixStringUTF8_spec (s : string) :
  utf8 (FixStringUTF8 s) /\ (FixStringUTF8 s = s <-> utf8 s) /\
  FixStringUTF8 (FixStringUTF8 s) = FixStringUTF8 s.
Proof.
  split; [apply FixStringUTF8_utf8|]. split.
  - split; [intros <-; apply FixStringUTF8_utf8 | apply fix_utf8_id].
  - apply fix_utf8_id, FixStringUTF8_utf8.
Qed.

(** Text below 128 is UTF-8. *)
Lemma ascii_utf8 (s : string) : (forall c, occurs c s = true -> (byte_of c <= 127)%N) -> utf8 s.
Proof.
  induction s as [|c s IH]; intros Hs; [constructor|]. apply utf8_1.
  - apply Hs. cbn. by rewrite Ascii.eqb_refl.
  - apply IH. intros d Hd. apply Hs. cbn. by rewrite Hd, orb_true_r.
Qed.

(** A number after such text. *)
Lemma utf8_numbered (p : string) (n : Z) :
  (forall c, occurs c p = true -> (byte_of c <= 127)%N) -> (0 <= n)%Z -> utf8 (p +:+ to_string n).
Proof.
  intros Hp Hn. apply ascii_utf8. intros c Hc. rewrite occurs_app in Hc. apply orb_true_iff in Hc as [Hc|Hc]; [by apply Hp|].
  destruct (digit_of c) as [d|] eqn:Ed; [|by rewrite digits_only in Hc].
  destruct c as [[] [] [] [] [] [] [] []]; (discriminate || (vm_compute; discriminate)).
Qed.
Lemma ascii_forallb (p : string) :
  forallb (fun c => (byte_of c <=? 127)%N) (list_ascii_of_string p) = true -> forall c, occurs c p = true -> (byte_of c <= 127)%N.
Proof.
  induction p as [|d p IH]; [done|]. cbn. intros [Hd Hp]%andb_true_iff c [->%Ascii.eqb_eq|Hc]%orb_true_iff; [by apply N.leb_le | by apply IH].
Qed.
