(* ===== verification/JsonLib.v ===== *)
(** * The JSON library as an interface

    nlohmann::json is third-party code, so it is a class: [json_view] reads the
    alternative a value holds, [json_make] builds one, [json_parse] and
    [json_dump] convert text, and the [get<int>()] conversions are operations of
    the library.  [JsonLaws] states the documented behaviour the framework relies
    on; the tree instance at the end shows the laws can hold and lets the
    witnesses compute. *)
From Stdlib Require Import ZArith Lia String Ascii List Floats.SpecFloat.
From stdpp Require Import base decidable countable list strings gmap sets.
From S2P Require Import Prelude Encoding.
Open Scope Z_scope.

(** The alternatives of a JSON value; objects are [std::map]s. *)
Inductive jview (J : Type) : Type :=
  | JNull
  | JBool (b : bool)
  | JInt (z : Z)
  | JFloat (f : spec_float)
  | JString (s : string)
  | JArray (l : list J)
  | JObject (m : gmap string J).
Arguments JNull {J}.
Arguments JBool {J} b.
Arguments JInt {J} z.
Arguments JFloat {J} f.
Arguments JString {J} s.
Arguments JArray {J} l.
Arguments JObject {J} m.

Class Json (J : Type) := {
  json_view : J -> jview J;
  json_make : jview J -> J;
  (** [json::parse(text)]: throws [parse_error]. *)
  json_parse : string -> outcome J;
  (** [j.dump(indent)]: throws on a string that is not UTF-8. *)
  json_dump : option nat -> J -> outcome string;
  (** [get<int>()], [get<float>()] and [get<double>()] on values of any kind. *)
  json_get_int : J -> outcome Z;
  json_get_float : J -> outcome spec_float;
  json_get_double : J -> outcome spec_float;
  (** How deep a value is nested: values are finite trees, and what walks one
      takes its fuel from here. *)
  json_depth : J -> nat;
  (** [what()] of the [type_error] thrown on a value of the wrong kind. *)
  json_type_error : J -> string
}.

(** The finite numbers of a binary format: [float] and [double]. *)
Definition finite_in (prec emax : Z) (f : spec_float) : Prop :=
  valid_binary prec emax f = true /\
  match f with S754_zero _ | S754_finite _ _ _ => True | _ => False end.
Notation is_double := (finite_in 53 1024).

(** Conversion of a [float] to [double], which is exact. *)
Definition widen (f : spec_float) : spec_float :=
  match f with
  | S754_finite s m e => binary_normalize 53 1024 (if s then Z.neg m else Z.pos m) e s
  | _ => f
  end.
(** A [float] member is kept as the [double] it converts to. *)
Definition is_float (f : spec_float) : Prop := is_double f /\ exists g, finite_in 24 128 g /\ widen g = f.
Lemma is_float_double (f : spec_float) : is_float f -> is_double f.
Proof. by intros []. Qed.

(** The values of an [int]. *)
Definition is_int (z : Z) : Prop := - 2 ^ 31 <= z < 2 ^ 31.

(** Values text represents exactly: every number finite, and every string
    well-formed UTF-8. *)
Inductive json_plain {J} `{Json J} (j : J) : Prop :=
  | plain_null : json_view j = JNull -> json_plain j
  | plain_bool b : json_view j = JBool b -> json_plain j
  | plain_int z : json_view j = JInt z -> json_plain j
  | plain_float f : json_view j = JFloat f -> is_double f -> json_plain j
  | plain_string s : json_view j = JString s -> utf8 s -> json_plain j
  | plain_array l : json_view j = JArray l -> (forall x, x ∈ l -> json_plain x) -> json_plain j
  | plain_object m : json_view j = JObject m ->
      (forall k x, m !! k = Some x -> utf8 k /\ json_plain x) -> json_plain j.

Class JsonLaws (J : Type) `{Json J} := {
  view_make v : json_view (json_make v) = v;
  parse_dump indent j s : json_plain j -> json_dump indent j = Ok s -> json_parse s = Ok j;
  dump_ok indent j : json_plain j -> exists s, json_dump indent j = Ok s;
  dump_one_line j s : json_dump None j = Ok s -> s <> ""%string /\ occurs NL s = false;
  (** Control characters are escaped. *)
  dump_no_nul j s : json_dump None j = Ok s -> occurs NUL s = false;
  get_int_ok j z : json_view j = JInt z -> - 2 ^ 31 <= z < 2 ^ 31 -> json_get_int j = Ok z;
  get_int_err j : (forall z, json_view j <> JInt z) -> (forall f, json_view j <> JFloat f) ->
    (forall b, json_view j <> JBool b) -> json_get_int j = Throw (json_type_error j);
  get_int_range j z : json_get_int j = Ok z -> is_int z;
  get_float_ok j f : json_view j = JFloat f -> is_float f -> json_get_float j = Ok f;
  get_double_ok j f : json_view j = JFloat f -> json_get_double j = Ok f;
  depth_element j l x : json_view j = JArray l -> x ∈ l -> (json_depth x < json_depth j)%nat;
  depth_member j m k x : json_view j = JObject m -> m !! k = Some x ->
    (json_depth x < json_depth j)%nat
}.

Section Accessors.
Context {J : Type} `{Json J}.

Definition j_null : J := json_make JNull.
Definition j_bool (b : bool) : J := json_make (JBool b).
Definition j_int (z : Z) : J := json_make (JInt z).
Definition j_float (f : spec_float) : J := json_make (JFloat f).
Definition j_string (s : string) : J := json_make (JString s).
Definition j_array (l : list J) : J := json_make (JArray l).
Definition j_object (m : gmap string J) : J := json_make (JObject m).
(** [json::object({{k, v}, ...})]: the fields in the order they are assigned. *)
Definition j_fields (l : list (string * J)) : J :=
  j_object (fold_left (fun m '(k, v) => <[k := v]> m) l ∅).

Definition is_object (j : J) : bool := match json_view j with JObject _ => true | _ => false end.
Definition is_array (j : J) : bool := match json_view j with JArray _ => true | _ => false end.
Definition is_string (j : J) : bool := match json_view j with JString _ => true | _ => false end.
Definition is_null (j : J) : bool := match json_view j with JNull => true | _ => false end.
Definition is_boolean (j : J) : bool := match json_view j with JBool _ => true | _ => false end.
Definition is_number_integer (j : J) : bool :=
  match json_view j with JInt _ => true | _ => false end.
Definition is_number_float (j : J) : bool :=
  match json_view j with JFloat _ => true | _ => false end.

(** [j[key]] of an object that has the key, [None] otherwise. *)
Definition jfield (key : string) (j : J) : option J :=
  match json_view j with JObject m => m !! key | _ => None end.
(** [j.contains(key)]. *)
Definition contains (key : string) (j : J) : bool :=
  match jfield key j with Some _ => true | None => false end.
(** The elements a range-for over an array visits. *)
Definition elements_of (j : J) : list J := match json_view j with JArray l => l | _ => [] end.

Definition get_string (j : J) : outcome string :=
  match json_view j with JString s => Ok s | _ => Throw (json_type_error j) end.
Definition get_bool (j : J) : outcome bool :=
  match json_view j with JBool b => Ok b | _ => Throw (json_type_error j) end.

(** [j.value(key, default)] for a string default: throws on a non-object and on
    a member of another kind. *)
Definition value_string (key dflt : string) (j : J) : outcome string :=
  match json_view j with
  | JObject m => match m !! key with Some v => get_string v | None => Ok dflt end
  | _ => Throw (json_type_error j)
  end.
Definition value_int (key : string) (dflt : Z) (j : J) : outcome Z :=
  match json_view j with
  | JObject m => match m !! key with Some v => json_get_int v | None => Ok dflt end
  | _ => Throw (json_type_error j)
  end.

(** [j.value(key, default)]; it throws on a value that is no object. *)
Definition value_of {A} (get : J -> outcome A) (key : string) (dflt : A) (j : J) : outcome A :=
  match json_view j with
  | JObject m => match m !! key with Some v => get v | None => Ok dflt end
  | _ => Throw (json_type_error j)
  end.

Definition value_str (key dflt : string) : J -> outcome string := value_of get_string key dflt.
Definition value_bool (key : string) (dflt : bool) : J -> outcome bool := value_of get_bool key dflt.

(** [if (j.contains(key) && j[key].is_string()) x = j[key].get<std::string>()]. *)
Definition string_field (key : string) (j : J) : option string :=
  match jfield key j with
  | Some v => match json_view v with JString s => Some s | _ => None end
  | None => None
  end.

(** [if (j.contains(key) && j[key].is_array())]: its elements. *)
Definition array_field (key : string) (j : J) : option (list J) :=
  match jfield key j with
  | Some v => match json_view v with JArray l => Some l | _ => None end
  | None => None
  end.

(** The members of an object in the order of [std::map], which iteration and
    [dump] follow. *)
Definition fields_of (m : gmap string J) : list (string * J) :=
  omap (fun k => pair k <$> m !! k) (sset_of_list (map fst (map_to_list m))).

(** [if (j.contains(key)) x = j[key].get<T>()]: the value read, [old] when there is
    none. *)
Definition over {A} (get : J -> outcome A) (key : string) (old : A) (j : J) : outcome A :=
  match jfield key j with Some v => get v | None => Ok old end.

(** The string elements of an array, in order. *)
Definition string_elements (l : list J) : list string :=
  omap (fun v => match json_view v with JString s => Some s | _ => None end) l.
End Accessors.

(** The last value assigned to a key. *)
Fixpoint assoc_last {V} (k : string) (l : list (string * V)) : option V :=
  match l with
  | [] => None
  | (k', v) :: l' =>
      match assoc_last k l' with
      | Some w => Some w
      | None => if String.eqb k' k then Some v else None
      end
  end.

Lemma assoc_last_app {V} (k : string) (l l' : list (string * V)) :
  assoc_last k (l ++ l') = match assoc_last k l' with Some w => Some w | None => assoc_last k l end.
Proof.
  induction l as [|[k' v] l IH]; cbn; [by destruct (assoc_last k l')|].
  rewrite IH. by destruct (assoc_last k l').
Qed.

Section AccessorLemmas.
Context {J : Type} `{JsonLaws J}.

Lemma view_j_string (s : string) : json_view (j_string s : J) = JString s.
Proof. apply view_make. Qed.
Lemma view_j_int (z : Z) : json_view (j_int z : J) = JInt z.
Proof. apply view_make. Qed.
Lemma view_j_float (f : spec_float) : json_view (j_float f : J) = JFloat f.
Proof. apply view_make. Qed.
Lemma view_j_bool (b : bool) : json_view (j_bool b : J) = JBool b.
Proof. apply view_make. Qed.
Lemma view_j_array (l : list J) : json_view (j_array l) = JArray l.
Proof. apply view_make. Qed.
Lemma view_j_object (m : gmap string J) : json_view (j_object m) = JObject m.
Proof. apply view_make. Qed.

Lemma get_string_j_string (s : string) : get_string (j_string s : J) = Ok s.
Proof. unfold get_string. by rewrite view_j_string. Qed.
Lemma get_bool_j_bool (b : bool) : get_bool (j_bool b : J) = Ok b.
Proof. unfold get_bool. by rewrite view_j_bool. Qed.
Lemma get_int_j_int (z : Z) : - 2 ^ 31 <= z < 2 ^ 31 -> json_get_int (j_int z : J) = Ok z.
Proof. intros Hz. apply get_int_ok; [apply view_j_int | done]. Qed.
Lemma jfield_j_object (k : string) (m : gmap string J) : jfield k (j_object m) = m !! k.
Proof. unfold jfield. by rewrite view_j_object. Qed.

Lemma json_plain_object (m : gmap string J) :
  (forall k x, m !! k = Some x -> utf8 k /\ json_plain x) -> json_plain (j_object m).
Proof. intros. eapply plain_object; [apply view_j_object | done]. Qed.

Lemma jfield_j_fields (k : string) (l : list (string * J)) :
  jfield k (j_fields l) = assoc_last k l.
Proof.
  unfold j_fields. rewrite jfield_j_object.
  enough (forall m : gmap string J, fold_left (fun m '(k, v) => <[k := v]> m) l m !! k
    = match assoc_last k l with Some w => Some w | None => m !! k end) as ->
    by (rewrite lookup_empty; by destruct (assoc_last k l)).
  induction l as [|[k' v] l IH]; intros m; cbn; [done|]. rewrite IH.
  destruct (assoc_last k l); [done|]. rewrite lookup_insert.
  destruct (String.eqb_spec k' k); by case_decide.
Qed.

Lemma over_j_fields {A} (get : J -> outcome A) (k : string) (old : A) (l : list (string * J)) :
  over get k old (j_fields l) = match assoc_last k l with Some v => get v | None => Ok old end.
Proof. unfold over. by rewrite jfield_j_fields. Qed.

Lemma elem_of_fields_of (m : gmap string J) (k : string) (v : J) :
  (k, v) ∈ fields_of m <-> m !! k = Some v.
Proof.
  unfold fields_of. rewrite list_elem_of_omap. split.
  - intros (k' & _ & Hk). destruct (m !! k') eqn:E; [|done]. by simplify_eq/=.
  - intros Hk. exists k. rewrite Hk. split; [|done]. apply elem_of_sset_of_list.
    apply (list_elem_of_fmap_2' fst _ (k, v)); [|done]. by apply elem_of_map_to_list.
Qed.

Lemma string_field_j_fields (k : string) (l : list (string * J)) :
  string_field k (j_fields l) =
  match assoc_last k l with
  | Some v => match json_view v with JString s => Some s | _ => None end
  | None => None
  end.
Proof. unfold string_field. by rewrite jfield_j_fields. Qed.

Lemma array_field_j_fields (k : string) (l : list (string * J)) :
  array_field k (j_fields l) =
  match assoc_last k l with
  | Some v => match json_view v with JArray s => Some s | _ => None end
  | None => None
  end.
Proof. unfold array_field. by rewrite jfield_j_fields. Qed.

Lemma value_of_fields {A} (get : J -> outcome A) key dflt (l : list (string * J)) :
  value_of get key dflt (j_fields l) = match assoc_last key l with Some v => get v | None => Ok dflt end.
Proof.
  pose proof (jfield_j_fields key l) as Hf. unfold value_of, jfield, j_fields in *.
  rewrite view_j_object in *. by rewrite Hf.
Qed.

Lemma value_string_j_fields (k d : string) (l : list (string * J)) :
  value_string k d (j_fields l) = match assoc_last k l with Some v => get_string v | None => Ok d end.
Proof.
  pose proof (jfield_j_fields k l) as Hf. unfold value_string, jfield, j_fields in *.
  rewrite view_j_object in *. by rewrite Hf.
Qed.

Lemma value_int_j_fields (k : string) (dflt : Z) (l : list (string * J)) :
  value_int k dflt (j_fields l) = match assoc_last k l with Some v => json_get_int v | None => Ok dflt end.
Proof.
  pose proof (jfield_j_fields k l) as Hf. unfold value_int, jfield, j_fields in *.
  rewrite view_j_object in *. by rewrite Hf.
Qed.

Lemma json_plain_fields (l : list (string * J)) :
  (forall k x, (k, x) ∈ l -> utf8 k /\ json_plain x) -> json_plain (j_fields l).
Proof.
  intros Hl. apply json_plain_object. intros k x Hk.
  assert (jfield k (j_fields l) = Some x) as Hf
    by (unfold j_fields; by rewrite jfield_j_object).
  rewrite jfield_j_fields in Hf. apply Hl. clear Hk Hl.
  revert Hf. induction l as [|[k' v] l IH]; cbn; [done|].
  destruct (assoc_last k l); [right; by apply IH|].
  destruct (String.eqb_spec k' k); [|done]. intros [= <-]. subst. left.
Qed.

Lemma string_elements_map (l : list string) :
  string_elements (map (j_string : string -> J) l) = l.
Proof.
  unfold string_elements. induction l as [|s l IH]; [done|]. cbn.
  rewrite view_j_string. by rewrite IH.
Qed.

Lemma json_plain_string (s : string) : utf8 s -> json_plain (j_string s : J).
Proof. intros. eapply plain_string; [apply view_j_string | done]. Qed.
Lemma json_plain_array (l : list J) : (forall x, x ∈ l -> json_plain x) -> json_plain (j_array l).
Proof. intros. eapply plain_array; [apply view_j_array | done]. Qed.
End AccessorLemmas.

Lemma fold_insert_lookup {V} (l : list (string * V)) (m : gmap string V) (k : string) :
  fold_left (fun m e => <[e.1 := e.2]> m) l m !! k =
  match assoc_last k l with Some s => Some s | None => m !! k end.
Proof.
  revert m; induction l as [|[p s] l IH]; intros m; [done|]. cbn [fold_left assoc_last fst snd]. rewrite IH.
  destruct (assoc_last k l); [done|]. rewrite lookup_insert.
  destruct (String.eqb_spec p k) as [->|Hk]; [by rewrite decide_True | by rewrite decide_False].
Qed.

Lemma assoc_last_elem {V} (k : string) (l : list (string * V)) (v : V) : assoc_last k l = Some v -> (k, v) ∈ l.
Proof.
  induction l as [|[p s] l IH]; [done|]. cbn [assoc_last]. destruct (assoc_last k l); [right; by apply IH|].
  destruct (String.eqb_spec p k) as [->|]; [|done]. intros [= ->]. left.
Qed.

Lemma assoc_last_none {V} (k : string) (l : list (string * V)) (v : V) : assoc_last k l = None -> (k, v) ∉ l.
Proof.
  induction l as [|[p s] l IH]; [intros _; apply not_elem_of_nil|]. cbn [assoc_last].
  destruct (assoc_last k l); [done|]. destruct (String.eqb_spec p k) as [->|Hk]; [done|].
  intros _ [[= ->]|Hin]%elem_of_cons; [done | by apply IH].
Qed.

(** Inserting the members one by one gives the map back. *)
Lemma insert_fields {V} (m : gmap string V) :
  fold_left (fun m e => <[e.1 := e.2]> m) (fields_of m) ∅ = m.
Proof.
  apply map_eq. intros k. rewrite fold_insert_lookup, lookup_empty.
  destruct (assoc_last k (fields_of m)) as [s|] eqn:E.
  - by apply assoc_last_elem, elem_of_fields_of in E.
  - destruct (m !! k) as [s|] eqn:Em; [|done]. apply elem_of_fields_of in Em.
    by apply (assoc_last_none k (fields_of m) s) in E.
Qed.

#[export] Hint Rewrite @view_j_string @view_j_int @view_j_float @view_j_bool @view_j_array @view_j_object
  @get_string_j_string @get_bool_j_bool @jfield_j_object @string_elements_map
  using typeclasses eauto : jw_simpl.
#[export] Hint Resolve json_plain_string json_plain_array json_plain_object json_plain_fields : jw.

(** Case analysis on the field lists handed to [j_fields]. *)
Ltac plain_fields :=
  repeat match goal with
    | H : (?k, ?x) ∈ _ ++ _ |- _ => apply elem_of_app in H as [H|H]
    | H : (?k, ?x) ∈ _ :: _ |- _ => apply elem_of_cons in H as [H|H]
    | H : (?k, ?x) ∈ [] |- _ => by apply elem_of_nil in H
    | H : (?k, ?x) ∈ (if str_empty ?s then _ else _) |- _ => destruct (str_empty s)
    | H : (?k, ?x) = (_, _) |- _ => injection H as -> ->
    end.

(** ** A tree instance

    [texts] is a table of documents in ordinary JSON notation; any other text is
    the binary rendering of a tree behind a [#].  With no [#] text in the table
    all the laws hold. *)

Module JsonTree.

Inductive leaf := LNull | LBool (b : bool) | LInt (z : Z) | LFloat (f : spec_float)
  | LString (s : string).

#[export] Instance spec_float_eq_dec : EqDecision spec_float.
Proof. solve_decision. Defined.
#[export] Instance leaf_eq_dec : EqDecision leaf.
Proof. solve_decision. Defined.

#[export] Program Instance spec_float_countable : Countable spec_float :=
  inj_countable'
    (fun f => match f with
              | S754_zero s => inl (inl s)
              | S754_infinity s => inl (inr s)
              | S754_nan => inr None
              | S754_finite s m e => inr (Some (s, m, e))
              end)
    (fun x => match x with
              | inl (inl s) => S754_zero s
              | inl (inr s) => S754_infinity s
              | inr None => S754_nan
              | inr (Some (s, m, e)) => S754_finite s m e
              end) _.
Next Obligation. by intros []. Qed.

#[export] Program Instance leaf_countable : Countable leaf :=
  inj_countable'
    (fun x => match x with
              | LNull => inl (inl None) | LBool b => inl (inl (Some b))
              | LInt z => inl (inr z) | LFloat f => inr (inl f) | LString s => inr (inr s)
              end)
    (fun x => match x with
              | inl (inl None) => LNull | inl (inl (Some b)) => LBool b
              | inl (inr z) => LInt z | inr (inl f) => LFloat f | inr (inr s) => LString s
              end) _.
Next Obligation. by intros []. Qed.

Definition json := gen_tree leaf.

Definition entry (kv : string * json) : json := GenNode 2 [GenLeaf (LString kv.1); kv.2].
Definition entry_of (t : json) : option (string * json) :=
  match t with GenNode _ [GenLeaf (LString k); v] => Some (k, v) | _ => None end.

Definition view (t : json) : jview json :=
  match t with
  | GenLeaf LNull => JNull
  | GenLeaf (LBool b) => JBool b
  | GenLeaf (LInt z) => JInt z
  | GenLeaf (LFloat f) => JFloat f
  | GenLeaf (LString s) => JString s
  | GenNode 0 l => JArray l
  | GenNode _ l => JObject (list_to_map (omap entry_of l))
  end.

Definition make (v : jview json) : json :=
  match v with
  | JNull => GenLeaf LNull
  | JBool b => GenLeaf (LBool b)
  | JInt z => GenLeaf (LInt z)
  | JFloat f => GenLeaf (LFloat f)
  | JString s => GenLeaf (LString s)
  | JArray l => GenNode 0 l
  | JObject m => GenNode 1 (map entry (map_to_list m))
  end.

Lemma view_make (v : jview json) : view (make v) = v.
Proof.
  destruct v as [| | | | |l|m]; try done. cbn. f_equal.
  enough (forall l, omap entry_of (map entry l) = l) as -> by apply list_to_map_to_list.
  induction l as [|[k x] l IH]; [done|]. cbn. by rewrite IH.
Qed.

Fixpoint bits (p : positive) : string :=
  match p with
  | xH => "" | xO p => String "0" (bits p) | xI p => String "1" (bits p)
  end.
Fixpoint of_bits (s : string) : positive :=
  match s with
  | EmptyString => 1
  | String c s => if Ascii.eqb c "0" then (of_bits s)~0 else (of_bits s)~1
  end.
Lemma of_bits_bits (p : positive) : of_bits (bits p) = p.
Proof. induction p as [p IH|p IH|]; cbn; by rewrite ?IH. Qed.

Definition truncate (f : spec_float) : Z :=
  match f with
  | S754_finite s m e =>
      let a := if 0 <=? e then Z.pos m * 2 ^ e else Z.pos m / 2 ^ (- e) in if s then - a else a
  | _ => 0
  end.

(** Conversion to [int] keeps the low 32 bits. *)
Definition wrap32 (z : Z) : Z := (z + 2 ^ 31) mod 2 ^ 32 - 2 ^ 31.
Lemma wrap32_int (z : Z) : is_int (wrap32 z).
Proof. unfold is_int, wrap32. pose proof (Z.mod_pos_bound (z + 2 ^ 31) (2 ^ 32)). lia. Qed.
Lemma wrap32_id (z : Z) : is_int z -> wrap32 z = z.
Proof. unfold is_int, wrap32. intros. rewrite Z.mod_small; lia. Qed.

Definition get_int (t : json) : outcome Z :=
  match view t with
  | JInt z => Ok (wrap32 z) | JBool b => Ok (Z.b2z b) | JFloat f => Ok (wrap32 (truncate f))
  | _ => Throw "type_error"
  end.
Definition get_float (t : json) : outcome spec_float :=
  match view t with JFloat f => Ok f | _ => Throw "type_error" end.

Fixpoint depth (t : json) : nat :=
  match t with
  | GenLeaf _ => 0
  | GenNode _ l => S (fold_right (fun t n => Nat.max (depth t) n) 0%nat l)
  end.

Lemma depth_child n (l : list json) t : t ∈ l -> (depth t < depth (GenNode n l))%nat.
Proof. cbn. induction 1; cbn; lia. Qed.

Lemma depth_entry l (t : string * json) e :
  e ∈ l -> entry_of e = Some t -> (depth t.2 < depth (GenNode 1 l))%nat.
Proof.
  intros He Hk. apply (depth_child 1) in He. destruct e as [|n [|[[]|] [|v []]]]; try done.
  simplify_eq/=. lia.
Qed.

Definition dump (t : json) : string := "#" +:+ bits (encode t).
Definition parse (texts : list (string * json)) (s : string) : outcome json :=
  match List.find (fun x => String.eqb x.1 s) texts with
  | Some x => Ok x.2
  | None => match s with
            | String "#" s' => match decode (of_bits s') with
                               | Some t => Ok t | None => Throw "parse_error" end
            | _ => Throw "parse_error"
            end
  end.

Definition instance (texts : list (string * json)) : Json json := {|
  json_view := view;
  json_make := make;
  json_parse := parse texts;
  json_dump := fun _ t => Ok (dump t);
  json_get_int := get_int;
  json_get_float := get_float;
  json_get_double := get_float;
  json_depth := depth;
  json_type_error := fun _ => "type_error"
|}.

Lemma laws (texts : list (string * json)) :
  (forall x, x ∈ texts -> starts_with "#" x.1 = false) -> @JsonLaws json (instance texts).
Proof.
  intros Ht. split; cbn.
  - apply view_make.
  - intros _ j s _ [= <-]. unfold parse.
    destruct (List.find _ texts) as [x|] eqn:E.
    + apply find_some in E as [Hin Heq]. apply list_elem_of_In in Hin. apply Ht in Hin.
      apply String.eqb_eq in Heq. rewrite Heq in Hin. done.
    + cbn. by rewrite of_bits_bits, decode_encode.
  - intros _ j _. by eexists.
  - intros j s [= <-]. split; [done|]. cbn. generalize (encode j). intros p. by induction p.
  - intros j s [= <-]. cbn. generalize (encode j). intros p. by induction p.
  - intros j z Hj Hz. unfold get_int. by rewrite Hj, wrap32_id.
  - intros j Hi Hf Hb. unfold get_int. destruct (view j) eqn:E; try done.
    + by destruct (Hb b).
    + by destruct (Hi z).
    + by destruct (Hf f).
  - intros j z Hz. unfold get_int in Hz. destruct (view j); simplify_eq; [|apply wrap32_int..].
    unfold is_int. destruct b; cbn; lia.
  - intros j f Hj _. unfold get_float. by rewrite Hj.
  - intros j f Hj. unfold get_float. by rewrite Hj.
  - intros j l x Hj Hx. destruct j as [[]|[|n] l']; simplify_eq/=. by apply (depth_child 0).
  - intros j m k x Hj Hx. destruct j as [[]|n l]; [done..|].
    assert (m = list_to_map (omap entry_of l) /\ n <> 0%nat) as [-> Hn] by (by destruct n; simplify_eq/=).
    apply elem_of_list_to_map_2, list_elem_of_omap in Hx as (e & He & Hk).
    by apply (depth_entry l (k, x) e) in Hk.
Qed.
End JsonTree.
