(* ===== verification/MemoryTypes.v ===== *)
(** * Data of the memory runtimes (include/memory_types.h)

    Records for the structs a runtime is asked with and answers with; [J] is the
    type of their JSON metadata.  Events are in Types, without the metadata no code
    of the repository sets. *)
From Stdlib Require Import ZArith String List Floats.SpecFloat.
From stdpp Require Import base strings gmap.
From S2P Require Import Prelude Encoding Types JsonLib.
Open Scope Z_scope.

Record MemoryMessage := mkMemoryMessage {
  mm_role : string;
  mm_content : string;
  mm_toolCallId : string;
  mm_toolName : string;
  mm_payloadRef : string
}.
Definition default_MemoryMessage : MemoryMessage := mkMemoryMessage "" "" "" "" "".

Section Types.
Context {J : Type} `{Json J}.

Record MemoryEntity := mkMemoryEntity {
  me_id : string;
  me_agentId : string;
  entityType : string;
  me_name : string;
  me_summary : string;
  me_confidence : spec_float;
  isActive : bool;
  supersededByEntityId : string;
  supersededEntityId : string;
  me_sourceRefs : list string;
  me_metadata : J;
  me_createdAt : string;
  me_updatedAt : string
}.
Definition default_MemoryEntity : MemoryEntity :=
  mkMemoryEntity "" "" "" "" "" (S754_zero false) true "" "" [] (j_object ∅) "" "".

Record MemoryRelation := mkMemoryRelation {
  mr_id : string;
  mr_agentId : string;
  fromEntityId : string;
  relationType : string;
  toEntityId : string;
  mr_confidence : spec_float;
  mr_sourceRefs : list string;
  mr_metadata : J;
  mr_createdAt : string;
  mr_updatedAt : string
}.
Definition default_MemoryRelation : MemoryRelation :=
  mkMemoryRelation "" "" "" "" "" (S754_zero false) [] (j_object ∅) "" "".

Record MemoryPayloadRef := mkMemoryPayloadRef {
  mp_agentId : string;
  mp_sessionId : string;
  mp_uri : string;
  mp_contentType : string;
  mp_summary : string;
  mp_toolName : string;
  originalChars : Z;
  mp_metadata : J;
  mp_createdAt : string
}.
Definition default_MemoryPayloadRef : MemoryPayloadRef :=
  mkMemoryPayloadRef "" "" "" "" "" "" 0 (j_object ∅) "".

Record MemoryPayloadWriteRequest := mkMemoryPayloadWriteRequest {
  pw_agentId : string;
  pw_sessionId : string;
  pw_content : string;
  pw_contentType : string;
  pw_toolCallId : string;
  pw_toolName : string;
  pw_metadata : J
}.

Record MemoryPayloadWriteResult := mkMemoryPayloadWriteResult {
  pr_succeeded : bool;
  pr_offloaded : bool;
  pr_payload : MemoryPayloadRef;
  pr_replacementContent : string
}.
Definition default_MemoryPayloadWriteResult : MemoryPayloadWriteResult :=
  mkMemoryPayloadWriteResult false false default_MemoryPayloadRef "".

Record MemoryContextRequest := mkMemoryContextRequest {
  cq_agentId : string;
  cq_sessionId : string;
  cq_query : string;
  cq_tokenBudget : Z;
  cq_includeSections : list string;
  cq_metadata : J
}.

Record MemoryContextPackage := mkMemoryContextPackage {
  pk_messages : list MemoryMessage;
  memoryText : string;
  pk_entities : list MemoryEntity;
  pk_relations : list MemoryRelation;
  payloadRefs : list MemoryPayloadRef;
  citations : list string;
  pk_metadata : J
}.
Definition default_MemoryContextPackage : MemoryContextPackage :=
  mkMemoryContextPackage [] "" [] [] [] [] (j_object ∅).

Record MemoryConsolidationRequest := mkMemoryConsolidationRequest {
  cs_agentId : string;
  cs_sessionId : string;
  maxEvents : Z;
  forceReprocess : bool;
  excludedSessionIds : list string;
  cs_metadata : J
}.

Record MemorySearchHit := mkMemorySearchHit {
  sh_id : string;
  sh_type : string;
  sh_content : string;
  sh_score : spec_float;
  sh_sourceRefs : list string;
  sh_metadata : J
}.
Definition default_MemorySearchHit : MemorySearchHit :=
  mkMemorySearchHit "" "" "" (S754_zero false) [] (j_object ∅).

Record MemorySearchRequest := mkMemorySearchRequest {
  sq_agentId : string;
  sq_sessionId : string;
  sq_query : string;
  sq_limit : Z;
  sq_includeSections : list string;
  sq_metadata : J
}.

Record MemoryStats := mkMemoryStats {
  st_events : Z;
  st_payloads : Z;
  st_summaries : Z;
  st_entities : Z;
  st_relations : Z;
  appendFailures : Z;
  writeFailures : Z;
  buildContextFailures : Z;
  st_metadata : J
}.
Definition default_MemoryStats : MemoryStats := mkMemoryStats 0 0 0 0 0 0 0 0 (j_object ∅).
End Types.
Arguments MemoryEntity : clear implicits.
Arguments MemoryRelation : clear implicits.
Arguments MemoryPayloadRef : clear implicits.
Arguments MemoryPayloadWriteRequest : clear implicits.
Arguments MemoryPayloadWriteResult : clear implicits.
Arguments MemoryContextRequest : clear implicits.
Arguments MemoryContextPackage : clear implicits.
Arguments MemoryConsolidationRequest : clear implicits.
Arguments MemorySearchHit : clear implicits.
Arguments MemorySearchRequest : clear implicits.
Arguments MemoryStats : clear implicits.
