(* ===== verification/ContextEngine.v ===== *)
(** * The per-session context engine (src/context_engine/context_engine.cpp,
    src/context_engine/storage_base.cpp)

    The message buffer with its storage back end, the token estimate, and the
    window limiter that decides which messages reach the model.  The storage is
    the interface [ContextStorage]; [JsonStorage.v] implements it. *)
From Stdlib Require Import ZArith Lia String Ascii List.
From stdpp Require Import base decidable list strings.
From S2P Require Import Prelude Types.
Open Scope Z_scope.

(** ** Message validation (storage_base.cpp) *)

Definition IsValidMessage (msg : Message) : bool :=
  if str_empty (m_role msg) then false
  else if String.eqb (m_role msg) "assistant" then
    negb (str_empty (m_content msg)) || negb (Nat.eqb (length (m_toolCalls msg)) 0)
  else if String.eqb (m_role msg) "tool" then
    negb (str_empty (m_toolCallId msg)) && negb (str_empty (m_content msg))
  else negb (str_empty (m_content msg)).

Definition is_alpha (c : ascii) : bool :=
  let b := byte_of c in
  ((65 <=? b) && (b <=? 90) || (97 <=? b) && (b <=? 122))%N.

(** [CleanMessageContent]: one pass with the [inEscape] flag. *)
Fixpoint clean_loop (inEscape : bool) (s : string) : string :=
  match s with
  | EmptyString => ""
  | String c s' =>
      let opens := match s' with String d _ => Ascii.eqb d "[" | EmptyString => false end in
      if negb inEscape && (byte_of c =? 27)%N && opens then clean_loop true s'
      else if inEscape then clean_loop (negb (is_alpha c || Ascii.eqb c "m")) s'
      else if ((byte_of c <? 32)%N && negb (Ascii.eqb c TAB) && negb (Ascii.eqb c NL)
               && negb (Ascii.eqb c CR))
      then clean_loop false s'
      else if (byte_of c =? 127)%N then clean_loop false s'
      else String c (clean_loop false s')
  end.
Definition CleanMessageContent (input : string) : string := clean_loop false input.

(** ** Token estimate *)

(** Bytes to advance over a lead byte, and whether it counts as ASCII. *)
Definition utf8_advance (c : ascii) : nat * bool :=
  let b := byte_of c in
  if (b <? 128)%N then (1%nat, true)
  else if (N.shiftr b 5 =? 6)%N then (2%nat, false)
  else if (N.shiftr b 4 =? 14)%N then (3%nat, false)
  else if (N.shiftr b 3 =? 30)%N then (4%nat, false)
  else (1%nat, false).

(** The loop over [i]: [skip] counts the bytes of the current codepoint that
    [i += advance] has still to jump over. *)
Fixpoint count_chars (skip : nat) (s : string) : Z * Z :=
  match s with
  | EmptyString => (0, 0)
  | String c s' =>
      match skip with
      | S k => count_chars k s'
      | O =>
          let '(adv, asc) := utf8_advance c in
          let '(a, w) := count_chars (adv - 1) s' in
          if (asc : bool) then (a + 1, w) else (a, w + 1)
      end
  end.

Definition EstimateTokens (text : string) : Z :=
  let '(asciiChars, wideChars) := count_chars 0 text in
  asciiChars / 4 + (wideChars * 3) / 4.

Definition CalculateMessageTokens (msg : Message) : Z :=
  EstimateTokens (m_role msg) + EstimateTokens (m_content msg)
  + fold_right (fun tc acc => EstimateTokens (tc_name tc) + EstimateTokens (tc_argumentsJson tc) + acc)
      0 (m_toolCalls msg)
  + (EstimateTokens (m_toolCallId msg) + EstimateTokens (m_toolName msg)
     + EstimateTokens (m_payloadRef msg)).

Definition CalculateMessagesTokens (msgs : list Message) : Z :=
  fold_right (fun m acc => CalculateMessageTokens m + acc) 0 msgs.

(** ** Merging adjacent messages *)

Definition CanMerge (prev cur : Message) : bool :=
  if negb (String.eqb (m_role prev) (m_role cur)) then false
  else if String.eqb (m_role prev) "tool" then false
  else if String.eqb (m_role prev) "assistant"
          && (negb (Nat.eqb (length (m_toolCalls prev)) 0)
              || negb (Nat.eqb (length (m_toolCalls cur)) 0))
  then false
  else true.

Definition MergeMessageContent (left right : string) : string :=
  if str_empty left then right
  else if str_empty right then left
  else left +:+ nl +:+ nl +:+ right.

(** [result.back().content = MergeMessageContent(...)] or [push_back]. *)
Definition merge_or_push (acc : list Message) (msg : Message) : list Message :=
  match last acc with
  | Some b =>
      if CanMerge b msg
      then removelast acc ++ [set_content (MergeMessageContent (m_content b) (m_content msg)) b]
      else acc ++ [msg]
  | None => [msg]
  end.

(** ** Segments *)

Record MessageSegment := mkSegment {
  seg_start : nat;
  seg_end : nat;
  startsWithUser : bool;
  seg_tokens : Z
}.

Definition is_user (m : Message) : bool := String.eqb (m_role m) "user".
Definition is_tool (m : Message) : bool := String.eqb (m_role m) "tool".
Definition is_assistant (m : Message) : bool := String.eqb (m_role m) "assistant".

Definition slice (msgs : list Message) (first lst : nat) : list Message :=
  take (lst - first) (drop first msgs).

Definition make_segment (msgs : list Message) (first lst : nat) : MessageSegment :=
  mkSegment first lst
    (match msgs !! first with Some m => is_user m | None => false end)
    (CalculateMessagesTokens (slice msgs first lst)).

(** The loop [for (i = 1; i < size; ++i)]; [rest] is the suffix from [i]. *)
Fixpoint segments_loop (msgs rest : list Message) (start i : nat) : list MessageSegment :=
  match rest with
  | [] => [make_segment msgs start (length msgs)]
  | m :: rest' =>
      if is_user m
      then make_segment msgs start i :: segments_loop msgs rest' i (S i)
      else segments_loop msgs rest' start (S i)
  end.

Definition BuildMessageSegments (msgs : list Message) : list MessageSegment :=
  match msgs with
  | [] => []
  | _ :: rest => segments_loop msgs rest 0 1
  end.

(** ** Compressing one segment *)

Definition preview_of (n : nat) (content : string) : string :=
  let preview := substr content 0 n in
  if Nat.ltb (String.length preview) (String.length content) then preview +:+ "..." else preview.

Definition tool_summary (m : Message) : string :=
  "- " +:+ (if str_empty (m_toolName m) then "tool" else m_toolName m)
  +:+ (if str_empty (m_payloadRef m) then "" else " payload_ref=" +:+ m_payloadRef m)
  +:+ (if str_empty (m_content m) then "" else ": " +:+ preview_of 240 (m_content m)).

(** One turn of the scan: the tool summaries so far and the last assistant text. *)
Definition scan_message (acc : list string * string) (m : Message) : list string * string :=
  let '(toolSummaries, lastAssistantText) := acc in
  if is_tool m then (toolSummaries ++ [tool_summary m], lastAssistantText)
  else if is_assistant m && Nat.eqb (length (m_toolCalls m)) 0 && negb (str_empty (m_content m))
  then (toolSummaries, m_content m)
  else acc.

Definition summary_text (toolSummaries : list string) (lastAssistantText : string) : string :=
  "Context segment compressed due to context window limits."
  +:+ (match toolSummaries with
       | [] => ""
       | _ =>
           nl +:+ nl +:+ "Tool results summary:"
           +:+ string_concat (map (fun item => nl +:+ item) (take 8 toolSummaries))
           +:+ (if Nat.ltb 8 (length toolSummaries) then nl +:+ "- ..." else "")
       end)
  +:+ (if str_empty lastAssistantText then ""
       else nl +:+ nl +:+ "Latest assistant state:" +:+ nl +:+ preview_of 800 lastAssistantText).

(** [while (EstimateTokens(s) > budget && !s.empty()) s = s.substr(0, s.size() / 2)];
    halving empties [s] within [String.length s + 1] turns. *)
Fixpoint halve_loop (fuel : nat) (budget : Z) (s : string) : string :=
  match fuel with
  | O => s
  | S fuel' =>
      if (budget <? EstimateTokens s) && negb (str_empty s)
      then halve_loop fuel' budget (substr s 0 (String.length s / 2))
      else s
  end.

Definition truncate_summary (budget : Z) (s : string) : string :=
  let s' := halve_loop (S (String.length s)) budget s in
  if str_empty s' then "[compressed]" else s'.

(** [if (first.role == "user") compressed.push_back(first)]. *)
Definition user_prefix (segmentMessages : list Message) : list Message :=
  match segmentMessages with
  | first :: _ => if is_user first then [first] else []
  | [] => []
  end.

Definition CompressSegment (cfg : ContextConfig) (msgs : list Message) (segment : MessageSegment)
    (tokenBudget : Z) : list Message :=
  if Nat.leb (seg_end segment) (seg_start segment) || Nat.ltb (length msgs) (seg_end segment)
     || (tokenBudget <=? 0)
  then []
  else
    let segmentMessages := slice msgs (seg_start segment) (seg_end segment) in
    if (CalculateMessagesTokens segmentMessages <=? tokenBudget)
       && (Z.of_nat (length segmentMessages) <=? maxMessages cfg)
    then segmentMessages
    else
      let prefix := user_prefix segmentMessages in
      let '(toolSummaries, lastAssistantText) := fold_left scan_message segmentMessages ([], "") in
      if Nat.eqb (length toolSummaries) 0 && str_empty lastAssistantText then prefix
      else
        let summary := text_message "assistant" (summary_text toolSummaries lastAssistantText) in
        if tokenBudget <? CalculateMessagesTokens (prefix ++ [summary]) then
          let prefixTokens := CalculateMessagesTokens prefix in
          let budgetForSummary := Z.max 1 (tokenBudget - prefixTokens) in
          prefix ++ [set_content (truncate_summary budgetForSummary (m_content summary)) summary]
        else prefix ++ [summary].

(** ** Tool pairing *)

Definition toolResultIds (msgs : list Message) : list string :=
  map m_toolCallId (List.filter (fun m => is_tool m && negb (str_empty (m_toolCallId m))) msgs).

Definition keep_call (ids : list string) (tc : ToolCall) : bool :=
  negb (str_empty (tc_id tc)) && list_has (tc_id tc) ids.

Definition is_calling (m : Message) : bool :=
  is_assistant m && negb (Nat.eqb (length (m_toolCalls m)) 0).

(** One message of [DropOrphanToolCalls]: its dropped calls, and what is kept. *)
Definition drop_orphan_calls (ids : list string) (m : Message) : Z * list Message :=
  if is_calling m then
    let kept := List.filter (keep_call ids) (m_toolCalls m) in
    let dropped := Z.of_nat (length (m_toolCalls m)) - Z.of_nat (length kept) in
    if Nat.eqb (length kept) 0 && str_empty (m_content m) then (dropped, [])
    else (dropped, [set_toolCalls kept m])
  else (0, [m]).

Definition DropOrphanToolCalls (msgs : list Message) : Z * list Message :=
  let ids := toolResultIds msgs in
  fold_right (fun m acc => let '(d, out) := drop_orphan_calls ids m in (d + fst acc, out ++ snd acc))
    (0, []) msgs.

Definition assistantCallIds (msgs : list Message) : list string :=
  List.filter (fun i => negb (str_empty i))
    (List.concat (map (fun m => map tc_id (m_toolCalls m)) (List.filter is_assistant msgs))).

Definition has_call (ids : list string) (m : Message) : bool :=
  negb (is_tool m && negb (list_has (m_toolCallId m) ids)).

Definition DropUnpairedToolMessages (msgs : list Message) : Z * list Message :=
  let '(dropped, msgs1) := DropOrphanToolCalls msgs in
  let ids := assistantCallIds msgs1 in
  let cleaned := List.filter (has_call ids) msgs1 in
  (dropped + (Z.of_nat (length msgs1) - Z.of_nat (length cleaned)), cleaned).

(** [while (!msgs.empty()) if (back is assistant with tool_calls) pop_back]. *)
Fixpoint trim_front (rmsgs : list Message) : list Message :=
  match rmsgs with
  | m :: rest => if is_calling m then trim_front rest else rmsgs
  | [] => []
  end.
Definition TrimOrphanTrailingToolCalls (msgs : list Message) : list Message :=
  rev (trim_front (rev msgs)).

(** ** The window limiter *)

Definition sanitize (messages : list Message) : list Message := fold_left merge_or_push messages [].

Definition segment_messages (msgs : list Message) (s : MessageSegment) : list Message :=
  slice msgs (seg_start s) (seg_end s).

(** The loop from the newest segment to the oldest; the result is
    [selectedReversed]. *)
Fixpoint select_loop (cfg : ContextConfig) (sanitized : list Message)
    (newest_first : list MessageSegment) (totalTokens : Z) : list (list Message) :=
  match newest_first with
  | [] => []
  | segment :: older =>
      let sms := segment_messages sanitized segment in
      let segmentTokens := CalculateMessagesTokens sms in
      if (Z.of_nat (length sms) <=? maxMessages cfg)
         && (totalTokens + segmentTokens <=? maxContextTokens cfg)
      then sms :: select_loop cfg sanitized older (totalTokens + segmentTokens)
      else
        let budget := Z.max (maxContextTokens cfg - totalTokens) 1 in
        let compressed := CompressSegment cfg sanitized segment budget in
        match compressed with [] => [] | _ => [compressed] end
  end.

(** The final trim.  [static_cast<size_t>(maxMessages)] of a negative limit is
    close to [2^64] and [excess] wraps: [None] is the [erase] beyond [end()],
    which is undefined behaviour. *)
Definition size_max : Z := 2 ^ 64.
Definition trim_window (limit : Z) (result : list Message) : option (list Message) :=
  let size := Z.of_nat (length result) in
  if (limit <? size) && (1 <? size) then
    let target := Z.max (limit mod size_max) 1 in
    let excess := (size - target) mod size_max in
    if excess <=? size then Some (drop (Z.to_nat excess) result) else None
  else Some result.

(** The messages the loop selects, oldest first, before the final trim. *)
Definition selected (cfg : ContextConfig) (messages : list Message) : list Message :=
  let sanitized := sanitize messages in
  let segments := BuildMessageSegments sanitized in
  List.concat (rev (select_loop cfg sanitized (rev segments) 0)).

Definition ApplyContextLimits (cfg : ContextConfig) (messages : list Message)
    : option (list Message) :=
  match messages with
  | [] => Some []
  | _ =>
      match trim_window (maxMessages cfg) (selected cfg messages) with
      | Some trimmed => Some (snd (DropUnpairedToolMessages trimmed))
      | None => None
      end
  end.

Definition BuildMessagesForLLM (cfg : ContextConfig) (systemPrompt : string)
    (history : list Message) (currentMessage : Message) : option (list Message) :=
  let sys := if str_empty systemPrompt then [] else [text_message "system" systemPrompt] in
  match ApplyContextLimits cfg history with
  | Some limitedHistory => Some (merge_or_push (sys ++ limitedHistory) currentMessage)
  | None => None
  end.

(** ** The engine: buffer, storage, callbacks *)

(** A storage back end: [LoadHistory] returns the call's success and the
    messages it pushed. *)
Class ContextStorage (S : Type) := {
  SaveMessage : S -> Message -> S;
  LoadHistory : S -> bool * list Message;
  StorageClear : S -> S
}.

(** What a back end promises to the engine: in a good state, saving a valid
    message it can represent appends it to what [LoadHistory] reads back, and
    [Clear] empties it. *)
Class ContextStorageLaws (S : Type) `{ContextStorage S} := {
  storage_ok : S -> Prop;
  storage_accepts : Message -> Prop;
  storage_save s m : storage_ok s -> IsValidMessage m = true -> storage_accepts m ->
    storage_ok (SaveMessage s m) /\
    LoadHistory (SaveMessage s m) = (true, snd (LoadHistory s) ++ [m]);
  storage_clear s : storage_ok s ->
    storage_ok (StorageClear s) /\ LoadHistory (StorageClear s) = (true, [])
}.

Record Engine (S : Type) := mkEngine {
  e_config : ContextConfig;
  memoryBuffer_ : list Message;
  storage_ : option S;
  memoryContextProvider_ : option (string -> outcome string);
  has_memoryEventSink_ : bool
}.
Arguments mkEngine {S} _ _ _ _ _.
Arguments e_config {S} _.
Arguments memoryBuffer_ {S} _.
Arguments storage_ {S} _.
Arguments memoryContextProvider_ {S} _.
Arguments has_memoryEventSink_ {S} _.

Section Engine.
Context {S : Type} `{ContextStorage S}.

(** [ContextEngine(config)] with the storage the configuration selects:
    [open_storage] is the constructor of [JsonStorage] or [DbStorage], the null
    pointer for [MEMORY_ONLY]. *)
Definition engine_new (cfg : ContextConfig) : Engine S := mkEngine cfg [] None None false.

Definition Initialize (open_storage : ContextConfig -> S) (e : Engine S) : Engine S * bool :=
  match storageType (e_config e) with
  | MEMORY_ONLY =>
      (mkEngine (e_config e) (memoryBuffer_ e) None (memoryContextProvider_ e)
         (has_memoryEventSink_ e), true)
  | DATABASE | JSON_FILE =>
      let st := open_storage (e_config e) in
      let '(ok, msgs) := LoadHistory st in
      let buf := memoryBuffer_ e ++ msgs in
      if (ok : bool) then
        (mkEngine (e_config e) (TrimOrphanTrailingToolCalls buf) (Some st)
           (memoryContextProvider_ e) (has_memoryEventSink_ e), true)
      else
        (mkEngine (e_config e) buf (Some st) (memoryContextProvider_ e)
           (has_memoryEventSink_ e), false)
  end.

Definition message_event (sessionId : string) (stored : Message) : MemoryEvent :=
  mkMemoryEvent MESSAGE_APPENDED "" sessionId (m_role stored) (m_content stored)
    (m_toolCallId stored) (m_toolName stored) (m_payloadRef stored) "" (m_timestamp stored).

Definition stamp (now : string) (m : Message) : Message :=
  if str_empty (m_timestamp m) then set_timestamp now m else m.

(** [AddMessage]; [now] is [NowUtcIso8601()] at the call.  The second component
    is the event handed to the sink after the lock is released. *)
Definition AddMessage (now : string) (e : Engine S) (message : Message)
    : Engine S * list MemoryEvent :=
  if negb (IsValidMessage message) then (e, [])
  else
    let stored := stamp now message in
    (mkEngine (e_config e) (memoryBuffer_ e ++ [stored])
       ((fun st => SaveMessage st stored) <$> storage_ e)
       (memoryContextProvider_ e) (has_memoryEventSink_ e),
     if has_memoryEventSink_ e then [message_event (cc_sessionId (e_config e)) stored] else []).

Definition GetContextWindow (e : Engine S) : option (list Message) :=
  match memoryBuffer_ e with
  | [] => Some []
  | buf => ApplyContextLimits (e_config e) buf
  end.

Definition context_line (m : Message) : string :=
  m_role m
  +:+ (if Nat.eqb (length (m_toolCalls m)) 0 then ""
       else " (tool_calls=" +:+ nat_to_string (length (m_toolCalls m)) +:+ ")")
  +:+ (if str_empty (m_toolCallId m) then "" else " (tool_call_id=" +:+ m_toolCallId m +:+ ")")
  +:+ (if str_empty (m_payloadRef m) then "" else " (payload_ref=" +:+ m_payloadRef m +:+ ")")
  +:+ ": " +:+ m_content m +:+ nl.

Definition GetContextAsString (e : Engine S) : option string :=
  (fun msgs => string_concat (map context_line msgs)) <$> GetContextWindow e.

Definition GetAllMessages (e : Engine S) : list Message := memoryBuffer_ e.

Definition Clear (e : Engine S) : Engine S :=
  mkEngine (e_config e) [] (StorageClear <$> storage_ e) (memoryContextProvider_ e)
    (has_memoryEventSink_ e).

Definition GetTokenCount (e : Engine S) : Z := CalculateMessagesTokens (memoryBuffer_ e).

Definition GetSessionId (e : Engine S) : string := cc_sessionId (e_config e).

(** [LoadMemoryContext]: [memory_file] is the content of the memory file, [None]
    when it is missing, not a regular file or cannot be opened. *)
Definition LoadMemoryContext (memory_file : option string) : string := default "" memory_file.

Definition GetMemoryContent (memory_file : option string) (e : Engine S) (query : string)
    : string :=
  match memoryContextProvider_ e with
  | Some provider =>
      match provider query with
      | Ok content => if str_empty content then LoadMemoryContext memory_file else content
      | Throw _ => LoadMemoryContext memory_file
      end
  | None => LoadMemoryContext memory_file
  end.

Definition SetMemoryContextProvider (p : option (string -> outcome string)) (e : Engine S)
    : Engine S :=
  mkEngine (e_config e) (memoryBuffer_ e) (storage_ e) p (has_memoryEventSink_ e).

Definition SetMemoryEventSink (on : bool) (e : Engine S) : Engine S :=
  mkEngine (e_config e) (memoryBuffer_ e) (storage_ e) (memoryContextProvider_ e) on.

Definition GetConsolidationPayload (maxMessages : Z) (e : Engine S) : string :=
  let size := Z.of_nat (length (memoryBuffer_ e)) in
  let startIdx := if maxMessages <? size then size - maxMessages else 0 in
  string_concat (map (fun m => m_role m +:+ ": " +:+ m_content m +:+ nl +:+ nl)
                   (drop (Z.to_nat startIdx) (memoryBuffer_ e))).

End Engine.
