(* ===== verification/ContextEngineFacts.v ===== *)
(** * Correctness of the context window (context_engine.cpp)

    Tool pairing, the size and token bounds of the window, retention of the
    newest user message, transparency on histories that fit, and the storage
    round trip of an engine. *)
From Stdlib Require Import ZArith Lia String Ascii List.
From stdpp Require Import base decidable list strings sets.
From S2P Require Import Prelude Types ContextEngine.
Open Scope Z_scope.

(** ** Roles *)

Lemma is_tool_assistant (m : Message) : is_tool m = true -> is_assistant m = false.
Proof.
  unfold is_tool, is_assistant. rewrite String.eqb_eq. by intros ->.
Qed.

Lemma is_user_spec (m : Message) : is_user m = true <-> m_role m = "user"%string.
Proof. apply String.eqb_eq. Qed.

Lemma is_user_not_tool (m : Message) : is_user m = true -> is_tool m = false.
Proof. unfold is_tool. intros ->%is_user_spec. done. Qed.

Lemma is_user_not_calling (m : Message) : is_user m = true -> is_calling m = false.
Proof. unfold is_calling, is_assistant. intros ->%is_user_spec. done. Qed.

Lemma is_tool_not_calling (m : Message) : is_tool m = true -> is_calling m = false.
Proof. unfold is_calling. by intros ->%is_tool_assistant. Qed.

Lemma is_calling_spec (m : Message) :
  is_calling m = true <-> is_assistant m = true /\ m_toolCalls m <> [].
Proof.
  unfold is_calling. rewrite andb_true_iff, negb_true_iff, Nat.eqb_neq.
  destruct (m_toolCalls m); cbn; split; intros [? ?]; split; done.
Qed.

Lemma Neqb_length_nil {A} (l : list A) : Nat.eqb (length l) 0 = true <-> l = [].
Proof. rewrite Nat.eqb_eq. by destruct l. Qed.

(** ** Dropping orphan calls and unpaired results *)

Lemma drop_orphan_calls_id (ids : list string) (m : Message) :
  is_calling m = false -> drop_orphan_calls ids m = (0, [m]).
Proof. unfold drop_orphan_calls. by intros ->. Qed.

Lemma elem_of_DropOrphan (x : Message) (msgs : list Message) :
  x ∈ snd (DropOrphanToolCalls msgs) <->
  exists m, m ∈ msgs /\ x ∈ snd (drop_orphan_calls (toolResultIds msgs) m).
Proof.
  unfold DropOrphanToolCalls. generalize (toolResultIds msgs) as ids. intros ids.
  induction msgs as [|m msgs IH]; cbn; [set_solver|].
  destruct (drop_orphan_calls ids m) as [d out] eqn:E. cbn.
  rewrite elem_of_app, IH. split.
  - intros [Hx|(m' & ? & ?)]; [exists m | exists m']; rewrite ?E; set_solver.
  - intros (m' & Hm & Hx). apply elem_of_cons in Hm as [->|Hm].
    + left. by rewrite E in Hx.
    + right. eauto.
Qed.

(** What survives of one message: itself, or itself with fewer calls. *)
Lemma elem_of_drop_orphan_calls (ids : list string) (x m : Message) :
  x ∈ snd (drop_orphan_calls ids m) ->
  m_role x = m_role m /\ m_content x = m_content m /\ m_toolCallId x = m_toolCallId m /\
  (forall tc, tc ∈ m_toolCalls x -> is_assistant x = true ->
     tc ∈ m_toolCalls m /\ keep_call ids tc = true).
Proof.
  unfold drop_orphan_calls. destruct (is_calling m) eqn:Hc.
  - destruct (_ && _) eqn:E; cbn; [set_solver|].
    intros ->%list_elem_of_singleton. cbn. split_and!; try done.
    intros tc Htc _. by apply elem_of_filterb in Htc.
  - cbn. intros ->%list_elem_of_singleton. split_and!; try done.
    intros tc Htc Ha. assert (is_calling m = true) as Hc'; [|congruence].
    apply is_calling_spec. split; [done|]. by destruct (m_toolCalls m); [apply elem_of_nil in Htc|].
Qed.

Lemma elem_of_toolResultIds (i : string) (msgs : list Message) :
  i ∈ toolResultIds msgs <->
  exists t, t ∈ msgs /\ is_tool t = true /\ m_toolCallId t = i /\ i <> ""%string.
Proof.
  unfold toolResultIds. rewrite list_elem_of_fmap. split.
  - intros (t & -> & Ht). apply elem_of_filterb in Ht as [Ht Hp].
    apply andb_true_iff in Hp as [? Hne]. apply negb_true_iff, str_empty_false in Hne.
    by exists t.
  - intros (t & Ht & Htool & <- & Hne). exists t. split; [done|].
    apply elem_of_filterb. split; [done|]. rewrite Htool. cbn.
    by apply negb_true_iff, str_empty_false.
Qed.

Lemma elem_of_assistantCallIds (i : string) (msgs : list Message) :
  i ∈ assistantCallIds msgs <->
  i <> ""%string /\
  exists a tc, a ∈ msgs /\ is_assistant a = true /\ tc ∈ m_toolCalls a /\ tc_id tc = i.
Proof.
  unfold assistantCallIds. rewrite elem_of_filterb, negb_true_iff, str_empty_false.
  rewrite (list_elem_of_In (List.concat _) i), in_concat. split.
  - intros [(l & Hl & Hi) Hne]. split; [done|]. apply in_map_iff in Hl as (a & <- & Ha).
    apply filter_In in Ha as [Ha ?]. apply in_map_iff in Hi as (tc & Hid & Htc).
    exists a, tc. by rewrite !list_elem_of_In.
  - intros [Hne (a & tc & Ha & Hasst & Htc & Hid)]. split; [|done].
    exists (map tc_id (m_toolCalls a)). apply list_elem_of_In in Ha. apply list_elem_of_In in Htc. split.
    + apply in_map_iff. exists a. split; [done|]. by apply filter_In.
    + apply in_map_iff. by exists tc.
Qed.

(** The pairing invariant of a window: results answer calls, calls have
    results, and no id is empty. *)
Definition tools_paired (w : list Message) : Prop :=
  (forall t, t ∈ w -> is_tool t = true ->
     m_toolCallId t <> ""%string /\
     exists a tc, a ∈ w /\ is_assistant a = true /\ tc ∈ m_toolCalls a /\ tc_id tc = m_toolCallId t) /\
  (forall a tc, a ∈ w -> is_assistant a = true -> tc ∈ m_toolCalls a ->
     tc_id tc <> ""%string /\
     exists t, t ∈ w /\ is_tool t = true /\ m_toolCallId t = tc_id tc).

Lemma elem_of_DropUnpaired (x : Message) (msgs : list Message) :
  x ∈ snd (DropUnpairedToolMessages msgs) <->
  x ∈ snd (DropOrphanToolCalls msgs) /\
  has_call (assistantCallIds (snd (DropOrphanToolCalls msgs))) x = true.
Proof.
  unfold DropUnpairedToolMessages. destruct (DropOrphanToolCalls msgs) as [d msgs1]. cbn.
  apply elem_of_filterb.
Qed.

Lemma has_call_nontool (ids : list string) (m : Message) :
  is_tool m = false -> has_call ids m = true.
Proof. unfold has_call. by intros ->. Qed.

Lemma has_call_tool (ids : list string) (m : Message) :
  is_tool m = true -> has_call ids m = true <-> m_toolCallId m ∈ ids.
Proof. unfold has_call. intros ->. cbn. by rewrite negb_involutive, list_has_spec. Qed.

Lemma DropUnpaired_paired (msgs : list Message) : tools_paired (snd (DropUnpairedToolMessages msgs)).
Proof.
  split.
  - intros t Ht Htool. apply elem_of_DropUnpaired in Ht as [_ Hc].
    apply has_call_tool, elem_of_assistantCallIds in Hc as [Hne (a & tc & Ha & Has & Htc & Hid)];
      [|done].
    split; [done|]. exists a, tc. split_and!; try done.
    apply elem_of_DropUnpaired. split; [done|]. apply has_call_nontool.
    destruct (is_tool a) eqn:E; [|done]. apply is_tool_assistant in E. congruence.
  - intros a tc Ha Has Htc. apply elem_of_DropUnpaired in Ha as [Ha _].
    pose proof Ha as Ha'. apply elem_of_DropOrphan in Ha' as (m & Hm & Hx).
    apply elem_of_drop_orphan_calls in Hx as (_ & _ & _ & Hk).
    destruct (Hk tc Htc Has) as [_ Hkeep]. unfold keep_call in Hkeep.
    apply andb_true_iff in Hkeep as [Hne Hin]. apply negb_true_iff, str_empty_false in Hne.
    split; [done|]. apply list_has_spec, elem_of_toolResultIds in Hin as (t & Ht & Htool & Hid & _).
    exists t. split_and!; try done. apply elem_of_DropUnpaired. split.
    + apply elem_of_DropOrphan. exists t. split; [done|].
      rewrite drop_orphan_calls_id by by apply is_tool_not_calling. set_solver.
    + apply has_call_tool; [done|]. rewrite Hid. apply elem_of_assistantCallIds.
      split; [done|]. by exists a, tc.
Qed.

(** Messages that take no part in tool calling always survive. *)
Lemma DropUnpaired_keeps (m : Message) (msgs : list Message) :
  m ∈ msgs -> is_tool m = false -> is_calling m = false ->
  m ∈ snd (DropUnpairedToolMessages msgs).
Proof.
  intros Hm Ht Hc. apply elem_of_DropUnpaired. split; [|by apply has_call_nontool].
  apply elem_of_DropOrphan. exists m. split; [done|]. rewrite drop_orphan_calls_id by done.
  set_solver.
Qed.

Lemma DropOrphan_length (msgs : list Message) :
  (length (snd (DropOrphanToolCalls msgs)) <= length msgs)%nat.
Proof.
  unfold DropOrphanToolCalls. generalize (toolResultIds msgs) as ids. intros ids.
  induction msgs as [|m msgs IH]; cbn; [done|].
  destruct (drop_orphan_calls ids m) as [d out] eqn:E. cbn. rewrite length_app.
  assert (length out <= 1)%nat; [|lia].
  revert E. unfold drop_orphan_calls. destruct (is_calling m); [destruct (_ && _)|];
    intros; simplify_eq; cbn; lia.
Qed.

Lemma DropUnpaired_length (msgs : list Message) :
  (length (snd (DropUnpairedToolMessages msgs)) <= length msgs)%nat.
Proof.
  pose proof (DropOrphan_length msgs). unfold DropUnpairedToolMessages.
  destruct (DropOrphanToolCalls msgs) as [d msgs1]. cbn in *.
  pose proof (filterb_length (has_call (assistantCallIds msgs1)) msgs1). lia.
Qed.

(** On a history whose tools are paired nothing is dropped. *)
Lemma DropUnpaired_id (msgs : list Message) :
  tools_paired msgs -> DropUnpairedToolMessages msgs = (0, msgs).
Proof.
  intros [Hres Hcalls].
  assert (Hid : forall m, m ∈ msgs -> drop_orphan_calls (toolResultIds msgs) m = (0, [m])).
  { intros m Hm. unfold drop_orphan_calls. destruct (is_calling m) eqn:Hc; [|done].
    apply is_calling_spec in Hc as [Has Hne].
    rewrite filterb_all.
    - destruct (m_toolCalls m) eqn:E; [done|]. cbn [length Nat.eqb andb].
      rewrite Z.sub_diag, <- E. by destruct m.
    - intros tc Htc. destruct (Hcalls m tc Hm Has Htc) as [Hi (t & Ht & Htool & Hti)].
      unfold keep_call. apply andb_true_iff. split.
      + by apply negb_true_iff, str_empty_false.
      + apply list_has_spec, elem_of_toolResultIds. by exists t. }
  assert (HD : DropOrphanToolCalls msgs = (0, msgs)).
  { unfold DropOrphanToolCalls. revert Hid. generalize (toolResultIds msgs) as ids. clear.
    intros ids. induction msgs as [|m msgs IH]; intros Hid; [done|]. cbn.
    rewrite (Hid m) by left. rewrite IH by (intros x Hx; apply Hid; by right). done. }
  unfold DropUnpairedToolMessages. rewrite HD. rewrite filterb_all.
  - f_equal; lia.
  - intros m Hm. destruct (is_tool m) eqn:Ht; [|by apply has_call_nontool].
    apply has_call_tool; [done|]. destruct (Hres m Hm Ht) as [Hne (a & tc & ? & ? & ? & Heq)].
    apply elem_of_assistantCallIds. split; [done|]. by exists a, tc.
Qed.

(** ** Segments partition the history *)

Lemma segment_messages_make (msgs : list Message) (s e : nat) :
  segment_messages msgs (make_segment msgs s e) = slice msgs s e.
Proof. done. Qed.

Lemma slice_to_end (msgs : list Message) (s : nat) :
  slice msgs s (length msgs) = drop s msgs.
Proof. unfold slice. apply take_ge. by rewrite length_drop. Qed.

Lemma slice_app_drop (msgs : list Message) (s i : nat) :
  (s <= i)%nat -> slice msgs s i ++ drop i msgs = drop s msgs.
Proof.
  intros Hsi. unfold slice. rewrite <- (take_drop (i - s) (drop s msgs)) at 2.
  rewrite drop_drop. do 2 f_equal. lia.
Qed.

Lemma drop_cons_inv {A} (i : nat) (l : list A) x rest :
  drop i l = x :: rest -> rest = drop (S i) l /\ l !! i = Some x.
Proof.
  intros H. split.
  - replace (S i) with (i + 1)%nat by lia. by rewrite <- drop_drop, H.
  - rewrite <- (Nat.add_0_r i), <- lookup_drop, H. done.
Qed.

Lemma segments_loop_concat (msgs rest : list Message) (start i : nat) :
  rest = drop i msgs -> (start <= i)%nat ->
  List.concat (map (segment_messages msgs) (segments_loop msgs rest start i)) = drop start msgs.
Proof.
  revert start i; induction rest as [|m rest IH]; intros start i Hrest Hsi;
    cbn [segments_loop].
  - cbn [map List.concat]. by rewrite segment_messages_make, slice_to_end, app_nil_r.
  - symmetry in Hrest. destruct (drop_cons_inv _ _ _ _ Hrest) as [Hr _].
    destruct (is_user m).
    + cbn [map List.concat]. rewrite segment_messages_make, (IH i (S i)) by (done || lia). by apply slice_app_drop.
    + apply IH; [done | lia].
Qed.

Lemma segments_concat (msgs : list Message) :
  List.concat (map (segment_messages msgs) (BuildMessageSegments msgs)) = msgs.
Proof.
  destruct msgs as [|m rest]; [done|]. unfold BuildMessageSegments.
  by rewrite (segments_loop_concat (m :: rest) rest 0 1) by (done || lia).
Qed.

Definition no_user (l : list Message) : Prop := forall m, m ∈ l -> is_user m = false.

Lemma segments_loop_no_user (msgs rest : list Message) (start i : nat) :
  no_user rest -> segments_loop msgs rest start i = [make_segment msgs start (length msgs)].
Proof.
  revert i; induction rest as [|m rest IH]; intros i Hn; cbn; [done|].
  rewrite (Hn m) by left. apply IH. intros x Hx. apply Hn. by right.
Qed.

Lemma segments_loop_last (msgs pre post : list Message) (u : Message) (start i : nat) :
  is_user u = true -> no_user post ->
  exists older, segments_loop msgs (pre ++ u :: post) start i
                = older ++ [make_segment msgs (i + length pre)%nat (length msgs)].
Proof.
  intros Hu Hpost. revert start i; induction pre as [|m pre IH]; intros start i; cbn.
  - rewrite Hu, segments_loop_no_user by done. rewrite Nat.add_0_r.
    by exists [make_segment msgs start i].
  - destruct (is_user m).
    + destruct (IH i (S i)) as [older ->]. exists (make_segment msgs start i :: older).
      cbn. by rewrite Nat.add_succ_r.
    + destruct (IH start (S i)) as [older ->]. exists older. by rewrite Nat.add_succ_r.
Qed.

(** The newest segment starts at the newest user message. *)
Lemma BuildMessageSegments_last (pre post : list Message) (u : Message) :
  is_user u = true -> no_user post ->
  exists older, BuildMessageSegments (pre ++ u :: post)
    = older ++ [make_segment (pre ++ u :: post) (length pre) (length (pre ++ u :: post))].
Proof.
  intros Hu Hpost. destruct pre as [|m pre].
  - exists []. cbn [app BuildMessageSegments length]. by rewrite segments_loop_no_user.
  - unfold BuildMessageSegments. cbn [app].
    destruct (segments_loop_last (m :: pre ++ u :: post) pre post u 0 1 Hu Hpost) as [older ->].
    by exists older.
Qed.

(** ** The chunk taken from one segment *)

Lemma CompressSegment_shape (cfg : ContextConfig) (msgs : list Message) (s : MessageSegment)
    (b : Z) :
  let sms := segment_messages msgs s in
  let c := CompressSegment cfg msgs s b in
  (c = sms /\ Z.of_nat (length sms) <= maxMessages cfg) \/
  (exists tail, (length tail <= 1)%nat /\
     ((exists u rest, sms = u :: rest /\ is_user u = true /\ c = u :: tail) \/ c = tail)).
Proof.
  unfold CompressSegment, segment_messages.
  destruct (_ || _); cbn zeta; [right; exists []; split; [cbn; lia | by right]|].
  set (sms := slice msgs _ _).
  destruct (_ && (Z.of_nat (length sms) <=? maxMessages cfg)) eqn:Hfit.
  { left. apply andb_true_iff in Hfit as [_ ?%Z.leb_le]. done. }
  right. destruct (fold_left _ _ _) as [tools lst].
  assert (Hp : forall tail, (length tail <= 1)%nat ->
    exists tail', (length tail' <= 1)%nat /\
     ((exists u rest, sms = u :: rest /\ is_user u = true /\
        user_prefix sms ++ tail
          = u :: tail') \/
      user_prefix sms ++ tail
          = tail')).
  { intros tail Ht. exists tail. split; [done|]. unfold user_prefix.
    destruct sms as [|u rest]; [by right|].
    destruct (is_user u) eqn:E; [left; by exists u, rest | by right]. }
  destruct (_ && str_empty lst); [|destruct (_ <? _)].
  - destruct (Hp []) as (tail' & ? & H); [cbn; lia|]. rewrite app_nil_r in H. by exists tail'.
  - apply Hp. done.
  - apply Hp. done.
Qed.

Lemma CompressSegment_user (cfg : ContextConfig) (msgs : list Message) (s : MessageSegment)
    (b : Z) (u : Message) (rest : list Message) :
  segment_messages msgs s = u :: rest -> is_user u = true ->
  (seg_start s < seg_end s <= length msgs)%nat -> 0 < b ->
  exists tail, CompressSegment cfg msgs s b = u :: tail.
Proof.
  unfold CompressSegment, segment_messages. intros Hs Hu Hb Hpos.
  destruct (_ || _) eqn:Hguard.
  { exfalso. rewrite !orb_true_iff, Nat.leb_le, Nat.ltb_lt, Z.leb_le in Hguard. lia. }
  cbn zeta. rewrite Hs. destruct (_ && (Z.of_nat _ <=? _)); [by exists rest|].
  destruct (fold_left _ _ _) as [tools lst]. cbn [user_prefix]. rewrite Hu.
  destruct (_ && str_empty lst); [by eexists|]. destruct (_ <? _); by eexists.
Qed.

(** Every chunk the loop admits has at most [max 2 maxMessages] messages. *)
Lemma select_loop_head (cfg : ContextConfig) (msgs : list Message) (s : MessageSegment)
    (older : list MessageSegment) (u : Message) (rest : list Message) :
  segment_messages msgs s = u :: rest -> is_user u = true ->
  (seg_start s < seg_end s <= length msgs)%nat ->
  exists tail more, select_loop cfg msgs (s :: older) 0 = (u :: tail) :: more /\
    Z.of_nat (length (u :: tail)) <= Z.max 2 (maxMessages cfg).
Proof.
  intros Hs Hu Hb. cbn [select_loop]. rewrite Hs.
  destruct (_ && _) eqn:Hfit.
  - apply andb_true_iff in Hfit as [?%Z.leb_le _]. exists rest. eexists. split; [done | lia].
  - destruct (CompressSegment_user cfg msgs s (Z.max (maxContextTokens cfg - 0) 1) u rest)
      as [tail Ht]; try done; [lia|].
    rewrite Ht. exists tail, []. split; [done|].
    destruct (CompressSegment_shape cfg msgs s (Z.max (maxContextTokens cfg - 0) 1))
      as [[Heq ?]|(t & Hlen & [(u' & r & _ & _ & Heq)|Heq])]; rewrite Ht in Heq.
    + rewrite Heq. lia.
    + simplify_eq. cbn [length]. lia.
    + subst t. lia.
Qed.

(** ** The final trim *)

Lemma trim_window_spec (limit : Z) (l : list Message) :
  0 <= limit < 2 ^ 31 -> Z.of_nat (length l) < 2 ^ 63 ->
  exists k, trim_window limit l = Some (drop k l) /\
    Z.of_nat (length l - k) <= Z.max 1 limit /\
    (k <= length l - Z.to_nat (Z.max 1 limit))%nat.
Proof.
  intros Hl Hsize. unfold trim_window, size_max.
  rewrite (Z.mod_small limit) by lia.
  destruct ((limit <? _) && _) eqn:E.
  - apply andb_true_iff in E as [?%Z.ltb_lt ?%Z.ltb_lt].
    rewrite Z.mod_small by lia. destruct (Z.leb_spec (Z.of_nat (length l) - Z.max limit 1)
      (Z.of_nat (length l))); [|lia].
    eexists. split; [done|]. lia.
  - exists 0%nat. split; [done|]. apply andb_false_iff in E as [?%Z.ltb_ge|?%Z.ltb_ge]; lia.
Qed.

(** ** Merging adjacent messages *)

Lemma merge_or_push_snoc (acc : list Message) (b m : Message) :
  merge_or_push (acc ++ [b]) m =
  if CanMerge b m
  then acc ++ [set_content (MergeMessageContent (m_content b) (m_content m)) b]
  else acc ++ [b; m].
Proof.
  unfold merge_or_push. rewrite last_snoc, removelast_last. destruct (CanMerge b m); [done|].
  by rewrite <- app_assoc.
Qed.

Lemma CanMerge_role (b m : Message) : CanMerge b m = true -> m_role b = m_role m.
Proof. unfold CanMerge. destruct (String.eqb_spec (m_role b) (m_role m)); [done|]. done. Qed.

Lemma MergeMessageContent_suffix (l r : string) : exists p, MergeMessageContent l r = p +:+ r.
Proof.
  unfold MergeMessageContent. destruct l as [|c l]; cbn; [by exists ""%string|].
  destruct r as [|d r]; cbn.
  - exists (String c l). by rewrite str_app_nil_r.
  - exists (String c l +:+ nl +:+ nl). by rewrite !str_app_assoc.
Qed.

Lemma merge_or_push_length (acc : list Message) (m : Message) :
  (length (merge_or_push acc m) <= S (length acc))%nat.
Proof.
  destruct acc as [|b acc _] using rev_ind; [cbn; lia|].
  rewrite merge_or_push_snoc. destruct (CanMerge b m); rewrite !length_app; cbn; lia.
Qed.

Lemma sanitize_length (messages : list Message) :
  (length (sanitize messages) <= length messages)%nat.
Proof.
  unfold sanitize. enough (forall acc, length (fold_left merge_or_push messages acc)
    <= length acc + length messages)%nat as H by apply (H []).
  induction messages as [|m ms IH]; intros acc; cbn; [lia|].
  pose proof (merge_or_push_length acc m). specialize (IH (merge_or_push acc m)). lia.
Qed.

(** The fold never touches a user message once a non-user message follows. *)
Lemma sanitize_tail (post acc : list Message) (u : Message) (mid : list Message) :
  is_user u = true -> no_user mid -> no_user post ->
  exists post', fold_left merge_or_push post (acc ++ u :: mid) = acc ++ u :: post' /\ no_user post'.
Proof.
  intros Hu. revert mid; induction post as [|m post IH]; intros mid Hmid Hpost; cbn.
  - by exists mid.
  - assert (Hm : is_user m = false) by (apply Hpost; left).
    assert (exists mid', merge_or_push (acc ++ u :: mid) m = acc ++ u :: mid' /\ no_user mid')
      as (mid' & -> & Hmid').
    { destruct mid as [|b mid _] using rev_ind.
      - rewrite merge_or_push_snoc. destruct (CanMerge u m) eqn:Hc.
        + apply CanMerge_role in Hc. apply is_user_spec in Hu. unfold is_user in Hm.
          by rewrite <- Hc, Hu in Hm.
        + exists [m]. split; [done|]. intros x ->%list_elem_of_singleton. done.
      - replace (acc ++ u :: mid ++ [b]) with ((acc ++ u :: mid) ++ [b]) by by rewrite <- app_assoc.
        rewrite merge_or_push_snoc. assert (Hb : is_user b = false) by (apply Hmid; set_solver).
        destruct (CanMerge b m).
        + exists (mid ++ [set_content (MergeMessageContent (m_content b) (m_content m)) b]).
          split; [by rewrite <- app_assoc|]. intros x. rewrite elem_of_app, list_elem_of_singleton.
          intros [Hx| ->]; [apply Hmid; set_solver | done].
        + exists (mid ++ [b; m]). split; [by rewrite <- app_assoc|]. intros x Hx.
          apply elem_of_app in Hx as [?|Hx]; [apply Hmid; set_solver|].
          apply elem_of_cons in Hx as [->|Hx]; [done|]. by apply list_elem_of_singleton in Hx as ->. }
    apply IH; [done|]. intros x Hx. apply Hpost. by right.
Qed.

Lemma sanitize_last_user (pre post : list Message) (q : Message) :
  is_user q = true -> no_user post ->
  exists acc u post', sanitize (pre ++ q :: post) = acc ++ u :: post' /\
    is_user u = true /\ no_user post' /\ exists p, m_content u = p +:+ m_content q.
Proof.
  intros Hq Hpost. unfold sanitize. rewrite fold_left_app. cbn [fold_left].
  set (A := fold_left merge_or_push pre []).
  assert (exists acc u, merge_or_push A q = acc ++ [u] /\ is_user u = true /\
    exists p, m_content u = p +:+ m_content q) as (acc & u & -> & Hu & Hp).
  { destruct A as [|b A _] using rev_ind.
    - exists [], q. split_and!; [done..|]. by exists ""%string.
    - rewrite merge_or_push_snoc. destruct (CanMerge b q) eqn:Hc.
      + eexists A, _. split; [done|]. split; [|apply MergeMessageContent_suffix].
        apply CanMerge_role in Hc. unfold is_user in *. cbn. by rewrite Hc.
      + exists (A ++ [b]), q. split; [by rewrite <- app_assoc|]. split; [done|]. by exists ""%string. }
  destruct (sanitize_tail post acc u [] Hu) as (post' & -> & Hn); [by intros ? ?%elem_of_nil | done|].
  exists acc, u, post'. done.
Qed.

(** ** The window: bounds and retention *)

Lemma select_loop_length (cfg : ContextConfig) (msgs : list Message) (segs : list MessageSegment)
    (total : Z) :
  (length (List.concat (select_loop cfg msgs segs total))
   <= length (List.concat (map (segment_messages msgs) segs)) + 2)%nat.
Proof.
  revert total; induction segs as [|s segs IH]; intros total; cbn [select_loop map List.concat].
  - cbn. lia.
  - destruct (_ && _).
    + cbn [List.concat]. rewrite !length_app. specialize (IH (total +
        CalculateMessagesTokens (segment_messages msgs s))). lia.
    + pose proof (CompressSegment_shape cfg msgs s (Z.max (maxContextTokens cfg - total) 1)) as Hc.
      cbn zeta in Hc. destruct (CompressSegment _ _ _ _) as [|c cs]; [cbn; lia|].
      cbn [List.concat]. rewrite app_nil_r, length_app.
      destruct Hc as [[-> _]|(t & Hlen & [(u & r & _ & _ & [= -> ->])| ->])]; cbn in *; lia.
Qed.

Lemma concat_rev_length {A} (l : list (list A)) :
  length (List.concat (rev l)) = length (List.concat l).
Proof.
  induction l as [|x l IH]; [done|]. cbn. rewrite concat_app, !length_app. cbn.
  rewrite app_nil_r, IH. lia.
Qed.

Lemma ApplyContextLimits_unfold (cfg : ContextConfig) (messages : list Message) :
  messages <> [] ->
  ApplyContextLimits cfg messages =
  (fun t => snd (DropUnpairedToolMessages t)) <$> trim_window (maxMessages cfg) (selected cfg messages).
Proof.
  intros Hne. destruct messages as [|m ms]; [done|]. unfold ApplyContextLimits.
  by destruct (trim_window _ _).
Qed.

Lemma selected_length (cfg : ContextConfig) (messages : list Message) :
  (length (selected cfg messages) <= length messages + 2)%nat.
Proof.
  unfold selected. rewrite concat_rev_length.
  pose proof (select_loop_length cfg (sanitize messages)
    (rev (BuildMessageSegments (sanitize messages))) 0) as H.
  rewrite map_rev, concat_rev_length, segments_concat in H.
  pose proof (sanitize_length messages). lia.
Qed.

(** C3.  Every window handed to a model pairs its tool messages: each tool
    result answers a call of an assistant message of the window, and each call
    has a result in it, under a non-empty id. *)
Theorem window_tools_paired (cfg : ContextConfig) (messages w : list Message)
    (Hw : ApplyContextLimits cfg messages = Some w) : tools_paired w.
Proof.
  destruct messages as [|m ms]; [cbn in Hw; simplify_eq; split; intros ? ?; set_solver|].
  rewrite ApplyContextLimits_unfold in Hw by done.
  apply fmap_Some in Hw as (t & _ & ->). apply DropUnpaired_paired.
Qed.

(** C4.  For a non-negative message limit the limiter is total, and the window
    holds at most [max 1 maxMessages] messages. *)
Theorem window_bounded (cfg : ContextConfig) (messages : list Message)
    (Hlimit : 0 <= maxMessages cfg < 2 ^ 31) (Hlen : Z.of_nat (length messages) < 2 ^ 31) :
  exists w, ApplyContextLimits cfg messages = Some w /\
    Z.of_nat (length w) <= Z.max 1 (maxMessages cfg).
Proof.
  destruct messages as [|m ms]; [exists []; split; [done | cbn; lia]|].
  rewrite ApplyContextLimits_unfold by done. pose proof (selected_length cfg (m :: ms)) as Hs.
  destruct (trim_window_spec (maxMessages cfg) (selected cfg (m :: ms))) as (k & -> & Hk & _);
    [done | lia|].
  eexists. split; [done|]. pose proof (DropUnpaired_length (drop k (selected cfg (m :: ms)))) as Hd.
  rewrite length_drop in Hd. lia.
Qed.

(** C5.  The newest user message is in the window whenever the limit allows two
    messages, however small the token budget: as its own message or as the tail
    of the user message it was merged into. *)
Theorem window_keeps_newest_user (cfg : ContextConfig) (pre post w : list Message) (q : Message)
    (Hq : is_user q = true) (Hpost : no_user post)
    (Hlimit : 2 <= maxMessages cfg < 2 ^ 31)
    (Hlen : Z.of_nat (length (pre ++ q :: post)) < 2 ^ 31)
    (Hw : ApplyContextLimits cfg (pre ++ q :: post) = Some w) :
  exists u p, u ∈ w /\ is_user u = true /\ m_content u = p +:+ m_content q.
Proof.
  rewrite ApplyContextLimits_unfold in Hw by by destruct pre.
  pose proof (selected_length cfg (pre ++ q :: post)) as Hs.
  destruct (trim_window_spec (maxMessages cfg) (selected cfg (pre ++ q :: post)))
    as (k & Hk & _ & Hkle); [lia | lia|].
  rewrite Hk in Hw. cbn in Hw. injection Hw as <-.
  destruct (sanitize_last_user pre post q Hq Hpost) as (acc & u & post' & Hsan & Hu & Hn & p & Hp).
  exists u, p. split; [|done].
  apply DropUnpaired_keeps; [|by apply is_user_not_tool|by apply is_user_not_calling].
  unfold selected in *. rewrite Hsan in *.
  destruct (BuildMessageSegments_last acc post' u Hu Hn) as [older Hseg]. rewrite Hseg in *.
  rewrite rev_unit in *. cbn [rev] in *.
  destruct (select_loop_head cfg (acc ++ u :: post')
    (make_segment (acc ++ u :: post') (length acc) (length (acc ++ u :: post'))) (rev older) u post')
    as (tail & more & Hsel & Hlen'); [| done | |].
  - by rewrite segment_messages_make, slice_to_end, drop_app_length.
  - cbn. rewrite length_app. cbn. lia.
  - rewrite Hsel in *. cbn [rev] in *. rewrite concat_app in *. cbn [List.concat] in *.
    rewrite app_nil_r in *. rewrite length_app in Hkle.
    rewrite drop_app_le by lia. set_solver.
Qed.

(** With a negative [maxMessages] the conversion to [size_t] wraps and the
    final [erase] runs past the end: the limiter has no defined result exactly
    when it selected two or more messages. *)
Theorem window_negative_limit (cfg : ContextConfig) (messages : list Message)
    (Hlimit : - 2 ^ 31 <= maxMessages cfg < 0) (Hne : messages <> [])
    (Hlen : Z.of_nat (length messages) < 2 ^ 31) :
  ApplyContextLimits cfg messages = None <-> (2 <= length (selected cfg messages))%nat.
Proof.
  rewrite ApplyContextLimits_unfold by done. pose proof (selected_length cfg messages) as Hs.
  unfold trim_window, size_max. set (n := length (selected cfg messages)) in *.
  replace (maxMessages cfg mod 2 ^ 64) with (maxMessages cfg + 2 ^ 64)
    by (rewrite <- (Z.mod_small (maxMessages cfg + 2 ^ 64) (2 ^ 64)) by lia;
        by rewrite <- (Z_mod_plus_full (maxMessages cfg) 1 (2 ^ 64)), Z.mul_1_l).
  rewrite Z.max_l by lia.
  replace ((Z.of_nat n - (maxMessages cfg + 2 ^ 64)) mod 2 ^ 64) with (Z.of_nat n - maxMessages cfg)
    by (rewrite <- (Z.mod_small (Z.of_nat n - maxMessages cfg) (2 ^ 64)) at 1 by lia;
        rewrite <- (Z_mod_plus_full (Z.of_nat n - (maxMessages cfg + 2 ^ 64)) 1 (2 ^ 64)); f_equal; lia).
  destruct (Z.ltb_spec (maxMessages cfg) (Z.of_nat n)); [|lia].
  destruct (Z.ltb_spec 1 (Z.of_nat n)); cbn [andb].
  - destruct (Z.leb_spec (Z.of_nat n - maxMessages cfg) (Z.of_nat n)); [lia|]. split; [lia | done].
  - split; [done | lia].
Qed.

(** ** Tokens *)

Lemma count_chars_nonneg (s : string) (k : nat) :
  0 <= fst (count_chars k s) /\ 0 <= snd (count_chars k s).
Proof.
  revert k; induction s as [|c s IH]; intros k; cbn [count_chars]; [cbn; lia|].
  destruct k as [|k]; [|apply IH]. destruct (utf8_advance c) as [adv asc].
  specialize (IH (adv - 1)%nat). destruct (count_chars _ s) as [a w]. cbn in IH.
  destruct asc; cbn; lia.
Qed.

Lemma EstimateTokens_nonneg (s : string) : 0 <= EstimateTokens s.
Proof.
  unfold EstimateTokens. pose proof (count_chars_nonneg s 0).
  destruct (count_chars 0 s) as [a w]. cbn in *.
  assert (0 <= a / 4) by (apply Z.div_pos; lia).
  assert (0 <= w * 3 / 4) by (apply Z.div_pos; lia). lia.
Qed.

Definition calls_tokens (tcs : list ToolCall) : Z :=
  fold_right (fun tc acc => EstimateTokens (tc_name tc) + EstimateTokens (tc_argumentsJson tc) + acc)
    0 tcs.

Lemma calls_tokens_nonneg (tcs : list ToolCall) : 0 <= calls_tokens tcs.
Proof.
  induction tcs as [|tc tcs IH]; cbn; [lia|].
  pose proof (EstimateTokens_nonneg (tc_name tc)).
  pose proof (EstimateTokens_nonneg (tc_argumentsJson tc)).
  fold (calls_tokens tcs). lia.
Qed.

Lemma calls_tokens_filter (p : ToolCall -> bool) (tcs : list ToolCall) :
  calls_tokens (List.filter p tcs) <= calls_tokens tcs.
Proof.
  induction tcs as [|tc tcs IH]; cbn; [lia|].
  pose proof (EstimateTokens_nonneg (tc_name tc)).
  pose proof (EstimateTokens_nonneg (tc_argumentsJson tc)).
  destruct (p tc); cbn; fold (calls_tokens tcs); fold (calls_tokens (List.filter p tcs)); lia.
Qed.

Lemma message_tokens_calls (m : Message) :
  CalculateMessageTokens m =
  EstimateTokens (m_role m) + EstimateTokens (m_content m) + calls_tokens (m_toolCalls m)
  + (EstimateTokens (m_toolCallId m) + EstimateTokens (m_toolName m) + EstimateTokens (m_payloadRef m)).
Proof. done. Qed.

Lemma message_tokens_nonneg (m : Message) : 0 <= CalculateMessageTokens m.
Proof.
  rewrite message_tokens_calls. pose proof (calls_tokens_nonneg (m_toolCalls m)).
  pose proof (EstimateTokens_nonneg (m_role m)). pose proof (EstimateTokens_nonneg (m_content m)).
  pose proof (EstimateTokens_nonneg (m_toolCallId m)).
  pose proof (EstimateTokens_nonneg (m_toolName m)).
  pose proof (EstimateTokens_nonneg (m_payloadRef m)). lia.
Qed.

Lemma tokens_app (l k : list Message) :
  CalculateMessagesTokens (l ++ k) = CalculateMessagesTokens l + CalculateMessagesTokens k.
Proof. induction l as [|m l IH]; cbn; [done|]. unfold CalculateMessagesTokens in *. lia. Qed.

Lemma tokens_singleton (m : Message) : CalculateMessagesTokens [m] = CalculateMessageTokens m.
Proof. cbn. lia. Qed.

Lemma tokens_nonneg (l : list Message) : 0 <= CalculateMessagesTokens l.
Proof.
  induction l as [|m l IH]; cbn; [lia|]. pose proof (message_tokens_nonneg m).
  unfold CalculateMessagesTokens in *. lia.
Qed.

Lemma tokens_drop (k : nat) (l : list Message) :
  CalculateMessagesTokens (drop k l) <= CalculateMessagesTokens l.
Proof.
  rewrite <- (take_drop k l) at 2. rewrite tokens_app.
  pose proof (tokens_nonneg (take k l)). lia.
Qed.

Lemma tokens_filter (p : Message -> bool) (l : list Message) :
  CalculateMessagesTokens (List.filter p l) <= CalculateMessagesTokens l.
Proof.
  induction l as [|m l IH]; cbn; [lia|]. pose proof (message_tokens_nonneg m).
  unfold CalculateMessagesTokens in *. destruct (p m); cbn; lia.
Qed.

Lemma tokens_concat_rev (ls : list (list Message)) :
  CalculateMessagesTokens (List.concat (rev ls)) = CalculateMessagesTokens (List.concat ls).
Proof.
  induction ls as [|l ls IH]; [done|]. cbn [rev]. rewrite concat_app, tokens_app.
  cbn [List.concat]. rewrite app_nil_r, tokens_app, IH. lia.
Qed.

Lemma DropOrphan_tokens (msgs : list Message) :
  CalculateMessagesTokens (snd (DropOrphanToolCalls msgs)) <= CalculateMessagesTokens msgs.
Proof.
  unfold DropOrphanToolCalls. generalize (toolResultIds msgs) as ids. intros ids.
  induction msgs as [|m msgs IH]; cbn [fold_right]; [cbn; lia|].
  destruct (drop_orphan_calls ids m) as [d out] eqn:E. cbn [fst snd]. rewrite tokens_app.
  assert (CalculateMessagesTokens out <= CalculateMessageTokens m).
  { revert E. unfold drop_orphan_calls. pose proof (message_tokens_nonneg m).
    destruct (is_calling m); [destruct (_ && _)|]; intros; simplify_eq;
      rewrite ?tokens_singleton; [done| |lia].
    - rewrite !message_tokens_calls. cbn [set_toolCalls m_role m_content m_toolCalls m_toolCallId
        m_toolName m_payloadRef].
      pose proof (calls_tokens_filter (keep_call ids) (m_toolCalls m)). lia. }
  change (CalculateMessagesTokens (m :: msgs)) with
    (CalculateMessageTokens m + CalculateMessagesTokens msgs). lia.
Qed.

Lemma DropUnpaired_tokens (msgs : list Message) :
  CalculateMessagesTokens (snd (DropUnpairedToolMessages msgs)) <= CalculateMessagesTokens msgs.
Proof.
  pose proof (DropOrphan_tokens msgs). unfold DropUnpairedToolMessages.
  destruct (DropOrphanToolCalls msgs) as [d msgs1]. cbn [snd] in *.
  pose proof (tokens_filter (has_call (assistantCallIds msgs1)) msgs1). lia.
Qed.

(** The halving loop stops at a text that fits or at the empty text. *)
Lemma halve_loop_spec (fuel : nat) (budget : Z) (s : string) :
  (String.length s < fuel)%nat ->
  EstimateTokens (halve_loop fuel budget s) <= budget \/ halve_loop fuel budget s = ""%string.
Proof.
  revert s; induction fuel as [|fuel IH]; intros s Hf; [lia|]. cbn [halve_loop].
  destruct (Z.ltb_spec budget (EstimateTokens s)) as [Hlt|Hle]; cbn [andb]; [|by left].
  destruct (str_empty s) eqn:He; cbn [negb].
  - right. by apply str_empty_spec.
  - apply IH. rewrite str_length_substr. destruct s as [|c s]; [done|].
    cbn [String.length] in *.
    pose proof (Nat.div_lt (S (String.length s)) 2). lia.
Qed.

Lemma truncate_summary_tokens (budget : Z) (s : string) :
  EstimateTokens (truncate_summary budget s) <= Z.max budget 3.
Proof.
  unfold truncate_summary.
  destruct (halve_loop_spec (S (String.length s)) budget s) as [H|H]; [lia| |].
  - destruct (str_empty _); [|lia]. change (EstimateTokens "[compressed]") with 3. lia.
  - rewrite H. cbn [str_empty]. change (EstimateTokens "[compressed]") with 3. lia.
Qed.

Lemma summary_tokens (c : string) :
  CalculateMessageTokens (text_message "assistant" c) = EstimateTokens c + 2.
Proof.
  rewrite message_tokens_calls. cbn [text_message m_role m_content m_toolCalls m_toolCallId
    m_toolName m_payloadRef].
  change (EstimateTokens "assistant") with 2. change (EstimateTokens "") with 0. cbn. lia.
Qed.

Lemma CompressSegment_tokens (cfg : ContextConfig) (msgs : list Message) (s : MessageSegment)
    (b U : Z) :
  0 < b -> 0 <= U -> (forall m, m ∈ msgs -> is_user m = true -> CalculateMessageTokens m <= U) ->
  CalculateMessagesTokens (CompressSegment cfg msgs s b) <= Z.max (b + 2) (U + 5).
Proof.
  intros Hb HU Husers. unfold CompressSegment. destruct (_ || _); [cbn; lia|]. cbn zeta.
  set (sms := slice msgs _ _).
  destruct (_ && (Z.of_nat _ <=? maxMessages cfg)) eqn:Hfit.
  { apply andb_true_iff in Hfit as [?%Z.leb_le _]. lia. }
  assert (HP : 0 <= CalculateMessagesTokens (user_prefix sms) <= U).
  { unfold user_prefix. destruct sms as [|u rest] eqn:E; [cbn; lia|]. destruct (is_user u) eqn:Hu; [|cbn; lia].
    rewrite tokens_singleton. split; [apply message_tokens_nonneg|]. apply Husers; [|done].
    assert (u ∈ slice msgs (seg_start s) (seg_end s)) as Hin by (fold sms; rewrite E; left).
    unfold slice in Hin. apply elem_of_take in Hin as (i & Hi & _).
    rewrite lookup_drop in Hi. by apply list_elem_of_lookup_2 in Hi. }
  set (prefix := user_prefix sms) in *.
  destruct (fold_left _ _ _) as [tools lst]. destruct (_ && str_empty lst); [lia|].
  destruct (b <? _) eqn:Hover.
  - rewrite tokens_app, tokens_singleton. unfold set_content. cbn [m_role m_toolCalls m_toolCallId
      m_toolName m_payloadRef m_timestamp text_message m_content].
    fold (text_message "assistant" (truncate_summary (Z.max 1 (b - CalculateMessagesTokens prefix))
      (summary_text tools lst))).
    rewrite summary_tokens.
    pose proof (truncate_summary_tokens (Z.max 1 (b - CalculateMessagesTokens prefix))
      (summary_text tools lst)). lia.
  - apply Z.ltb_ge in Hover. lia.
Qed.

Lemma select_loop_tokens (cfg : ContextConfig) (msgs : list Message) (segs : list MessageSegment)
    (total U : Z) :
  0 <= U -> (forall m, m ∈ msgs -> is_user m = true -> CalculateMessageTokens m <= U) ->
  CalculateMessagesTokens (List.concat (select_loop cfg msgs segs total))
  <= Z.max (maxContextTokens cfg - total) 0 + U + 5.
Proof.
  intros HU Husers. revert total; induction segs as [|s segs IH]; intros total; cbn [select_loop].
  { cbn. lia. }
  destruct (_ && _) eqn:Hfit.
  - apply andb_true_iff in Hfit as [_ ?%Z.leb_le]. cbn [List.concat]. rewrite tokens_app.
    specialize (IH (total + CalculateMessagesTokens (segment_messages msgs s))). lia.
  - pose proof (CompressSegment_tokens cfg msgs s (Z.max (maxContextTokens cfg - total) 1) U) as Hc.
    destruct (CompressSegment _ _ _ _) as [|c cs]; [cbn; lia|]. cbn [List.concat].
    rewrite app_nil_r. specialize (Hc ltac:(lia) HU Husers). lia.
Qed.

(** The token estimate of the window exceeds the budget by at most one
    user message and five tokens: only the boundary segment, compressed around
    its user message, may overshoot. *)
Theorem window_token_bound (cfg : ContextConfig) (messages w : list Message) (U : Z)
    (HU : 0 <= U)
    (Husers : forall m, m ∈ sanitize messages -> is_user m = true -> CalculateMessageTokens m <= U)
    (Hw : ApplyContextLimits cfg messages = Some w) :
  CalculateMessagesTokens w <= Z.max (maxContextTokens cfg) 0 + U + 5.
Proof.
  destruct messages as [|m ms]; [cbn in Hw; simplify_eq; cbn; lia|].
  rewrite ApplyContextLimits_unfold in Hw by done.
  apply fmap_Some in Hw as (t & Ht & ->). pose proof (DropUnpaired_tokens t) as Hd.
  assert (CalculateMessagesTokens t <= CalculateMessagesTokens (selected cfg (m :: ms))) as Hsel.
  { unfold trim_window in Ht. destruct (_ && _); [|by simplify_eq].
    destruct (_ <=? _); simplify_eq. apply tokens_drop. }
  unfold selected in Hsel. rewrite tokens_concat_rev in Hsel.
  pose proof (select_loop_tokens cfg (sanitize (m :: ms))
    (rev (BuildMessageSegments (sanitize (m :: ms)))) 0 U HU Husers). lia.
Qed.

(** ** Histories that fit are untouched *)

Lemma tokens_concat_nonneg (ls : list (list Message)) :
  0 <= CalculateMessagesTokens (List.concat ls).
Proof. apply tokens_nonneg. Qed.

Lemma select_loop_all (cfg : ContextConfig) (msgs : list Message) (segs : list MessageSegment)
    (total : Z) :
  (forall s, s ∈ segs -> Z.of_nat (length (segment_messages msgs s)) <= maxMessages cfg) ->
  total + CalculateMessagesTokens (List.concat (map (segment_messages msgs) segs))
    <= maxContextTokens cfg ->
  select_loop cfg msgs segs total = map (segment_messages msgs) segs.
Proof.
  revert total; induction segs as [|s segs IH]; intros total Hlen Htok; [done|].
  cbn [select_loop map List.concat] in *. rewrite tokens_app in Htok.
  pose proof (tokens_concat_nonneg (map (segment_messages msgs) segs)).
  rewrite (proj2 (Z.leb_le _ _)) by (apply Hlen; left).
  rewrite (proj2 (Z.leb_le _ _)) by lia. cbn [andb]. f_equal. apply IH; [|lia].
  intros x Hx. apply Hlen. by right.
Qed.

Lemma concat_length_elem {A} (x : list A) (ls : list (list A)) :
  x ∈ ls -> (length x <= length (List.concat ls))%nat.
Proof.
  induction ls as [|l ls IH]; [by intros ?%elem_of_nil|]. cbn. rewrite length_app.
  intros [->|Hx]%elem_of_cons; [lia|]. specialize (IH Hx). lia.
Qed.

(** Transparency: a history with no two mergeable neighbours, whose tool
    messages are paired and which fits both limits, is sent unchanged. *)
Theorem window_transparent (cfg : ContextConfig) (messages : list Message)
    (Hmerge : sanitize messages = messages) (Hpaired : tools_paired messages)
    (Htok : CalculateMessagesTokens messages <= maxContextTokens cfg)
    (Hlen : Z.of_nat (length messages) <= maxMessages cfg) :
  ApplyContextLimits cfg messages = Some messages.
Proof.
  destruct messages as [|m ms] eqn:E; [done|]. rewrite <- E in *.
  rewrite ApplyContextLimits_unfold by (by subst).
  assert (selected cfg messages = messages) as Hsel.
  { unfold selected. rewrite Hmerge, select_loop_all.
    - by rewrite map_rev, rev_involutive, segments_concat.
    - intros s Hs. apply list_elem_of_In, in_rev, list_elem_of_In in Hs.
      assert (segment_messages messages s ∈ map (segment_messages messages)
        (BuildMessageSegments messages)) as Hin by by apply list_elem_of_fmap_2.
      apply concat_length_elem in Hin. rewrite segments_concat in Hin. lia.
    - rewrite map_rev, tokens_concat_rev, segments_concat. lia. }
  rewrite Hsel. unfold trim_window.
  destruct (Z.ltb_spec (maxMessages cfg) (Z.of_nat (length messages))); [lia|]. cbn [andb].
  cbn. f_equal. by rewrite DropUnpaired_id.
Qed.

(** ** The engine against its storage interface *)

Section EngineStorage.
Context {S : Type} `{ContextStorageLaws S}.

(** The file and the buffer agree. *)
Definition synced (e : Engine S) (st : S) : Prop :=
  storage_ e = Some st /\ storage_ok st /\ LoadHistory st = (true, memoryBuffer_ e).

Definition add_all (e : Engine S) (l : list (string * Message)) : Engine S :=
  fold_left (fun e '(now, m) => fst (AddMessage now e m)) l e.

(** The messages a run of [AddMessage] calls stores, with their time stamps. *)
Definition stored_messages (l : list (string * Message)) : list Message :=
  map (fun '(now, m) => stamp now m) (List.filter (fun '(_, m) => IsValidMessage m) l).

Lemma stamp_valid (now : string) (m : Message) : IsValidMessage (stamp now m) = IsValidMessage m.
Proof. unfold stamp. by destruct (str_empty (m_timestamp m)). Qed.

Lemma AddMessage_synced (e : Engine S) (st : S) (now : string) (m : Message) :
  synced e st -> (IsValidMessage m = true -> storage_accepts (stamp now m)) ->
  exists st', synced (fst (AddMessage now e m)) st' /\
    memoryBuffer_ (fst (AddMessage now e m)) =
    memoryBuffer_ e ++ (if IsValidMessage m then [stamp now m] else []).
Proof.
  intros (Hst & Hok & Hload) Hacc. unfold AddMessage.
  destruct (IsValidMessage m) eqn:Hv; cbn [negb fst memoryBuffer_].
  - destruct (storage_save st (stamp now m)) as [Hok' Hload'];
      [done | by rewrite stamp_valid | by apply Hacc|].
    exists (SaveMessage st (stamp now m)). split; [|done]. split_and!; [cbn; by rewrite Hst|done|].
    rewrite Hload', Hload. done.
  - exists st. rewrite app_nil_r. done.
Qed.

Lemma add_all_synced (l : list (string * Message)) (e : Engine S) (st : S) :
  synced e st ->
  (forall now m, (now, m) ∈ l -> IsValidMessage m = true -> storage_accepts (stamp now m)) ->
  exists st', synced (add_all e l) st' /\
    memoryBuffer_ (add_all e l) = memoryBuffer_ e ++ stored_messages l.
Proof.
  revert e st; induction l as [|[now m] l IH]; intros e st Hs Hacc.
  - exists st. split; [done|]. by rewrite app_nil_r.
  - destruct (AddMessage_synced e st now m Hs) as (st1 & Hs1 & Hb1);
      [apply Hacc; left|].
    destruct (IH _ st1 Hs1) as (st2 & Hs2 & Hb2); [intros ???; apply Hacc; by right|].
    exists st2. split; [exact Hs2|]. unfold add_all in *. cbn [fold_left]. rewrite Hb2, Hb1.
    rewrite <- app_assoc. f_equal. unfold stored_messages. cbn. by destruct (IsValidMessage m).
Qed.

Lemma trim_front_spec (l : list Message) :
  exists dropped, l = dropped ++ trim_front l /\
    Forall (fun m => is_calling m = true) dropped /\
    match trim_front l with m :: _ => is_calling m = false | [] => True end.
Proof.
  induction l as [|m l (d & Hd & Hf & Hlast)]; cbn; [by exists []|].
  destruct (is_calling m) eqn:E.
  - exists (m :: d). split_and!; [cbn; by f_equal | by constructor | done].
  - exists []. done.
Qed.

(** The history after a restart: what was stored, without the trailing run of
    unanswered tool calls. *)
Lemma TrimOrphan_spec (l : list Message) :
  exists dropped, l = TrimOrphanTrailingToolCalls l ++ dropped /\
    Forall (fun m => is_calling m = true) dropped /\
    (forall m, last (TrimOrphanTrailingToolCalls l) = Some m -> is_calling m = false).
Proof.
  unfold TrimOrphanTrailingToolCalls. destruct (trim_front_spec (rev l)) as (d & Hd & Hf & Hl).
  exists (rev d). split_and!.
  - rewrite <- rev_app_distr, <- Hd. by rewrite rev_involutive.
  - apply Forall_rev. done.
  - intros m Hm. destruct (trim_front (rev l)) as [|x rest]; [done|].
    cbn in Hm. rewrite last_snoc in Hm. by simplify_eq.
Qed.

Lemma restart_history (cfg cfg' : ContextConfig) (e : Engine S) (st : S)
    (l : list (string * Message)) :
  synced e st -> storageType cfg' <> MEMORY_ONLY ->
  (forall now m, (now, m) ∈ l -> IsValidMessage m = true -> storage_accepts (stamp now m)) ->
  exists st' e', storage_ (add_all e l) = Some st' /\
    Initialize (fun _ => st') (engine_new cfg') = (e', true) /\
    memoryBuffer_ e' = TrimOrphanTrailingToolCalls (memoryBuffer_ e ++ stored_messages l).
Proof.
  intros Hs Ht Hacc. destruct (add_all_synced l e st Hs Hacc) as (st' & (Hst & Hok & Hload) & Hb).
  exists st'. eexists. split; [done|]. unfold Initialize. cbn [engine_new e_config].
  rewrite Hload, Hb. by destruct (storageType cfg').
Qed.
End EngineStorage.

(** ** Witnesses: the theorems applied to concrete histories *)

Definition ex_cfg : ContextConfig := mkContextConfig 200 6 "s" "" MEMORY_ONLY false.
Definition ex_call : ToolCall := mkToolCall "call_1" "time_info" "{}".
Definition ex_turn : list Message :=
  [ text_message "user" "what time is it?";
    mkMessage "assistant" "" [ex_call; mkToolCall "call_2" "grep" "{}"] "" "" "" "";
    mkMessage "tool" "12:00" [] "call_1" "time_info" "" "";
    mkMessage "tool" "stale" [] "call_9" "grep" "" "";
    text_message "assistant" "noon" ].

Lemma window_tools_paired_witness :
  exists w, ApplyContextLimits ex_cfg ex_turn = Some w /\ length w = 4%nat /\ tools_paired w.
Proof.
  eexists. split; [vm_compute; reflexivity|]. split; [reflexivity|].
  apply (window_tools_paired ex_cfg ex_turn). vm_compute. reflexivity.
Defined.

Lemma window_bounded_witness :
  exists w, ApplyContextLimits (mkContextConfig 10 2 "s" "" MEMORY_ONLY false) ex_turn = Some w /\
    Z.of_nat (length w) <= 2.
Proof.
  apply (window_bounded (mkContextConfig 10 2 "s" "" MEMORY_ONLY false) ex_turn);
    cbn; lia.
Defined.

Lemma window_keeps_newest_user_witness :
  exists u p w, ApplyContextLimits (mkContextConfig 1 2 "s" "" MEMORY_ONLY false) ex_turn = Some w /\
    u ∈ w /\ is_user u = true /\ m_content u = p +:+ "what time is it?"%string.
Proof.
  destruct (window_keeps_newest_user (mkContextConfig 1 2 "s" "" MEMORY_ONLY false) [] (tail ex_turn)
    (default [] (ApplyContextLimits (mkContextConfig 1 2 "s" "" MEMORY_ONLY false) ex_turn))
    (text_message "user" "what time is it?")) as (u & p & H).
  - reflexivity.
  - intros m Hm. cbn in Hm. repeat (apply elem_of_cons in Hm as [->|Hm]; [reflexivity|]).
    by apply elem_of_nil in Hm.
  - cbn. lia.
  - cbn. lia.
  - vm_compute. reflexivity.
  - exists u, p, (default [] (ApplyContextLimits (mkContextConfig 1 2 "s" "" MEMORY_ONLY false) ex_turn)).
    split; [vm_compute; reflexivity | exact H].
Defined.

(** A limit of [-1] on a two-message history is the undefined [erase]. *)
Lemma window_negative_limit_witness :
  ApplyContextLimits (mkContextConfig 200 (-1) "s" "" MEMORY_ONLY false)
    [text_message "user" "hi"; text_message "assistant" "hello"] = None.
Proof.
  apply (window_negative_limit (mkContextConfig 200 (-1) "s" "" MEMORY_ONLY false)
    [text_message "user" "hi"; text_message "assistant" "hello"]); [cbn; lia | done | cbn; lia|].
  vm_compute. lia.
Defined.

Lemma window_token_bound_witness :
  exists w, ApplyContextLimits (mkContextConfig 5 6 "s" "" MEMORY_ONLY false) ex_turn = Some w /\
    CalculateMessagesTokens w <= 5 + 5 + 5.
Proof.
  eexists. split; [vm_compute; reflexivity|].
  apply (window_token_bound (mkContextConfig 5 6 "s" "" MEMORY_ONLY false) ex_turn _ 5);
    [lia| |vm_compute; reflexivity].
  intros m Hm Hu. vm_compute in Hm.
  repeat (apply elem_of_cons in Hm as [->|Hm]; [vm_compute in Hu; first [discriminate | vm_compute; discriminate]|]).
  by apply elem_of_nil in Hm.
Defined.

Definition ex_paired : list Message :=
  [ text_message "user" "what time is it?";
    mkMessage "assistant" "" [ex_call] "" "" "" "";
    mkMessage "tool" "12:00" [] "call_1" "time_info" "" "" ].

Lemma window_transparent_witness : ApplyContextLimits ex_cfg ex_paired = Some ex_paired.
Proof.
  apply (window_transparent ex_cfg ex_paired); [reflexivity| |vm_compute; discriminate | cbn; lia].
  assert (snd (DropUnpairedToolMessages ex_paired) = ex_paired) as <- by reflexivity.
  apply DropUnpaired_paired.
Defined.
