(* ===== verification/JsonStorage.v ===== *)
(** * The JSON file back end (src/context_engine/json_storage.cpp)

    Messages as JSON objects, the history file rewritten on every save, and the
    instance of the engine's storage interface: what is saved is read back, so
    an engine restarted on the same file has the same history. *)
From Stdlib Require Import ZArith Lia String Ascii List.
From stdpp Require Import base decidable list strings gmap.
From S2P Require Import Prelude Types Encoding JsonLib ContextEngine ContextEngineFacts.
Open Scope Z_scope.

Section JsonStorage.
Context {J : Type} `{JL : Json J}.

(** [if (!s.empty()) entry[key] = s]. *)
Definition opt_field (key s : string) : list (string * J) :=
  if str_empty s then [] else [(key, j_string s)].

Definition EncodeToolCall (tc : ToolCall) : J :=
  j_fields [("id", j_string (tc_id tc)); ("name", j_string (tc_name tc));
            ("arguments", j_string (tc_argumentsJson tc))]%string.

Definition calls_field (tcs : list ToolCall) : list (string * J) :=
  match tcs with
  | [] => []
  | _ => [("tool_calls"%string, j_array (map EncodeToolCall tcs))]
  end.

Definition EncodeMessage (msg : Message) : J :=
  j_fields
    ([("role", j_string (m_role msg)); ("content", j_string (m_content msg))]%string
     ++ calls_field (m_toolCalls msg)
     ++ opt_field "tool_call_id" (m_toolCallId msg)
     ++ opt_field "tool_name" (m_toolName msg)
     ++ opt_field "payload_ref" (m_payloadRef msg)
     ++ opt_field "timestamp" (m_timestamp msg)).

Definition DecodeToolCall (tc : J) : outcome ToolCall :=
  i <-- value_string "id" "" tc ;;
  n <-- value_string "name" "" tc ;;
  a <-- value_string "arguments" "" tc ;;
  Ok (mkToolCall i n a).

Fixpoint DecodeToolCalls (l : list J) : outcome (list ToolCall) :=
  match l with
  | [] => Ok []
  | x :: l' => tc <-- DecodeToolCall x ;; rest <-- DecodeToolCalls l' ;; Ok (tc :: rest)
  end.

(** The checks at the end of [DecodeMessage]. *)
Definition usable_payload (m : Message) : bool :=
  if str_empty (m_role m) then false
  else if String.eqb (m_role m) "tool" && str_empty (m_toolCallId m) then false
  else if negb (String.eqb (m_role m) "assistant") && str_empty (m_content m) then false
  else if String.eqb (m_role m) "assistant" && str_empty (m_content m)
          && Nat.eqb (length (m_toolCalls m)) 0 then false
  else true.

(** [None] is the result [false]. *)
Definition DecodeMessage (entry : J) : outcome (option Message) :=
  match string_field "role" entry with
  | None => Ok None
  | Some role =>
      tcs <-- match array_field "tool_calls" entry with
              | Some l => DecodeToolCalls l
              | None => Ok []
              end ;;
      let m := mkMessage role (default ""%string (string_field "content" entry)) tcs
                 (default ""%string (string_field "tool_call_id" entry))
                 (default ""%string (string_field "tool_name" entry))
                 (default ""%string (string_field "payload_ref" entry))
                 (default ""%string (string_field "timestamp" entry)) in
      Ok (if usable_payload m then Some m else None)
  end.

(** The history file: its text when it exists, and whether it can be opened for
    reading and its [.tmp] sibling for writing. *)
Record JsonDisk := mkJsonDisk {
  disk_file : option string;
  disk_readable : bool;
  disk_writable : bool
}.

(** [json::parse(in, nullptr, false)] of the file, an empty array when it is
    missing, unreadable, malformed or not an array. *)
Definition read_history (d : JsonDisk) : list J :=
  match disk_file d with
  | Some text =>
      if disk_readable d then
        match json_parse text with
        | Ok h => match json_view h with JArray l => l | _ => [] end
        | Throw _ => []
        end
      else []
  | None => []
  end.

(** [SaveMessage]: the new file and the result. *)
Definition JsonSaveMessage (d : JsonDisk) (msg : Message) : JsonDisk * bool :=
  if negb (IsValidMessage msg) then (d, true)
  else
    let history := j_array (read_history d ++ [EncodeMessage msg]) in
    if negb (disk_writable d) then (d, false)
    else match json_dump (Some 2%nat) history with
         | Ok text => (mkJsonDisk (Some text) (disk_readable d) (disk_writable d), true)
         | Throw _ => (d, false)
         end.

(** The loop of [LoadHistory]: the messages pushed before an exception stay. *)
Fixpoint load_loop (l : list J) : bool * list Message :=
  match l with
  | [] => (true, [])
  | entry :: l' =>
      match DecodeMessage entry with
      | Ok (Some msg) => let '(ok, out) := load_loop l' in (ok, msg :: out)
      | Ok None => load_loop l'
      | Throw _ => (false, [])
      end
  end.

Definition JsonLoadHistory (d : JsonDisk) : bool * list Message :=
  match disk_file d with
  | None => (true, [])
  | Some text =>
      if negb (disk_readable d) then (false, [])
      else match json_parse text with
           | Ok h => match json_view h with JArray l => load_loop l | _ => (true, []) end
           | Throw _ => (true, [])
           end
  end.

Definition JsonClear (d : JsonDisk) : JsonDisk :=
  mkJsonDisk None (disk_readable d) (disk_writable d).

#[export] Instance json_storage : ContextStorage JsonDisk := {|
  SaveMessage := fun d m => fst (JsonSaveMessage d m);
  LoadHistory := JsonLoadHistory;
  StorageClear := JsonClear
|}.
End JsonStorage.

(** ** Round trips *)

Section JsonStorageFacts.
Context {J : Type} `{JL : JsonLaws J}.

Lemma assoc_opt_field (k key s : string) :
  assoc_last k (opt_field key s : list (string * J)) =
  if negb (str_empty s) && String.eqb key k then Some (j_string s) else None.
Proof. unfold opt_field. by destruct (str_empty s). Qed.

Lemma assoc_calls_field (k : string) (tcs : list ToolCall) :
  assoc_last k (calls_field tcs : list (string * J)) =
  if negb (Nat.eqb (length tcs) 0) && String.eqb "tool_calls" k
  then Some (j_array (map EncodeToolCall tcs)) else None.
Proof. unfold calls_field. by destruct tcs. Qed.

Lemma DecodeToolCall_Encode (tc : ToolCall) : DecodeToolCall (EncodeToolCall tc : J) = Ok tc.
Proof.
  unfold DecodeToolCall, EncodeToolCall. rewrite !value_string_j_fields. cbn.
  rewrite !get_string_j_string. cbn. by destruct tc.
Qed.

Lemma DecodeToolCalls_Encode (tcs : list ToolCall) :
  DecodeToolCalls (map (EncodeToolCall (J := J)) tcs) = Ok tcs.
Proof.
  induction tcs as [|tc tcs IH]; [done|]. cbn. rewrite DecodeToolCall_Encode. cbn.
  by rewrite IH.
Qed.

(** The writer's and the reader's validity checks accept the same messages,
    except that an empty tool observation is refused by both through its
    content. *)
Lemma IsValidMessage_usable (m : Message) : IsValidMessage m = usable_payload m.
Proof.
  unfold IsValidMessage, usable_payload. destruct (str_empty (m_role m)); [done|].
  destruct (String.eqb_spec (m_role m) "assistant") as [->|Ha]; cbn.
  - destruct (str_empty (m_content m)), (length (m_toolCalls m)); done.
  - destruct (String.eqb (m_role m) "tool"); cbn;
      destruct (str_empty (m_toolCallId m)), (str_empty (m_content m)); done.
Qed.

Lemma DecodeMessage_Encode (m : Message) :
  DecodeMessage (EncodeMessage m : J) = Ok (if IsValidMessage m then Some m else None).
Proof.
  unfold DecodeMessage, EncodeMessage. rewrite !string_field_j_fields, array_field_j_fields.
  rewrite !assoc_last_app, !assoc_opt_field, !assoc_calls_field.
  rewrite IsValidMessage_usable. destruct m as [role content tcs i n p t].
  cbn [m_role m_content m_toolCalls m_toolCallId m_toolName m_payloadRef m_timestamp].
  destruct tcs as [|tc tcs], i, n, p, t; cbn -[usable_payload EncodeToolCall map DecodeToolCalls];
    rewrite ?view_j_array, ?view_j_string; rewrite ?DecodeToolCalls_Encode; reflexivity.
Qed.

(** Messages whose strings are all UTF-8, which the serialiser accepts. *)
Definition utf8_call (tc : ToolCall) : Prop :=
  utf8 (tc_id tc) /\ utf8 (tc_name tc) /\ utf8 (tc_argumentsJson tc).
Definition utf8_message (m : Message) : Prop :=
  utf8 (m_role m) /\ utf8 (m_content m) /\ Forall utf8_call (m_toolCalls m) /\
  utf8 (m_toolCallId m) /\ utf8 (m_toolName m) /\ utf8 (m_payloadRef m) /\ utf8 (m_timestamp m).

Ltac plain_opt :=
  repeat (progress plain_fields ||
    match goal with
    | H : (?k, ?x) ∈ opt_field _ ?s |- _ => unfold opt_field in H; destruct (str_empty s)
    end).

Lemma plain_call (tc : ToolCall) : utf8_call tc -> json_plain (EncodeToolCall tc : J).
Proof.
  intros (? & ? & ?). apply json_plain_fields. intros k x Hx. plain_opt;
    (split; [by apply utf8_ascii | by apply json_plain_string]).
Qed.

Lemma plain_message (m : Message) : utf8_message m -> json_plain (EncodeMessage m : J).
Proof.
  intros (? & ? & Hcalls & ? & ? & ? & ?). apply json_plain_fields. intros k x Hx. plain_opt;
    try (split; [by apply utf8_ascii | by apply json_plain_string]).
  unfold calls_field in Hx. destruct (m_toolCalls m) as [|tc tcs] eqn:E; plain_opt.
  split; [by apply utf8_ascii|]. apply json_plain_array. intros x Hx.
  change (x ∈ map (EncodeToolCall (J := J)) (tc :: tcs)) in Hx.
  apply list_elem_of_fmap in Hx as (c & -> & Hc). apply plain_call.
  rewrite Forall_forall in Hcalls. by apply Hcalls.
Qed.

(** The file holds the encodings of valid messages, or does not exist yet. *)
Definition json_ok (d : JsonDisk) : Prop :=
  disk_readable d = true /\ disk_writable d = true /\
  match disk_file d with
  | None => True
  | Some text => exists l, json_parse text = Ok (j_array (map EncodeMessage l) : J) /\
      Forall (fun m => IsValidMessage m = true /\ utf8_message m) l
  end.

Lemma load_loop_encoded (l : list Message) :
  Forall (fun m => IsValidMessage m = true /\ utf8_message m) l ->
  load_loop (map (EncodeMessage (J := J)) l) = (true, l).
Proof.
  induction 1 as [|m l [Hv _] _ IH]; [done|]. cbn [map load_loop].
  by rewrite DecodeMessage_Encode, Hv, IH.
Qed.

Lemma json_ok_load (d : JsonDisk) :
  json_ok d -> exists l, read_history (J := J) d = map EncodeMessage l /\
    JsonLoadHistory (J := J) d = (true, l) /\
    Forall (fun m => IsValidMessage m = true /\ utf8_message m) l.
Proof.
  intros (Hr & _ & Hf). unfold read_history, JsonLoadHistory.
  destruct (disk_file d) as [text|]; [|by exists []].
  destruct Hf as (l & Hp & Hl). exists l. rewrite Hr, Hp. cbn.
  rewrite view_j_array. split_and!; [done | by apply load_loop_encoded | done].
Qed.

#[export] Program Instance json_storage_laws :
  @ContextStorageLaws JsonDisk (json_storage (J := J)) := {|
  storage_ok := json_ok;
  storage_accepts := utf8_message
|}.
Next Obligation.
  intros d m Hd Hv Hu. destruct (json_ok_load d Hd) as (l & Hread & Hload & Hl).
  destruct Hd as (Hr & Hw & _). cbn. unfold JsonSaveMessage. rewrite Hv, Hw. cbn [negb].
  assert (Hplain : json_plain (j_array (read_history d ++ [EncodeMessage m]) : J)).
  { apply json_plain_array. intros x Hx. rewrite Hread in Hx.
    apply elem_of_app in Hx as [Hx|Hx].
    - apply list_elem_of_fmap in Hx as (y & -> & Hy). apply plain_message.
      rewrite Forall_forall in Hl. by apply Hl.
    - apply list_elem_of_singleton in Hx as ->. by apply plain_message. }
  destruct (dump_ok (Some 2%nat) _ Hplain) as (text & Htext).
  rewrite Htext. cbn [fst]. pose proof (parse_dump _ _ _ Hplain Htext) as Hparse.
  assert (Hl' : Forall (fun m => IsValidMessage m = true /\ utf8_message m) (l ++ [m])).
  { apply Forall_app. split; [done|]. constructor; [done | constructor]. }
  assert (Hok : json_ok (mkJsonDisk (Some text) (disk_readable d) true)).
  { split_and!; [done..|]. exists (l ++ [m]). split; [|done].
    rewrite Hparse, Hread, map_app. done. }
  split; [done|]. unfold JsonLoadHistory at 1. cbn [disk_file disk_readable]. rewrite Hr. cbn [negb].
  rewrite Hparse, Hread, Hload. cbn. rewrite view_j_array.
  change [EncodeMessage m] with (map (EncodeMessage (J := J)) [m]). rewrite <- map_app.
  by apply load_loop_encoded.
Qed.
Next Obligation. intros d (Hr & Hw & _). cbn. done. Qed.

(** Writing a message to the history file and reading it back yields the
    same message when it is valid, and nothing otherwise: no field is lost. *)
Theorem message_roundtrip (m : Message) :
  DecodeMessage (EncodeMessage m : J) = Ok (if IsValidMessage m then Some m else None).
Proof. apply DecodeMessage_Encode. Qed.

(** C6.  A session on JSON storage starts without a history file, on a disk where the
    file can always be read and written, and every valid message added to it has
    UTF-8 texts only.  Then an engine restarted on the file recovers every valid
    message, in order and time stamped, minus a trailing run of unanswered tool
    calls.  (A valid message with a text that is not UTF-8 is outside the claim: its
    [dump] throws, and it is not in the file.) *)
Theorem restart_roundtrip (cfg : ContextConfig) (l : list (string * Message))
    (Ht : storageType cfg = JSON_FILE)
    (Hutf8 : forall now m, (now, m) ∈ l -> IsValidMessage m = true -> utf8_message (stamp now m)) :
  let fresh := mkJsonDisk None true true in
  let e := fst (Initialize (S := JsonDisk) (H := json_storage (J := J)) (fun _ => fresh)
                  (engine_new cfg)) in
  exists d e',
    storage_ (fold_left (fun e '(now, m) => fst (AddMessage (H := json_storage (J := J)) now e m)) l e)
      = Some d /\
    Initialize (H := json_storage (J := J)) (fun _ => d) (engine_new cfg) = (e', true) /\
    memoryBuffer_ e' = TrimOrphanTrailingToolCalls
      (map (fun '(now, m) => stamp now m) (List.filter (fun '(_, m) => IsValidMessage m) l)).
Proof.
  intros fresh e.
  assert (Hs : synced (H := json_storage (J := J)) e fresh).
  { unfold e, Initialize. cbn. rewrite Ht. cbn. done. }
  destruct (restart_history cfg cfg e fresh l Hs) as (d & e' & Hd & Hi & Hb);
    [by rewrite Ht | exact Hutf8|].
  exists d, e'. split; [exact Hd|]. split; [exact Hi|].
  assert (memoryBuffer_ e = []) as He by (unfold e, Initialize; cbn; by rewrite Ht).
  rewrite He in Hb. exact Hb.
Qed.
End JsonStorageFacts.

(** ** Witnesses *)

Lemma message_roundtrip_witness :
  @DecodeMessage JsonTree.json (JsonTree.instance [])
    (@EncodeMessage JsonTree.json (JsonTree.instance [])
       (mkMessage "assistant" "" [ex_call] "" "" "" "t")) =
  Ok (Some (mkMessage "assistant" "" [ex_call] "" "" "" "t")).
Proof.
  apply (@message_roundtrip JsonTree.json (JsonTree.instance [])
    (JsonTree.laws [] (fun x H => False_ind _ (not_elem_of_nil x H)))
    (mkMessage "assistant" "" [ex_call] "" "" "" "t")).
Defined.

Lemma restart_roundtrip_witness :
  exists d, storage_ (fold_left (fun e '(now, m) =>
      fst (AddMessage (H := json_storage (J := JsonTree.json) (JL := JsonTree.instance [])) now e m))
      (map (pair "t0") ex_turn) (mkEngine (mkContextConfig 200 6 "s" "" JSON_FILE false) []
        (Some (mkJsonDisk None true true)) None false)) = Some d /\
    memoryBuffer_ (fst (Initialize (H := json_storage (J := JsonTree.json) (JL := JsonTree.instance []))
      (fun _ => d) (engine_new (mkContextConfig 200 6 "s" "" JSON_FILE false)))) =
    map (stamp "t0") ex_turn.
Proof.
  destruct (@restart_roundtrip JsonTree.json (JsonTree.instance [])
    (JsonTree.laws [] (fun x H => False_ind _ (not_elem_of_nil x H)))
    (mkContextConfig 200 6 "s" "" JSON_FILE false) (map (pair "t0") ex_turn) eq_refl)
    as (d & e' & Hd & Hi & Hb).
  - intros now m Hm _. apply list_elem_of_fmap in Hm as (x & [= -> ->] & Hx).
    cbn in Hx. repeat (apply elem_of_cons in Hx as [->|Hx];
      [split_and!; first [ apply utf8_ascii; reflexivity
                         | repeat (apply List.Forall_cons;
                             [split_and!; apply utf8_ascii; reflexivity|]); apply List.Forall_nil ]|]).
    by apply elem_of_nil in Hx.
  - exists d. split; [exact Hd|]. rewrite Hi. cbn [fst]. rewrite Hb. reflexivity.
Defined.
