(* ===== verification/DbStorage.v ===== *)
(** * The SQLite back end (src/context_engine/db_storage.cpp)

    One table of messages that any number of sessions share, as a second instance of
    the engine's storage interface.  SQLite is the class [Sqlite], with the statements
    the code runs as its operations and [SqliteLaws] for what SQL says of them; a
    database in memory at the end is an instance.

    [DbStorage] objects of several sessions hold connections to one database, so the
    state of an operation is the database. *)
From Stdlib Require Import ZArith Lia String Ascii List.
From stdpp Require Import base decidable list strings gmap.
From S2P Require Import Prelude Types Encoding JsonLib ContextEngine ContextEngineFacts JsonStorage.
Open Scope Z_scope.

(** ** What a message is stored as *)

Definition ESC : ascii := "027"%char.

(** A row of the table; a text column is NULL or text without NUL bytes. *)
Record Row := mkRow {
  r_session : string; r_role : string; r_content : string; r_calls : option string;
  r_call_id : option string; r_name : option string; r_payload : option string; r_time : option string
}.

(** The operations on an open database.  A statement that cannot be prepared has the text
    of [sqlite3_errmsg]. *)
Class Sqlite (D : Type) := {
  prepare_error : list string -> D -> option string;
  exec_drop : D -> D * bool;
  exec_create : list string -> D -> D * bool;
  exec_alter : string -> D -> D * bool;
  (** The result of the step is [SQLITE_DONE]. *)
  insert_row : Row -> D -> D * bool;
  (** The rows of a session in the order of [id], until a step yields none. *)
  select_rows : string -> D -> list Row;
  delete_rows : string -> D -> D
}.

Definition v2_probe : list string := ["tool_calls"; "tool_call_id"; "tool_name"; "payload_ref"].
Definition columns : list string :=
  ["id"; "session_id"; "role"; "content"; "tool_calls"; "tool_call_id"; "tool_name"; "payload_ref"; "timestamp"].
Definition insert_columns : list string :=
  ["session_id"; "role"; "content"; "tool_calls"; "tool_call_id"; "tool_name"; "payload_ref"; "timestamp"].
Definition select_columns : list string :=
  ["role"; "content"; "tool_calls"; "tool_call_id"; "tool_name"; "payload_ref"; "timestamp"; "session_id"; "id"].
Definition no_such_column : string := "no such column".

Section Db.
Context {D J : Type} `{Sqlite D, JL : Json J}.

Definition stale (cols : list string) (d : D) : bool :=
  match prepare_error cols d with Some err => has_sub no_such_column err | None => false end.

Definition CreateTable (d : D) : D * bool :=
  let '(d1, dropped) := if stale v2_probe d then exec_drop d else (d, true) in
  if negb dropped then (d1, false)
  else
    let '(d2, created) := exec_create columns d1 in
    if negb created then (d2, false)
    else if stale ["timestamp"] d2 then exec_alter "timestamp" d2 else (d2, true).

(** A storage object: its session, and whether the database could be opened. *)
Record DbStorage := mkDbStorage { sessionId_ : string; db_ : option D }.
Definition set_db (s : DbStorage) (d : D) : DbStorage := mkDbStorage (sessionId_ s) (Some d).

(** The constructor; a table that could not be created is only logged. *)
Definition open_storage (opened : option D) (sessionId : string) : DbStorage :=
  mkDbStorage sessionId (fst ∘ CreateTable <$> opened).

Definition EncodeToolCalls (calls : list ToolCall) : outcome string :=
  match calls with
  | [] => Ok ""
  | _ => json_dump None (j_array (map (EncodeToolCall (J := J)) calls))
  end.

(** The loop of [DecodeToolCalls]: the calls read before an exception stay. *)
Fixpoint decode_calls (l : list J) : list ToolCall :=
  match l with
  | [] => []
  | x :: l => match DecodeToolCall x with Ok tc => tc :: decode_calls l | Throw _ => [] end
  end.

Definition DecodeToolCalls (str : string) : list ToolCall :=
  if str_empty str then []
  else
    match json_parse str with
    | Ok j => match json_view j with JArray l => decode_calls l | _ => [] end
    | Throw _ => []
    end.

(** Binding a text: NULL when empty, and up to its first NUL byte. *)
Definition bind_text (s : string) : option string := if str_empty s then None else Some (c_str s).

Definition message_row (session : string) (msg : Message) (toolCallsStr : string) : Row :=
  mkRow (c_str session) (c_str (m_role msg)) (c_str (CleanMessageContent (m_content msg)))
    (bind_text toolCallsStr) (bind_text (m_toolCallId msg)) (bind_text (m_toolName msg))
    (bind_text (m_payloadRef msg)) (bind_text (m_timestamp msg)).

(** [dump] may throw. *)
Definition DbSaveMessage (s : DbStorage) (msg : Message) : outcome (DbStorage * bool) :=
  if negb (IsValidMessage msg) then Ok (s, true)
  else
    match db_ s with
    | None => Ok (s, false)
    | Some d =>
        match prepare_error insert_columns d with
        | Some _ => Ok (s, false)
        | None =>
            toolCallsStr <-- EncodeToolCalls (m_toolCalls msg) ;;
            let '(d1, ok) := insert_row (message_row (sessionId_ s) msg toolCallsStr) d in
            Ok (set_db s d1, ok)
        end
    end.

Definition row_message (r : Row) : Message :=
  mkMessage (r_role r) (r_content r) (match r_calls r with Some t => DecodeToolCalls t | None => [] end)
    (default "" (r_call_id r)) (default "" (r_name r)) (default "" (r_payload r)) (default "" (r_time r)).

(** The checks of the loop of [LoadHistory]. *)
Definition usable_row (msg : Message) : bool :=
  negb (str_empty (m_role msg))
  && negb (String.eqb (m_role msg) "tool" && str_empty (m_toolCallId msg))
  && negb (String.eqb (m_role msg) "assistant" && str_empty (m_content msg) && Nat.eqb (length (m_toolCalls msg)) 0).

Definition DbLoadHistory (s : DbStorage) : bool * list Message :=
  match db_ s with
  | None => (false, [])
  | Some d =>
      match prepare_error select_columns d with
      | Some _ => (false, [])
      | None => (true, List.filter usable_row (map row_message (select_rows (c_str (sessionId_ s)) d)))
      end
  end.

Definition DbClear (s : DbStorage) : DbStorage :=
  match db_ s with
  | None => s
  | Some d =>
      match prepare_error ["session_id"] d with
      | Some _ => s
      | None => set_db s (delete_rows (c_str (sessionId_ s)) d)
      end
  end.

(** An exception of [SaveMessage] comes before the database is touched. *)
#[export] Instance db_storage : ContextStorage DbStorage := {|
  SaveMessage := fun s m => match DbSaveMessage s m with Ok (s1, _) => s1 | Throw _ => s end;
  LoadHistory := DbLoadHistory;
  StorageClear := DbClear
|}.
End Db.
Arguments DbStorage D : clear implicits.

(** ** What SQL says of the statements *)

Definition no_such_table : string := "no such table: messages".
Definition missing (cols cs : list string) : option string := List.find (fun c => negb (list_has c cs)) cols.
Definition in_session (session : string) (r : Row) : bool := String.eqb (r_session r) session.
(** A table with the columns of this version, in any order. *)
Definition current (cs : list string) : Prop := forall c, c ∈ cs <-> c ∈ columns.

(** A database that works: it can be written and no other process holds it. *)
Class SqliteLaws (D : Type) `{Sqlite D} := {
  table : D -> option (list string * list Row);
  healthy : D -> Prop;
  prepare_spec d cols : healthy d ->
    prepare_error cols d =
    match table d with
    | None => Some no_such_table
    | Some (cs, _) => (fun c => no_such_column +:+ ": " +:+ c) <$> missing cols cs
    end;
  drop_spec d : healthy d -> exists d1, exec_drop d = (d1, true) /\ healthy d1 /\ table d1 = None;
  create_spec d cs : healthy d -> exists d1, exec_create cs d = (d1, true) /\ healthy d1 /\
    table d1 = Some (default (cs, []) (table d));
  alter_spec d c cs rows : healthy d -> table d = Some (cs, rows) -> c ∉ cs ->
    exists d1, exec_alter c d = (d1, true) /\ healthy d1 /\ table d1 = Some (cs ++ [c], rows);
  insert_spec d r cs rows : healthy d -> table d = Some (cs, rows) -> current cs ->
    exists d1, insert_row r d = (d1, true) /\ healthy d1 /\ table d1 = Some (cs, rows ++ [r]);
  select_spec d s cs rows : healthy d -> table d = Some (cs, rows) -> current cs ->
    select_rows s d = List.filter (in_session s) rows;
  delete_spec d s cs rows : healthy d -> table d = Some (cs, rows) ->
    healthy (delete_rows s d) /\
    table (delete_rows s d) = Some (cs, List.filter (fun r => negb (in_session s r)) rows)
}.

(** ** Cleaning *)

(** What is kept outside of an escape sequence. *)
Definition printable (c : ascii) : bool :=
  negb ((byte_of c <? 32)%N && negb (Ascii.eqb c TAB) && negb (Ascii.eqb c NL) && negb (Ascii.eqb c CR))
  && negb (byte_of c =? 127)%N.
Fixpoint all_printable (s : string) : bool :=
  match s with EmptyString => true | String c s' => printable c && all_printable s' end.

Lemma clean_printable (s : string) (esc : bool) : all_printable (clean_loop esc s) = true.
Proof.
  revert esc; induction s as [|c s IH]; intros esc; [done|]. cbn [clean_loop].
  destruct (negb esc && _ && _); [done|]. destruct esc; [done|].
  destruct ((byte_of c <? 32)%N && _ && _ && _) eqn:E1; [done|]. destruct (byte_of c =? 127)%N eqn:E2; [done|].
  cbn [all_printable]. unfold printable. by rewrite E1, E2, IH.
Qed.

Lemma clean_id (s : string) : all_printable s = true -> CleanMessageContent s = s.
Proof.
  unfold CleanMessageContent. induction s as [|c s IH]; [done|]. cbn [all_printable clean_loop negb andb].
  unfold printable. intros [[Hc%negb_true_iff Hd%negb_true_iff]%andb_true_iff Hs]%andb_true_iff.
  assert ((byte_of c =? 27)%N = false) as ->.
  { destruct (N.eqb_spec (byte_of c) 27) as [E|]; [|done]. rewrite E in Hc. unfold byte_of in E.
    apply (f_equal ascii_of_N) in E. rewrite ascii_N_embedding in E. subst c. done. }
  cbn [andb]. by rewrite Hc, Hd, IH.
Qed.

(** Cleaning leaves nothing to clean. *)
Lemma clean_idempotent (s : string) : CleanMessageContent (CleanMessageContent s) = CleanMessageContent s.
Proof. apply clean_id, clean_printable. Qed.

(** ** The table *)

Section DbFacts.
Context {D J : Type} `{SQ : Sqlite D, !SqliteLaws D, JL : JsonLaws J}.

Lemma stale_spec (cols : list string) (d : D) :
  healthy d ->
  stale cols d = match table d with None => false | Some (cs, _) => bool_decide (missing cols cs <> None) end.
Proof.
  intros Hd. unfold stale. rewrite prepare_spec by done. destruct (table d) as [[cs rows]|]; [|done].
  destruct (missing cols cs) as [c|]; cbn [fmap option_fmap option_map].
  - rewrite bool_decide_true by done. apply has_sub_spec. by exists "", (": " +:+ c).
  - by rewrite bool_decide_false by (by intros []).
Qed.

Lemma missing_None (cols cs : list string) : missing cols cs = None <-> forall c, c ∈ cols -> c ∈ cs.
Proof.
  unfold missing. split.
  - intros Hf c Hc. apply list_elem_of_In in Hc. pose proof (find_none _ _ Hf c Hc) as Hn. cbn in Hn.
    apply negb_false_iff in Hn. by apply list_has_spec.
  - intros Hall. destruct (List.find _ cols) as [c|] eqn:E; [|done].
    apply find_some in E as [Hc Hn]. apply list_elem_of_In in Hc.
    apply Hall, list_has_spec in Hc. by rewrite Hc in Hn.
Qed.

(** What opening makes of the tables of every version: a missing table is created, one
    without the columns of version 2 is replaced by an empty one, and one that lacks only
    the time gets that column and keeps its rows. *)
Lemma CreateTable_spec (d : D) :
  healthy d ->
  exists d1, CreateTable d = (d1, true) /\ healthy d1 /\
    table d1 = Some
      match table d with
      | None => (columns, [])
      | Some (cs, rows) =>
          if bool_decide (missing v2_probe cs <> None) then (columns, [])
          else if bool_decide (missing ["timestamp"] cs <> None) then (cs ++ ["timestamp"], rows) else (cs, rows)
      end.
Proof.
  intros Hd. unfold CreateTable. rewrite stale_spec by done.
  assert (missing ["timestamp"] columns = None) as Hcols by done.
  destruct (table d) as [[cs rows]|] eqn:Et.
  - case_bool_decide as Hv2.
    + destruct (drop_spec d Hd) as (d1 & -> & Hd1 & Ht1). cbn [negb].
      destruct (create_spec d1 columns Hd1) as (d2 & -> & Hd2 & Ht2). cbn [negb].
      rewrite Ht1 in Ht2. cbn [default from_option id] in Ht2.
      rewrite stale_spec, Ht2, Hcols, bool_decide_false by (done || by intros []). by exists d2.
    + cbn [negb]. destruct (create_spec d columns Hd) as (d2 & -> & Hd2 & Ht2). cbn [negb].
      rewrite Et in Ht2. cbn [default from_option id] in Ht2. rewrite stale_spec, Ht2 by done.
      case_bool_decide as Hts; [|by exists d2].
      destruct (alter_spec d2 "timestamp" cs rows Hd2 Ht2) as (d3 & -> & Hd3 & Ht3); [|by exists d3].
      intros Hin. apply Hts, missing_None. by intros c ->%list_elem_of_singleton.
  - cbn [negb]. destruct (create_spec d columns Hd) as (d2 & -> & Hd2 & Ht2). cbn [negb].
    rewrite Et in Ht2. cbn [default from_option id] in Ht2.
    rewrite stale_spec, Ht2, Hcols, bool_decide_false by (done || by intros []). by exists d2.
Qed.

(** A database ready for the statements. *)
Definition ready (d : D) (rows : list Row) : Prop :=
  healthy d /\ exists cs, table d = Some (cs, rows) /\ current cs.

Lemma ready_prepare (d : D) (rows : list Row) (cols : list string) :
  ready d rows -> missing cols columns = None -> prepare_error cols d = None.
Proof.
  intros (Hd & cs & Ht & Hc) Hm. rewrite prepare_spec, Ht by done.
  assert (missing cols cs = None) as ->; [|done].
  apply missing_None. intros c Hin. apply Hc. by apply (proj1 (missing_None cols columns) Hm).
Qed.

(** ** Messages *)

Definition no_nul (s : string) : Prop := occurs NUL s = false.
(** Messages the table represents: no NUL bytes, nothing to clean from the content, and
    tool calls the JSON library can write. *)
Definition storable (m : Message) : Prop :=
  no_nul (m_role m) /\ no_nul (m_content m) /\ all_printable (m_content m) = true /\
  no_nul (m_toolCallId m) /\ no_nul (m_toolName m) /\ no_nul (m_payloadRef m) /\ no_nul (m_timestamp m) /\
  Forall utf8_call (m_toolCalls m).

Lemma decode_calls_encoded (tcs : list ToolCall) :
  decode_calls (map (EncodeToolCall (J := J)) tcs) = tcs.
Proof. induction tcs as [|tc tcs IH]; [done|]. cbn [map decode_calls]. by rewrite DecodeToolCall_Encode, IH. Qed.

Lemma calls_roundtrip (tcs : list ToolCall) :
  Forall utf8_call tcs ->
  exists str, EncodeToolCalls (J := J) tcs = Ok str /\ occurs NUL str = false /\
    match bind_text str with Some t => DecodeToolCalls (J := J) t | None => [] end = tcs.
Proof.
  destruct tcs as [|tc tcs]; [by exists ""|]. intros Ht. set (l := tc :: tcs) in *.
  assert (Hp : json_plain (j_array (map EncodeToolCall l) : J)).
  { apply json_plain_array. intros x Hx. apply list_elem_of_fmap in Hx as (c & -> & Hc). apply plain_call.
    rewrite Forall_forall in Ht. by apply Ht. }
  destruct (dump_ok None _ Hp) as (str & Hs). exists str. split; [exact Hs|].
  pose proof (dump_no_nul _ _ Hs) as Hn. split; [done|]. destruct (dump_one_line _ _ Hs) as [Hne _].
  unfold bind_text, DecodeToolCalls. apply str_empty_false in Hne as ->. rewrite c_str_id by done.
  destruct (dump_one_line _ _ Hs) as [Hne _]. apply str_empty_false in Hne as ->.
  rewrite (parse_dump _ _ _ Hp Hs), view_j_array. apply decode_calls_encoded.
Qed.

Lemma bind_text_id (s : string) : no_nul s -> default "" (bind_text s) = s.
Proof.
  intros Hs. unfold bind_text. destruct (str_empty s) eqn:E; [by apply str_empty_spec in E as ->|].
  cbn. by apply c_str_id.
Qed.

Lemma row_roundtrip (session : string) (m : Message) :
  storable m ->
  exists str, EncodeToolCalls (J := J) (m_toolCalls m) = Ok str /\
    row_message (J := J) (message_row session m str) = m.
Proof.
  intros (H1 & H2 & H3 & H4 & H5 & H6 & H7 & Hc). destruct (calls_roundtrip _ Hc) as (str & Hs & Hn & Hd).
  exists str. split; [done|]. unfold row_message, message_row. cbn.
  rewrite Hd, clean_id, !bind_text_id, !c_str_id by done. by destruct m.
Qed.

Lemma valid_usable (m : Message) : IsValidMessage m = true -> usable_row m = true.
Proof.
  unfold IsValidMessage, usable_row. destruct (str_empty (m_role m)); [done|].
  destruct (String.eqb_spec (m_role m) "assistant") as [->|Ha]; cbn.
  - by destruct (str_empty (m_content m)), (length (m_toolCalls m)).
  - by destruct (String.eqb (m_role m) "tool"), (str_empty (m_toolCallId m)), (str_empty (m_content m)).
Qed.

(** The messages of a session in a table. *)
Definition history (session : string) (rows : list Row) : list Message :=
  List.filter usable_row (map (row_message (J := J)) (List.filter (in_session session) rows)).

Lemma history_app (s : string) (a b : list Row) : history s (a ++ b) = history s a ++ history s b.
Proof. unfold history. by rewrite List.filter_app, map_app, List.filter_app. Qed.

Lemma DbLoadHistory_ready (s : string) (d : D) (rows : list Row) :
  no_nul s -> ready d rows -> DbLoadHistory (J := J) (mkDbStorage s (Some d)) = (true, history s rows).
Proof.
  intros Hs Hd. unfold DbLoadHistory. cbn [db_ sessionId_]. rewrite (ready_prepare d rows) by done.
  rewrite c_str_id by done. destruct Hd as (Hh & cs & Ht & Hc). by rewrite (select_spec d s cs rows).
Qed.

(** Saving adds the message to its session and changes no other. *)
Lemma DbSaveMessage_ready (s : string) (d : D) (rows : list Row) (m : Message) :
  no_nul s -> ready d rows -> IsValidMessage m = true -> storable m ->
  exists d1 r, DbSaveMessage (J := J) (mkDbStorage s (Some d)) m = Ok (mkDbStorage s (Some d1), true) /\
    ready d1 (rows ++ [r]) /\ forall t, history t (rows ++ [r]) = history t rows ++ (if String.eqb s t then [m] else []).
Proof.
  intros Hs Hd Hv Hm. unfold DbSaveMessage. rewrite Hv. cbn [negb db_ sessionId_].
  rewrite (ready_prepare d rows) by done. destruct (row_roundtrip s m Hm) as (str & -> & Hr). cbn [obind].
  destruct Hd as (Hh & cs & Ht & Hc).
  destruct (insert_spec d (message_row s m str) cs rows Hh Ht Hc) as (d1 & -> & Hh1 & Ht1).
  exists d1, (message_row s m str). split; [done|]. split; [split; [done | by exists cs]|].
  intros t. rewrite history_app. f_equal. unfold history. cbn [List.filter map].
  unfold in_session. change (r_session (message_row s m str)) with (c_str s). rewrite c_str_id by done.
  destruct (String.eqb s t); [|done]. cbn [map List.filter]. by rewrite Hr, valid_usable.
Qed.

Lemma filter_sessions (s t : string) (rows : list Row) :
  List.filter (in_session t) (List.filter (fun r => negb (in_session s r)) rows)
  = if String.eqb s t then [] else List.filter (in_session t) rows.
Proof.
  induction rows as [|r rows IH]; [by destruct (String.eqb s t)|]. cbn [List.filter].
  destruct (in_session s r) eqn:Es; cbn [negb List.filter].
  - rewrite IH. unfold in_session in *. apply String.eqb_eq in Es as <-.
    by destruct (String.eqb (r_session r) t).
  - rewrite IH. destruct (String.eqb_spec s t) as [<-|]; [by rewrite Es|]. by destruct (in_session t r).
Qed.

Lemma DbClear_ready (s : string) (d : D) (rows : list Row) :
  no_nul s -> ready d rows ->
  exists d1 rows1, DbClear (mkDbStorage s (Some d)) = mkDbStorage s (Some d1) /\ ready d1 rows1 /\
    forall t, history t rows1 = if String.eqb s t then [] else history t rows.
Proof.
  intros Hs Hd. unfold DbClear. cbn [db_ sessionId_]. rewrite (ready_prepare d rows) by done.
  rewrite c_str_id by done. destruct Hd as (Hh & cs & Ht & Hc). destruct (delete_spec d s cs rows Hh Ht) as [Hh1 Ht1].
  exists (delete_rows s d), (List.filter (fun r => negb (in_session s r)) rows).
  split; [done|]. split; [split; [done | by exists cs]|]. intros t. unfold history.
  rewrite filter_sessions. by destruct (String.eqb s t).
Qed.

(** ** The back end as storage of the engine *)

Definition db_ok (s : DbStorage D) : Prop :=
  no_nul (sessionId_ s) /\ exists d rows, db_ s = Some d /\ ready d rows.

#[export] Program Instance db_storage_laws :
  @ContextStorageLaws (DbStorage D) (db_storage (J := J)) := {|
  storage_ok := db_ok;
  storage_accepts := storable
|}.
Next Obligation.
  intros [s o] m (Hs & d & rows & Hd & Hr) Hv Hm. cbn in Hd, Hs. subst o. cbn [SaveMessage LoadHistory db_storage].
  destruct (DbSaveMessage_ready s d rows m Hs Hr Hv Hm) as (d1 & r & -> & Hr1 & Hh).
  split; [by split; [|by exists d1, (rows ++ [r])]|].
  rewrite (DbLoadHistory_ready s d1 (rows ++ [r])), (DbLoadHistory_ready s d rows) by done.
  by rewrite Hh, String.eqb_refl.
Qed.
Next Obligation.
  intros [s o] (Hs & d & rows & Hd & Hr). cbn in Hd, Hs. subst o. cbn [StorageClear LoadHistory db_storage].
  destruct (DbClear_ready s d rows Hs Hr) as (d1 & rows1 & -> & Hr1 & Hh).
  split; [by split; [|by exists d1, rows1]|].
  rewrite (DbLoadHistory_ready s d1 rows1) by done. by rewrite Hh, String.eqb_refl.
Qed.

(** Opening a database without a table of messages. *)
Lemma open_fresh (d : D) (s : string) :
  healthy d -> table d = None -> no_nul s ->
  exists d1, open_storage (Some d) s = mkDbStorage s (Some d1) /\ ready d1 [].
Proof.
  intros Hd Ht Hs. destruct (CreateTable_spec d Hd) as (d1 & E & Hd1 & Ht1). rewrite Ht in Ht1.
  exists d1. unfold open_storage. cbn. rewrite E. split; [done|]. split; [done|]. by exists columns.
Qed.

(** Opening it again changes nothing. *)
Lemma open_again (d : D) (rows : list Row) (s : string) :
  ready d rows -> exists d1, open_storage (Some d) s = mkDbStorage s (Some d1) /\ ready d1 rows.
Proof.
  intros (Hd & cs & Ht & Hc). destruct (CreateTable_spec d Hd) as (d1 & E & Hd1 & Ht1).
  assert (forall cols, missing cols columns = None -> missing cols cs = None) as Hm.
  { intros cols Hcols. apply missing_None. intros c Hin. apply Hc. by apply (proj1 (missing_None cols columns) Hcols). }
  rewrite Ht, !Hm in Ht1 by done. rewrite !bool_decide_false in Ht1 by (by intros []).
  exists d1. unfold open_storage. cbn. rewrite E. split; [done|]. split; [done|]. by exists cs.
Qed.

Lemma save_session (s : DbStorage D) (m : Message) :
  sessionId_ (SaveMessage (ContextStorage := db_storage (J := J)) s m) = sessionId_ s.
Proof.
  cbn. unfold DbSaveMessage. destruct (negb (IsValidMessage m)); [done|]. destruct (db_ s) as [d|]; [|done].
  destruct (prepare_error insert_columns d); [done|]. destruct (EncodeToolCalls _); [|done]. cbn.
  by destruct (insert_row _ d).
Qed.

Lemma add_all_session (sid : string) (l : list (string * Message)) (e : Engine (DbStorage D)) :
  (forall st, storage_ e = Some st -> sessionId_ st = sid) ->
  forall st, storage_ (add_all (H := db_storage (J := J)) e l) = Some st -> sessionId_ st = sid.
Proof.
  revert e; induction l as [|[now m] l IH]; intros e He; [exact He|]. apply IH. intros st Hst.
  unfold AddMessage in Hst. destruct (negb (IsValidMessage m)); [by apply He|]. cbn in Hst.
  apply fmap_Some in Hst as (st0 & H0 & ->).
  rewrite <- (He st0 H0). apply save_session.
Qed.

(** ** Sessions that share a database *)

Inductive db_op := OpSave (m : Message) | OpClear.
Definition op_ok (so : string * db_op) : Prop :=
  no_nul so.1 /\ match so.2 with OpSave m => IsValidMessage m = true -> storable m | OpClear => True end.

(** One operation of a session's storage object on the database they share. *)
Definition db_step (d : D) (so : string * db_op) : D :=
  let s := mkDbStorage so.1 (Some d) in
  let s1 := match so.2 with
            | OpSave m => match DbSaveMessage (J := J) s m with Ok (s1, _) => s1 | Throw _ => s end
            | OpClear => DbClear s
            end in
  default d (db_ s1).

(** The specification: a history for every session, and nothing between them. *)
Definition histories_step (h : string -> list Message) (so : string * db_op) (t : string) : list Message :=
  if String.eqb so.1 t then
    match so.2 with
    | OpSave m => if IsValidMessage m then h t ++ [m] else h t
    | OpClear => []
    end
  else h t.

Lemma db_step_refines (d : D) (rows : list Row) (h : string -> list Message) (so : string * db_op) :
  ready d rows -> (forall t, history t rows = h t) -> op_ok so ->
  exists rows1, ready (db_step d so) rows1 /\ forall t, history t rows1 = histories_step h so t.
Proof.
  destruct so as [s [m|]]; intros Hd Hh [Hs Hm]; unfold db_step, histories_step; cbn [fst snd] in *.
  - destruct (IsValidMessage m) eqn:Hv.
    + destruct (DbSaveMessage_ready s d rows m Hs Hd Hv (Hm eq_refl)) as (d1 & r & -> & Hr1 & Hh1).
      exists (rows ++ [r]). split; [done|]. intros t. rewrite Hh1, Hh. destruct (String.eqb s t); [done|].
      by rewrite app_nil_r.
    + unfold DbSaveMessage. rewrite Hv. cbn. exists rows. split; [done|]. intros t. rewrite Hh.
      by destruct (String.eqb s t).
  - destruct (DbClear_ready s d rows Hs Hd) as (d1 & rows1 & -> & Hr1 & Hh1). exists rows1. split; [done|].
    intros t. by rewrite Hh1, Hh.
Qed.

(** Sessions that share a database do not see each other.  From a new database, after
    any sequence of saves and clears by any sessions, loading the history of a session
    yields exactly the valid messages that session saved after its last clear, in order
    and with every field, tool calls included. *)
Theorem sessions_isolated (d0 : D) (ops : list (string * db_op)) (session first : string) :
  healthy d0 -> table d0 = None -> no_nul session -> Forall op_ok ops ->
  exists d, db_ (open_storage (Some d0) first) = Some d /\
    DbLoadHistory (J := J) (mkDbStorage session (Some (fold_left db_step ops d)))
    = (true, fold_left histories_step ops (fun _ => []) session).
Proof.
  intros Hd Ht Hs Hops. destruct (CreateTable_spec d0 Hd) as (d & E & Hd1 & Ht1). rewrite Ht in Ht1.
  exists d. split; [unfold open_storage; cbn; by rewrite E|].
  assert (ready d []) as Hr by (split; [done | by exists columns]).
  assert (forall t, history t [] = (fun _ : string => [] : list Message) t) as Hh by done.
  revert Hr Hh. generalize (fun _ : string => [] : list Message). generalize (@nil Row). clear Hd1 Ht1 E. revert d.
  induction Hops as [|so ops Hso _ IH]; intros d rows h Hr Hh; cbn [fold_left].
  - rewrite (DbLoadHistory_ready session d rows) by done. by rewrite Hh.
  - destruct (db_step_refines d rows h so Hr Hh Hso) as (rows1 & Hr1 & Hh1). by apply (IH _ rows1).
Qed.

(** An engine restarted on a database recovers its session: every valid message added
    before, in order and time stamped, minus a trailing run of unanswered tool calls, the
    same as with the JSON file back end. *)
Theorem db_restart_roundtrip (cfg : ContextConfig) (l : list (string * Message)) (d0 : D) :
  storageType cfg = DATABASE -> no_nul (cc_sessionId cfg) -> healthy d0 -> table d0 = None ->
  (forall now m, (now, m) ∈ l -> IsValidMessage m = true -> storable (stamp now m)) ->
  let start := Initialize (H := db_storage (J := J)) (fun cfg => open_storage (Some d0) (cc_sessionId cfg)) (engine_new cfg) in
  exists d e',
    storage_ (fold_left (fun e '(now, m) => fst (AddMessage (H := db_storage (J := J)) now e m)) l (fst start))
      = Some (mkDbStorage (cc_sessionId cfg) (Some d)) /\
    Initialize (H := db_storage (J := J)) (fun cfg => open_storage (Some d) (cc_sessionId cfg)) (engine_new cfg) = (e', true) /\
    memoryBuffer_ e' = TrimOrphanTrailingToolCalls
      (map (fun '(now, m) => stamp now m) (List.filter (fun '(_, m) => IsValidMessage m) l)).
Proof.
  intros Ht Hs Hd Htab Hacc start. destruct (open_fresh d0 (cc_sessionId cfg) Hd Htab Hs) as (d1 & Eo & Hr1).
  assert (fst start = mkEngine cfg [] (Some (mkDbStorage (cc_sessionId cfg) (Some d1))) None false) as Es.
  { unfold start, Initialize, engine_new. cbn [e_config memoryBuffer_]. rewrite Ht, Eo. cbn [LoadHistory db_storage].
    by rewrite (DbLoadHistory_ready _ d1 []). }
  rewrite Es. set (e0 := mkEngine cfg [] _ None false).
  destruct (add_all_synced l e0 (mkDbStorage (cc_sessionId cfg) (Some d1)))
    as (st & (Hst & Hok & Hload) & Hb); [| |].
  { split; [done|]. split; [split; [done | by exists d1, []]|]. cbn [LoadHistory db_storage].
    by rewrite (DbLoadHistory_ready _ d1 []). }
  { exact Hacc. }
  pose proof (add_all_session (cc_sessionId cfg) l e0 ltac:(by intros ? [= <-]) st Hst) as Hses.
  destruct st as [s o]. cbn in Hses. subst s. destruct Hok as (_ & d & rows & [= ->] & Hr).
  destruct (open_again d rows (cc_sessionId cfg) Hr) as (d2 & Eo2 & Hr2).
  exists d. eexists. split; [exact Hst|]. unfold Initialize, engine_new. cbn [e_config memoryBuffer_].
  cbn [LoadHistory db_storage] in Hload. rewrite (DbLoadHistory_ready _ d rows) in Hload by done. injection Hload as Hload.
  rewrite Ht, Eo2. cbn [LoadHistory db_storage]. rewrite (DbLoadHistory_ready _ d2 rows) by done.
  split; [done|]. cbn [memoryBuffer_]. by rewrite Hload, Hb.
Qed.
End DbFacts.

(** ** A database in memory *)

Module MemDb.
Definition db : Type := option (list string * list Row).

#[export] Instance instance : Sqlite db := {|
  prepare_error := fun cols d =>
    match d with
    | None => Some no_such_table
    | Some (cs, _) => (fun c => no_such_column +:+ ": " +:+ c) <$> missing cols cs
    end;
  exec_drop := fun _ => (None, true);
  exec_create := fun cs d => (Some (default (cs, []) d), true);
  exec_alter := fun c d => (match d with Some (cs, rows) => Some (cs ++ [c], rows) | None => None end, true);
  insert_row := fun r d => (match d with Some (cs, rows) => Some (cs, rows ++ [r]) | None => None end, true);
  select_rows := fun s d => match d with Some (_, rows) => List.filter (in_session s) rows | None => [] end;
  delete_rows := fun s d =>
    match d with Some (cs, rows) => Some (cs, List.filter (fun r => negb (in_session s r)) rows) | None => None end
|}.

#[export] Program Instance laws : SqliteLaws db := {| table := id; healthy := fun _ => True |}.
Next Obligation. done. Qed.
Next Obligation. intros d _. by eexists. Qed.
Next Obligation. intros d cs _. by eexists. Qed.
Next Obligation. intros d c cs rows _ E _. unfold id in E. subst d. by eexists. Qed.
Next Obligation. intros d r cs rows _ E _. unfold id in E. subst d. by eexists. Qed.
Next Obligation. intros d s cs rows _ E _. unfold id in E. by subst d. Qed.
Next Obligation. intros d s cs rows _ E. unfold id in E. by subst d. Qed.
End MemDb.
#[export] Existing Instances MemDb.instance MemDb.laws.

#[local] Instance ex_json : Json JsonTree.json := JsonTree.instance [].
#[local] Instance ex_laws : JsonLaws JsonTree.json := JsonTree.laws [] ltac:(by intros ? ?%elem_of_nil).

Lemma ex_storable (m : Message) : m ∈ map (stamp "t0") ex_turn -> storable m.
Proof.
  intros Hm. cbn in Hm.
  repeat (apply elem_of_cons in Hm as [->|Hm];
    [split_and!; first [ reflexivity
                       | repeat (apply List.Forall_cons;
                           [split_and!; apply utf8_ascii; reflexivity|]); apply List.Forall_nil ]|]).
  by apply elem_of_nil in Hm.
Qed.

(** Two sessions, one of which is cleared. *)
Definition ex_ops : list (string * db_op) :=
  map (fun m => ("a", OpSave m)) (map (stamp "t0") ex_turn) ++ [("b", OpSave (text_message "user" "hello"));
    ("b", OpClear); ("b", OpSave (text_message "user" "again"))].

Lemma sessions_isolated_witness :
  exists d, DbLoadHistory (J := JsonTree.json) (mkDbStorage "a" (Some d)) = (true, map (stamp "t0") ex_turn).
Proof.
  destruct (sessions_isolated (D := MemDb.db) (J := JsonTree.json) None ex_ops "a" "b") as (d & _ & E).
  - exact I.
  - reflexivity.
  - reflexivity.
  - unfold ex_ops. apply Forall_app. split.
    + apply Forall_forall. intros so Hso. apply list_elem_of_fmap in Hso as (m & -> & Hm). split; [reflexivity|].
      intros _. by apply ex_storable.
    + repeat first [apply Forall_nil_2 | apply Forall_cons_2; [split; [reflexivity|]|]]; try exact I;
        intros _; split_and!; try reflexivity; apply List.Forall_nil.
  - exists (fold_left (db_step (J := JsonTree.json)) ex_ops d). rewrite E. reflexivity.
Defined.

Definition ex_db_cfg : ContextConfig := mkContextConfig 200 6 "s" "" DATABASE false.
Lemma db_restart_roundtrip_witness :
  exists d : MemDb.db, memoryBuffer_ (fst (Initialize (H := db_storage (J := JsonTree.json))
    (fun cfg => open_storage (Some d) (cc_sessionId cfg)) (engine_new ex_db_cfg))) = map (stamp "t0") ex_turn.
Proof.
  destruct (db_restart_roundtrip (J := JsonTree.json) ex_db_cfg (map (pair "t0") ex_turn) (None : MemDb.db))
    as (d & e' & _ & Hi & Hb).
  - reflexivity.
  - reflexivity.
  - exact I.
  - reflexivity.
  - intros now m Hm _. apply list_elem_of_fmap in Hm as (x & [= -> ->] & Hx). apply ex_storable.
    apply list_elem_of_fmap. by exists x.
  - exists d. rewrite Hi. cbn [fst]. rewrite Hb. reflexivity.
Defined.

(** Text that is all terminal control is stored as an empty message and loaded as one. *)
Example ex_cleaned_empty :
  let m := text_message "user" (String ESC "[2J") in
  IsValidMessage m = true /\
  match DbSaveMessage (J := JsonTree.json) (open_storage (Some (None : MemDb.db)) "s") m with
  | Ok (s, ok) => ok = true /\ DbLoadHistory (J := JsonTree.json) s = (true, [text_message "user" ""])
  | Throw _ => False
  end.
Proof. vm_compute. done. Qed.

(** A table of an older version is replaced, one that lacks the time keeps its rows. *)
Example ex_migrations (r : Row) :
  (CreateTable (Some (["id"; "session_id"; "role"; "content"], [r]) : MemDb.db)).1 = Some (columns, []) /\
  (CreateTable (Some (take 8 columns, [r]) : MemDb.db)).1 = Some (columns, [r]).
Proof. split; reflexivity. Qed.
