(* ===== verification/ToolBase.v ===== *)
(** * Tools (include/tool.h, src/tools/tool.cpp)

    A tool is its [name_], [description_] and [params_], with the text schema of
    [GetSchema] and the JSON Schema of [GetJsonSchema].  [Tool] adds the virtual
    [Invoke]: a tool object keeps pointers into the session it was created for,
    so an invocation is a function of that session's state [W]. *)
From Stdlib Require Import ZArith Lia String Ascii List.
From stdpp Require Import base decidable list strings gmap sets.
From S2P Require Import Prelude Types Encoding JsonLib.
Open Scope Z_scope.

Record ToolParam := mkToolParam {
  tp_name : string;
  tp_description : string;
  tp_type : string;
  tp_required : bool
}.

Record ToolInfo := mkToolInfo {
  name_ : string;
  description_ : string;
  params_ : list ToolParam
}.

Definition param_line (p : ToolParam) : string :=
  "  - " +:+ tp_name p +:+ " (" +:+ tp_type p +:+ ")"
  +:+ (if tp_required p then " [required]" else "")
  +:+ ": " +:+ tp_description p +:+ nl.

Definition GetSchema (t : ToolInfo) : string :=
  "Tool: " +:+ name_ t +:+ nl +:+ "Description: " +:+ description_ t +:+ nl
  +:+ "Parameters:" +:+ nl +:+ string_concat (map param_line (params_ t)).

Definition is_one_of (x : string) (l : list string) : bool := existsb (String.eqb x) l.

(** The JSON-Schema type a parameter type is mapped to. *)
Definition schema_type (t : string) : string :=
  if is_one_of t ["int"; "integer"] then "integer"
  else if is_one_of t ["number"; "float"; "double"] then "number"
  else if is_one_of t ["bool"; "boolean"] then "boolean"
  else if String.eqb t "array" then "array"
  else if String.eqb t "object" then "object"
  else "string".

Section Schema.
Context {J : Type} `{Json J}.

Definition param_schema (p : ToolParam) : J :=
  j_fields
    ([("type", j_string (schema_type (tp_type p)))]
     ++ (if String.eqb (schema_type (tp_type p)) "array"
         then [("items", j_fields [("type", j_string "string")])] else [])
     ++ (if str_empty (tp_description p) then []
         else [("description", j_string (tp_description p))])).

Definition GetJsonSchema (t : ToolInfo) : J :=
  let properties := j_fields (map (fun p => (tp_name p, param_schema p)) (params_ t)) in
  let required := map (fun p => j_string (tp_name p)) (List.filter tp_required (params_ t)) in
  j_fields
    ([("type", j_string "object"); ("properties", properties)]
     ++ (match required with [] => [] | _ => [("required", j_array required)] end)).
End Schema.

(** A tool object over the state [W] its pointers reach.  The JSON schema is the
    virtual [GetJsonSchema]; tools that do not override it return
    [GetJsonSchema] of their data. *)
Record Tool (J W : Type) := mkTool {
  tool_info : ToolInfo;
  tool_json_schema : outcome J;
  tool_Invoke : string -> W -> W * outcome string
}.
Arguments mkTool {J W} _ _ _.
Arguments tool_info {J W} _.
Arguments tool_json_schema {J W} _.
Arguments tool_Invoke {J W} _ _ _.

Section SchemaFacts.
Context {J : Type} `{JsonLaws J}.

Lemma assoc_last_params (k : string) (ps : list ToolParam) :
  NoDup (map tp_name ps) ->
  forall p, p ∈ ps -> tp_name p = k ->
  assoc_last k (map (fun p => (tp_name p, param_schema p : J)) ps) = Some (param_schema p).
Proof.
  induction ps as [|q ps IH]; [intros _ p Hp; by apply not_elem_of_nil in Hp|].
  intros (Hq & Hps)%NoDup_cons p Hp <-. cbn.
  apply elem_of_cons in Hp as [->|Hp]; [|by rewrite (IH Hps p Hp eq_refl)].
  assert (assoc_last (tp_name q) (map (fun p => (tp_name p, param_schema p : J)) ps) = None) as ->.
  { clear IH Hps. induction ps as [|r ps IH]; [done|]. cbn in *.
    rewrite IH by set_solver. destruct (String.eqb_spec (tp_name r) (tp_name q)) as [E|]; [|done].
    set_solver. }
  by rewrite String.eqb_refl.
Qed.

(** The schema of a tool whose parameter names are distinct describes each
    parameter once: its JSON-Schema type is one of the six, and it is listed as
    required exactly when it is. *)
Lemma GetJsonSchema_describes (t : ToolInfo) (p : ToolParam) :
  NoDup (map tp_name (params_ t)) -> p ∈ params_ t ->
  (exists props, jfield "properties" (GetJsonSchema t : J) = Some props /\
     exists ps, jfield (tp_name p) props = Some ps /\
       string_field "type" ps = Some (schema_type (tp_type p))) /\
  (tp_required p = true <->
   exists req, array_field "required" (GetJsonSchema t : J) = Some req /\
     tp_name p ∈ string_elements req).
Proof.
  intros Hnd Hp. unfold GetJsonSchema. split.
  - eexists. rewrite jfield_j_fields. split.
    + rewrite assoc_last_app. by destruct (map _ (List.filter _ _)); cbn.
    + eexists. rewrite jfield_j_fields. split; [by apply assoc_last_params|].
      unfold param_schema. rewrite string_field_j_fields, !assoc_last_app.
      destruct (str_empty (tp_description p)), (String.eqb (schema_type (tp_type p)) "array");
        cbn; by rewrite view_j_string.
  - rewrite array_field_j_fields, assoc_last_app.
    assert (tp_name p ∈ map tp_name (List.filter tp_required (params_ t)) <->
            tp_required p = true) as Hreq.
    { rewrite list_elem_of_fmap. split.
      - intros (q & Hpq & Hq). apply elem_of_filterb in Hq as [Hq Hr].
        enough (p = q) as -> by done.
        apply list_elem_of_lookup in Hp as [i Hi]. apply list_elem_of_lookup in Hq as [j Hj].
        enough (i = j) as -> by congruence.
        eapply NoDup_lookup; [exact Hnd| |].
        + rewrite list_lookup_fmap, Hi. reflexivity.
        + rewrite list_lookup_fmap, Hj. cbn. by f_equal.
      - intros Hr. exists p. split; [done|]. by apply elem_of_filterb. }
    rewrite <- Hreq.
    assert (map (fun p => j_string (tp_name p) : J) (List.filter tp_required (params_ t))
            = map j_string (map tp_name (List.filter tp_required (params_ t)))) as ->
      by (by rewrite map_map).
    destruct (map tp_name (List.filter tp_required (params_ t))) as [|n ns].
    + cbn. split; [set_solver|]. intros (r & Hr & _). done.
    + cbn [map assoc_last String.eqb Ascii.eqb Bool.eqb]. rewrite view_j_array. split.
      * intros Hin. eexists. split; [reflexivity|].
        change (j_string n :: map j_string ns) with (map (j_string : string -> J) (n :: ns)).
        by rewrite string_elements_map.
      * intros (r & [= <-] & Hr).
        change (j_string n :: map j_string ns) with (map (j_string : string -> J) (n :: ns)) in Hr.
        by rewrite string_elements_map in Hr.
Qed.
End SchemaFacts.

(** ** Witness *)

Definition ex_tool : ToolInfo :=
  mkToolInfo "grep" "Search files" [mkToolParam "pattern" "the text" "string" true;
                                    mkToolParam "limit" "" "int" false].

Lemma empty_tree_laws : @JsonLaws JsonTree.json (JsonTree.instance []).
Proof. apply JsonTree.laws. intros x Hx. by apply elem_of_nil in Hx. Qed.

Lemma GetJsonSchema_describes_witness :
  let schema := GetJsonSchema (J := JsonTree.json) (H := JsonTree.instance []) ex_tool in
  (exists props, jfield (H := JsonTree.instance []) "properties" schema = Some props /\
     exists ps, jfield (H := JsonTree.instance []) "limit" props = Some ps /\
       string_field (H := JsonTree.instance []) "type" ps = Some "integer"%string) /\
  (false = true <->
   exists req, array_field (H := JsonTree.instance []) "required" schema = Some req /\
     "limit"%string ∈ string_elements (H := JsonTree.instance []) req).
Proof.
  apply (GetJsonSchema_describes (H := JsonTree.instance []) (H0 := empty_tree_laws) ex_tool (mkToolParam "limit" "" "int" false)).
  - apply (bool_decide_unpack _). reflexivity.
  - apply elem_of_cons. right. by apply list_elem_of_singleton.
Defined.
