(* ===== verification/TodoList.v ===== *)
(** * The session's todo list and its tools (src/core/session_todo_list.cpp,
    src/tools/builtin_tools/todo_tool.cpp)

    [SessionTodoList] is the vector of items; the five tools are functions of
    their input text and of the list pointer ([None] is the null pointer).  The
    facts: the items' states, and that a successful response reports exactly the
    list it leaves behind while a refused call changes nothing. *)
From Stdlib Require Import ZArith Lia String Ascii List.
From stdpp Require Import base decidable list strings gmap sets.
From S2P Require Import Prelude Types Encoding JsonLib ToolBase.
Open Scope Z_scope.

Record TodoItem := mkTodoItem {
  ti_content : string;
  ti_status : string;
  ti_result : string
}.
#[export] Instance TodoItem_eq_dec : EqDecision TodoItem.
Proof. solve_decision. Defined.

Definition pending_item (c : string) : TodoItem := mkTodoItem c "pending" "".

(** ** [SessionTodoList]: each operation returns its success and the items *)

Definition Create (contents : list string) : list TodoItem := map pending_item contents.

Definition index_ok (index : Z) (items : list TodoItem) : bool :=
  (0 <=? index) && (index <? Z.of_nat (length items)).

Definition Complete (index : Z) (result : string) (items : list TodoItem)
    : bool * list TodoItem :=
  if negb (index_ok index items) then (false, items)
  else (true, alter (fun it => mkTodoItem (ti_content it) "completed" result)
                (Z.to_nat index) items).

Definition Insert (index : Z) (content : string) (items : list TodoItem)
    : bool * list TodoItem :=
  if index <? 0 then (false, items)
  else
    let i := if Z.of_nat (length items) <? index then length items else Z.to_nat index in
    (true, take i items ++ [pending_item content] ++ drop i items).

Definition Remove (index : Z) (items : list TodoItem) : bool * list TodoItem :=
  if negb (index_ok index items) then (false, items)
  else (true, take (Z.to_nat index) items ++ drop (S (Z.to_nat index)) items).

Definition Empty (items : list TodoItem) : bool :=
  match items with [] => true | _ => false end.

Definition render_line (i : nat) (it : TodoItem) : string :=
  "  [" +:+ nat_to_string i +:+ "] (" +:+ ti_status it +:+ ") " +:+ ti_content it
  +:+ (if str_empty (ti_result it) then "" else " -> " +:+ ti_result it) +:+ nl.

Definition Render (items : list TodoItem) : string :=
  match items with
  | [] => ""
  | _ => "# Current Todo List" +:+ nl +:+ string_concat (imap render_line items)
  end.

(** ** The tools *)

Section Tools.
Context {J : Type} `{Json J}.

Definition MakeError (msg : string) : outcome string :=
  json_dump None (j_fields [("ok", j_bool false); ("error", j_string msg)] : J).

Definition MakeOk (extra : list (string * J)) : outcome string :=
  json_dump None (j_fields (extra ++ [("ok", j_bool true)])).

Definition RenderItem (i : nat) (it : TodoItem) : J :=
  j_fields
    ([("index", j_int (Z.of_nat i)); ("content", j_string (ti_content it));
      ("status", j_string (ti_status it))]
     ++ (if str_empty (ti_result it) then [] else [("result", j_string (ti_result it))])).

Definition RenderItems (items : list TodoItem) : J := j_array (imap RenderItem items).

Definition todo_list := list TodoItem.

(** [RequireList]: the error text of a null list. *)
Definition no_list : outcome string := MakeError "todo list is not available in this context".

(** The catch around the parsing of the input: a parsed request runs [k], a
    rejected one is reported, an exception becomes "invalid JSON". *)
Definition with_request {R} (request : outcome (string + R))
    (list_ : todo_list) (k : R -> todo_list * outcome string) : todo_list * outcome string :=
  match request with
  | Ok (inr r) => k r
  | Ok (inl why) =>
      match MakeError why with
      | Ok r => (list_, Ok r)
      | Throw e => (list_, MakeError ("invalid JSON: " +:+ e))
      end
  | Throw e => (list_, MakeError ("invalid JSON: " +:+ e))
  end.

Definition parse_create (input : string) : outcome (string + list string) :=
  j <-- json_parse input ;;
  match array_field "items" (j : J) with
  | Some l => Ok (inr (string_elements l))
  | None => Ok (inl "'items' must be an array of strings")
  end.

Definition create_invoke (input : string) (list_ : todo_list) : todo_list * outcome string :=
  with_request (parse_create input) list_ (fun contents =>
    let items := Create contents in
    (items, MakeOk [("count", j_int (Z.of_nat (length contents)));
                    ("items", RenderItems items)])).

(** [j.contains(key) && j[key].is_number_integer()]. *)
Definition integer_field (key : string) (j : J) : option J :=
  match jfield key j with
  | Some v => if is_number_integer v then Some v else None
  | None => None
  end.

Definition parse_complete (input : string) : outcome (string + Z * string) :=
  j <-- json_parse input ;;
  match integer_field "index" (j : J) with
  | None => Ok (inl "'index' (integer) is required")
  | Some v =>
      index <-- json_get_int v ;;
      Ok (inr (index, default "" (string_field "result" j)))
  end.

Definition items_response (items : todo_list) : outcome string :=
  MakeOk [("items", RenderItems items)].

Definition complete_invoke (input : string) (list_ : todo_list) : todo_list * outcome string :=
  with_request (parse_complete input) list_ (fun '(index, result) =>
    let '(ok, items) := Complete index result list_ in
    if ok : bool then (items, items_response items)
    else (list_, MakeError ("index out of range: " +:+ to_string index))).

Definition parse_insert (input : string) : outcome (string + Z * string) :=
  j <-- json_parse input ;;
  match integer_field "index" (j : J) with
  | None => Ok (inl "'index' (integer) is required")
  | Some v =>
      index <-- json_get_int v ;;
      match string_field "content" j with
      | None => Ok (inl "'content' (string) is required")
      | Some content => Ok (inr (index, content))
      end
  end.

Definition insert_invoke (input : string) (list_ : todo_list) : todo_list * outcome string :=
  with_request (parse_insert input) list_ (fun '(index, content) =>
    let '(ok, items) := Insert index content list_ in
    if ok : bool then (items, items_response items)
    else (list_, MakeError ("insertion failed at index " +:+ to_string index))).

Definition parse_remove (input : string) : outcome (string + Z) :=
  j <-- json_parse input ;;
  match integer_field "index" (j : J) with
  | None => Ok (inl "'index' (integer) is required")
  | Some v => index <-- json_get_int v ;; Ok (inr index)
  end.

Definition remove_invoke (input : string) (list_ : todo_list) : todo_list * outcome string :=
  with_request (parse_remove input) list_ (fun index =>
    let '(ok, items) := Remove index list_ in
    if ok : bool then (items, items_response items)
    else (list_, MakeError ("index out of range: " +:+ to_string index))).

Definition list_invoke (input : string) (list_ : todo_list) : todo_list * outcome string :=
  (list_, items_response list_).

Inductive todo_op := TodoCreate | TodoComplete | TodoInsert | TodoRemove | TodoListAll.

Definition todo_invoke (op : todo_op) : string -> todo_list -> todo_list * outcome string :=
  match op with
  | TodoCreate => create_invoke
  | TodoComplete => complete_invoke
  | TodoInsert => insert_invoke
  | TodoRemove => remove_invoke
  | TodoListAll => list_invoke
  end.

(** [Invoke] of the five tools, with the [RequireList] guard. *)
Definition TodoTool_Invoke (op : todo_op) (input : string) (l : option todo_list)
    : option todo_list * outcome string :=
  match l with
  | None => (None, no_list)
  | Some items => let '(items', r) := todo_invoke op input items in (Some items', r)
  end.

(** The constructors' names, descriptions and parameters. *)
Definition todo_info (op : todo_op) : ToolInfo :=
  match op with
  | TodoCreate => mkToolInfo "todo_create"
      ("Create the initial todo list of tasks for the current run. "
       +:+ "Replaces any existing list. Input: JSON {" +:+ dq +:+ "items" +:+ dq +:+ ": [" +:+ dq
       +:+ "task 1" +:+ dq +:+ ", " +:+ dq +:+ "task 2" +:+ dq +:+ ", ...]}.")
      [mkToolParam "items" "An array of task descriptions (strings)" "array" true]
  | TodoComplete => mkToolInfo "todo_complete"
      ("Mark a task as completed by its index. Optionally include a short result. "
       +:+ "Input: JSON {" +:+ dq +:+ "index" +:+ dq +:+ ": <int>, " +:+ dq +:+ "result" +:+ dq
       +:+ ": <string optional>}.")
      [mkToolParam "index" "Zero-based task index" "integer" true;
       mkToolParam "result" "Short result/note" "string" false]
  | TodoInsert => mkToolInfo "todo_insert"
      ("Insert a new task at a given index. Existing tasks shift down. "
       +:+ "Input: JSON {" +:+ dq +:+ "index" +:+ dq +:+ ": <int>, " +:+ dq +:+ "content" +:+ dq
       +:+ ": <string>}.")
      [mkToolParam "index" "Zero-based insertion index (use list length to append)" "integer" true;
       mkToolParam "content" "Task description" "string" true]
  | TodoRemove => mkToolInfo "todo_remove"
      ("Remove a task by its index. Remaining tasks renumber. "
       +:+ "Input: JSON {" +:+ dq +:+ "index" +:+ dq +:+ ": <int>}.")
      [mkToolParam "index" "Zero-based task index" "integer" true]
  | TodoListAll => mkToolInfo "todo_list"
      "List all current todos with status and result. Input: empty JSON {} accepted." []
  end.

Definition todo_tool (op : todo_op) : Tool J (option todo_list) :=
  mkTool (todo_info op) (Ok (GetJsonSchema (todo_info op))) (TodoTool_Invoke op).

(** Reading a response back, as the model does. *)
Definition read_item (j : J) : option TodoItem :=
  match string_field "content" j, string_field "status" j with
  | Some c, Some s => Some (mkTodoItem c s (default "" (string_field "result" j)))
  | _, _ => None
  end.
Definition read_response (j : J) : option (bool * option (list TodoItem)) :=
  match jfield "ok" j with
  | Some v => match json_view v with
              | JBool b => Some (b, match array_field "items" j with
                                    | Some l => mapM read_item l
                                    | None => None
                                    end)
              | _ => None
              end
  | None => None
  end.
End Tools.

(** ** Facts *)

Definition item_utf8 (it : TodoItem) : Prop :=
  utf8 (ti_content it) /\ utf8 (ti_status it) /\ utf8 (ti_result it).

(** A pending item has no result yet. *)
Definition item_ok (it : TodoItem) : Prop :=
  (ti_status it = "pending" /\ ti_result it = "")%string \/ ti_status it = "completed"%string.

Lemma Forall_pending (cs : list string) : Forall item_ok (Create cs).
Proof. apply Forall_fmap, Forall_true. intros c. by left. Qed.

Lemma Complete_ok index result items :
  Forall item_ok items -> Forall item_ok (Complete index result items).2.
Proof.
  unfold Complete. case_goal; cbn; [done|]. intros Hi. apply Forall_alter; [done|].
  intros x _ _. by right.
Qed.

Lemma Insert_ok index content items :
  Forall item_ok items -> Forall item_ok (Insert index content items).2.
Proof.
  unfold Insert. destruct (index <? 0); [done|]. intros Hi. cbn [snd].
  apply Forall_app. split; [by apply Forall_take|].
  constructor; [by left | by apply Forall_drop].
Qed.

Lemma Remove_ok index items : Forall item_ok items -> Forall item_ok (Remove index items).2.
Proof.
  unfold Remove. case_goal; [done|]. intros Hi. apply Forall_app.
  split; [by apply Forall_take | by apply Forall_drop].
Qed.

#[export] Hint Resolve Forall_pending Complete_ok Insert_ok Remove_ok : jw.

Section ToolFacts.
Context {J : Type} `{JsonLaws J}.

(** What a tool call can do to the list. *)
Lemma todo_invoke_cases (op : todo_op) (input : string) (l l' : todo_list) (r : outcome string) :
  todo_invoke (J := J) op input l = (l', r) ->
  (l' = l /\ exists why, r = MakeError (J := J) why)
  \/ ((exists extra : list (string * J), r = MakeOk (extra ++ [("items", RenderItems l')])
                     /\ assoc_last "ok" extra = None
                     /\ forall k x, (k, x) ∈ extra -> utf8 k /\ json_plain x)
      /\ (l' = l \/ (exists cs, l' = Create cs) \/ (exists i x, l' = (Complete i x l).2)
          \/ (exists i x, l' = (Insert i x l).2) \/ (exists i, l' = (Remove i l).2))).
Proof.
  assert (exists extra : list (string * J),
    items_response (J := J) l' = MakeOk (extra ++ [("items", RenderItems l')]) /\
    assoc_last "ok" extra = None /\ (forall k x, (k, x) ∈ extra -> utf8 k /\ json_plain x))
    as Hitems.
  { exists []. split; [done|]. split; [done|]. intros k x Hx.
    by apply not_elem_of_nil in Hx. }
  destruct op; cbn [todo_invoke].
  all: unfold create_invoke, complete_invoke, insert_invoke, remove_invoke, list_invoke,
         with_request.
  - destruct (parse_create (J := J) input) as [[why|cs]|e].
    + destruct (MakeError (J := J) why) eqn:E; intros [= <- <-]; left; eauto.
    + intros [= <- <-]. right. split; [|by eauto].
      exists [("count", j_int (Z.of_nat (length cs)))]. split; [done|]. split; [done|].
      intros k x [-> ->]%list_elem_of_singleton%pair_equal_spec. split; [apply utf8_ascii; reflexivity|].
      eapply plain_int, view_j_int.
    + intros [= <- <-]. left. eauto.
  - destruct (parse_complete (J := J) input) as [[why|[i x]]|e].
    + destruct (MakeError (J := J) why) eqn:E; intros [= <- <-]; left; eauto.
    + destruct (Complete i x l) as [[] items] eqn:E; intros [= <- <-]; [|left; by eauto].
      right. split; [exact Hitems|]. right; right; left. exists i, x. by rewrite E.
    + intros [= <- <-]. left. eauto.
  - destruct (parse_insert (J := J) input) as [[why|[i x]]|e].
    + destruct (MakeError (J := J) why) eqn:E; intros [= <- <-]; left; eauto.
    + destruct (Insert i x l) as [[] items] eqn:E; intros [= <- <-]; [|left; by eauto].
      right. split; [exact Hitems|]. do 3 right. left. exists i, x. by rewrite E.
    + intros [= <- <-]. left. eauto.
  - destruct (parse_remove (J := J) input) as [[why|i]|e].
    + destruct (MakeError (J := J) why) eqn:E; intros [= <- <-]; left; eauto.
    + destruct (Remove i l) as [[] items] eqn:E; intros [= <- <-]; [|left; by eauto].
      right. split; [exact Hitems|]. do 4 right. exists i. by rewrite E.
    + intros [= <- <-]. left. eauto.
  - intros [= <- <-]. right. split; [exact Hitems | by left].
Qed.

Lemma plain_item (i : nat) (it : TodoItem) : item_utf8 it -> json_plain (RenderItem i it : J).
Proof.
  intros (? & ? & ?). apply json_plain_fields. intros k x Hx. plain_fields;
    (split; [by apply utf8_ascii|]); try by apply json_plain_string.
  eapply plain_int, view_j_int.
Qed.

Lemma elem_of_imap_inv {A B} (f : nat -> A -> B) (l : list A) (y : B) :
  y ∈ imap f l -> exists i x, l !! i = Some x /\ y = f i x.
Proof.
  intros [i Hi]%list_elem_of_lookup. rewrite list_lookup_imap in Hi.
  apply fmap_Some in Hi as (x & ? & ->). eauto.
Qed.

Lemma plain_items (items : list TodoItem) :
  Forall item_utf8 items -> json_plain (RenderItems items : J).
Proof.
  intros Hl. apply json_plain_array. intros y (i & x & Hx & ->)%elem_of_imap_inv.
  apply plain_item. rewrite Forall_forall in Hl. apply Hl. by eapply list_elem_of_lookup_2.
Qed.

Lemma read_item_RenderItem (i : nat) (it : TodoItem) :
  read_item (RenderItem i it : J) = Some it.
Proof.
  unfold read_item, RenderItem. rewrite !string_field_j_fields, !assoc_last_app.
  destruct it as [c s r]. cbn [ti_content ti_status ti_result].
  destruct r as [|a r]; cbn; by rewrite !view_j_string.
Qed.

Lemma read_items (items : list TodoItem) :
  mapM read_item (imap (RenderItem (J := J)) items) = Some items.
Proof.
  apply mapM_Some. apply Forall2_same_length_lookup. rewrite length_imap. split; [done|].
  intros i j it Hj Hit. rewrite list_lookup_imap, Hit in Hj. injection Hj as <-.
  apply read_item_RenderItem.
Qed.

Lemma read_response_ok (extra : list (string * J)) (items : list TodoItem) :
  assoc_last "ok" extra = None ->
  read_response (j_fields ((extra ++ [("items", RenderItems items)]) ++ [("ok", j_bool true)]) : J)
  = Some (true, Some items).
Proof.
  intros He. unfold read_response. rewrite array_field_j_fields, jfield_j_fields, !assoc_last_app.
  cbn. rewrite view_j_bool. unfold RenderItems. rewrite view_j_array, read_items. done.
Qed.

Lemma plain_response (extra : list (string * J)) (items : list TodoItem) :
  (forall k x, (k, x) ∈ extra -> utf8 k /\ json_plain x) -> Forall item_utf8 items ->
  json_plain (j_fields ((extra ++ [("items", RenderItems items)]) ++ [("ok", j_bool true)]) : J).
Proof.
  intros He Hi. apply json_plain_fields. intros k x Hx.
  apply elem_of_app in Hx as [Hx|Hx]; [apply elem_of_app in Hx as [Hx|Hx]; [by apply He|]|];
    plain_fields; (split; [by apply utf8_ascii|]).
  - by apply plain_items.
  - eapply plain_bool, view_j_bool.
Qed.

(** A todo tool call either refuses - it returns an error object and
    leaves the list as it was - or answers with a JSON document that reads back
    as success together with exactly the items now in the list. *)
Theorem todo_response_reports_list (op : todo_op) (input s : string) (l l' : todo_list) :
  todo_invoke (J := J) op input l = (l', Ok s) -> Forall item_utf8 l' ->
  (l' = l /\ exists why, MakeError (J := J) why = Ok s) \/
  (exists j : J, json_parse s = Ok j /\ read_response j = Some (true, Some l')).
Proof.
  intros Hi Hutf. apply todo_invoke_cases in Hi as [(-> & why & Hr)|[(extra & Hr & Hok & He) _]].
  - left. eauto.
  - right. exists (j_fields ((extra ++ [("items", RenderItems l')]) ++ [("ok", j_bool true)])).
    split; [|by apply read_response_ok].
    eapply parse_dump; [by apply plain_response|]. symmetry. exact Hr.
Qed.

(** One tool call of the session. *)
Definition todo_step (l l' : todo_list) : Prop :=
  exists op input r, todo_invoke (J := J) op input l = (l', r).

(** Whatever sequence of todo tool calls the model makes, every item of
    the list is pending without a result, or completed. *)
Theorem todo_items_ok (l : todo_list) : reach todo_step [] l -> Forall item_ok l.
Proof.
  intros Hr. refine (reach_invariant todo_step (Forall item_ok) [] _ _ l Hr); [constructor|].
  intros k l' Hl (op & input & r & Hi).
  apply todo_invoke_cases in Hi as [[-> _]|[_ [->|[(cs & ->)|[(i & x & ->)|[(i & x & ->)|(i & ->)]]]]]];
    eauto with jw.
Qed.

(** *** What the tools promise, item by item *)

(** The list is made of these pending items. *)
Definition created (cs : list string) (l' : list TodoItem) : Prop :=
  length l' = length cs /\
  forall k c, cs !! k = Some c -> l' !! k = Some (mkTodoItem c "pending" "").

(** The item at a place of the list is completed, every other one is untouched. *)
Definition completed_at (i : Z) (result : string) (l l' : list TodoItem) : Prop :=
  0 <= i < Z.of_nat (length l) /\ length l' = length l /\
  forall k it, l !! k = Some it ->
    l' !! k = Some (if decide (Z.of_nat k = i) then mkTodoItem (ti_content it) "completed" result
                    else it).

(** A pending item at a place, or at the end when the place is past it; the items
    from there on move down by one. *)
Definition inserted_at (i : Z) (content : string) (l l' : list TodoItem) : Prop :=
  0 <= i /\ length l' = S (length l) /\
  l' !! Z.to_nat (Z.min i (Z.of_nat (length l))) = Some (mkTodoItem content "pending" "") /\
  forall k it, l !! k = Some it -> l' !! (if decide (Z.of_nat k < i) then k else S k) = Some it.

(** The item at a place of the list is gone; those after it move up by one. *)
Definition removed_at (i : Z) (l l' : list TodoItem) : Prop :=
  0 <= i < Z.of_nat (length l) /\ length l = S (length l') /\
  forall k it, l !! k = Some it -> Z.of_nat k <> i ->
    l' !! (if decide (Z.of_nat k < i) then k else pred k) = Some it.

(** The integer under "index" of a request. *)
Definition index_of (req : J) (i : Z) : Prop :=
  exists v, jfield "index" req = Some v /\ is_number_integer v = true /\ json_get_int v = Ok i.

(** What an accepted call of each tool does, read off its request. *)
Definition call_effect (op : todo_op) (request : outcome J) (l l' : todo_list) : Prop :=
  match op with
  | TodoListAll => l' = l
  | _ =>
      exists req, request = Ok req /\
      match op with
      | TodoCreate =>
          exists xs, array_field "items" req = Some xs /\ created (string_elements xs) l'
      | TodoComplete =>
          exists i, index_of req i /\ completed_at i (default "" (string_field "result" req)) l l'
      | TodoInsert =>
          exists i c, index_of req i /\ string_field "content" req = Some c /\ inserted_at i c l l'
      | _ => exists i, index_of req i /\ removed_at i l l'
      end
  end.

(** The answer to an accepted call: it reads back as the list it leaves. *)
Definition reports (r : outcome string) (l' : todo_list) : Prop :=
  forall s, r = Ok s -> Forall item_utf8 l' ->
    exists j : J, json_parse s = Ok j /\ read_response j = Some (true, Some l').

Lemma index_ok_spec i (l : list TodoItem) : index_ok i l = true <-> 0 <= i < Z.of_nat (length l).
Proof. unfold index_ok. rewrite andb_true_iff, Z.leb_le, Z.ltb_lt. lia. Qed.

Lemma Create_spec cs : created cs (Create cs).
Proof.
  unfold created, Create. change (map pending_item cs) with (pending_item <$> cs).
  rewrite length_fmap. split; [done|]. intros k c Hk. by rewrite list_lookup_fmap, Hk.
Qed.

Lemma Complete_spec i result l :
  let '(ok, l') := Complete i result l in
  if ok : bool then completed_at i result l l' else forall l2, ~ completed_at i result l l2.
Proof.
  unfold Complete. destruct (index_ok i l) eqn:E; cbn [negb].
  - apply index_ok_spec in E. split; [done|]. split; [by rewrite length_alter|].
    intros k it Hk. rewrite list_lookup_alter. destruct (decide (Z.of_nat k = i)).
    + rewrite decide_True by lia. replace (Z.to_nat i) with k by lia. by rewrite Hk.
    + by rewrite decide_False by lia.
  - intros l2 [Hi _]. apply index_ok_spec in Hi. congruence.
Qed.

Lemma Insert_spec i c l :
  let '(ok, l') := Insert i c l in
  if ok : bool then inserted_at i c l l' else forall l2, ~ inserted_at i c l l2.
Proof.
  unfold Insert. destruct (Z.ltb_spec i 0); [by intros l2 [Hi _]; lia|].
  set (n := if Z.of_nat (length l) <? i then length l else Z.to_nat i).
  assert (n = Z.to_nat (Z.min i (Z.of_nat (length l)))) as En.
  { subst n. destruct (Z.ltb_spec (Z.of_nat (length l)) i); lia. }
  assert (n <= length l)%nat as Hn by lia. split; [done|].
  rewrite !length_app, length_take, length_drop, <- En. cbn [length]. split; [lia|].
  assert (length (take n l) = n) as Ht by (rewrite length_take; lia). split.
  - rewrite lookup_app_r, Ht by lia. by rewrite Nat.sub_diag.
  - intros k it Hk. pose proof (lookup_lt_Some _ _ _ Hk).
    destruct (decide (Z.of_nat k < i)).
    + rewrite lookup_app_l by lia. by rewrite lookup_take, decide_True by lia.
    + rewrite lookup_app_r, Ht by lia. rewrite lookup_app_r by (cbn; lia).
      rewrite lookup_drop. cbn [length]. by replace (n + (S k - n - 1))%nat with k by lia.
Qed.

Lemma Remove_spec i l :
  let '(ok, l') := Remove i l in
  if ok : bool then removed_at i l l' else forall l2, ~ removed_at i l l2.
Proof.
  unfold Remove. destruct (index_ok i l) eqn:E; cbn [negb].
  2: { intros l2 [Hi _]. apply index_ok_spec in Hi. congruence. }
  apply index_ok_spec in E. split; [done|].
  rewrite length_app, length_take, length_drop. split; [lia|].
  assert (length (take (Z.to_nat i) l) = Z.to_nat i) as Ht by (rewrite length_take; lia).
  intros k it Hk Hki. pose proof (lookup_lt_Some _ _ _ Hk). destruct (decide (Z.of_nat k < i)).
  - rewrite lookup_app_l by lia. by rewrite lookup_take, decide_True by lia.
  - rewrite lookup_app_r, Ht, lookup_drop by lia.
    by replace (S (Z.to_nat i) + (pred k - Z.to_nat i))%nat with k by lia.
Qed.

Lemma reports_ok (extra : list (string * J)) l' :
  assoc_last "ok" extra = None -> (forall k x, (k, x) ∈ extra -> utf8 k /\ json_plain x) ->
  reports (MakeOk (extra ++ [("items", RenderItems l')])) l'.
Proof.
  intros Hok He s Hr Hl.
  exists (j_fields ((extra ++ [("items", RenderItems l')]) ++ [("ok", j_bool true)])).
  split; [|by apply read_response_ok]. eapply parse_dump; [by apply plain_response | done].
Qed.

Lemma reports_items l' : reports (items_response l') l'.
Proof. apply (reports_ok []); [done|]. by intros k x ?%elem_of_nil. Qed.

Lemma reports_count n l' :
  reports (MakeOk [("count", j_int (Z.of_nat n)); ("items", RenderItems l')]) l'.
Proof.
  apply (reports_ok [("count", j_int (Z.of_nat n))]); [done|].
  intros k x [-> ->]%list_elem_of_singleton%pair_equal_spec. split; [by apply utf8_ascii|].
  eapply plain_int, view_j_int.
Qed.

(** The requests the tools accept. *)
Lemma parse_create_spec input cs :
  parse_create (J := J) input = Ok (inr cs) <->
  exists req : J, json_parse input = Ok req /\
    exists xs, array_field "items" req = Some xs /\ cs = string_elements xs.
Proof.
  unfold parse_create. destruct (json_parse input) as [req|e]; cbn; [|by naive_solver].
  destruct (array_field "items" req) eqn:E; naive_solver.
Qed.

Lemma integer_field_spec req v :
  integer_field (J := J) "index" req = Some v <->
  jfield "index" req = Some v /\ is_number_integer v = true.
Proof.
  unfold integer_field. destruct (jfield "index" req) as [v'|]; [|by split; [|intros []]].
  destruct (is_number_integer v') eqn:E; (split; [by intros [= <-] | by intros [[= ->] ?]; congruence]).
Qed.

Lemma index_of_Some req v :
  integer_field (J := J) "index" req = Some v ->
  forall i, index_of req i <-> json_get_int v = Ok i.
Proof. intros [Hv Hi]%integer_field_spec i. unfold index_of. naive_solver. Qed.

Lemma index_of_None req i : integer_field (J := J) "index" req = None -> ~ index_of req i.
Proof.
  intros E (v & Hv & Hi & _). assert (integer_field "index" req = Some v); [|congruence].
  by apply integer_field_spec.
Qed.

Lemma index_of_inj (req : J) i i' : index_of req i -> index_of req i' -> i = i'.
Proof. intros (v & Hv & _ & Hi) (v' & Hv' & _ & Hi'). congruence. Qed.

Lemma parse_complete_spec input i result :
  parse_complete (J := J) input = Ok (inr (i, result)) <->
  exists req : J, json_parse input = Ok req /\ index_of req i /\
    result = default "" (string_field "result" req).
Proof.
  unfold parse_complete. destruct (json_parse input) as [req|e]; cbn; [|by naive_solver].
  destruct (integer_field "index" req) as [v|] eqn:E.
  - pose proof (index_of_Some req v E i) as Hv. destruct (json_get_int v); cbn; naive_solver.
  - pose proof (index_of_None req i E). naive_solver.
Qed.

Lemma parse_insert_spec input i c :
  parse_insert (J := J) input = Ok (inr (i, c)) <->
  exists req : J, json_parse input = Ok req /\ index_of req i /\ string_field "content" req = Some c.
Proof.
  unfold parse_insert. destruct (json_parse input) as [req|e]; cbn; [|by naive_solver].
  destruct (integer_field "index" req) as [v|] eqn:E.
  - pose proof (index_of_Some req v E i) as Hv.
    destruct (json_get_int v), (string_field "content" req) eqn:Ef; cbn; naive_solver.
  - pose proof (index_of_None req i E). naive_solver.
Qed.

Lemma parse_remove_spec input i :
  parse_remove (J := J) input = Ok (inr i) <->
  exists req : J, json_parse input = Ok req /\ index_of req i.
Proof.
  unfold parse_remove. destruct (json_parse input) as [req|e]; cbn; [|by naive_solver].
  destruct (integer_field "index" req) as [v|] eqn:E.
  - pose proof (index_of_Some req v E i) as Hv. destruct (json_get_int v); cbn; naive_solver.
  - pose proof (index_of_None req i E). naive_solver.
Qed.

(** A call is accepted when its request is and the list operation succeeds. *)
Lemma with_request_cases {R} (request : outcome (string + R)) l k l' r :
  with_request (J := J) request l k = (l', r) ->
  (exists x, request = Ok (inr x) /\ k x = (l', r)) \/
  ((forall x, request <> Ok (inr x)) /\ l' = l /\ exists why, r = MakeError (J := J) why).
Proof.
  unfold with_request. destruct request as [[why|x]|e].
  - intros E. right. split; [done|].
    destruct (MakeError (J := J) why) eqn:Ew; injection E as <- <-; eauto.
  - eauto.
  - intros [= <- <-]. right. split; [done | eauto].
Qed.

(** C9.  Every call of a todo tool is either accepted or refused.  An accepted call
    does to the list exactly what the tool promises for the request it was given:
    create replaces the list by pending items for the strings of "items"; complete
    changes the status and the result of the item at "index" and of no other;
    insert puts a pending item at "index", or at the end when that is past it, and
    moves the later ones down; remove takes the item at "index" out and moves the
    later ones up; list changes nothing.  Its answer reads back as success with
    exactly the items now in the list, when these are UTF-8.  A call is refused
    exactly when no list is what the tool promises - the request does not parse,
    lacks a field, or names a place that is not in the list - and a refused call
    leaves the list as it was and answers with an error. *)
Theorem todo_calls_spec (op : todo_op) (input : string) (l l' : todo_list) (r : outcome string) :
  todo_invoke (J := J) op input l = (l', r) ->
  (call_effect op (json_parse input) l l' /\ reports r l') \/
  ((forall l2, ~ call_effect op (json_parse input) l l2) /\ l' = l /\
   exists why, r = MakeError (J := J) why).
Proof.
  destruct op; cbn [todo_invoke call_effect]; unfold create_invoke, complete_invoke, insert_invoke,
    remove_invoke, list_invoke.
  - intros [(cs & E & [= <- <-])|(Hno & -> & Hr)]%with_request_cases; [left|right].
    + apply parse_create_spec in E as (req & Hreq & xs & Hxs & ->).
      split; [|by apply reports_count]. exists req. split; [done|]. exists xs. split; [done|].
      apply Create_spec.
    + split; [|done]. intros l2 (req & Hreq & xs & Hxs & _).
      apply (Hno (string_elements xs)), parse_create_spec. by eauto.
  - intros [([i result] & E & Ek)|(Hno & -> & Hr)]%with_request_cases.
    + apply parse_complete_spec in E as (req & Hreq & Hi & ->). rewrite Hreq.
      pose proof (Complete_spec i (default "" (string_field "result" req)) l) as Hs.
      destruct (Complete _ _ l) as [[] items]; injection Ek as <- <-; [left|right].
      * split; [by eauto 6 | apply reports_items].
      * split; [|by eauto]. intros l2 (_ & [= <-] & i' & Hi' & Hc).
        rewrite (index_of_inj _ _ _ Hi' Hi) in Hc. by apply Hs in Hc.
    + right. split; [|done]. intros l2 (req & Hreq & i & Hi & _).
      apply (Hno (i, default "" (string_field "result" req))), parse_complete_spec. eauto.
  - intros [([i c] & E & Ek)|(Hno & -> & Hr)]%with_request_cases.
    + apply parse_insert_spec in E as (req & Hreq & Hi & Hf). rewrite Hreq.
      pose proof (Insert_spec i c l) as Hs.
      destruct (Insert _ _ l) as [[] items]; injection Ek as <- <-; [left|right].
      * split; [by eauto 8 | apply reports_items].
      * split; [|by eauto]. intros l2 (_ & [= <-] & i' & c' & Hi' & Hf' & Hc).
        rewrite (index_of_inj _ _ _ Hi' Hi) in Hc. simplify_eq. by apply Hs in Hc.
    + right. split; [|done]. intros l2 (req & Hreq & i & c & Hi & Hf & _).
      apply (Hno (i, c)), parse_insert_spec. eauto.
  - intros [(i & E & Ek)|(Hno & -> & Hr)]%with_request_cases.
    + apply parse_remove_spec in E as (req & Hreq & Hi). rewrite Hreq.
      pose proof (Remove_spec i l) as Hs.
      destruct (Remove _ l) as [[] items]; injection Ek as <- <-; [left|right].
      * split; [by eauto 6 | apply reports_items].
      * split; [|by eauto]. intros l2 (_ & [= <-] & i' & Hi' & Hc).
        rewrite (index_of_inj _ _ _ Hi' Hi) in Hc. by apply Hs in Hc.
    + right. split; [|done]. intros l2 (req & Hreq & i & Hi & _).
      apply (Hno i), parse_remove_spec. eauto.
  - intros [= <- <-]. left. split; [done | apply reports_items].
Qed.
End ToolFacts.

(** ** Witnesses *)

Definition todo_json : list (string * JsonTree.json) :=
  [("create", GenNode 1 [JsonTree.entry ("items", GenNode 0 [GenLeaf (JsonTree.LString "a");
                                                              GenLeaf (JsonTree.LString "b")])]);
   ("complete", GenNode 1 [JsonTree.entry ("index", GenLeaf (JsonTree.LInt 1));
                           JsonTree.entry ("result", GenLeaf (JsonTree.LString "done"))])].

Lemma todo_json_laws : @JsonLaws JsonTree.json (JsonTree.instance todo_json).
Proof.
  apply JsonTree.laws. intros x Hx.
  repeat (apply elem_of_cons in Hx as [->|Hx]; [reflexivity|]). by apply elem_of_nil in Hx.
Qed.

Definition ex_todo : todo_list :=
  [mkTodoItem "a" "pending" ""; mkTodoItem "b" "completed" "done"].

Lemma todo_response_reports_list_witness :
  exists s, todo_invoke (H := JsonTree.instance todo_json) TodoComplete "complete"
              (Create ["a"; "b"]) = (ex_todo, Ok s) /\
  ((ex_todo = Create ["a"; "b"] /\ exists why, MakeError (H := JsonTree.instance todo_json) why = Ok s)
   \/ (exists j, @json_parse _ (JsonTree.instance todo_json) s = Ok j /\
        read_response (H := JsonTree.instance todo_json) j = Some (true, Some ex_todo))).
Proof.
  eexists. split; [vm_compute; reflexivity|].
  eapply (todo_response_reports_list (H0 := todo_json_laws) TodoComplete "complete" _
           (Create ["a"; "b"])).
  - vm_compute; reflexivity.
  - repeat (apply List.Forall_cons; [split_and!; apply utf8_ascii; reflexivity|]).
    apply List.Forall_nil.
Defined.

Lemma todo_calls_spec_witness :
  let J := JsonTree.instance todo_json in
  exists s, todo_invoke (H := J) TodoComplete "complete" (Create ["a"; "b"]) = (ex_todo, Ok s) /\
  ((call_effect (H := J) TodoComplete (@json_parse _ J "complete") (Create ["a"; "b"]) ex_todo /\
    reports (H := J) (Ok s) ex_todo) \/
   ((forall l2, ~ call_effect (H := J) TodoComplete (@json_parse _ J "complete") (Create ["a"; "b"]) l2)
    /\ ex_todo = Create ["a"; "b"] /\ exists why, Ok s = MakeError (H := J) why)).
Proof.
  cbn zeta. eexists. split; [vm_compute; reflexivity|].
  apply (todo_calls_spec (H0 := todo_json_laws) TodoComplete "complete").
  vm_compute; reflexivity.
Defined.

Lemma todo_items_ok_witness : Forall item_ok ex_todo.
Proof.
  apply (todo_items_ok (H0 := todo_json_laws)).
  apply (reach_step _ _ (Create ["a"; "b"])).
  - apply (reach_step _ _ []); [apply reach_refl|].
    exists TodoCreate, "create"%string. eexists. vm_compute; reflexivity.
  - exists TodoComplete, "complete"%string. eexists. vm_compute; reflexivity.
Defined.
