(* ===== verification/ResourceManager.v ===== *)
(** * The resource registry (src/resource_manager/resource_manager.cpp)

    The tool domain (factories, the two schema caches, the catalog), the model
    domain and the memory domain.  A factory is a handle of an abstract type;
    [ToolFactories] says what running one returns ([None] is a null pointer).
    Definitions run one call to completion; the section [Interleaving] at the
    end splits [GetToolSchema] at its lock boundaries. *)
From Stdlib Require Import ZArith Lia String Ascii List.
From stdpp Require Import base decidable list strings gmap sets.
From S2P Require Import Prelude Types Encoding JsonLib ToolBase.
Open Scope Z_scope.

(** [ToolBuildContext]: which pointers are non-null, and the session. *)
Record ToolBuildContext := mkToolBuildContext {
  ctx_todoList : bool;
  ctx_askUser : bool;
  ctx_memoryRuntime : bool;
  ctx_skillEngine : bool;
  ctx_turnState : bool;
  ctx_capabilitySelector : bool;
  ctx_streamCallback : bool;
  ctx_sessionId : string
}.
Definition null_ctx : ToolBuildContext :=
  mkToolBuildContext false false false false false false false "".

Record ToolSchema (J : Type) := mkToolSchema {
  ts_name : string;
  ts_description : string;
  ts_parameters : J
}.
Arguments mkToolSchema {J} _ _ _.
Arguments ts_name {J} _.
Arguments ts_description {J} _.
Arguments ts_parameters {J} _.

(** Factories of stateless tools [F] and of session tools [SF], and the objects
    [T] they make.  [tool_schema] is the virtual [GetJsonSchema]. *)
Class ToolFactories (F SF T J : Type) := {
  run_factory : F -> outcome (option T);
  run_session_factory : SF -> ToolBuildContext -> outcome (option T);
  tool_data : T -> ToolInfo;
  tool_schema : T -> outcome J
}.

Section Tools.
Context {F SF T J : Type} `{ToolFactories F SF T J}.

Record ToolDomain := mkToolDomain {
  toolFactories_ : gmap string F;
  sessionToolFactories_ : gmap string SF;
  mcpToolNames_ : gset string;
  promptSchemas_ : gmap string string;
  functionCallSchemas_ : gmap string (ToolSchema J)
}.

Definition empty_tools : ToolDomain := mkToolDomain ∅ ∅ ∅ ∅ ∅.

Definition set_promptSchemas (p : gmap string string) (rm : ToolDomain) : ToolDomain :=
  mkToolDomain (toolFactories_ rm) (sessionToolFactories_ rm) (mcpToolNames_ rm) p
    (functionCallSchemas_ rm).
Definition set_functionCallSchemas (s : gmap string (ToolSchema J)) (rm : ToolDomain)
    : ToolDomain :=
  mkToolDomain (toolFactories_ rm) (sessionToolFactories_ rm) (mcpToolNames_ rm)
    (promptSchemas_ rm) s.

Definition RegisterTool (name : string) (f : F) (rm : ToolDomain) : ToolDomain :=
  mkToolDomain (<[name := f]> (toolFactories_ rm)) (sessionToolFactories_ rm) (mcpToolNames_ rm)
    (delete name (promptSchemas_ rm)) (delete name (functionCallSchemas_ rm)).

Definition RegisterSessionTool (name : string) (f : SF) (rm : ToolDomain) : ToolDomain :=
  mkToolDomain (toolFactories_ rm) (<[name := f]> (sessionToolFactories_ rm)) (mcpToolNames_ rm)
    (delete name (promptSchemas_ rm)) (delete name (functionCallSchemas_ rm)).

Definition RegisterMcpTool (name : string) (f : F) (rm : ToolDomain) : ToolDomain :=
  let rm := RegisterTool name f rm in
  mkToolDomain (toolFactories_ rm) (sessionToolFactories_ rm) ({[name]} ∪ mcpToolNames_ rm)
    (promptSchemas_ rm) (functionCallSchemas_ rm).

Definition UnregisterMcpTool (name : string) (rm : ToolDomain) : ToolDomain :=
  mkToolDomain (delete name (toolFactories_ rm)) (sessionToolFactories_ rm)
    (mcpToolNames_ rm ∖ {[name]})
    (delete name (promptSchemas_ rm)) (delete name (functionCallSchemas_ rm)).

Definition HasTool (name : string) (rm : ToolDomain) : bool :=
  match toolFactories_ rm !! name with Some _ => true | None => false end.
Definition HasSessionTool (name : string) (rm : ToolDomain) : bool :=
  match sessionToolFactories_ rm !! name with Some _ => true | None => false end.

(** [unordered_map]s are iterated in an unspecified order: here, [map_to_list]'s. *)
Definition GetAvailableSessionToolNames (rm : ToolDomain) : list string :=
  map fst (map_to_list (sessionToolFactories_ rm)).
Definition GetAvailableTools (rm : ToolDomain) : list string :=
  map fst (map_to_list (toolFactories_ rm)) ++ GetAvailableSessionToolNames rm.
Definition GetMcpToolNames (rm : ToolDomain) : list string := elements (mcpToolNames_ rm).

Definition CreateSessionTool (name : string) (ctx : ToolBuildContext) (rm : ToolDomain)
    : outcome (option T) :=
  match sessionToolFactories_ rm !! name with
  | Some f => run_session_factory f ctx
  | None => Throw ("Session tool not found: " +:+ name)
  end.

Definition CreateTool (name : string) (rm : ToolDomain) : outcome (option T) :=
  match toolFactories_ rm !! name with
  | Some f => run_factory f
  | None => Throw ("Tool not found: " +:+ name)
  end.

(** The factory a probe of [name] uses: a session factory hides a stateless one. *)
Inductive factory := SessionFactory (f : SF) | StatelessFactory (f : F).
Definition find_factory (name : string) (rm : ToolDomain) : option factory :=
  match sessionToolFactories_ rm !! name with
  | Some f => Some (SessionFactory f)
  | None => StatelessFactory <$> (toolFactories_ rm !! name)
  end.
Definition probe (f : factory) : outcome (option T) :=
  match f with
  | SessionFactory f => run_session_factory f null_ctx
  | StatelessFactory f => run_factory f
  end.

(** The result of a call that may throw, or dereference a null tool
    ([Crash]). *)
Inductive call_result (A : Type) := Done (o : outcome A) | Crash.
Arguments Done {A} o.
Arguments Crash {A}.

Definition probe_text (name : string) (rm : ToolDomain) : call_result string :=
  match find_factory name rm with
  | None => Done (Throw ("Tool not found: " +:+ name))
  | Some f =>
      match probe f with
      | Throw e => Done (Throw e)
      | Ok None => Crash
      | Ok (Some t) => Done (Ok (GetSchema (tool_data t)))
      end
  end.

Definition GetToolSchema (name : string) (rm : ToolDomain) : ToolDomain * call_result string :=
  match promptSchemas_ rm !! name with
  | Some s => (rm, Done (Ok s))
  | None =>
      match probe_text name rm with
      | Done (Ok schema) => (set_promptSchemas (<[name := schema]> (promptSchemas_ rm)) rm,
                             Done (Ok schema))
      | r => (rm, r)
      end
  end.

(** The structured schema of a probe: [None] when the tool is skipped (unknown,
    its factory throws or returns null); [GetJsonSchema] runs outside the
    try block. *)
Definition probe_schema (name : string) (rm : ToolDomain) : outcome (option (ToolSchema J)) :=
  match find_factory name rm with
  | None => Ok None
  | Some f =>
      match probe f with
      | Ok (Some t) =>
          params <-- tool_schema t ;;
          Ok (Some (mkToolSchema (name_ (tool_data t)) (description_ (tool_data t)) params))
      | _ => Ok None
      end
  end.

(** One iteration of [BuildToolSchemas], and [resolveDescription]'s lookup. *)
Definition cached_schema (name : string) (rm : ToolDomain)
    : ToolDomain * outcome (option (ToolSchema J)) :=
  match functionCallSchemas_ rm !! name with
  | Some s => (rm, Ok (Some s))
  | None =>
      match probe_schema name rm with
      | Ok (Some s) =>
          (set_functionCallSchemas (<[name := s]> (functionCallSchemas_ rm)) rm, Ok (Some s))
      | r => (rm, r)
      end
  end.

Fixpoint BuildToolSchemas (toolNames : list string) (rm : ToolDomain)
    : ToolDomain * outcome (list (ToolSchema J)) :=
  match toolNames with
  | [] => (rm, Ok [])
  | name :: rest =>
      match cached_schema name rm with
      | (rm1, Throw e) => (rm1, Throw e)
      | (rm1, Ok s) =>
          let '(rm2, r) := BuildToolSchemas rest rm1 in
          (rm2, schemas <-- r ;;
                Ok (match s with Some s => s :: schemas | None => schemas end))
      end
  end.

(** [resolveDescription]. *)
Definition resolve_description (name : string) (rm : ToolDomain) : ToolDomain * outcome string :=
  let '(rm1, r) := cached_schema name rm in
  (rm1, s <-- r ;; Ok (match s with Some s => ts_description s | None => "" end)).

(** The visible tools with a description, in the order of the set. *)
Fixpoint catalog_entries (visible : list string) (rm : ToolDomain)
    : ToolDomain * outcome (list (string * string)) :=
  match visible with
  | [] => (rm, Ok [])
  | name :: rest =>
      match resolve_description name rm with
      | (rm1, Throw e) => (rm1, Throw e)
      | (rm1, Ok desc) =>
          let '(rm2, r) := catalog_entries rest rm1 in
          (rm2, entries <-- r ;;
                Ok (if str_empty desc then entries else (name, desc) :: entries))
      end
  end.

Inductive CatalogRenderMode := NativeFc | PromptMode.

Definition catalog_line (e : string * string) : string := "- " +:+ e.1 +:+ ": " +:+ e.2 +:+ nl.
Definition catalog_text (es : list (string * string)) : string :=
  string_concat (map catalog_line es).

Definition direct_header : string := "## Available Tools (可直接调用)" +:+ nl.
Definition load_header : string :=
  "## Tools requiring tool_search load first (调用前必须先 load)" +:+ nl.

Definition render_catalog (mode : CatalogRenderMode) (callable : list string)
    (entries : list (string * string)) : string :=
  match mode with
  | NativeFc =>
      "Available Tools (name + description; use tool_search load to enable a tool):" +:+ nl
      +:+ catalog_text entries
  | PromptMode =>
      let direct := List.filter (fun e => sset_mem e.1 callable) entries in
      let needsLoad := List.filter (fun e => negb (sset_mem e.1 callable)) entries in
      let result :=
        (match direct with [] => "" | _ => direct_header +:+ catalog_text direct +:+ nl end)
        +:+ (match needsLoad with [] => "" | _ => load_header +:+ catalog_text needsLoad +:+ nl end)
      in if str_empty result then "No tools available." else result
  end.

Definition GetToolCatalog (visible : list string) (mode : CatalogRenderMode)
    (callable : list string) (rm : ToolDomain) : ToolDomain * outcome string :=
  let '(rm1, r) := catalog_entries visible rm in
  (rm1, entries <-- r ;; Ok (render_catalog mode callable entries)).

End Tools.
Arguments Done {A} o.
Arguments Crash {A}.
Arguments ToolDomain : clear implicits.
Arguments factory : clear implicits.
Arguments mkToolDomain {F SF J} _ _ _ _ _.

(** ** The model and memory domains *)

Section Models.
Context {MF Model : Type} (run_model_factory : MF -> ModelConfig -> outcome Model).

Record ModelDomain := mkModelDomain {
  modelFactories_ : ModelFormatType -> option MF;
  providerModelFactories_ : gmap string MF
}.

Definition RegisterModel (provider : string) (f : MF) (d : ModelDomain) : ModelDomain :=
  mkModelDomain (modelFactories_ d) (<[provider := f]> (providerModelFactories_ d)).
Definition RegisterModelFormat (type : ModelFormatType) (f : MF) (d : ModelDomain)
    : ModelDomain :=
  mkModelDomain (fun t => if decide (t = type) then Some f else modelFactories_ d t)
    (providerModelFactories_ d).

(** The factory [CreateModel] picks. *)
Definition pick_model (config : ModelConfig) (d : ModelDomain) : option MF :=
  let by_provider :=
    if str_empty (provider config) then None else providerModelFactories_ d !! provider config in
  match by_provider with
  | Some f => Some f
  | None => modelFactories_ d (formatType config)
  end.

Definition CreateModel (config : ModelConfig) (d : ModelDomain) : outcome Model :=
  match pick_model config d with
  | Some f => run_model_factory f config
  | None => Throw "Model format not registered: use ModelFormatType or register custom provider"
  end.

Definition HasModel (provider : string) (d : ModelDomain) : bool :=
  match providerModelFactories_ d !! provider with Some _ => true | None => false end.

Definition format_name (t : ModelFormatType) : string :=
  match t with OPENAI => "openai" | ANTHROPIC => "anthropic" end.
Definition GetAvailableModels (d : ModelDomain) : list string :=
  map format_name
    (List.filter (fun t => match modelFactories_ d t with Some _ => true | None => false end)
       [OPENAI; ANTHROPIC])
  ++ map fst (map_to_list (providerModelFactories_ d)).

(** A registered provider wins; an empty or unknown one falls back to the
    format type, and only a missing format is an error. *)
Lemma CreateModel_falls_back (config : ModelConfig) (d : ModelDomain) :
  CreateModel config d =
  match providerModelFactories_ d !! provider config, modelFactories_ d (formatType config) with
  | Some f, g => if str_empty (provider config) then
                   match g with Some g => run_model_factory g config
                   | None => Throw "Model format not registered: use ModelFormatType or register custom provider" end
                 else run_model_factory f config
  | None, Some g => run_model_factory g config
  | None, None => Throw "Model format not registered: use ModelFormatType or register custom provider"
  end.
Proof.
  unfold CreateModel, pick_model.
  destruct (str_empty (provider config)), (providerModelFactories_ d !! provider config),
    (modelFactories_ d (formatType config)); done.
Qed.
End Models.
Arguments ModelDomain : clear implicits.
Arguments mkModelDomain {MF} _ _.

Section MemoryRuntimes.
Context {RF Runtime : Type} (run_runtime_factory : RF -> MemoryConfig -> outcome Runtime).

Record MemoryDomain := mkMemoryDomain {
  memoryFactories_ : gmap string RF;
  pluginProviders_ : list string;
  pluginHandles_ : nat
}.

Definition RegisterMemoryRuntime (provider : string) (f : RF) (d : MemoryDomain)
    : MemoryDomain :=
  mkMemoryDomain (<[provider := f]> (memoryFactories_ d)) (pluginProviders_ d) (pluginHandles_ d).

Definition CreateMemoryRuntime (config : MemoryConfig) (d : MemoryDomain) : outcome Runtime :=
  match memoryFactories_ d !! mc_provider config with
  | Some f => run_runtime_factory f config
  | None => Throw ("Memory runtime provider not registered: " +:+ mc_provider config)
  end.

Definition HasMemoryRuntime (provider : string) (d : MemoryDomain) : bool :=
  match memoryFactories_ d !! provider with Some _ => true | None => false end.

(** One plugin of [LoadMemoryPlugins]: [registers] is what its entry point
    registers, in order. *)
Definition load_plugin (registers : list (string * RF)) (d : MemoryDomain) : MemoryDomain :=
  let before := dom (memoryFactories_ d) in
  let d1 := fold_left (fun d r => RegisterMemoryRuntime r.1 r.2 d) registers d in
  let added := List.filter (fun p => negb (bool_decide (p ∈ before)))
                 (map fst (map_to_list (memoryFactories_ d1))) in
  mkMemoryDomain (memoryFactories_ d1) (pluginProviders_ d1 ++ added) (S (pluginHandles_ d1)).

Definition LoadMemoryPlugins (plugins : list (list (string * RF))) (d : MemoryDomain)
    : MemoryDomain := fold_left (fun d p => load_plugin p d) plugins d.

Definition UnloadMemoryPlugins (d : MemoryDomain) : MemoryDomain :=
  mkMemoryDomain (fold_left (fun m p => delete p m) (pluginProviders_ d) (memoryFactories_ d))
    [] 0.
End MemoryRuntimes.
Arguments MemoryDomain : clear implicits.
Arguments mkMemoryDomain {RF} _ _ _.

(** ** Facts *)

Section ToolFacts.
Context {F SF T J : Type} `{ToolFactories F SF T J}.
Implicit Type rm : ToolDomain F SF J.

(** Every cached schema is what a probe of the registered factory returns. *)
Definition coherent rm : Prop :=
  (forall n s, promptSchemas_ rm !! n = Some s -> probe_text n rm = Done (Ok s)) /\
  (forall n s, functionCallSchemas_ rm !! n = Some s -> probe_schema n rm = Ok (Some s)).

Lemma coherent_empty : coherent empty_tools.
Proof. split; intros n s Hn; cbn in Hn; by rewrite lookup_empty in Hn. Qed.

(** The probes read the factories only. *)
Lemma probe_text_factory n rm rm' :
  find_factory n rm = find_factory n rm' -> probe_text n rm = probe_text n rm'.
Proof. unfold probe_text. by intros ->. Qed.
Lemma probe_schema_factory n rm rm' :
  find_factory n rm = find_factory n rm' -> probe_schema n rm = probe_schema n rm'.
Proof. unfold probe_schema. by intros ->. Qed.

(** An operation that changes the factory of one name and drops its cache. *)
Lemma coherent_update name rm rm' :
  coherent rm ->
  (forall n, n <> name -> find_factory n rm' = find_factory n rm) ->
  promptSchemas_ rm' = delete name (promptSchemas_ rm) ->
  functionCallSchemas_ rm' = delete name (functionCallSchemas_ rm) ->
  coherent rm'.
Proof.
  intros [Hp Hf] Hn Ep Ef. split; intros n s Hs.
  - rewrite Ep in Hs. apply lookup_delete_Some in Hs as [Hne Hs].
    rewrite (probe_text_factory n rm' rm); [by apply Hp | by apply Hn].
  - rewrite Ef in Hs. apply lookup_delete_Some in Hs as [Hne Hs].
    rewrite (probe_schema_factory n rm' rm); [by apply Hf | by apply Hn].
Qed.

Lemma RegisterTool_coherent name f rm : coherent rm -> coherent (RegisterTool name f rm).
Proof.
  intros Hc. eapply coherent_update; [exact Hc| |done|done].
  intros n Hn. unfold find_factory. cbn. by rewrite lookup_insert_ne.
Qed.
Lemma RegisterSessionTool_coherent name f rm :
  coherent rm -> coherent (RegisterSessionTool name f rm).
Proof.
  intros Hc. eapply coherent_update; [exact Hc| |done|done].
  intros n Hn. unfold find_factory. cbn. by rewrite lookup_insert_ne.
Qed.
Lemma RegisterMcpTool_coherent name f rm : coherent rm -> coherent (RegisterMcpTool name f rm).
Proof. intros Hc. exact (RegisterTool_coherent name f rm Hc). Qed.
Lemma UnregisterMcpTool_coherent name rm : coherent rm -> coherent (UnregisterMcpTool name rm).
Proof.
  intros Hc. eapply coherent_update; [exact Hc| |done|done].
  intros n Hn. unfold find_factory. cbn. by rewrite lookup_delete_ne.
Qed.

(** What the reads return in a coherent registry, caches or not, and that they
    leave the factories alone. *)
Definition same_factories rm rm' : Prop := forall n, find_factory n rm' = find_factory n rm.

Lemma same_factories_probe n rm rm' :
  same_factories rm rm' -> probe_schema n rm' = probe_schema n rm.
Proof. intros Hs. apply probe_schema_factory, Hs. Qed.

Lemma GetToolSchema_spec name rm :
  coherent rm ->
  snd (GetToolSchema name rm) = probe_text name rm /\
  coherent (fst (GetToolSchema name rm)) /\ same_factories rm (fst (GetToolSchema name rm)).
Proof.
  intros [Hp Hf]. unfold GetToolSchema. destruct (promptSchemas_ rm !! name) as [s|] eqn:E.
  { by rewrite (Hp _ _ E). }
  destruct (probe_text name rm) as [[s|e]|] eqn:Et; cbn; try done.
  split; [done|]. split; [|done]. split; cbn; [|exact Hf].
  intros n t. rewrite lookup_insert. case_decide as En; [|apply Hp].
  intros [= <-]. subst n. exact Et.
Qed.

Lemma cached_schema_spec name rm :
  coherent rm ->
  snd (cached_schema name rm) = probe_schema name rm /\
  coherent (fst (cached_schema name rm)) /\ same_factories rm (fst (cached_schema name rm)).
Proof.
  intros [Hp Hf]. unfold cached_schema.
  destruct (functionCallSchemas_ rm !! name) as [s|] eqn:E.
  { by rewrite (Hf _ _ E). }
  destruct (probe_schema name rm) as [[s|]|e] eqn:Et; cbn; try done.
  split; [done|]. split; [|done]. split; cbn; [exact Hp|].
  intros n t. rewrite lookup_insert. case_decide as En; [|apply Hf].
  intros [= <-]. subst n. exact Et.
Qed.

(** [BuildToolSchemas] without caches. *)
Fixpoint probe_schemas (names : list string) rm : outcome (list (ToolSchema J)) :=
  match names with
  | [] => Ok []
  | n :: rest =>
      s <-- probe_schema n rm ;; schemas <-- probe_schemas rest rm ;;
      Ok (match s with Some s => s :: schemas | None => schemas end)
  end.

Lemma probe_schemas_same names rm rm' :
  same_factories rm rm' -> probe_schemas names rm' = probe_schemas names rm.
Proof.
  intros Hs. induction names as [|n names IH]; [done|].
  cbn. by rewrite (same_factories_probe n rm rm' Hs), IH.
Qed.

Lemma BuildToolSchemas_spec names rm :
  coherent rm ->
  snd (BuildToolSchemas names rm) = probe_schemas names rm /\
  coherent (fst (BuildToolSchemas names rm)) /\
  same_factories rm (fst (BuildToolSchemas names rm)).
Proof.
  revert rm; induction names as [|n names IH]; intros rm Hc; [done|]. cbn.
  destruct (cached_schema_spec n rm Hc) as (Hr & Hc1 & Hs1).
  destruct (cached_schema n rm) as [rm1 [s|e]] eqn:E; cbn in *; rewrite <- Hr; [|done].
  destruct (IH rm1 Hc1) as (Hr2 & Hc2 & Hs2).
  destruct (BuildToolSchemas names rm1) as [rm2 r] eqn:E2; cbn in *.
  rewrite Hr2, (probe_schemas_same names rm rm1 Hs1). split; [done|]. split; [done|].
  intros k. by rewrite Hs2, Hs1.
Qed.

(** The description a probe gives, [""] for a tool that is skipped. *)
Definition probe_description n rm : outcome string :=
  s <-- probe_schema n rm ;; Ok (match s with Some s => ts_description s | None => "" end).

Fixpoint probe_entries (visible : list string) rm : outcome (list (string * string)) :=
  match visible with
  | [] => Ok []
  | n :: rest =>
      d <-- probe_description n rm ;; es <-- probe_entries rest rm ;;
      Ok (if str_empty d then es else (n, d) :: es)
  end.

Lemma probe_entries_same visible rm rm' :
  same_factories rm rm' -> probe_entries visible rm' = probe_entries visible rm.
Proof.
  intros Hs. induction visible as [|n names IH]; [done|].
  cbn. unfold probe_description. by rewrite (same_factories_probe n rm rm' Hs), IH.
Qed.

Lemma catalog_entries_spec visible rm :
  coherent rm ->
  snd (catalog_entries visible rm) = probe_entries visible rm /\
  coherent (fst (catalog_entries visible rm)) /\
  same_factories rm (fst (catalog_entries visible rm)).
Proof.
  revert rm; induction visible as [|n names IH]; intros rm Hc; [done|]. cbn.
  unfold resolve_description, probe_description.
  destruct (cached_schema_spec n rm Hc) as (Hr & Hc1 & Hs1).
  destruct (cached_schema n rm) as [rm1 [s|e]] eqn:E; cbn in *; rewrite <- Hr; [|done]. cbn.
  destruct (IH rm1 Hc1) as (Hr2 & Hc2 & Hs2).
  destruct (catalog_entries names rm1) as [rm2 r] eqn:E2; cbn in *.
  rewrite Hr2, (probe_entries_same names rm rm1 Hs1). split; [done|]. split; [done|].
  intros k. by rewrite Hs2, Hs1.
Qed.

Lemma GetToolCatalog_spec visible mode callable rm :
  coherent rm ->
  snd (GetToolCatalog visible mode callable rm) =
    (es <-- probe_entries visible rm ;; Ok (render_catalog mode callable es)) /\
  coherent (fst (GetToolCatalog visible mode callable rm)) /\
  same_factories rm (fst (GetToolCatalog visible mode callable rm)).
Proof.
  intros Hc. unfold GetToolCatalog. destruct (catalog_entries_spec visible rm Hc) as (Hr & ? & ?).
  destruct (catalog_entries visible rm) as [rm1 r]. cbn in *. by rewrite Hr.
Qed.
End ToolFacts.

#[export] Hint Resolve coherent_empty RegisterTool_coherent RegisterSessionTool_coherent
  RegisterMcpTool_coherent UnregisterMcpTool_coherent : jw.

(** ** Sequences of calls *)

Inductive rm_op (F SF : Type) :=
  | OpRegisterTool (name : string) (f : F)
  | OpRegisterSessionTool (name : string) (f : SF)
  | OpRegisterMcpTool (name : string) (f : F)
  | OpUnregisterMcpTool (name : string)
  | OpGetToolSchema (name : string)
  | OpBuildToolSchemas (names : list string)
  | OpGetToolCatalog (visible : list string) (mode : CatalogRenderMode) (callable : list string).
Arguments OpRegisterTool {F SF} _ _.
Arguments OpRegisterSessionTool {F SF} _ _.
Arguments OpRegisterMcpTool {F SF} _ _.
Arguments OpUnregisterMcpTool {F SF} _.
Arguments OpGetToolSchema {F SF} _.
Arguments OpBuildToolSchemas {F SF} _.
Arguments OpGetToolCatalog {F SF} _ _ _.

Section Sequences.
Context {F SF T J : Type} `{ToolFactories F SF T J}.
Implicit Type rm : ToolDomain F SF J.

Definition apply_op (op : rm_op F SF) rm : ToolDomain F SF J :=
  match op with
  | OpRegisterTool n f => RegisterTool n f rm
  | OpRegisterSessionTool n f => RegisterSessionTool n f rm
  | OpRegisterMcpTool n f => RegisterMcpTool n f rm
  | OpUnregisterMcpTool n => UnregisterMcpTool n rm
  | OpGetToolSchema n => fst (GetToolSchema n rm)
  | OpBuildToolSchemas ns => fst (BuildToolSchemas ns rm)
  | OpGetToolCatalog v m c => fst (GetToolCatalog v m c rm)
  end.
Definition apply_ops (ops : list (rm_op F SF)) rm : ToolDomain F SF J :=
  fold_left (fun rm op => apply_op op rm) ops rm.

Lemma apply_op_coherent op rm : coherent rm -> coherent (apply_op op rm).
Proof.
  intros Hc. destruct op; cbn; eauto with jw.
  - by apply GetToolSchema_spec.
  - by apply BuildToolSchemas_spec.
  - by apply GetToolCatalog_spec.
Qed.

Lemma apply_ops_coherent ops rm : coherent rm -> coherent (apply_ops ops rm).
Proof.
  revert rm; induction ops as [|op ops IH]; intros rm Hc; [done|].
  cbn. by apply IH, apply_op_coherent.
Qed.

(** C8.  After any sequence of registrations, unregistrations and lookups, the
    prompt schema, the function-calling schemas and the catalog are the ones
    the registered factories give now: the caches are never stale. *)
Theorem schemas_never_stale (ops : list (rm_op F SF)) (name : string) (names : list string)
    (mode : CatalogRenderMode) (callable : list string) :
  let rm := apply_ops ops empty_tools in
  snd (GetToolSchema name rm) = probe_text name rm /\
  snd (BuildToolSchemas names rm) = probe_schemas names rm /\
  snd (GetToolCatalog names mode callable rm) =
    (es <-- probe_entries names rm ;; Ok (render_catalog mode callable es)).
Proof.
  intros rm. assert (coherent rm) as Hc by apply apply_ops_coherent, coherent_empty.
  split; [by apply GetToolSchema_spec|]. split; [by apply BuildToolSchemas_spec|].
  by apply GetToolCatalog_spec.
Qed.

(** Registering an MCP tool and unregistering it again restores the
    stateless tools exactly when no stateless tool had the name: a server whose
    tool is called like a builtin removes the builtin for good. *)
Theorem mcp_unregister_restores (name : string) (f : F) rm :
  toolFactories_ (UnregisterMcpTool name (RegisterMcpTool name f rm)) = toolFactories_ rm
  <-> HasTool name rm = false.
Proof.
  cbn. unfold HasTool. split.
  - intros E. destruct (toolFactories_ rm !! name) as [g|] eqn:Eg; [|done].
    rewrite <- E in Eg. by rewrite lookup_delete_eq in Eg.
  - intros Hn. destruct (toolFactories_ rm !! name) as [g|] eqn:Eg; [done|].
    by apply delete_insert_id.
Qed.

Lemma probe_entries_elem visible rm es :
  probe_entries visible rm = Ok es ->
  forall n d, (n, d) ∈ es <-> n ∈ visible /\ probe_description n rm = Ok d /\ d <> "".
Proof.
  revert es; induction visible as [|m visible IH]; intros es; cbn [probe_entries].
  { intros [= <-] n d. set_solver. }
  destruct (probe_description m rm) as [dm|e] eqn:Em; cbn [obind]; [|done].
  destruct (probe_entries visible rm) as [es'|e] eqn:Ee; cbn [obind]; [|done].
  intros [= <-] n d. specialize (IH es' eq_refl n d). rewrite elem_of_cons.
  destruct (str_empty dm) eqn:Es.
  - apply str_empty_spec in Es as ->. rewrite IH. split; [tauto|].
    intros ([->|?] & Hd & Hne); [|tauto]. rewrite Em in Hd. injection Hd as Hd. by destruct Hne.
  - apply str_empty_false in Es. rewrite elem_of_cons, IH. split.
    + intros [[= -> ->]|?]; [|tauto]. auto.
    + intros ([->|?] & Hd & Hne); [|tauto]. rewrite Em in Hd. injection Hd as ->. auto.
Qed.

(** In prompt mode the catalog consists of the two sections: every visible
    tool with a description is listed exactly in one of them, as directly
    callable when its name is in the callable set and as needing a load
    otherwise, and nothing else is listed. *)
Theorem catalog_sections (ops : list (rm_op F SF)) (visible callable : list string) (text : string) :
  let rm := apply_ops ops empty_tools in
  snd (GetToolCatalog visible PromptMode callable rm) = Ok text ->
  exists direct load,
    text = (match direct, load with
            | [], [] => "No tools available."
            | _, _ =>
                (match direct with [] => "" | _ => direct_header +:+ catalog_text direct +:+ nl end)
                +:+ (match load with [] => "" | _ => load_header +:+ catalog_text load +:+ nl end)
            end) /\
    (forall n d, (n, d) ∈ direct <->
       n ∈ visible /\ n ∈ callable /\ probe_description n rm = Ok d /\ d <> "") /\
    (forall n d, (n, d) ∈ load <->
       n ∈ visible /\ n ∉ callable /\ probe_description n rm = Ok d /\ d <> "").
Proof.
  intros rm. assert (coherent rm) as Hc by apply apply_ops_coherent, coherent_empty.
  destruct (GetToolCatalog_spec visible PromptMode callable rm Hc) as [-> _].
  destruct (probe_entries visible rm) as [es|e] eqn:Ee; cbn [obind]; [|done].
  intros [= <-]. cbn [render_catalog].
  exists (List.filter (fun e => sset_mem e.1 callable) es),
         (List.filter (fun e => negb (sset_mem e.1 callable)) es). split.
  { destruct (List.filter (fun e => sset_mem e.1 callable) es),
      (List.filter (fun e => negb (sset_mem e.1 callable)) es); reflexivity. }
  assert (Hes := probe_entries_elem visible rm es Ee). split; intros n d.
  - rewrite elem_of_filterb, Hes. cbn. rewrite sset_mem_spec. tauto.
  - rewrite elem_of_filterb, Hes. cbn. rewrite negb_true_iff, sset_mem_false. tauto.
Qed.
End Sequences.

(** ** Interleaving

    [GetToolSchema] takes the lock three times: to look into the cache, to fetch
    the factory, and to write the probe's text.  Other threads run between the
    critical sections. *)

Section Interleaving.
Context {F SF T J : Type} `{ToolFactories F SF T J}.
Implicit Type rm : ToolDomain F SF J.

Inductive reader_pc :=
  | RStart
  | RMissed
  | RFactory (f : factory F SF)
  | RProbed (schema : string)
  | RDone (r : call_result string).

Definition probe_result (f : factory F SF) : reader_pc :=
  match probe f with
  | Throw e => RDone (Done (Throw e))
  | Ok None => RDone Crash
  | Ok (Some t) => RProbed (GetSchema (tool_data t))
  end.

(** One step of the reader of [name]. *)
Definition reader_step (name : string) rm (pc : reader_pc) : ToolDomain F SF J * reader_pc :=
  match pc with
  | RStart => (rm, match promptSchemas_ rm !! name with
                   | Some s => RDone (Done (Ok s)) | None => RMissed end)
  | RMissed => (rm, match find_factory name rm with
                    | Some f => RFactory f
                    | None => RDone (Done (Throw ("Tool not found: " +:+ name))) end)
  | RFactory f => (rm, probe_result f)
  | RProbed s => (set_promptSchemas (<[name := s]> (promptSchemas_ rm)) rm, RDone (Done (Ok s)))
  | RDone r => (rm, RDone r)
  end.

(** The reader moves, or another thread completes a call. *)
Inductive istep (name : string) :
    ToolDomain F SF J * reader_pc -> ToolDomain F SF J * reader_pc -> Prop :=
  | istep_reader rm pc : istep name (rm, pc) (reader_step name rm pc)
  | istep_other op rm pc : istep name (rm, pc) (apply_op op rm, pc).

(** Undisturbed, the steps compute [GetToolSchema]. *)
Lemma reader_alone (name : string) rm :
  let '(rm1, pc1) := reader_step name rm RStart in
  let '(rm2, pc2) := reader_step name rm1 pc1 in
  let '(rm3, pc3) := reader_step name rm2 pc2 in
  reader_step name rm3 pc3 =
    ((GetToolSchema name rm).1, RDone (GetToolSchema name rm).2).
Proof.
  unfold GetToolSchema, probe_text. cbn.
  destruct (promptSchemas_ rm !! name) as [s|]; [done|]. cbn.
  destruct (find_factory name rm) as [f|]; [|done]. cbn. unfold probe_result.
  by destruct (probe f) as [[t|]|e].
Qed.

(** Calls that do not register or unregister [name]. *)
Definition leaves_alone (name : string) (op : rm_op F SF) : Prop :=
  match op with
  | OpRegisterTool n _ | OpRegisterSessionTool n _ | OpRegisterMcpTool n _
  | OpUnregisterMcpTool n => n <> name
  | _ => True
  end.

Lemma BuildToolSchemas_prompt names rm :
  promptSchemas_ (fst (BuildToolSchemas names rm)) = promptSchemas_ rm.
Proof.
  revert rm; induction names as [|n names IH]; intros rm; [done|]. cbn. unfold cached_schema.
  destruct (functionCallSchemas_ rm !! n).
  { specialize (IH rm). by destruct (BuildToolSchemas names rm). }
  destruct (probe_schema n rm) as [[s|]|e]; [| |done].
  - specialize (IH (set_functionCallSchemas (<[n:=s]> (functionCallSchemas_ rm)) rm)).
    by destruct (BuildToolSchemas names _).
  - specialize (IH rm). by destruct (BuildToolSchemas names rm).
Qed.

Lemma catalog_entries_prompt names rm :
  promptSchemas_ (fst (catalog_entries names rm)) = promptSchemas_ rm.
Proof.
  revert rm; induction names as [|n names IH]; intros rm; [done|].
  cbn. unfold resolve_description, cached_schema.
  destruct (functionCallSchemas_ rm !! n); cbn.
  { specialize (IH rm). by destruct (catalog_entries names rm). }
  destruct (probe_schema n rm) as [[s|]|e]; [| |done]; cbn.
  - specialize (IH (set_functionCallSchemas (<[n:=s]> (functionCallSchemas_ rm)) rm)).
    by destruct (catalog_entries names _).
  - specialize (IH rm). by destruct (catalog_entries names rm).
Qed.

(** A cached text survives every call that leaves the name alone. *)
Lemma leaves_alone_cache name op rm s :
  leaves_alone name op -> promptSchemas_ rm !! name = Some s ->
  promptSchemas_ (apply_op op rm) !! name = Some s.
Proof.
  intros Hop Hs. destruct op as [n f|n f|n f|n|n|ns|v m c]; cbn in *;
    try by rewrite lookup_delete_ne.
  - unfold GetToolSchema. destruct (promptSchemas_ rm !! n) as [t|] eqn:E; [done|].
    destruct (probe_text n rm) as [[t|e]|]; [|done..]. cbn.
    rewrite lookup_insert_ne; [done|]. intros ->. congruence.
  - by rewrite BuildToolSchemas_prompt.
  - unfold GetToolCatalog. pose proof (catalog_entries_prompt v rm) as Hp.
    destruct (catalog_entries v rm) as [rm1 r]. cbn in *. by rewrite Hp.
Qed.

(** Run concurrently with a lookup, re-registration is lost: if the new
    factory is registered between the lookup's fetch of the factory and its
    write, the cache ends up with the old tool's text, the new factory is the
    registered one, and every later lookup returns the old text until the name
    is registered again. *)
Theorem reregistration_race (name old : string) (g : F) rm :
  sessionToolFactories_ rm !! name = None ->
  promptSchemas_ rm !! name = None ->
  probe_text name rm = Done (Ok old) ->
  exists rm',
    reach (istep name) (rm, RStart) (rm', RDone (Done (Ok old))) /\
    toolFactories_ rm' !! name = Some g /\
    forall ops, Forall (leaves_alone name) ops ->
      snd (GetToolSchema name (apply_ops ops rm')) = Done (Ok old).
Proof.
  intros Hs Hp Ht. unfold probe_text in Ht.
  destruct (find_factory name rm) as [f|] eqn:Ef; [|done].
  assert (probe_result f = RProbed old) as Hf.
  { unfold probe_result. destruct (probe f) as [[t|]|e]; [|done..]. by injection Ht as ->. }
  set (rm' := set_promptSchemas (<[name := old]> (promptSchemas_ (RegisterTool name g rm)))
                (RegisterTool name g rm)).
  exists rm'. split; [|split].
  - eapply reach_step; [|exact (istep_reader name (RegisterTool name g rm) (RProbed old))].
    eapply reach_step; [|exact (istep_other name (OpRegisterTool name g) rm (RProbed old))].
    replace (RProbed old) with (snd (reader_step name rm (RFactory f))) by exact Hf.
    eapply reach_step; [|exact (istep_reader name rm (RFactory f))].
    replace (RFactory f) with (snd (reader_step name rm RMissed)) by (cbn; by rewrite Ef).
    eapply reach_step; [|exact (istep_reader name rm RMissed)].
    replace RMissed with (snd (reader_step name rm RStart)) by (cbn; by rewrite Hp).
    eapply reach_step; [apply reach_refl|exact (istep_reader name rm RStart)].
  - cbn. apply lookup_insert_eq.
  - assert (promptSchemas_ rm' !! name = Some old) as Hc by (cbn; apply lookup_insert_eq).
    intros ops Hops. generalize dependent rm'.
    induction Hops as [|op ops Hop Hops IH]; intros rm' Hc.
    + cbn. unfold GetToolSchema. by rewrite Hc.
    + cbn. apply IH. by apply leaves_alone_cache.
Qed.
End Interleaving.

(** ** Witnesses: tools whose factories return their data *)

#[export] Instance data_factories : ToolFactories ToolInfo ToolInfo ToolInfo JsonTree.json := {|
  run_factory := fun i => Ok (Some i);
  run_session_factory := fun i _ => Ok (Some i);
  tool_data := fun i => i;
  tool_schema := fun i => Ok (GetJsonSchema (H := JsonTree.instance []) i)
|}.

Definition ex_tool (d : string) : ToolInfo := mkToolInfo "grep" d [].
Definition ex_ops : list (rm_op ToolInfo ToolInfo) :=
  [OpRegisterTool "grep" (ex_tool "Search"); OpRegisterSessionTool "ask" (mkToolInfo "ask" "Ask" [])].

Lemma catalog_sections_witness :
  exists text direct load,
    text = (match direct, load with
            | [], [] => "No tools available."
            | _, _ =>
                (match direct with [] => "" | _ => direct_header +:+ catalog_text direct +:+ nl end)
                +:+ (match load with [] => "" | _ => load_header +:+ catalog_text load +:+ nl end)
            end) /\
    (forall n d, (n, d) ∈ direct <->
       n ∈ ["ask"; "grep"] /\ n ∈ ["ask"]
       /\ probe_description n (apply_ops ex_ops empty_tools) = Ok d /\ d <> "") /\
    (forall n d, (n, d) ∈ load <->
       n ∈ ["ask"; "grep"] /\ n ∉ ["ask"]
       /\ probe_description n (apply_ops ex_ops empty_tools) = Ok d /\ d <> "").
Proof.
  eexists. apply (catalog_sections ex_ops ["ask"; "grep"] ["ask"]). vm_compute. reflexivity.
Defined.

Lemma reregistration_race_witness :
  exists rm' : ToolDomain ToolInfo ToolInfo JsonTree.json,
    reach (istep "grep") (apply_ops ex_ops empty_tools, RStart)
      (rm', RDone (Done (Ok (GetSchema (ex_tool "Search"))))) /\
    toolFactories_ rm' !! "grep" = Some (ex_tool "Search v2") /\
    forall ops, Forall (leaves_alone "grep") ops ->
      snd (GetToolSchema "grep" (apply_ops ops rm')) = Done (Ok (GetSchema (ex_tool "Search"))).
Proof. apply reregistration_race; vm_compute; reflexivity. Defined.
