(* ===== verification/McpManager.v ===== *)
(** * MCP servers (src/mcp/mcp_config_manager.cpp, src/mcp/mcp_connection.cpp,
    the MCP part of src/resource_manager/resource_manager.cpp)

    Connections are shared between the manager's [servers_], the registry's
    [mcpServers_] and the factories of their tools, so they live in a heap
    ([conns], a list indexed by pointer).  What the remote server answers to the
    handshake and to the tool listing is the argument [remote] of the calls that
    connect. *)
From Stdlib Require Import ZArith Lia String Ascii List.
From stdpp Require Import base decidable list strings gmap sets.
From S2P Require Import Prelude Types Encoding JsonLib ToolBase ResourceManager.
Open Scope Z_scope.

Record McpServerConfig := mkMcpServerConfig {
  mcp_id : string;
  mcp_name : string;
  mcp_description : string;
  mcp_enabled : bool;
  mcp_type : string;
  mcp_url : string;
  mcp_endpoint : string;
  mcp_command : string;
  mcp_args : list string;
  mcp_env : gmap string string;
  mcp_headers : gmap string string;
  connectTimeoutSeconds : Z;
  requestTimeoutSeconds : Z
}.

Inductive MCPTransportType := STDIO | SSE | STREAMABLE_HTTP.

Record MCPEndpointConfig := mkMCPEndpointConfig {
  ep_command : string;
  ep_args : list string;
  ep_url : string;
  transportType : MCPTransportType;
  ep_env : gmap string string;
  ep_headers : gmap string string;
  ep_connectTimeoutSeconds : Z;
  ep_requestTimeoutSeconds : Z
}.

Definition join_url (url endpoint : string) : string :=
  if str_empty url then endpoint
  else if str_empty endpoint then url
  else if negb (back_is "/" url) && negb (front_is "/" endpoint)
       then url +:+ "/" +:+ endpoint else url +:+ endpoint.

(** The endpoint [RegisterMCPServer] builds; [None] is the invalid configuration
    with neither url nor command. *)
Definition endpoint_config (config : McpServerConfig) : option MCPEndpointConfig :=
  let url := join_url (mcp_url config) (mcp_endpoint config) in
  if negb (str_empty url) then
    let is_sse := String.eqb (mcp_type config) "sse"
      || (str_empty (mcp_type config)
          && match find_str "/sse" url 0 with Some _ => true | None => false end) in
    Some (mkMCPEndpointConfig "" [] url (if is_sse then SSE else STREAMABLE_HTTP) ∅
            (mcp_headers config) (connectTimeoutSeconds config) (requestTimeoutSeconds config))
  else if negb (str_empty (mcp_command config)) then
    Some (mkMCPEndpointConfig (mcp_command config) (mcp_args config) "" STDIO (mcp_env config) ∅ 3 10)
  else None.

Definition ConfigChanged (lhs rhs : McpServerConfig) : bool :=
  negb (String.eqb (mcp_name lhs) (mcp_name rhs))
  || negb (String.eqb (mcp_description lhs) (mcp_description rhs))
  || negb (Bool.eqb (mcp_enabled lhs) (mcp_enabled rhs))
  || negb (String.eqb (mcp_type lhs) (mcp_type rhs))
  || negb (String.eqb (mcp_url lhs) (mcp_url rhs))
  || negb (String.eqb (mcp_endpoint lhs) (mcp_endpoint rhs))
  || negb (String.eqb (mcp_command lhs) (mcp_command rhs))
  || negb (bool_decide (mcp_args lhs = mcp_args rhs))
  || negb (bool_decide (mcp_env lhs = mcp_env rhs))
  || negb (bool_decide (mcp_headers lhs = mcp_headers rhs)).

Section Mcp.
Context {F SF T J : Type} `{ToolFactories F SF T J} `{Json J}.

Record MCPToolInfo := mkMCPToolInfo {
  ti_name : string;
  ti_description : string;
  inputSchema : J
}.

Record MCPConnection := mkMCPConnection {
  conn_name : string;
  conn_config : MCPEndpointConfig;
  connected_ : bool;
  availableTools_ : list MCPToolInfo;
  has_client : bool
}.

(** The members of a JSON object in key order. *)
Definition object_items (j : J) : list (string * J) :=
  match json_view j with
  | JObject m => omap (fun k => (fun v => (k, v)) <$> m !! k)
                   (sset_of_list (map fst (map_to_list m)))
  | _ => []
  end.

Definition schema_required (schema : J) (name : string) : bool :=
  match array_field "required" schema with
  | Some l => existsb (String.eqb name) (string_elements l)
  | None => false
  end.

Definition mcp_param (schema : J) (kv : string * J) : outcome ToolParam :=
  description <-- value_string "description" ("Parameter " +:+ kv.1) kv.2 ;;
  type <-- value_string "type" "string" kv.2 ;;
  Ok (mkToolParam kv.1 description type (schema_required schema kv.1)).

Fixpoint mcp_params (schema : J) (items : list (string * J)) : outcome (list ToolParam) :=
  match items with
  | [] => Ok []
  | kv :: rest => p <-- mcp_param schema kv ;; ps <-- mcp_params schema rest ;; Ok (p :: ps)
  end.

(** The data of the tool a listing entry is registered as. *)
Definition mcp_tool_info (t : MCPToolInfo) : outcome ToolInfo :=
  let description :=
    if str_empty (ti_description t) then "MCP Tool: " +:+ ti_name t else ti_description t in
  let items := match jfield "properties" (inputSchema t) with
               | Some p => if is_object p then object_items p else []
               | None => []
               end in
  params <-- mcp_params (inputSchema t) items ;;
  Ok (mkToolInfo (ti_name t) description
        (match params with
         | [] => [mkToolParam "input" "JSON input arguments" "string" true]
         | _ => params
         end)).

(** The factory of an MCP tool: it makes tools with these data that call the
    connection. *)
Variable mcp_factory : ToolInfo -> nat -> F.

Record McpState := mkMcpState {
  tools : ToolDomain F SF J;
  conns : list MCPConnection;
  mcpServers_ : gmap string nat;
  servers_ : gmap string nat;
  lastConfigs_ : gmap string McpServerConfig
}.

Definition set_tools (t : ToolDomain F SF J) (st : McpState) : McpState :=
  mkMcpState t (conns st) (mcpServers_ st) (servers_ st) (lastConfigs_ st).
Definition set_conn (p : nat) (c : MCPConnection) (st : McpState) : McpState :=
  mkMcpState (tools st) (<[p := c]> (conns st)) (mcpServers_ st) (servers_ st) (lastConfigs_ st).
Definition set_mcpServers (m : gmap string nat) (st : McpState) : McpState :=
  mkMcpState (tools st) (conns st) m (servers_ st) (lastConfigs_ st).
Definition set_servers (m : gmap string nat) (st : McpState) : McpState :=
  mkMcpState (tools st) (conns st) (mcpServers_ st) m (lastConfigs_ st).
Definition set_lastConfigs (m : gmap string McpServerConfig) (st : McpState) : McpState :=
  mkMcpState (tools st) (conns st) (mcpServers_ st) (servers_ st) m.

(** What [Initialize] and [ListTools] of a new client make of the remote end: whether
    the handshake succeeds, and the tools listed; or an exception of one of them.
    McpClient derives it from the bytes of the server. *)
Definition remote_answer : Type := outcome (bool * list MCPToolInfo).

(** The loop of [Connect] over the listed tools: each is recorded before its
    schema is read, so an exception leaves the earlier ones registered. *)
Fixpoint register_tools (p : nat) (ts : list MCPToolInfo) (c : MCPConnection)
    (rm : ToolDomain F SF J) : MCPConnection * ToolDomain F SF J * outcome unit :=
  match ts with
  | [] => (c, rm, Ok tt)
  | t :: rest =>
      let c1 := mkMCPConnection (conn_name c) (conn_config c) (connected_ c)
                  (availableTools_ c ++ [t]) (has_client c) in
      match mcp_tool_info t with
      | Throw e => (c1, rm, Throw e)
      | Ok info => register_tools p rest c1 (RegisterMcpTool (ti_name t) (mcp_factory info p) rm)
      end
  end.

Definition Connect (answer : remote_answer) (p : nat) (st : McpState) : McpState * outcome unit :=
  match conns st !! p with
  | None => (st, Ok tt)
  | Some c =>
      if connected_ c then (st, Ok tt)
      else
        match transportType (conn_config c) with
        | STDIO => (st, Ok tt)
        | SSE | STREAMABLE_HTTP =>
            match answer with
            | Throw e =>
                (set_conn p (mkMCPConnection (conn_name c) (conn_config c) false
                               (availableTools_ c) true) st, Throw e)
            | Ok (false, _) =>
                (set_conn p (mkMCPConnection (conn_name c) (conn_config c) false
                               (availableTools_ c) true) st, Ok tt)
            | Ok (true, listed) =>
                let c0 := mkMCPConnection (conn_name c) (conn_config c) false [] true in
                match register_tools p listed c0 (tools st) with
                | (c1, rm1, Throw e) => (set_tools rm1 (set_conn p c1 st), Throw e)
                | (c1, rm1, Ok _) =>
                    (set_tools rm1 (set_conn p (mkMCPConnection (conn_name c1) (conn_config c1) true
                                                  (availableTools_ c1) true) st), Ok tt)
                end
            end
        end
  end.

Definition Disconnect (p : nat) (st : McpState) : McpState :=
  match conns st !! p with
  | None => st
  | Some c =>
      set_tools (fold_left (fun rm t => UnregisterMcpTool (ti_name t) rm) (availableTools_ c)
                   (tools st))
        (set_conn p (mkMCPConnection (conn_name c) (conn_config c) false [] false) st)
  end.

(** [ResourceManager::RegisterMCPServer]. *)
Definition RegisterMCPServer (answer : remote_answer) (config : McpServerConfig) (st : McpState)
    : McpState * outcome unit :=
  let st1 := match mcpServers_ st !! mcp_id config with
             | Some old => Disconnect old (set_mcpServers (delete (mcp_id config) (mcpServers_ st)) st)
             | None => st
             end in
  match endpoint_config config with
  | None => (st1, Ok tt)
  | Some ep =>
      let p := length (conns st1) in
      let st2 := mkMcpState (tools st1)
                   (conns st1 ++ [mkMCPConnection (mcp_id config) ep false [] false])
                   (mcpServers_ st1) (servers_ st1) (lastConfigs_ st1) in
      match Connect answer p st2 with
      | (st3, Throw e) => (st3, Throw e)
      | (st3, Ok _) => (set_mcpServers (<[mcp_id config := p]> (mcpServers_ st3)) st3, Ok tt)
      end
  end.

Definition StartServerLocked (answer : remote_answer) (config : McpServerConfig) (st : McpState)
    : McpState * outcome unit :=
  match RegisterMCPServer answer config st with
  | (st1, Throw e) => (st1, Throw e)
  | (st1, Ok _) =>
      (match mcpServers_ st1 !! mcp_id config with
       | Some p => set_servers (<[mcp_id config := p]> (servers_ st1)) st1
       | None => st1
       end, Ok tt)
  end.

Definition StopServerLocked (id : string) (st : McpState) : McpState :=
  match servers_ st !! id with
  | Some p =>
      let st1 := Disconnect p st in
      let st2 := set_servers (delete id (servers_ st1)) st1 in
      set_mcpServers (delete id (mcpServers_ st2)) st2
  | None => st
  end.

Definition Apply (answer : remote_answer) (config : McpServerConfig) (st : McpState)
    : McpState * outcome unit :=
  let id := mcp_id config in
  let remember (st : McpState) := set_lastConfigs (<[id := config]> (lastConfigs_ st)) st in
  let start (st : McpState) :=
    match StartServerLocked answer config (StopServerLocked id st) with
    | (st1, Throw e) => (st1, Throw e)
    | (st1, Ok _) => (remember st1, Ok tt)
    end in
  if negb (mcp_enabled config) then
    (remember (match lastConfigs_ st !! id with
               | Some _ => StopServerLocked id st | None => st end), Ok tt)
  else
    match lastConfigs_ st !! id with
    | Some last => if negb (ConfigChanged last config) then (st, Ok tt) else start st
    | None => start st
    end.

Fixpoint apply_all (remote : string -> remote_answer) (configs : list McpServerConfig)
    (st : McpState) : McpState * outcome unit :=
  match configs with
  | [] => (st, Ok tt)
  | c :: rest =>
      match Apply (remote (mcp_id c)) c st with
      | (st1, Throw e) => (st1, Throw e)
      | (st1, Ok _) => apply_all remote rest st1
      end
  end.

(** The remembered servers missing from the new list. *)
Definition to_remove (configs : list McpServerConfig) (st : McpState) : list string :=
  List.filter (fun id => negb (existsb (fun c => String.eqb (mcp_id c) id) configs))
    (map fst (map_to_list (lastConfigs_ st))).

Definition Load (remote : string -> remote_answer) (configs : list McpServerConfig)
    (st : McpState) : McpState * outcome unit :=
  apply_all remote configs
    (fold_left (fun st id => StopServerLocked id st) (to_remove configs st) st).

(** [MCPConfigManager::Remove]. *)
Definition RemoveServer (id : string) (st : McpState) : McpState :=
  let st1 := StopServerLocked id st in
  set_lastConfigs (delete id (lastConfigs_ st1)) st1.

Definition StopAll (st : McpState) : McpState :=
  let st1 := fold_left (fun st kv => Disconnect kv.2 st) (map_to_list (servers_ st)) st in
  set_lastConfigs ∅ (set_servers ∅ st1).

Definition GetAllConfigs (st : McpState) : list McpServerConfig :=
  map snd (map_to_list (lastConfigs_ st)).

Definition is_connected (p : nat) (st : McpState) : bool :=
  match conns st !! p with Some c => connected_ c | None => false end.

Definition ActiveIds (st : McpState) : list string :=
  map fst (List.filter (fun kv => is_connected kv.2 st) (map_to_list (servers_ st))).

Definition mcp_initial (rm : ToolDomain F SF J) : McpState := mkMcpState rm [] ∅ ∅ ∅.

(** ** What each call leaves alone *)

Lemma Disconnect_frame p st :
  servers_ (Disconnect p st) = servers_ st /\ lastConfigs_ (Disconnect p st) = lastConfigs_ st.
Proof. unfold Disconnect. by destruct (conns st !! p). Qed.

Lemma Connect_frame answer p st :
  servers_ (Connect answer p st).1 = servers_ st /\
  lastConfigs_ (Connect answer p st).1 = lastConfigs_ st.
Proof.
  unfold Connect. destruct (conns st !! p) as [c|]; [|done]. destruct (connected_ c); [done|].
  destruct (transportType (conn_config c)), answer as [[[] ?]|]; try done;
    by destruct (register_tools _ _ _ _) as [[? ?] []].
Qed.

Lemma RegisterMCPServer_frame answer c st :
  servers_ (RegisterMCPServer answer c st).1 = servers_ st /\
  lastConfigs_ (RegisterMCPServer answer c st).1 = lastConfigs_ st.
Proof.
  unfold RegisterMCPServer.
  set (st1 := match mcpServers_ st !! mcp_id c with Some old => _ | None => st end).
  assert (servers_ st1 = servers_ st /\ lastConfigs_ st1 = lastConfigs_ st) as [<- <-].
  { unfold st1. destruct (mcpServers_ st !! mcp_id c) as [old|]; [|done].
    by destruct (Disconnect_frame old (set_mcpServers (delete (mcp_id c) (mcpServers_ st)) st)). }
  destruct (endpoint_config c) as [ep|]; [|done]. cbn zeta.
  match goal with |- context [Connect answer ?p ?s] =>
    destruct (Connect_frame answer p s) as [Hs Hl]; destruct (Connect answer p s) as [st3 []] end;
    cbn in *; by rewrite Hs, Hl.
Qed.

Lemma StopServerLocked_frame id st :
  servers_ (StopServerLocked id st) = delete id (servers_ st) /\
  lastConfigs_ (StopServerLocked id st) = lastConfigs_ st.
Proof.
  unfold StopServerLocked. destruct (servers_ st !! id) as [p|] eqn:E.
  - destruct (Disconnect_frame p st) as [Hs Hl]. cbn. by rewrite Hs, Hl.
  - by rewrite delete_id.
Qed.

Lemma StopServerLocked_idle id st : servers_ st !! id = None -> StopServerLocked id st = st.
Proof. unfold StopServerLocked. by intros ->. Qed.

Lemma StartServerLocked_frame answer c st st' r :
  StartServerLocked answer c st = (st', r) ->
  lastConfigs_ st' = lastConfigs_ st /\
  (forall id, id <> mcp_id c -> servers_ st' !! id = servers_ st !! id) /\
  (r <> Ok tt -> servers_ st' = servers_ st).
Proof.
  unfold StartServerLocked. destruct (RegisterMCPServer_frame answer c st) as [Hs Hl].
  destruct (RegisterMCPServer answer c st) as [st1 [u|e]]; cbn in *.
  - destruct (mcpServers_ st1 !! mcp_id c) as [p|]; intros [= <- <-]; cbn; rewrite ?Hs.
    + split; [done|]. split; [|done]. intros id Hid. by rewrite lookup_insert_ne.
    + done.
  - intros [= <- <-]. by rewrite Hs.
Qed.

(** Every running server has been remembered as enabled. *)
Definition managed (st : McpState) : Prop :=
  forall id p, servers_ st !! id = Some p ->
  exists c, lastConfigs_ st !! id = Some c /\ mcp_enabled c = true.

Lemma managed_stop id st : managed st -> managed (StopServerLocked id st).
Proof.
  intros Hm k p. destruct (StopServerLocked_frame id st) as [-> ->].
  intros [_ Hk]%lookup_delete_Some. by eapply Hm.
Qed.

Lemma ConfigChanged_enabled last c : ConfigChanged last c = false -> mcp_enabled last = mcp_enabled c.
Proof.
  unfold ConfigChanged. rewrite !orb_false_iff, !negb_false_iff. intros HH.
  apply Bool.eqb_prop. tauto.
Qed.

Lemma ConfigChanged_refl c : ConfigChanged c c = false.
Proof.
  unfold ConfigChanged. rewrite !String.eqb_refl, Bool.eqb_reflx.
  by rewrite !bool_decide_eq_true_2.
Qed.

(** One [Apply]: other servers are untouched, the invariant is kept, and a call
    that returns has remembered the server's new state. *)
Lemma Apply_spec answer c st st' r :
  managed st -> Apply answer c st = (st', r) ->
  managed st' /\
  (forall id, id <> mcp_id c ->
     servers_ st' !! id = servers_ st !! id /\ lastConfigs_ st' !! id = lastConfigs_ st !! id) /\
  (r = Ok tt -> exists last, lastConfigs_ st' !! mcp_id c = Some last /\
     mcp_enabled last = mcp_enabled c /\ ConfigChanged last c = false).
Proof.
  intros Hm. unfold Apply. set (id := mcp_id c).
  destruct (StopServerLocked_frame id st) as [Hss Hsl].
  assert (forall st1 r1, StartServerLocked answer c (StopServerLocked id st) = (st1, r1) ->
    mcp_enabled c = true ->
    managed (match r1 with Ok _ => set_lastConfigs (<[id:=c]> (lastConfigs_ st1)) st1
             | Throw _ => st1 end)
    /\ (forall k, k <> id -> servers_ st1 !! k = servers_ st !! k /\ lastConfigs_ st1 !! k = lastConfigs_ st !! k))
    as Hstart.
  { intros st1 r1 E Hen. destruct (StartServerLocked_frame _ _ _ _ _ E) as (Hl & Hs & Hthrow).
    rewrite Hsl in Hl. assert (forall k, k <> id -> servers_ st1 !! k = servers_ st !! k) as Hk.
    { intros k Hk. rewrite (Hs k Hk), Hss. by apply lookup_delete_ne. }
    split; [|intros k Hne; by rewrite Hl, Hk].
    destruct r1 as [u|e]; intros k p Hp; cbn in *.
    - rewrite lookup_insert. case_decide as Ek; [by eauto|].
      rewrite Hl. eapply Hm. by rewrite <- Hk.
    - rewrite Hl. rewrite Hthrow, Hss in Hp by done. apply lookup_delete_Some in Hp as [_ Hp].
      by eapply Hm. }
  destruct (mcp_enabled c) eqn:Hen; cbn [negb].
  2:{ assert (forall st1 : McpState, managed st1 -> servers_ st1 !! id = None ->
        managed (set_lastConfigs (<[id:=c]> (lastConfigs_ st1)) st1)) as Hrem.
      { intros st1 Hm1 Hn k p Hp. cbn in *. rewrite lookup_insert_ne; [by eapply Hm1|].
        intros <-. congruence. }
      destruct (lastConfigs_ st !! id) as [last|] eqn:El; intros [= <- <-].
      - split; [apply Hrem; [by apply managed_stop | by rewrite Hss, lookup_delete_eq]|].
        split; [|intros _; exists c; cbn; rewrite lookup_insert_eq, ConfigChanged_refl; done].
        intros k Hk. cbn. by rewrite Hss, Hsl, lookup_delete_ne, lookup_insert_ne.
      - split; [apply Hrem; [done|]|].
        { destruct (servers_ st !! id) eqn:E; [|done]. destruct (Hm _ _ E) as (? & ? & _). congruence. }
        split; [|intros _; exists c; cbn; rewrite lookup_insert_eq, ConfigChanged_refl; done].
        intros k Hk. cbn. by rewrite lookup_insert_ne. }
  assert (forall st1 r1 st2 r2, StartServerLocked answer c (StopServerLocked id st) = (st1, r1) ->
    (match r1 with Ok _ => (set_lastConfigs (<[id:=c]> (lastConfigs_ st1)) st1, Ok tt)
     | Throw e => (st1, Throw e) end) = (st2, r2) ->
    managed st2 /\ (forall k, k <> id -> servers_ st2 !! k = servers_ st !! k
                                  /\ lastConfigs_ st2 !! k = lastConfigs_ st !! k) /\
    (r2 = Ok tt -> exists last, lastConfigs_ st2 !! id = Some last /\ mcp_enabled last = true
                     /\ ConfigChanged last c = false)) as Hgo.
  { intros st1 r1 st2 r2 E E2. destruct (Hstart _ _ E eq_refl) as [Hm1 Hk].
    destruct r1 as [u|e]; injection E2 as <- <-; (split; [done|]); (split; [|try done]).
    - intros k Hne. cbn. rewrite lookup_insert_ne by done. by apply Hk.
    - intros _. exists c. cbn. rewrite lookup_insert_eq, ConfigChanged_refl. done.
    - exact Hk. }
  intros E. destruct (lastConfigs_ st !! id) as [last|] eqn:El.
  - destruct (ConfigChanged last c) eqn:Ec; cbn [negb] in E.
    + destruct (StartServerLocked answer c (StopServerLocked id st)) as [st1 r1] eqn:Es.
      eapply Hgo; [reflexivity|]. by destruct r1.
    + injection E as <- <-. split; [done|]. split; [done|]. intros _. exists last.
      by rewrite <- Hen, (ConfigChanged_enabled _ _ Ec).
  - destruct (StartServerLocked answer c (StopServerLocked id st)) as [st1 r1] eqn:Es.
    eapply Hgo; [reflexivity|]. by destruct r1.
Qed.

Lemma apply_all_spec remote cs st st' r :
  managed st -> NoDup (map mcp_id cs) -> apply_all remote cs st = (st', r) ->
  managed st' /\
  (forall id, id ∉ map mcp_id cs ->
     servers_ st' !! id = servers_ st !! id /\ lastConfigs_ st' !! id = lastConfigs_ st !! id) /\
  (r = Ok tt -> forall c, c ∈ cs -> exists last, lastConfigs_ st' !! mcp_id c = Some last /\
     mcp_enabled last = mcp_enabled c /\ ConfigChanged last c = false).
Proof.
  revert st; induction cs as [|c cs IH]; intros st Hm Hnd E; cbn in E.
  { injection E as <- <-. split; [done|]. split; [done|]. intros _ c Hc.
    by apply not_elem_of_nil in Hc. }
  apply NoDup_cons in Hnd as [Hc Hnd].
  destruct (Apply (remote (mcp_id c)) c st) as [st1 [u|e]] eqn:E1.
  - destruct (Apply_spec _ _ _ _ _ Hm E1) as (Hm1 & Hk1 & Hl1).
    destruct (IH st1 Hm1 Hnd E) as (Hm2 & Hk2 & Hl2). split; [done|]. split.
    + intros id [Hne Hid]%not_elem_of_cons. destruct (Hk2 id Hid) as [-> ->]. by apply Hk1.
    + intros -> d [->|Hd]%elem_of_cons; [|by apply Hl2].
      destruct (Hk2 _ Hc) as [_ ->]. apply Hl1. by destruct u.
  - injection E as <- <-. destruct (Apply_spec _ _ _ _ _ Hm E1) as (Hm1 & Hk1 & _).
    split; [done|]. split; [|done]. intros id [Hne Hid]%not_elem_of_cons. by apply Hk1.
Qed.

Lemma stop_all_spec ids st :
  servers_ (fold_left (fun st id => StopServerLocked id st) ids st)
    = fold_left (fun m id => delete id m) ids (servers_ st) /\
  lastConfigs_ (fold_left (fun st id => StopServerLocked id st) ids st) = lastConfigs_ st /\
  (managed st -> managed (fold_left (fun st id => StopServerLocked id st) ids st)).
Proof.
  revert st; induction ids as [|id ids IH]; intros st; [done|]. cbn.
  destruct (IH (StopServerLocked id st)) as (-> & -> & Hm).
  destruct (StopServerLocked_frame id st) as [-> ->]. split; [done|]. split; [done|].
  intros H'. by apply Hm, managed_stop.
Qed.

Lemma lookup_delete_list {V} (ids : list string) (m : gmap string V) (k : string) :
  fold_left (fun m id => delete id m) ids m !! k
  = if bool_decide (k ∈ ids) then None else m !! k.
Proof.
  revert m; induction ids as [|id ids IH]; intros m; cbn [fold_left]; [done|]. rewrite IH.
  case_bool_decide as Hk; case_bool_decide as Hk'; try done.
  - destruct Hk'. by right.
  - apply elem_of_cons in Hk' as [->|]; [apply lookup_delete_eq | done].
  - rewrite lookup_delete_ne; [done|]. intros <-. destruct Hk'. left.
Qed.

Lemma elem_of_to_remove cs st id :
  id ∈ to_remove cs st <-> is_Some (lastConfigs_ st !! id) /\ id ∉ map mcp_id cs.
Proof.
  unfold to_remove. rewrite elem_of_filterb, negb_true_iff.
  rewrite <- not_true_iff_false, existsb_exists, !list_elem_of_fmap. split.
  - intros [([k c] & -> & Hc%elem_of_map_to_list) Hn]. cbn in *. split; [by eexists|].
    intros (d & Hd & Hin). apply Hn. exists d. split; [by apply list_elem_of_In|].
    apply String.eqb_eq. done.
  - intros [[c Hc] Hn]. split.
    + exists (id, c). split; [done|]. by apply elem_of_map_to_list.
    + intros (d & Hd & Heq%String.eqb_eq). apply Hn. exists d. split; [done|].
      by apply list_elem_of_In.
Qed.

(** *** The names under which tools are registered *)

Definition names_in (P : string -> Prop) (rm : ToolDomain F SF J) : Prop := forall n, n ∈ GetMcpToolNames rm -> P n.
Definition answer_in (P : string -> Prop) (answer : remote_answer) : Prop :=
  forall ok ts t, answer = Ok (ok, ts) -> t ∈ ts -> P (ti_name t).

Section Names.
Variable P : string -> Prop.
Local Notation ok st := (names_in P (tools st)).

Lemma names_in_add n f rm : P n -> names_in P rm -> names_in P (RegisterMcpTool n f rm).
Proof. intros Hn Hr m. unfold GetMcpToolNames. rewrite elem_of_elements. cbn. rewrite elem_of_union, elem_of_singleton.
  intros [->|Hm]; [done|]. apply Hr. by apply elem_of_elements. Qed.
Lemma names_in_drop n rm : names_in P rm -> names_in P (UnregisterMcpTool n rm).
Proof. intros Hr m. unfold GetMcpToolNames. rewrite elem_of_elements. cbn. rewrite elem_of_difference.
  intros [Hm _]. apply Hr. by apply elem_of_elements. Qed.

Lemma register_tools_names p ts c rm : (forall t, t ∈ ts -> P (ti_name t)) -> names_in P rm ->
  names_in P (register_tools p ts c rm).1.2.
Proof.
  revert c rm; induction ts as [|t ts IH]; intros c rm Ht Hr; cbn [register_tools]; [done|].
  destruct (mcp_tool_info t); [|done]. apply IH; [intros; apply Ht; by right|]. apply names_in_add; [apply Ht; by left | done].
Qed.

Lemma Connect_names answer p st : answer_in P answer -> ok st -> ok (Connect answer p st).1.
Proof.
  intros Ha Hs. unfold Connect. destruct (conns st !! p) as [c|]; [|done]. destruct (connected_ c); [done|].
  destruct (transportType (conn_config c)), answer as [[[] ts]|e] eqn:Ea; try done;
    pose proof (register_tools_names p ts (mkMCPConnection (conn_name c) (conn_config c) false [] true) (tools st)
      (fun t => Ha true ts t eq_refl) Hs) as Hr;
    destruct (register_tools _ _ _ _) as [[c1 rm1] [[]|e]]; exact Hr.
Qed.

Lemma Disconnect_names p st : ok st -> ok (Disconnect p st).
Proof.
  intros Hs. unfold Disconnect. destruct (conns st !! p) as [c|]; [|done]. cbn.
  generalize dependent (tools st). induction (availableTools_ c) as [|t ts IH]; intros rm Hr; [done|].
  cbn. by apply IH, names_in_drop.
Qed.

Lemma StopServerLocked_names id st : ok st -> ok (StopServerLocked id st).
Proof. intros Hs. unfold StopServerLocked. destruct (servers_ st !! id) as [p|]; [|done]. by apply (Disconnect_names p st). Qed.

Lemma RegisterMCPServer_names answer c st : answer_in P answer -> ok st -> ok (RegisterMCPServer answer c st).1.
Proof.
  intros Ha Hs. unfold RegisterMCPServer. set (st1 := match mcpServers_ st !! mcp_id c with Some _ => _ | None => st end).
  assert (ok st1) as Hs1.
  { unfold st1. destruct (mcpServers_ st !! mcp_id c); [|done]. by apply Disconnect_names. }
  destruct (endpoint_config c) as [ep|]; [|done]. set (st2 := mkMcpState _ _ _ _ _).
  pose proof (Connect_names answer (length (conns st1)) st2 Ha Hs1) as Hc.
  by destruct (Connect answer _ st2) as [st3 []].
Qed.

Lemma Apply_names answer c st : answer_in P answer -> ok st -> ok (Apply answer c st).1.
Proof.
  intros Ha Hs. assert (ok (StartServerLocked answer c (StopServerLocked (mcp_id c) st)).1) as Hstart.
  { unfold StartServerLocked.
    pose proof (RegisterMCPServer_names answer c _ Ha (StopServerLocked_names (mcp_id c) st Hs)) as Hr.
    destruct (RegisterMCPServer answer c _) as [st1 []]; [|done]. cbn. by destruct (mcpServers_ st1 !! mcp_id c). }
  unfold Apply. destruct (StartServerLocked _ _ _) as [st1 [u|e]];
    destruct (negb (mcp_enabled c)), (lastConfigs_ st !! mcp_id c) as [last|]; try done;
    try (by apply (StopServerLocked_names (mcp_id c) st)); by destruct (negb (ConfigChanged last c)).
Qed.

Lemma apply_all_names remote cs st : (forall id, answer_in P (remote id)) -> ok st -> ok (apply_all remote cs st).1.
Proof.
  intros Ha; revert st; induction cs as [|c cs IH]; intros st Hs; cbn [apply_all]; [done|].
  pose proof (Apply_names (remote (mcp_id c)) c st (Ha _) Hs) as H1.
  destruct (Apply _ c st) as [st1 []]; [by apply IH | done].
Qed.

Lemma Load_names remote cs st : (forall id, answer_in P (remote id)) -> ok st -> ok (Load remote cs st).1.
Proof.
  intros Ha Hs. unfold Load. apply apply_all_names; [done|].
  generalize (to_remove cs st). intros ids; revert st Hs; induction ids as [|id ids IH]; intros st Hs; [done|].
  cbn. by apply IH, StopServerLocked_names.
Qed.

Lemma RemoveServer_names id st : ok st -> ok (RemoveServer id st).
Proof. intros Hs. by apply (StopServerLocked_names id st). Qed.
End Names.

(** Whatever the remote servers answer, a [Load] that returns leaves
    running only servers that the new list enables, and it has remembered every
    entry of the list. *)
Theorem load_runs_listed remote cs st st' :
  managed st -> NoDup (map mcp_id cs) -> Load remote cs st = (st', Ok tt) ->
  managed st' /\
  (forall id p, servers_ st' !! id = Some p ->
     exists c, c ∈ cs /\ mcp_id c = id /\ mcp_enabled c = true) /\
  (forall c, c ∈ cs -> is_Some (lastConfigs_ st' !! mcp_id c)).
Proof.
  intros Hm Hnd E. unfold Load in E.
  destruct (stop_all_spec (to_remove cs st) st) as (Hs & Hl & Hm1).
  set (st1 := fold_left _ (to_remove cs st) st) in *.
  destruct (apply_all_spec _ _ _ _ _ (Hm1 Hm) Hnd E) as (Hm2 & Hk & Hc).
  split; [done|]. split; [|intros c Hin; destruct (Hc eq_refl c Hin) as (? & ? & _); by eexists].
  intros id p Hp. destruct (decide (id ∈ map mcp_id cs)) as [Hin|Hin].
  - apply list_elem_of_fmap in Hin as (c & -> & Hin). exists c. split; [done|]. split; [done|].
    destruct (Hc eq_refl c Hin) as (last & Hlast & <- & _).
    destruct (Hm2 _ _ Hp) as (last' & Hlast' & Hen). congruence.
  - destruct (Hk id Hin) as [Hp1 _]. rewrite Hp1, Hs, lookup_delete_list in Hp.
    case_bool_decide as Hr; [done|]. destruct Hr. apply elem_of_to_remove. split; [|done].
    destruct (Hm _ _ Hp) as (last & ? & _). by eexists.
Qed.

(** A server that is dropped from the configuration and put back is not
    started again: reloading [c], then an empty list, then [c] leaves the state
    of the empty list, in which nothing runs, because its remembered
    configuration is still there and unchanged. *)
Theorem readded_server_stays_stopped remote c st st1 :
  managed st -> mcp_enabled c = true -> Load remote [c] st = (st1, Ok tt) ->
  exists st2, Load remote [] st1 = (st2, Ok tt) /\ servers_ st2 = ∅ /\
    Load remote [c] st2 = (st2, Ok tt).
Proof.
  intros Hm Hen E. unfold Load at 2. cbn [apply_all]. eexists. split; [reflexivity|].
  destruct (stop_all_spec (to_remove [c] st) st) as (_ & _ & Hm0).
  unfold Load in E.
  destruct (apply_all_spec _ [c] _ _ _ (Hm0 Hm) (NoDup_singleton (mcp_id c)) E) as (Hm1 & _ & Hc).
  destruct (Hc eq_refl c ltac:(left)) as (last & Hlast & _ & Hch).
  destruct (stop_all_spec (to_remove [] st1) st1) as (Hs & Hl & Hm2).
  set (st2 := fold_left _ (to_remove [] st1) st1) in *.
  assert (servers_ st2 = ∅) as H0s.
  { apply map_eq. intros id. rewrite Hs, lookup_delete_list, lookup_empty.
    case_bool_decide as Hr; [done|]. destruct (servers_ st1 !! id) as [p|] eqn:Ep; [|done].
    destruct Hr. apply elem_of_to_remove. destruct (Hm1 _ _ Ep) as (? & ? & _).
    split; [by eexists | set_solver]. }
  split; [done|]. unfold Load.
  assert (forall ids, fold_left (fun st id => StopServerLocked id st) ids st2 = st2) as ->.
  { induction ids as [|id ids IH]; [done|]. cbn. rewrite StopServerLocked_idle; [done|].
    by rewrite H0s, lookup_empty. }
  cbn [apply_all]. unfold Apply. by rewrite Hen, Hl, Hlast, Hch.
Qed.

Definition with_timeouts (c r : Z) (cfg : McpServerConfig) : McpServerConfig :=
  mkMcpServerConfig (mcp_id cfg) (mcp_name cfg) (mcp_description cfg) (mcp_enabled cfg)
    (mcp_type cfg) (mcp_url cfg) (mcp_endpoint cfg) (mcp_command cfg) (mcp_args cfg)
    (mcp_env cfg) (mcp_headers cfg) c r.

(** New timeouts of a configured server are never applied: reloading the
    configuration with other timeouts changes nothing. *)
Theorem new_timeouts_ignored answer cfg c r st :
  mcp_enabled cfg = true -> lastConfigs_ st !! mcp_id cfg = Some cfg ->
  Apply answer (with_timeouts c r cfg) st = (st, Ok tt).
Proof.
  intros Hen Hl. unfold Apply. cbn [mcp_id mcp_enabled with_timeouts]. rewrite Hen, Hl.
  pose proof (ConfigChanged_refl cfg) as Hr. unfold ConfigChanged in *.
  cbn [with_timeouts mcp_name mcp_description mcp_enabled mcp_type mcp_url mcp_endpoint
       mcp_command mcp_args mcp_env mcp_headers] in *. by rewrite Hr.
Qed.

End Mcp.

(** ** Witnesses *)

Definition ex_server : McpServerConfig :=
  mkMcpServerConfig "search" "Search" "" true "" "http://h/mcp" "" "" [] ∅ ∅ 3 10.

Definition ex_remote (id : string) : remote_answer (J := JsonTree.json) :=
  Ok (true, [mkMCPToolInfo "find" "" (GenNode 1 [])]).

Definition ex_mcp0 : McpState (F := ToolInfo) (SF := ToolInfo) (J := JsonTree.json) :=
  mcp_initial empty_tools.

Definition ex_load (cs : list McpServerConfig) (st : McpState (F := ToolInfo) (SF := ToolInfo))
    : McpState (F := ToolInfo) (SF := ToolInfo) * outcome unit :=
  Load (H0 := JsonTree.instance []) (fun i _ => i) ex_remote cs st.

Lemma managed_initial : managed ex_mcp0.
Proof. intros id p Hp. cbn in Hp. by rewrite lookup_empty in Hp. Qed.

Lemma load_runs_listed_witness :
  let st := (ex_load [ex_server] ex_mcp0).1 in
  managed st /\ (forall id p, servers_ st !! id = Some p ->
    exists c, c ∈ [ex_server] /\ mcp_id c = id /\ mcp_enabled c = true) /\
  (forall c, c ∈ [ex_server] -> is_Some (lastConfigs_ st !! mcp_id c)).
Proof.
  cbn zeta. apply (load_runs_listed (H0 := JsonTree.instance []) (fun i _ => i) ex_remote
                     [ex_server] ex_mcp0).
  - apply managed_initial.
  - apply NoDup_singleton.
  - vm_compute. reflexivity.
Defined.

Lemma readded_server_stays_stopped_witness :
  servers_ (ex_load [ex_server] ex_mcp0).1 !! "search" = Some 0%nat /\
  HasTool "find" (tools (ex_load [ex_server] ex_mcp0).1) = true /\
  exists st2, ex_load [] (ex_load [ex_server] ex_mcp0).1 = (st2, Ok tt) /\ servers_ st2 = ∅ /\
    ex_load [ex_server] st2 = (st2, Ok tt).
Proof.
  split; [vm_compute; reflexivity|]. split; [vm_compute; reflexivity|].
  apply (readded_server_stays_stopped (H0 := JsonTree.instance []) (fun i _ => i) ex_remote
           ex_server ex_mcp0).
  - apply managed_initial.
  - reflexivity.
  - vm_compute. reflexivity.
Defined.

Lemma new_timeouts_ignored_witness :
  let st := (ex_load [ex_server] ex_mcp0).1 in
  Apply (H0 := JsonTree.instance []) (fun i _ => i) (ex_remote "search")
    (with_timeouts 30 60 ex_server) st = (st, Ok tt).
Proof.
  cbn zeta. apply new_timeouts_ignored; [reflexivity | vm_compute; reflexivity].
Defined.
