(* ===== verification/SkillEngine.v ===== *)
(** * Skills (src/skills/skill_engine.cpp, include/skill.h)

    Parsing of SKILL.md files and the catalogs, lookups and searches over the
    loaded skills.  The directory tree is an argument of [Load]: the
    sub-directories with the content of the first skill file present. *)
From Stdlib Require Import ZArith Lia String Ascii List.
From stdpp Require Import base decidable list strings gmap sets.
From S2P Require Import Prelude.

Record Skill := mkSkill {
  sk_id : string;
  sk_name : string;
  sk_description : string;
  sk_body : string;
  sk_directory : string
}.
Definition empty_skill : Skill := mkSkill "" "" "" "" "".

Definition fence : string := "---" +:+ nl.

(** [value.substr(0, find_last_not_of(" \t\r\n") + 1)], the value itself when
    it is all blanks. *)
Definition trim_right (s : string) : string :=
  match find_last_if (fun c => negb (is_space4 c)) s with
  | Some i => str_take (S i) s
  | None => s
  end.

(** The text between the first two fences. *)
Definition frontmatter_of (content : string) : option string :=
  match find_str fence content 0 with
  | None => None
  | Some i =>
      match find_str fence content (i + 4) with
      | None => None
      | Some e => Some (substr content (i + 4) (e - (i + 4)))
      end
  end.

(** The value of [key] in a frontmatter. *)
Definition field_of (frontmatter key : string) : string :=
  let searchKey := key +:+ ":" in
  match find_str searchKey frontmatter 0 with
  | None => ""
  | Some keyPos =>
      match find_if_from (fun c => negb (is_blank c)) frontmatter
              (keyPos + String.length searchKey) with
      | None => ""
      | Some valStart =>
          if bool_decide (str_at frontmatter valStart = Some DQUOTE) then
            match find_char DQUOTE frontmatter (S valStart) with
            | None => ""
            | Some valEnd => substr frontmatter (S valStart) (valEnd - valStart - 1)
            end
          else
            match find_char NL frontmatter valStart with
            | None => str_drop valStart frontmatter
            | Some valEnd => trim_right (substr frontmatter valStart (valEnd - valStart))
            end
      end
  end.

Definition ExtractFrontmatterField (content key : string) : string :=
  match frontmatter_of content with
  | None => ""
  | Some frontmatter => field_of frontmatter key
  end.

(** Everything after the closing fence, or the whole content. *)
Definition skill_body_of (content : string) : string :=
  match find_str fence content 0 with
  | None => content
  | Some i =>
      match find_str fence content (i + 4) with
      | None => content
      | Some e => str_drop (e + 4) content
      end
  end.

Definition ParseSkillDir (dirPath folderName : string) (content : option string) : Skill :=
  match content with
  | Some content =>
      let name := ExtractFrontmatterField content "name" in
      mkSkill folderName (if str_empty name then folderName else name)
        (ExtractFrontmatterField content "description") (skill_body_of content) dirPath
  | None =>
      mkSkill folderName folderName "No SKILL.md found."
        ("# Skill " +:+ folderName +:+ nl +:+ "No instructions found.") dirPath
  end.

Record SkillEngine := mkSkillEngine {
  rootDir_ : string;
  skills_ : gmap string Skill;
  lastMtime_ : string
}.
Definition skill_engine_new (rootDir : string) : SkillEngine := mkSkillEngine rootDir ∅ "".

(** The root directory on disk: its modification time ([None]: cannot be read)
    and its sub-directories. *)
Record SkillDir := mkSkillDir {
  sd_mtime : option string;
  sd_entries : list (string * string * option string)
}.

Definition load_entries (entries : list (string * string * option string))
    : gmap string Skill :=
  fold_left (fun m '(path, folder, content) =>
    let skill := ParseSkillDir path folder content in
    if str_empty (sk_id skill) then m else <[sk_id skill := skill]> m) entries ∅.

Definition Load (forceReload : bool) (disk : option SkillDir) (e : SkillEngine)
    : SkillEngine * bool :=
  if str_empty (rootDir_ e) then (e, false)
  else
    match disk with
    | None => (e, false)
    | Some d =>
        let reload (mtime : string) :=
          (mkSkillEngine (rootDir_ e) (load_entries (sd_entries d)) mtime, true) in
        if negb forceReload && negb (bool_decide (skills_ e = ∅)) then
          match sd_mtime d with
          | Some mtime => if String.eqb mtime (lastMtime_ e) then (e, true) else reload mtime
          | None => reload (lastMtime_ e)
          end
        else reload (lastMtime_ e)
    end.

Definition catalog_header : string :=
  "Available Skills (use skill_search tool to load full instructions):" +:+ nl.
Definition skill_line (s : Skill) : string :=
  "- " +:+ sk_name s +:+ ": " +:+ sk_description s +:+ nl.

(** The skills in the (unspecified) order of the map. *)
Definition all_skills (e : SkillEngine) : list (string * Skill) := map_to_list (skills_ e).

Definition GetSkillCatalog (e : SkillEngine) : string :=
  if bool_decide (skills_ e = ∅) then "No skills available."
  else catalog_header +:+ string_concat (map (fun kv => skill_line kv.2) (all_skills e)).

Definition skill_visible (visible : list string) (kv : string * Skill) : bool :=
  sset_mem (sk_name kv.2) visible || sset_mem kv.1 visible.

Definition GetSkillCatalogFor (visible : list string) (e : SkillEngine) : string :=
  if bool_decide (skills_ e = ∅) || bool_decide (visible = []) then "No skills available."
  else catalog_header
       +:+ string_concat (map (fun kv => skill_line kv.2)
                            (List.filter (skill_visible visible) (all_skills e))).

Definition GetSkillInstructions (skillName : string) (e : SkillEngine) : string :=
  match List.find (fun kv => String.eqb (lower (sk_name kv.2)) (lower skillName)) (all_skills e) with
  | Some kv => "## Skill: " +:+ sk_name kv.2 +:+ nl +:+ sk_body kv.2
  | None => "Skill '" +:+ skillName +:+ "' not found."
  end.

Definition match_count (ws : list string) (s : Skill) : nat :=
  fold_left (fun n w =>
    n + (if has_sub w (lower (sk_name s)) then 2 else 0)
      + (if has_sub w (lower (sk_description s)) then 1 else 0)) ws 0.

Definition SearchSkills (query : string) (e : SkillEngine) : list string :=
  match words (lower query) with
  | [] => []
  | ws => map (fun kv => sk_name kv.2)
            (List.filter (fun kv => Nat.ltb 0 (match_count ws kv.2)) (all_skills e))
  end.

Definition GetSkillIds (e : SkillEngine) : list string := map fst (all_skills e).

Definition GetAllSkills (e : SkillEngine) : list Skill :=
  omap (fun id => skills_ e !! id) (sset_of_list (GetSkillIds e)).

Definition GetSkill (id : string) (e : SkillEngine) : Skill :=
  default empty_skill (skills_ e !! id).

(** ** Skill files

    A value that needs no quoting: no line break, no colon, no quote, and no
    blank at either end. *)

Definition bare (v : string) : Prop :=
  (forall c, occurs c v = true -> c <> NL /\ c <> CR /\ c <> TAB /\ c <> DQUOTE /\ c <> ":"%char) /\
  (exists c v', v = String c v' /\ c <> " "%char) /\
  (exists v' c, v = v' +:+ String c "" /\ c <> " "%char).

Definition skill_file (name description body : string) : string :=
  fence +:+ "name: " +:+ name +:+ nl +:+ "description: " +:+ description +:+ nl
  +:+ fence +:+ body.

Lemma trim_right_bare v : bare v -> trim_right v = v.
Proof.
  intros (Hc & _ & (v' & c & -> & Hsp)). unfold trim_right.
  assert (c <> NL /\ c <> CR /\ c <> TAB /\ c <> DQUOTE /\ c <> ":"%char) as (? & ? & ? & _).
  { apply Hc. rewrite occurs_app. cbn. by rewrite Ascii.eqb_refl, orb_true_r. }
  rewrite find_last_if_last.
  - apply str_take_ge. rewrite str_length_app. cbn. lia.
  - unfold is_space4, is_blank. by rewrite !eqb_false.
Qed.

(** The field scanner on one line [key: value]. *)
Lemma field_of_line pre key v rest :
  find_sub (key +:+ ":") (pre +:+ key +:+ ": " +:+ v +:+ nl +:+ rest) = Some (String.length pre) ->
  bare v ->
  field_of (pre +:+ key +:+ ": " +:+ v +:+ nl +:+ rest) key = v.
Proof.
  intros Hf Hv. pose proof (trim_right_bare v Hv) as Ht.
  destruct Hv as (Hc & (c & v' & -> & Hsp) & _).
  destruct (Hc c) as (Hnl & _ & Htab & Hdq & _); [cbn; by rewrite Ascii.eqb_refl|].
  set (fm := pre +:+ key +:+ ": " +:+ String c v' +:+ nl +:+ rest) in *.
  assert (fm = (pre +:+ key +:+ ":") +:+ String " " (String c v' +:+ nl +:+ rest)) as E1
    by (unfold fm; by rewrite !str_app_assoc).
  assert (fm = (pre +:+ key +:+ ": ") +:+ (String c v' +:+ nl +:+ rest)) as E2
    by (unfold fm; by rewrite !str_app_assoc).
  set (L := String.length (pre +:+ key +:+ ":")) in *.
  assert (String.length (pre +:+ key +:+ ": ") = S L) as HL
    by (unfold L; rewrite !str_length_app; cbn; lia).
  assert (str_drop (S L) fm = String c v' +:+ nl +:+ rest) as Hd by (rewrite E2, <- HL; apply str_drop_app).
  unfold field_of, find_str. rewrite decide_True by lia.
  cbn [str_drop]. rewrite Hf. cbn [fmap option_fmap option_map]. rewrite Nat.add_0_l.
  replace (String.length pre + String.length (key +:+ ":")) with L
    by (unfold L; by rewrite !str_length_app).
  assert (str_drop L fm = String " " (String c v' +:+ nl +:+ rest)) as Hd0
    by (rewrite E1; apply str_drop_app).
  unfold find_if_from at 1. rewrite Hd0. cbn [find_if String.append].
  change (negb (is_blank " ")) with false. cbn [find_if].
  replace (negb (is_blank c)) with true
    by (unfold is_blank; by rewrite !eqb_false).
  cbn [fmap option_fmap option_map]. replace (L + 1) with (S L) by lia.
  assert (str_at fm (S L) = Some c) as ->.
  { unfold str_at. rewrite E2, <- HL. clear. induction (pre +:+ key +:+ ": "); [done|]. exact IHs. }
  rewrite bool_decide_eq_false_2 by (by intros [= ->]).
  unfold find_char, find_if_from. rewrite Hd.
  change (nl +:+ rest) with (String NL rest).
  rewrite (find_if_app _ (String c v') NL rest).
  - cbn [fmap option_fmap option_map]. unfold substr. rewrite Hd.
    replace (S L + String.length (String c v') - S L) with (String.length (String c v')) by lia.
    by rewrite str_take_app, Ht.
  - intros d Hd'. apply Ascii.eqb_neq. intros <-. by destruct (Hc _ Hd').
  - apply Ascii.eqb_refl.
Qed.

Lemma bare_no_nl v : bare v -> occurs NL v = false.
Proof. intros [Hc _]. destruct (occurs NL v) eqn:E; [|done]. by destruct (Hc _ E). Qed.
Lemma bare_no_colon v : bare v -> occurs ":" v = false.
Proof. intros [Hc _]. destruct (occurs ":" v) eqn:E; [|done]. by destruct (Hc _ E) as (? & ? & ? & ? & ?). Qed.

(** The two lines between the fences. *)
Definition fm_lines (name description : string) : string :=
  "name: " +:+ name +:+ nl +:+ "description: " +:+ description +:+ nl.

Lemma find_fence name description rest :
  bare name -> bare description ->
  find_sub fence (name +:+ nl) = None -> find_sub fence (description +:+ nl) = None ->
  find_sub fence (fm_lines name description +:+ fence +:+ rest)
  = Some (String.length (fm_lines name description)).
Proof.
  intros Hn Hd Hfn Hfd. unfold fm_lines. rewrite !str_app_assoc.
  unfold fence in *. change ("---" +:+ nl) with (String "-" "--" +:+ nl) in *.
  change (String "-" "--" +:+ nl) with (String "-" ("--" +:+ nl)) at 1.
  rewrite (find_sub_skip "-" _ "name: ") by done.
  change (String "-" ("--" +:+ nl)) with (String "-" "--" +:+ nl) at 1.
  rewrite find_sub_line by (done || by apply bare_no_nl).
  change (String "-" "--" +:+ nl) with (String "-" ("--" +:+ nl)) at 1.
  rewrite (find_sub_skip "-" _ "description: ") by done.
  change (String "-" ("--" +:+ nl)) with (String "-" "--" +:+ nl) at 1.
  rewrite find_sub_line by (done || by apply bare_no_nl).
  rewrite find_sub_here. cbn [fmap option_fmap option_map]. rewrite !str_length_app. f_equal.
  cbn [String.length nl]. lia.
Qed.

(** A skill file with bare name and description is read back exactly: the
    name, the description, and as body everything after the closing fence -
    whatever the body contains. *)
Theorem skill_file_roundtrip dir folder name description body :
  bare name -> bare description ->
  find_sub fence (name +:+ nl) = None -> find_sub fence (description +:+ nl) = None ->
  ParseSkillDir dir folder (Some (skill_file name description body))
  = mkSkill folder name description body dir.
Proof.
  intros Hn Hd Hfn Hfd.
  assert (skill_file name description body = fence +:+ fm_lines name description +:+ fence +:+ body)
    as Es by (unfold skill_file, fm_lines; by rewrite !str_app_assoc).
  assert (find_str fence (skill_file name description body) 0 = Some 0) as H1.
  { unfold find_str. rewrite decide_True by lia. cbn [str_drop]. rewrite Es.
    by rewrite find_sub_here. }
  assert (str_drop 4 (skill_file name description body) = fm_lines name description +:+ fence +:+ body)
    as Hdrop by (rewrite Es; reflexivity).
  assert (find_str fence (skill_file name description body) (0 + 4)
          = Some (4 + String.length (fm_lines name description))) as H2.
  { unfold find_str. rewrite decide_True.
    - cbn [Nat.add]. rewrite Hdrop, find_fence by done. done.
    - rewrite Es, !str_length_app. cbn. lia. }
  assert (frontmatter_of (skill_file name description body) = Some (fm_lines name description)) as Hf.
  { unfold frontmatter_of. rewrite H1, H2. unfold substr. cbn [Nat.add]. rewrite Hdrop.
    replace (S (S (S (S (String.length (fm_lines name description))))) - 4)
      with (String.length (fm_lines name description)) by lia. by rewrite str_take_app. }
  assert (field_of (fm_lines name description) "name" = name) as Hname.
  { apply (field_of_line "" "name" name ("description: " +:+ description +:+ nl)); [|done].
    apply (find_sub_here "name:"). }
  assert (field_of (fm_lines name description) "description" = description) as Hdesc.
  { pose proof (field_of_line ("name: " +:+ name +:+ nl) "description" description "") as Hl.
    rewrite !str_app_assoc, str_app_nil_r in Hl. apply Hl; [|done].
    change ("description" +:+ ":") with (String "d" "escription:").
    rewrite (find_sub_skip "d" _ "name: ") by done.
    change (nl +:+ ?x) with (String NL x).
    rewrite find_sub_sep; [|done|done|eapply (find_sub_none _ _ ":"); [done|by apply bare_no_colon]].
    change ("description" +:+ ": " +:+ ?x) with (String "d" "escription:" +:+ String " " x).
    rewrite find_sub_here.
    cbn [fmap option_fmap option_map]. rewrite !str_length_app. f_equal. cbn. lia. }
  unfold ParseSkillDir, ExtractFrontmatterField. rewrite Hf, Hname, Hdesc.
  assert (str_empty name = false) as -> by (by destruct Hn as (_ & (c & v & -> & _) & _)).
  f_equal. unfold skill_body_of. rewrite H1, H2, Es.
  change (4 + String.length (fm_lines name description) + 4)
    with (4 + (String.length (fm_lines name description) + 4)).
  rewrite <- str_drop_drop. change (str_drop 4 (fence +:+ ?x)) with x.
  rewrite <- str_drop_drop, str_drop_app. reflexivity.
Qed.

(** A key is also found inside a longer key: of a file that says
    [display_name] before [name], the display name is taken. *)
Lemma key_found_in_longer_key :
  field_of ("display_name: X" +:+ nl +:+ "name: Y" +:+ nl) "name" = "X".
Proof. reflexivity. Qed.

(** ** Witness *)

Ltac bare_string :=
  split; [ intros c Hc; cbn [occurs] in Hc;
           repeat (apply orb_true_iff in Hc as [Hc|Hc];
                   [apply Ascii.eqb_eq in Hc as ->; repeat split; discriminate|]); discriminate
         | split; [eexists _, _; split; [reflexivity | discriminate]|] ].

Lemma skill_file_roundtrip_witness :
  ParseSkillDir "/s/git" "git" (Some (skill_file "git" "Use git, safely" ("# Git" +:+ nl +:+ fence)))
  = mkSkill "git" "git" "Use git, safely" ("# Git" +:+ nl +:+ fence) "/s/git".
Proof.
  apply skill_file_roundtrip; [bare_string | bare_string | reflexivity | reflexivity].
  - exists "gi", "t"%char. split; [reflexivity | discriminate].
  - exists "Use git, safel", "y"%char. split; [reflexivity | discriminate].
Defined.
