(* ===== verification/TurnState.v ===== *)
(** * Progressive disclosure within a turn (src/core/turn_state_proxy.cpp,
    src/core/capability_selector.cpp, src/tools/builtin_tools/tool_search_tool.cpp,
    src/tools/builtin_tools/skill_search_tool.cpp, and the seeding at the entry of
    ReactAgentWorker::Invoke)

    [TurnState] is the per-turn state of a session.  A model is an object of
    the class [LanguageModel]; calling it changes the outside world [X]. *)
From Stdlib Require Import ZArith Lia String Ascii List.
From stdpp Require Import base decidable list strings gmap sets.
From S2P Require Import Prelude Types Encoding JsonLib ToolBase ResourceManager SkillEngine.
Open Scope Z_scope.

(** ** The turn state *)

Record TurnState := mkTurnState {
  activeSet : list string;
  loadedTools : list string;
  skillActiveSet : list string;
  activeIsFullPool_ : bool;
  skillActiveIsFullPool_ : bool
}.
Definition initial_turn : TurnState := mkTurnState [] [] [] false false.

Definition load (name : string) (ts : TurnState) : TurnState :=
  mkTurnState (sset_insert name (activeSet ts)) (sset_insert name (loadedTools ts))
    (skillActiveSet ts) (activeIsFullPool_ ts) (skillActiveIsFullPool_ ts).

(** The stubs [search] and [searchSkill]. *)
Definition search (query : string) (ts : TurnState) : list string := [].
Definition searchSkill (query : string) (ts : TurnState) : list string := [].

Definition reset (ts : TurnState) : TurnState := mkTurnState [] [] [] false false.

Definition seedActive (names : list string) (ts : TurnState) : TurnState :=
  mkTurnState (sset_insert_all names (activeSet ts)) (loadedTools ts) (skillActiveSet ts)
    true (skillActiveIsFullPool_ ts).
Definition seedActiveSubset (names : list string) (ts : TurnState) : TurnState :=
  mkTurnState (sset_insert_all names (activeSet ts)) (loadedTools ts) (skillActiveSet ts)
    false (skillActiveIsFullPool_ ts).
Definition seedSkillActive (names : list string) (ts : TurnState) : TurnState :=
  mkTurnState (activeSet ts) (loadedTools ts) (sset_insert_all names (skillActiveSet ts))
    (activeIsFullPool_ ts) true.
Definition seedSkillActiveSubset (names : list string) (ts : TurnState) : TurnState :=
  mkTurnState (activeSet ts) (loadedTools ts) (sset_insert_all names (skillActiveSet ts))
    (activeIsFullPool_ ts) false.

(** ** Recall *)

Record CapabilitySelection := mkCapabilitySelection {
  cs_tools : list string;
  cs_skills : list string
}.
Definition no_selection : CapabilitySelection := mkCapabilitySelection [] [].

(** A [Model] object: [Format] builds the request, [Invoke] sends it and returns
    the streamed chunks with the response.  [Invoke] polls [shouldCancel] as it
    likes: that is part of the world it changes. *)
Class LanguageModel (M X J : Type) := {
  model_Format : M -> string -> list Message -> list (ToolSchema J) -> outcome string;
  model_Invoke : M -> string -> X -> X * list string * outcome ModelResponse
}.

Section Recall.
Context {J : Type} `{Json J}.

Definition recall_of (j : J) : CapabilitySelection :=
  mkCapabilitySelection
    (match array_field "tools" j with Some l => string_elements l | None => [] end)
    (match array_field "skills" j with Some l => string_elements l | None => [] end).

Definition ParseRecallResponse (response : string) : CapabilitySelection :=
  match find_char "{" response 0, rfind_char "}" response with
  | Some braceStart, Some braceEnd =>
      if (braceEnd <=? braceStart)%nat then no_selection
      else match json_parse (substr response braceStart (braceEnd - braceStart + 1)) with
           | Ok j => recall_of j
           | Throw _ => no_selection
           end
  | _, _ => no_selection
  end.

Definition context_lines (sessionContext : list Message) : string :=
  string_concat
    (map (fun m => "[" +:+ m_role m +:+ "] " +:+ m_content m +:+ nl)
       (take 6 (rev sessionContext))).

Definition recall_prompt (rawQuery toolCatalog skillCatalog : string)
    (sessionContext : list Message) : string :=
  "You are a capability recall assistant. Given the user query and the conversation context, "
  +:+ "select the most relevant tools and skills from the catalogs below." +:+ nl +:+ nl
  +:+ "## Available Tools" +:+ nl +:+ toolCatalog +:+ nl +:+ nl
  +:+ (if str_empty skillCatalog then ""
       else "## Available Skills" +:+ nl +:+ skillCatalog +:+ nl +:+ nl)
  +:+ (match sessionContext with
       | [] => ""
       | _ => "## Conversation Context (most recent first)" +:+ nl
              +:+ context_lines sessionContext +:+ nl
       end)
  +:+ "## User Query" +:+ nl +:+ rawQuery +:+ nl +:+ nl
  +:+ "## Output Format" +:+ nl
  +:+ "Return ONLY a JSON object, no prose, no markdown fences:" +:+ nl
  +:+ "{" +:+ dq +:+ "tools" +:+ dq +:+ ": [" +:+ dq +:+ "tool_name1" +:+ dq +:+ ", "
  +:+ dq +:+ "tool_name2" +:+ dq +:+ ", ...], " +:+ dq +:+ "skills" +:+ dq +:+ ": [" +:+ dq
  +:+ "skill_name1" +:+ dq +:+ ", ...]}" +:+ nl
  +:+ "Rules:" +:+ nl
  +:+ "- Include only tool/skill names that exist in the catalogs above." +:+ nl
  +:+ "- Select only capabilities highly relevant to the query (and context if provided)." +:+ nl
  +:+ "- Return at most 8 tools and 5 skills." +:+ nl
  +:+ "- If nothing is relevant, return {" +:+ dq +:+ "tools" +:+ dq +:+ ": [], " +:+ dq
  +:+ "skills" +:+ dq +:+ ": []}." +:+ nl.

Context {F SF T M X : Type} `{ToolFactories F SF T J} `{LanguageModel M X J}.
(** [ResourceManager::CreateModel] on the agent's configuration ([None]: a null
    pointer). *)
Variable create_model : outcome (option M).

Definition BuildRecallPrompt (skills : option SkillEngine) (rawQuery : string)
    (sessionContext : list Message) (rm : ToolDomain F SF J)
    : ToolDomain F SF J * outcome string :=
  let visible := sset_of_list (GetAvailableTools rm) in
  let '(rm1, r) := GetToolCatalog visible NativeFc [] rm in
  (rm1, toolCatalog <-- r ;;
        Ok (recall_prompt rawQuery toolCatalog
              (match skills with Some e => GetSkillCatalog e | None => "" end) sessionContext)).

(** The exchange with the model, every failure of which is an empty selection. *)
Definition ask_recall (prompt : string) (x : X) : X * CapabilitySelection :=
  match create_model with
  | Throw _ | Ok None => (x, no_selection)
  | Ok (Some m) =>
      match model_Format m "You are a capability recall assistant."
              [text_message "user" prompt] [] with
      | Throw _ => (x, no_selection)
      | Ok body =>
          match model_Invoke m body x with
          | (x1, _, Throw _) => (x1, no_selection)
          | (x1, _, Ok resp) =>
              if String.eqb (mr_finishReason resp) "error" || str_empty (mr_content resp)
              then (x1, no_selection)
              else (x1, ParseRecallResponse (mr_content resp))
          end
      end
  end.

Definition findRelevant (skills : option SkillEngine) (rawQuery : string)
    (sessionContext : list Message) (rm : ToolDomain F SF J) (x : X)
    : ToolDomain F SF J * X * outcome CapabilitySelection :=
  match BuildRecallPrompt skills rawQuery sessionContext rm with
  | (rm1, Throw e) => (rm1, x, Throw e)
  | (rm1, Ok prompt) => let '(x1, sel) := ask_recall prompt x in (rm1, x1, Ok sel)
  end.

(** ** The two search tools

    [turnState_] and the selector are [None] when the pointer is null. *)

Definition search_request (input : string) : outcome (string * string) :=
  j <-- json_parse input ;;
  action <-- value_string "action" "" (j : J) ;;
  query <-- value_string "query" "" j ;;
  Ok (action, query).

Definition bad_json : string :=
  "Error: Invalid JSON input. Expected: {" +:+ dq +:+ "action" +:+ dq +:+ ": " +:+ dq
  +:+ "load|search" +:+ dq +:+ ", " +:+ dq +:+ "query" +:+ dq +:+ ": " +:+ dq +:+ "..." +:+ dq +:+ "}".

Definition name_list (names : list string) : string :=
  string_concat (map (fun n => "- " +:+ n +:+ nl) names).

(** The world a search tool reaches. *)
Record SearchWorld := mkSearchWorld {
  sw_turn : option TurnState;
  sw_tools : ToolDomain F SF J;
  sw_ext : X
}.

Definition tool_search_search (skills : option SkillEngine) (selector : bool) (query : string)
    (ts : TurnState) (w : SearchWorld) : SearchWorld * outcome string :=
  if activeIsFullPool_ ts then
    (w, Ok "No recall needed (all tools are already visible in the catalog). Use action='load' directly.")
  else if negb selector then (w, Ok ("No tools found for query: " +:+ query))
  else
    match findRelevant skills query [] (sw_tools w) (sw_ext w) with
    | (rm1, x1, Throw e) => (mkSearchWorld (sw_turn w) rm1 x1, Throw e)
    | (rm1, x1, Ok selection) =>
        match List.filter (fun t => negb (sset_mem t (activeSet ts))) (cs_tools selection) with
        | [] => (mkSearchWorld (sw_turn w) rm1 x1, Ok ("No tools found for query: " +:+ query))
        | newTools =>
            (mkSearchWorld (Some (seedActiveSubset newTools ts)) rm1 x1,
             Ok ("Matching tools:" +:+ nl +:+ name_list newTools +:+ nl
                 +:+ "Use action='load' with the tool name to enable it."))
        end
    end.

Definition tool_search_load (alwaysOnNames : list string) (query : string) (ts : TurnState)
    (w : SearchWorld) : SearchWorld * string :=
  if negb (HasTool query (sw_tools w)) && negb (HasSessionTool query (sw_tools w)) then
    (w, "Error: Tool '" +:+ query +:+ "' not found in the tool pool.")
  else if sset_mem query alwaysOnNames then
    (w, "Tool '" +:+ query +:+ "' is already in the FC (alwaysOn).")
  else
    (mkSearchWorld (Some (load query ts)) (sw_tools w) (sw_ext w),
     "Loaded tool '" +:+ query +:+ "'; it will be callable from the next iteration.").

(** [ToolSearchTool::Invoke]. *)
Definition tool_search (skills : option SkillEngine) (alwaysOnNames : list string)
    (selector : bool) (input : string) (w : SearchWorld) : SearchWorld * outcome string :=
  match sw_turn w with
  | None => (w, Ok "Error: tool_search turn state not initialized.")
  | Some ts =>
      match search_request input with
      | Throw _ => (w, Ok bad_json)
      | Ok (action, query) =>
          if str_empty query then (w, Ok "Error: 'query' parameter is required.")
          else if String.eqb action "load" then
            let '(w1, r) := tool_search_load alwaysOnNames query ts w in (w1, Ok r)
          else if String.eqb action "search" then
            tool_search_search skills selector query ts w
          else (w, Ok ("Error: Invalid action '" +:+ action +:+ "'. Use 'load' or 'search'."))
      end
  end.

Definition bad_skill_json : string :=
  "Error: Invalid JSON input. Expected: {" +:+ dq +:+ "action" +:+ dq +:+ ": " +:+ dq
  +:+ "search|load" +:+ dq +:+ ", " +:+ dq +:+ "query" +:+ dq +:+ ": " +:+ dq +:+ "..." +:+ dq +:+ "}".

Definition skill_matches (names : list string) : string :=
  "Matching skills:" +:+ nl +:+ name_list names +:+ nl
  +:+ "Use action='load' with the skill name to get full instructions.".

Definition skill_search_search (engine : option SkillEngine) (selector : bool) (query : string)
    (w : SearchWorld) : SearchWorld * outcome string :=
  let none_found := "No skills found for query: " +:+ query in
  match sw_turn w with
  | Some ts =>
      if skillActiveIsFullPool_ ts then
        (w, Ok "No recall needed (all skills are already visible in the catalog). Use action='load' directly.")
      else if selector then
        match findRelevant engine query [] (sw_tools w) (sw_ext w) with
        | (rm1, x1, Throw e) => (mkSearchWorld (sw_turn w) rm1 x1, Throw e)
        | (rm1, x1, Ok selection) =>
            match List.filter (fun t => negb (sset_mem t (skillActiveSet ts))) (cs_skills selection) with
            | [] => (mkSearchWorld (sw_turn w) rm1 x1, Ok none_found)
            | newSkills => (mkSearchWorld (Some (seedSkillActiveSubset newSkills ts)) rm1 x1,
                            Ok (skill_matches newSkills))
            end
        end
      else
        (w, Ok match engine with
               | None => "Error: SkillEngine not initialized."
               | Some e => match SearchSkills query e with
                           | [] => none_found | ms => skill_matches ms end
               end)
  | None =>
      (w, Ok match engine with
             | None => "Error: SkillEngine not initialized."
             | Some e => match SearchSkills query e with
                         | [] => none_found | ms => skill_matches ms end
             end)
  end.

(** [SkillSearchTool::Invoke]; the selector recalls over the same engine. *)
Definition skill_search (engine : option SkillEngine) (selector : bool) (input : string)
    (w : SearchWorld) : SearchWorld * outcome string :=
  match search_request input with
  | Throw _ => (w, Ok bad_skill_json)
  | Ok (action, query) =>
      if str_empty query then (w, Ok "Error: 'query' parameter is required.")
      else if String.eqb action "search" then skill_search_search engine selector query w
      else if String.eqb action "load" then
        (w, Ok match engine with
               | None => "Error: SkillEngine not initialized."
               | Some e => GetSkillInstructions query e
               end)
      else (w, Ok ("Error: Invalid action '" +:+ action +:+ "'. Use 'search' or 'load'."))
  end.
End Recall.

(** ** Seeding at the entry of a turn *)

Definition seed_tools (pool recalled : list string) (ts : TurnState) : TurnState :=
  match recalled with
  | [] => seedActive pool ts
  | _ => if bool_decide (sset_of_list recalled = sset_of_list pool) then seedActive pool ts
         else seedActiveSubset recalled ts
  end.
Definition seed_skills (pool recalled : list string) (ts : TurnState) : TurnState :=
  match recalled with
  | [] => seedSkillActive pool ts
  | _ => if bool_decide (sset_of_list recalled = sset_of_list pool) then seedSkillActive pool ts
         else seedSkillActiveSubset recalled ts
  end.

(** [selection] is the result of the recall under SELECTIVE, [None] under
    PROGRESSIVE. *)
Definition seed_turn (pool skillPool : list string) (selection : option CapabilitySelection)
    (ts : TurnState) : TurnState :=
  match selection with
  | Some rr => seed_skills skillPool (cs_skills rr) (seed_tools pool (cs_tools rr) (reset ts))
  | None => seedSkillActive skillPool (seedActive pool (reset ts))
  end.

(** ** Facts about seeding and recall *)

(** One side of the seeding: the flag and the names that end up active. *)
Lemma seed_side (pool recalled : list string) :
  let full := match recalled with [] => true | _ => bool_decide (sset_of_list recalled = sset_of_list pool) end in
  (full = true <-> recalled = [] \/ (forall n, n ∈ recalled <-> n ∈ pool)) /\
  (forall n, n ∈ sset_insert_all (if full then pool else recalled) []
             <-> n ∈ (if full then pool else recalled)).
Proof.
  cbv zeta. split; [|intros n; rewrite elem_of_sset_insert_all; set_solver].
  destruct recalled as [|r rs]; [tauto|].
  rewrite bool_decide_eq_true, sset_of_list_eq. split; [by right | by intros [|]].
Qed.

Lemma seed_tools_eq pool recalled ts :
  seed_tools pool recalled ts =
  let full := match recalled with [] => true | _ => bool_decide (sset_of_list recalled = sset_of_list pool) end in
  mkTurnState (sset_insert_all (if full then pool else recalled) (activeSet ts)) (loadedTools ts)
    (skillActiveSet ts) full (skillActiveIsFullPool_ ts).
Proof. unfold seed_tools. destruct recalled; [done|]. by case_bool_decide. Qed.
Lemma seed_skills_eq pool recalled ts :
  seed_skills pool recalled ts =
  let full := match recalled with [] => true | _ => bool_decide (sset_of_list recalled = sset_of_list pool) end in
  mkTurnState (activeSet ts) (loadedTools ts)
    (sset_insert_all (if full then pool else recalled) (skillActiveSet ts)) (activeIsFullPool_ ts) full.
Proof. unfold seed_skills. destruct recalled; [done|]. by case_bool_decide. Qed.

(** Seeding forgets the previous turn and preloads nothing; the full-pool
    flag is set exactly when the turn is progressive, the recall came back empty,
    or it named exactly the pool, and the active set is then the pool, otherwise
    the recalled names. *)
Theorem seed_turn_spec pool skillPool selection ts :
  let ts' := seed_turn pool skillPool selection ts in
  let tools := match selection with Some rr => cs_tools rr | None => [] end in
  let skills := match selection with Some rr => cs_skills rr | None => [] end in
  loadedTools ts' = [] /\
  (activeIsFullPool_ ts' = true <-> tools = [] \/ (forall n, n ∈ tools <-> n ∈ pool)) /\
  (forall n, n ∈ activeSet ts' <-> n ∈ (if activeIsFullPool_ ts' then pool else tools)) /\
  (skillActiveIsFullPool_ ts' = true <-> skills = [] \/ (forall n, n ∈ skills <-> n ∈ skillPool)) /\
  (forall n, n ∈ skillActiveSet ts' <-> n ∈ (if skillActiveIsFullPool_ ts' then skillPool else skills)).
Proof.
  cbv zeta. split; [destruct selection; [|done]; cbn; by rewrite seed_skills_eq, seed_tools_eq|].
  destruct selection as [[tools skills]|]; cbn [cs_tools cs_skills seed_turn].
  - rewrite seed_skills_eq, seed_tools_eq. cbn [activeIsFullPool_ activeSet skillActiveIsFullPool_ skillActiveSet reset].
    destruct (seed_side pool tools) as [? ?]. destruct (seed_side skillPool skills) as [? ?]. auto.
  - destruct (seed_side pool []) as [? ?]. destruct (seed_side skillPool []) as [? ?]. auto.
Qed.

Section RecallFacts.
Context {J : Type} `{Json J}.

(** The recall parser finds the object between arbitrary prose and
    Markdown fences, and an answer without an object is an empty selection. *)
Theorem recall_ignores_prose (pre body post : string) :
  occurs "{" pre = false -> occurs "}" post = false ->
  ParseRecallResponse (J := J) (pre +:+ "{" +:+ body +:+ "}" +:+ post)
  = match json_parse ("{" +:+ body +:+ "}") with
    | Ok j => recall_of (j : J) | Throw _ => no_selection end.
Proof.
  intros Hpre Hpost. unfold ParseRecallResponse, find_char, find_if_from.
  cbn [str_drop]. change ("{" +:+ ?x) with (String "{" x) at 1.
  rewrite (find_if_app _ pre "{").
  2:{ intros d Hd. apply eqb_false. intros <-. congruence. }
  2:{ apply Ascii.eqb_refl. }
  cbn [fmap option_fmap option_map]. unfold rfind_char.
  assert (pre +:+ "{" +:+ body +:+ "}" +:+ post = (pre +:+ "{" +:+ body) +:+ String "}" post) as E
    by (by rewrite !str_app_assoc).
  rewrite E, find_last_app.
  2:{ apply Ascii.eqb_refl. }
  2:{ intros d Hd. apply eqb_false. intros <-. congruence. }
  rewrite <- E, !str_length_app. cbn [String.length].
  destruct (Nat.leb_spec (String.length pre + (1 + String.length body)) (0 + String.length pre));
    [lia|].
  unfold substr. rewrite Nat.add_0_l, str_drop_app.
  replace (String.length pre + (1 + String.length body) - String.length pre + 1)%nat
    with (String.length ("{" +:+ body +:+ "}")) by (rewrite !str_length_app; cbn; lia).
  assert ("{" +:+ body +:+ "}" +:+ post = ("{" +:+ body +:+ "}") +:+ post) as ->
    by (by rewrite !str_app_assoc).
  by rewrite str_take_app.
Qed.
End RecallFacts.

(** ** A turn of tool calls *)

Section TurnFacts.
Context {J : Type} `{Json J} {F SF T M X : Type} `{ToolFactories F SF T J}
  `{LanguageModel M X J}.
Variable create_model : outcome (option M).

(** The catalog fills a cache and nothing else. *)
Definition same_registry (rm rm' : ToolDomain F SF J) : Prop :=
  toolFactories_ rm' = toolFactories_ rm /\
  sessionToolFactories_ rm' = sessionToolFactories_ rm.

#[global] Instance same_registry_trans : Transitive same_registry.
Proof. intros a b c [H1a H1b] [H2a H2b]. split; congruence. Qed.

Lemma cached_schema_registry n rm : same_registry rm (cached_schema n rm).1.
Proof.
  unfold cached_schema. destruct (functionCallSchemas_ rm !! n); [done|].
  by destruct (probe_schema n rm) as [[]|].
Qed.

Lemma catalog_entries_registry ns rm : same_registry rm (catalog_entries ns rm).1.
Proof.
  revert rm; induction ns as [|n ns IH]; intros rm; [done|]. cbn. unfold resolve_description.
  pose proof (cached_schema_registry n rm) as Hc. destruct (cached_schema n rm) as [rm1 [s|e]]; [|done].
  cbn. specialize (IH rm1). destruct (catalog_entries ns rm1). cbn in *. by etransitivity.
Qed.

Lemma findRelevant_registry skills q ctx rm x :
  same_registry rm (findRelevant create_model skills q ctx rm x).1.1.
Proof.
  unfold findRelevant, BuildRecallPrompt, GetToolCatalog.
  pose proof (catalog_entries_registry (sset_of_list (GetAvailableTools rm)) rm) as Hc.
  destruct (catalog_entries _ rm) as [rm1 [es|e]]; [|done]. cbn in *.
  by destruct (ask_recall create_model _ x).
Qed.

(** What one call of a search tool does to the turn state: nothing, one load, or
    a merge of recalled names on a side that was not seeded with its full pool. *)
Inductive turn_change (alwaysOn : list string) (rm : ToolDomain F SF J) (ts : TurnState)
    : TurnState -> Prop :=
  | change_none : turn_change alwaysOn rm ts ts
  | change_load n : HasTool n rm || HasSessionTool n rm = true -> n ∉ alwaysOn ->
      turn_change alwaysOn rm ts (load n ts)
  | change_tools ns : activeIsFullPool_ ts = false ->
      turn_change alwaysOn rm ts (seedActiveSubset ns ts)
  | change_skills ns : skillActiveIsFullPool_ ts = false ->
      turn_change alwaysOn rm ts (seedSkillActiveSubset ns ts).

(** The branches that leave the turn state as it was. *)
Ltac unchanged ts := cbn; split; [exists ts; split; [first [assumption | reflexivity] | by constructor] | done].

Lemma tool_search_change skills alwaysOn selector input w ts :
  sw_turn w = Some ts ->
  let w' := (tool_search create_model skills alwaysOn selector input w).1 in
  (exists ts', sw_turn w' = Some ts' /\ turn_change alwaysOn (sw_tools w) ts ts') /\
  same_registry (sw_tools w) (sw_tools w').
Proof.
  intros Ht. cbv zeta. unfold tool_search. rewrite Ht.
  destruct (search_request input) as [[action query]|e]; [|unchanged ts].
  destruct (str_empty query); [unchanged ts|]. destruct (String.eqb action "load").
  - unfold tool_search_load.
    destruct (negb (HasTool query (sw_tools w)) && negb (HasSessionTool query (sw_tools w))) eqn:Eh;
      [unchanged ts|].
    destruct (sset_mem query alwaysOn) eqn:Ea; [unchanged ts|]. cbn. split; [|done].
    eexists. split; [done|]. apply change_load; [|by apply sset_mem_false].
    by destruct (HasTool query (sw_tools w)), (HasSessionTool query (sw_tools w)).
  - destruct (String.eqb action "search"); [|unchanged ts]. unfold tool_search_search.
    destruct (activeIsFullPool_ ts) eqn:Ef; [unchanged ts|]. destruct selector; [|unchanged ts]. cbn [negb].
    pose proof (findRelevant_registry skills query [] (sw_tools w) (sw_ext w)) as Hr.
    destruct (findRelevant _ _ _ _ _ _) as [[rm1 x1] [sel|e]]; cbn in *; [|unchanged ts].
    destruct (List.filter _ (cs_tools sel)) as [|n ns] eqn:En; cbn; [unchanged ts|].
    split; [|done]. eexists. split; [done|]. by apply (change_tools _ _ _ (n :: ns)).
Qed.

Lemma skill_search_change skills alwaysOn selector input w ts :
  sw_turn w = Some ts ->
  let w' := (skill_search create_model skills selector input w).1 in
  (exists ts', sw_turn w' = Some ts' /\ turn_change alwaysOn (sw_tools w) ts ts') /\
  same_registry (sw_tools w) (sw_tools w').
Proof.
  intros Ht. cbv zeta. unfold skill_search.
  destruct (search_request input) as [[action query]|e]; [|unchanged ts].
  destruct (str_empty query); [unchanged ts|]. destruct (String.eqb action "search").
  - unfold skill_search_search. rewrite Ht.
    destruct (skillActiveIsFullPool_ ts) eqn:Ef; [unchanged ts|]. destruct selector; [|unchanged ts].
    pose proof (findRelevant_registry skills query [] (sw_tools w) (sw_ext w)) as Hr.
    destruct (findRelevant _ _ _ _ _ _) as [[rm1 x1] [sel|e]]; cbn in *; [|unchanged ts].
    destruct (List.filter _ (cs_skills sel)) as [|n ns] eqn:En; cbn; [unchanged ts|].
    split; [|done]. eexists. split; [done|]. by apply (change_skills _ _ _ (n :: ns)).
  - destruct (String.eqb action "load"); unchanged ts.
Qed.

(** A call of either tool; the engine and the selector may differ per call. *)
Inductive search_step (alwaysOn : list string) : SearchWorld -> SearchWorld -> Prop :=
  | step_tool_search skills selector input w :
      search_step alwaysOn w (tool_search create_model skills alwaysOn selector input w).1
  | step_skill_search skills selector input w :
      search_step alwaysOn w (skill_search create_model skills selector input w).1.

(** How the turn state compares to the one the turn was seeded with. *)
Record grown (alwaysOn : list string) (rm : ToolDomain F SF J) (t0 t : TurnState) : Prop := {
  grown_active : forall n, n ∈ activeSet t0 -> n ∈ activeSet t;
  grown_loaded : forall n, n ∈ loadedTools t0 -> n ∈ loadedTools t;
  grown_skills : forall n, n ∈ skillActiveSet t0 -> n ∈ skillActiveSet t;
  grown_loaded_active : forall n, n ∈ loadedTools t -> n ∈ activeSet t;
  grown_only_registered : forall n, n ∈ loadedTools t -> n ∈ loadedTools t0 \/
    (HasTool n rm || HasSessionTool n rm = true /\ n ∉ alwaysOn);
  grown_flag : activeIsFullPool_ t = activeIsFullPool_ t0;
  grown_skill_flag : skillActiveIsFullPool_ t = skillActiveIsFullPool_ t0
}.

Lemma grown_change alwaysOn rm t0 t t' :
  grown alwaysOn rm t0 t -> turn_change alwaysOn rm t t' -> grown alwaysOn rm t0 t'.
Proof.
  intros [Ha Hl Hs Hla Hr Hf Hsf] Hc.
  destruct Hc as [|n Hn Hon|ns Hfull|ns Hfull]; [by constructor|..]; constructor; cbn; try done;
    try congruence; intros k; rewrite ?elem_of_sset_insert, ?elem_of_sset_insert_all;
    try (intros Hk; naive_solver).
  all: naive_solver.
Qed.

(** C7.  Whatever a model does with [tool_search] and [skill_search] during a
    turn, the active and loaded sets only grow, every loaded tool is active, a
    tool is loaded only if it is registered and not always on, and the two
    full-pool flags keep the values the seeding gave them. *)
Theorem turn_monotone alwaysOn w0 w ts0 :
  sw_turn w0 = Some ts0 -> (forall n, n ∈ loadedTools ts0 -> n ∈ activeSet ts0) ->
  reach (search_step alwaysOn) w0 w ->
  exists ts, sw_turn w = Some ts /\ grown alwaysOn (sw_tools w0) ts0 ts.
Proof.
  intros Ht0 Hla Hr.
  enough ((exists ts, sw_turn w = Some ts /\ grown alwaysOn (sw_tools w0) ts0 ts) /\
          same_registry (sw_tools w0) (sw_tools w)) by tauto.
  refine (reach_invariant (search_step alwaysOn)
    (fun w => (exists ts, sw_turn w = Some ts /\ grown alwaysOn (sw_tools w0) ts0 ts) /\
              same_registry (sw_tools w0) (sw_tools w)) w0 _ _ w Hr).
  - split; [|done]. exists ts0. split; [done|]. constructor; auto.
  - intros w1 w2 [(ts & Hts & Hg) Hreg] Hstep.
    assert (exists ts', sw_turn w2 = Some ts' /\ turn_change alwaysOn (sw_tools w1) ts ts') as Hc.
    { destruct Hstep; [by eapply tool_search_change | by eapply skill_search_change]. }
    assert (same_registry (sw_tools w1) (sw_tools w2)) as Hr2.
    { destruct Hstep; [by eapply tool_search_change | by eapply (skill_search_change _ alwaysOn)]. }
    split; [|by etransitivity]. destruct Hc as (ts' & Hts' & Hch). exists ts'. split; [done|].
    eapply grown_change; [exact Hg|]. destruct Hreg as [E1 E2].
    destruct Hch as [|n Hn Hon| |]; [constructor| |by constructor|by constructor].
    apply change_load; [|done]. revert Hn. unfold HasTool, HasSessionTool. by rewrite E1, E2.
Qed.
End TurnFacts.

(** ** Witnesses *)

Definition echo_json : Json JsonTree.json :=
  JsonTree.instance
    [("{load}", GenNode 1 [JsonTree.entry ("action", GenLeaf (JsonTree.LString "load"));
                           JsonTree.entry ("query", GenLeaf (JsonTree.LString "grep"))]);
     ("{ls}", GenNode 1 [JsonTree.entry ("tools", GenNode 0 [GenLeaf (JsonTree.LString "ls")])])].

(** A model that answers every request with the same text. *)
#[export] Instance fixed_model : LanguageModel string unit JsonTree.json := {|
  model_Format := fun _ _ _ _ => Ok "";
  model_Invoke := fun answer _ x =>
    (x, [], Ok (mkModelResponse answer [] true "stop" false None))
|}.

Lemma recall_ignores_prose_witness :
  ParseRecallResponse (H := echo_json) ("Sure: " +:+ "{" +:+ "ls" +:+ "}" +:+ " done")
  = mkCapabilitySelection ["ls"] [].
Proof.
  rewrite (recall_ignores_prose (H := echo_json) "Sure: " "ls" " done").
  - vm_compute. reflexivity.
  - reflexivity.
  - reflexivity.
Defined.

Lemma turn_monotone_witness :
  let w0 := mkSearchWorld (Some (seed_turn ["ls"] [] None initial_turn))
              (apply_ops ex_ops empty_tools) tt in
  let w := (tool_search (H := echo_json) (Ok (Some "{ls}")) None [] true "{load}" w0).1 in
  exists ts, sw_turn w = Some ts /\
    grown [] (sw_tools w0) (seed_turn ["ls"] [] None initial_turn) ts.
Proof.
  cbn zeta. apply (turn_monotone (H := echo_json) (Ok (Some "{ls}")) []).
  - reflexivity.
  - intros n Hn. by apply not_elem_of_nil in Hn.
  - eapply reach_step; [apply reach_refl|]. apply step_tool_search.
Defined.
