(* ===== verification/ToolParser.v ===== *)
(** * Tool calls in plain text (src/utils/tool_parser.cpp)

    [ExtractJson], [ExtractAllToolCalls], [ParseAction] and [TrimStr].  The loop
    of [ExtractAllToolCalls] and the recursion of [ParseAction] run on fuel,
    [None] when it runs out: the first needs no more than the length of the
    text, the second may need any amount. *)
From Stdlib Require Import ZArith Lia String Ascii List.
From stdpp Require Import base decidable list strings gmap sets.
From S2P Require Import Prelude SkillEngine.

(** ** [ExtractJson] *)

(** The loop from position [i]; the result is the position of the brace that
    closes the object. *)
Fixpoint json_scan (s : string) (depth : Z) (inString : bool) (i : nat) : option nat :=
  match s with
  | EmptyString => None
  | String c s' =>
      if Ascii.eqb c BSLASH then
        match s' with
        | EmptyString => None
        | String _ s'' => json_scan s'' depth inString (S (S i))
        end
      else
        let inString := if Ascii.eqb c DQUOTE then negb inString else inString in
        if inString then json_scan s' depth inString (S i)
        else if Ascii.eqb c "{" then json_scan s' (depth + 1)%Z inString (S i)
        else if Ascii.eqb c "}" then
          if (depth - 1 =? 0)%Z then Some i else json_scan s' (depth - 1)%Z inString (S i)
        else json_scan s' depth inString (S i)
  end.

Definition ExtractJson (text : string) (startPos : nat) : string :=
  match str_at text startPos with
  | Some c =>
      if Ascii.eqb c "{" then
        match json_scan (str_drop startPos text) 0 false startPos with
        | Some i => substr text startPos (i - startPos + 1)
        | None => ""
        end
      else ""
  | None => ""
  end.

(** ** [ExtractAllToolCalls] *)

Record ParsedToolCall := mkParsedToolCall { pc_name : string; pc_arguments : string }.

Definition quoted (s : string) : string := dq +:+ s +:+ dq.

(** The position of the value after the key at [key]. *)
Definition value_start (json : string) (key len : nat) : option nat :=
  find_if_from (fun c => negb (is_blank c)) json (npos_succ (find_char ":" json (key + len))).

(** The text of the string that starts at [valStart], up to the next quote. *)
Definition string_value (json : string) (valStart : nat) : option string :=
  match find_char DQUOTE json (S valStart) with
  | Some e => Some (substr json (S valStart) (e - valStart - 1))
  | None => None
  end.

Definition name_value (json : string) (nameKey : nat) : string :=
  match value_start json nameKey 6 with
  | Some v => if bool_decide (str_at json v = Some DQUOTE) then default "" (string_value json v) else ""
  | None => ""
  end.

Definition arguments_value (json : string) (argsKey : nat) : string :=
  match value_start json argsKey 11 with
  | Some v =>
      match str_at json v with
      | Some c =>
          if Ascii.eqb c "{" then
            let argsObj := ExtractJson json v in
            if str_empty argsObj then "{}" else argsObj
          else if Ascii.eqb c DQUOTE then
            match string_value json v with Some s => quoted s | None => "{}" end
          else "{}"
      | None => "{}"
      end
  | None => "{}"
  end.

Definition valid_name (name : string) : bool :=
  negb (str_empty name) && (String.length name <? 50)
  && negb (occurs "{" name) && negb (occurs "}" name).

(** The call an extracted object describes, if any. *)
Definition call_of (json : string) : option ParsedToolCall :=
  match find_str (quoted "name") json 0, find_str (quoted "arguments") json 0 with
  | Some nameKey, Some argsKey =>
      let call := mkParsedToolCall (name_value json nameKey) (arguments_value json argsKey) in
      if valid_name (pc_name call) then Some call else None
  | _, _ => None
  end.

Fixpoint extract_loop (fuel : nat) (response : string) (searchPos : nat)
    : option (list ParsedToolCall) :=
  if searchPos <? String.length response then
    match fuel with
    | 0 => None
    | S fuel =>
        match find_char "{" response searchPos with
        | None => Some []
        | Some jsonStart =>
            let json := ExtractJson response jsonStart in
            if str_empty json then extract_loop fuel response (S jsonStart)
            else
              (fun calls => match call_of json with Some c => c :: calls | None => calls end)
                <$> extract_loop fuel response (jsonStart + String.length json)
        end
    end
  else Some [].

Definition ExtractAllToolCalls (response : string) : option (list ParsedToolCall) :=
  extract_loop (String.length response) response 0.

(** ** [TrimStr] *)

Definition not_space (c : ascii) : bool := negb (is_space4 c).

Definition TrimStr (str : string) : string :=
  match find_if not_space str, find_last_if not_space str with
  | Some first, Some last => substr str first (last - first + 1)
  | _, _ => ""
  end.

(** ** [ParseAction]: the name and the action input *)

(** [s.erase(0, f)] and [s.erase(l + 1)] at the first and last character that is
    not a space. *)
Definition trim_in_place (s : string) : string :=
  let s := match find_if not_space s with Some f => str_drop f s | None => s end in
  match find_last_if not_space s with Some l => str_take (S l) s | None => s end.

(** Strategy 1. *)
Definition parse_json_action (response : string) : option (string * string) :=
  match find_char "{" response 0 with
  | None => None
  | Some jsonStart =>
      let json := ExtractJson response jsonStart in
      if str_empty json then None
      else
        match find_str (quoted "name") json 0 with
        | None => None
        | Some nameKey =>
            let name := name_value json nameKey in
            if valid_name name then
              Some (name, match find_str (quoted "arguments") json 0 with
                          | Some argsKey => arguments_value json argsKey
                          | None => "{}"
                          end)
            else None
        end
  end.

Definition action_line (response : string) (actPos : nat) : string :=
  trim_in_place (substr_upto response (actPos + 7) (find_char NL response actPos)).

Definition strip_braces (name : string) : string :=
  let name := if front_is "{" name then
                match find_char "}" name 0 with Some e => str_drop (S e) name | None => name end
              else name in
  let name := if back_is "}" name then
                match rfind_char "{" name with Some b => str_take b name | None => name end
              else name in
  trim_in_place name.

Definition action_input (response : string) : string :=
  match find_str "Action Input:" response 0 with
  | None => "{}"
  | Some inputPos =>
      let input := trim_in_place
                     (substr_upto response (inputPos + 13) (find_char NL response inputPos)) in
      if str_empty input then "{}"
      else if front_is "{" input then input
      else "{" +:+ quoted "input" +:+ ": " +:+ quoted input +:+ "}"
  end.

Fixpoint ParseAction (fuel : nat) (response : string) : option (string * string) :=
  match fuel with
  | 0 => None
  | S fuel =>
      match parse_json_action response with
      | Some r => Some r
      | None =>
          match find_str "Action:" response 0 with
          | None => Some ("", "{}")
          | Some actPos =>
              let actLine := action_line response actPos in
              if front_is "{" actLine then ParseAction fuel (str_drop actPos response)
              else Some (strip_braces actLine, action_input response)
          end
      end
  end.

(** ** Facts about [ExtractJson] *)

Lemma json_scan_shift s d b i k :
  json_scan s d b (i + k) = (fun j => j + k) <$> json_scan s d b i.
Proof.
  remember (String.length s) as n eqn:Hn. revert s Hn d b i.
  induction n as [n IH] using lt_wf_ind. intros s Hn d b i.
  assert (forall s' d b i, String.length s' < n ->
    json_scan s' d b (i + k) = (fun j => j + k) <$> json_scan s' d b i) as IH' by (intros; by eapply IH).
  destruct s as [|c s]; [done|]. cbn in Hn.
  cbn [json_scan]. destruct (Ascii.eqb c BSLASH).
  { destruct s as [|c' s]; [done|]. change (S (S (i + k))) with (S (S i) + k).
    apply IH'. cbn in Hn. lia. }
  change (S (i + k)) with (S i + k).
  destruct (if Ascii.eqb c DQUOTE then negb b else b); [by apply IH'; lia|].
  destruct (Ascii.eqb c "{"); [by apply IH'; lia|].
  destruct (Ascii.eqb c "}"); [|by apply IH'; lia].
  destruct (d - 1 =? 0)%Z; [done | by apply IH'; lia].
Qed.

(** A scan that finds the end reads no further, and from a greater depth it
    goes on after the object it found. *)
Lemma json_scan_app s d b i j t k :
  (0 <= k)%Z -> (0 < d)%Z -> json_scan s d b i = Some j ->
  i <= j < i + String.length s /\ str_at s (j - i) = Some "}"%char /\
  json_scan (s +:+ t) (d + k) b i
  = if (k =? 0)%Z then Some j
    else json_scan (str_drop (S j - i) s +:+ t) k false (S j).
Proof.
  intros Hk. remember (String.length s) as n eqn:Hn. revert s Hn d b i.
  induction n as [n IH] using lt_wf_ind. intros s Hn d b i Hd.
  assert (forall s' d b i m, S (String.length s') <= n -> i = m -> (0 < d)%Z ->
    json_scan s' d b i = Some j ->
    i <= j < i + String.length s' /\ str_at s' (j - i) = Some "}"%char /\
    json_scan (s' +:+ t) (d + k) b m
    = if (k =? 0)%Z then Some j else json_scan (str_drop (S j - i) s' +:+ t) k false (S j)) as IH'.
  { intros s' d' b' i' m Hlt <- Hd' Hs. eapply IH; [| |exact Hd'|exact Hs]; [lia|done]. }
  destruct s as [|c s]; [done|]. cbn in Hn. cbn [json_scan]. change (String c s +:+ t) with (String c (s +:+ t)).
  cbn [json_scan]. destruct (Ascii.eqb c BSLASH).
  { destruct s as [|c' s]; [done|]. change (String c' s +:+ t) with (String c' (s +:+ t)).
    cbn in Hn. intros Hs. destruct (IH' s d b (S (S i)) (S (S i)) ltac:(lia) eq_refl ltac:(lia) Hs) as (H1 & H2 & H3).
    replace (j - i) with (S (S (j - S (S i)))) by lia.
    replace (S j - i) with (S (S (S j - S (S i)))) by lia. cbn [str_drop].
    split; [lia|]. split; [exact H2|]. exact H3. }
  assert (forall d' b', (0 < d')%Z -> json_scan s d' b' (S i) = Some j ->
    i <= j < i + n /\ str_at (String c s) (j - i) = Some "}"%char /\
    json_scan (s +:+ t) (d' + k) b' (S i)
    = if (k =? 0)%Z then Some j else json_scan (str_drop (S j - i) (String c s) +:+ t) k false (S j)) as Hgo.
  { intros d' b' Hd' Hs. destruct (IH' s d' b' (S i) (S i) ltac:(lia) eq_refl ltac:(lia) Hs) as (H1 & H2 & H3).
    replace (j - i) with (S (j - S i)) by lia. replace (S j - i) with (S (S j - S i)) by lia.
    cbn [str_drop]. split; [lia|]. split; [exact H2|]. exact H3. }
  destruct (if Ascii.eqb c DQUOTE then negb b else b) eqn:Eb; [by apply Hgo|].
  destruct (Ascii.eqb c "{") eqn:Eo.
  { replace (d + k + 1)%Z with (d + 1 + k)%Z by lia. apply Hgo. lia. }
  destruct (Ascii.eqb_spec c "}") as [->|]; [|by apply Hgo].
  destruct (Z.eqb_spec (d - 1) 0) as [Hd1|Hd1].
  - intros [= ->]. split; [lia|]. rewrite Nat.sub_diag. split; [done|].
    replace (S j - j) with 1 by lia. cbn [str_drop].
    replace (d + k - 1)%Z with k by lia. by destruct (k =? 0)%Z.
  - replace (d + k - 1)%Z with (d - 1 + k)%Z by lia.
    rewrite (proj2 (Z.eqb_neq (d - 1 + k) 0)) by lia. apply Hgo. lia.
Qed.

Lemma json_scan_ge s d b i m : json_scan s d b i = Some m -> i <= m.
Proof.
  change i with (0 + i). rewrite json_scan_shift. intros (? & _ & ->)%fmap_Some. lia.
Qed.

(** The scan reads nothing beyond the brace it stops at. *)
Lemma json_scan_prefix a t d b i m :
  json_scan (a +:+ t) d b i = Some m -> m < i + String.length a -> json_scan a d b i = Some m.
Proof.
  remember (String.length a) as n eqn:Hn. revert a Hn d b i.
  induction n as [n IH] using lt_wf_ind. intros a Hn d b i.
  destruct a as [|c a].
  { intros Hs%json_scan_ge Hm. cbn in Hn. lia. }
  cbn in Hn. change (String c a +:+ t) with (String c (a +:+ t)). cbn [json_scan].
  assert (forall d b, json_scan (a +:+ t) d b (S i) = Some m -> m < i + n ->
    json_scan a d b (S i) = Some m) as IH'.
  { intros d' b' Hs Hm. eapply (IH (String.length a)); [lia|done|exact Hs|lia]. }
  destruct (Ascii.eqb c BSLASH).
  { destruct a as [|c' a].
    - change ("" +:+ t) with t. destruct t as [|c'' t]; [done|].
      intros Hs%json_scan_ge Hm. cbn in Hn. lia.
    - change (String c' a +:+ t) with (String c' (a +:+ t)). cbn in Hn.
      intros Hs Hm. eapply (IH (String.length a)); [lia|done|exact Hs|lia]. }
  destruct (if Ascii.eqb c DQUOTE then negb b else b); [apply IH'|].
  destruct (Ascii.eqb c "{"); [apply IH'|].
  destruct (Ascii.eqb c "}"); [|apply IH'].
  destruct (d - 1 =? 0)%Z; [done | apply IH'].
Qed.

(** The extracted object is a piece of the text that starts and ends with a
    brace; scanning it on its own finds it again, whatever surrounds it. *)
Lemma ExtractJson_spec text p :
  ExtractJson text p = "" \/
  exists body, ExtractJson text p = "{" +:+ body /\
    str_drop p text = ("{" +:+ body) +:+ str_drop (p + S (String.length body)) text /\
    json_scan body 1 false 0 = Some (String.length body - 1) /\ body <> "".
Proof.
  unfold ExtractJson. destruct (str_at text p) as [c|] eqn:Ec; [|by left].
  destruct (Ascii.eqb_spec c "{") as [->|]; [|by left].
  assert (exists s, str_drop p text = String "{" s) as [s Es].
  { clear -Ec. revert text Ec. induction p as [|p IH]; intros [|d text] Ec; cbn in *; try done.
    - injection Ec as ->. by eexists.
    - by apply IH. }
  rewrite Es. cbn [json_scan]. change (Ascii.eqb "{" BSLASH) with false.
  change (Ascii.eqb "{" DQUOTE) with false. change (Ascii.eqb "{" "{") with true. cbn iota.
  change (0 + 1)%Z with 1%Z.
  change (json_scan s 1 false (S p)) with (json_scan s 1 false (0 + S p)). rewrite json_scan_shift.
  destruct (json_scan s 1 false 0) as [j|] eqn:Ej; [|by left].
  cbn [fmap option_fmap option_map]. right. exists (str_take (S j) s).
  destruct (json_scan_app s 1 false 0 j "" 0 ltac:(lia) ltac:(lia) Ej) as (Hj & _ & _).
  assert (String.length (str_take (S j) s) = S j) as Hl by (rewrite str_length_take; lia).
  replace (j + S p - p + 1) with (S (S j)) by lia. unfold substr. rewrite Es.
  change (str_take (S (S j)) (String "{" s)) with ("{" +:+ str_take (S j) s).
  split; [done|]. split; [|split].
  - rewrite Hl, <- str_drop_drop, Es. cbn [str_drop String.append]. by rewrite str_take_drop.
  - rewrite Hl. replace (S j - 1) with j by lia.
    rewrite <- (str_take_drop (S j) s) in Ej.
    apply (json_scan_prefix _ _ _ _ _ _ Ej). lia.
  - intros E. by rewrite E in Hl.
Qed.

Lemma ExtractJson_bound text p :
  ExtractJson text p <> "" -> p + String.length (ExtractJson text p) <= String.length text.
Proof.
  destruct (ExtractJson_spec text p) as [?|(body & -> & Hd & _ & _)]; [done|]. intros _.
  apply (f_equal String.length) in Hd. rewrite str_length_drop, str_length_app in Hd.
  cbn in *. lia.
Qed.

(** An object that extracts itself is extracted whole from any context. *)
Lemma ExtractJson_context text p obj rest :
  obj <> "" -> ExtractJson obj 0 = obj -> str_drop p text = obj +:+ rest ->
  ExtractJson text p = obj.
Proof.
  intros Hne Hobj Hd. destruct (ExtractJson_spec obj 0) as [E|(body & E & _ & Hscan & _)]; [congruence|].
  rewrite Hobj in E. subst obj.
  assert (str_at text p = Some "{"%char) as Hat.
  { clear -Hd. revert text Hd. induction p as [|p IH]; intros [|c text] Hd; cbn in *; try done.
    - by injection Hd as ->.
    - by apply IH. }
  unfold ExtractJson. rewrite Hat, Hd. change (Ascii.eqb "{" "{") with true. cbn iota.
  change (("{" +:+ body) +:+ rest) with (String "{" (body +:+ rest)).
  assert (json_scan (String "{" (body +:+ rest)) 0 false p = Some (p + String.length body)) as ->.
  { change (json_scan (String "{" (body +:+ rest)) 0 false p)
      with (json_scan (body +:+ rest) (1 + 0) false (0 + S p)).
    rewrite json_scan_shift.
    destruct (json_scan_app body 1 false 0 _ rest 0 ltac:(lia) ltac:(lia) Hscan) as (Hb & _ & ->).
    cbn [Z.eqb fmap option_fmap option_map]. f_equal. lia. }
  unfold substr. rewrite Hd. replace (p + String.length body - p + 1) with (S (String.length body)) by lia.
  change (String "{" (body +:+ rest)) with (("{" +:+ body) +:+ rest).
  apply (str_take_app ("{" +:+ body) rest).
Qed.

(** ** Facts about [ExtractAllToolCalls] *)

Lemma arguments_value_nonempty json k : arguments_value json k <> "".
Proof.
  unfold arguments_value. destruct (value_start json k 11) as [v|]; [|done].
  destruct (str_at json v) as [c|]; [|done]. destruct (Ascii.eqb c "{").
  - destruct (str_empty (ExtractJson json v)) eqn:E; [done|]. by apply str_empty_false.
  - destruct (Ascii.eqb c DQUOTE); [|done]. by destruct (string_value json v).
Qed.

Lemma extract_loop_total fuel response pos :
  String.length response - pos <= fuel ->
  exists calls, extract_loop fuel response pos = Some calls /\
    Forall (fun c => valid_name (pc_name c) = true /\ pc_arguments c <> "") calls.
Proof.
  revert pos; induction fuel as [|fuel IH]; intros pos Hf; cbn [extract_loop];
    (destruct (Nat.ltb_spec pos (String.length response)); [|by eexists]); [lia|].
  destruct (find_char "{" response pos) as [j|] eqn:Ej; [|by eexists].
  apply find_char_bound in Ej. destruct (str_empty (ExtractJson response j)) eqn:Ee.
  { apply IH. lia. }
  apply str_empty_false in Ee.
  destruct (IH (j + String.length (ExtractJson response j))) as (calls & -> & Hcalls).
  { destruct (ExtractJson response j); [done|]. cbn. lia. }
  eexists. split; [reflexivity|]. unfold call_of. repeat case_goal; try done.
  constructor; [|done]. split; [done|]. apply arguments_value_nonempty.
Qed.

(** On every response the extraction terminates, within as many iterations
    as the response has characters, and every call it returns has a usable name
    (non-empty, under 50 characters, without braces) and non-empty arguments. *)
Theorem extraction_terminates (response : string) :
  exists calls, ExtractAllToolCalls response = Some calls /\
    Forall (fun c => valid_name (pc_name c) = true /\ pc_arguments c <> "") calls.
Proof. apply extract_loop_total. lia. Qed.

(** *** Round trip *)

Definition render_call (name arguments : string) : string :=
  "{" +:+ quoted "name" +:+ ": " +:+ quoted name +:+ ", " +:+ quoted "arguments" +:+ ": "
  +:+ arguments +:+ "}".

Lemma json_scan_string q t d i :
  occurs DQUOTE q = false -> occurs BSLASH q = false ->
  json_scan (q +:+ t) d true i = json_scan t d true (i + String.length q).
Proof.
  revert i; induction q as [|c q IH]; intros i Hq Hb; [by rewrite Nat.add_0_r|].
  cbn [occurs] in Hq, Hb. apply orb_false_iff in Hq as [Hc Hq], Hb as [Hc' Hb].
  change (String c q +:+ t) with (String c (q +:+ t)). cbn [json_scan].
  rewrite (Ascii.eqb_sym c BSLASH), Hc', (Ascii.eqb_sym c DQUOTE), Hc, IH by done.
  cbn [String.length]. f_equal. lia.
Qed.

Lemma json_scan_quoted q t d i :
  occurs DQUOTE q = false -> occurs BSLASH q = false ->
  json_scan (quoted q +:+ t) d false i = json_scan t d false (i + String.length (quoted q)).
Proof.
  intros Hq Hb. unfold quoted. rewrite !str_app_assoc.
  change (json_scan (dq +:+ q +:+ dq +:+ t) d false i) with (json_scan (q +:+ dq +:+ t) d true (S i)).
  rewrite json_scan_string by done.
  change (json_scan (dq +:+ t) d true ?n) with (json_scan t d false (S n)).
  f_equal. rewrite !str_length_app. cbn. lia.
Qed.

Lemma render_call_extracts name arguments :
  occurs DQUOTE name = false -> occurs BSLASH name = false ->
  arguments <> "" -> ExtractJson arguments 0 = arguments ->
  ExtractJson (render_call name arguments) 0 = render_call name arguments.
Proof.
  intros Hq Hb Hne Ha.
  destruct (ExtractJson_spec arguments 0) as [E|(body & E & _ & Hscan & Hbody)]; [congruence|].
  rewrite Ha in E. subst arguments. unfold ExtractJson.
  change (str_at (render_call name ("{" +:+ body)) 0) with (Some "{"%char).
  change (Ascii.eqb "{" "{") with true. cbn iota. cbn [str_drop]. unfold render_call.
  change (json_scan ("{" +:+ ?s) 0 false 0) with (json_scan s 1 false 1).
  rewrite json_scan_quoted by done.
  change (json_scan (": " +:+ ?s) ?d ?b ?i) with (json_scan s d b (S (S i))).
  rewrite json_scan_quoted by done.
  change (json_scan (", " +:+ ?s) ?d ?b ?i) with (json_scan s d b (S (S i))).
  rewrite json_scan_quoted by done.
  change (json_scan (": " +:+ ?s) ?d ?b ?i) with (json_scan s d b (S (S i))).
  change (json_scan (("{" +:+ body) +:+ ?s) 1 false ?i) with (json_scan (body +:+ s) (1 + 1) false (0 + S i)).
  rewrite json_scan_shift.
  destruct (json_scan_app body 1 false 0 _ "}" 1 ltac:(lia) ltac:(lia) Hscan) as (Hlen & _ & ->).
  cbn [Z.eqb]. rewrite str_drop_ge by lia.
  change (json_scan ("" +:+ "}") 1 false ?i) with (Some i).
  cbn [fmap option_fmap option_map]. unfold substr. cbn [str_drop]. apply str_take_ge.
  rewrite !str_length_app. cbn [String.length]. unfold quoted. rewrite !str_length_app. cbn [String.length dq]. lia.
Qed.

Lemma find_sub_quote_miss p t :
  starts_with p t = false ->
  find_sub (String DQUOTE p) (String DQUOTE t) = S <$> find_sub (String DQUOTE p) t.
Proof. intros Hp. cbn [find_sub starts_with]. by rewrite Ascii.eqb_refl, Hp. Qed.

Lemma starts_with_delimited c q a t :
  occurs c q = false -> occurs c a = false ->
  starts_with (q +:+ String c "") (a +:+ String c t) = true -> q = a.
Proof.
  revert a; induction q as [|x q IH]; intros a Hq Ha.
  - destruct a as [|y a]; [done|]. cbn -[Ascii.eqb] in *. apply orb_false_iff in Ha as [-> _]. done.
  - cbn -[Ascii.eqb] in Hq. apply orb_false_iff in Hq as [Hx Hq]. destruct a as [|y a]; cbn -[Ascii.eqb].
    + rewrite Ascii.eqb_sym, Hx. done.
    + cbn -[Ascii.eqb] in Ha. apply orb_false_iff in Ha as [_ Ha].
      intros [->%Ascii.eqb_eq Hs]%andb_true_iff. f_equal. by apply IH.
Qed.

(** The value after [key ": "], when the key starts at [|pre|]. *)
Lemma value_start_at pre key c rest :
  occurs ":" key = false -> is_blank c = false ->
  value_start (pre +:+ key +:+ ": " +:+ String c rest) (String.length pre) (String.length key)
  = Some (String.length pre + String.length key + 2).
Proof.
  intros Hk Hc. unfold value_start, find_char, find_if_from.
  assert (pre +:+ key +:+ ": " +:+ String c rest = (pre +:+ key) +:+ ": " +:+ String c rest) as E1
    by (by rewrite !str_app_assoc).
  assert (pre +:+ key +:+ ": " +:+ String c rest = (pre +:+ key +:+ ":") +:+ String " " (String c rest))
    as E2 by (by rewrite !str_app_assoc).
  rewrite <- (str_length_app pre key).
  assert (str_drop (String.length (pre +:+ key)) (pre +:+ key +:+ ": " +:+ String c rest)
          = ": " +:+ String c rest) as -> by (rewrite E1; apply str_drop_app).
  change (find_if (Ascii.eqb ":") (": " +:+ ?x)) with (Some 0). cbn [fmap option_fmap option_map npos_succ].
  replace (S (String.length (pre +:+ key) + 0)) with (String.length (pre +:+ key +:+ ":"))
    by (rewrite !str_length_app; cbn; lia).
  assert (str_drop (String.length (pre +:+ key +:+ ":")) (pre +:+ key +:+ ": " +:+ String c rest)
          = String " " (String c rest)) as -> by (rewrite E2; apply str_drop_app).
  cbn [find_if]. rewrite Hc. change (is_blank " ") with true. cbn [negb fmap option_fmap option_map].
  f_equal. rewrite !str_length_app. cbn. lia.
Qed.

Lemma str_at_app a c t n : n = String.length a -> str_at (a +:+ String c t) n = Some c.
Proof. intros ->. induction a as [|x a IH]; [done|]. exact IH. Qed.

Lemma name_value_render name t :
  occurs DQUOTE name = false ->
  name_value ("{" +:+ quoted "name" +:+ ": " +:+ quoted name +:+ t) 1 = name.
Proof.
  intros Hq. unfold name_value.
  change ("{" +:+ quoted "name" +:+ ": " +:+ quoted name +:+ t)
    with ("{" +:+ quoted "name" +:+ ": " +:+ String DQUOTE ((name +:+ dq) +:+ t)).
  change (value_start ?j 1 6) with (value_start j (String.length "{") (String.length (quoted "name"))).
  rewrite (value_start_at "{" (quoted "name") DQUOTE) by done. cbn [String.length Nat.add].
  rewrite bool_decide_eq_true_2 by done. unfold string_value, find_char, find_if_from.
  rewrite str_app_assoc. change (dq +:+ t) with (String DQUOTE t).
  change (S (S (String.length (quoted "name") + 2))) with 10.
  change (S (String.length (quoted "name") + 2)) with 9.
  change (str_drop 10 ?s) with (name +:+ String DQUOTE t). rewrite find_if_app.
  - cbn [fmap option_fmap option_map default from_option]. unfold substr.
    change (str_drop 10 ?s) with (name +:+ String DQUOTE t).
    replace (10 + String.length name - 9 - 1) with (String.length name) by lia. apply str_take_app.
  - intros d Hd. apply eqb_false. intros <-. congruence.
  - apply Ascii.eqb_refl.
Qed.

Lemma find_arguments name t :
  occurs DQUOTE name = false -> name <> "arguments" ->
  find_sub (quoted "arguments") ("{" +:+ quoted "name" +:+ ": " +:+ quoted name +:+ ", "
                                 +:+ quoted "arguments" +:+ t)
  = Some (String.length name + 13).
Proof.
  intros Hq Hne.
  change (quoted "arguments") with (String DQUOTE ("arguments" +:+ dq)) at 1.
  rewrite (find_sub_skip DQUOTE _ "{") by done.
  change (quoted "name" +:+ ?s) with (String DQUOTE ("name" +:+ dq +:+ s)).
  rewrite find_sub_quote_miss by done.
  rewrite (find_sub_skip DQUOTE _ "name") by done.
  change (dq +:+ ?s) with (String DQUOTE s).
  rewrite find_sub_quote_miss by done.
  rewrite (find_sub_skip DQUOTE _ ": ") by done.
  unfold quoted at 1. rewrite !str_app_assoc.
  change (dq +:+ name +:+ ?s) with (String DQUOTE (name +:+ s)).
  rewrite find_sub_quote_miss.
  2:{ change (dq +:+ ?s) with (String DQUOTE s).
      destruct (starts_with _ _) eqn:E; [|done].
      apply (starts_with_delimited DQUOTE "arguments") in E; [congruence|done|done]. }
  rewrite (find_sub_skip DQUOTE _ name) by done.
  change (dq +:+ ", " +:+ ?s) with (String DQUOTE (", " +:+ s)).
  rewrite find_sub_quote_miss by done.
  rewrite (find_sub_skip DQUOTE _ ", ") by done.
  change (String DQUOTE ("arguments" +:+ dq)) with (quoted "arguments").
  rewrite find_sub_here. cbn [fmap option_fmap option_map String.length]. f_equal. lia.
Qed.

Lemma call_of_render name arguments :
  valid_name name = true -> occurs DQUOTE name = false -> name <> "arguments" ->
  arguments <> "" -> ExtractJson arguments 0 = arguments ->
  call_of (render_call name arguments) = Some (mkParsedToolCall name arguments).
Proof.
  intros Hv Hq Hn Hne Ha.
  destruct (ExtractJson_spec arguments 0) as [E|(body & E & _ & _ & _)]; [congruence|].
  rewrite Ha in E. unfold call_of, render_call.
  assert (find_str (quoted "name") (render_call name arguments) 0 = Some 1) as Hf1 by reflexivity.
  unfold render_call in Hf1. rewrite Hf1. unfold find_str. rewrite decide_True by lia. cbn [str_drop].
  rewrite find_arguments by done. cbn [fmap option_fmap option_map].
  rewrite name_value_render by done. cbn [pc_name]. rewrite Hv. do 2 f_equal. cbn [Nat.add].
  set (P := "{" +:+ quoted "name" +:+ ": " +:+ quoted name +:+ ", ").
  assert (String.length P = String.length name + 13) as HP.
  { unfold P, quoted. rewrite !str_length_app. cbn. lia. }
  assert ("{" +:+ quoted "name" +:+ ": " +:+ quoted name +:+ ", " +:+ quoted "arguments" +:+ ": "
          +:+ arguments +:+ "}" = P +:+ quoted "arguments" +:+ ": " +:+ String "{" (body +:+ "}")) as ->
    by (unfold P; rewrite E, !str_app_assoc; reflexivity).
  unfold arguments_value. rewrite <- HP. change 11 with (String.length (quoted "arguments")) at 1.
  rewrite value_start_at by done.
  set (v := String.length P + String.length (quoted "arguments") + 2).
  assert (str_drop v (P +:+ quoted "arguments" +:+ ": " +:+ String "{" (body +:+ "}")) = arguments +:+ "}") as Hd.
  { rewrite E. replace v with (String.length (P +:+ quoted "arguments" +:+ ": "))
      by (unfold v; rewrite !str_length_app; cbn; lia).
    change ("{" +:+ body) with (String "{" body).
    rewrite <- (str_drop_app (P +:+ quoted "arguments" +:+ ": ") (String "{" body +:+ "}")).
    by rewrite !str_app_assoc. }
  assert (str_at (P +:+ quoted "arguments" +:+ ": " +:+ String "{" (body +:+ "}")) v = Some "{"%char) as ->.
  { pose proof (str_at_app (P +:+ quoted "arguments" +:+ ": ") "{" (body +:+ "}") v) as Hs.
    rewrite !str_app_assoc in Hs. apply Hs. unfold v. rewrite !str_length_app. cbn. lia. }
  change (Ascii.eqb "{" "{") with true. cbn iota.
  rewrite (ExtractJson_context _ v arguments "}") by done.
  by rewrite (proj2 (str_empty_false arguments) Hne).
Qed.

(** C38.  A call in one fixed rendering, [render_call] - an object with the name first,
    then the arguments, which are an object with balanced braces - is extracted
    exactly, name and argument text, from any text around it that has no opening
    brace.  The name has fewer than fifty characters, none of them a quote, a
    backslash or a brace, and is not "arguments".  Other renderings are outside the claim; [extraction_misreads] shows
    two that the parser misreads. *)
Theorem rendered_call_extracted (pre post name arguments : string) :
  occurs "{" pre = false -> occurs "{" post = false ->
  valid_name name = true -> occurs DQUOTE name = false -> occurs BSLASH name = false ->
  name <> "arguments" -> arguments <> "" -> ExtractJson arguments 0 = arguments ->
  ExtractAllToolCalls (pre +:+ render_call name arguments +:+ post)
  = Some [mkParsedToolCall name arguments].
Proof.
  intros Hpre Hpost Hv Hq Hb Hn Hne Ha.
  pose proof (render_call_extracts name arguments Hq Hb Hne Ha) as Hr.
  pose proof (call_of_render name arguments Hv Hq Hn Hne Ha) as Hc.
  assert (render_call name arguments <> "") as Hrne by done.
  assert (exists r, render_call name arguments = String "{" r) as [r Er] by (by eexists).
  set (obj := render_call name arguments) in *. unfold ExtractAllToolCalls.
  set (text := pre +:+ obj +:+ post).
  assert (find_char "{" text 0 = Some (String.length pre)) as Hf.
  { unfold find_char, find_if_from, text. rewrite Er. cbn [str_drop].
    change (String "{" r +:+ post) with (String "{" (r +:+ post)).
    rewrite find_if_app; [done| |done]. intros d Hd. apply eqb_false. intros <-. congruence. }
  assert (ExtractJson text (String.length pre) = obj) as Hx.
  { eapply (ExtractJson_context _ _ _ post); [done|done|]. apply str_drop_app. }
  assert (find_char "{" text (String.length pre + String.length obj) = None) as Hf2.
  { unfold find_char, find_if_from, text. rewrite <- str_length_app, <- str_app_assoc, str_drop_app.
    enough (find_if (Ascii.eqb "{") post = None) as -> by done. clear -Hpost.
    induction post as [|c post IH]; [done|]. cbn -[Ascii.eqb] in *.
    apply orb_false_iff in Hpost as [-> Hp]. by rewrite IH. }
  assert (2 <= String.length text) as Hlen.
  { unfold text, obj, render_call. rewrite !str_length_app. cbn. lia. }
  destruct (String.length text) as [|[|fuel]] eqn:El; [lia..|].
  cbn [extract_loop]. rewrite El. cbn [Nat.ltb Nat.leb]. rewrite Hf, Hx.
  rewrite (proj2 (str_empty_false obj) Hrne), Hf2, Hc.
  match goal with |- context [if ?b then _ else _] => by destruct b end.
Qed.

(** *** What the extraction gets wrong *)

(** The extraction takes the first ["name"] and cuts string values at the
    first quote: a call whose arguments come first and have a [name] field is
    extracted under that field's value, and arguments encoded as a JSON string -
    the form the function-calling APIs use - lose everything from the first
    escaped quote on. *)
Theorem extraction_misreads :
  ExtractAllToolCalls
    ("{" +:+ quoted "arguments" +:+ ": {" +:+ quoted "name" +:+ ": " +:+ quoted "x.txt" +:+ "}, "
     +:+ quoted "name" +:+ ": " +:+ quoted "read_file" +:+ "}")
  = Some [mkParsedToolCall "x.txt" ("{" +:+ quoted "name" +:+ ": " +:+ quoted "x.txt" +:+ "}")] /\
  ExtractAllToolCalls
    ("{" +:+ quoted "name" +:+ ": " +:+ quoted "exec" +:+ ", " +:+ quoted "arguments" +:+ ": "
     +:+ dq +:+ "{" +:+ String BSLASH dq +:+ "cmd" +:+ String BSLASH dq +:+ ":"
     +:+ String BSLASH dq +:+ "ls" +:+ String BSLASH dq +:+ "}" +:+ dq +:+ "}")
  = Some [mkParsedToolCall "exec" (dq +:+ "{" +:+ String BSLASH dq)].
Proof. split; vm_compute; reflexivity. Qed.

(** When the text starts with an action line that opens with a brace but
    holds no complete call, [ParseAction] calls itself on the same text: no depth
    of recursion is enough. *)
Theorem ParseAction_diverges (response : string) :
  find_str "Action:" response 0 = Some 0 -> parse_json_action response = None ->
  front_is "{" (action_line response 0) = true ->
  forall fuel, ParseAction fuel response = None.
Proof.
  intros Hf Hp Hl fuel. induction fuel as [|fuel IH]; [done|].
  cbn [ParseAction]. by rewrite Hp, Hf, Hl.
Qed.

(** ** Witnesses *)

Definition ex_args : string := "{" +:+ quoted "path" +:+ ": " +:+ quoted "a}b" +:+ "}".

Lemma rendered_call_extracted_witness :
  ExtractAllToolCalls ("I will call: " +:+ render_call "read_file" ex_args +:+ " now }")
  = Some [mkParsedToolCall "read_file" ex_args].
Proof. apply rendered_call_extracted; try reflexivity; discriminate. Defined.

Lemma ParseAction_diverges_witness :
  ParseAction 1000 ("Action: {" +:+ quoted "tool" +:+ nl) = None.
Proof. apply ParseAction_diverges; reflexivity. Defined.
