(* ===== verification/PromptUtils.v ===== *)
(** * Prompt templates (src/utils/prompt_utils.cpp)

    [RenderPrompt] rewrites the template in place; the loop runs on fuel and the
    length of the template is enough.  A prompt resource's file is an argument:
    [None] when it cannot be opened. *)
From Stdlib Require Import ZArith Lia String Ascii List.
From stdpp Require Import base decidable list strings gmap sets.
From S2P Require Import Prelude Types.
Open Scope nat_scope.

Definition ReadFileContent (file : option string) : string := default "" file.

(** [files] is the file system the path is opened in. *)
Definition ResolvePromptResource (files : string -> option string) (r : PromptResource) : string :=
  match pr_type r with
  | FILE_PATH => ReadFileContent (files (pr_value r))
  | TEXT => pr_value r
  end.

Fixpoint render_loop (fuel : nat) (vars : gmap string string) (result : string) (pos : nat)
    : option string :=
  match find_str "{$" result pos with
  | None => Some result
  | Some pos =>
      match find_str "}" result pos with
      | None => Some result
      | Some endPos =>
          match fuel with
          | 0 => None
          | S fuel =>
              let key := substr result (pos + 2) (endPos - pos - 2) in
              let replacement := default "" (vars !! key) in
              render_loop fuel vars (str_replace result pos (endPos - pos + 1) replacement)
                (pos + String.length replacement)
          end
      end
  end.

Definition RenderPrompt (templateStr : string) (vars : gmap string string) : option string :=
  render_loop (String.length templateStr) vars templateStr 0.

(** ** A single pass over the template

    [render_rest] never looks at the text it inserts. *)

Fixpoint render_rest (fuel : nat) (vars : gmap string string) (s : string) : option string :=
  match find_sub "{$" s with
  | None => Some s
  | Some i =>
      match find_sub "}" (str_drop i s) with
      | None => Some s
      | Some j =>
          match fuel with
          | 0 => None
          | S fuel =>
              let key := substr (str_drop i s) 2 (j - 2) in
              (fun r => str_take i s +:+ default "" (vars !! key) +:+ r)
                <$> render_rest fuel vars (str_drop (i + j + 1) s)
          end
      end
  end.

Lemma str_take_app_add a n b : str_take (String.length a + n) (a +:+ b) = a +:+ str_take n b.
Proof. induction a as [|c a IH]; [done|]. cbn. by rewrite IH. Qed.
Lemma str_drop_app_add a n b : str_drop (String.length a + n) (a +:+ b) = str_drop n b.
Proof. induction a as [|c a IH]; [done|]. cbn. by rewrite IH. Qed.

Lemma find_str_app p a s n :
  n = String.length a -> find_str p (a +:+ s) n = (fun i => String.length a + i) <$> find_sub p s.
Proof.
  intros ->. unfold find_str. rewrite decide_True by (rewrite str_length_app; lia).
  by rewrite str_drop_app.
Qed.

Lemma render_loop_rest fuel vars done_ s :
  render_loop fuel vars (done_ +:+ s) (String.length done_)
  = (fun r => done_ +:+ r) <$> render_rest fuel vars s.
Proof.
  revert done_ s; induction fuel as [|fuel IH]; intros d s; cbn [render_loop render_rest];
    rewrite (find_str_app "{$" d s) by done; destruct (find_sub "{$" s) as [i|] eqn:Ei;
    cbn [fmap option_fmap option_map]; try done.
  all: pose proof (find_sub_bound _ _ _ Ei) as Hi; cbn in Hi.
  all: assert (find_str "}" (d +:+ s) (String.length d + i)
      = (fun j => String.length d + i + j) <$> find_sub "}" (str_drop i s)) as ->
    by (unfold find_str; rewrite decide_True by (rewrite str_length_app; lia);
        by rewrite str_drop_app_add).
  all: destruct (find_sub "}" (str_drop i s)) as [j|] eqn:Ej; cbn [fmap option_fmap option_map]; try done.
  pose proof (find_sub_bound _ _ _ Ej) as Hj. rewrite str_length_drop in Hj. cbn in Hj.
  assert (substr (d +:+ s) (String.length d + i + 2) (String.length d + i + j - (String.length d + i) - 2)
          = substr (str_drop i s) 2 (j - 2)) as ->.
  { unfold substr. replace (String.length d + i + 2) with (String.length d + (i + 2)) by lia.
    rewrite str_drop_app_add, str_drop_drop. f_equal. lia. }
  set (v := default "" (vars !! substr (str_drop i s) 2 (j - 2))).
  assert (str_replace (d +:+ s) (String.length d + i) (String.length d + i + j - (String.length d + i) + 1) v
          = (d +:+ str_take i s +:+ v) +:+ str_drop (i + j + 1) s) as ->.
  { unfold str_replace. rewrite str_take_app_add.
    replace (String.length d + i + (String.length d + i + j - (String.length d + i) + 1))
      with (String.length d + (i + j + 1)) by lia.
    by rewrite str_drop_app_add, !str_app_assoc. }
  replace (String.length d + i + String.length v) with (String.length (d +:+ str_take i s +:+ v)).
  2:{ rewrite !str_length_app, str_length_take. lia. }
  rewrite IH. destruct (render_rest fuel vars (str_drop (i + j + 1) s)); [|done]. cbn.
  by rewrite !str_app_assoc.
Qed.

Lemma render_rest_total fuel vars s :
  String.length s <= fuel -> exists r, render_rest fuel vars s = Some r.
Proof.
  revert s; induction fuel as [|fuel IH]; intros s Hs; cbn [render_rest].
  - destruct s; [|cbn in Hs; lia]. by eexists.
  - destruct (find_sub "{$" s) as [i|] eqn:Ei; [|by eexists].
    destruct (find_sub "}" (str_drop i s)) as [j|] eqn:Ej; [|by eexists].
    pose proof (find_sub_bound _ _ _ Ei) as Hi. cbn in Hi.
    destruct (IH (str_drop (i + j + 1) s)) as [r ->]; [rewrite str_length_drop; lia|]. by eexists.
Qed.

Lemma render_rest_fuel fuel fuel' vars s r :
  render_rest fuel vars s = Some r -> fuel <= fuel' -> render_rest fuel' vars s = Some r.
Proof.
  revert fuel' s r; induction fuel as [|fuel IH]; intros fuel' s r Hr Hle; destruct fuel' as [|fuel'];
    cbn [render_rest] in *; try lia; try done;
    destruct (find_sub "{$" s) as [i|]; try done; destruct (find_sub "}" (str_drop i s)) as [j|]; try done.
  apply fmap_Some in Hr as (q & Hq & ->). by rewrite (IH fuel' _ _ Hq) by lia.
Qed.

(** ** Templates as pieces *)

Inductive piece := Lit (s : string) | Var (key : string).
Definition source (p : piece) : string :=
  match p with Lit s => s | Var k => "{$" +:+ k +:+ "}" end.
Definition expand (vars : gmap string string) (p : piece) : string :=
  match p with Lit s => s | Var k => default "" (vars !! k) end.
Definition piece_ok (p : piece) : Prop :=
  match p with Lit s => occurs "{" s = false | Var k => occurs "}" k = false end.

Lemma find_sub_brace a b : occurs "}" a = false -> find_sub "}" (a +:+ "}" +:+ b) = Some (String.length a).
Proof.
  intros Ha. rewrite (find_sub_skip "}" "" a) by done. cbn. f_equal. lia.
Qed.

Lemma render_rest_lit fuel vars s t r :
  occurs "{" s = false -> render_rest fuel vars t = Some r ->
  render_rest fuel vars (s +:+ t) = Some (s +:+ r).
Proof.
  intros Hs. destruct fuel as [|fuel]; cbn [render_rest];
    rewrite (find_sub_skip "{" "$" s) by done;
    destruct (find_sub "{$" t) as [i|] eqn:Ei; cbn [fmap option_fmap option_map];
    try (by intros [= <-]);
    rewrite str_drop_app_add; destruct (find_sub "}" (str_drop i t)) as [j|] eqn:Ej;
    try (by intros [= <-]); try done.
  intros (q & Hq & ->)%fmap_Some. rewrite <- !Nat.add_assoc, str_drop_app_add, str_take_app_add.
  rewrite Nat.add_assoc, Hq. cbn. by rewrite !str_app_assoc.
Qed.

Lemma render_rest_var fuel vars k t r :
  occurs "}" k = false -> render_rest fuel vars t = Some r ->
  render_rest (S fuel) vars (source (Var k) +:+ t) = Some (default "" (vars !! k) +:+ r).
Proof.
  intros Hk Ht. cbn [render_rest source]. rewrite !str_app_assoc.
  rewrite (find_sub_here "{$"). cbn [str_drop].
  assert (find_sub "}" ("{$" +:+ k +:+ "}" +:+ t) = Some (S (S (String.length k)))) as ->.
  { rewrite <- (str_app_assoc "{$" k). rewrite find_sub_brace; [done|]. by rewrite occurs_app, Hk. }
  change (0 + S (S (String.length k)) + 1) with (S (S (String.length k + 1))).
  unfold substr. cbn [str_drop String.append].
  replace (S (S (String.length k)) - 2) with (String.length k) by lia. rewrite str_take_app.
  rewrite str_drop_app_add. cbn [str_drop String.append]. by rewrite Ht.
Qed.

(** Rendering a template is a single pass: for literal pieces without an
    opening brace and variables without a closing one, the result is the
    concatenation of the literals and of the variables' values - empty for an
    unknown variable, and inserted values are never expanded again, whatever they
    contain. *)
Theorem render_pieces (ps : list piece) (vars : gmap string string) :
  Forall piece_ok ps ->
  RenderPrompt (string_concat (map source ps)) vars = Some (string_concat (map (expand vars) ps)).
Proof.
  intros Hps. unfold RenderPrompt.
  pose proof (render_loop_rest (String.length (string_concat (map source ps))) vars ""
                (string_concat (map source ps))) as Hl.
  change ("" +:+ ?s) with s in Hl. cbn [String.length] in Hl. rewrite Hl. clear Hl.
  enough (render_rest (length ps) vars (string_concat (map source ps))
          = Some (string_concat (map (expand vars) ps))) as Hr.
  { destruct (render_rest_total (String.length (string_concat (map source ps))) vars
                (string_concat (map source ps))) as [r Ht]; [done|].
    rewrite Ht. cbn. f_equal.
    pose proof (render_rest_fuel _ (length ps + String.length (string_concat (map source ps))) _ _ _ Hr
                  ltac:(lia)) as H1.
    pose proof (render_rest_fuel _ (length ps + String.length (string_concat (map source ps))) _ _ _ Ht
                  ltac:(lia)) as H2.
    congruence. }
  induction Hps as [|p ps Hp Hps IH]; [done|].
  destruct p as [s|k]; cbn [map string_concat fold_right length source expand].
  - apply render_rest_lit; [done|]. eapply render_rest_fuel; [exact IH|]. lia.
  - by apply render_rest_var.
Qed.

(** Rendering terminates on every template, within as many substitutions
    as the template has characters. *)
Theorem render_terminates (templateStr : string) (vars : gmap string string) :
  exists r, RenderPrompt templateStr vars = Some r.
Proof.
  unfold RenderPrompt. pose proof (render_loop_rest (String.length templateStr) vars "" templateStr) as Hl.
  change ("" +:+ templateStr) with templateStr in Hl. cbn [String.length] in Hl. rewrite Hl.
  destruct (render_rest_total (String.length templateStr) vars templateStr) as [r ->]; [done|].
  by eexists.
Qed.

Lemma render_pieces_witness :
  RenderPrompt "You are {$id}.{$none} {$id}"
    (<["id" := "{$id} }"]> ∅) = Some "You are {$id} }. {$id} }".
Proof.
  etransitivity;
    [apply (render_pieces [Lit "You are "; Var "id"; Lit "."; Var "none"; Lit " "; Var "id"]
              (<["id" := "{$id} }"]> ∅))
    | vm_compute; reflexivity].
  repeat (apply List.Forall_cons; [reflexivity|]). apply List.Forall_nil.
Defined.
