(* ===== verification/AgentWorker.v ===== *)
(** * The worker's services (src/core/agent_worker.cpp)

    Tool names and MCP ownership, the disclosure mode, the schemas and the prompt
    sent to the model, the model call, and the execution of a tool, in a state
    monad over the session's world.  What runs outside the framework is a
    parameter: the [LanguageModel] and tool objects, the clock, the files and the
    other threads ([Environment]).  [workerEnv_] is non-null, as SessionManager
    sets it, and [GetCurrentTurnState] therefore finds the turn state. *)
From Stdlib Require Import ZArith Lia String Ascii List.
From stdpp Require Import base decidable list strings gmap sets.
From S2P Require Import Prelude Types Encoding JsonLib ContextEngine TodoList ToolBase ResourceManager SkillEngine TurnState PromptUtils.
Open Scope Z_scope.

(** ** Tool names *)

Record WorkerTools := mkWorkerTools {
  toolNames_ : list string;
  ownedMcpTools_ : list string
}.

(** [if (find(l, x) == end) l.push_back(x)]. *)
Definition push_new (l : list string) (x : string) : list string :=
  if list_has x l then l else l ++ [x].

Definition AddTools (registered : string -> bool) (names : list string) (w : WorkerTools)
    : WorkerTools :=
  mkWorkerTools (fold_left push_new (List.filter registered names) (toolNames_ w))
    (ownedMcpTools_ w).

Definition RemoveTools (names : list string) (w : WorkerTools) : WorkerTools :=
  mkWorkerTools (fold_left (fun l n => list_erase n l) names (toolNames_ w)) (ownedMcpTools_ w).

(** [currentSet] is [GetMcpToolNames()]. *)
Definition SyncMcpTools (currentSet : list string) (w : WorkerTools) : WorkerTools * nat :=
  let toAdd := List.filter (fun n => negb (list_has n (ownedMcpTools_ w))) currentSet in
  let toRemove := List.filter (fun n => negb (list_has n currentSet)) (ownedMcpTools_ w) in
  (mkWorkerTools
     (fold_left (fun l n => list_erase n l) toRemove (fold_left push_new toAdd (toolNames_ w)))
     (fold_left (fun l n => list_erase n l) toRemove (ownedMcpTools_ w ++ toAdd)),
   (length toAdd + length toRemove)%nat).

Definition MetaToolNames : list string := sset_of_list ["tool_search"; "skill_search"].
Definition ComputeAlwaysOnFor (cfg : AgentConfig) : list string :=
  sset_insert_all (alwaysOnTools cfg) MetaToolNames.

(** ** The disclosure mode *)

Definition ResolveModeByTokenBudget (tier2 tier1 schemaBudget catalogBudget : Z)
    : ToolDisclosureMode :=
  if (0 <? schemaBudget) && (schemaBudget <? tier2) then
    if (0 <? catalogBudget) && (catalogBudget <? tier1) then SELECTIVE else PROGRESSIVE
  else DISABLED.

(** ** The session's world *)

Class Environment (X : Type) := {
  now_utc : X -> string;
  now_local : X -> string;
  now_date : X -> string;
  read_file : X -> string -> option string;
  (** templates/REACT_SYSTEM.md in the current directory. *)
  fallback_template : X -> option string;
  skill_dir : X -> string -> option SkillDir;
  memory_file : X -> option string;
  (** The worker's [cancelGeneration_], which any thread may advance. *)
  cancelGeneration : X -> Z;
  (** Other threads and the clock move on between two reads. *)
  elapse : X -> X;
  (** What the session's event sink does with an event. *)
  sink_event : MemoryEvent -> X -> X * outcome unit
}.

Section Worker.
Context {J : Type} `{Json J} {F SF T M X S : Type} `{ToolFactories F SF T J}
  `{LanguageModel M X J} `{Environment X} `{ContextStorage S}.

(** What tools reach: the session's todo list and turn state, the agent's
    skills, the registry and the outside. *)
Record ToolWorld := mkToolWorld {
  tw_todo : option (list TodoItem);
  tw_turn : TurnState;
  tw_skills : option SkillEngine;
  tw_rm : ToolDomain F SF J;
  tw_ext : X
}.

Record World := mkWorld {
  w_engine : Engine S;
  w_tw : ToolWorld;
  w_tools : WorkerTools;
  w_mode : ToolDisclosureMode;
  (** What the callback has been given, oldest first. *)
  w_out : list string;
  w_fallbackCounter : Z
}.

Definition set_engine (e : Engine S) (w : World) : World :=
  mkWorld e (w_tw w) (w_tools w) (w_mode w) (w_out w) (w_fallbackCounter w).
Definition set_tw (t : ToolWorld) (w : World) : World :=
  mkWorld (w_engine w) t (w_tools w) (w_mode w) (w_out w) (w_fallbackCounter w).
Definition set_mode (m : ToolDisclosureMode) (w : World) : World :=
  mkWorld (w_engine w) (w_tw w) (w_tools w) m (w_out w) (w_fallbackCounter w).
Definition emit_all (l : list string) (w : World) : World :=
  mkWorld (w_engine w) (w_tw w) (w_tools w) (w_mode w) (w_out w ++ l) (w_fallbackCounter w).
Definition set_fallbackCounter (n : Z) (w : World) : World :=
  mkWorld (w_engine w) (w_tw w) (w_tools w) (w_mode w) (w_out w) n.
Definition set_rm (rm : ToolDomain F SF J) (t : ToolWorld) : ToolWorld :=
  mkToolWorld (tw_todo t) (tw_turn t) (tw_skills t) rm (tw_ext t).
Definition set_ext (x : X) (t : ToolWorld) : ToolWorld :=
  mkToolWorld (tw_todo t) (tw_turn t) (tw_skills t) (tw_rm t) x.
Definition set_skills (s : option SkillEngine) (t : ToolWorld) : ToolWorld :=
  mkToolWorld (tw_todo t) (tw_turn t) s (tw_rm t) (tw_ext t).
Definition set_turn (ts : TurnState) (t : ToolWorld) : ToolWorld :=
  mkToolWorld (tw_todo t) ts (tw_skills t) (tw_rm t) (tw_ext t).
Definition set_todo (l : option (list TodoItem)) (t : ToolWorld) : ToolWorld :=
  mkToolWorld l (tw_turn t) (tw_skills t) (tw_rm t) (tw_ext t).
Definition rm_of (w : World) : ToolDomain F SF J := tw_rm (w_tw w).
Definition ext_of (w : World) : X := tw_ext (w_tw w).
Definition map_tw (f : ToolWorld -> ToolWorld) (w : World) : World := set_tw (f (w_tw w)) w.

(** *** The monad

    A computation returns, throws a [std::exception], or is undefined: a null
    tool is dereferenced, or an iterator leaves its range. *)

Definition Wk (A : Type) : Type := World -> World * res A.

Definition wret {A} (a : A) : Wk A := fun w => (w, Val a).
Definition wbind {A B} (m : Wk A) (k : A -> Wk B) : Wk B := fun w =>
  match m w with
  | (w1, Val a) => k a w1
  | (w1, Exc e) => (w1, Exc e)
  | (w1, Undefined) => (w1, Undefined)
  end.
Definition wtry {A} (m : Wk A) (handler : string -> Wk A) : Wk A := fun w =>
  match m w with (w1, Exc e) => handler e w1 | r => r end.
Definition wlift {A} (o : outcome A) : Wk A := fun w =>
  match o with Ok a => (w, Val a) | Throw e => (w, Exc e) end.
Definition wget : Wk World := fun w => (w, Val w).
Definition wmodify (f : World -> World) : Wk unit := fun w => (f w, Val tt).
Definition wundef {A} : Wk A := fun w => (w, Undefined).
Notation "x <~ m ;; k" := (wbind m (fun x => k))
  (at level 100, m at next level, right associativity).
Notation "m ;;; k" := (wbind m (fun _ => k)) (at level 100, right associativity).

(** [callback(s)]. *)
Definition callback (s : string) : Wk unit := wmodify (emit_all [s]).

(** A registry call. *)
Definition on_rm {A} (f : ToolDomain F SF J -> ToolDomain F SF J * outcome A) : Wk A := fun w =>
  let '(rm1, r) := f (rm_of w) in wlift r (map_tw (set_rm rm1) w).

Variable config_ : AgentConfig.

(** *** Disclosure *)

Fixpoint schema_text (schemas : list (ToolSchema J)) : outcome string :=
  match schemas with
  | [] => Ok ""
  | s :: rest =>
      d <-- json_dump None (ts_parameters s) ;;
      t <-- schema_text rest ;;
      Ok (ts_name s +:+ ts_description s +:+ d +:+ t)
  end.

Definition ResolveByBudget (pool : list string) : Wk ToolDisclosureMode :=
  let alwaysOn := ComputeAlwaysOnFor config_ in
  let nonAlwaysOn := List.filter (fun n => negb (sset_mem n alwaysOn)) pool in
  schemas <~ on_rm (BuildToolSchemas nonAlwaysOn) ;;
  text <~ wlift (schema_text schemas) ;;
  catalog <~ on_rm (GetToolCatalog (sset_of_list pool) NativeFc []) ;;
  wret (ResolveModeByTokenBudget (EstimateTokens text) (EstimateTokens catalog)
          (toolSchemaTokenBudget config_) (toolCatalogTokenBudget config_)).

Definition is_progressive (m : ToolDisclosureMode) : bool :=
  match m with PROGRESSIVE | SELECTIVE => true | _ => false end.

(** [std::call_once] runs the resolution until it succeeds once. *)
Definition GetEffectiveMode : Wk ToolDisclosureMode :=
  w <~ wget ;;
  match w_mode w with
  | AUTO =>
      m <~ ResolveByBudget (toolNames_ (w_tools w)) ;;
      wmodify (set_mode m) ;;; wret m
  | m => wret m
  end.

Definition IsProgressiveDisclosureActive : Wk bool :=
  m <~ GetEffectiveMode ;; wret (is_progressive m).

(** The names whose schemas are sent: all of the worker's tools, or the always-on
    tools and those loaded this turn. *)
Definition fc_names (progressive : bool) (w : World) : list string :=
  if progressive
  then sset_insert_all (loadedTools (tw_turn (w_tw w))) (ComputeAlwaysOnFor config_)
  else toolNames_ (w_tools w).

Definition BuildToolSchemas : Wk (list (ToolSchema J)) :=
  progressive <~ IsProgressiveDisclosureActive ;;
  w <~ wget ;;
  on_rm (ResourceManager.BuildToolSchemas (fc_names progressive w)).

(** *** The prompt *)

Definition registered (rm : ToolDomain F SF J) (name : string) : bool :=
  HasTool name rm || HasSessionTool name rm.

Fixpoint schemas_for_query (names : list string) : Wk string :=
  match names with
  | [] => wret ""
  | name :: rest =>
      w <~ wget ;;
      s <~ (if registered (rm_of w) name then
              let '(rm1, r) := GetToolSchema name (rm_of w) in
              wmodify (map_tw (set_rm rm1)) ;;;
              match r with
              | Done (Ok schema) => wret (schema +:+ nl +:+ nl)
              | Done (Throw _) => wret ""
              | Crash => wundef
              end
            else wret "") ;;
      t <~ schemas_for_query rest ;; wret (s +:+ t)
  end.

Definition GetToolSchemaForQuery : Wk string :=
  w <~ wget ;; schemas_for_query (toolNames_ (w_tools w)).

(** The todo list of the current entry, created when it is missing. *)
Definition current_todo (t : ToolWorld) : list TodoItem := default [] (tw_todo t).

Definition GetTodoSnippet : Wk string :=
  w <~ wget ;;
  if existsb (starts_with "todo_") (toolNames_ (w_tools w)) then
    wmodify (map_tw (fun t => set_todo (Some (current_todo t)) t)) ;;;
    wret (if Empty (current_todo (w_tw w)) then "" else Render (current_todo (w_tw w)))
  else wret "".

Definition template_of (templateName : string) (x : X) : string :=
  match promptTemplates config_ !! templateName with
  | Some r => ResolvePromptResource (read_file x) r
  | None => default "" (fallback_template x)
  end.

(** The configured sub-templates override the built-in variables of the same
    name; [skills], [tools] and [memory] are set after them. *)
Definition base_vars (templateName query context : string) (x : X) : gmap string string :=
  (ResolvePromptResource (read_file x) <$> delete templateName (promptTemplates config_))
  ∪ list_to_map [("query", query); ("context", context); ("current_time", now_utc x);
                 ("session_id", cc_sessionId (contextConfig config_))].

Definition skills_var : Wk string :=
  w <~ wget ;;
  match tw_skills (w_tw w) with
  | None => wret ""
  | Some e =>
      let e1 := (SkillEngine.Load true (skill_dir (ext_of w) (rootDir_ e)) e).1 in
      wmodify (map_tw (set_skills (Some e1))) ;;;
      progressive <~ IsProgressiveDisclosureActive ;;
      wret (if progressive : bool then GetSkillCatalogFor (skillActiveSet (tw_turn (w_tw w))) e1
            else GetSkillCatalog e1)
  end.

Definition tools_var : Wk string :=
  progressive <~ IsProgressiveDisclosureActive ;;
  if progressive : bool then
    w <~ wget ;;
    let ts := tw_turn (w_tw w) in
    let alwaysOn := ComputeAlwaysOnFor config_ in
    on_rm (GetToolCatalog (sset_insert_all alwaysOn (activeSet ts))
             (if useNativeFunctionCalling (modelConfig config_) then NativeFc else PromptMode)
             (sset_insert_all alwaysOn (loadedTools ts)))
  else GetToolSchemaForQuery.

Definition memory_var (query : string) (w : World) : string :=
  let memoryContent := GetMemoryContent (memory_file (ext_of w)) (w_engine w) query in
  if str_empty memoryContent then "" else "# Long-term Memory" +:+ nl +:+ nl +:+ memoryContent.

Definition BuildPrompt (templateName query context : string) : Wk string :=
  w <~ wget ;;
  let promptTemplate := template_of templateName (ext_of w) in
  if str_empty promptTemplate then wret query
  else
    skills <~ skills_var ;;
    tools <~ tools_var ;;
    w1 <~ wget ;;
    let vars := <["memory" := memory_var query w1]> (<["tools" := tools]>
                  (<["skills" := skills]> (base_vars templateName query context (ext_of w)))) in
    todoSnippet <~ GetTodoSnippet ;;
    match RenderPrompt promptTemplate vars with
    | None => wundef
    | Some rendered =>
        wret (rendered +:+ (if str_empty todoSnippet then "" else nl +:+ nl +:+ todoSnippet))
    end.

(** *** Cancellation *)

Definition IsCancelled (myGeneration : Z) : Wk bool :=
  wmodify (map_tw (fun t => set_ext (elapse (tw_ext t)) t)) ;;;
  w <~ wget ;; wret (myGeneration <? cancelGeneration (ext_of w)).

Definition CurrentCancelGeneration : Wk Z := w <~ wget ;; wret (cancelGeneration (ext_of w)).

(** *** The model call *)

Variable create_model : outcome (option M).

Definition stream_chunks (chunks : list string) : list string :=
  map (fun c => "[STREAM]" +:+ c) (List.filter (fun c => negb (str_empty c)) chunks).

Definition finished (content reason : string) : ModelResponse :=
  mkModelResponse content [] true reason false None.

Definition CallModelStream (systemPrompt : string) (messages : list Message) (generation : Z)
    : Wk ModelResponse :=
  cancelled <~ IsCancelled generation ;;
  if cancelled : bool then wret (finished "" "cancelled")
  else
    wtry
      (model <~ wlift create_model ;;
       tools <~ BuildToolSchemas ;;
       match model with
       | None => wundef
       | Some m =>
           body <~ wlift (model_Format m systemPrompt messages tools) ;;
           w <~ wget ;;
           let '(x1, chunks, r) := model_Invoke m body (ext_of w) in
           wmodify (fun w => emit_all (stream_chunks chunks) (map_tw (set_ext x1) w)) ;;;
           wlift r
       end)
      (fun e =>
         let content := "Model Error: " +:+ e in
         wmodify (emit_all (stream_chunks [content])) ;;; wret (finished content "error")).

(** *** Tools *)

(** Invoking a tool object: what it does to its world, what it streams, and its
    result. *)
Variable tool_Invoke : T -> string -> ToolWorld -> ToolWorld * list string * outcome string.
(** The session's ask-user dispatcher and the memory runtime may be null. *)
Variable has_askUser has_memoryRuntime : bool.

Definition tool_context (progressive : bool) (w : World) : ToolBuildContext :=
  mkToolBuildContext true has_askUser has_memoryRuntime
    (match tw_skills (w_tw w) with Some _ => true | None => false end) true progressive true
    (cc_sessionId (contextConfig config_)).

Definition create_tool (toolName : string) : Wk (option T) :=
  w <~ wget ;;
  if HasSessionTool toolName (rm_of w) then
    wmodify (map_tw (fun t => set_todo (Some (current_todo t)) t)) ;;;
    progressive <~ IsProgressiveDisclosureActive ;;
    w1 <~ wget ;;
    wlift (CreateSessionTool toolName (tool_context progressive w1) (rm_of w1))
  else wlift (CreateTool toolName (rm_of w)).

Definition ExecuteTool (toolName input : string) : Wk string :=
  wtry
    (tool <~ create_tool toolName ;;
     match tool with
     | None => wundef
     | Some t =>
         w <~ wget ;;
         let '(tw1, out, r) := tool_Invoke t input (w_tw w) in
         wmodify (fun w => emit_all out (set_tw tw1 w)) ;;; wlift r
     end)
    (fun e => wret ("Error executing tool '" +:+ toolName +:+ "': " +:+ e)).
End Worker.
Arguments ToolWorld : clear implicits.
Arguments World : clear implicits.
Arguments Wk : clear implicits.
Arguments Val {A} a.
Arguments Exc {A} what.
Arguments Undefined {A}.

(** ** Facts about the tool names *)

Lemma elem_of_push_new x y l : y ∈ push_new l x <-> y ∈ l \/ y = x.
Proof.
  unfold push_new. destruct (list_has x l) eqn:E; [|set_solver].
  apply list_has_spec in E. set_solver.
Qed.
Lemma elem_of_push_all y xs l : y ∈ fold_left push_new xs l <-> y ∈ l \/ y ∈ xs.
Proof.
  revert l; induction xs as [|x xs IH]; intros l; cbn; [set_solver|].
  rewrite IH, elem_of_push_new. set_solver.
Qed.
Lemma elem_of_erase_all y xs l : y ∈ fold_left (fun l n => list_erase n l) xs l <-> y ∈ l /\ y ∉ xs.
Proof.
  revert l; induction xs as [|x xs IH]; intros l; cbn; [set_solver|].
  rewrite IH, elem_of_list_erase. set_solver.
Qed.

Lemma NoDup_push_all xs l : NoDup l -> NoDup (fold_left push_new xs l).
Proof.
  revert l; induction xs as [|x xs IH]; intros l Hl; [done|]. cbn. apply IH.
  unfold push_new. destruct (list_has x l) eqn:E; [done|].
  apply list_has_false in E. apply NoDup_app. split; [done|].
  split; [set_solver | apply NoDup_singleton].
Qed.

Lemma filter_nil_iff {A} (p : A -> bool) (l : list A) :
  List.filter p l = [] <-> forall x, x ∈ l -> p x = false.
Proof.
  induction l as [|a l IH]; cbn; [set_solver|].
  destruct (p a) eqn:E; split; intros Hl.
  - done.
  - exfalso. specialize (Hl a ltac:(left)). congruence.
  - intros x [->|Hx]%elem_of_cons; [done|]. by apply IH.
  - apply IH. intros x Hx. apply Hl. by right.
Qed.

(** Synchronising with the MCP registry makes the worker own exactly the
    registered MCP tools: the newly registered ones are offered, the ones whose
    server is gone are withdrawn - also when the worker had a tool of that name
    of its own - and every other name keeps its place.  A second call reports no
    change and makes none. *)
Theorem SyncMcpTools_spec (current : list string) (w : WorkerTools) :
  let w' := (SyncMcpTools current w).1 in
  (forall n, n ∈ ownedMcpTools_ w' <-> n ∈ current) /\
  (forall n, n ∈ toolNames_ w' <->
     (n ∈ toolNames_ w \/ (n ∈ current /\ n ∉ ownedMcpTools_ w)) /\
     ~ (n ∈ ownedMcpTools_ w /\ n ∉ current)) /\
  SyncMcpTools current w' = (w', 0%nat).
Proof.
  cbv zeta. set (w' := (SyncMcpTools current w).1).
  assert (forall n, n ∈ ownedMcpTools_ w' <-> n ∈ current) as Hown.
  { intros n. cbn. rewrite elem_of_erase_all, elem_of_app, !elem_of_filterb, !negb_true_iff,
      !list_has_false. destruct (decide (n ∈ current)), (decide (n ∈ ownedMcpTools_ w)); tauto. }
  split; [exact Hown|]. split.
  - intros n. cbn. rewrite elem_of_erase_all, elem_of_push_all, !elem_of_filterb, !negb_true_iff,
      !list_has_false. tauto.
  - unfold SyncMcpTools at 1.
    assert (List.filter (fun n => negb (list_has n (ownedMcpTools_ w'))) current = []) as ->.
    { apply filter_nil_iff. intros n Hn. apply negb_false_iff, list_has_spec, Hown, Hn. }
    assert (List.filter (fun n => negb (list_has n current)) (ownedMcpTools_ w') = []) as ->.
    { apply filter_nil_iff. intros n Hn. apply negb_false_iff, list_has_spec, Hown, Hn. }
    cbn [fold_left length Nat.add]. rewrite app_nil_r. by destruct w'.
Qed.

(** The order of the modes, from everything resident to a recalled subset. *)
Definition mode_rank (m : ToolDisclosureMode) : Z :=
  match m with DISABLED => 0 | PROGRESSIVE => 1 | SELECTIVE => 2 | AUTO => 3 end.

(** The AUTO resolution discloses less as the tools grow - more schema or
    catalog tokens never lead to a more generous mode - and with a budget it
    keeps everything resident exactly when the schemas fit. *)
Theorem ResolveModeByTokenBudget_monotone (tier2 tier1 tier2' tier1' schemaBudget catalogBudget : Z) :
  tier2 <= tier2' -> tier1 <= tier1' ->
  mode_rank (ResolveModeByTokenBudget tier2 tier1 schemaBudget catalogBudget)
  <= mode_rank (ResolveModeByTokenBudget tier2' tier1' schemaBudget catalogBudget) < 3 /\
  (0 < schemaBudget ->
   (ResolveModeByTokenBudget tier2 tier1 schemaBudget catalogBudget = DISABLED <->
    tier2 <= schemaBudget)).
Proof.
  intros H2 H1. unfold ResolveModeByTokenBudget.
  destruct (Z.ltb_spec 0 schemaBudget), (Z.ltb_spec schemaBudget tier2),
    (Z.ltb_spec schemaBudget tier2'), (Z.ltb_spec 0 catalogBudget),
    (Z.ltb_spec catalogBudget tier1), (Z.ltb_spec catalogBudget tier1'); cbn [andb mode_rank];
    (split; [lia|]); intros; (split; intros; first [done | lia]).
Qed.

Lemma ResolveModeByTokenBudget_monotone_witness :
  mode_rank (ResolveModeByTokenBudget 10 5 8 4) <= mode_rank (ResolveModeByTokenBudget 12 5 8 4) < 3 /\
  (0 < 8 -> (ResolveModeByTokenBudget 10 5 8 4 = DISABLED <-> 10 <= 8)).
Proof. apply (ResolveModeByTokenBudget_monotone 10 5 12 5 8 4); lia. Defined.

(** ** Reasoning about the monad

    [keeps f m]: running [m] leaves the part [f] of the world as it was,
    whatever the outcome. *)

Section Monad.
Context {J F SF X S : Type}.
Local Notation World := (World J F SF X S).
Local Notation Wk := (Wk J F SF X S).

Definition keeps {B A} (f : World -> B) (m : Wk A) : Prop := forall w, f (m w).1 = f w.

Lemma keeps_bind {B A C} (f : World -> B) (m : Wk A) (k : A -> Wk C) :
  keeps f m -> (forall a, keeps f (k a)) -> keeps f (wbind m k).
Proof.
  intros Hm Hk w. unfold wbind. specialize (Hm w). destruct (m w) as [w1 [a|e|]]; cbn in *; [|done..].
  by rewrite Hk.
Qed.
Lemma keeps_try {B A} (f : World -> B) (m : Wk A) (h : string -> Wk A) :
  keeps f m -> (forall e, keeps f (h e)) -> keeps f (wtry m h).
Proof.
  intros Hm Hh w. unfold wtry. specialize (Hm w). destruct (m w) as [w1 [a|e|]]; cbn in *; [done| |done].
  by rewrite Hh.
Qed.
Lemma keeps_ret {B A} (f : World -> B) (a : A) : keeps f (wret a).
Proof. done. Qed.
Lemma keeps_get {B} (f : World -> B) : keeps f wget.
Proof. done. Qed.
Lemma keeps_undef {B A} (f : World -> B) : keeps f (wundef (A := A)).
Proof. done. Qed.
Lemma keeps_lift {B A} (f : World -> B) (o : outcome A) : keeps f (wlift o).
Proof. intros w. by destruct o. Qed.
Lemma keeps_modify {B} (f : World -> B) (g : World -> World) :
  (forall w, f (g w) = f w) -> keeps f (wmodify g).
Proof. intros Hg w. apply Hg. Qed.

(** A computation that throws nothing. *)
Definition no_throw {A} (m : Wk A) : Prop := forall w e, (m w).2 <> Exc e.

Lemma no_throw_try {A} (m : Wk A) (h : string -> Wk A) :
  (forall e, no_throw (h e)) -> no_throw (wtry m h).
Proof.
  intros Hh w e. unfold wtry. destruct (m w) as [w1 [a|e1|]]; [done|apply Hh|done].
Qed.
Lemma no_throw_bind {A C} (m : Wk A) (k : A -> Wk C) :
  no_throw m -> (forall a, no_throw (k a)) -> no_throw (wbind m k).
Proof.
  intros Hm Hk w e. unfold wbind. specialize (Hm w). destruct (m w) as [w1 [a|e1|]]; cbn in *.
  - apply Hk.
  - by destruct (Hm e1).
  - done.
Qed.
Lemma no_throw_ret {A} (a : A) : no_throw (wret (J := J) (F := F) (SF := SF) (X := X) (S := S) a).
Proof. done. Qed.
Lemma no_throw_get : no_throw (wget (J := J) (F := F) (SF := SF) (X := X) (S := S)).
Proof. done. Qed.
Lemma no_throw_modify (g : World -> World) : no_throw (wmodify g).
Proof. done. Qed.

Lemma wbind_Val {A C} (m : Wk A) (k : A -> Wk C) w w2 c :
  wbind m k w = (w2, Val c) -> exists w1 a, m w = (w1, Val a) /\ k a w1 = (w2, Val c).
Proof. unfold wbind. destruct (m w) as [w1 [a|e|]]; intros E; [eauto|done..]. Qed.
End Monad.

#[export] Hint Resolve keeps_bind keeps_try keeps_ret keeps_get keeps_undef keeps_lift
  no_throw_try no_throw_bind no_throw_ret no_throw_get no_throw_modify : jw.
#[export] Hint Extern 1 (keeps _ (wmodify _)) => apply keeps_modify; reflexivity : jw.

(** Splits a computation along its structure and closes the leaves from [jw]. *)
Ltac frame :=
  repeat first
    [ progress intros
    | apply keeps_bind | apply keeps_try | apply keeps_ret | apply keeps_get | apply keeps_undef
    | apply keeps_lift | (apply keeps_modify; reflexivity)
    | solve [eauto with jw]
    | match goal with |- keeps _ (match ?x with _ => _ end) => destruct x end
    | match goal with |- keeps _ (let '(_, _) := ?x in _) => destruct x end ].

Section WorkerFacts.
Context {J : Type} `{Json J} {F SF T M X S : Type} `{ToolFactories F SF T J}
  `{LanguageModel M X J} `{Environment X} `{ContextStorage S}.
Local Notation World := (World J F SF X S).
Local Notation Wk := (Wk J F SF X S).
Local Notation ToolWorld := (ToolWorld J F SF X).
Variable config_ : AgentConfig.
Variable create_model : outcome (option M).
Variable tool_Invoke : T -> string -> ToolWorld -> ToolWorld * list string * outcome string.
Variable has_askUser has_memoryRuntime : bool.

(** Parts of the world no registry call, disclosure decision or model call
    touches. *)
Lemma keeps_on_rm {B A} (f : World -> B) (g : ToolDomain F SF J -> ToolDomain F SF J * outcome A) :
  (forall rm w, f (map_tw (set_rm rm) w) = f w) -> keeps f (on_rm g).
Proof. intros Hf w. unfold on_rm. destruct (g (rm_of w)) as [rm1 r]. rewrite keeps_lift. apply Hf. Qed.

Lemma engine_on_rm {A} (g : ToolDomain F SF J -> ToolDomain F SF J * outcome A) :
  keeps w_engine (on_rm (X := X) (S := S) g).
Proof. by apply keeps_on_rm. Qed.
#[local] Hint Resolve engine_on_rm : jw.

Lemma engine_mode : keeps w_engine (GetEffectiveMode (X := X) (S := S) config_).
Proof. unfold GetEffectiveMode, ResolveByBudget. frame. Qed.
#[local] Hint Resolve engine_mode : jw.

Lemma engine_progressive : keeps w_engine (IsProgressiveDisclosureActive (X := X) (S := S) config_).
Proof. unfold IsProgressiveDisclosureActive. frame. Qed.
#[local] Hint Resolve engine_progressive : jw.

Lemma engine_schemas : keeps w_engine (BuildToolSchemas (X := X) (S := S) config_).
Proof. unfold BuildToolSchemas. frame. Qed.
#[local] Hint Resolve engine_schemas : jw.

Lemma engine_schemas_for_query names : keeps w_engine (schemas_for_query (X := X) (S := S) names).
Proof. induction names as [|n names IH]; cbn; frame. Qed.
#[local] Hint Resolve engine_schemas_for_query : jw.

Lemma engine_prompt name query context :
  keeps w_engine (BuildPrompt (X := X) (S := S) config_ name query context).
Proof.
  unfold BuildPrompt, skills_var, tools_var, GetToolSchemaForQuery, GetTodoSnippet. frame.
Qed.

Lemma engine_call prompt messages generation :
  keeps w_engine (CallModelStream (X := X) (S := S) config_ create_model prompt messages generation).
Proof. unfold CallModelStream, IsCancelled. frame. Qed.

Lemma engine_tool name input :
  keeps w_engine (ExecuteTool (S := S) config_ tool_Invoke has_askUser has_memoryRuntime name input).
Proof. unfold ExecuteTool, create_tool. frame. Qed.

Lemma no_throw_IsCancelled generation :
  no_throw (IsCancelled (J := J) (F := F) (SF := SF) (X := X) (S := S) generation).
Proof. unfold IsCancelled. eauto with jw. Qed.

(** No failure of a model or of a tool leaves the worker as an exception:
    a model call ends in a response and a tool call in an observation, whatever
    the factories, the model and the tool throw. *)
Theorem failures_become_results prompt messages generation name input :
  no_throw (CallModelStream (S := S) config_ create_model prompt messages generation) /\
  no_throw (ExecuteTool (S := S) config_ tool_Invoke has_askUser has_memoryRuntime name input).
Proof.
  split.
  - unfold CallModelStream. apply no_throw_bind; [apply no_throw_IsCancelled|].
    intros [|]; [by eauto with jw|]. apply no_throw_try. eauto with jw.
  - unfold ExecuteTool. apply no_throw_try. eauto with jw.
Qed.

(** Once the disclosure mode is resolved, the schemas sent with a model call
    are exactly those the registered factories give for the always-on tools and
    the tools loaded this turn (for all of the worker's tools when disclosure is
    off): a tool loaded in one iteration is callable in the next. *)
Theorem offered_schemas (w : World) (schemas : list (ToolSchema J)) :
  coherent (rm_of w) -> w_mode w <> AUTO ->
  (BuildToolSchemas config_ w).2 = Val schemas ->
  forall s, s ∈ schemas <->
    exists n, probe_schema n (rm_of w) = Ok (Some s) /\
      (if is_progressive (w_mode w)
       then n ∈ ComputeAlwaysOnFor config_ \/ n ∈ loadedTools (tw_turn (w_tw w))
       else n ∈ toolNames_ (w_tools w)).
Proof.
  intros Hc Hm Hb s.
  assert (IsProgressiveDisclosureActive config_ w = (w, Val (is_progressive (w_mode w)))) as Hp.
  { unfold IsProgressiveDisclosureActive, GetEffectiveMode, wbind, wget. by destruct (w_mode w). }
  unfold BuildToolSchemas, wbind in Hb. rewrite Hp in Hb. unfold wget, on_rm in Hb.
  destruct (BuildToolSchemas_spec (fc_names config_ (is_progressive (w_mode w)) w) (rm_of w) Hc)
    as (Hr & _ & _).
  destruct (ResourceManager.BuildToolSchemas _ _) as [rm1 r]. cbn [snd] in Hr.
  assert (probe_schemas (fc_names config_ (is_progressive (w_mode w)) w) (rm_of w) = Ok schemas) as Hps.
  { rewrite <- Hr. destruct r; [by injection Hb as ->|done]. }
  assert (s ∈ schemas <-> exists n, probe_schema n (rm_of w) = Ok (Some s) /\
            n ∈ fc_names config_ (is_progressive (w_mode w)) w) as ->.
  { clear -Hps. revert schemas Hps.
    induction (fc_names config_ (is_progressive (w_mode w)) w) as [|n ns IH]; intros schemas; cbn.
    { intros [= <-]. split; [set_solver|]. intros (? & _ & ?). set_solver. }
    destruct (probe_schema n (rm_of w)) as [o|e] eqn:En; cbn; [|done].
    destruct (probe_schemas ns (rm_of w)) as [l|e]; cbn; [|done].
    intros [= <-]. specialize (IH l eq_refl). destruct o as [t|].
    - rewrite elem_of_cons, IH. split.
      + intros [->|(k & Hk & Hin)]; [exists n|exists k]; rewrite elem_of_cons; auto.
      + intros (k & Hk & [->|Hin]%elem_of_cons); [left; congruence|eauto].
    - rewrite IH. split; intros (k & Hk & Hin); exists k; (split; [done|]).
      + by right.
      + apply elem_of_cons in Hin as [->|]; [congruence|done]. }
  unfold fc_names. destruct (is_progressive (w_mode w)); [|done].
  split; intros (n & Hn & Hin); exists n; (split; [done|]);
    rewrite elem_of_sset_insert_all in *; tauto.
Qed.
End WorkerFacts.
#[export] Hint Resolve engine_on_rm engine_mode engine_progressive engine_schemas
  engine_prompt engine_call engine_tool : jw.
