(* ===== verification/ReactWorker.v ===== *)
(** * The ReAct loop (src/workers/react_worker.cpp)

    [ReactLoop] and [Invoke] over the world of AgentWorker.v.  The loop runs on
    fuel, [None] when it runs out: with a non-negative [maxIterations] that many
    rounds are enough; a negative limit means no limit. *)
From Stdlib Require Import ZArith Lia String Ascii List.
From stdpp Require Import base decidable list strings gmap sets.
From S2P Require Import Prelude Types Encoding JsonLib MemoryTypes ContextEngine TodoList ToolBase ResourceManager SkillEngine TurnState ToolParser PromptUtils AgentWorker.
Open Scope Z_scope.

Section React.
Context {J : Type} `{Json J} {F SF T M X St : Type} `{ToolFactories F SF T J}
  `{LanguageModel M X J} `{Environment X} `{ContextStorage St}.

Local Notation World := (World J F SF X St).
Local Notation Wk := (Wk J F SF X St).
Local Notation ToolWorld := (ToolWorld J F SF X).
Local Notation "x <~ m ;; k" := (wbind m (fun x => k))
  (at level 100, m at next level, right associativity).
Local Notation "m ;;; k" := (wbind m (fun _ => k)) (at level 100, right associativity).

Variable config_ : AgentConfig.
Variable create_model : outcome (option M).
Variable tool_Invoke : T -> string -> ToolWorld -> ToolWorld * list string * outcome string.
Variable has_askUser : bool.
(** [MemoryRuntime::WritePayload] of the memory runtime, if there is one. *)
Variable memory_runtime :
  option (MemoryPayloadWriteRequest J -> X -> X * outcome (MemoryPayloadWriteResult J)).

Definition MakeFallbackCallId (sessionId : string) : Wk string :=
  w <~ wget ;;
  let n := (w_fallbackCounter w + 1) mod 2 ^ 64 in
  wmodify (set_fallbackCounter n) ;;;
  wret ("call_" +:+ (if str_empty sessionId then "anon" else sessionId) +:+ "_" +:+ to_string n).

Definition EncodeToolCallTag (tc : ToolCall) : outcome string :=
  json_dump None
    (j_fields [("id", j_string (tc_id tc)); ("name", j_string (tc_name tc));
               ("arguments", match json_parse (tc_argumentsJson tc) with
                             | Ok j => (j : J)
                             | Throw _ => j_string (tc_argumentsJson tc)
                             end)]).

Definition BuildRuntimeNote (x : X) : string :=
  "[Runtime Note]" +:+ nl
  +:+ "Current Time: " +:+ now_local x +:+ " (Local Time)" +:+ nl
  +:+ "Today's Date: " +:+ now_date x +:+ nl
  +:+ "UTC Time: " +:+ now_utc x +:+ nl
  +:+ "Note: Tool results earlier in this conversation may reference older "
  +:+ "dates/times. Treat the time above as authoritative for any "
  +:+ dq +:+ "today" +:+ dq +:+ " / " +:+ dq +:+ "now" +:+ dq +:+ " references in the user's query.".

Definition status (s : string) : string := nl +:+ "[STATUS] " +:+ s +:+ nl.

(** [contextEngine->AddMessage(m)]: the engine is updated before the sink runs. *)
Definition add_message (m : Message) : Wk unit :=
  w <~ wget ;;
  let '(e1, events) := AddMessage (now_utc (ext_of w)) (w_engine w) m in
  wmodify (set_engine e1) ;;;
  match events with
  | [] => wret tt
  | ev :: _ =>
      w1 <~ wget ;;
      let '(x1, r) := sink_event ev (ext_of w1) in
      wmodify (map_tw (set_ext x1)) ;;; wlift r
  end.

(** Fallback mode: calls parsed out of the text get generated ids. *)
Fixpoint number_calls (parsed : list ParsedToolCall) : Wk (list ToolCall) :=
  match parsed with
  | [] => wret []
  | p :: rest =>
      id <~ MakeFallbackCallId (cc_sessionId (contextConfig config_)) ;;
      calls <~ number_calls rest ;;
      wret (mkToolCall id (pc_name p)
              (if str_empty (pc_arguments p) then "{}" else pc_arguments p) :: calls)
  end.

(** Calls without an id get one. *)
Fixpoint fill_ids (calls : list ToolCall) : Wk (list ToolCall) :=
  match calls with
  | [] => wret []
  | tc :: rest =>
      w <~ wget ;;
      id <~ (if str_empty (tc_id tc) then MakeFallbackCallId (cc_sessionId (e_config (w_engine w)))
             else wret (tc_id tc)) ;;
      calls <~ fill_ids rest ;;
      wret (mkToolCall id (tc_name tc) (tc_argumentsJson tc) :: calls)
  end.

Definition tool_calls_of (resp : ModelResponse) : Wk (list ToolCall) :=
  match mr_toolCalls resp with
  | [] =>
      if useNativeFunctionCalling (modelConfig config_) then wret []
      else match ExtractAllToolCalls (mr_content resp) with
           | Some parsed => calls <~ number_calls parsed ;; fill_ids calls
           | None => wundef
           end
  | calls => fill_ids calls
  end.

(** The message that records a tool's result. *)
Definition tool_message (tc : ToolCall) (content payloadRef : string) : Message :=
  mkMessage "tool" content [] (tc_id tc) (tc_name tc) payloadRef "".

(** Offloading of a large result to the memory runtime. *)
Definition offload (tc : ToolCall) (observation : string) : Wk Message :=
  match memory_runtime with
  | None => wret (tool_message tc observation "")
  | Some write =>
      w <~ wget ;;
      let request := mkMemoryPayloadWriteRequest (ac_id config_)
                       (cc_sessionId (e_config (w_engine w))) observation "tool_result"
                       (tc_id tc) (tc_name tc) (j_object ∅) in
      let '(x1, r) := write request (ext_of w) in
      wmodify (map_tw (set_ext x1)) ;;;
      result <~ wlift r ;;
      wret (if pr_offloaded result
            then tool_message tc (pr_replacementContent result) (mp_uri (pr_payload result))
            else tool_message tc observation "")
  end.

Definition run_tool (tc : ToolCall) : Wk unit :=
  tag <~ wlift (EncodeToolCallTag tc) ;;
  callback (nl +:+ "[TOOL_CALLS] " +:+ tag +:+ nl) ;;;
  observation <~ ExecuteTool config_ tool_Invoke has_askUser
                   (match memory_runtime with Some _ => true | None => false end)
                   (tc_name tc) (tc_argumentsJson tc) ;;
  callback (nl +:+ "[TOOL_RESPONSE " +:+ tc_id tc +:+ "] " +:+ observation +:+ nl) ;;;
  m <~ offload tc observation ;;
  add_message m.

Fixpoint run_tools (calls : list ToolCall) : Wk unit :=
  match calls with
  | [] => wret tt
  | tc :: rest => run_tool tc ;;; run_tools rest
  end.

(** The rest of an iteration once the model has answered; [None] is "go on". *)
Definition after_response (resp : ModelResponse) (myGeneration : Z) : Wk (option string) :=
  if String.eqb (mr_finishReason resp) "error" then
    callback (status (mr_content resp)) ;;; wret (Some "")
  else
    cancelled <~ (if String.eqb (mr_finishReason resp) "cancelled" then wret true
                  else IsCancelled myGeneration) ;;
    if cancelled : bool then callback (status "Cancelled") ;;; wret (Some "")
    else
      calls <~ tool_calls_of resp ;;
      match calls with
      | [] =>
          let finalAnswer := TrimStr (mr_content resp) in
          if str_empty finalAnswer then
            callback (status "Model returned empty response") ;;; wret (Some "")
          else
            add_message (text_message "assistant" finalAnswer) ;;;
            callback (nl +:+ "[FINAL] " +:+ finalAnswer +:+ nl) ;;;
            wret (Some finalAnswer)
      | _ =>
          add_message (mkMessage "assistant" (mr_content resp) calls "" "" "" "") ;;;
          run_tools calls ;;;
          wret None
      end.

Definition iteration_body (query : string) (iteration : Z) (myGeneration : Z)
    : Wk (option string) :=
  cancelled <~ IsCancelled myGeneration ;;
  if cancelled : bool then callback (status "Cancelled") ;;; wret (Some "")
  else
    w <~ wget ;;
    match GetContextWindow (w_engine w) with
    | None => wundef
    | Some msgHistory =>
        systemPrompt <~ BuildPrompt config_ "react_system" query "" ;;
        callback (status ("Thinking... (Iteration " +:+ to_string (iteration + 1) +:+ ")")) ;;;
        w1 <~ wget ;;
        let runtimeNote := text_message "system" (BuildRuntimeNote (ext_of w1)) in
        resp <~ CallModelStream config_ create_model systemPrompt
                  (msgHistory ++ [runtimeNote]) myGeneration ;;
        after_response resp myGeneration
    end.

Fixpoint ReactLoop (fuel : nat) (query : string) (iteration : Z) (myGeneration : Z)
    : Wk (option string) :=
  if (0 <=? maxIterations config_) && (maxIterations config_ <=? iteration) then
    callback (status "Max iterations reached") ;;; wret (Some "")
  else
    match fuel with
    | O => wret None
    | S fuel =>
        answer <~ iteration_body query iteration myGeneration ;;
        match answer with
        | Some a => wret (Some a)
        | None => ReactLoop fuel query (iteration + 1) myGeneration
        end
    end.

(** The recall at the start of a SELECTIVE turn; an exception is an empty
    selection. *)
Definition recall (query : string) : Wk CapabilitySelection :=
  w <~ wget ;;
  match GetContextWindow (w_engine w) with
  | None => wundef
  | Some sessionContext =>
      let '(rm1, x1, r) := findRelevant create_model (tw_skills (w_tw w)) query sessionContext
                             (rm_of w) (ext_of w) in
      wmodify (map_tw (fun t => set_ext x1 (set_rm rm1 t))) ;;;
      wret (match r with Ok rr => rr | Throw _ => no_selection end)
  end.

Definition seed (query : string) : Wk unit :=
  wmodify (map_tw (fun t => set_turn (reset (tw_turn t)) t)) ;;;
  w <~ wget ;;
  let pool := toolNames_ (w_tools w) in
  let skillPool := match tw_skills (w_tw w) with Some e => GetSkillIds e | None => [] end in
  mode <~ GetEffectiveMode config_ ;;
  match mode with
  | SELECTIVE =>
      rr <~ recall query ;;
      wmodify (map_tw (fun t => set_turn (seed_turn pool skillPool (Some rr) (tw_turn t)) t))
  | _ => wmodify (map_tw (fun t => set_turn (seed_turn pool skillPool None (tw_turn t)) t))
  end.

(** [ReactAgentWorker::Invoke]. *)
Definition Invoke (fuel : nat) (query : string) : Wk (option string) :=
  myGeneration <~ CurrentCancelGeneration ;;
  progressive <~ IsProgressiveDisclosureActive config_ ;;
  (if progressive : bool then seed query else wret tt) ;;;
  ReactLoop fuel query 0 myGeneration.
End React.

(** ** Facts *)

(** The messages a run of the loop adds: rounds of an assistant turn with its
    tool calls and their results, in the calls' order, and at most one final
    answer at the end. *)
Inductive transcript : list Message -> option string -> Prop :=
  | tr_open : transcript [] None
  | tr_final a : a <> ""%string -> transcript [text_message "assistant" a] (Some a)
  | tr_round content calls results rest final :
      calls <> [] -> Forall (fun tc => tc_id tc <> ""%string) calls ->
      Forall2 (fun tc m => exists c p, m = tool_message tc c p) calls results ->
      transcript rest final ->
      transcript (mkMessage "assistant" content calls "" "" "" "" :: results ++ rest) final.

(** What [AddMessage] stores of a message: it stamps it, and drops it when it is
    not valid. *)
Definition stored_as (m : Message) (s : list Message) : Prop :=
  (IsValidMessage m = true /\ exists now, s = [stamp now m]) \/ (IsValidMessage m = false /\ s = []).

Definition appended {St} (e e' : Engine St) (ms : list Message) : Prop :=
  e_config e' = e_config e /\
  exists stored, Forall2 stored_as ms stored /\
    memoryBuffer_ e' = memoryBuffer_ e ++ List.concat stored.

Lemma appended_nil {St} (e : Engine St) : appended e e [].
Proof. split; [done|]. exists []. split; [constructor|]. cbn. by rewrite app_nil_r. Qed.

Lemma appended_app {St} (e1 e2 e3 : Engine St) ms ms' :
  appended e1 e2 ms -> appended e2 e3 ms' -> appended e1 e3 (ms ++ ms').
Proof.
  intros [Hc1 (s1 & Hs1 & Hb1)] [Hc2 (s2 & Hs2 & Hb2)]. split; [congruence|].
  exists (s1 ++ s2). split; [by apply Forall2_app|].
  by rewrite Hb2, Hb1, concat_app, app_assoc.
Qed.

Section Facts.
Context {J : Type} `{Json J} {F SF T M X St : Type} `{ToolFactories F SF T J}
  `{LanguageModel M X J} `{Environment X} `{ContextStorage St}.
Local Notation World := (World J F SF X St).
Local Notation Wk := (Wk J F SF X St).
Local Notation ToolWorld := (ToolWorld J F SF X).
Variable config_ : AgentConfig.
Variable create_model : outcome (option M).
Variable tool_Invoke : T -> string -> ToolWorld -> ToolWorld * list string * outcome string.
Variable has_askUser : bool.
Variable memory_runtime :
  option (MemoryPayloadWriteRequest J -> X -> X * outcome (MemoryPayloadWriteResult J)).

Local Notation run_tool := (run_tool config_ tool_Invoke has_askUser memory_runtime).
Local Notation run_tools := (run_tools config_ tool_Invoke has_askUser memory_runtime).
Local Notation after_response := (after_response config_ tool_Invoke has_askUser memory_runtime).
Local Notation iteration_body :=
  (iteration_body config_ create_model tool_Invoke has_askUser memory_runtime).
Local Notation ReactLoop := (ReactLoop config_ create_model tool_Invoke has_askUser memory_runtime).

(** *** Termination *)

Lemma ReactLoop_fuel fuel query iteration gen (w : World) :
  0 <= maxIterations config_ -> maxIterations config_ - iteration <= Z.of_nat fuel ->
  (ReactLoop fuel query iteration gen w).2 <> Val None.
Proof.
  intros Hmax. revert iteration w; induction fuel as [|fuel IH]; intros iteration w Hf; cbn [ReactLoop].
  - destruct (Z.leb_spec 0 (maxIterations config_)), (Z.leb_spec (maxIterations config_) iteration);
      cbn [andb]; try lia. done.
  - destruct ((0 <=? maxIterations config_) && (maxIterations config_ <=? iteration)); [done|].
    unfold wbind. destruct (iteration_body query iteration gen w) as [w1 [[a|]|e|]]; try done.
    apply IH. lia.
Qed.

(** C40.  With a non-negative iteration limit the loop ends within that many
    rounds, whatever the model keeps answering: that much fuel never runs out. *)
Theorem react_terminates (query : string) (gen : Z) (w : World) :
  0 <= maxIterations config_ ->
  (ReactLoop (Z.to_nat (maxIterations config_)) query 0 gen w).2 <> Val None.
Proof. intros Hmax. apply ReactLoop_fuel; lia. Qed.

(** *** The transcript *)

Lemma keeps_eq {B A} (f : World -> B) (m : Wk A) w w' r : keeps f m -> m w = (w', r) -> f w' = f w.
Proof. intros Hk E. specialize (Hk w). by rewrite E in Hk. Qed.

Lemma add_message_appends m (w w' : World) u :
  add_message m w = (w', Val u) -> appended (w_engine w) (w_engine w') [m].
Proof.
  unfold add_message, AddMessage. intros (w1 & w0 & [= <- <-] & E)%wbind_Val.
  destruct (IsValidMessage m) eqn:Ev; cbn [negb] in E.
  - assert (appended (w_engine w)
      (mkEngine (e_config (w_engine w)) (memoryBuffer_ (w_engine w) ++ [stamp (now_utc (ext_of w)) m])
         ((fun st => SaveMessage st (stamp (now_utc (ext_of w)) m)) <$> storage_ (w_engine w))
         (memoryContextProvider_ (w_engine w)) (has_memoryEventSink_ (w_engine w))) [m]) as Ha.
    { split; [done|]. exists [[stamp (now_utc (ext_of w)) m]]. split; [|by cbn].
      constructor; [|constructor]. left. eauto. }
    apply wbind_Val in E as (w1 & ? & [= <- <-] & E).
    destruct (has_memoryEventSink_ (w_engine w)); [|by injection E as <- <-].
    apply wbind_Val in E as (w2 & w3 & [= <- <-] & E).
    destruct (sink_event _ _) as [x1 r]. apply wbind_Val in E as (w4 & ? & [= <- <-] & E).
    assert (w_engine w' = _) as -> by exact (keeps_eq w_engine (wlift r) _ _ _ (keeps_lift _ r) E).
    exact Ha.
  - apply wbind_Val in E as (w1 & ? & [= <- <-] & E). injection E as <- <-. cbn.
    split; [done|]. exists [[]]. split; [|cbn; by rewrite app_nil_r].
    constructor; [|constructor]. right. eauto.
Qed.

Lemma engine_offload tc obs :
  keeps w_engine (offload (J := J) (F := F) (SF := SF) (St := St) config_ memory_runtime tc obs).
Proof. unfold offload. frame. Qed.

Lemma offload_message tc obs (w w' : World) m :
  offload config_ memory_runtime tc obs w = (w', Val m) -> exists c p, m = tool_message tc c p.
Proof.
  unfold offload. destruct memory_runtime as [write|]; [|intros [= <- <-]; eauto].
  intros (w1 & w0 & [= <- <-] & E)%wbind_Val. destruct (write _ _) as [x1 r].
  apply wbind_Val in E as (w2 & ? & [= <- <-] & E).
  apply wbind_Val in E as (w3 & result & _ & E). injection E as <- <-.
  destruct (pr_offloaded result); eauto.
Qed.

Lemma run_tool_appends tc (w w' : World) u :
  run_tool tc w = (w', Val u) ->
  exists c p, appended (w_engine w) (w_engine w') [tool_message tc c p].
Proof.
  unfold run_tool. intros E.
  apply wbind_Val in E as (w1 & tag & E1 & E).
  apply (keeps_eq w_engine) in E1; [|apply keeps_lift].
  apply wbind_Val in E as (w2 & ? & [= <- <-] & E).
  apply wbind_Val in E as (w3 & obs & E3 & E).
  apply (keeps_eq w_engine) in E3; [|apply engine_tool].
  apply wbind_Val in E as (w4 & ? & [= <- <-] & E).
  apply wbind_Val in E as (w5 & m & E5 & E).
  destruct (offload_message _ _ _ _ _ E5) as (c & p & ->).
  apply (keeps_eq w_engine) in E5; [|apply engine_offload].
  apply add_message_appends in E. exists c, p. cbn in *. by rewrite E5, E3, E1 in E.
Qed.

Lemma run_tools_append calls (w w' : World) u :
  run_tools calls w = (w', Val u) ->
  exists results, Forall2 (fun tc m => exists c p, m = tool_message tc c p) calls results /\
    appended (w_engine w) (w_engine w') results.
Proof.
  revert w; induction calls as [|tc calls IH]; intros w; cbn [run_tools].
  { intros [= <- <-]. exists []. split; [constructor | apply appended_nil]. }
  intros (w1 & u1 & E1 & E)%wbind_Val. apply run_tool_appends in E1 as (c & p & Ha).
  apply IH in E as (results & Hr & Hb). exists (tool_message tc c p :: results).
  split; [constructor; eauto|]. exact (appended_app _ _ _ _ _ Ha Hb).
Qed.

Lemma engine_callid sid : keeps w_engine (MakeFallbackCallId (J := J) (F := F) (SF := SF) (X := X) (St := St) sid).
Proof. unfold MakeFallbackCallId. frame. Qed.
#[local] Hint Resolve engine_callid : jw.

Lemma callid_nonempty sid (w w' : World) id :
  MakeFallbackCallId sid w = (w', Val id) -> id <> ""%string.
Proof.
  unfold MakeFallbackCallId. intros (w1 & w0 & [= <- <-] & E)%wbind_Val.
  apply wbind_Val in E as (w2 & ? & _ & E). injection E as <- <-. done.
Qed.

Lemma engine_fill calls : keeps w_engine (fill_ids (J := J) (F := F) (SF := SF) (X := X) (St := St) calls).
Proof. induction calls as [|tc calls IH]; cbn; frame. Qed.
#[local] Hint Resolve engine_fill : jw.

Lemma fill_ids_nonempty calls (w w' : World) r :
  fill_ids calls w = (w', Val r) -> Forall (fun tc => tc_id tc <> ""%string) r.
Proof.
  revert w r; induction calls as [|tc calls IH]; intros w r; cbn [fill_ids].
  { intros [= <- <-]. constructor. }
  intros (w1 & w0 & [= <- <-] & E)%wbind_Val. apply wbind_Val in E as (w2 & id & E2 & E).
  apply wbind_Val in E as (w3 & rest & E3 & E). injection E as <- <-.
  constructor; [|by eapply IH]. cbn. destruct (str_empty (tc_id tc)) eqn:Ee.
  - by eapply callid_nonempty.
  - injection E2 as <- <-. by apply str_empty_false.
Qed.

Lemma engine_number parsed :
  keeps w_engine (number_calls (J := J) (F := F) (SF := SF) (X := X) (St := St) config_ parsed).
Proof. induction parsed as [|p parsed IH]; cbn; frame. Qed.
#[local] Hint Resolve engine_number : jw.

Lemma tool_calls_of_spec resp (w w' : World) calls :
  tool_calls_of config_ resp w = (w', Val calls) ->
  Forall (fun tc => tc_id tc <> ""%string) calls /\ w_engine w' = w_engine w.
Proof.
  intros E. split; [|eapply (keeps_eq w_engine); [|exact E]; unfold tool_calls_of; frame].
  unfold tool_calls_of in E. destruct (mr_toolCalls resp) as [|tc tcs].
  - destruct (useNativeFunctionCalling (modelConfig config_)); [by injection E as <- <-|].
    destruct (ExtractAllToolCalls (mr_content resp)) as [parsed|]; [|done].
    apply wbind_Val in E as (w1 & cs & _ & E). by eapply fill_ids_nonempty.
  - by eapply fill_ids_nonempty.
Qed.

(** What one iteration adds. *)
Lemma iteration_appends query iteration gen (w w' : World) r :
  iteration_body query iteration gen w = (w', Val r) ->
  exists ms, appended (w_engine w) (w_engine w') ms /\
    match r with
    | Some a => (a = ""%string /\ ms = []) \/ (a <> ""%string /\ ms = [text_message "assistant" a])
    | None => exists content calls results, calls <> [] /\
        Forall (fun tc => tc_id tc <> ""%string) calls /\
        Forall2 (fun tc m => exists c p, m = tool_message tc c p) calls results /\
        ms = mkMessage "assistant" content calls "" "" "" "" :: results
    end.
Proof.
  assert (forall w w' : World, w_engine w' = w_engine w -> exists ms, appended (w_engine w) (w_engine w') ms
    /\ ((""%string = ""%string /\ ms = []) \/ (""%string <> ""%string /\ ms = [text_message "assistant" ""])))
    as Hstop.
  { intros v v' ->. exists []. split; [apply appended_nil | by left]. }
  unfold iteration_body. intros (w1 & [|] & E1 & E)%wbind_Val.
  { apply wbind_Val in E as (w2 & ? & [= <- <-] & E). injection E as <- <-. apply Hstop.
    apply (keeps_eq w_engine) in E1; [exact E1 | unfold IsCancelled; frame]. }
  apply (keeps_eq w_engine) in E1; [|unfold IsCancelled; frame].
  apply wbind_Val in E as (w2 & w3 & [= <- <-] & E).
  destruct (GetContextWindow (w_engine w1)) as [hist|]; [|done].
  apply wbind_Val in E as (w4 & prompt & E4 & E).
  apply (keeps_eq w_engine) in E4; [|apply engine_prompt].
  apply wbind_Val in E as (w5 & ? & [= <- <-] & E).
  apply wbind_Val in E as (w6 & w7 & [= <- <-] & E).
  apply wbind_Val in E as (w8 & resp & E8 & E).
  apply (keeps_eq w_engine) in E8; [|apply engine_call].
  assert (w_engine w8 = w_engine w) as <- by (rewrite E8; cbn; congruence).
  clear E1 E4 E8. unfold after_response in E.
  destruct (String.eqb (mr_finishReason resp) "error").
  { apply wbind_Val in E as (w9 & ? & [= <- <-] & E). injection E as <- <-. by apply Hstop. }
  apply wbind_Val in E as (w9 & c & E9 & E).
  assert (w_engine w9 = w_engine w8) as <-.
  { eapply (keeps_eq w_engine); [|exact E9]. unfold IsCancelled.
    destruct (String.eqb _ _); frame. }
  destruct c.
  { apply wbind_Val in E as (w10 & ? & [= <- <-] & E). injection E as <- <-. by apply Hstop. }
  apply wbind_Val in E as (w10 & calls & E10 & E).
  destruct (tool_calls_of_spec _ _ _ _ E10) as [Hids He]. rewrite <- He.
  destruct calls as [|tc calls].
  - destruct (str_empty (TrimStr (mr_content resp))) eqn:Et.
    { apply wbind_Val in E as (w11 & ? & [= <- <-] & E). injection E as <- <-. by apply Hstop. }
    apply wbind_Val in E as (w11 & ? & E11 & E). apply add_message_appends in E11.
    apply wbind_Val in E as (w12 & ? & [= <- <-] & E). injection E as <- <-.
    eexists. split; [exact E11|]. right. split; [by apply str_empty_false | done].
  - apply wbind_Val in E as (w11 & ? & E11 & E). apply add_message_appends in E11.
    apply wbind_Val in E as (w12 & ? & E12 & E). injection E as <- <-.
    apply run_tools_append in E12 as (results & Hr & Ha).
    eexists. split; [exact (appended_app _ _ _ _ _ E11 Ha)|].
    exists (mr_content resp), (tc :: calls), results. cbn. split; [done|]. by split.
Qed.

Lemma engine_seed query :
  keeps w_engine (seed (F := F) (SF := SF) (St := St) config_ create_model query).
Proof.
  unfold seed, recall. frame.
Qed.

(** What a run of the loop adds to the conversation is a transcript. *)
Lemma loop_transcript (fuel : nat) (query : string) (iteration gen : Z) (w w' : World)
    (answer : string) :
  ReactLoop fuel query iteration gen w = (w', Val (Some answer)) ->
  exists ms, appended (w_engine w) (w_engine w') ms /\
    transcript ms (if str_empty answer then None else Some answer).
Proof.
  revert iteration w; induction fuel as [|fuel IH]; intros iteration w; cbn [ReactLoop].
  - destruct (_ && _); [|done]. intros (w1 & ? & [= <- <-] & E)%wbind_Val. injection E as <- <-.
    exists []. split; [apply appended_nil | constructor].
  - destruct (_ && _).
    { intros (w1 & ? & [= <- <-] & E)%wbind_Val. injection E as <- <-.
      exists []. split; [apply appended_nil | constructor]. }
    intros (w1 & r & E1 & E)%wbind_Val. apply iteration_appends in E1 as (ms & Ha & Hr).
    destruct r as [a|].
    + injection E as <- ->. exists ms. split; [done|].
      destruct Hr as [[-> ->]|[Ha' ->]]; [constructor|].
      rewrite (proj2 (str_empty_false answer) Ha'). by constructor.
    + destruct Hr as (content & calls & results & Hne & Hids & Hres & ->).
      apply IH in E as (ms' & Ha' & Ht). eexists. split; [exact (appended_app _ _ _ _ _ Ha Ha')|].
      cbn. by constructor.
Qed.

(** A turn that has been cancelled stops at its next iteration: the model
    is not called, nothing is recorded, and the caller is told. *)
Theorem cancelled_turn_stops (fuel : nat) (query : string) (iteration gen : Z) (w : World) :
  ~ (0 <= maxIterations config_ <= iteration) ->
  gen < cancelGeneration (elapse (ext_of w)) ->
  ReactLoop (Datatypes.S fuel) query iteration gen w
  = (emit_all [status "Cancelled"] (map_tw (fun t => set_ext (elapse (tw_ext t)) t) w), Val (Some ""%string)).
Proof.
  intros Hit Hgen. cbn [ReactLoop].
  assert ((0 <=? maxIterations config_) && (maxIterations config_ <=? iteration) = false) as ->
    by (destruct (Z.leb_spec 0 (maxIterations config_)), (Z.leb_spec (maxIterations config_) iteration);
        cbn; lia).
  unfold iteration_body, IsCancelled, wbind, wmodify, wget, wret. cbn [ext_of map_tw set_tw w_tw set_ext tw_ext].
  rewrite (proj2 (Z.ltb_lt gen _)) by exact Hgen. done.
Qed.
End Facts.

(** A tool that returns the empty string leaves its call without a result: the
    message is not stored, and [DropOrphanToolCalls] then removes the call from
    the windows the model sees. *)
Lemma empty_result_not_stored (tc : ToolCall) : stored_as (tool_message tc "" "") [].
Proof. right. split; [apply andb_false_r | reflexivity]. Qed.

(** ** Witnesses: a model that calls one tool and then answers *)

Definition ex_env_at (generation : Z) : Environment nat := {|
  now_utc := fun _ => "2026-01-01T00:00:00Z";
  now_local := fun _ => "2026-01-01 00:00:00";
  now_date := fun _ => "2026-01-01 (Thursday)";
  read_file := fun _ _ => None;
  fallback_template := fun _ => Some "You are helpful. {$tools}";
  skill_dir := fun _ _ => None;
  memory_file := fun _ => None;
  cancelGeneration := fun _ => generation;
  elapse := fun x => x;
  sink_event := fun _ x => (x, Ok tt)
|}.

Definition tool_then_text : LanguageModel unit nat JsonTree.json := {|
  model_Format := fun _ _ _ _ => Ok "";
  model_Invoke := fun _ _ x =>
    match x with
    | O => (1%nat, [], Ok (mkModelResponse "" [mkToolCall "" "grep" "{}"] true "tool_calls" false None))
    | _ => (2%nat, ["do"; "ne"], Ok (mkModelResponse " done" [] true "stop" false None))
    end
|}.

Definition no_storage : ContextStorage Empty_set := {|
  SaveMessage := fun s _ => s;
  LoadHistory := fun _ => (true, []);
  StorageClear := fun s => s
|}.

Definition ex_json : Json JsonTree.json := JsonTree.instance [].

Definition ex_world : World JsonTree.json ToolInfo ToolInfo nat Empty_set :=
  mkWorld (engine_new default_ContextConfig)
    (mkToolWorld None initial_turn None (apply_ops ex_ops empty_tools) 0%nat)
    (mkWorkerTools ["grep"] []) DISABLED [] 0.

Definition ex_tool_Invoke (t : ToolInfo) (input : string)
    (w : ToolWorld JsonTree.json ToolInfo ToolInfo nat)
    : ToolWorld JsonTree.json ToolInfo ToolInfo nat * list string * outcome string :=
  (w, [], Ok "3 matches").

Definition ex_loop (generation : Z) (fuel : nat) :
    World JsonTree.json ToolInfo ToolInfo nat Empty_set * res (option string) :=
  ReactLoop (H := ex_json) (H1 := tool_then_text) (H2 := ex_env_at generation) (H3 := no_storage)
    default_AgentConfig (Ok (Some tt)) ex_tool_Invoke false None fuel "q" 0 0 ex_world.

Lemma react_terminates_witness : (ex_loop 0 10).2 <> Val None.
Proof.
  apply (react_terminates (H := ex_json) (H1 := tool_then_text) (H2 := ex_env_at 0)
           (H3 := no_storage) default_AgentConfig). cbn. lia.
Defined.

Lemma cancelled_turn_stops_witness :
  ex_loop 100 1 = (emit_all [status "Cancelled"] ex_world, Val (Some ""%string)).
Proof.
  apply (cancelled_turn_stops (H := ex_json) (H1 := tool_then_text) (H2 := ex_env_at 100)
           (H3 := no_storage) default_AgentConfig (Ok (Some tt)) ex_tool_Invoke false None
           0 "q" 0 0 ex_world).
  - cbn. lia.
  - cbn. lia.
Defined.

Lemma offered_schemas_witness :
  let call := BuildToolSchemas (H := ex_json) (S := Empty_set) default_AgentConfig ex_world in
  exists schemas, call.2 = Val schemas /\ forall s, s ∈ schemas <->
    exists n, probe_schema n (rm_of ex_world) = Ok (Some s) /\ n ∈ ["grep"].
Proof.
  cbn zeta. eexists. split; [vm_compute; reflexivity|].
  apply (offered_schemas (H := ex_json) default_AgentConfig ex_world).
  - apply apply_ops_coherent, coherent_empty.
  - discriminate.
  - vm_compute. reflexivity.
Defined.
