(* ===== verification/Agent.v ===== *)
(** * The agent (src/core/agent.cpp, include/agent.h)

    Session activity, the draining flag, one conversation turn, and the
    consolidation thread step by step, between which other threads report
    activity.  What a consolidation pass calls (the model factory, the
    memory runtime, the legacy consolidator) are parameters. *)
From Stdlib Require Import ZArith Lia String Ascii List.
From stdpp Require Import base decidable list strings gmap sets.
From S2P Require Import Prelude Types Encoding JsonLib MemoryTypes ContextEngine TodoList ToolBase ResourceManager SkillEngine TurnState AgentWorker ReactWorker.
Open Scope Z_scope.

(** [sessionActivity_] maps a session to its [isBusy]. *)
Record Agent := mkAgent {
  ag_config : AgentConfig;
  draining_ : bool;
  running_ : bool;
  hasNewActivity_ : bool;
  sessionActivity_ : gmap string bool;
  (** The worker's cancel generation. *)
  cancelGeneration_ : Z
}.

(** The constructor points the consolidator at the data directory. *)
Definition set_dream_path (p : string) (c : AgentConfig) : AgentConfig :=
  let d := dreamConfig c in
  mkAgentConfig (ac_id c) (ac_name c) (ac_description c) (ac_version c) (ac_mode c) (modelConfig c)
    (promptTemplates c) (contextConfig c)
    (mkDreamConfig p (historyPath d) (maxBatchSize d) (dc_maxIterations d) (maxToolResultChars d)
       (historyEntryPreviewMaxChars d) (memoryFileMaxChars d))
    (memoryConfig c) (skillDirectory c) (maxIterations c) (dataBasePath c)
    (maxConcurrentSessions c) (defaultTools c) (toolDisclosureMode c) (toolSchemaTokenBudget c)
    (toolCatalogTokenBudget c) (alwaysOnTools c) (mcpServerIds c).

Definition agent_new (config : AgentConfig) : Agent :=
  mkAgent (set_dream_path (if str_empty (dataBasePath config) then "./data" else dataBasePath config)
             config) false true false ∅ 0.

Definition set_activity (m : gmap string bool) (a : Agent) : Agent :=
  mkAgent (ag_config a) (draining_ a) (running_ a) (hasNewActivity_ a) m (cancelGeneration_ a).
Definition set_newActivity (b : bool) (a : Agent) : Agent :=
  mkAgent (ag_config a) (draining_ a) (running_ a) b (sessionActivity_ a) (cancelGeneration_ a).

Definition MarkDraining (a : Agent) : Agent :=
  mkAgent (ag_config a) true (running_ a) (hasNewActivity_ a) (sessionActivity_ a) (cancelGeneration_ a).

(** [Agent::Cancel], that is [AgentWorker::Cancel]. *)
Definition Cancel (a : Agent) : Agent :=
  mkAgent (ag_config a) (draining_ a) (running_ a) (hasNewActivity_ a) (sessionActivity_ a)
    ((cancelGeneration_ a + 100) mod 2 ^ 64).

(** [Shutdown]; the consolidation thread is joined. *)
Definition Shutdown (a : Agent) : Agent :=
  Cancel (mkAgent (ag_config a) (draining_ a) false (hasNewActivity_ a) (sessionActivity_ a)
            (cancelGeneration_ a)).

Definition NotifySessionActive (sessionId : string) (a : Agent) : Agent :=
  set_activity (<[sessionId := true]> (sessionActivity_ a)) a.

Definition excluded (sessionId : string) (a : Agent) : bool :=
  list_has sessionId (excludedConsolidationSessionIds (memoryConfig (ag_config a))).

Definition NotifySessionIdle (sessionId : string) (a : Agent) : Agent :=
  let a1 := set_activity (alter (fun _ => false) sessionId (sessionActivity_ a)) a in
  if excluded sessionId a then a1 else set_newActivity true a1.

Definition IsSessionBusy (sessionId : string) (a : Agent) : bool :=
  default false (sessionActivity_ a !! sessionId).

Definition CleanupSession (sessionId : string) (a : Agent) : Agent :=
  set_activity (delete sessionId (sessionActivity_ a)) a.

(** ** The consolidation thread *)

(** The seconds the thread sleeps: the [int] is cast to [unsigned] first. *)
Definition idle_seconds (cfg : MemoryConfig) : Z :=
  let idleSeconds := idleConsolidationSeconds cfg mod 2 ^ 32 in
  if idleSeconds <=? 0 then 60 else idleSeconds.

Definition any_idle (a : Agent) : bool :=
  existsb (fun p => negb p.2) (map_to_list (sessionActivity_ a)).

Section Consolidation.
Context {J : Type} `{Json J} {M X : Type}.
Variable create_model : X -> X * outcome (option M).
Variable memory_consolidate :
  option (MemoryConsolidationRequest J -> option M -> X -> X * outcome bool).
Variable consolidator_run : option M -> X -> X * outcome bool.

(** The body of the [try] block after the flag is cleared; the result says
    whether work was done. *)
Definition consolidation_pass (cfg : AgentConfig) (x : X) : X * outcome bool :=
  let '(x1, m) := create_model x in
  match m with
  | Throw e => (x1, Throw e)
  | Ok model =>
      let '(x2, handled) :=
        match memory_consolidate with
        | Some consolidate =>
            consolidate (mkMemoryConsolidationRequest (ac_id cfg) "" 100 false
                           (excludedConsolidationSessionIds (memoryConfig cfg)) (j_object ∅)) model x1
        | None => (x1, Ok false)
        end in
      match handled with
      | Ok false => consolidator_run model x2
      | r => (x2, r)
      end
  end.

(** Where the thread is in its loop: waiting on the condition variable, past the
    test that some session is idle, past both tests, inside the pass, or out of the
    loop.  The other threads run between any two of these points. *)
Inductive position := AtWait | AtFlag | AtClear | InPass | Exited.

(** The thread and what it works on. *)
Record Loop := mkLoop {
  lp_agent : Agent;
  lp_firstCycle : bool;
  lp_at : position;
  lp_ext : X
}.

Definition goto (p : position) (l : Loop) : Loop :=
  mkLoop (lp_agent l) (lp_firstCycle l) p (lp_ext l).

(** What a step reports: a pass has begun (the flag is cleared), or it has ended.
    An exception ends the pass: it is caught and logged. *)
Inductive report := Begun | Ended (r : outcome bool).

(** The next step of [ConsolidationLoop].  Clearing the flag and running the pass
    are two steps: a conversation can end in between or during the pass. *)
Definition ConsolidationStep (l : Loop) : Loop * list report :=
  let a := lp_agent l in
  match lp_at l with
  | AtWait =>
      if negb (running_ a) then (goto Exited l, [])
      else if lp_firstCycle l then (goto AtClear l, [])
      else if any_idle a then (goto AtFlag l, []) else (l, [])
  | AtFlag => if hasNewActivity_ a then (goto AtClear l, []) else (goto AtWait l, [])
  | AtClear => (mkLoop (set_newActivity false a) false InPass (lp_ext l), [Begun])
  | InPass =>
      let '(x1, r) := consolidation_pass (ag_config a) (lp_ext l) in
      (mkLoop a (lp_firstCycle l) AtWait x1, [Ended r])
  | Exited => (l, [])
  end.

(** What happens to an agent: the calls of other threads, and the steps of its
    consolidation thread, in any order. *)
Inductive event :=
  | EvActive (sessionId : string)
  | EvIdle (sessionId : string)
  | EvCleanup (sessionId : string)
  | EvShutdown
  | EvThread.

Definition on_agent (f : Agent -> Agent) (l : Loop) : Loop :=
  mkLoop (f (lp_agent l)) (lp_firstCycle l) (lp_at l) (lp_ext l).

Definition run_event (e : event) (l : Loop) : Loop * list report :=
  match e with
  | EvActive s => (on_agent (NotifySessionActive s) l, [])
  | EvIdle s => (on_agent (NotifySessionIdle s) l, [])
  | EvCleanup s => (on_agent (CleanupSession s) l, [])
  | EvShutdown => (on_agent Shutdown l, [])
  | EvThread => ConsolidationStep l
  end.

(** The reports made along a sequence of events. *)
Fixpoint run_events (es : list event) (l : Loop) : Loop * list report :=
  match es with
  | [] => (l, [])
  | e :: es =>
      let '(l1, r) := run_event e l in
      let '(l2, rs) := run_events es l1 in (l2, r ++ rs)
  end.
End Consolidation.
Arguments Loop : clear implicits.

(** ** A turn *)

Section Turn.
Context {J : Type} `{Json J} {F SF T M X St : Type} `{ToolFactories F SF T J}
  `{LanguageModel M X J} `{Environment X} `{ContextStorage St}.
Local Notation World := (World J F SF X St).
Local Notation Wk := (Wk J F SF X St).
Local Notation ToolWorld := (ToolWorld J F SF X).
Variable create_model : outcome (option M).
Variable tool_Invoke : T -> string -> ToolWorld -> ToolWorld * list string * outcome string.
Variable has_askUser : bool.
Variable memory_runtime :
  option (MemoryPayloadWriteRequest J -> X -> X * outcome (MemoryPayloadWriteResult J)).

Definition set_out (l : list string) (w : World) : World :=
  mkWorld (w_engine w) (w_tw w) (w_tools w) (w_mode w) l (w_fallbackCounter w).

(** The callback handed to the worker drops empty strings. *)
Definition drop_empty_output {A} (m : Wk A) : Wk A := fun w =>
  let '(w1, r) := m (set_out [] w) in
  (set_out (w_out w ++ List.filter (fun s => negb (str_empty s)) (w_out w1)) w1, r).

(** The part of [Invoke] under the guard: the user message, then the worker. *)
Definition turn (config : AgentConfig) (fuel : nat) (query : string) : Wk (option string) :=
  wbind (add_message (text_message "user" query)) (fun _ =>
  drop_empty_output
    (ReactWorker.Invoke config create_model tool_Invoke has_askUser memory_runtime fuel query)).

(** [Agent::Invoke]; [engine_found] is whether the getter returned an engine.
    The guard's destructor runs on every way out, a returned value or an
    exception. *)
Definition Invoke (engine_found : bool) (fuel : nat) (sessionId query : string) (a : Agent)
    (w : World) : Agent * World * res (option string) :=
  if negb engine_found then
    (a, emit_all ["[STATUS] Error: ContextEngine not found for session=" +:+ sessionId] w,
     Val (Some "Error: Session context not found"))
  else
    let a1 := NotifySessionActive sessionId a in
    let '(w1, r) := turn (ag_config a) fuel query w in
    match r with
    | Val None | Undefined => (a1, w1, r)
    | _ => (NotifySessionIdle sessionId a1, w1, r)
    end.
End Turn.

(** ** Facts *)

(** *** The turn *)

Section TurnFacts.
Context {J : Type} `{Json J} {F SF T M X St : Type} `{ToolFactories F SF T J}
  `{LanguageModel M X J} `{Environment X} `{ContextStorage St}.
Local Notation World := (World J F SF X St).
Local Notation Wk := (Wk J F SF X St).
Local Notation ToolWorld := (ToolWorld J F SF X).
Variable create_model : outcome (option M).
Variable tool_Invoke : T -> string -> ToolWorld -> ToolWorld * list string * outcome string.
Variable has_askUser : bool.
Variable memory_runtime :
  option (MemoryPayloadWriteRequest J -> X -> X * outcome (MemoryPayloadWriteResult J)).

Lemma drop_empty_Val {A} (m : Wk A) (w w' : World) r :
  drop_empty_output m w = (w', r) ->
  exists w1, m (set_out [] w) = (w1, r) /\ w_engine w' = w_engine w1.
Proof.
  unfold drop_empty_output. destruct (m _) as [w1 r1]. intros [= <- <-]. by exists w1.
Qed.

Lemma invoke_appends config fuel query (w w' : World) answer :
  ReactWorker.Invoke config create_model tool_Invoke has_askUser memory_runtime fuel query w
    = (w', Val (Some answer)) ->
  exists ms, appended (w_engine w) (w_engine w') ms /\
    transcript ms (if str_empty answer then None else Some answer).
Proof.
  unfold ReactWorker.Invoke. intros (w1 & gen & [= <- <-] & E)%wbind_Val.
  apply wbind_Val in E as (w2 & progressive & E2 & E).
  apply (keeps_eq w_engine) in E2; [|apply engine_progressive].
  apply wbind_Val in E as (w3 & u & E3 & E).
  apply (keeps_eq w_engine) in E3; [|destruct progressive; [apply engine_seed | apply keeps_ret]].
  rewrite <- E2, <- E3. by eapply loop_transcript.
Qed.

(** C1.  A turn of the agent that returns an answer adds the user's message to
    the conversation and then a transcript: every assistant turn with tool calls,
    all under non-empty ids, is followed by one result per call, in the calls'
    order and under their ids, and the answer - when there is one - comes last.
    Of these messages the valid ones are stored, stamped, in this order, and nothing
    else of the conversation changes: a message without text and without tool calls
    is not stored, so the result of a tool that returned an empty string is in the
    transcript but leaves its call unanswered in the stored conversation.  The
    session is idle again. *)
Theorem turn_transcript (fuel : nat) (sessionId query : string) (a a' : Agent) (w w' : World)
    (answer : string) :
  Invoke create_model tool_Invoke has_askUser memory_runtime true fuel sessionId query a w
    = (a', w', Val (Some answer)) ->
  (exists ms, appended (w_engine w) (w_engine w') (text_message "user" query :: ms) /\
     transcript ms (if str_empty answer then None else Some answer)) /\
  IsSessionBusy sessionId a' = false.
Proof.
  unfold Invoke. cbn [negb]. destruct (turn _ _ _ _ _ _ _ w) as [w1 r] eqn:E. intros Hr.
  assert (r = Val (Some answer) /\ w1 = w' /\
          a' = NotifySessionIdle sessionId (NotifySessionActive sessionId a)) as (-> & -> & ->)
    by (destruct r as [[b|]|e|]; by simplify_eq).
  split.
  - unfold turn in E. apply wbind_Val in E as (w2 & u & E2 & E).
    apply add_message_appends in E2. apply drop_empty_Val in E as (w3 & E3 & Ew).
    apply invoke_appends in E3 as (ms & Ha & Ht). exists ms. split; [|done].
    rewrite Ew. exact (appended_app _ _ _ _ _ E2 Ha).
  - unfold NotifySessionIdle, IsSessionBusy. destruct (excluded _ _); cbn;
      by rewrite lookup_alter, lookup_insert, !decide_True by done.
Qed.
End TurnFacts.

(** *** Consolidation *)

Section ConsolidationFacts.
Context {J : Type} `{Json J} {M X : Type}.
Variable create_model : X -> X * outcome (option M).
Variable memory_consolidate :
  option (MemoryConsolidationRequest J -> option M -> X -> X * outcome bool).
Variable consolidator_run : option M -> X -> X * outcome bool.

Local Notation consolidation_pass :=
  (consolidation_pass create_model memory_consolidate consolidator_run).
Local Notation run_event := (run_event create_model memory_consolidate consolidator_run).
Local Notation run_events := (run_events create_model memory_consolidate consolidator_run).

(** An event that does not end a conversation that counts. *)
Definition quiet (cfg : AgentConfig) (e : event) : bool :=
  match e with
  | EvIdle s => list_has s (excludedConsolidationSessionIds (memoryConfig cfg))
  | _ => true
  end.

(** A pass has begun, and no conversation that counts has ended since. *)
Definition dormant (cfg : AgentConfig) (l : Loop X) : Prop :=
  ag_config (lp_agent l) = cfg /\ lp_firstCycle l = false /\ lp_at l <> AtClear /\
  hasNewActivity_ (lp_agent l) = false.

Lemma dormant_event cfg e l :
  dormant cfg l -> quiet cfg e = true ->
  dormant cfg (run_event e l).1 /\ Begun ∉ (run_event e l).2.
Proof.
  intros (<- & Hf & Hp & Hn) Hq. unfold dormant. destruct e as [s|s|s| |]; cbn [Agent.run_event].
  5: { unfold ConsolidationStep. destruct (lp_at l) eqn:Ep; [| | done | |].
       - rewrite Hf. destruct (negb _); [|destruct (any_idle _)]; cbn; rewrite ?Ep;
           (split; [by split_and! | by intros ?%list_elem_of_In]).
       - rewrite Hn. cbn. split; [by split_and! | by intros ?%list_elem_of_In].
       - destruct (consolidation_pass _ _) as [x1 r]. cbn. split; [by split_and!|].
         by intros ?%list_elem_of_singleton.
       - split; [by split_and!; cbn; rewrite ?Ep | by intros ?%list_elem_of_In]. }
  all: split; [|by intros ?%list_elem_of_In].
  - by cbn.
  - cbn in *. unfold NotifySessionIdle, excluded. by rewrite Hq.
  - by cbn.
  - by cbn.
Qed.

Lemma dormant_events cfg es l :
  dormant cfg l -> forallb (quiet cfg) es = true -> Begun ∉ (run_events es l).2.
Proof.
  revert l; induction es as [|e es IH]; intros l Hd Hq; [by intros ?%list_elem_of_In|].
  cbn in Hq. apply andb_true_iff in Hq as [He Hes].
  destruct (dormant_event cfg e l Hd He) as [Hd' Hb]. cbn [Agent.run_events].
  destruct (run_event e l) as [l1 r1]. specialize (IH l1 Hd' Hes).
  destruct (run_events es l1) as [l2 r2]. cbn in *. rewrite elem_of_app. tauto.
Qed.

(** Only the beginning of a pass clears the flag. *)
Lemma flag_event e l :
  hasNewActivity_ (lp_agent l) = true -> Begun ∉ (run_event e l).2 ->
  hasNewActivity_ (lp_agent (run_event e l).1) = true.
Proof.
  intros Hn Hb. destruct e as [s|s|s| |]; try done.
  - cbn. unfold NotifySessionIdle. by destruct (excluded s (lp_agent l)).
  - cbn in *. unfold ConsolidationStep in *. destruct (lp_at l).
    + by repeat case_match.
    + by rewrite Hn.
    + destruct Hb. by apply list_elem_of_singleton.
    + by destruct (consolidation_pass _ _).
    + done.
Qed.

Lemma flag_events es l :
  hasNewActivity_ (lp_agent l) = true -> Begun ∉ (run_events es l).2 ->
  hasNewActivity_ (lp_agent (run_events es l).1) = true.
Proof.
  revert l; induction es as [|e es IH]; intros l Hn Hb; [done|].
  cbn [Agent.run_events] in *. pose proof (flag_event e l Hn) as He.
  destruct (run_event e l) as [l1 r1]. specialize (IH l1).
  destruct (run_events es l1) as [l2 r2]. cbn in *. rewrite elem_of_app in Hb. tauto.
Qed.

Lemma begun_at_clear es l : lp_at l = AtClear -> Begun ∈ (run_events (EvThread :: es) l).2.
Proof.
  intros Hp. cbn [Agent.run_events Agent.run_event]. unfold ConsolidationStep. rewrite Hp.
  destruct (run_events es _). by left.
Qed.

Lemma begun_later e es l :
  Begun ∈ (run_events es (run_event e l).1).2 -> Begun ∈ (run_events (e :: es) l).2.
Proof.
  cbn [Agent.run_events]. destruct (run_event e l) as [l1 r1]. cbn [fst].
  destruct (run_events es l1). cbn. rewrite elem_of_app. tauto.
Qed.

(** Evaluates the first of the thread's steps. *)
Ltac thread_moves :=
  apply begun_later;
  cbn [Agent.run_event ConsolidationStep goto lp_at lp_agent lp_firstCycle lp_ext fst].

(** With the flag set, the thread reaches its next pass in four steps. *)
Lemma next_pass l :
  hasNewActivity_ (lp_agent l) = true -> running_ (lp_agent l) = true ->
  any_idle (lp_agent l) = true -> lp_at l <> Exited ->
  Begun ∈ (run_events (repeat EvThread 4) l).2.
Proof.
  intros Hn Hr Hi Hp.
  assert (forall k, Begun ∈ (run_events (repeat EvThread (2 + k)) (goto AtFlag l)).2) as Hflag.
  { intros k. thread_moves. rewrite Hn. by apply begun_at_clear. }
  assert (forall k x, Begun ∈ (run_events (repeat EvThread (3 + k))
            (mkLoop (lp_agent l) (lp_firstCycle l) AtWait x)).2) as Hwait.
  { intros k x. thread_moves. rewrite Hr. cbn [negb]. destruct (lp_firstCycle l) eqn:Ef.
    - by apply begun_at_clear.
    - rewrite Hi. thread_moves. rewrite Hn. by apply begun_at_clear. }
  destruct l as [a f p x]; cbn in Hn, Hr, Hi, Hp. destruct p; [| | | |done].
  - exact (Hwait 1%nat x).
  - exact (Hflag 2%nat).
  - by apply begun_at_clear.
  - thread_moves. destruct (consolidation_pass _ _) as [x1 r]. exact (Hwait 0%nat x1).
Qed.

(** C17.  Consolidation follows conversations, in every interleaving of the other
    threads with the steps of the consolidation thread.  The end of a conversation
    in a session that is not excluded is never lost, wherever the thread is, inside
    a pass included: until the next pass begins the flag stays set, and as long as
    the agent runs and some session is idle the thread's next four steps begin one.
    And from the beginning of a pass - whether it then succeeds, does nothing or
    fails with an exception - no other pass begins until such a conversation ends. *)
Theorem consolidation_follows_conversations (l : Loop X) :
  (forall s es, excluded s (lp_agent l) = false ->
     let '(l', log) := run_events (EvIdle s :: es) l in
     Begun ∉ log ->
     hasNewActivity_ (lp_agent l') = true /\
     (running_ (lp_agent l') = true -> any_idle (lp_agent l') = true -> lp_at l' <> Exited ->
      Begun ∈ (run_events (repeat EvThread 4) l').2)) /\
  (lp_at l = AtClear -> forall es, forallb (quiet (ag_config (lp_agent l))) es = true ->
     exists log, (run_events (EvThread :: es) l).2 = Begun :: log /\ Begun ∉ log).
Proof.
  split.
  - intros s es Hx.
    assert (hasNewActivity_ (lp_agent (on_agent (NotifySessionIdle s) l)) = true) as Hn.
    { cbn. unfold NotifySessionIdle. by rewrite Hx. }
    pose proof (flag_events es _ Hn) as Hf. cbn [Agent.run_events Agent.run_event].
    destruct (run_events es _) as [l' log]. cbn [fst snd app] in *. intros Hb.
    split; [by apply Hf|]. intros. apply next_pass; [by apply Hf | done..].
  - intros Hp es Hes. cbn [Agent.run_events Agent.run_event]. unfold ConsolidationStep. rewrite Hp.
    assert (dormant (ag_config (lp_agent l))
              (mkLoop (set_newActivity false (lp_agent l)) false InPass (lp_ext l))) as Hd by done.
    pose proof (dormant_events _ es _ Hd Hes) as Hb.
    destruct (run_events es _) as [l2 log]. by exists log.
Qed.
End ConsolidationFacts.

(** A negative [idleConsolidationSeconds] is not replaced by the default: the
    cast to [unsigned] makes the test for [<= 0] miss it, and the thread sleeps for
    more than sixty-eight years between two cycles. *)
Theorem negative_idle_seconds (cfg : MemoryConfig) :
  - 2 ^ 31 <= idleConsolidationSeconds cfg < 0 -> 2 ^ 31 <= idle_seconds cfg.
Proof.
  intros Hn. unfold idle_seconds.
  assert (idleConsolidationSeconds cfg mod 2 ^ 32 = idleConsolidationSeconds cfg + 2 ^ 32) as E.
  { symmetry. apply (Z.mod_unique_pos _ _ (-1)); lia. }
  rewrite E. destruct (Z.leb_spec (idleConsolidationSeconds cfg + 2 ^ 32) 0); lia.
Qed.

(** ** Witnesses *)

Definition ex_turn (fuel : nat) :=
  Invoke (H := ex_json) (H1 := tool_then_text) (H2 := ex_env_at 0) (H3 := no_storage)
    (Ok (Some tt)) ex_tool_Invoke false None true fuel "s" "q" (agent_new default_AgentConfig) ex_world.

Lemma turn_transcript_witness :
  length (memoryBuffer_ (w_engine (ex_turn 10).1.2)) = 4%nat /\
  (exists ms, appended (w_engine ex_world) (w_engine (ex_turn 10).1.2) (text_message "user" "q" :: ms) /\
     transcript ms (Some "done"%string)) /\
  IsSessionBusy "s" (ex_turn 10).1.1 = false.
Proof.
  split; [vm_compute; reflexivity|].
  apply (turn_transcript (H := ex_json) (H1 := tool_then_text) (H2 := ex_env_at 0)
           (H3 := no_storage) (Ok (Some tt)) ex_tool_Invoke false None 10 "s" "q"
           (agent_new default_AgentConfig) (ex_turn 10).1.1 ex_world (ex_turn 10).1.2 "done").
  vm_compute. reflexivity.
Defined.

(** The thread inside a pass while session "s" is answering. *)
Definition ex_loop_state (p : position) : Loop nat :=
  mkLoop (NotifySessionActive "s" (agent_new default_AgentConfig)) false p 0%nat.
(** A model factory that fails. *)
Definition ex_no_model (x : nat) : nat * outcome (option unit) := (x, Throw "no model").
Definition ex_consolidator (m : option unit) (x : nat) : nat * outcome bool := (x, Ok true).

Definition ex_no_memory :
  option (MemoryConsolidationRequest JsonTree.json -> option unit -> nat -> nat * outcome bool) := None.
#[local] Existing Instance ex_json.

(** "s" ends during a pass that fails: the pass ends, and the next one begins. *)
Lemma consolidation_follows_conversations_witness :
  let run := run_events ex_no_model ex_no_memory ex_consolidator in
  (run [EvIdle "s"; EvThread] (ex_loop_state InPass)).2 = [Ended (Throw "no model")] /\
  Begun ∈ (run (repeat EvThread 4) (run [EvIdle "s"; EvThread] (ex_loop_state InPass)).1).2 /\
  exists log, (run [EvThread; EvThread; EvActive "t"; EvThread] (ex_loop_state AtClear)).2
                = Begun :: log /\ Begun ∉ log.
Proof.
  cbn zeta. split; [vm_compute; reflexivity|]. split.
  - pose proof (proj1 (consolidation_follows_conversations ex_no_model ex_no_memory ex_consolidator
      (ex_loop_state InPass)) "s" [EvThread] eq_refl) as Hc.
    apply Hc; [by intros ?%list_elem_of_singleton | done..].
  - apply (proj2 (consolidation_follows_conversations ex_no_model ex_no_memory ex_consolidator
      (ex_loop_state AtClear)) eq_refl [EvThread; EvActive "t"; EvThread]).
    reflexivity.
Defined.

Lemma negative_idle_seconds_witness :
  2 ^ 31 <= idle_seconds (mkMemoryConfig false "" "" "" "" "" 0 0 0 0 0 0 false (-1) [] false
                            "" "" "" "" "" "" 0 SpecFloat.S754_nan 0 [] 0 default_ConfigNode).
Proof. apply negative_idle_seconds. cbn. lia. Defined.
