(* ===== verification/SessionManager.v ===== *)
(** * Sessions (src/session/session_manager.cpp, include/session_manager.h)

    The manager is a shared state that calls on many threads advance one step at a
    time, a step being what the code does between two lock operations.  A call is
    an element of [calls] and carries its program counter; [exec] performs one
    action, and is [None] when the action is not possible, in particular when the
    call is blocked.  Entries and agents are shared by pointer, so they live in the
    heaps [entries] and [agents].  The conversation inside a turn is Agent.v's; the
    steps here are the calls of the agent that touch shared state. *)
From Stdlib Require Import ZArith Lia String Ascii List.
From stdpp Require Import base decidable list strings gmap sets.
From S2P Require Import Prelude Types Agent.
Open Scope Z_scope.

Definition kDefaultSessionId : string := "__DEFAULT__".

(** ** Names *)

Definition reserved_char (c : ascii) : bool :=
  let b := byte_of c in
  (b <=? 31)%N || (b =? 127)%N
  || existsb (fun d => Ascii.eqb c d)
       [BSLASH; "/"; ":"; "*"; "?"; DQUOTE; "<"; ">"; "|"]%char.

Definition SanitizePathName (name : string) : string :=
  if str_empty name then "unnamed"
  else if String.eqb name "." then "dot"
  else if String.eqb name ".." then "dotdot"
  else str_map (fun c => if reserved_char c then "_"%char else c) name.

Definition MakeSessionKey (channel chatId : string) : string :=
  if str_empty channel && str_empty chatId then kDefaultSessionId
  else channel +:+ "_" +:+ chatId.

(** [fs::path(a) / b] for a relative [b]. *)
Definition path_join (a b : string) : string :=
  if str_empty a || back_is "/" a then a +:+ b else a +:+ "/" +:+ b.

Definition session_dir (config : AgentConfig) (sessionId : string) : string :=
  let basePath := if str_empty (dataBasePath config) then "./data" else dataBasePath config in
  path_join (path_join basePath "sessions") (SanitizePathName sessionId).

(** ** State *)

Record SessionEntry := mkSessionEntry {
  en_sessionId : string;
  (** The [storagePath] of its context engine. *)
  en_storagePath : string;
  en_agent : nat;
  isBusy : bool;
  (** The call that holds the mutex. *)
  invokeMutex : option nat
}.

(** The program counters.  [e] is the entry and [a] the agent the call holds
    pointers to; [ok] is whether the agent returned. *)
Inductive Call :=
  | Arrived (sid : string)
  | Waiting (sid : string)
  | Entered (sid : string)
  | Found (sid : string) (e a : nat)
  | Locked (sid : string) (e a : nat)
  | Working (sid : string) (e a : nat)
  | Returned (sid : string) (e a : nat) (ok : bool)
  | Idled (sid : string) (e a : nat) (ok : bool)
  | Released (sid : string) (e : nat) (ok : bool)
  | Finished (sid : string) (ok : bool)
  | Escaped (sid : string)
  | RemoveCalled (sid : string)
  | Erasing (sid : string)
  | Erased (sid dir : string) (removed : option nat)
  | Deleted (sid : string) (removed : option nat)
  | Removed (sid : string).

Record Manager := mkManager {
  config_ : AgentConfig;
  initialized_ : bool;
  maxConcurrent_ : Z;
  concurrentCount_ : Z;
  sessions_ : gmap string nat;
  entries : list SessionEntry;
  agents : list Agent;
  agent_ : nat;
  reservedSessions_ : gset string;
  (** The session directories on disk. *)
  disk : gset string;
  calls : list Call
}.

Definition manager_new : Manager :=
  mkManager default_AgentConfig false 0 0 ∅ [] [] 0 {[kDefaultSessionId]} ∅ [].

Definition set_config (c : AgentConfig) (m : Manager) : Manager :=
  mkManager c (initialized_ m) (maxConcurrent_ m) (concurrentCount_ m) (sessions_ m) (entries m)
    (agents m) (agent_ m) (reservedSessions_ m) (disk m) (calls m).
Definition set_initialized (b : bool) (m : Manager) : Manager :=
  mkManager (config_ m) b (maxConcurrent_ m) (concurrentCount_ m) (sessions_ m) (entries m)
    (agents m) (agent_ m) (reservedSessions_ m) (disk m) (calls m).
Definition set_max (n : Z) (m : Manager) : Manager :=
  mkManager (config_ m) (initialized_ m) n (concurrentCount_ m) (sessions_ m) (entries m)
    (agents m) (agent_ m) (reservedSessions_ m) (disk m) (calls m).
Definition set_count (n : Z) (m : Manager) : Manager :=
  mkManager (config_ m) (initialized_ m) (maxConcurrent_ m) n (sessions_ m) (entries m)
    (agents m) (agent_ m) (reservedSessions_ m) (disk m) (calls m).
Definition set_sessions (s : gmap string nat) (m : Manager) : Manager :=
  mkManager (config_ m) (initialized_ m) (maxConcurrent_ m) (concurrentCount_ m) s (entries m)
    (agents m) (agent_ m) (reservedSessions_ m) (disk m) (calls m).
Definition set_entries (l : list SessionEntry) (m : Manager) : Manager :=
  mkManager (config_ m) (initialized_ m) (maxConcurrent_ m) (concurrentCount_ m) (sessions_ m) l
    (agents m) (agent_ m) (reservedSessions_ m) (disk m) (calls m).
Definition set_agents (l : list Agent) (m : Manager) : Manager :=
  mkManager (config_ m) (initialized_ m) (maxConcurrent_ m) (concurrentCount_ m) (sessions_ m)
    (entries m) l (agent_ m) (reservedSessions_ m) (disk m) (calls m).
Definition set_agent (a : nat) (m : Manager) : Manager :=
  mkManager (config_ m) (initialized_ m) (maxConcurrent_ m) (concurrentCount_ m) (sessions_ m)
    (entries m) (agents m) a (reservedSessions_ m) (disk m) (calls m).
Definition set_reserved (r : gset string) (m : Manager) : Manager :=
  mkManager (config_ m) (initialized_ m) (maxConcurrent_ m) (concurrentCount_ m) (sessions_ m)
    (entries m) (agents m) (agent_ m) r (disk m) (calls m).
Definition set_disk (d : gset string) (m : Manager) : Manager :=
  mkManager (config_ m) (initialized_ m) (maxConcurrent_ m) (concurrentCount_ m) (sessions_ m)
    (entries m) (agents m) (agent_ m) (reservedSessions_ m) d (calls m).
Definition set_calls (l : list Call) (m : Manager) : Manager :=
  mkManager (config_ m) (initialized_ m) (maxConcurrent_ m) (concurrentCount_ m) (sessions_ m)
    (entries m) (agents m) (agent_ m) (reservedSessions_ m) (disk m) l.

Definition on_entry (e : nat) (f : SessionEntry -> SessionEntry) (m : Manager) : Manager :=
  set_entries (alter f e (entries m)) m.
Definition on_agent (a : nat) (f : Agent -> Agent) (m : Manager) : Manager :=
  set_agents (alter f a (agents m)) m.
Definition goto (i : nat) (c : Call) (m : Manager) : Manager := set_calls (<[i := c]> (calls m)) m.

Definition set_agent_of (a : nat) (en : SessionEntry) : SessionEntry :=
  mkSessionEntry (en_sessionId en) (en_storagePath en) a (isBusy en) (invokeMutex en).
Definition set_busy (b : bool) (en : SessionEntry) : SessionEntry :=
  mkSessionEntry (en_sessionId en) (en_storagePath en) (en_agent en) b (invokeMutex en).
Definition set_mutex (o : option nat) (en : SessionEntry) : SessionEntry :=
  mkSessionEntry (en_sessionId en) (en_storagePath en) (en_agent en) (isBusy en) o.

(** ** Operations under [sessionMutex_] *)

(** [FindOrCreateEntry] when nothing throws: the entry's pointer. *)
Definition FindOrCreateEntry (sessionId : string) (m : Manager) : Manager * nat :=
  match sessions_ m !! sessionId with
  | Some e => (m, e)
  | None =>
      let dir := session_dir (config_ m) sessionId in
      let entry := mkSessionEntry sessionId (path_join dir "context") (agent_ m) false None in
      let e := length (entries m) in
      (set_sessions (<[sessionId := e]> (sessions_ m))
         (set_entries (entries m ++ [entry]) (set_disk ({[dir]} ∪ disk m) m)), e)
  end.

Definition is_draining (a : nat) (m : Manager) : bool :=
  match agents m !! a with Some ag => draining_ ag | None => false end.

(** The lookup at the start of a turn: the entry and the agent bound to it, after
    rebinding a draining one. *)
Definition bind_entry (sessionId : string) (m : Manager) : option (Manager * nat * nat) :=
  let '(m1, e) := FindOrCreateEntry sessionId m in
  match entries m1 !! e with
  | None => None
  | Some en =>
      let m2 := if is_draining (en_agent en) m1 then on_entry e (set_agent_of (agent_ m1)) m1 else m1 in
      Some (m2, e, if is_draining (en_agent en) m1 then agent_ m1 else en_agent en)
  end.

Definition erase_session (sessionId : string) (m : Manager) : Manager * option nat :=
  (set_sessions (delete sessionId (sessions_ m)) m, sessions_ m !! sessionId).

Definition set_dataBasePath (p : string) (c : AgentConfig) : AgentConfig :=
  mkAgentConfig (ac_id c) (ac_name c) (ac_description c) (ac_version c) (ac_mode c) (modelConfig c)
    (promptTemplates c) (contextConfig c) (dreamConfig c) (memoryConfig c) (skillDirectory c)
    (maxIterations c) p (maxConcurrentSessions c) (defaultTools c) (toolDisclosureMode c)
    (toolSchemaTokenBudget c) (toolCatalogTokenBudget c) (alwaysOnTools c) (mcpServerIds c).

(** The swap of [ReloadAgent]; [effective] is the configuration the new agent was
    built from. *)
Definition swap_agent (newConfig effective : AgentConfig) (m : Manager) : Manager :=
  let m1 := set_max (if 0 <? maxConcurrentSessions newConfig then maxConcurrentSessions newConfig
                     else 0) (set_config newConfig m) in
  set_agent (length (agents m1))
    (set_agents (alter MarkDraining (agent_ m1) (agents m1) ++ [agent_new effective]) m1).

(** [ReloadAgent]; [constructed] is whether building the agent succeeds. *)
Definition ReloadAgent (newConfig : AgentConfig) (constructed : bool) (m : Manager)
    : Manager * bool :=
  if negb (initialized_ m) then (m, false)
  else if negb constructed then (m, false)
  else
    let effective := if str_empty (dataBasePath newConfig)
                     then set_dataBasePath (dataBasePath (config_ m)) newConfig else newConfig in
    (swap_agent newConfig effective m, true).

(** ** Steps *)

(** The next step of call [i]: the branch without exceptions. *)
Definition step (i : nat) (m : Manager) : option Manager :=
  match calls m !! i with
  | Some (Arrived sid) =>
      if (0 <? maxConcurrent_ m) && negb (concurrentCount_ m <? maxConcurrent_ m)
      then Some (goto i (Waiting sid) m)
      else Some (goto i (Entered sid) (set_count (concurrentCount_ m + 1) m))
  | Some (Waiting sid) =>
      if concurrentCount_ m <? maxConcurrent_ m
      then Some (goto i (Entered sid) (set_count (concurrentCount_ m + 1) m))
      else None
  | Some (Entered sid) =>
      '(m1, e, a) ← bind_entry sid m; Some (goto i (Found sid e a) m1)
  | Some (Found sid e a) =>
      en ← entries m !! e;
      match invokeMutex en with
      | None => Some (goto i (Locked sid e a) (on_entry e (fun x => set_mutex (Some i) (set_busy true x)) m))
      | Some _ => None
      end
  | Some (Locked sid e a) =>
      Some (goto i (Working sid e a) (on_agent a (NotifySessionActive sid) m))
  | Some (Working sid e a) =>
      Some (goto i (Returned sid e a true) (on_agent a (NotifySessionIdle sid) m))
  | Some (Returned sid e a ok) =>
      Some (goto i (Idled sid e a ok) (on_entry e (set_busy false) m))
  | Some (Idled sid e a ok) =>
      Some (goto i (Released sid e ok)
              (set_count (if 0 <? concurrentCount_ m then concurrentCount_ m - 1
                          else concurrentCount_ m) m))
  | Some (Released sid e ok) =>
      Some (goto i (Finished sid ok) (on_entry e (set_mutex None) m))
  | Some (RemoveCalled sid) =>
      Some (goto i (if str_empty sid || bool_decide (sid ∈ reservedSessions_ m)
                    then Removed sid else Erasing sid) m)
  | Some (Erasing sid) =>
      let '(m1, removed) := erase_session sid m in
      Some (goto i (Erased sid (session_dir (config_ m) sid) removed) m1)
  | Some (Erased sid dir removed) =>
      let skipDisk := match removed ≫= (fun e => entries m !! e) with
                      | Some en => match invokeMutex en with Some _ => true | None => false end
                      | None => false
                      end in
      Some (goto i (Deleted sid removed) (if skipDisk : bool then m else set_disk (disk m ∖ {[dir]}) m))
  | Some (Deleted sid removed) =>
      let bound := match removed ≫= (fun e => entries m !! e) with
                   | Some en => en_agent en
                   | None => agent_ m
                   end in
      Some (goto i (Removed sid) (on_agent bound (CleanupSession sid) m))
  | _ => None
  end.

(** The same step when it throws: the session cannot be created, and the
    exception leaves [Invoke]; or the agent throws, and the call reports it. *)
Definition step_throws (i : nat) (m : Manager) : option Manager :=
  match calls m !! i with
  | Some (Entered sid) =>
      match sessions_ m !! sid with
      | None => Some (goto i (Escaped sid) m)
      | Some _ => None
      end
  | Some (Working sid e a) =>
      Some (goto i (Returned sid e a false) (on_agent a (NotifySessionIdle sid) m))
  | _ => None
  end.

Inductive action :=
  | ANewInvoke (sessionId : string)
  | ANewRemove (sessionId : string)
  | AStep (i : nat)
  | AThrow (i : nat)
  | AReload (newConfig : AgentConfig) (constructed : bool)
  | AGetOrCreate (sessionId : string)
  | ARegister (sessionId : string)
  | ACancel.

(** [GetOrCreateSession]; the session configuration is ignored. *)
Definition GetOrCreateSession (sessionId : string) (m : Manager) : Manager :=
  (FindOrCreateEntry sessionId m).1.
Definition RegisterReservedSession (id : string) (m : Manager) : Manager :=
  if str_empty id then m else set_reserved ({[id]} ∪ reservedSessions_ m) m.
(** [Cancel] of the active agent. *)
Definition CancelActive (m : Manager) : Manager := on_agent (agent_ m) Cancel m.

Definition exec (act : action) (m : Manager) : option Manager :=
  match act with
  | ANewInvoke sid =>
      Some (set_calls (calls m ++ [if initialized_ m then Arrived sid else Finished sid false]) m)
  | ANewRemove sid => Some (set_calls (calls m ++ [RemoveCalled sid]) m)
  | AStep i => step i m
  | AThrow i => step_throws i m
  | AReload newConfig constructed => Some (ReloadAgent newConfig constructed m).1
  | AGetOrCreate sid => Some (GetOrCreateSession sid m)
  | ARegister sid => Some (RegisterReservedSession sid m)
  | ACancel => Some (CancelActive m)
  end.

Fixpoint exec_all (acts : list action) (m : Manager) : option Manager :=
  match acts with
  | [] => Some m
  | act :: acts => m1 ← exec act m; exec_all acts m1
  end.

(** Executions whose actions satisfy [allowed]. *)
Definition steps (allowed : action -> bool) : Manager -> Manager -> Prop :=
  reach (fun m m' => exists act, allowed act = true /\ exec act m = Some m').

(** ** Start-up and queries *)

(** [Initialize] up to the agent's creation; [absolute] makes a path absolute. *)
Definition start_manager (absolute : string -> string) (config : AgentConfig) (m : Manager)
    : Manager :=
  let basePath := if str_empty (dataBasePath config) then "./data" else dataBasePath config in
  let config1 := set_dataBasePath (absolute basePath) config in
  let m1 := set_config config1 m in
  let m2 := if 0 <? maxConcurrentSessions config1 then set_max (maxConcurrentSessions config1) m1
            else m1 in
  set_agent (length (agents m2)) (set_agents (agents m2 ++ [agent_new config1]) m2).

(** Restoring one session; [creatable] says whether its entry can be created. *)
Definition restore (creatable : string -> bool) (m : Manager) (sid : string) : Manager :=
  if creatable sid then GetOrCreateSession sid m else m.

(** [Initialize] with the directories [dirs] found on disk. *)
Definition Initialize (absolute : string -> string) (dirs : list string)
    (creatable : string -> bool) (config : AgentConfig) (m : Manager) : Manager :=
  let names := List.filter (fun d => negb (front_is "." d) && negb (str_empty d)) dirs in
  set_initialized true
    (fold_left (restore creatable) (names ++ [kDefaultSessionId]) (start_manager absolute config m)).

Definition IsSessionBusy (sessionId : string) (m : Manager) : bool :=
  match sessions_ m !! sessionId ≫= (fun e => entries m !! e) with
  | Some en =>
      match agents m !! en_agent en with
      | Some ag => Agent.IsSessionBusy sessionId ag
      | None => false
      end
  | None => false
  end.

(** The agent whose skill engine a tool of the turn of call [i] is given: the one
    the entry points to at that time. *)
Definition skill_agent (i : nat) (m : Manager) : option nat :=
  match calls m !! i with
  | Some (Working _ e _) => en_agent <$> entries m !! e
  | _ => None
  end.

(** ** Invariants *)

(** The entry a call points to, the mutex it holds, and whether it is between
    setting and clearing [isBusy]. *)
Definition call_entry (c : Call) : option (string * nat) :=
  match c with
  | Found s e _ | Locked s e _ | Working s e _ | Returned s e _ _ | Idled s e _ _
  | Released s e _ => Some (s, e)
  | _ => None
  end.
Definition holder (c : Call) : option nat :=
  match c with
  | Locked _ e _ | Working _ e _ | Returned _ e _ _ | Idled _ e _ _ | Released _ e _ => Some e
  | _ => None
  end.
Definition busy_call (c : Call) : bool :=
  match c with Locked _ _ _ | Working _ _ _ | Returned _ _ _ _ => true | _ => false end.
(** A call that has passed the gate and not given its slot back. *)
Definition gated (c : Call) : bool :=
  match c with
  | Entered _ | Found _ _ _ | Locked _ _ _ | Working _ _ _ | Returned _ _ _ _
  | Idled _ _ _ _ => true
  | _ => false
  end.
Definition gated_calls (m : Manager) : nat := length (List.filter gated (calls m)).

Lemma filter_insert_length {A} (p : A -> bool) (l : list A) i x y :
  l !! i = Some x ->
  (length (List.filter p (<[i := y]> l)) + (if p x then 1 else 0)
   = length (List.filter p l) + (if p y then 1 else 0))%nat.
Proof.
  revert i; induction l as [|z l IH]; intros [|i] Hi; [done | done | |].
  - change (Some z = Some x) in Hi. injection Hi as ->.
    change (<[0%nat:=y]> (x :: l)) with (y :: l). cbn [List.filter].
    destruct (p x), (p y); cbn [length]; lia.
  - specialize (IH i Hi). change (<[S i:=y]> (z :: l)) with (z :: <[i:=y]> l). cbn [List.filter].
    destruct (p z); cbn [length]; lia.
Qed.

(** The gate: a call in [gated] has a slot. *)
Definition gate_ok (m : Manager) : Prop := Z.of_nat (gated_calls m) <= concurrentCount_ m.

Lemma FindOrCreateEntry_frame sid m :
  let m1 := (FindOrCreateEntry sid m).1 in
  calls m1 = calls m /\ concurrentCount_ m1 = concurrentCount_ m /\
  maxConcurrent_ m1 = maxConcurrent_ m /\ agents m1 = agents m /\ agent_ m1 = agent_ m.
Proof. unfold FindOrCreateEntry. by destruct (sessions_ m !! sid). Qed.

Lemma bind_entry_frame sid m m1 e a :
  bind_entry sid m = Some (m1, e, a) ->
  calls m1 = calls m /\ concurrentCount_ m1 = concurrentCount_ m /\
  maxConcurrent_ m1 = maxConcurrent_ m /\ agents m1 = agents m /\ agent_ m1 = agent_ m.
Proof.
  unfold bind_entry. pose proof (FindOrCreateEntry_frame sid m) as Hf.
  destruct (FindOrCreateEntry sid m) as [m0 e0]. cbn in Hf.
  destruct (entries m0 !! e0) as [en|]; [|done]. intros [= <- <- <-].
  by destruct (is_draining _ _).
Qed.

(** How a step moves the slots: it takes one, gives one back, loses one with an
    exception, or leaves them alone. *)
Inductive slot_move (m m' : Manager) : Call -> Call -> Prop :=
  | slot_same c c' : gated c = gated c' -> concurrentCount_ m' = concurrentCount_ m -> slot_move m m' c c'
  | slot_take c sid : gated c = false -> concurrentCount_ m' = concurrentCount_ m + 1 ->
      concurrentCount_ m < maxConcurrent_ m \/ (c = Arrived sid /\ maxConcurrent_ m <= 0) ->
      slot_move m m' c (Entered sid)
  | slot_give c c' : gated c = true -> gated c' = false ->
      concurrentCount_ m' = (if 0 <? concurrentCount_ m then concurrentCount_ m - 1
                             else concurrentCount_ m) -> slot_move m m' c c'
  | slot_lose sid : concurrentCount_ m' = concurrentCount_ m ->
      slot_move m m' (Entered sid) (Escaped sid).

(** Splits a hypothesis [step i m = Some m'] into the steps of the calls. *)
Ltac step_cases c E :=
  destruct c as [sid|sid|sid|sid e a|sid e a|sid e a|sid e a ok|sid e a ok|sid e ok|sid ok|sid
                |sid|sid|sid dir r|sid r|sid]; cbn in E; try discriminate E.

Ltac slot_done E :=
  injection E as <-; eexists; split_and!; try done;
  first [apply slot_same; done | apply slot_give; done | apply slot_lose; done | apply slot_take; auto].

Lemma step_slots i m m' :
  step i m = Some m' \/ step_throws i m = Some m' ->
  exists c c', calls m !! i = Some c /\ calls m' = <[i := c']> (calls m) /\
    maxConcurrent_ m' = maxConcurrent_ m /\ slot_move m m' c c'.
Proof.
  intros [E|E].
  - unfold step in E. destruct (calls m !! i) as [c|] eqn:Ei; [|done]. exists c.
    step_cases c E; try (slot_done E).
    + destruct (Z.ltb_spec 0 (maxConcurrent_ m)), (Z.ltb_spec (concurrentCount_ m) (maxConcurrent_ m));
        cbn in E; slot_done E.
    + destruct (Z.ltb_spec (concurrentCount_ m) (maxConcurrent_ m)); [|done]. slot_done E.
    + destruct (bind_entry sid m) as [[[m1 e] a]|] eqn:Eb; [|done].
      apply bind_entry_frame in Eb as (Hc & Hn & Hm & _). rewrite <- Hc. slot_done E.
    + destruct (entries m !! e) as [en|]; [|done]. cbn in E. destruct (invokeMutex en); [done|].
      slot_done E.
    + destruct (_ || _) in E; slot_done E.
    + destruct (match _ with Some _ => _ | None => _ end) in E; slot_done E.
  - unfold step_throws in E. destruct (calls m !! i) as [c|] eqn:Ei; [|done]. exists c.
    step_cases c E; [|slot_done E]. destruct (sessions_ m !! sid); [done|]. slot_done E.
Qed.

Lemma gated_insert l i c c' :
  l !! i = Some c ->
  (length (List.filter gated (<[i := c']> l)) + (if gated c then 1 else 0)
   = length (List.filter gated l) + (if gated c' then 1 else 0))%nat.
Proof. apply filter_insert_length. Qed.

Lemma step_gate i m m' :
  step i m = Some m' \/ step_throws i m = Some m' -> gate_ok m -> gate_ok m'.
Proof.
  intros E Hg. apply step_slots in E as (c & c' & Hc & Hcs & _ & Hm).
  unfold gate_ok, gated_calls in *. rewrite Hcs. pose proof (gated_insert _ i c c' Hc) as G.
  destruct Hm as [c c' Hs Hn|c sid Hs Hn _|c c' Hs Hs' Hn|sid Hn]; rewrite Hn.
  - rewrite Hs in G. destruct (gated c'); lia.
  - rewrite Hs in G. cbn [gated] in G. lia.
  - rewrite Hs, Hs' in G. destruct (Z.ltb_spec 0 (concurrentCount_ m)); lia.
  - cbn [gated] in G. lia.
Qed.

Definition no_reload (act : action) : bool := match act with AReload _ _ => false | _ => true end.

(** Actions other than the steps of calls do not touch the slots. *)
Lemma exec_other act m m' :
  (forall i, act <> AStep i /\ act <> AThrow i) -> exec act m = Some m' ->
  concurrentCount_ m' = concurrentCount_ m /\
  (no_reload act = true -> maxConcurrent_ m' = maxConcurrent_ m) /\
  (calls m' = calls m \/ exists c, gated c = false /\ calls m' = calls m ++ [c]).
Proof.
  intros Ha E. destruct act as [sid|sid|i|i|cfg b|sid|sid|]; cbn [exec] in E;
    try (by destruct (Ha i)); injection E as <-.
  - cbn. split_and!; [done | done | right]. eexists; split; [|done]. by destruct (initialized_ m).
  - cbn. split_and!; [done | done | right]. by exists (RemoveCalled sid).
  - unfold ReloadAgent. destruct (initialized_ m), b; cbn; split_and!; auto; done.
  - destruct (FindOrCreateEntry_frame sid m) as (Hc & Hn & Hx & _). unfold GetOrCreateSession. auto.
  - unfold RegisterReservedSession. destruct (str_empty sid); cbn; auto.
  - cbn. auto.
Qed.

Lemma exec_cases act m m' :
  exec act m = Some m' ->
  (exists i, step i m = Some m' \/ step_throws i m = Some m') \/
  (forall i, act <> AStep i /\ act <> AThrow i).
Proof.
  intros E. destruct act as [sid|sid|i|i|cfg b|sid|sid|]; try (right; done);
    left; exists i; cbn in E; auto.
Qed.

Lemma exec_gate act m m' : exec act m = Some m' -> gate_ok m -> gate_ok m'.
Proof.
  intros E Hg. destruct (exec_cases _ _ _ E) as [[i Hi]|Ho]; [by eapply step_gate|].
  destruct (exec_other _ _ _ Ho E) as (Hn & _ & Hc). unfold gate_ok, gated_calls in *. rewrite Hn.
  destruct Hc as [->|(c & Hc & ->)]; [done|].
  rewrite List.filter_app, length_app. cbn. rewrite Hc. cbn. lia.
Qed.

Lemma restore_frame creatable l m :
  let m1 := fold_left (restore creatable) l m in
  calls m1 = calls m /\ concurrentCount_ m1 = concurrentCount_ m /\
  maxConcurrent_ m1 = maxConcurrent_ m /\ agents m1 = agents m /\ agent_ m1 = agent_ m.
Proof.
  cbn zeta. revert m; induction l as [|sid l IH]; intros m; [done|]. cbn [fold_left].
  destruct (IH (restore creatable m sid)) as (-> & -> & -> & -> & ->). unfold restore.
  destruct (creatable sid); [|done]. apply FindOrCreateEntry_frame.
Qed.

Lemma Initialize_frame absolute dirs creatable (config : AgentConfig) :
  let m := Initialize absolute dirs creatable config manager_new in
  calls m = [] /\ concurrentCount_ m = 0 /\
  (0 < maxConcurrentSessions config -> maxConcurrent_ m = maxConcurrentSessions config) /\
  agent_ m = 0%nat /\ map draining_ (agents m) = [false].
Proof.
  cbn zeta. unfold Initialize. cbn [calls concurrentCount_ maxConcurrent_ agent_ agents set_initialized].
  destruct (restore_frame creatable
    (List.filter (fun d => negb (front_is "." d) && negb (str_empty d)) dirs ++ [kDefaultSessionId])
    (start_manager absolute config manager_new)) as (-> & -> & -> & -> & ->).
  unfold start_manager. cbn [maxConcurrentSessions set_dataBasePath].
  destruct (Z.ltb_spec 0 (maxConcurrentSessions config)); cbn; split_and!; try done; lia.
Qed.

(** C13.  Without a reload, at most [maxConcurrentSessions] calls are between
    taking and giving back a slot of the gate, whatever the calls and their
    interleaving. *)
Theorem turns_bounded absolute dirs creatable (config : AgentConfig) (m : Manager) :
  0 < maxConcurrentSessions config ->
  steps no_reload (Initialize absolute dirs creatable config manager_new) m ->
  Z.of_nat (gated_calls m) <= maxConcurrentSessions config.
Proof.
  intros Hpos Hr.
  set (m0 := Initialize absolute dirs creatable config manager_new) in Hr.
  enough (gate_ok m /\ concurrentCount_ m <= maxConcurrent_ m /\
          maxConcurrent_ m = maxConcurrentSessions config) as (Hg & Hle & <-)
    by (unfold gate_ok in Hg; lia).
  refine (reach_invariant _ (fun m => gate_ok m /\ concurrentCount_ m <= maxConcurrent_ m /\
    maxConcurrent_ m = maxConcurrentSessions config) m0 _ _ m Hr); clear m Hr.
  - assert (calls m0 = [] /\ concurrentCount_ m0 = 0 /\ maxConcurrent_ m0 = maxConcurrentSessions config)
      as (Hc & Hn & Hm)
      by (destruct (Initialize_frame absolute dirs creatable config) as (? & ? & Hm & _); auto).
    unfold gate_ok, gated_calls. rewrite Hc, Hn, Hm. cbn. lia.
  - intros m m' (Hg & Hle & Hm) (act & Hact & E). split; [by eapply exec_gate|].
    destruct (exec_cases _ _ _ E) as [[i Hi]|Ho].
    + apply step_slots in Hi as (c & c' & _ & _ & Hmax & Hmove). rewrite Hmax. split; [|done].
      destruct Hmove as [? ? ? Hn|? ? ? Hn [?|[_ ?]]|? ? ? ? Hn|? Hn]; rewrite Hn; try lia.
      destruct (Z.ltb_spec 0 (concurrentCount_ m)); lia.
    + destruct (exec_other _ _ _ Ho E) as (Hn & Hmax & _). rewrite Hn, Hmax by done. done.
Qed.

(** A turn whose session cannot be created keeps its slot for ever, since the
    exception leaves [Invoke] before the slot is given back.  Once all slots are
    lost this way, no call is ever admitted again, short of a reload. *)
Theorem lost_slots_block_forever (m m' : Manager) :
  0 < maxConcurrent_ m <= concurrentCount_ m -> gated_calls m = 0%nat ->
  steps no_reload m m' -> gated_calls m' = 0%nat /\ concurrentCount_ m' = concurrentCount_ m.
Proof.
  intros Hfull Hnone Hr.
  enough (gated_calls m' = 0%nat /\ concurrentCount_ m' = concurrentCount_ m /\
          maxConcurrent_ m' = maxConcurrent_ m) by tauto.
  refine (reach_invariant _ (fun m' => gated_calls m' = 0%nat /\
    concurrentCount_ m' = concurrentCount_ m /\ maxConcurrent_ m' = maxConcurrent_ m) m _ _ m' Hr);
    [done|]. clear m' Hr. intros m1 m2 (Hg & Hn & Hm) (act & Hact & E).
  destruct (exec_cases _ _ _ E) as [[i Hi]|Ho].
  - apply step_slots in Hi as (c & c' & Hc & Hcs & Hmax & Hmove). rewrite Hmax.
    pose proof (gated_insert _ i c c' Hc) as G. unfold gated_calls in *. rewrite Hcs.
    destruct Hmove as [c c' Hs Hn2|c sid Hs Hn2 [?|[_ ?]]|c c' Hs Hs' Hn2|sid Hn2].
    + rewrite Hs in G. rewrite Hn2. split_and!; [destruct (gated c'); lia | done | done].
    + lia.
    + lia.
    + rewrite Hs, Hs' in G. lia.
    + cbn [gated] in G. lia.
  - destruct (exec_other _ _ _ Ho E) as (Hn2 & Hmax & Hc). rewrite Hn2, Hmax by done.
    split_and!; try done. unfold gated_calls in *. destruct Hc as [->|(c & Hc & ->)]; [done|].
    rewrite List.filter_app, length_app, Hg. cbn. by rewrite Hc.
Qed.

(** A call that waits at the gate when a reload lifts the limit waits for
    ever, short of another reload: the predicate it waits for compares the count
    with a limit of zero. *)
Theorem lifted_limit_strands_waiters (m m' : Manager) (i : nat) (sid : string) :
  gate_ok m -> calls m !! i = Some (Waiting sid) -> maxConcurrent_ m <= 0 ->
  steps no_reload m m' -> calls m' !! i = Some (Waiting sid).
Proof.
  intros Hg Hi Hmax Hr.
  enough (gate_ok m' /\ maxConcurrent_ m' <= 0 /\ calls m' !! i = Some (Waiting sid)) by tauto.
  refine (reach_invariant _ (fun m' => gate_ok m' /\ maxConcurrent_ m' <= 0 /\
    calls m' !! i = Some (Waiting sid)) m _ _ m' Hr); [done|].
  clear m Hg Hi Hmax Hr. intros m1 m2 (Hg & Hmax & Hi) (act & Hact & E).
  split; [by eapply exec_gate|]. destruct (exec_cases _ _ _ E) as [[j Hj]|Ho].
  - pose proof Hj as Hs. apply step_slots in Hs as (c & c' & Hc & Hcs & Hm & _).
    rewrite Hm, Hcs. split; [done|]. destruct (decide (i = j)) as [->|Hij];
      [|by rewrite list_lookup_insert_ne by done].
    exfalso. unfold step, step_throws in Hj. rewrite Hi in Hj.
    assert (concurrentCount_ m1 <? maxConcurrent_ m1 = false) as Hlt.
    { unfold gate_ok in Hg. apply Z.ltb_ge. lia. }
    rewrite Hlt in Hj. by destruct Hj.
  - destruct (exec_other _ _ _ Ho E) as (_ & Hm & Hc). rewrite Hm by done. split; [done|].
    destruct Hc as [->|(c & _ & ->)]; [done|]. by apply lookup_app_l_Some.
Qed.

(** *** The per-session mutex *)

(** Who holds what: the mutex of an entry is held by a call that is inside the
    entry's turn, [isBusy] says whether that call is between setting and clearing
    it, and a call inside a turn holds the mutex. *)
Definition entry_ok (cs : list Call) (e : nat) (en : SessionEntry) : Prop :=
  match invokeMutex en with
  | Some i => exists c, cs !! i = Some c /\ holder c = Some e /\ isBusy en = busy_call c
  | None => isBusy en = false
  end.

Definition mutex_ok (cs : list Call) (es : list SessionEntry) : Prop :=
  (forall e en, es !! e = Some en -> entry_ok cs e en) /\
  (forall i c e, cs !! i = Some c -> holder c = Some e ->
     exists en, es !! e = Some en /\ invokeMutex en = Some i).

(** A call moves without changing what it holds. *)
Lemma mutex_move cs es i c c' :
  mutex_ok cs es -> cs !! i = Some c -> holder c' = holder c -> busy_call c' = busy_call c ->
  mutex_ok (<[i := c']> cs) es.
Proof.
  intros [He Hc] Hi Hh Hb. pose proof (lookup_lt_Some _ _ _ Hi) as Hlt. split.
  - intros e en Hen. specialize (He e en Hen). unfold entry_ok in *.
    destruct (invokeMutex en) as [j|]; [|done]. destruct He as (d & Hj & Hd & Hbd).
    destruct (decide (j = i)) as [->|Hne].
    + assert (d = c) as -> by congruence. exists c'. rewrite list_lookup_insert_eq by done.
      split_and!; congruence.
    + exists d. by rewrite list_lookup_insert_ne by done.
  - intros j d e Hj Hd. apply list_lookup_insert_Some in Hj as [(-> & <- & _)|[Hne Hj]];
      [|by eapply Hc]. eapply Hc; [done|]. congruence.
Qed.

Lemma lookup_alter_entry (f : SessionEntry -> SessionEntry) (es : list SessionEntry) (e d : nat) en :
  alter f e es !! d = Some en ->
  (d = e /\ exists en0, es !! e = Some en0 /\ en = f en0) \/ (d <> e /\ es !! d = Some en).
Proof.
  intros Hd. destruct (decide (e = d)) as [->|Hne].
  - rewrite list_lookup_alter_eq in Hd. apply fmap_Some in Hd as (en0 & Hd & ->). left. eauto.
  - rewrite list_lookup_alter_ne in Hd by done. right. split; [congruence | done].
Qed.

(** A call takes the mutex, clears [isBusy], or gives the mutex back. *)
Lemma mutex_take cs es i e en c c' :
  mutex_ok cs es -> cs !! i = Some c -> holder c = None -> es !! e = Some en ->
  invokeMutex en = None -> holder c' = Some e -> busy_call c' = true ->
  mutex_ok (<[i := c']> cs) (alter (fun x => set_mutex (Some i) (set_busy true x)) e es).
Proof.
  intros [He Hc] Hi Hh Hen Hm Hh' Hb'. pose proof (lookup_lt_Some _ _ _ Hi) as Hlt. split.
  - intros d en' Hd. apply lookup_alter_entry in Hd as [(-> & en0 & Hen0 & ->)|[Hne Hd]].
    + exists c'. cbn. by rewrite list_lookup_insert_eq.
    + specialize (He d en' Hd). unfold entry_ok in *. destruct (invokeMutex en') as [j|]; [|done].
      destruct He as (x & Hj & Hx & Hbx). exists x.
      destruct (decide (i = j)) as [->|Hij]; [congruence|]. by rewrite list_lookup_insert_ne.
  - intros j x d Hj Hx. apply list_lookup_insert_Some in Hj as [(-> & <- & _)|[Hne Hj]].
    + assert (d = e) as -> by congruence. rewrite list_lookup_alter_eq, Hen. eauto.
    + destruct (Hc j x d Hj Hx) as (en1 & Hd & Hm1). destruct (decide (e = d)) as [->|Hed].
      * congruence.
      * rewrite list_lookup_alter_ne by done. eauto.
Qed.

Lemma mutex_unbusy cs es i e c c' :
  mutex_ok cs es -> cs !! i = Some c -> holder c = Some e -> holder c' = Some e ->
  busy_call c' = false -> mutex_ok (<[i := c']> cs) (alter (set_busy false) e es).
Proof.
  intros [He Hc] Hi Hh Hh' Hb'. pose proof (lookup_lt_Some _ _ _ Hi) as Hlt. split.
  - intros d en' Hd. apply lookup_alter_entry in Hd as [(-> & en0 & Hen0 & ->)|[Hne Hd]].
    + destruct (Hc i c e Hi Hh) as (en1 & Hen1 & Hm1). assert (en0 = en1) as -> by congruence.
      unfold entry_ok. cbn. rewrite Hm1. exists c'. by rewrite list_lookup_insert_eq.
    + specialize (He d en' Hd). unfold entry_ok in *. destruct (invokeMutex en') as [j|]; [|done].
      destruct He as (x & Hj & Hx & Hbx). exists x.
      destruct (decide (i = j)) as [->|Hij]; [congruence|]. by rewrite list_lookup_insert_ne.
  - intros j x d Hj Hx. assert (exists y, cs !! j = Some y /\ holder y = Some d) as (y & Hy & Hhy).
    { apply list_lookup_insert_Some in Hj as [(-> & <- & _)|[Hne Hj]]; [|eauto].
      exists c. split; [done | congruence]. }
    destruct (Hc j y d Hy Hhy) as (en1 & Hd & Hm1). destruct (decide (e = d)) as [->|Hed].
    + rewrite list_lookup_alter_eq, Hd. eauto.
    + rewrite list_lookup_alter_ne by done. eauto.
Qed.

Lemma mutex_release cs es i e c c' :
  mutex_ok cs es -> cs !! i = Some c -> holder c = Some e -> busy_call c = false ->
  holder c' = None -> mutex_ok (<[i := c']> cs) (alter (set_mutex None) e es).
Proof.
  intros [He Hc] Hi Hh Hb Hh'. pose proof (lookup_lt_Some _ _ _ Hi) as Hlt.
  destruct (Hc i c e Hi Hh) as (en1 & Hen1 & Hm1). split.
  - intros d en' Hd. apply lookup_alter_entry in Hd as [(-> & en0 & Hen0 & ->)|[Hne Hd]].
    + assert (en0 = en1) as -> by congruence. specialize (He e en1 Hen1).
      unfold entry_ok in *. rewrite Hm1 in He. cbn. destruct He as (x & Hx & _ & ->). congruence.
    + specialize (He d en' Hd). unfold entry_ok in *. destruct (invokeMutex en') as [j|]; [|done].
      destruct He as (x & Hj & Hx & Hbx). exists x.
      destruct (decide (i = j)) as [->|Hij]; [congruence|]. by rewrite list_lookup_insert_ne.
  - intros j x d Hj Hx. apply list_lookup_insert_Some in Hj as [(-> & <- & _)|[Hne Hj]]; [congruence|].
    destruct (Hc j x d Hj Hx) as (en2 & Hd & Hm2). destruct (decide (e = d)) as [->|Hed].
    + congruence.
    + rewrite list_lookup_alter_ne by done. eauto.
Qed.

(** Changes outside the protocol: a new entry, a new call, another agent. *)
Lemma mutex_new_entry cs es sid path a :
  mutex_ok cs es -> mutex_ok cs (es ++ [mkSessionEntry sid path a false None]).
Proof.
  intros [He Hc]. split.
  - intros e en Hen. apply lookup_app_Some in Hen as [Hen|[_ Hen]]; [by apply He|].
    apply list_lookup_singleton_Some in Hen as [_ <-]. done.
  - intros i c e Hi Hh. destruct (Hc i c e Hi Hh) as (en & Hen & Hm). exists en.
    split; [by apply lookup_app_l_Some | done].
Qed.

Lemma mutex_new_call cs es c : mutex_ok cs es -> holder c = None -> mutex_ok (cs ++ [c]) es.
Proof.
  intros [He Hc] Hh. split.
  - intros e en Hen. specialize (He e en Hen). unfold entry_ok in *.
    destruct (invokeMutex en) as [i|]; [|done]. destruct He as (d & Hd & Hx). exists d.
    split; [by apply lookup_app_l_Some | done].
  - intros i d e Hi Hd. apply lookup_app_Some in Hi as [Hi|[_ Hi]]; [by eapply Hc|].
    apply list_lookup_singleton_Some in Hi as [_ <-]. congruence.
Qed.

Lemma mutex_rebind cs es e a : mutex_ok cs es -> mutex_ok cs (alter (set_agent_of a) e es).
Proof.
  intros [He Hc]. split.
  - intros d en Hd. apply lookup_alter_entry in Hd as [(-> & en0 & Hen0 & ->)|[_ Hd]]; [|by apply He].
    exact (He e en0 Hen0).
  - intros i c d Hi Hh. destruct (Hc i c d Hi Hh) as (en & Hen & Hm).
    destruct (decide (e = d)) as [->|Hed].
    + rewrite list_lookup_alter_eq, Hen. eauto.
    + rewrite list_lookup_alter_ne by done. eauto.
Qed.

Definition mutexes_ok (m : Manager) : Prop := mutex_ok (calls m) (entries m).

Lemma FindOrCreateEntry_mutex sid m : mutexes_ok m -> mutexes_ok (FindOrCreateEntry sid m).1.
Proof.
  unfold FindOrCreateEntry, mutexes_ok. destruct (sessions_ m !! sid); [done|]. cbn.
  apply mutex_new_entry.
Qed.

Lemma bind_entry_mutex sid m m1 e a :
  bind_entry sid m = Some (m1, e, a) -> mutexes_ok m -> mutexes_ok m1.
Proof.
  unfold bind_entry. intros E Hm. apply (FindOrCreateEntry_mutex sid) in Hm.
  destruct (FindOrCreateEntry sid m) as [m0 e0]. destruct (entries m0 !! e0) as [en|]; [|done].
  injection E as <- <- <-. destruct (is_draining _ _); [|done]. by apply mutex_rebind.
Qed.

Lemma step_mutex i m m' :
  step i m = Some m' \/ step_throws i m = Some m' -> mutexes_ok m -> mutexes_ok m'.
Proof.
  unfold mutexes_ok. intros [E|E] Hm.
  - unfold step in E. destruct (calls m !! i) as [c|] eqn:Ei; [|done].
    step_cases c E; try (injection E as <-; by eapply mutex_move).
    + destruct (_ && _) in E; injection E as <-; by eapply mutex_move.
    + destruct (_ <? _) in E; [|done]. injection E as <-. by eapply mutex_move.
    + destruct (bind_entry sid m) as [[[m1 e] a]|] eqn:Eb; [|done]. injection E as <-.
      pose proof (bind_entry_frame _ _ _ _ _ Eb) as (Hc & _).
      apply (bind_entry_mutex _ _ _ _ _ Eb) in Hm. unfold mutexes_ok in Hm. cbn.
      eapply mutex_move; [done | by rewrite Hc | done | done].
    + destruct (entries m !! e) as [en|] eqn:Een; [|done]. cbn in E.
      destruct (invokeMutex en) eqn:Emu; [done|]. injection E as <-. by eapply mutex_take.
    + injection E as <-. by eapply mutex_unbusy.
    + injection E as <-. by eapply mutex_release.
    + injection E as <-. eapply mutex_move; try done; by destruct (_ || _).
    + injection E as <-. cbn. destruct (match _ with Some _ => _ | None => _ end); by eapply mutex_move.
  - unfold step_throws in E. destruct (calls m !! i) as [c|] eqn:Ei; [|done].
    step_cases c E; [|injection E as <-; by eapply mutex_move].
    destruct (sessions_ m !! sid); [done|]. injection E as <-. by eapply mutex_move.
Qed.

Lemma exec_mutex act m m' : exec act m = Some m' -> mutexes_ok m -> mutexes_ok m'.
Proof.
  intros E Hm. destruct (exec_cases _ _ _ E) as [[i Hi]|Ho]; [by eapply step_mutex|].
  destruct act as [sid|sid|i|i|cfg b|sid|sid|]; cbn [exec] in E;
    try (by destruct (Ho i)); injection E as <-; unfold mutexes_ok; cbn.
  - apply mutex_new_call; [done|]. by destruct (initialized_ m).
  - by apply mutex_new_call.
  - unfold ReloadAgent. by destruct (initialized_ m), b.
  - by apply FindOrCreateEntry_mutex.
  - unfold RegisterReservedSession. by destruct (str_empty sid).
  - done.
Qed.

Lemma restore_mutex creatable l m : mutexes_ok m -> mutexes_ok (fold_left (restore creatable) l m).
Proof.
  revert m; induction l as [|sid l IH]; intros m Hm; [done|]. cbn. apply IH. unfold restore.
  destruct (creatable sid); [|done]. by apply FindOrCreateEntry_mutex.
Qed.

Lemma Initialize_mutex absolute dirs creatable config :
  mutexes_ok (Initialize absolute dirs creatable config manager_new).
Proof.
  apply restore_mutex. unfold start_manager. destruct (0 <? _); (split; [done|]); intros ? ? ? [=].
Qed.

(** *** Entries and names *)

Definition ids (m : Manager) : list string := map en_sessionId (entries m).

Definition names_ok (m : Manager) : Prop :=
  (forall sid e, sessions_ m !! sid = Some e -> ids m !! e = Some sid) /\
  (forall i c sid e, calls m !! i = Some c -> call_entry c = Some (sid, e) -> ids m !! e = Some sid).

Lemma ids_alter (f : SessionEntry -> SessionEntry) e es :
  (forall en, en_sessionId (f en) = en_sessionId en) ->
  map en_sessionId (alter f e es) = map en_sessionId es.
Proof.
  intros Hf. apply list_eq. intros i. change (@map) with (@list_fmap). rewrite !list_lookup_fmap.
  destruct (decide (e = i)) as [->|Hne].
  - rewrite list_lookup_alter_eq. destruct (es !! i); cbn; by rewrite ?Hf.
  - by rewrite list_lookup_alter_ne.
Qed.

Definition removing (c : Call) : bool :=
  match c with
  | RemoveCalled _ | Erasing _ | Erased _ _ _ | Deleted _ _ | Removed _ => true
  | _ => false
  end.
Definition no_removal (act : action) : bool := match act with ANewRemove _ => false | _ => true end.

(** While nothing is removed, every entry is the one its name is mapped to. *)
Definition sessions_ok (m : Manager) : Prop :=
  names_ok m /\ (forall e sid, ids m !! e = Some sid -> sessions_ m !! sid = Some e) /\
  (forall i c, calls m !! i = Some c -> removing c = false).

Lemma FindOrCreateEntry_sessions sid m :
  sessions_ok m ->
  sessions_ok (FindOrCreateEntry sid m).1 /\
  ids (FindOrCreateEntry sid m).1 !! (FindOrCreateEntry sid m).2 = Some sid.
Proof.
  intros [[Hs Hc] [Hu Hr]]. unfold FindOrCreateEntry.
  destruct (sessions_ m !! sid) as [e|] eqn:E; [split; [done | by apply Hs]|].
  unfold sessions_ok, names_ok, ids. cbn. rewrite map_app. cbn.
  assert (forall e s, ids m !! e = Some s -> (ids m ++ [sid]) !! e = Some s) as Hext
    by (intros; by apply lookup_app_l_Some).
  assert (length (entries m) = length (ids m)) as Hlen by (unfold ids; by rewrite length_map).
  change (map en_sessionId (entries m)) with (ids m). rewrite Hlen.
  assert ((ids m ++ [sid]) !! length (ids m) = Some sid) as Hnew
    by (by rewrite lookup_app_r, Nat.sub_diag by lia).
  split; [|done]. split_and!; try done.
  - intros s e Hse. destruct (decide (s = sid)) as [->|Hne].
    + rewrite lookup_insert, decide_True in Hse by done. injection Hse as <-. done.
    + rewrite lookup_insert_ne in Hse by done. eauto.
  - eauto.
  - intros e s Hse. destruct (decide (s = sid)) as [->|Hne].
    + apply lookup_app_Some in Hse as [Hse|[Hge Hse]]; [apply Hu in Hse; congruence|].
      apply list_lookup_singleton_Some in Hse as [He _]. rewrite lookup_insert, decide_True by done.
      f_equal. lia.
    + rewrite lookup_insert_ne by done. apply Hu.
      apply lookup_app_Some in Hse as [Hse|[Hge Hse]]; [done|].
      apply list_lookup_singleton_Some in Hse as [_ ->]. done.
Qed.

(** A change of entries that keeps their names, and a move of a call that names an
    entry only when that entry is the session's. *)
Lemma sessions_move i c' m m' :
  sessions_ok m -> ids m' = ids m -> sessions_ m' = sessions_ m ->
  calls m' = <[i := c']> (calls m) -> removing c' = false ->
  (forall sid e, call_entry c' = Some (sid, e) -> ids m !! e = Some sid) -> sessions_ok m'.
Proof.
  intros [[Hs Hc] [Hu Hr]] Hids Hses Hcs Hrem Hnew. unfold sessions_ok, names_ok.
  rewrite Hids, Hses, Hcs. split_and!; try done.
  - intros j c sid e Hj Hce. apply list_lookup_insert_Some in Hj as [(_ & <- & _)|[_ Hj]]; eauto.
  - intros j c Hj. apply list_lookup_insert_Some in Hj as [(_ & <- & _)|[_ Hj]]; eauto.
Qed.

Lemma bind_entry_sessions sid m m1 e a :
  bind_entry sid m = Some (m1, e, a) -> sessions_ok m ->
  sessions_ok m1 /\ ids m1 !! e = Some sid.
Proof.
  unfold bind_entry. intros E Hm. apply (FindOrCreateEntry_sessions sid) in Hm.
  destruct (FindOrCreateEntry sid m) as [m0 e0]. destruct (entries m0 !! e0) as [en|]; [|done].
  injection E as <- <- <-. destruct (is_draining _ _); [|done].
  assert (ids (on_entry e0 (set_agent_of (agent_ m0)) m0) = ids m0) as Hi by (by apply ids_alter).
  destruct Hm as [Hm Hid]. unfold sessions_ok, names_ok. by rewrite Hi.
Qed.

Lemma step_sessions i m m' :
  step i m = Some m' \/ step_throws i m = Some m' -> sessions_ok m -> sessions_ok m'.
Proof.
  intros E Hm. pose proof Hm as [[_ Hc] [_ Hr]].
  assert (exists c, calls m !! i = Some c) as [c Ei].
  { destruct E as [E|E]; unfold step, step_throws in E; destruct (calls m !! i); eauto; done. }
  pose proof (Hr i c Ei) as Hrc. pose proof (fun sid e => Hc i c sid e Ei) as Hce.
  destruct E as [E|E]; [unfold step in E|unfold step_throws in E]; rewrite Ei in E;
    step_cases c E; try discriminate Hrc.
  all: try (injection E as <-; eapply sessions_move; try done; try (by apply ids_alter); done).
  - destruct (_ && _) in E; injection E as <-; by eapply sessions_move.
  - destruct (_ <? _) in E; [|done]. injection E as <-. by eapply sessions_move.
  - destruct (bind_entry sid m) as [[[m1 e] a]|] eqn:Eb; [|done]. injection E as <-.
    destruct (bind_entry_sessions _ _ _ _ _ Eb Hm) as [Hm1 Hid].
    eapply (sessions_move i (Found sid e a) m1); try done. by intros ? ? [= <- <-].
  - destruct (entries m !! e) as [en|]; [|done]. cbn in E. destruct (invokeMutex en); [done|].
    injection E as <-. eapply sessions_move; try done. by apply ids_alter.
  - destruct (sessions_ m !! sid); [done|]. injection E as <-. by eapply sessions_move.
Qed.

Lemma exec_sessions act m m' :
  no_removal act = true -> exec act m = Some m' -> sessions_ok m -> sessions_ok m'.
Proof.
  intros Ha E Hm. destruct (exec_cases _ _ _ E) as [[i Hi]|Ho]; [by eapply step_sessions|].
  destruct act as [sid|sid|i|i|cfg b|sid|sid|]; cbn [exec] in E;
    try (by destruct (Ho i)); try done; injection E as <-.
  - pose proof Hm as [[Hs Hc] [Hu Hr]]. split_and!; try done.
    + split; [done|]. intros j c s e Hj Hce. apply lookup_app_Some in Hj as [Hj|[_ Hj]]; [by eapply Hc|].
      apply list_lookup_singleton_Some in Hj as [_ <-]. by destruct (initialized_ m).
    + intros j c Hj. apply lookup_app_Some in Hj as [Hj|[_ Hj]]; [by eapply Hr|].
      apply list_lookup_singleton_Some in Hj as [_ <-]. by destruct (initialized_ m).
  - unfold ReloadAgent. by destruct (initialized_ m), b.
  - by apply FindOrCreateEntry_sessions.
  - unfold RegisterReservedSession. by destruct (str_empty sid).
  - done.
Qed.

Lemma Initialize_sessions absolute dirs creatable config :
  sessions_ok (Initialize absolute dirs creatable config manager_new).
Proof.
  assert (forall l m, sessions_ok m -> sessions_ok (fold_left (restore creatable) l m)) as Hf.
  { induction l as [|sid l IH]; intros m Hm; [done|]. cbn. apply IH. unfold restore.
    destruct (creatable sid); [|done]. by apply FindOrCreateEntry_sessions. }
  apply Hf. unfold start_manager. destruct (0 <? _); split_and!; try done;
    (split; [intros ? ? Hs; by rewrite lookup_empty in Hs | done]).
Qed.

(** A call that is inside a turn of the session. *)
Definition in_turn (sid : string) (c : Call) : Prop :=
  exists e, call_entry c = Some (sid, e) /\ holder c = Some e.

(** C2.  As long as no session is removed, at most one call is inside a turn of a
    session at any time, and the session's entry says it is busy exactly while a
    turn is between setting and clearing the flag. *)
Theorem one_turn_per_session absolute dirs creatable (config : AgentConfig) (m : Manager) :
  steps no_removal (Initialize absolute dirs creatable config manager_new) m ->
  (forall i j sid c d, calls m !! i = Some c -> calls m !! j = Some d ->
     in_turn sid c -> in_turn sid d -> i = j) /\
  (forall e en, entries m !! e = Some en ->
     isBusy en = true <-> exists i c, calls m !! i = Some c /\ holder c = Some e /\ busy_call c = true).
Proof.
  intros Hr.
  assert (mutexes_ok m /\ sessions_ok m) as [[He Hc] Hs].
  { refine (reach_invariant _ (fun m => mutexes_ok m /\ sessions_ok m) _ _ _ m Hr).
    - split; [apply Initialize_mutex | apply Initialize_sessions].
    - intros m1 m2 [Hm Hs] (act & Ha & E). eauto using exec_mutex, exec_sessions. }
  destruct Hs as [[_ Hn] [Hu _]]. split.
  - intros i j sid c d Hi Hj (e1 & Hc1 & Hh1) (e2 & Hc2 & Hh2).
    assert (e1 = e2) as -> by (pose proof (Hu _ _ (Hn _ _ _ _ Hi Hc1)); pose proof (Hu _ _ (Hn _ _ _ _ Hj Hc2)); congruence).
    destruct (Hc i c e2 Hi Hh1) as (en1 & Hen1 & Hm1).
    destruct (Hc j d e2 Hj Hh2) as (en2 & Hen2 & Hm2). congruence.
  - intros e en Hen. specialize (He e en Hen) as Hok. unfold entry_ok in Hok. split.
    + intros Hb. destruct (invokeMutex en) as [i|]; [|congruence].
      destruct Hok as (c & Hi & Hh & Hbc). exists i, c. split_and!; congruence.
    + intros (i & c & Hi & Hh & Hb). destruct (Hc i c e Hi Hh) as (en1 & Hen1 & Hm1).
      assert (en1 = en) as -> by congruence. rewrite Hm1 in Hok.
      destruct Hok as (c1 & Hi1 & _ & Hbc). congruence.
Qed.

(** *** Agents *)

(** The active agent is the only one that is not draining, and entries point to
    agents that exist. *)
Definition drains (m : Manager) : list bool := map draining_ (agents m).
Definition agents_ok (m : Manager) : Prop :=
  (agent_ m < length (agents m))%nat /\
  (forall a b, drains m !! a = Some b -> b = negb (Nat.eqb a (agent_ m))) /\
  (forall e en, entries m !! e = Some en -> (en_agent en < length (agents m))%nat).

Lemma drains_alter (f : Agent -> Agent) a l :
  (forall ag, draining_ (f ag) = draining_ ag) -> map draining_ (alter f a l) = map draining_ l.
Proof.
  intros Hf. apply list_eq. intros i. change (@map) with (@list_fmap). rewrite !list_lookup_fmap.
  destruct (decide (a = i)) as [->|Hne].
  - rewrite list_lookup_alter_eq. destruct (l !! i); cbn; by rewrite ?Hf.
  - by rewrite list_lookup_alter_ne.
Qed.

Lemma draining_idle s ag : draining_ (NotifySessionIdle s ag) = draining_ ag.
Proof. unfold NotifySessionIdle. by destruct (excluded s ag). Qed.

Lemma is_draining_spec a m :
  agents_ok m -> (a < length (agents m))%nat -> is_draining a m = negb (Nat.eqb a (agent_ m)).
Proof.
  intros (_ & Hd & _) Ha. unfold is_draining.
  destruct (lookup_lt_is_Some_2 (agents m) a Ha) as [ag E]. rewrite E. apply Hd.
  unfold drains. change (@map) with (@list_fmap). by rewrite list_lookup_fmap, E.
Qed.

(** What the invariant needs of a change. *)
Lemma agents_ok_same m m' :
  agents_ok m -> agent_ m' = agent_ m -> drains m' = drains m ->
  (forall e en, entries m' !! e = Some en -> (en_agent en < length (agents m))%nat) -> agents_ok m'.
Proof.
  intros (Ha & Hd & He) Hag Hdr Hen. unfold agents_ok. rewrite Hag, Hdr.
  assert (length (agents m') = length (agents m)) as ->; [|by split_and!].
  apply (f_equal length) in Hdr. unfold drains in Hdr. by rewrite !length_map in Hdr.
Qed.

Lemma entries_alter_agent (f : SessionEntry -> SessionEntry) (n e d : nat) (es : list SessionEntry) en :
  (forall en, es !! d = Some en -> (en_agent en < n)%nat) ->
  (forall en0, (en_agent en0 < n)%nat -> (en_agent (f en0) < n)%nat) ->
  alter f e es !! d = Some en -> (en_agent en < n)%nat.
Proof.
  intros He Hf Hd. apply lookup_alter_entry in Hd as [(-> & en0 & Hd & ->)|[_ Hd]]; auto.
Qed.

Lemma FindOrCreateEntry_agents sid m : agents_ok m -> agents_ok (FindOrCreateEntry sid m).1.
Proof.
  intros Hm. pose proof Hm as (Ha & _ & He). unfold FindOrCreateEntry.
  destruct (sessions_ m !! sid); [done|]. apply (agents_ok_same m); try done.
  cbn. intros e en Hen. apply lookup_app_Some in Hen as [Hen|[_ Hen]]; [eauto|].
  by apply list_lookup_singleton_Some in Hen as [_ <-].
Qed.

Lemma bind_entry_agents sid m m1 e a :
  bind_entry sid m = Some (m1, e, a) -> agents_ok m ->
  agents_ok m1 /\ a = agent_ m1 /\ exists en, entries m1 !! e = Some en /\ en_agent en = agent_ m1.
Proof.
  unfold bind_entry. intros E Hm. apply (FindOrCreateEntry_agents sid) in Hm.
  destruct (FindOrCreateEntry sid m) as [m0 e0]. cbn in Hm.
  destruct (entries m0 !! e0) as [en|] eqn:Een; [|done].
  pose proof Hm as (Ha & _ & He). rewrite (is_draining_spec _ _ Hm (He _ _ Een)) in E.
  destruct (Nat.eqb_spec (en_agent en) (agent_ m0)) as [Heq|Hne]; cbn [negb] in E; injection E as <- <- <-.
  - split_and!; [done | done | eauto].
  - split; [|split; [done|]].
    + apply (agents_ok_same m0); try done. cbn. intros d en' Hd.
      eapply entries_alter_agent; [intros; by eapply He | | exact Hd]. by intros.
    + cbn. rewrite list_lookup_alter_eq, Een. by eexists.
Qed.

Lemma step_agents i m m' :
  step i m = Some m' \/ step_throws i m = Some m' -> agents_ok m -> agents_ok m'.
Proof.
  intros E Hm. pose proof Hm as (Ha & _ & He).
  destruct E as [E|E]; [unfold step in E|unfold step_throws in E];
    destruct (calls m !! i) as [c|] eqn:Ei; try done; step_cases c E.
  all: try (injection E as <-; apply (agents_ok_same m); try done;
            first [by apply drains_alter | apply drains_alter; intros; apply draining_idle]).
  all: try (injection E as <-; apply (agents_ok_same m); try done;
            cbn; intros; eapply entries_alter_agent; [intros; by eapply He | | done]; done).
  - destruct (_ && _) in E; injection E as <-; by apply (agents_ok_same m).
  - destruct (_ <? _) in E; [|done]. injection E as <-. by apply (agents_ok_same m).
  - destruct (bind_entry sid m) as [[[m1 e] a]|] eqn:Eb; [|done]. injection E as <-.
    destruct (bind_entry_agents _ _ _ _ _ Eb Hm) as [Hm1 _]. pose proof Hm1 as (_ & _ & He1).
    by apply (agents_ok_same m1).
  - destruct (entries m !! e) as [en|]; [|done]. cbn in E. destruct (invokeMutex en); [done|].
    injection E as <-. apply (agents_ok_same m); try done. cbn. intros d en' Hd.
    eapply entries_alter_agent; [intros; by eapply He | | exact Hd]. done.
  - injection E as <-. destruct (match _ with Some _ => _ | None => _ end); by apply (agents_ok_same m).
  - destruct (sessions_ m !! sid); [done|]. injection E as <-. by apply (agents_ok_same m).
Qed.

Lemma swap_agents newConfig effective m : agents_ok m -> agents_ok (swap_agent newConfig effective m).
Proof.
  intros (Ha & Hd & He). unfold swap_agent.
  unfold agents_ok, drains. cbn.
  rewrite length_app, length_alter. cbn. split_and!.
  - lia.
  - intros a b. change (@map) with (@list_fmap). rewrite list_lookup_fmap.
    destruct (Nat.eqb_spec a (length (agents m))) as [->|Hne].
    + rewrite lookup_app_r, length_alter, Nat.sub_diag by (rewrite length_alter; lia).
      cbn. by intros [= <-].
    + intros E. apply fmap_Some in E as (ag & E & ->).
      apply lookup_app_Some in E as [E|[Hge E]].
      * destruct (decide (agent_ m = a)) as [<-|Hna].
        -- rewrite list_lookup_alter_eq in E. apply fmap_Some in E as (ag0 & _ & ->). done.
        -- rewrite list_lookup_alter_ne in E by done.
           assert (drains m !! a = Some (draining_ ag)) as Hda.
           { unfold drains. change (@map) with (@list_fmap). by rewrite list_lookup_fmap, E. }
           rewrite (Hd _ _ Hda). destruct (Nat.eqb_spec a (agent_ m)); congruence.
      * apply list_lookup_singleton_Some in E as [E _]. rewrite length_alter in *. lia.
  - intros e en Hen. specialize (He e en Hen). lia.
Qed.

Lemma exec_agents act m m' : exec act m = Some m' -> agents_ok m -> agents_ok m'.
Proof.
  intros E Hm. destruct (exec_cases _ _ _ E) as [[i Hi]|Ho]; [by eapply step_agents|].
  pose proof Hm as (_ & _ & He).
  destruct act as [sid|sid|i|i|cfg b|sid|sid|]; cbn [exec] in E;
    try (by destruct (Ho i)); injection E as <-.
  - by apply (agents_ok_same m).
  - by apply (agents_ok_same m).
  - unfold ReloadAgent. destruct (initialized_ m), b; try done. by apply swap_agents.
  - by apply FindOrCreateEntry_agents.
  - unfold RegisterReservedSession. destruct (str_empty sid); [done|]. by apply (agents_ok_same m).
  - apply (agents_ok_same m); try done. by apply drains_alter.
Qed.

Lemma Initialize_agents absolute dirs creatable config :
  agents_ok (Initialize absolute dirs creatable config manager_new).
Proof.
  assert (forall l m, agents_ok m -> agents_ok (fold_left (restore creatable) l m)) as Hf.
  { induction l as [|sid l IH]; intros m Hm; [done|]. cbn. apply IH. unfold restore.
    destruct (creatable sid); [|done]. by apply FindOrCreateEntry_agents. }
  apply Hf. unfold start_manager. destruct (0 <? _); (split; [cbn; lia|]; split; [|done]);
    (intros [|a] b; cbn; [by intros [= <-] | done]).
Qed.

(** C16.  Reloads are graceful.  A turn that looks up its session gets the active
    agent, which is not draining, and its entry is bound to it, whatever reloads
    came before; and a reload changes no call in progress, cancels no agent and
    stops none. *)
Theorem reload_is_graceful absolute dirs creatable (config : AgentConfig) (m : Manager) :
  steps (fun _ => true) (Initialize absolute dirs creatable config manager_new) m ->
  (forall i sid m', calls m !! i = Some (Entered sid) -> step i m = Some m' ->
     exists e en, calls m' !! i = Some (Found sid e (agent_ m')) /\
       entries m' !! e = Some en /\ en_agent en = agent_ m' /\ is_draining (agent_ m') m' = false) /\
  (forall newConfig constructed, let m' := (ReloadAgent newConfig constructed m).1 in
     calls m' = calls m /\ entries m' = entries m /\
     forall a ag, agents m !! a = Some ag -> exists ag', agents m' !! a = Some ag' /\
       running_ ag' = running_ ag /\ cancelGeneration_ ag' = cancelGeneration_ ag /\
       sessionActivity_ ag' = sessionActivity_ ag).
Proof.
  intros Hr.
  assert (agents_ok m) as Hm.
  { refine (reach_invariant _ agents_ok _ _ _ m Hr); [apply Initialize_agents|].
    intros m1 m2 Hm (act & _ & E). by eapply exec_agents. }
  split.
  - intros i sid m' Hi E. unfold step in E. rewrite Hi in E.
    destruct (bind_entry sid m) as [[[m1 e] a]|] eqn:Eb; [|done]. injection E as <-.
    destruct (bind_entry_agents _ _ _ _ _ Eb Hm) as (Hm1 & -> & en & Hen & Hag).
    pose proof (bind_entry_frame _ _ _ _ _ Eb) as (Hc & _). exists e, en. split_and!; try done.
    + cbn. rewrite Hc. apply list_lookup_insert_eq. by eapply lookup_lt_Some.
    + change (is_draining (agent_ m1) m1 = false). pose proof Hm1 as (Hlt & _).
      by rewrite is_draining_spec, Nat.eqb_refl.
  - intros newConfig constructed. cbn zeta. unfold ReloadAgent.
    destruct (initialized_ m), constructed; cbn [negb fst]; split_and!; try done; try (intros; by eexists).
    intros a ag Ha. unfold swap_agent. cbn.
    destruct (decide (agent_ m = a)) as [Heq|Hne].
    + exists (MarkDraining ag). split; [|done]. apply lookup_app_l_Some. cbn.
      by rewrite Heq, list_lookup_alter_eq, Ha.
    + exists ag. split; [|done]. apply lookup_app_l_Some. cbn. by rewrite list_lookup_alter_ne.
Qed.

(** *** Rebinding and removal during a turn *)

(** A turn does not keep its agent for everything it does: when a reload
    happens and another call for the same session looks the session up, the entry
    is rebound while the first turn is still running, and the tools of that turn
    are from then on given the new agent's skills. *)
Theorem queued_turn_rebinds_entry (m m1 m2 : Manager) (newConfig : AgentConfig) (i j e a : nat)
    (sid : string) (en : SessionEntry) :
  agents_ok m -> initialized_ m = true ->
  calls m !! i = Some (Working sid e a) -> entries m !! e = Some en -> en_agent en = a ->
  sessions_ m !! sid = Some e -> calls m !! j = Some (Entered sid) ->
  exec (AReload newConfig true) m = Some m1 -> exec (AStep j) m1 = Some m2 ->
  calls m2 !! i = Some (Working sid e a) /\ skill_agent i m2 = Some (agent_ m2) /\ agent_ m2 <> a.
Proof.
  intros Hm Hinit Hi Hen Ha Hs Hj E1 E2.
  assert (agents_ok m1) as Hm1 by (by eapply exec_agents).
  cbn in E1. unfold ReloadAgent in E1. rewrite Hinit in E1. injection E1 as <-.
  set (effective := if str_empty (dataBasePath newConfig) then _ else _) in *. cbn [fst negb] in *.
  set (m1 := swap_agent newConfig effective m) in *.
  assert (calls m1 = calls m /\ entries m1 = entries m /\ sessions_ m1 = sessions_ m /\
          agent_ m1 = length (agents m)) as (Hc & He & Hs1 & Hag) by done.
  cbn in E2. unfold step in E2. rewrite Hc, Hj in E2.
  destruct (bind_entry sid m1) as [[[m3 e3] a3]|] eqn:Eb; [|done]. injection E2 as <-.
  pose proof (bind_entry_frame _ _ _ _ _ Eb) as (Hc3 & _ & _ & _ & Hag3).
  assert (e3 = e) as ->.
  { unfold bind_entry, FindOrCreateEntry in Eb. rewrite Hs1, Hs, He, Hen in Eb. by injection Eb. }
  destruct (bind_entry_agents _ _ _ _ _ Eb Hm1) as (_ & _ & en3 & Hen3 & Hag4).
  assert (i <> j) as Hij by (intros ->; congruence).
  assert (calls (goto j (Found sid e a3) m3) !! i = Some (Working sid e a)) as Hi3.
  { cbn. rewrite Hc3, Hc, list_lookup_insert_ne by done. done. }
  split; [done|]. unfold skill_agent. rewrite Hi3. cbn. rewrite Hen3. cbn. split; [congruence|].
  pose proof Hm as (_ & _ & Hlt). specialize (Hlt e en Hen). rewrite Hag3, Hag. lia.
Qed.

(** The actions of a removal made by call [j] without interruption. *)
Definition whole_removal (sid : string) (j : nat) : list action :=
  [ANewRemove sid; AStep j; AStep j; AStep j; AStep j].

Lemma lookup_snoc {A} (l : list A) x : (l ++ [x]) !! length l = Some x.
Proof. by rewrite lookup_app_r, Nat.sub_diag by lia. Qed.

Lemma insert_snoc {A} (l : list A) x y : <[length l := y]> (l ++ [x]) = l ++ [y].
Proof. by rewrite insert_app_r_alt, Nat.sub_diag by lia. Qed.

Section Removal.
Context (m : Manager) (cs : list Call) (sid : string).

Lemma step_RemoveCalled :
  calls m = cs ++ [RemoveCalled sid] -> sid <> ""%string -> sid ∉ reservedSessions_ m ->
  step (length cs) m = Some (set_calls (cs ++ [Erasing sid]) m).
Proof.
  intros Hc Hne Hres. unfold step, goto. rewrite Hc, lookup_snoc, insert_snoc.
  by rewrite (proj2 (str_empty_false sid) Hne), bool_decide_eq_false_2.
Qed.

Lemma step_Erasing :
  calls m = cs ++ [Erasing sid] ->
  step (length cs) m = Some (set_calls (cs ++ [Erased sid (session_dir (config_ m) sid) (sessions_ m !! sid)])
                               (set_sessions (delete sid (sessions_ m)) m)).
Proof. intros Hc. unfold step, goto, erase_session. rewrite Hc, lookup_snoc. cbn. by rewrite Hc, insert_snoc. Qed.

Lemma step_Erased dir :
  calls m = cs ++ [Erased sid dir None] ->
  step (length cs) m = Some (set_calls (cs ++ [Deleted sid None]) (set_disk (disk m ∖ {[dir]}) m)).
Proof. intros Hc. unfold step, goto. rewrite Hc, lookup_snoc. cbn. by rewrite Hc, insert_snoc. Qed.

Lemma step_Deleted :
  calls m = cs ++ [Deleted sid None] ->
  step (length cs) m = Some (set_calls (cs ++ [Removed sid]) (on_agent (agent_ m) (CleanupSession sid) m)).
Proof. intros Hc. unfold step, goto. rewrite Hc, lookup_snoc. cbn. by rewrite Hc, insert_snoc. Qed.
End Removal.

(** A removal of a name that is not in the map runs through, and deletes the
    directory of the name. *)
Lemma whole_removal_unmapped (m : Manager) (sid : string) :
  sid <> ""%string -> sid ∉ reservedSessions_ m -> sessions_ m !! sid = None ->
  exists m', exec_all (whole_removal sid (length (calls m))) m = Some m' /\
    calls m' = calls m ++ [Removed sid] /\ disk m' = disk m ∖ {[session_dir (config_ m) sid]}.
Proof.
  intros Hne Hres Hs. cbn [whole_removal exec_all exec mbind option_bind].
  rewrite (step_RemoveCalled _ _ sid) by done. cbn [mbind option_bind].
  rewrite (step_Erasing _ _ sid) by done. cbn [sessions_ set_calls mbind option_bind]. rewrite Hs.
  erewrite step_Erased by done. cbn [mbind option_bind].
  rewrite (step_Deleted _ _ sid) by done. by eexists.
Qed.

(** Removing a session again while a turn of it is still running - the first
    removal has taken it out of the map and spared its directory - deletes the
    directory under the running turn. *)
Theorem second_removal_deletes_live_directory (m : Manager) (i : nat) (sid : string) (e a : nat) :
  calls m !! i = Some (Working sid e a) -> sessions_ m !! sid = None ->
  sid <> ""%string -> sid ∉ reservedSessions_ m ->
  exists m', exec_all (whole_removal sid (length (calls m))) m = Some m' /\
    calls m' !! i = Some (Working sid e a) /\ session_dir (config_ m) sid ∉ disk m'.
Proof.
  intros Hi Hs Hne Hres. destruct (whole_removal_unmapped m sid Hne Hres Hs) as (m' & E & Hc & Hd).
  exists m'. split; [done|]. rewrite Hc, Hd. split; [by apply lookup_app_l_Some | set_solver].
Qed.

(** *** Names and restarts *)

Lemma occurs_str_map (f : ascii -> ascii) c s :
  (forall d, f d <> c) -> occurs c (str_map f s) = false.
Proof.
  intros Hf. induction s as [|d s IH]; [done|]. cbn. rewrite IH, orb_false_r. by apply Ascii.eqb_neq.
Qed.

Definition clean_char (c : ascii) : ascii := if reserved_char c then "_"%char else c.

Lemma clean_char_safe d c : reserved_char c = true -> clean_char d <> c.
Proof. intros Hc E. subst c. unfold clean_char in Hc. destruct (reserved_char d) eqn:Ed; [by vm_compute in Hc | congruence]. Qed.

Lemma str_map_clean s : str_map clean_char (str_map clean_char s) = str_map clean_char s.
Proof.
  induction s as [|c s IH]; [done|]. cbn. rewrite IH. f_equal. unfold clean_char.
  destruct (reserved_char c) eqn:E; [done|]. by rewrite E.
Qed.

Lemma str_map_id s :
  str_map clean_char s = s <-> forall c, reserved_char c = true -> occurs c s = false.
Proof.
  split; [intros <- c Hc; apply occurs_str_map; intros d; by apply clean_char_safe|].
  induction s as [|d s IH]; [done|]. intros Hs. cbn. f_equal.
  - unfold clean_char. destruct (reserved_char d) eqn:Ed; [|done].
    specialize (Hs d Ed). cbn in Hs. by rewrite Ascii.eqb_refl in Hs.
  - apply IH. intros c Hc. specialize (Hs c Hc). cbn in Hs. by apply orb_false_iff in Hs as [_ Hs].
Qed.

(** A name that can be used as it is. *)
Definition clean_name (name : string) : Prop :=
  name <> ""%string /\ name <> "."%string /\ name <> ".."%string /\
  forall c, reserved_char c = true -> occurs c name = false.

Lemma SanitizePathName_other name :
  name <> ""%string -> name <> "."%string -> name <> ".."%string ->
  SanitizePathName name = str_map clean_char name.
Proof.
  intros H1 H2 H3. unfold SanitizePathName.
  by rewrite (proj2 (str_empty_false name) H1), (proj2 (String.eqb_neq _ _) H2),
    (proj2 (String.eqb_neq _ _) H3).
Qed.

Lemma str_map_inv (s t : string) :
  occurs "_"%char t = false -> str_map clean_char s = t -> s = t.
Proof.
  intros Ht <-. symmetry. induction s as [|c s IH]; [done|].
  cbn in *. apply orb_false_iff in Ht as [Hc Hs]. f_equal; [|by apply IH].
  unfold clean_char in *. by destruct (reserved_char c).
Qed.

(** A sanitised name is a clean one - not empty, not [.] or [..], without
    control or reserved characters, so that it cannot leave the sessions directory -
    and exactly the clean names are kept as they are. *)
Theorem SanitizePathName_spec (name : string) :
  clean_name (SanitizePathName name) /\ (SanitizePathName name = name <-> clean_name name).
Proof.
  destruct (decide (name = "")%string) as [->|H1];
    [|destruct (decide (name = ".")%string) as [->|H2];
      [|destruct (decide (name = "..")%string) as [->|H3]]].
  1-3: split; [split_and!; [done..|by apply str_map_id] | split; [done | by intros (? & ? & ? & _)]].
  rewrite SanitizePathName_other by done. split.
  - split_and!.
    + by destruct name.
    + intros E. by apply str_map_inv in E; [|done].
    + intros E. by apply str_map_inv in E; [|done].
    + apply str_map_id, str_map_clean.
  - rewrite str_map_id. unfold clean_name. tauto.
Qed.

(** Every entry stores its conversation in the directory of its name. *)
Definition paths_ok (m : Manager) : Prop :=
  forall e en, entries m !! e = Some en ->
    en_storagePath en = path_join (session_dir (config_ m) (en_sessionId en)) "context".

Lemma FindOrCreateEntry_paths sid m :
  paths_ok m -> paths_ok (FindOrCreateEntry sid m).1 /\
  config_ (FindOrCreateEntry sid m).1 = config_ m.
Proof.
  unfold FindOrCreateEntry, paths_ok. intros Hp. destruct (sessions_ m !! sid); [done|].
  split; [|done]. cbn. intros e en He. apply lookup_app_Some in He as [He|[_ He]]; [exact (Hp e en He)|].
  by apply list_lookup_singleton_Some in He as [_ <-].
Qed.

Lemma restore_paths creatable l m :
  paths_ok m -> paths_ok (fold_left (restore creatable) l m) /\
  config_ (fold_left (restore creatable) l m) = config_ m.
Proof.
  revert m; induction l as [|sid l IH]; intros m Hm; [done|]. cbn.
  assert (paths_ok (restore creatable m sid) /\ config_ (restore creatable m sid) = config_ m) as [Hm1 Hc].
  { unfold restore. destruct (creatable sid); [exact (FindOrCreateEntry_paths sid m Hm) | done]. }
  destruct (IH _ Hm1) as [H1 H2]. split; [done | congruence].
Qed.

(** Which names are mapped after restoring. *)
Lemma FindOrCreateEntry_dom sid m s :
  is_Some (sessions_ (FindOrCreateEntry sid m).1 !! s) <-> s = sid \/ is_Some (sessions_ m !! s).
Proof.
  unfold FindOrCreateEntry. destruct (sessions_ m !! sid) as [e|] eqn:E; cbn.
  - split; [tauto|]. intros [->|]; [by rewrite E | done].
  - rewrite lookup_insert_is_Some. destruct (decide (s = sid)); naive_solver.
Qed.

Lemma restore_dom creatable l m s :
  is_Some (sessions_ (fold_left (restore creatable) l m) !! s) <->
  (s ∈ l /\ creatable s = true) \/ is_Some (sessions_ m !! s).
Proof.
  revert m; induction l as [|d l IH]; intros m; cbn; [set_solver|]. rewrite IH. unfold restore.
  rewrite elem_of_cons. destruct (creatable d) eqn:Ed.
  - unfold GetOrCreateSession. rewrite FindOrCreateEntry_dom. split; [intros [[? ?]|[->|?]] | intros [[[->|?] ?]|?]]; auto.
  - split; [intros [[? ?]|?] | intros [[[->|?] ?]|?]]; auto; congruence.
Qed.

(** After a restart the sessions on disk are restored under their directory
    names.  A session with a clean name is found again; one with any other name is
    restored under its sanitised name, and its next turn creates a second entry
    that writes to the same directory as the restored one. *)
Theorem restart_session_names absolute dirs creatable (config : AgentConfig) (sid : string) :
  let m := Initialize absolute dirs creatable config manager_new in
  let d := SanitizePathName sid in
  d ∈ dirs -> creatable d = true -> front_is "." d = false ->
  exists e en, sessions_ m !! d = Some e /\ entries m !! e = Some en /\
    en_storagePath en = path_join (session_dir (config_ m) sid) "context" /\
    (sid <> d -> sid ∉ dirs -> sid <> kDefaultSessionId ->
     exists en', entries (FindOrCreateEntry sid m).1 !! (FindOrCreateEntry sid m).2 = Some en' /\
       (FindOrCreateEntry sid m).2 <> e /\ en_storagePath en' = en_storagePath en).
Proof.
  cbn zeta. intros Hd Hcr Hdot.
  set (d := SanitizePathName sid) in *. set (m := Initialize absolute dirs creatable config manager_new).
  destruct (SanitizePathName_spec sid) as [Hclean _]. pose proof Hclean as [Hne _].
  assert (SanitizePathName d = d) as Hdd by (by apply SanitizePathName_spec).
  assert (sessions_ (start_manager absolute config manager_new) = ∅ /\
          entries (start_manager absolute config manager_new) = []) as [Hs0 He0]
    by (unfold start_manager; by destruct (0 <? _)).
  assert (forall s, is_Some (sessions_ m !! s) <->
            (s ∈ List.filter (fun d => negb (front_is "." d) && negb (str_empty d)) dirs ++ [kDefaultSessionId]
             /\ creatable s = true)) as Hdom.
  { intros s. subst m. unfold Initialize. cbn [sessions_ set_initialized]. rewrite restore_dom, Hs0.
    rewrite lookup_empty. split; [intros [?|[? [=]]]; done | by left]. }
  assert (paths_ok m) as Hp.
  { apply restore_paths. intros e en He. by rewrite He0 in He. }
  pose proof (Initialize_sessions absolute dirs creatable config) as Hok. fold m in Hok.
  clearbody m.
  assert (is_Some (sessions_ m !! d)) as [e He].
  { apply Hdom. split; [|done]. apply elem_of_app. left. apply elem_of_filterb. split; [done|].
    by rewrite Hdot, (proj2 (str_empty_false d) Hne). }
  pose proof Hok as [[Hs _] _]. pose proof (Hs d e He) as Hid. unfold ids in Hid.
  change (@map) with (@list_fmap) in Hid. rewrite list_lookup_fmap in Hid.
  apply fmap_Some in Hid as (en & Hen & Hname). exists e, en. split_and!; [done | done | |].
  - rewrite (Hp e en Hen), <- Hname. unfold session_dir. by rewrite Hdd.
  - intros Hsd Hnd Hdef. assert (sessions_ m !! sid = None) as Hnone.
    { apply eq_None_not_Some. rewrite Hdom, elem_of_app, elem_of_filterb, list_elem_of_singleton. tauto. }
    unfold FindOrCreateEntry. rewrite Hnone. cbn. eexists. rewrite lookup_snoc. split; [done|].
    split; [apply lookup_lt_Some in Hen; lia|]. cbn.
    rewrite (Hp e en Hen), <- Hname. unfold session_dir. by rewrite Hdd.
Qed.

(** Two chats of two channels can have the same key. *)
Lemma MakeSessionKey_collision : MakeSessionKey "a" "b_c" = MakeSessionKey "a_b" "c".
Proof. reflexivity. Qed.

(** ** Witnesses *)

Definition ex_config (limit : Z) : AgentConfig :=
  mkAgentConfig "" "" "" "" REACT default_ModelConfig ∅ default_ContextConfig
    default_DreamConfig default_MemoryConfig "" 10 "" limit [] SELECTIVE 0 0 [] [].
Definition ex_start (limit : Z) : Manager :=
  Initialize (fun p => p) [] (fun _ => true) (ex_config limit) manager_new.
Definition ex_run (limit : Z) (acts : list action) : Manager :=
  default manager_new (exec_all acts (ex_start limit)).

Lemma exec_all_steps allowed acts m m' :
  forallb allowed acts = true -> exec_all acts m = Some m' -> steps allowed m m'.
Proof.
  revert m; induction acts as [|act acts IH]; intros m Ha E.
  - injection E as <-. apply reach_refl.
  - cbn in Ha, E. apply andb_true_iff in Ha as [Hact Ha].
    destruct (exec act m) as [m1|] eqn:E1; [|done]. cbn in E.
    apply (reach_trans _ _ m1); [|by apply IH].
    apply (reach_step _ _ m); [apply reach_refl | by exists act].
Qed.

Definition ex_one_turn : list action := [ANewInvoke "s"; AStep 0; AStep 0; AStep 0; AStep 0].

Lemma turns_bounded_witness :
  gated_calls (ex_run 1 ex_one_turn) = 1%nat /\ Z.of_nat (gated_calls (ex_run 1 ex_one_turn)) <= 1.
Proof.
  split; [vm_compute; reflexivity|].
  apply (turns_bounded (fun p => p) [] (fun _ => true) (ex_config 1)); [cbn; lia|].
  apply (exec_all_steps _ ex_one_turn); vm_compute; reflexivity.
Defined.

Definition ex_lost : Manager := ex_run 1 [ANewInvoke "s"; AStep 0; AThrow 0].

Lemma lost_slots_block_forever_witness :
  gated_calls (default manager_new (exec_all [ANewInvoke "t"; AStep 1] ex_lost)) = 0%nat /\
  concurrentCount_ (default manager_new (exec_all [ANewInvoke "t"; AStep 1] ex_lost)) = concurrentCount_ ex_lost.
Proof.
  apply (lost_slots_block_forever ex_lost).
  - vm_compute. split; [reflexivity | discriminate].
  - vm_compute. reflexivity.
  - apply (exec_all_steps _ [ANewInvoke "t"; AStep 1]); vm_compute; reflexivity.
Defined.

Definition ex_waiting : Manager :=
  ex_run 1 (ex_one_turn ++ [ANewInvoke "t"; AStep 1; AReload (ex_config 0) true]).

Lemma lifted_limit_strands_waiters_witness :
  calls (default manager_new (exec_all [AStep 0; AStep 0; AStep 0; AStep 0] ex_waiting)) !! 1%nat
  = Some (Waiting "t").
Proof.
  apply (lifted_limit_strands_waiters ex_waiting).
  - vm_compute. discriminate.
  - vm_compute. reflexivity.
  - vm_compute. discriminate.
  - apply (exec_all_steps _ [AStep 0; AStep 0; AStep 0; AStep 0]); vm_compute; reflexivity.
Defined.

Lemma one_turn_per_session_witness :
  let m := ex_run 2 (ex_one_turn ++ [ANewInvoke "s"; AStep 1; AStep 1]) in
  (forall i j sid c d, calls m !! i = Some c -> calls m !! j = Some d ->
     in_turn sid c -> in_turn sid d -> i = j) /\
  (forall e en, entries m !! e = Some en ->
     isBusy en = true <-> exists i c, calls m !! i = Some c /\ holder c = Some e /\ busy_call c = true).
Proof.
  apply (one_turn_per_session (fun p => p) [] (fun _ => true) (ex_config 2)).
  apply (exec_all_steps _ (ex_one_turn ++ [ANewInvoke "s"; AStep 1; AStep 1])); vm_compute; reflexivity.
Defined.

Definition ex_reloaded : list action :=
  ex_one_turn ++ [AReload (ex_config 2) true; ANewInvoke "s"; AStep 1].

Lemma reload_is_graceful_witness :
  exists e en, calls (ex_run 2 (ex_reloaded ++ [AStep 1])) !! 1%nat
      = Some (Found "s" e (agent_ (ex_run 2 (ex_reloaded ++ [AStep 1])))) /\
    entries (ex_run 2 (ex_reloaded ++ [AStep 1])) !! e = Some en /\
    en_agent en = agent_ (ex_run 2 (ex_reloaded ++ [AStep 1])) /\
    is_draining (agent_ (ex_run 2 (ex_reloaded ++ [AStep 1]))) (ex_run 2 (ex_reloaded ++ [AStep 1])) = false.
Proof.
  apply (proj1 (reload_is_graceful (fun p => p) [] (fun _ => true) (ex_config 2) (ex_run 2 ex_reloaded)
    ltac:(apply (exec_all_steps _ ex_reloaded); vm_compute; reflexivity)) 1%nat "s"%string).
  - vm_compute. reflexivity.
  - vm_compute. reflexivity.
Defined.

Definition ex_queued : Manager := ex_run 2 (ex_one_turn ++ [ANewInvoke "s"; AStep 1]).

Lemma queued_turn_rebinds_entry_witness :
  let m1 := default manager_new (exec (AReload (ex_config 2) true) ex_queued) in
  let m2 := default manager_new (exec (AStep 1) m1) in
  calls m2 !! 0%nat = Some (Working "s" 1 0) /\ skill_agent 0 m2 = Some (agent_ m2) /\ agent_ m2 <> 0%nat.
Proof.
  cbn zeta. eapply (queued_turn_rebinds_entry ex_queued _ _ (ex_config 2) 0 1 1 0 "s").
  - assert (steps (fun _ => true) (ex_start 2) ex_queued) as Hr
      by (apply (exec_all_steps _ (ex_one_turn ++ [ANewInvoke "s"; AStep 1])); vm_compute; reflexivity).
    refine (reach_invariant _ agents_ok _ _ _ _ Hr); [apply Initialize_agents|].
    intros m1 m2 Hm (act & _ & E). by eapply exec_agents.
  - vm_compute. reflexivity.
  - vm_compute. reflexivity.
  - vm_compute. reflexivity.
  - vm_compute. reflexivity.
  - vm_compute. reflexivity.
  - vm_compute. reflexivity.
  - vm_compute. reflexivity.
  - vm_compute. reflexivity.
Defined.

(** A first removal while the turn runs: the directory stays. *)
Definition ex_removed : Manager := ex_run 2 (ex_one_turn ++ whole_removal "s" 1).

Lemma second_removal_deletes_live_directory_witness :
  session_dir (config_ ex_removed) "s" ∈ disk ex_removed /\
  exists m', exec_all (whole_removal "s" (length (calls ex_removed))) ex_removed = Some m' /\
    calls m' !! 0%nat = Some (Working "s" 1 0) /\ session_dir (config_ ex_removed) "s" ∉ disk m'.
Proof.
  split; [apply (bool_decide_unpack _); vm_compute; reflexivity|].
  apply (second_removal_deletes_live_directory ex_removed 0 "s" 1 0).
  - vm_compute. reflexivity.
  - vm_compute. reflexivity.
  - discriminate.
  - apply (bool_decide_unpack _). vm_compute. reflexivity.
Defined.

Lemma restart_session_names_witness :
  let m := Initialize (fun p => p) ["a_b"] (fun _ => true) (ex_config 2) manager_new in
  exists e en, sessions_ m !! "a_b"%string = Some e /\ entries m !! e = Some en /\
    en_storagePath en = path_join (session_dir (config_ m) "a:b") "context" /\
    ("a:b"%string <> "a_b"%string -> "a:b"%string ∉ ["a_b"%string] -> "a:b"%string <> kDefaultSessionId ->
     exists en', entries (FindOrCreateEntry "a:b" m).1 !! (FindOrCreateEntry "a:b" m).2 = Some en' /\
       (FindOrCreateEntry "a:b" m).2 <> e /\ en_storagePath en' = en_storagePath en).
Proof.
  apply (restart_session_names (fun p => p) ["a_b"%string] (fun _ => true) (ex_config 2) "a:b").
  - apply list_elem_of_singleton. reflexivity.
  - reflexivity.
  - reflexivity.
Defined.
