(* ===== verification/HistoryStore.v ===== *)
(** * The local history (src/core/history_store.cpp)

    The event log history.jsonl, one JSON object per line, with its cursor file and
    the cursor of the dream processor.  Each file is its text, [None] when it does
    not exist; three flags say whether a file can be opened for writing.  The
    store's mutex is not recursive: an operation called while its own thread holds
    it does not return, which is [None]. *)
From Stdlib Require Import ZArith NArith Lia String Ascii List.
From stdpp Require Import base decidable list strings gmap sets pretty.
From S2P Require Import Prelude Numbers Types Encoding JsonLib ToolBase.
Open Scope Z_scope.

(** ** The store *)

Record HistoryStore := mkHistoryStore {
  historyFile_ : option string;
  cursorFile_ : option string;
  dreamCursorFile_ : option string;
  history_opens : bool;
  cursor_opens : bool;
  dream_opens : bool
}.

Definition fresh_store : HistoryStore := mkHistoryStore None None None true true true.

Definition set_history (t : option string) (d : HistoryStore) : HistoryStore :=
  mkHistoryStore t (cursorFile_ d) (dreamCursorFile_ d) (history_opens d) (cursor_opens d) (dream_opens d).
Definition set_cursor (t : option string) (d : HistoryStore) : HistoryStore :=
  mkHistoryStore (historyFile_ d) t (dreamCursorFile_ d) (history_opens d) (cursor_opens d) (dream_opens d).
Definition set_dream (t : option string) (d : HistoryStore) : HistoryStore :=
  mkHistoryStore (historyFile_ d) (cursorFile_ d) t (history_opens d) (cursor_opens d) (dream_opens d).

(** The number in the first line of a cursor file, [0] when there is none. *)
Definition read_number (file : option string) : Z :=
  match file with
  | Some text => match getlines text with line :: _ => default 0 (stoi line) | [] => 0 end
  | None => 0
  end.

Definition ReadCursor (d : HistoryStore) : Z := read_number (cursorFile_ d).
Definition ReadDreamCursor (d : HistoryStore) : Z := read_number (dreamCursorFile_ d).
Definition NextCursor (d : HistoryStore) : Z := ReadCursor d + 1.

Section Store.
Context {J : Type} `{Json J}.

Definition opt_string_field (key value : string) : list (string * J) :=
  if str_empty value then [] else [(key, j_string value)].

Definition event_json (cursor : Z) (now : string) (event : MemoryEvent) : J :=
  j_fields
    ([("cursor", j_int cursor);
      ("timestamp", j_string (if str_empty (ev_timestamp event) then now else ev_timestamp event));
      ("session_id", j_string (ev_sessionId event)); ("role", j_string (ev_role event));
      ("content", j_string (ev_content event))]
     ++ opt_string_field "tool_call_id" (ev_toolCallId event)
     ++ opt_string_field "tool_name" (ev_toolName event)
     ++ opt_string_field "payload_ref" (ev_payloadRef event)).

(** Appending opens the file first, which creates it. *)
Definition AppendEvent (now : string) (event : MemoryEvent) (d : HistoryStore)
    : HistoryStore * outcome unit :=
  let cursor := NextCursor d in
  let write_cursor d := if cursor_opens d then set_cursor (Some (to_string cursor)) d else d in
  if history_opens d then
    let text := default "" (historyFile_ d) in
    match json_dump None (event_json cursor now event) with
    | Throw e => (set_history (Some text) d, Throw e)
    | Ok line => (write_cursor (set_history (Some (text +:+ line +:+ nl)) d), Ok tt)
    end
  else (write_cursor d, Ok tt).

Definition entry_of_json (j : J) : outcome HistoryEntry :=
  cursor <-- value_int "cursor" 0 j ;;
  timestamp <-- value_string "timestamp" "" j ;;
  role <-- value_string "role" "" j ;;
  content <-- value_string "content" "" j ;;
  toolCallId <-- value_string "tool_call_id" "" j ;;
  toolName <-- value_string "tool_name" "" j ;;
  payloadRef <-- value_string "payload_ref" "" j ;;
  Ok (mkHistoryEntry cursor timestamp role content toolCallId toolName payloadRef).

(** One line of the log: an empty or malformed one is skipped. *)
Definition entry_of_line (line : string) : option HistoryEntry :=
  if str_empty line then None
  else match json_parse line with
       | Throw _ => None
       | Ok j => match entry_of_json j with Ok e => Some e | Throw _ => None end
       end.

(** A line of [ReadUnprocessedHistory]: the cursor is looked at first, which does
    not change what is skipped. *)
Definition unprocessed_line (sinceCursor : Z) (line : string) : option HistoryEntry :=
  if str_empty line then None
  else match json_parse line with
       | Throw _ => None
       | Ok j =>
           match value_int "cursor" 0 j with
           | Throw _ => None
           | Ok cursor =>
               if cursor <=? sinceCursor then None
               else match entry_of_json j with Ok e => Some e | Throw _ => None end
           end
       end.

Definition log_lines (d : HistoryStore) : list string :=
  match historyFile_ d with Some text => getlines text | None => [] end.

Definition locked {A} (held : bool) (a : A) : option A := if held then None else Some a.

Definition ReadAllEntries (held : bool) (d : HistoryStore) : option (list HistoryEntry) :=
  locked held (omap entry_of_line (log_lines d)).

Definition ReadUnprocessedHistory (held : bool) (sinceCursor : Z) (d : HistoryStore)
    : option (list HistoryEntry) :=
  locked held (omap (unprocessed_line sinceCursor) (log_lines d)).

Definition GetLastDreamCursor (held : bool) (d : HistoryStore) : option Z :=
  locked held (ReadDreamCursor d).

Definition SetLastDreamCursor (held : bool) (cursor : Z) (d : HistoryStore) : option HistoryStore :=
  locked held (if dream_opens d then set_dream (Some (to_string cursor)) d else d).

Definition entry_json (e : HistoryEntry) : J :=
  j_fields
    ([("cursor", j_int (he_cursor e)); ("timestamp", j_string (he_timestamp e));
      ("role", j_string (he_role e)); ("content", j_string (he_content e))]
     ++ opt_string_field "tool_call_id" (he_toolCallId e)
     ++ opt_string_field "tool_name" (he_toolName e)
     ++ opt_string_field "payload_ref" (he_payloadRef e)).

Fixpoint entries_text (entries : list HistoryEntry) : outcome string :=
  match entries with
  | [] => Ok ""
  | e :: rest =>
      line <-- json_dump None (entry_json e) ;;
      t <-- entries_text rest ;; Ok (line +:+ nl +:+ t)
  end.

(** The log is replaced by renaming a temporary file; [tmp_opens] is whether that
    file can be written. *)
Definition WriteEntries (tmp_opens : bool) (entries : list HistoryEntry) (d : HistoryStore)
    : HistoryStore * outcome unit :=
  if tmp_opens then
    match entries_text entries with
    | Throw e => (d, Throw e)
    | Ok text => (set_history (Some text) d, Ok tt)
    end
  else (d, Ok tt).

(** The mutex is held when [ReadAllEntries] is called. *)
Definition CompactHistory (held tmp_opens : bool) (maxEntries : Z) (d : HistoryStore)
    : option (HistoryStore * outcome unit) :=
  if held then None
  else match ReadAllEntries true d with
       | None => None
       | Some entries =>
           let size := Z.of_nat (length entries) in
           if size <=? maxEntries then Some (d, Ok tt)
           else Some (WriteEntries tmp_opens (drop (Z.to_nat (size - maxEntries)) entries) d)
       end.
End Store.

(** Compaction locks the mutex twice and never returns. *)
Lemma CompactHistory_deadlocks {J} `{Json J} held tmp_opens maxEntries d :
  CompactHistory (J := J) held tmp_opens maxEntries d = None.
Proof. by destruct held. Qed.

(** ** Facts *)

(** *** Numbers and lines *)

Lemma log_text_snoc ls l : log_text (ls ++ [l]) = log_text ls +:+ l +:+ nl.
Proof.
  induction ls as [|x ls IH].
  - unfold log_text. cbn. by rewrite str_app_nil_r.
  - change (log_text ((x :: ls) ++ [l])) with ((x +:+ nl) +:+ log_text (ls ++ [l])).
    change (log_text (x :: ls)) with ((x +:+ nl) +:+ log_text ls).
    by rewrite IH, !str_app_assoc.
Qed.

Lemma pretty_no_newline (x : N) (s : string) : occurs NL (pretty_N_go x s) = occurs NL s.
Proof.
  revert s. induction (N.lt_wf_0 x) as [x _ IH]; intros s.
  destruct (decide (x = 0)%N) as [->|Hx]; [by rewrite pretty_N_go_0|].
  rewrite pretty_N_go_step by lia. assert (x / 10 < x)%N by (apply N.div_lt; lia).
  rewrite IH by done. cbn [occurs].
  destruct (digit_char (pretty_N_char (x mod 10)) (x mod 10)) as (_ & _ & _ & Hn);
    [by apply digit_of_pretty, N.mod_lt|]. by rewrite Ascii.eqb_sym, Hn.
Qed.

Lemma to_string_line (z : Z) : 0 <= z -> occurs NL (to_string z) = false /\ to_string z <> "".
Proof.
  intros Hz. destruct z as [|p|p]; [done| |lia].
  change (to_string (Z.pos p)) with (pretty_N_go (N.pos p) "").
  split; [by rewrite pretty_no_newline|]. destruct (pretty_head (N.pos p) "" ltac:(lia)) as (c & t & -> & _).
  done.
Qed.

Lemma getlines_one (l : string) : occurs NL l = false -> l <> "" -> getlines l = [l].
Proof.
  intros Hl Hne. unfold getlines.
  assert (forall cur l, occurs NL l = false -> cur +:+ l <> "" -> getlines_aux cur l = [cur +:+ l]) as Hg;
    [|by apply Hg].
  clear. intros cur l; revert cur; induction l as [|c l IH]; intros cur Hl Hne.
  - rewrite str_app_nil_r in *. cbn. by destruct cur.
  - cbn [occurs] in Hl. apply orb_false_iff in Hl as [Hc Hl]. cbn [getlines_aux].
    rewrite Ascii.eqb_sym, Hc. rewrite IH; rewrite ?str_app_assoc; [done..|]. by destruct cur.
Qed.

(** *** The log *)

Section StoreFacts.
Context {J : Type} `{JsonLaws J}.

(** What the log keeps of an event with the given cursor. *)
Definition logged (cursor : Z) (e : string * MemoryEvent) : HistoryEntry :=
  mkHistoryEntry cursor (if str_empty (ev_timestamp e.2) then e.1 else ev_timestamp e.2)
    (ev_role e.2) (ev_content e.2) (ev_toolCallId e.2) (ev_toolName e.2) (ev_payloadRef e.2).

Definition utf8_event (e : string * MemoryEvent) : Prop :=
  utf8 e.1 /\ utf8 (ev_timestamp e.2) /\ utf8 (ev_sessionId e.2) /\ utf8 (ev_role e.2) /\
  utf8 (ev_content e.2) /\ utf8 (ev_toolCallId e.2) /\ utf8 (ev_toolName e.2) /\
  utf8 (ev_payloadRef e.2).

Lemma plain_event cursor e : utf8_event e -> json_plain (event_json cursor e.1 e.2 : J).
Proof.
  intros (Hn & Ht & Hs & Hr & Hc & Hi & Hm & Hp). apply json_plain_fields. intros k x Hk.
  unfold opt_string_field in Hk. plain_fields.
  all: split; [apply utf8_ascii; reflexivity|].
  all: try (by apply json_plain_string).
  - eapply plain_int, view_j_int.
  - apply json_plain_string. by destruct (str_empty (ev_timestamp e.2)).
Qed.

Lemma assoc_opt_string_field (k key v : string) :
  assoc_last k (opt_string_field key v : list (string * J)) =
  if negb (str_empty v) && String.eqb key k then Some (j_string v) else None.
Proof. unfold opt_string_field. by destruct (str_empty v). Qed.

Lemma cursor_of_event cursor e :
  - 2 ^ 31 <= cursor < 2 ^ 31 -> value_int "cursor" 0 (event_json cursor e.1 e.2 : J) = Ok cursor.
Proof.
  intros Hc. unfold event_json. rewrite value_int_j_fields, !assoc_last_app, !assoc_opt_string_field.
  cbn [String.eqb Ascii.eqb Bool.eqb]. rewrite !andb_false_r. cbn. by apply get_int_j_int.
Qed.

Lemma entry_of_event cursor e :
  - 2 ^ 31 <= cursor < 2 ^ 31 -> entry_of_json (event_json cursor e.1 e.2 : J) = Ok (logged cursor e).
Proof.
  intros Hc. unfold entry_of_json. rewrite cursor_of_event by done. unfold event_json.
  rewrite !value_string_j_fields, !assoc_last_app, !assoc_opt_string_field.
  cbn -[j_string get_string]. unfold logged.
  destruct (ev_toolCallId e.2), (ev_toolName e.2), (ev_payloadRef e.2);
    cbn -[j_string get_string]; by rewrite !get_string_j_string.
Qed.

(** The events of a log and its cursor file after the first [length es] events. *)
Definition log_of (es : list (string * MemoryEvent)) (ls : list string) : Prop :=
  length ls = length es /\
  forall i e l, es !! i = Some e -> ls !! i = Some l ->
    json_dump None (event_json (Z.of_nat i + 1) e.1 e.2 : J) = Ok l.

Definition store_ok (es : list (string * MemoryEvent)) (d : HistoryStore) : Prop :=
  history_opens d = true /\ cursor_opens d = true /\ dream_opens d = true /\
  exists ls, log_of es ls /\ default "" (historyFile_ d) = log_text ls /\
    (historyFile_ d = None -> es = []) /\ ReadCursor d = Z.of_nat (length es).

Lemma read_number_written (z : Z) : 0 <= z < 2 ^ 31 -> read_number (Some (to_string z)) = z.
Proof.
  intros Hz. unfold read_number. destruct (to_string_line z ltac:(lia)) as [Hn He].
  rewrite getlines_one by done. rewrite stoi_to_string by lia. done.
Qed.

Lemma append_event_ok es d e :
  store_ok es d -> utf8_event e -> Z.of_nat (length es) + 1 < 2 ^ 31 ->
  exists d', AppendEvent (J := J) e.1 e.2 d = (d', Ok tt) /\ store_ok (es ++ [e]) d' /\
    dreamCursorFile_ d' = dreamCursorFile_ d.
Proof.
  intros (Ho & Hco & Hd & ls & (Hlen & Hls) & Htext & _ & Hcur) Hu Hlt.
  unfold AppendEvent, NextCursor. rewrite Ho, Hcur.
  destruct (dump_ok None _ (plain_event (Z.of_nat (length es) + 1) e Hu)) as [line Hline].
  rewrite Hline. cbn [cursor_opens set_history]. rewrite Hco.
  eexists. split; [reflexivity|]. split; [|done].
  unfold store_ok, ReadCursor. cbn [history_opens cursor_opens dream_opens historyFile_ cursorFile_
    set_cursor set_history default]. split_and!; try done.
  exists (ls ++ [line]). split_and!.
  - split; [rewrite !length_app; cbn; lia|]. intros i x l Hx Hl.
    apply lookup_app_Some in Hx as [Hx|[Hge Hx]].
    + rewrite lookup_app_l in Hl by (rewrite Hlen; by eapply lookup_lt_Some). by apply (Hls i).
    + apply list_lookup_singleton_Some in Hx as [Hi <-].
      assert (i = length ls) as -> by lia. rewrite lookup_app_r, Nat.sub_diag in Hl by lia.
      injection Hl as <-. by rewrite Hlen.
  - by rewrite log_text_snoc, Htext.
  - done.
  - rewrite read_number_written by lia. rewrite length_app. cbn. lia.
Qed.

Lemma fresh_ok : store_ok [] fresh_store.
Proof.
  split_and!; try done. by exists [].
Qed.

(** The entries of a log, numbered from [1]. *)
Definition logged_all (es : list (string * MemoryEvent)) : list HistoryEntry :=
  imap (fun i e => logged (Z.of_nat i + 1) e) es.

Lemma unprocessed_lines (es : list (string * MemoryEvent)) (ls : list string) (b : nat) (k : Z) :
  length ls = length es -> Z.of_nat (b + length es) < 2 ^ 31 ->
  Forall utf8_event es ->
  (forall i e l, es !! i = Some e -> ls !! i = Some l ->
     json_dump None (event_json (Z.of_nat (b + i) + 1) e.1 e.2 : J) = Ok l) ->
  omap (unprocessed_line (J := J) k) ls =
  List.filter (fun e => k <? he_cursor e) (imap (fun i e => logged (Z.of_nat (b + i) + 1) e) es).
Proof.
  revert ls b; induction es as [|e es IH]; intros [|l ls] b Hlen Hlt Hu Hls; try done.
  apply Forall_cons in Hu as [He Hu]. cbn in Hlen, Hlt.
  pose proof (Hls 0%nat e l eq_refl eq_refl) as Hl. rewrite Nat.add_0_r in Hl.
  specialize (IH ls (S b) ltac:(lia) ltac:(lia) Hu).
  assert (omap (unprocessed_line (J := J) k) ls =
    List.filter (fun e => k <? he_cursor e) (imap (fun i e => logged (Z.of_nat (S b + i) + 1) e) es)) as E.
  { apply IH. intros i x y Hx Hy. specialize (Hls (S i) x y Hx Hy).
    by replace (S b + i)%nat with (b + S i)%nat by lia. }
  clear IH Hls. rewrite imap_cons. cbn [omap list_omap]. rewrite Nat.add_0_r.
  assert (imap ((fun i e => logged (Z.of_nat (b + i) + 1) e) ∘ S) es =
          imap (fun i e => logged (Z.of_nat (S b + i) + 1) e) es) as Ei.
  { apply imap_ext. intros i x _. unfold compose. by replace (b + S i)%nat with (S b + i)%nat by lia. }
  rewrite Ei. unfold unprocessed_line at 1.
  assert (json_parse l = Ok (event_json (Z.of_nat b + 1) e.1 e.2 : J)) as Hp
    by (by apply (parse_dump None); [apply plain_event|]).
  assert (str_empty l = false) as -> by (apply str_empty_false; by eapply dump_one_line).
  rewrite Hp, cursor_of_event, entry_of_event by lia. cbn [List.filter he_cursor logged].
  destruct (Z.leb_spec (Z.of_nat b + 1) k), (Z.ltb_spec k (Z.of_nat b + 1)); try lia; by rewrite E.
Qed.
Lemma logged_after (es : list (string * MemoryEvent)) (b : nat) (k : Z) :
  List.filter (fun e => k <? he_cursor e) (imap (fun i e => logged (Z.of_nat (b + i) + 1) e) es) =
  drop (Z.to_nat k - b) (imap (fun i e => logged (Z.of_nat (b + i) + 1) e) es).
Proof.
  revert b; induction es as [|e es IH]; intros b; [by destruct (Z.to_nat k - b)%nat|].
  rewrite imap_cons. cbn [List.filter he_cursor logged]. rewrite Nat.add_0_r.
  assert (imap ((fun i e => logged (Z.of_nat (b + i) + 1) e) ∘ S) es =
          imap (fun i e => logged (Z.of_nat (S b + i) + 1) e) es) as ->.
  { apply imap_ext. intros i x _. unfold compose. by replace (b + S i)%nat with (S b + i)%nat by lia. }
  rewrite IH. destruct (Z.ltb_spec k (Z.of_nat b + 1)) as [Hk|Hk].
  - replace (Z.to_nat k - b)%nat with 0%nat by lia.
    by replace (Z.to_nat k - S b)%nat with 0%nat by lia.
  - replace (Z.to_nat k - b)%nat with (S (Z.to_nat k - S b)) by lia. done.
Qed.

Lemma store_unprocessed es d k :
  store_ok es d -> Forall utf8_event es -> Z.of_nat (length es) < 2 ^ 31 ->
  ReadUnprocessedHistory (J := J) false k d = Some (drop (Z.to_nat k) (logged_all es)).
Proof.
  intros (_ & _ & _ & ls & (Hlen & Hls) & Htext & Hnone & _) Hu Hlt.
  unfold ReadUnprocessedHistory, locked. f_equal.
  assert (log_lines d = ls) as ->.
  { unfold log_lines. destruct (historyFile_ d) as [text|].
    - cbn in Htext. rewrite Htext. apply getlines_log, Forall_forall. intros l Hl.
      apply list_elem_of_lookup in Hl as [i Hi].
      assert (is_Some (es !! i)) as [e He]
        by (apply lookup_lt_is_Some; rewrite <- Hlen; by eapply lookup_lt_Some).
      eapply dump_one_line. by apply (Hls i e l).
    - rewrite (Hnone eq_refl) in Hlen. by destruct ls. }
  rewrite (unprocessed_lines es ls 0 k) by (try done; cbn; lia).
  by rewrite (logged_after es 0 k), Nat.sub_0_r.
Qed.

Fixpoint append_all (es : list (string * MemoryEvent)) (d : HistoryStore) : HistoryStore * outcome unit :=
  match es with
  | [] => (d, Ok tt)
  | e :: es =>
      match AppendEvent (J := J) e.1 e.2 d with
      | (d1, Ok _) => append_all es d1
      | r => r
      end
  end.

Lemma append_all_ok es0 es d :
  store_ok es0 d -> Forall utf8_event es -> Z.of_nat (length (es0 ++ es)) < 2 ^ 31 ->
  exists d', append_all es d = (d', Ok tt) /\ store_ok (es0 ++ es) d' /\
    dreamCursorFile_ d' = dreamCursorFile_ d.
Proof.
  revert es0 d; induction es as [|e es IH]; intros es0 d Hd Hu Hlt.
  - exists d. by rewrite app_nil_r.
  - apply Forall_cons in Hu as [He Hu]. rewrite length_app in Hlt. cbn in Hlt.
    destruct (append_event_ok es0 d e Hd He ltac:(lia)) as (d1 & E & Hd1 & Hc1).
    destruct (IH (es0 ++ [e]) d1 Hd1 Hu) as (d2 & E2 & Hd2 & Hc2);
      [rewrite !length_app; cbn; lia|].
    exists d2. cbn. rewrite E. split; [done|]. rewrite <- app_assoc in Hd2. split; [done | congruence].
Qed.

Lemma session_of_event cursor e :
  string_field "session_id" (event_json cursor e.1 e.2 : J) = Some (ev_sessionId e.2).
Proof.
  unfold event_json. rewrite string_field_j_fields, !assoc_last_app, !assoc_opt_string_field.
  cbn [String.eqb Ascii.eqb Bool.eqb]. rewrite !andb_false_r. cbn. by rewrite view_j_string.
Qed.

(** A line of the log holds an event: what reading it gives, and under
    "session_id" the session, which reading leaves out. *)
Definition line_holds (cursor : Z) (e : string * MemoryEvent) (l : string) : Prop :=
  exists j : J, json_parse l = Ok j /\ entry_of_json j = Ok (logged cursor e) /\
    string_field "session_id" j = Some (ev_sessionId e.2).

Lemma log_holds es ls :
  log_of es ls -> Forall utf8_event es -> Z.of_nat (length es) < 2 ^ 31 ->
  forall i e l, es !! i = Some e -> ls !! i = Some l -> line_holds (Z.of_nat i + 1) e l.
Proof.
  intros [_ Hls] Hu Hlt i e l He Hl. specialize (Hls i e l He Hl).
  pose proof (lookup_lt_Some _ _ _ He). rewrite Forall_lookup in Hu. specialize (Hu i e He).
  exists (event_json (Z.of_nat i + 1) e.1 e.2). split_and!.
  - by apply (parse_dump None); [apply plain_event|].
  - apply entry_of_event. lia.
  - apply session_of_event.
Qed.

(** C15.  The log holds what was appended and gives it back.  Fewer than [2^31]
    events, all of whose texts are UTF-8, are appended to a new store whose files can
    be written: no call throws, and the file has one line per event, in order,
    numbered from [1], with its time (the time of the call when it has none), session,
    role, content, and tool call id, tool name and payload reference where it has
    them.  Reading the history after any cursor then returns exactly the later
    events, in order, with all of these but the session, which is not read back.
    The event's other fields (its kind, agent and store cursor) are not stored. *)
Theorem history_roundtrip (es : list (string * MemoryEvent)) :
  Forall utf8_event es -> Z.of_nat (length es) < 2 ^ 31 ->
  exists d ls, append_all es fresh_store = (d, Ok tt) /\
    default "" (historyFile_ d) = log_text ls /\ length ls = length es /\
    (forall i e l, es !! i = Some e -> ls !! i = Some l -> line_holds (Z.of_nat i + 1) e l) /\
    forall k, ReadUnprocessedHistory (J := J) false k d = Some (drop (Z.to_nat k) (logged_all es)).
Proof.
  intros Hu Hlt. destruct (append_all_ok [] es fresh_store fresh_ok Hu Hlt) as (d & E & Hd & _).
  pose proof Hd as (_ & _ & _ & ls & Hls & Ht & _). exists d, ls.
  split_and!; [done | done | apply Hls | by apply log_holds | intros k; by apply store_unprocessed].
Qed.
End StoreFacts.

(** ** Witnesses *)

Definition ex_events : list (string * MemoryEvent) :=
  [("2026-01-01T00:00:00Z", mkMemoryEvent MESSAGE_APPENDED "agent" "s" "user" "find the bug" "" "" "" "" "");
   ("2026-01-01T00:00:05Z", mkMemoryEvent MESSAGE_APPENDED "agent" "s" "tool" "3 matches" "c1" "grep" "" "" "t1")].

Lemma ex_events_utf8 : Forall utf8_event ex_events.
Proof.
  repeat (apply Forall_cons; split; [unfold utf8_event; split_and!; apply utf8_ascii; vm_compute; reflexivity|]).
  by apply Forall_nil.
Qed.

Lemma history_roundtrip_witness :
  exists d ls, append_all (J := JsonTree.json) (H := JsonTree.instance []) ex_events fresh_store = (d, Ok tt) /\
    default "" (historyFile_ d) = log_text ls /\
    (forall l, ls !! 1%nat = Some l -> exists j : JsonTree.json,
       @json_parse _ (JsonTree.instance []) l = Ok j /\
       string_field (H := JsonTree.instance []) "session_id" j = Some "s"%string) /\
    ReadUnprocessedHistory (J := JsonTree.json) (H := JsonTree.instance []) false 1 d =
    Some [mkHistoryEntry 2 "t1" "tool" "3 matches" "c1" "grep" ""].
Proof.
  destruct (history_roundtrip (J := JsonTree.json) (H := JsonTree.instance []) (H0 := empty_tree_laws) ex_events)
    as (d & ls & Ha & Ht & _ & Hl & Hr); [exact ex_events_utf8 | cbn; lia|].
  exists d, ls. split; [exact Ha|]. split; [exact Ht|]. split; [|exact (Hr 1)].
  intros l El. destruct (Hl 1%nat _ l eq_refl El) as (j & Hj & _ & Hs). by exists j.
Defined.
