(* ===== verification/DreamProcessor.v ===== *)
(** * Dream consolidation (src/core/dream_processor.cpp)

    A run takes a batch of unprocessed history entries, asks the model for findings
    and lets it apply them with the file tools; the dream cursor then moves past
    the batch.  The file tools are the parameter [file_tool]; files are read
    through [read_file].  The second phase runs on fuel, [None] when it runs out:
    a non-negative [maxIterations] is enough. *)
From Stdlib Require Import ZArith Lia String Ascii List.
From stdpp Require Import base decidable list strings gmap sets.
From S2P Require Import Prelude Types Encoding JsonLib ContextEngine ToolBase ResourceManager TurnState ToolParser AgentWorker HistoryStore.
Open Scope Z_scope.

Record DreamFinding := mkDreamFinding {
  df_type : string;
  df_content : string;
  df_skillName : string;
  df_skillDesc : string
}.

(** [substr(0, maxChars)] takes the whole text when [maxChars] is negative. *)
Definition TruncateText (text : string) (maxChars : Z) : string :=
  let len := Z.of_nat (String.length text) in
  if len <=? maxChars then text
  else str_take (if maxChars <? 0 then String.length text else Z.to_nat maxChars) text
       +:+ nl +:+ "... (truncated)".

Definition finding_line (f : DreamFinding) : string :=
  (if String.eqb (df_type f) "SKILL"
   then "[SKILL] " +:+ df_skillName f +:+ ": " +:+ df_skillDesc f
   else "[" +:+ df_type f +:+ "] " +:+ df_content f) +:+ nl.
Definition FindingsToText (findings : list DreamFinding) : string :=
  string_concat (map finding_line findings).

(** The prefixes in the order they are tried. *)
Definition finding_types : list string :=
  ["MEMORY-REMOVE"; "SOUL-REMOVE"; "USER-REMOVE"; "MEMORY"; "SOUL"; "USER"].

Definition tag_of (type : string) : string := "[" +:+ type +:+ "]".

Definition skill_finding (skillPart : string) : DreamFinding :=
  match find_char ":" skillPart 0 with
  | Some colonPos =>
      mkDreamFinding "SKILL" "" (str_take colonPos skillPart) (str_drop (S colonPos) skillPart)
  | None => mkDreamFinding "SKILL" "" skillPart ""
  end.

(** One line of the first phase's response. *)
Definition parse_finding (line : string) : option DreamFinding :=
  match List.find (fun t => starts_with (tag_of t) line) finding_types with
  | Some t =>
      let content := str_drop (String.length (tag_of t)) line in
      if str_empty content then None else Some (mkDreamFinding t content "" "")
  | None =>
      if starts_with "[SKILL]" line then Some (skill_finding (str_drop 7 line)) else None
  end.

Definition parse_findings (response : string) : list DreamFinding :=
  omap (fun line => if str_empty line then None else parse_finding line) (getlines response).

Definition occurs_str (pat s : string) : bool :=
  match find_str pat s 0 with Some _ => true | None => false end.

(** The path argument of a file tool call, found by text search. *)
Definition path_argument (args : string) : string :=
  match find_str (quoted "path") args 0 with
  | None => ""
  | Some pathKey =>
      match find_if_from (fun c => negb (is_blank c)) args (npos_succ (find_char ":" args (pathKey + 6))) with
      | Some valStart =>
          if bool_decide (str_at args valStart = Some DQUOTE)
          then default "" (string_value args valStart) else ""
      | None => ""
      end
  end.

(** The history shown to the model. *)
Definition history_line (previewMaxChars : Z) (e : HistoryEntry) : string :=
  "[" +:+ he_timestamp e +:+ "] " +:+ he_role e
  +:+ (if str_empty (he_toolName e) then ""
       else "(" +:+ he_toolName e
            +:+ (if str_empty (he_toolCallId e) then "" else " #" +:+ he_toolCallId e) +:+ ")")
  +:+ ": " +:+ TruncateText (he_content e) previewMaxChars
  +:+ (if str_empty (he_payloadRef e) then "" else " [payload:" +:+ he_payloadRef e +:+ "]") +:+ nl.

(** The three files the processor maintains, as last read. *)
Record MemoryFiles := mkMemoryFiles {
  memoryContent : string;
  soulContent : string;
  userContent : string
}.

Section Dream.
Context {J : Type} `{Json J} {M X : Type} `{LanguageModel M X J} `{Environment X}.
Variable config_ : DreamConfig.
(** Invoking read_file, write_file or edit_file. *)
Variable file_tool : string -> string -> X -> X * outcome string.

Definition LoadFile (x : X) (path : string) : string := default "" (read_file x path).

Definition memory_path : string := dc_dataBasePath config_ +:+ "/memory/MEMORY.md".
Definition soul_path : string := dc_dataBasePath config_ +:+ "/SOUL.md".
Definition user_path : string := dc_dataBasePath config_ +:+ "/USER.md".
Definition load_files (x : X) : MemoryFiles :=
  mkMemoryFiles (LoadFile x memory_path) (LoadFile x soul_path) (LoadFile x user_path).

Definition RefreshFileCache (toolName args : string) (x : X) (files : MemoryFiles) : MemoryFiles :=
  if negb (is_one_of toolName ["read_file"; "edit_file"; "write_file"]) then files
  else
    let path := path_argument args in
    if str_empty path then files
    else if occurs_str "MEMORY.md" path
         then mkMemoryFiles (LoadFile x memory_path) (soulContent files) (userContent files)
    else if occurs_str "SOUL.md" path
         then mkMemoryFiles (memoryContent files) (LoadFile x soul_path) (userContent files)
    else if occurs_str "USER.md" path
         then mkMemoryFiles (memoryContent files) (soulContent files) (LoadFile x user_path)
    else files.

Definition phase1_default : string :=
  "You have TWO equally important tasks:" +:+ nl
    +:+ "1. Extract new facts from conversation history" +:+ nl
    +:+ "2. Deduplicate existing memory files - find and flag redundant, overlapping, or stale content"
    +:+ nl +:+ nl +:+ "Output one line per finding:" +:+ nl
    +:+ "[MEMORY] atomic fact (not already in memory)" +:+ nl
    +:+ "[MEMORY-REMOVE] reason for removal" +:+ nl +:+ "[SOUL] bot behavior/tone correction"
    +:+ nl +:+ "[SOUL-REMOVE] reason for removal" +:+ nl
    +:+ "[USER] user identity, preference correction" +:+ nl
    +:+ "[USER-REMOVE] reason for removal" +:+ nl
    +:+ "[SKILL] kebab-case-name: one-line description of a reusable pattern" +:+ nl
    +:+ "[SKIP] if nothing new" +:+ nl +:+ nl +:+ "Rules:" +:+ nl
    +:+ "- Atomic facts: has a cat named Luna not discussed pet care" +:+ nl
    +:+ "- Corrections: [USER] location is Tokyo, not Osaka" +:+ nl
    +:+ "- Capture confirmed approaches the user validated" +:+ nl +:+ nl +:+ "Staleness check:"
    +:+ nl +:+ "- User habits/preferences/personality traits are permanent regardless of age"
    +:+ nl
    +:+ "- Only prune objectively outdated: passed events, resolved tracking, superseded approaches"
    +:+ nl +:+ nl +:+ "Skill discovery - flag [SKILL] when ALL of these are true:" +:+ nl
    +:+ "- A specific, repeatable workflow appeared 2+ times" +:+ nl
    +:+ "- It involves clear steps" +:+ nl
    +:+ "- It is substantial enough to warrant its own instruction set" +:+ nl +:+ nl
    +:+ "Do not add: current weather, transient status, temporary errors, conversational filler."
    +:+ nl.

Definition LoadDreamPhase1Prompt (x : X) : string :=
  let content := LoadFile x (dc_dataBasePath config_ +:+ "/dream_phase1.md") in
  if str_empty content then phase1_default else content.

Definition phase2_default : string :=
  
   "You are a memory maintenance agent. Your job is to update memory files based on the findings below."
    +:+ nl +:+ nl +:+ "## Available Tools" +:+ nl
    +:+ "1. read_file: Read a file's content. Use it if you need to see the full content of a file before editing."
    +:+ nl +:+ "   Input: {" +:+ dq +:+ "path" +:+ dq +:+ ": " +:+ dq +:+ "path/to/file.md" +:+ dq
    +:+ "}" +:+ nl +:+ "2. edit_file: Make surgical edits to a file using find-and-replace."
    +:+ nl +:+ "   Input: {" +:+ dq +:+ "path" +:+ dq +:+ ": " +:+ dq +:+ "path/to/file.md" +:+ dq
    +:+ ", " +:+ dq +:+ "old_text" +:+ dq +:+ ": " +:+ dq +:+ "text to find" +:+ dq +:+ ", "
    +:+ dq +:+ "new_text" +:+ dq +:+ ": " +:+ dq +:+ "replacement text" +:+ dq +:+ "}" +:+ nl
    +:+ "3. write_file: Create a new file. Only use this for creating skill files under my_skills/."
    +:+ nl +:+ "   Input: {" +:+ dq +:+ "path" +:+ dq +:+ ": " +:+ dq +:+ "path/to/file.md" +:+ dq
    +:+ ", " +:+ dq +:+ "content" +:+ dq +:+ ": " +:+ dq +:+ "file content" +:+ dq +:+ "}" +:+ nl
    +:+ nl +:+ "## File Paths" +:+ nl +:+ "- MEMORY.md: " +:+ dc_dataBasePath config_
    +:+ "/memory/MEMORY.md" +:+ nl +:+ "- SOUL.md: " +:+ dc_dataBasePath config_ +:+ "/SOUL.md"
    +:+ nl +:+ "- USER.md: " +:+ dc_dataBasePath config_ +:+ "/USER.md" +:+ nl
    +:+ "- Skills: my_skills/<name>/SKILL.md" +:+ nl +:+ nl +:+ "## Editing Rules" +:+ nl
    +:+ "- Use edit_file for existing files, write_file only for new skill files" +:+ nl
    +:+ "- For edit_file: use exact text from the file content as old_text" +:+ nl
    +:+ "- If old_text doesn't match, use read_file first to get the exact content" +:+ nl
    +:+ "- For deletions: use edit_file with new_text as empty string" +:+ nl
    +:+ "- Batch multiple edits to the same file into separate edit_file calls" +:+ nl
    +:+ "- Surgical edits only - never rewrite entire files" +:+ nl
    +:+ "- When done with all updates, output: DONE" +:+ nl +:+ nl +:+ "## Skill Creation Rules"
    +:+ nl +:+ "- Use write_file to create my_skills/<name>/SKILL.md" +:+ nl
    +:+ "- Include YAML frontmatter with name and description" +:+ nl
    +:+ "- Keep SKILL.md under 2000 words" +:+ nl
    +:+ "- Include: when to use, steps, output format, example" +:+ nl
    +:+ "- Do NOT overwrite existing skills" +:+ nl.

Definition LoadDreamPhase2Prompt (x : X) : string :=
  let content := LoadFile x (dc_dataBasePath config_ +:+ "/dream_phase2.md") in
  if str_empty content then phase2_default else content.

(** One call of the model with a single user message: its content. *)
Definition ask_model (m : M) (systemPrompt prompt : string) (x : X) : X * outcome string :=
  match model_Format m systemPrompt [text_message "user" prompt] [] with
  | Throw e => (x, Throw e)
  | Ok formatted =>
      let '(x1, _, r) := model_Invoke m formatted x in
      (x1, resp <-- r ;; Ok (mr_content resp))
  end.

Definition chars (s : string) : string := " (" +:+ nat_to_string (String.length s) +:+ " chars)" +:+ nl.
Definition shown (s : string) : string :=
  TruncateText (if str_empty s then "(empty)" else s) (memoryFileMaxChars config_).

Definition phase1_prompt (historyText : string) (files : MemoryFiles) (x : X) : string :=
  "## Conversation History" +:+ nl +:+ historyText +:+ nl +:+ nl
  +:+ "## Current Time" +:+ nl +:+ now_utc x +:+ nl +:+ nl
  +:+ "## Current MEMORY.md" +:+ chars (memoryContent files) +:+ shown (memoryContent files) +:+ nl +:+ nl
  +:+ "## Current SOUL.md" +:+ chars (soulContent files) +:+ shown (soulContent files) +:+ nl +:+ nl
  +:+ "## Current USER.md" +:+ chars (userContent files) +:+ shown (userContent files).

Definition Phase1Analysis (m : M) (historyText : string) (files : MemoryFiles) (x : X)
    : X * outcome (list DreamFinding) :=
  let '(x1, r) := ask_model m (LoadDreamPhase1Prompt x) (phase1_prompt historyText files x) x in
  (x1, response <-- r ;; Ok (parse_findings response)).

Definition BuildPhase2Prompt (findings : list DreamFinding) (scratchpad : string)
    (files : MemoryFiles) : string :=
  "## Findings to Apply" +:+ nl +:+ FindingsToText findings +:+ nl +:+ nl
  +:+ "## Current File Contents" +:+ nl +:+ nl
  +:+ "### " +:+ memory_path +:+ chars (memoryContent files) +:+ shown (memoryContent files) +:+ nl +:+ nl
  +:+ "### " +:+ soul_path +:+ chars (soulContent files) +:+ shown (soulContent files) +:+ nl +:+ nl
  +:+ "### " +:+ user_path +:+ chars (userContent files) +:+ shown (userContent files)
  +:+ (if str_empty scratchpad then ""
       else nl +:+ nl +:+ "## Tool Interaction History" +:+ nl +:+ scratchpad).

Definition DreamExecuteTool (toolName input : string) (x : X) : X * string :=
  if is_one_of toolName ["read_file"; "write_file"; "edit_file"] then
    let '(x1, r) := file_tool toolName input x in
    (x1, match r with Ok s => s | Throw e => "Error: " +:+ e end)
  else (x, "Error: Unknown tool '" +:+ toolName +:+ "'").

Definition scratch_entry (iteration : Z) (call : ParsedToolCall) (observation : string) : string :=
  "Thought: (model response iteration " +:+ to_string (iteration + 1) +:+ ")" +:+ nl
  +:+ "Action: " +:+ pc_name call +:+ nl
  +:+ "Action Input: " +:+ pc_arguments call +:+ nl
  +:+ "Observation: " +:+ observation +:+ nl +:+ nl.

Fixpoint run_calls (iteration : Z) (calls : list ParsedToolCall) (scratchpad : string)
    (files : MemoryFiles) (x : X) : X * string * MemoryFiles :=
  match calls with
  | [] => (x, scratchpad, files)
  | call :: rest =>
      let '(x1, observation) := DreamExecuteTool (pc_name call) (pc_arguments call) x in
      run_calls iteration rest (scratchpad +:+ scratch_entry iteration call observation)
        (RefreshFileCache (pc_name call) (pc_arguments call) x1 files) x1
  end.

Fixpoint phase2_loop (fuel : nat) (m : M) (systemPrompt : string) (findings : list DreamFinding)
    (iteration : Z) (scratchpad : string) (files : MemoryFiles) (x : X) : X * outcome (option bool) :=
  if (0 <=? dc_maxIterations config_) && (dc_maxIterations config_ <=? iteration)
  then (x, Ok (Some false))
  else
    match fuel with
    | O => (x, Ok None)
    | S fuel =>
        let '(x1, r) := ask_model m systemPrompt (BuildPhase2Prompt findings scratchpad files) x in
        match r with
        | Throw e => (x1, Throw e)
        | Ok response =>
            if occurs_str "DONE" response then (x1, Ok (Some true))
            else match ExtractAllToolCalls response with
                 | None => (x1, Ok None)
                 | Some [] => (x1, Ok (Some true))
                 | Some toolCalls =>
                     let '(x2, scratchpad2, files2) := run_calls iteration toolCalls scratchpad files x1 in
                     phase2_loop fuel m systemPrompt findings (iteration + 1) scratchpad2 files2 x2
                 end
        end
    end.

Definition Phase2Execution (fuel : nat) (m : M) (findings : list DreamFinding) (x : X)
    : X * outcome (option bool) :=
  phase2_loop fuel m (LoadDreamPhase2Prompt x) findings 0 "" (load_files x) x.

(** Moving the dream cursor past the batch. *)
Definition advance (batch : list HistoryEntry) (d : HistoryStore) : option HistoryStore :=
  match last batch with
  | Some e => SetLastDreamCursor false (he_cursor e) d
  | None => None
  end.

(** [Run] on a model and a store that are not null.  A batch size that is not
    positive takes the iterators before the first entry. *)
Definition Run (fuel : nat) (m : M) (d : HistoryStore) (x : X) : HistoryStore * X * res (option bool) :=
  let lastCursor := ReadDreamCursor d in
  match ReadUnprocessedHistory (J := J) false lastCursor d with
  | None => (d, x, Undefined)
  | Some [] => (d, x, Val (Some false))
  | Some entries =>
      let batchSize := Z.min (Z.of_nat (length entries)) (maxBatchSize config_) in
      if batchSize <=? 0 then (d, x, Undefined)
      else
        let batch := take (Z.to_nat batchSize) entries in
        let historyText := string_concat (map (history_line (historyEntryPreviewMaxChars config_)) batch) in
        let finish x1 r :=
          match advance batch d with Some d1 => (d1, x1, Val (Some r)) | None => (d, x1, Undefined) end in
        match Phase1Analysis m historyText (load_files x) x with
        | (x1, Throw e) => (d, x1, Exc e)
        | (x1, Ok []) => finish x1 false
        | (x1, Ok findings) =>
            match Phase2Execution fuel m findings x1 with
            | (x2, Throw e) => (d, x2, Exc e)
            | (x2, Ok None) => (d, x2, Val None)
            | (x2, Ok (Some success)) => finish x2 success
            end
        end
  end.
End Dream.

(** ** Facts *)

Section DreamFacts.
Context {J : Type} `{JsonLaws J} {M X : Type} `{LanguageModel M X J} `{Environment X}.
Variable config_ : DreamConfig.
Variable file_tool : string -> string -> X -> X * outcome string.

Local Notation Run := (Run config_ file_tool).

Lemma last_logged (es : list (string * MemoryEvent)) (k n : nat) (e : HistoryEntry) :
  last (take n (drop k (logged_all es))) = Some e ->
  he_cursor e = Z.of_nat (k + length (take n (drop k (logged_all es)))).
Proof.
  rewrite last_lookup. set (len := length (take n (drop k (logged_all es)))). intros Hl.
  assert (0 < len)%nat as Hlen.
  { subst len. destruct (take n (drop k (logged_all es))); [done | cbn; lia]. }
  clearbody len. apply lookup_take_Some in Hl as [Hl _]. rewrite lookup_drop in Hl.
  unfold logged_all in Hl. apply list_lookup_imap_Some in Hl as (x & Hx & ->).
  cbn [he_cursor logged]. lia.
Qed.

Lemma store_ok_dream es d t : store_ok (J := J) es d -> store_ok (J := J) es (set_dream t d).
Proof. done. Qed.

(** A non-negative [maxIterations] bounds the second phase. *)
Lemma phase2_loop_ends fuel m sp findings i scratch files x :
  0 <= dc_maxIterations config_ -> dc_maxIterations config_ - i <= Z.of_nat fuel ->
  (phase2_loop config_ file_tool fuel m sp findings i scratch files x).2 <> Ok None.
Proof.
  intros Hmax. revert i scratch files x.
  induction fuel as [|fuel IH]; intros i scratch files x Hi; cbn [phase2_loop];
    rewrite (proj2 (Z.leb_le 0 (dc_maxIterations config_)) Hmax);
    destruct (Z.leb_spec (dc_maxIterations config_) i); cbn [andb]; try done; [lia|].
  destruct (ask_model m sp _ x) as [x1 [response|e]]; [|done].
  destruct (occurs_str "DONE" response); [done|].
  destruct (extraction_terminates response) as (calls & -> & _).
  destruct calls as [|c cs]; [done|].
  destruct (run_calls _ _ _ _ _ _ _) as [[x2 scratch2] files2]. apply IH. lia.
Qed.

(** What a run does to the store, whatever its result. *)
Lemma run_store fuel m d x entries :
  ReadUnprocessedHistory (J := J) false (ReadDreamCursor d) d = Some entries ->
  dream_opens d = true -> 0 < maxBatchSize config_ ->
  0 <= dc_maxIterations config_ <= Z.of_nat fuel ->
  let batch := take (Z.to_nat (Z.min (Z.of_nat (length entries)) (maxBatchSize config_))) entries in
  match Run fuel m d x with
  | (d', x', Val (Some r)) => (entries = [] /\ d' = d) \/ (entries <> [] /\ advance batch d = Some d')
  | (d', x', Exc e) => d' = d
  | (_, _, Val None) | (_, _, Undefined) => False
  end.
Proof.
  intros He Ho Hb [Hm Hf] batch. unfold Run. rewrite He.
  destruct entries as [|e0 es0]; [by left|].
  destruct (Z.leb_spec (Z.min (Z.of_nat (length (e0 :: es0))) (maxBatchSize config_)) 0) as [|Hpos];
    [cbn in *; lia|]. fold batch.
  assert (exists d1, advance batch d = Some d1) as [d1 Ha].
  { unfold advance. destruct (last batch) as [e|] eqn:El; [by eexists|].
    apply last_None in El. subst batch. apply (f_equal length) in El.
    rewrite length_take in El. cbn in *. lia. }
  rewrite Ha. destruct (Phase1Analysis _ _ _ _ _) as [x1 [[|f fs]|e]]; [by right| |done].
  pose proof (phase2_loop_ends fuel m (LoadDreamPhase2Prompt config_ x1) (f :: fs) 0 ""
    (load_files config_ x1) x1 Hm ltac:(lia)) as Hne.
  unfold Phase2Execution. destruct (phase2_loop _ _ _ _ _ _ _ _ _ _) as [x2 [[s|]|e]]; [by right|done..].
Qed.

(** C14.  Every history entry is consolidated once.  The store's files can be opened,
    its log holds what was appended - fewer than [2^31] events with UTF-8 texts - and
    the dream cursor lies within it; the batch size is positive and the limit on the
    iterations is not negative (a negative one means no limit, and then nothing is
    claimed).  Then a run ends, and it either throws the error of the model call, leaving
    the store as it was, or returns - whatever the model answered, and whether or
    not the findings were applied - having taken the oldest unprocessed entries, at
    most [maxBatchSize] of them; what is unprocessed afterwards is exactly the rest,
    so no entry is seen twice and none is skipped. *)
Theorem dream_batches (fuel : nat) (m : M) (es : list (string * MemoryEvent)) (d : HistoryStore) (x : X) :
  store_ok (J := J) es d -> Forall utf8_event es -> Z.of_nat (length es) < 2 ^ 31 ->
  0 <= ReadDreamCursor d <= Z.of_nat (length es) -> 0 < maxBatchSize config_ ->
  0 <= dc_maxIterations config_ <= Z.of_nat fuel ->
  match Run fuel m d x with
  | (d', x', Val (Some r)) =>
      exists batch rest,
        ReadUnprocessedHistory (J := J) false (ReadDreamCursor d) d = Some (batch ++ rest) /\
        ReadUnprocessedHistory (J := J) false (ReadDreamCursor d') d' = Some rest /\
        length batch = Nat.min (length es - Z.to_nat (ReadDreamCursor d)) (Z.to_nat (maxBatchSize config_)) /\
        store_ok (J := J) es d' /\ ReadDreamCursor d' = ReadDreamCursor d + Z.of_nat (length batch)
  | (d', x', Exc e) => d' = d
  | (_, _, Val None) | (_, _, Undefined) => False
  end.
Proof.
  intros Hd Hu Hlt Hk Hb Hf. pose proof (proj1 (proj2 (proj2 Hd))) as Ho.
  pose proof (store_unprocessed es d (ReadDreamCursor d) Hd Hu Hlt) as He.
  pose proof (run_store fuel m d x _ He Ho Hb Hf) as Hr. cbn zeta in Hr.
  destruct (Run fuel m d x) as [[d' x'] [[r|]|e|]]; try done.
  rewrite He. remember (ReadDreamCursor d) as k eqn:Ek. clear He.
  remember (drop (Z.to_nat k) (logged_all es)) as entries eqn:Een.
  assert (length entries = (length es - Z.to_nat k)%nat) as Hlen
    by (rewrite Een, length_drop; unfold logged_all; by rewrite length_imap).
  remember (Z.to_nat (Z.min (Z.of_nat (length entries)) (maxBatchSize config_))) as n eqn:En.
  exists (take n entries), (drop n entries). rewrite take_drop.
  assert (length (take n entries) = n) as Hn by (rewrite length_take; lia). rewrite Hn.
  assert (store_ok (J := J) es d' /\ ReadDreamCursor d' = k + Z.of_nat n) as [Hd' Hcur].
  { destruct Hr as [[Hnil ->]|[Hne Ha]]; [split; [done|]; rewrite Hnil in *; cbn in *; lia|].
    unfold advance, SetLastDreamCursor, locked in Ha. rewrite Ho in Ha.
    destruct (last (take n entries)) as [e|] eqn:El; [|done]. injection Ha as <-.
    split; [by apply store_ok_dream|]. rewrite Een in El, Hn. apply last_logged in El. rewrite Hn in El.
    unfold ReadDreamCursor. cbn [dreamCursorFile_ set_dream].
    rewrite El, read_number_written; lia. }
  rewrite Hcur. split_and!; try done; [|lia].
  rewrite (store_unprocessed es) by done. f_equal. rewrite Een, drop_drop. f_equal. lia.
Qed.
End DreamFacts.

(** ** Witness: one finding, then nothing to do *)

Definition ex_dream_env : Environment nat := {|
  now_utc := fun _ => "2026-01-01T00:00:00Z";
  now_local := fun _ => "2026-01-01 00:00:00";
  now_date := fun _ => "2026-01-01 (Thursday)";
  read_file := fun _ _ => None;
  fallback_template := fun _ => None;
  skill_dir := fun _ _ => None;
  memory_file := fun _ => None;
  cancelGeneration := fun _ => 0;
  elapse := fun x => x;
  sink_event := fun _ x => (x, Ok tt)
|}.

Definition finding_then_done : LanguageModel unit nat JsonTree.json := {|
  model_Format := fun _ _ _ _ => Ok "";
  model_Invoke := fun _ _ x =>
    (S x, [], Ok (mkModelResponse (if Nat.eqb x 0 then "[MEMORY] likes tea" else "DONE") [] true "stop" false None))
|}.

Definition ex_dream (d : HistoryStore) : HistoryStore * nat * res (option bool) :=
  Run (H := JsonTree.instance []) (H0 := finding_then_done) (H1 := ex_dream_env)
    (mkDreamConfig "data" "" 1 10 16000 4000 32000) (fun _ _ x => (x, Ok "")) 10 tt d 0%nat.

Definition ex_dream_store : HistoryStore :=
  (append_all (J := JsonTree.json) (H := JsonTree.instance []) ex_events fresh_store).1.

Lemma dream_batches_witness :
  (ex_dream ex_dream_store).2 = Val (Some true) /\
  exists batch rest,
    ReadUnprocessedHistory (J := JsonTree.json) (H := JsonTree.instance []) false 0 ex_dream_store
      = Some (batch ++ rest) /\
    ReadUnprocessedHistory (J := JsonTree.json) (H := JsonTree.instance []) false
      (ReadDreamCursor (ex_dream ex_dream_store).1.1) (ex_dream ex_dream_store).1.1 = Some rest /\
    length batch = 1%nat.
Proof.
  assert ((ex_dream ex_dream_store).2 = Val (Some true)) as E by (vm_compute; reflexivity).
  split; [exact E|].
  destruct (append_all_ok (J := JsonTree.json) (H := JsonTree.instance []) (H0 := empty_tree_laws) [] ex_events fresh_store fresh_ok ex_events_utf8)
    as (d & Ha & Hd & _); [cbn; lia|].
  assert (ex_dream_store = d) as Hx by (unfold ex_dream_store; rewrite Ha; reflexivity).
  assert (ReadDreamCursor ex_dream_store = 0) as Hc by (vm_compute; reflexivity).
  pose proof (dream_batches (J := JsonTree.json) (H := JsonTree.instance []) (H0 := empty_tree_laws)
    (H1 := finding_then_done) (H2 := ex_dream_env)
    (mkDreamConfig "data" "" 1 10 16000 4000 32000) (fun _ _ x => (x, Ok "")) 10 tt ex_events ex_dream_store 0%nat) as T.
  rewrite Hc in T. specialize (T ltac:(rewrite Hx; exact Hd) ex_events_utf8 ltac:(cbn; lia) ltac:(cbn; lia)
    ltac:(cbn; lia) ltac:(cbn; lia)).
  change (Run _ _ _ _ _ _) with (ex_dream ex_dream_store) in T.
  destruct (ex_dream ex_dream_store) as [[d' x'] r]. cbn in E. subst r.
  destruct T as (batch & rest & H1 & H2 & H3 & _). exists batch, rest. split; [exact H1|]. split; [exact H2 | exact H3].
Defined.
