(* ===== verification/AgentConfigJson.v ===== *)
(** * The configuration codec (src/config/agent_config_json.cpp)

    [XToJson] writes a configuration, [MergeX] overlays the members a document has
    on a configuration.  The code merges into its argument; every caller passes a
    local copy that an exception discards, so a merge here is a function that
    returns the merged configuration or throws.  Members are read in the code's
    order, each by [over]: the value of the member, or the present one. *)
From Stdlib Require Import ZArith Lia String Ascii List Floats.SpecFloat.
From stdpp Require Import base decidable list strings gmap sets.
From S2P Require Import Prelude Encoding Types JsonLib.
Open Scope Z_scope.

(** ** Enumerations *)

Definition WorkModeToString (mode : AgentWorkMode) : string :=
  match mode with
  | REACT => "react" | PLAN_AND_EXECUTE => "plan_and_execute" | WORKFLOW => "workflow"
  end.
Definition WorkModeFromString (s : string) : option AgentWorkMode :=
  if String.eqb s "react" then Some REACT
  else if String.eqb s "plan_and_execute" then Some PLAN_AND_EXECUTE
  else if String.eqb s "workflow" then Some WORKFLOW else None.

Definition FormatTypeToString (t : ModelFormatType) : string :=
  match t with OPENAI => "openai" | ANTHROPIC => "anthropic" end.
Definition FormatTypeFromString (s : string) : option ModelFormatType :=
  if String.eqb s "openai" then Some OPENAI
  else if String.eqb s "anthropic" then Some ANTHROPIC else None.

Definition PromptResourceTypeToString (t : PromptResourceType) : string :=
  match t with TEXT => "TEXT" | FILE_PATH => "FILE_PATH" end.
Definition PromptResourceTypeFromString (s : string) : option PromptResourceType :=
  if String.eqb s "TEXT" then Some TEXT
  else if String.eqb s "FILE_PATH" then Some FILE_PATH else None.

Definition StorageTypeToString (t : StorageType) : string :=
  match t with
  | MEMORY_ONLY => "MEMORY_ONLY" | JSON_FILE => "JSON_FILE" | DATABASE => "DATABASE"
  end.
Definition StorageTypeFromString (s : string) : option StorageType :=
  if String.eqb s "MEMORY_ONLY" then Some MEMORY_ONLY
  else if String.eqb s "JSON_FILE" then Some JSON_FILE
  else if String.eqb s "DATABASE" then Some DATABASE else None.

Definition ToolDisclosureModeToString (m : ToolDisclosureMode) : string :=
  match m with
  | DISABLED => "disabled" | PROGRESSIVE => "progressive" | SELECTIVE => "selective" | AUTO => "auto"
  end.
Definition ToolDisclosureModeFromString (s : string) : option ToolDisclosureMode :=
  if String.eqb s "disabled" then Some DISABLED
  else if String.eqb s "progressive" then Some PROGRESSIVE
  else if String.eqb s "selective" then Some SELECTIVE
  else if String.eqb s "auto" then Some AUTO else None.

Section Codec.
Context {J : Type} `{Json J}.

Definition j_strings (l : list string) : J := j_array (map j_string l).

(** ** Trees of extra parameters *)

Fixpoint ConfigValueToJson (v : ConfigValue) : J :=
  match v with
  | CVInt n => j_int n
  | CVFloat f => j_float f
  | CVBool b => j_bool b
  | CVString s => j_string s
  | CVList l => j_strings l
  | CVNode None => j_object ∅
  | CVNode (Some (mkConfigNode m)) => j_object (ConfigValueToJson <$> m)
  end.
Definition ConfigNodeToJson (node : ConfigNode) : J :=
  j_object (ConfigValueToJson <$> fields_ node).

(** The elements of an array: a string as it is, anything else dumped. *)
Fixpoint list_items (l : list J) : outcome (list string) :=
  match l with
  | [] => Ok []
  | v :: l =>
      s <-- (if is_string v then get_string v else json_dump None v) ;;
      rest <-- list_items l ;; Ok (s :: rest)
  end.

(** The members of an object, in order, converted by [conv] and assigned. *)
Fixpoint assign_fields (conv : J -> outcome (option ConfigValue)) (l : list (string * J))
    (out : gmap string ConfigValue) : outcome (gmap string ConfigValue) :=
  match l with
  | [] => Ok out
  | (k, v) :: l =>
      c <-- conv v ;;
      assign_fields conv l (match c with Some c => <[k := c]> out | None => out end)
  end.

(** The value a member becomes; a null member is skipped.  The fuel bounds the
    depth of the document. *)
Fixpoint config_value (fuel : nat) (v : J) : outcome (option ConfigValue) :=
  match fuel with
  | O => Throw "fuel"
  | S fuel =>
      match json_view v with
      | JBool b => Ok (Some (CVBool b))
      | JInt _ => n <-- json_get_int v ;; Ok (Some (CVInt n))
      | JFloat _ => f <-- json_get_float v ;; Ok (Some (CVFloat f))
      | JString s => Ok (Some (CVString s))
      | JArray l => items <-- list_items l ;; Ok (Some (CVList items))
      | JObject m =>
          fs <-- assign_fields (config_value fuel) (fields_of m) ∅ ;;
          Ok (Some (CVNode (Some (mkConfigNode fs))))
      | JNull => Ok None
      end
  end.

(** Into a node with the fields [out]. *)
Definition ConfigNodeFromJson (j : J) (out : ConfigNode) : outcome ConfigNode :=
  match json_view j with
  | JObject m =>
      fs <-- assign_fields (config_value (json_depth j)) (fields_of m) (fields_ out) ;;
      Ok (mkConfigNode fs)
  | _ => Ok out
  end.

(** ** Members with a condition on their kind *)

(** An enumeration: read when the member is a string one of the names equals. *)
Definition over_enum {A} (from : string -> option A) (key : string) (old : A) (j : J) : A :=
  match string_field key j with Some s => default old (from s) | None => old end.

Definition over_strings (key : string) (old : list string) (j : J) : list string :=
  match array_field key j with Some l => string_elements l | None => old end.

(** An object member replaces the whole tree. *)
Definition over_node (key : string) (old : ConfigNode) (j : J) : outcome ConfigNode :=
  match jfield key j with
  | Some v => if is_object v then ConfigNodeFromJson v default_ConfigNode else Ok old
  | None => Ok old
  end.

Local Notation over_string := (over get_string).
Local Notation over_int := (over json_get_int).
Local Notation over_bool := (over get_bool).

(** ** The sections *)

Definition MergeRetryPolicy (rp : J) (out : RetryPolicy) : outcome RetryPolicy :=
  maxRetries <-- over_int "maxRetries" (maxRetries out) rp ;;
  baseDelayMs <-- over_int "baseDelayMs" (baseDelayMs out) rp ;;
  maxDelayMs <-- over_int "maxDelayMs" (maxDelayMs out) rp ;;
  withJitter <-- over_bool "withJitter" (withJitter out) rp ;;
  Ok (mkRetryPolicy maxRetries baseDelayMs maxDelayMs withJitter).

Definition MergeModelConfig (j : J) (out : ModelConfig) : outcome ModelConfig :=
  if negb (is_object j) then Ok out
  else
    baseUrl <-- over_string "baseUrl" (baseUrl out) j ;;
    apiKey <-- over_string "apiKey" (apiKey out) j ;;
    modelName <-- over_string "modelName" (modelName out) j ;;
    provider <-- over_string "provider" (provider out) j ;;
    let formatType := over_enum FormatTypeFromString "formatType" (formatType out) j in
    native <-- over_bool "useNativeFunctionCalling" (useNativeFunctionCalling out) j ;;
    extraParams <-- over_node "extraParams" (extraParams out) j ;;
    retryPolicy <--
      match jfield "retryPolicy" j with
      | Some rp => if is_object rp then MergeRetryPolicy rp (retryPolicy out) else Ok (retryPolicy out)
      | None => Ok (retryPolicy out)
      end ;;
    Ok (mkModelConfig baseUrl apiKey modelName provider formatType native extraParams retryPolicy).

Definition RetryPolicyToJson (p : RetryPolicy) : J :=
  j_fields
    [("maxRetries", j_int (maxRetries p)); ("baseDelayMs", j_int (baseDelayMs p));
     ("maxDelayMs", j_int (maxDelayMs p)); ("withJitter", j_bool (withJitter p))].

Definition ModelConfigToJson (cfg : ModelConfig) : J :=
  j_fields
    [("baseUrl", j_string (baseUrl cfg)); ("apiKey", j_string (apiKey cfg));
     ("modelName", j_string (modelName cfg)); ("provider", j_string (provider cfg));
     ("formatType", j_string (FormatTypeToString (formatType cfg)));
     ("useNativeFunctionCalling", j_bool (useNativeFunctionCalling cfg));
     ("extraParams", ConfigNodeToJson (extraParams cfg));
     ("retryPolicy", RetryPolicyToJson (retryPolicy cfg))].

Definition MergeContextConfig (j : J) (out : ContextConfig) : outcome ContextConfig :=
  if negb (is_object j) then Ok out
  else
    maxContextTokens <-- over_int "maxContextTokens" (maxContextTokens out) j ;;
    maxMessages <-- over_int "maxMessages" (maxMessages out) j ;;
    sessionId <-- over_string "sessionId" (cc_sessionId out) j ;;
    storagePath <-- over_string "storagePath" (storagePath out) j ;;
    let storageType := over_enum StorageTypeFromString "storageType" (storageType out) j in
    enableSummarization <-- over_bool "enableSummarization" (enableSummarization out) j ;;
    Ok (mkContextConfig maxContextTokens maxMessages sessionId storagePath storageType
          enableSummarization).

Definition ContextConfigToJson (cfg : ContextConfig) : J :=
  j_fields
    [("maxContextTokens", j_int (maxContextTokens cfg)); ("maxMessages", j_int (maxMessages cfg));
     ("sessionId", j_string (cc_sessionId cfg)); ("storagePath", j_string (storagePath cfg));
     ("storageType", j_string (StorageTypeToString (storageType cfg)));
     ("enableSummarization", j_bool (enableSummarization cfg))].

Definition MergeDreamConfig (j : J) (out : DreamConfig) : outcome DreamConfig :=
  if negb (is_object j) then Ok out
  else
    dataBasePath <-- over_string "dataBasePath" (dc_dataBasePath out) j ;;
    historyPath <-- over_string "historyPath" (historyPath out) j ;;
    maxBatchSize <-- over_int "maxBatchSize" (maxBatchSize out) j ;;
    maxIterations <-- over_int "maxIterations" (dc_maxIterations out) j ;;
    maxToolResultChars <-- over_int "maxToolResultChars" (maxToolResultChars out) j ;;
    preview <-- over_int "historyEntryPreviewMaxChars" (historyEntryPreviewMaxChars out) j ;;
    memoryFileMaxChars <-- over_int "memoryFileMaxChars" (memoryFileMaxChars out) j ;;
    Ok (mkDreamConfig dataBasePath historyPath maxBatchSize maxIterations maxToolResultChars
          preview memoryFileMaxChars).

Definition DreamConfigToJson (cfg : DreamConfig) : J :=
  j_fields
    [("dataBasePath", j_string (dc_dataBasePath cfg)); ("historyPath", j_string (historyPath cfg));
     ("maxBatchSize", j_int (maxBatchSize cfg)); ("maxIterations", j_int (dc_maxIterations cfg));
     ("maxToolResultChars", j_int (maxToolResultChars cfg));
     ("historyEntryPreviewMaxChars", j_int (historyEntryPreviewMaxChars cfg));
     ("memoryFileMaxChars", j_int (memoryFileMaxChars cfg))].

(** The value older files keep in the context section. *)
Definition over_idle (old : Z) (j contextConfigJson : J) : outcome Z :=
  if contains "idleConsolidationSeconds" j then over_int "idleConsolidationSeconds" old j
  else over_int "idleConsolidationSeconds" old contextConfigJson.

Definition MergeMemoryConfig (j : J) (out : MemoryConfig) (contextConfigJson : J) : outcome MemoryConfig :=
  if negb (is_object j) then Ok out
  else
    enabled <-- over_bool "enabled" (mc_enabled out) j ;;
    mode <-- over_string "mode" (mc_mode out) j ;;
    provider <-- over_string "provider" (mc_provider out) j ;;
    dataPath <-- over_string "dataPath" (mc_dataPath out) j ;;
    serverUrl <-- over_string "serverUrl" (serverUrl out) j ;;
    serverApiKey <-- over_string "serverApiKey" (serverApiKey out) j ;;
    timeout <-- over_int "serverTimeoutSeconds" (serverTimeoutSeconds out) j ;;
    retries <-- over_int "serverMaxRetries" (serverMaxRetries out) j ;;
    threshold <-- over_int "serverCircuitThreshold" (serverCircuitThreshold out) j ;;
    cooldown <-- over_int "serverCircuitCooldownSeconds" (serverCircuitCooldownSeconds out) j ;;
    tokenBudget <-- over_int "tokenBudget" (tokenBudget out) j ;;
    offloadChars <-- over_int "offloadToolResultChars" (offloadToolResultChars out) j ;;
    offload <-- over_bool "enablePayloadOffload" (enablePayloadOffload out) j ;;
    idle <-- over_idle (idleConsolidationSeconds out) j contextConfigJson ;;
    let excluded := over_strings "excludedConsolidationSessionIds" (excludedConsolidationSessionIds out) j in
    modelEnabled <-- over_bool "modelEnabled" (modelEnabled out) j ;;
    modelFormatType <-- over_string "modelFormatType" (modelFormatType out) j ;;
    modelBaseUrl <-- over_string "modelBaseUrl" (modelBaseUrl out) j ;;
    modelApiKey <-- over_string "modelApiKey" (modelApiKey out) j ;;
    modelName <-- over_string "modelName" (mc_modelName out) j ;;
    organization <-- over_string "modelOrganization" (modelOrganization out) j ;;
    version <-- over_string "modelAnthropicVersion" (modelAnthropicVersion out) j ;;
    modelTimeout <-- over_int "modelTimeoutSeconds" (modelTimeoutSeconds out) j ;;
    temperature <-- over json_get_double "modelTemperature" (modelTemperature out) j ;;
    maxTokens <-- over_int "modelMaxTokens" (modelMaxTokens out) j ;;
    let types := over_strings "eventEntityTypes" (eventEntityTypes out) j in
    ttl <-- over_int "eventEntityTtlDays" (eventEntityTtlDays out) j ;;
    extraParams <-- over_node "extraParams" (mc_extraParams out) j ;;
    Ok (mkMemoryConfig enabled mode provider dataPath serverUrl serverApiKey timeout retries
          threshold cooldown tokenBudget offloadChars offload idle excluded modelEnabled
          modelFormatType modelBaseUrl modelApiKey modelName organization version modelTimeout
          temperature maxTokens types ttl extraParams).

Definition MemoryConfigToJson (cfg : MemoryConfig) : J :=
  j_fields
    [("enabled", j_bool (mc_enabled cfg)); ("mode", j_string (mc_mode cfg));
     ("provider", j_string (mc_provider cfg)); ("dataPath", j_string (mc_dataPath cfg));
     ("serverUrl", j_string (serverUrl cfg)); ("serverApiKey", j_string (serverApiKey cfg));
     ("serverTimeoutSeconds", j_int (serverTimeoutSeconds cfg));
     ("serverMaxRetries", j_int (serverMaxRetries cfg));
     ("serverCircuitThreshold", j_int (serverCircuitThreshold cfg));
     ("serverCircuitCooldownSeconds", j_int (serverCircuitCooldownSeconds cfg));
     ("tokenBudget", j_int (tokenBudget cfg));
     ("offloadToolResultChars", j_int (offloadToolResultChars cfg));
     ("enablePayloadOffload", j_bool (enablePayloadOffload cfg));
     ("idleConsolidationSeconds", j_int (idleConsolidationSeconds cfg));
     ("excludedConsolidationSessionIds", j_strings (excludedConsolidationSessionIds cfg));
     ("modelEnabled", j_bool (modelEnabled cfg));
     ("modelFormatType", j_string (modelFormatType cfg));
     ("modelBaseUrl", j_string (modelBaseUrl cfg)); ("modelApiKey", j_string (modelApiKey cfg));
     ("modelName", j_string (mc_modelName cfg));
     ("modelOrganization", j_string (modelOrganization cfg));
     ("modelAnthropicVersion", j_string (modelAnthropicVersion cfg));
     ("modelTimeoutSeconds", j_int (modelTimeoutSeconds cfg));
     ("modelTemperature", j_float (modelTemperature cfg));
     ("modelMaxTokens", j_int (modelMaxTokens cfg));
     ("eventEntityTypes", j_strings (eventEntityTypes cfg));
     ("eventEntityTtlDays", j_int (eventEntityTtlDays cfg));
     ("extraParams", ConfigNodeToJson (mc_extraParams cfg))].

(** A template is a text, or an object with a type and a value; anything else is
    skipped. *)
Definition prompt_resource (v : J) : option PromptResource :=
  match json_view v with
  | JString s => Some (mkPromptResource TEXT s)
  | JObject _ =>
      Some (mkPromptResource
              (over_enum PromptResourceTypeFromString "type" (pr_type default_PromptResource) v)
              (default (pr_value default_PromptResource) (string_field "value" v)))
  | _ => None
  end.

Definition MergePromptTemplates (j : J) (out : gmap string PromptResource) : gmap string PromptResource :=
  match json_view j with
  | JObject m => omap prompt_resource m ∪ out
  | _ => out
  end.

Definition prompt_resource_json (p : PromptResource) : J :=
  j_fields [("type", j_string (PromptResourceTypeToString (pr_type p))); ("value", j_string (pr_value p))].
Definition PromptTemplatesToJson (m : gmap string PromptResource) : J :=
  j_object (prompt_resource_json <$> m).

(** ** The configuration of an agent *)

(** A section of the document, merged when it is there. *)
Definition over_section {A} (merge : J -> A -> outcome A) (key : string) (old : A) (j : J) : outcome A :=
  match jfield key j with Some v => merge v old | None => Ok old end.

Definition MergeAgentConfigFromJson (j : J) (out : AgentConfig) : outcome AgentConfig :=
  if negb (is_object j) then Ok out
  else
    id <-- over_string "id" (ac_id out) j ;;
    name <-- over_string "name" (ac_name out) j ;;
    description <-- over_string "description" (ac_description out) j ;;
    version <-- over_string "version" (ac_version out) j ;;
    let mode := over_enum WorkModeFromString "mode" (ac_mode out) j in
    modelConfig <-- over_section MergeModelConfig "modelConfig" (modelConfig out) j ;;
    contextConfig <-- over_section MergeContextConfig "contextConfig" (contextConfig out) j ;;
    dreamConfig <-- over_section MergeDreamConfig "dreamConfig" (dreamConfig out) j ;;
    let ctxJson := default (j_object ∅) (jfield "contextConfig" j) in
    memoryConfig <-- over_section (fun v old => MergeMemoryConfig v old ctxJson) "memoryConfig"
                       (memoryConfig out) j ;;
    templates <-- over_section (fun v old => Ok (MergePromptTemplates v old)) "promptTemplates"
                    (promptTemplates out) j ;;
    skillDirectory <-- over_string "skillDirectory" (skillDirectory out) j ;;
    maxIterations <-- over_int "maxIterations" (maxIterations out) j ;;
    dataBasePath <-- over_string "dataBasePath" (dataBasePath out) j ;;
    maxConcurrentSessions <-- over_int "maxConcurrentSessions" (maxConcurrentSessions out) j ;;
    let defaultTools := over_strings "defaultTools" (defaultTools out) j in
    let mcpServerIds := over_strings "mcpServerIds" (mcpServerIds out) j in
    disclosure <-- over (fun v => s <-- get_string v ;;
                           Ok (default (toolDisclosureMode out) (ToolDisclosureModeFromString s)))
                     "toolDisclosureMode" (toolDisclosureMode out) j ;;
    schemaBudget <-- over_int "toolSchemaTokenBudget" (toolSchemaTokenBudget out) j ;;
    catalogBudget <-- over_int "toolCatalogTokenBudget" (toolCatalogTokenBudget out) j ;;
    let alwaysOnTools := over_strings "alwaysOnTools" (alwaysOnTools out) j in
    Ok (mkAgentConfig id name description version mode modelConfig templates contextConfig
          dreamConfig memoryConfig skillDirectory maxIterations dataBasePath maxConcurrentSessions
          defaultTools disclosure schemaBudget catalogBudget alwaysOnTools mcpServerIds).

Definition AgentConfigToJson (cfg : AgentConfig) : J :=
  j_fields
    [("id", j_string (ac_id cfg)); ("name", j_string (ac_name cfg));
     ("description", j_string (ac_description cfg)); ("version", j_string (ac_version cfg));
     ("mode", j_string (WorkModeToString (ac_mode cfg)));
     ("modelConfig", ModelConfigToJson (modelConfig cfg));
     ("contextConfig", ContextConfigToJson (contextConfig cfg));
     ("dreamConfig", DreamConfigToJson (dreamConfig cfg));
     ("memoryConfig", MemoryConfigToJson (memoryConfig cfg));
     ("promptTemplates", PromptTemplatesToJson (promptTemplates cfg));
     ("skillDirectory", j_string (skillDirectory cfg));
     ("maxIterations", j_int (maxIterations cfg)); ("dataBasePath", j_string (dataBasePath cfg));
     ("maxConcurrentSessions", j_int (maxConcurrentSessions cfg));
     ("defaultTools", j_strings (defaultTools cfg)); ("mcpServerIds", j_strings (mcpServerIds cfg));
     ("toolDisclosureMode", j_string (ToolDisclosureModeToString (toolDisclosureMode cfg)));
     ("toolSchemaTokenBudget", j_int (toolSchemaTokenBudget cfg));
     ("toolCatalogTokenBudget", j_int (toolCatalogTokenBudget cfg));
     ("alwaysOnTools", j_strings (alwaysOnTools cfg))].

Definition MergeAgentConfig (base : AgentConfig) (overrideJson : J) : outcome AgentConfig :=
  MergeAgentConfigFromJson overrideJson base.
End Codec.

(** ** Facts *)

(** *** Well-typed configurations

    The integers are [int]s, no node is null, and the floats satisfy [P]. *)

Inductive value_ok (P : spec_float -> Prop) : ConfigValue -> Prop :=
  | ok_int n : is_int n -> value_ok P (CVInt n)
  | ok_float f : P f -> value_ok P (CVFloat f)
  | ok_bool b : value_ok P (CVBool b)
  | ok_string s : value_ok P (CVString s)
  | ok_list l : value_ok P (CVList l)
  | ok_node m : (forall k v, m !! k = Some v -> value_ok P v) ->
      value_ok P (CVNode (Some (mkConfigNode m))).

Definition node_ok (P : spec_float -> Prop) (n : ConfigNode) : Prop :=
  forall k v, fields_ n !! k = Some v -> value_ok P v.
Definition retry_ok (p : RetryPolicy) : Prop :=
  is_int (maxRetries p) /\ is_int (baseDelayMs p) /\ is_int (maxDelayMs p).
Definition model_ok (P : spec_float -> Prop) (c : ModelConfig) : Prop :=
  node_ok P (extraParams c) /\ retry_ok (retryPolicy c).
Definition context_ok (c : ContextConfig) : Prop :=
  is_int (maxContextTokens c) /\ is_int (maxMessages c).
Definition dream_ok (c : DreamConfig) : Prop :=
  is_int (maxBatchSize c) /\ is_int (dc_maxIterations c) /\ is_int (maxToolResultChars c) /\
  is_int (historyEntryPreviewMaxChars c) /\ is_int (memoryFileMaxChars c).
Definition memory_ok (P : spec_float -> Prop) (c : MemoryConfig) : Prop :=
  is_int (serverTimeoutSeconds c) /\ is_int (serverMaxRetries c) /\
  is_int (serverCircuitThreshold c) /\ is_int (serverCircuitCooldownSeconds c) /\
  is_int (tokenBudget c) /\ is_int (offloadToolResultChars c) /\
  is_int (idleConsolidationSeconds c) /\ is_int (modelTimeoutSeconds c) /\
  is_int (modelMaxTokens c) /\ is_int (eventEntityTtlDays c) /\ node_ok P (mc_extraParams c).
Definition agent_ok (P : spec_float -> Prop) (c : AgentConfig) : Prop :=
  model_ok P (modelConfig c) /\ context_ok (contextConfig c) /\ dream_ok (dreamConfig c) /\
  memory_ok P (memoryConfig c) /\ is_int (maxIterations c) /\ is_int (maxConcurrentSessions c) /\
  is_int (toolSchemaTokenBudget c) /\ is_int (toolCatalogTokenBudget c).

(** A configuration with other templates. *)
Definition set_templates (t : gmap string PromptResource) (c : AgentConfig) : AgentConfig :=
  mkAgentConfig (ac_id c) (ac_name c) (ac_description c) (ac_version c) (ac_mode c) (modelConfig c) t
    (contextConfig c) (dreamConfig c) (memoryConfig c) (skillDirectory c) (maxIterations c)
    (dataBasePath c) (maxConcurrentSessions c) (defaultTools c) (toolDisclosureMode c)
    (toolSchemaTokenBudget c) (toolCatalogTokenBudget c) (alwaysOnTools c) (mcpServerIds c).

Definition any_float (f : spec_float) : Prop := True.

Section CodecFacts.
Context {J : Type} `{JsonLaws J}.

Lemma assign_fields_get (conv : J -> outcome (option ConfigValue)) (m : gmap string ConfigValue) l out :
  (forall k x, (k, x) ∈ l -> exists v, m !! k = Some v /\ conv x = Ok (Some v)) ->
  exists out', assign_fields conv l out = Ok out' /\
    forall k, out' !! k = if bool_decide (k ∈ map fst l) then m !! k else out !! k.
Proof.
  revert out; induction l as [|[k x] l IH]; intros out Hl; [by exists out|].
  destruct (Hl k x) as (v & Hv & Hx); [by left|]. cbn [assign_fields]. rewrite Hx. cbn [obind].
  destruct (IH (<[k := v]> out)) as (out' & E & Ho); [intros; apply Hl; by right|].
  exists out'. split; [done|]. intros k'. rewrite Ho. cbn [map fst].
  destruct (decide (k' = k)) as [->|Hne].
  - rewrite lookup_insert_eq, (bool_decide_true (k ∈ k :: _)) by left. by case_bool_decide.
  - rewrite lookup_insert_ne by done.
    rewrite (bool_decide_ext (k' ∈ k :: map fst l) (k' ∈ map fst l)) by set_solver. done.
Qed.

(** Reading back the members of a written tree. *)
Lemma assign_fields_back conv (m : gmap string ConfigValue) out :
  (forall k v, m !! k = Some v -> conv (ConfigValueToJson v) = Ok (Some v)) ->
  assign_fields conv (fields_of (ConfigValueToJson <$> m)) out = Ok (m ∪ out).
Proof.
  intros Hm. destruct (assign_fields_get conv m (fields_of (ConfigValueToJson <$> m)) out)
    as (out' & -> & Ho).
  { intros k x Hk. apply elem_of_fields_of in Hk. rewrite lookup_fmap in Hk.
    destruct (m !! k) as [v|] eqn:E; simplify_eq/=. eauto. }
  f_equal. apply map_eq. intros k. rewrite Ho, lookup_union.
  destruct (m !! k) as [v|] eqn:E.
  - rewrite bool_decide_true; [by destruct (out !! k)|].
    apply (list_elem_of_fmap_2' fst _ (k, ConfigValueToJson v)); [|done].
    apply elem_of_fields_of. by rewrite lookup_fmap, E.
  - rewrite bool_decide_false; [by destruct (out !! k)|].
    intros Hk. apply list_elem_of_fmap in Hk as ([k' x] & -> & Hk).
    apply elem_of_fields_of in Hk. cbn in E. by rewrite lookup_fmap, E in Hk.
Qed.

Lemma list_items_strings (l : list string) : list_items (map (j_string : string -> J) l) = Ok l.
Proof.
  induction l as [|s l IH]; [done|]. cbn. unfold is_string. rewrite view_j_string.
  rewrite get_string_j_string. cbn. by rewrite IH.
Qed.

Lemma config_value_back (v : ConfigValue) :
  value_ok is_float v -> forall fuel, (json_depth (ConfigValueToJson v : J) < fuel)%nat ->
  config_value fuel (ConfigValueToJson v : J) = Ok (Some v).
Proof.
  induction 1 as [n Hn|f Hf|b|s|l|m Hm IH]; intros [|fuel] Hd; try lia; cbn [config_value ConfigValueToJson].
  - by rewrite view_j_int, get_int_j_int.
  - rewrite view_j_float, (get_float_ok _ f) by (done || apply view_j_float). done.
  - by rewrite view_j_bool.
  - by rewrite view_j_string.
  - unfold j_strings. rewrite view_j_array. by rewrite list_items_strings.
  - rewrite view_j_object. rewrite (assign_fields_back _ m ∅).
    + cbn. by rewrite map_union_empty.
    + intros k v Hk. apply IH with k; [done|].
      cbn [ConfigValueToJson] in Hd.
      assert (json_depth (ConfigValueToJson v : J) < json_depth (j_object (ConfigValueToJson <$> m) : J))%nat; [|lia].
      eapply (depth_member _ _ k); [apply view_j_object|]. by rewrite lookup_fmap, Hk.
Qed.

Lemma ConfigNode_back (n out : ConfigNode) :
  node_ok is_float n ->
  ConfigNodeFromJson (ConfigNodeToJson n : J) out = Ok (mkConfigNode (fields_ n ∪ fields_ out)).
Proof.
  intros Hn. unfold ConfigNodeFromJson, ConfigNodeToJson. rewrite view_j_object.
  rewrite assign_fields_back; [done|]. intros k v Hk. apply config_value_back; [by apply (Hn k)|].
  eapply (depth_member _ _ k); [apply view_j_object|]. by rewrite lookup_fmap, Hk.
Qed.

(** Members of the document [doc] whose assignments are [l]. *)
Section Members.
Context (doc : J) (l : list (string * J)) (Hdoc : doc = j_fields l).

Lemma over_at {A} (get : J -> outcome A) k old v a :
  assoc_last k l = Some v -> get v = Ok a -> over get k old doc = Ok a.
Proof. intros Hl Hg. by rewrite Hdoc, over_j_fields, Hl. Qed.

Lemma over_node_at k old n :
  assoc_last k l = Some (ConfigNodeToJson n : J) -> node_ok is_float n -> over_node k old doc = Ok n.
Proof.
  intros Hl Hn. unfold over_node. rewrite Hdoc, jfield_j_fields, Hl. unfold is_object.
  unfold ConfigNodeToJson at 1. rewrite view_j_object. rewrite ConfigNode_back by done.
  destruct n as [m]. cbn. by rewrite map_union_empty.
Qed.

Lemma over_strings_at k old (x : list string) :
  assoc_last k l = Some (j_strings x) -> over_strings k old doc = x.
Proof.
  intros Hl. unfold over_strings. rewrite Hdoc, array_field_j_fields, Hl. unfold j_strings.
  by rewrite view_j_array, string_elements_map.
Qed.

Lemma over_enum_at {A} (from : string -> option A) (to : A -> string) k old a :
  assoc_last k l = Some (j_string (to a)) -> (forall a, from (to a) = Some a) ->
  over_enum from k old doc = a.
Proof.
  intros Hl Hft. unfold over_enum. rewrite Hdoc, string_field_j_fields, Hl, view_j_string. by rewrite Hft.
Qed.

Lemma over_section_at {A} (merge : J -> A -> outcome A) k old v a :
  assoc_last k l = Some v -> merge v old = Ok a -> over_section merge k old doc = Ok a.
Proof. intros Hl Hg. unfold over_section. by rewrite Hdoc, jfield_j_fields, Hl. Qed.

Lemma is_object_doc : is_object doc = true.
Proof. rewrite Hdoc. unfold is_object, j_fields. by rewrite view_j_object. Qed.
End Members.

Lemma FormatType_back t : FormatTypeFromString (FormatTypeToString t) = Some t.
Proof. by destruct t. Qed.
Lemma StorageType_back t : StorageTypeFromString (StorageTypeToString t) = Some t.
Proof. by destruct t. Qed.
Lemma WorkMode_back t : WorkModeFromString (WorkModeToString t) = Some t.
Proof. by destruct t. Qed.
Lemma ToolDisclosureMode_back t : ToolDisclosureModeFromString (ToolDisclosureModeToString t) = Some t.
Proof. by destruct t. Qed.
Lemma PromptResourceType_back t : PromptResourceTypeFromString (PromptResourceTypeToString t) = Some t.
Proof. by destruct t. Qed.

(** Reading a written document member by member. *)
Ltac open_doc :=
  lazymatch goal with
  | |- context [j_fields ?l] =>
      let doc := fresh "doc" in let Hdoc := fresh "Hdoc" in
      remember (j_fields l) as doc eqn:Hdoc;
      rewrite ?(is_object_doc doc l Hdoc); cbn [negb]
  end.
Ltac back_with E := rewrite E; clear E; cbn [obind].
Ltac back_get :=
  first [apply get_string_j_string | apply get_bool_j_bool | apply get_int_j_int; assumption
        | apply get_double_ok, view_j_float].
Ltac back :=
  repeat lazymatch goal with
  | |- obind (over ?g ?k ?o ?d) _ = _ =>
      let E := fresh in
      eassert (over g k o d = Ok _) as E by (eapply over_at; [eassumption | reflexivity | back_get]);
      back_with E
  | |- obind (over_node ?k ?o ?d) _ = _ =>
      let E := fresh in
      eassert (over_node k o d = Ok _) as E by (eapply over_node_at; [eassumption | reflexivity | assumption]);
      back_with E
  end.
Ltac back_enum lem :=
  lazymatch goal with
  | |- context [over_enum ?f ?k ?o ?d] =>
      let E := fresh in
      eassert (over_enum f k o d = _) as E by (eapply over_enum_at; [eassumption | reflexivity | exact lem]);
      back_with E
  end.
Ltac back_strings :=
  repeat lazymatch goal with
  | |- context [over_strings ?k ?o ?d] =>
      let E := fresh in
      eassert (over_strings k o d = _) as E by (eapply over_strings_at; [eassumption | reflexivity]);
      back_with E
  end.
Ltac back_section lem :=
  lazymatch goal with
  | |- context [over_section ?m ?k ?o ?d] =>
      let E := fresh in
      eassert (over_section m k o d = Ok _) as E
        by (eapply over_section_at; [eassumption | reflexivity | by apply lem]);
      back_with E
  end.

Lemma RetryPolicy_back (p out : RetryPolicy) : retry_ok p -> MergeRetryPolicy (RetryPolicyToJson p : J) out = Ok p.
Proof.
  intros (H1 & H2 & H3). unfold MergeRetryPolicy, RetryPolicyToJson. open_doc. back. by destruct p.
Qed.

Lemma ModelConfig_back (c out : ModelConfig) :
  model_ok is_float c -> MergeModelConfig (ModelConfigToJson c : J) out = Ok c.
Proof.
  intros [Hn Hr]. unfold MergeModelConfig, ModelConfigToJson. open_doc. back.
  back_enum FormatType_back. back. rewrite Hdoc, jfield_j_fields. cbn [assoc_last String.eqb Ascii.eqb Bool.eqb].
  assert (is_object (RetryPolicyToJson (retryPolicy c) : J) = true) as -> by (by eapply is_object_doc).
  rewrite RetryPolicy_back by done. by destruct c.
Qed.

Lemma ContextConfig_back (c out : ContextConfig) :
  context_ok c -> MergeContextConfig (ContextConfigToJson c : J) out = Ok c.
Proof.
  intros [H1 H2]. unfold MergeContextConfig, ContextConfigToJson. open_doc. back.
  back_enum StorageType_back. back. by destruct c.
Qed.

Lemma DreamConfig_back (c out : DreamConfig) :
  dream_ok c -> MergeDreamConfig (DreamConfigToJson c : J) out = Ok c.
Proof.
  intros (H1 & H2 & H3 & H4 & H5). unfold MergeDreamConfig, DreamConfigToJson. open_doc. back.
  by destruct c.
Qed.

Lemma MemoryConfig_back (c out : MemoryConfig) (ctx : J) :
  memory_ok is_float c -> MergeMemoryConfig (MemoryConfigToJson c : J) out ctx = Ok c.
Proof.
  intros (? & ? & ? & ? & ? & ? & ? & ? & ? & ? & ?). unfold MergeMemoryConfig, MemoryConfigToJson.
  open_doc. back. unfold over_idle.
  assert (contains "idleConsolidationSeconds" doc = true) as ->
    by (unfold contains; rewrite Hdoc; by rewrite jfield_j_fields).
  back. back_strings. back. by destruct c.
Qed.

Lemma PromptTemplates_back (m out : gmap string PromptResource) :
  MergePromptTemplates (PromptTemplatesToJson m : J) out = m ∪ out.
Proof.
  unfold MergePromptTemplates, PromptTemplatesToJson. rewrite view_j_object. f_equal.
  apply map_eq. intros k. rewrite lookup_omap, lookup_fmap. destruct (m !! k) as [[t v]|]; [|done].
  cbn. unfold prompt_resource, prompt_resource_json. unfold j_fields at 1. rewrite view_j_object.
  rewrite (over_enum_at _ _ eq_refl _ PromptResourceTypeToString _ _ t) by (done || apply PromptResourceType_back).
  rewrite string_field_j_fields. cbn. by rewrite view_j_string.
Qed.

(** A written configuration overlays every member; the templates are added to
    those of the target. *)
Lemma AgentConfig_back (c out : AgentConfig) :
  agent_ok is_float c ->
  MergeAgentConfigFromJson (AgentConfigToJson c : J) out =
  Ok (set_templates (promptTemplates c ∪ promptTemplates out) c).
Proof.
  intros (Hm & Hc & Hd & Hme & ? & ? & ? & ?). unfold MergeAgentConfigFromJson, AgentConfigToJson.
  open_doc. back. back_enum WorkMode_back.
  back_section ModelConfig_back. back_section ContextConfig_back. back_section DreamConfig_back.
  back_section MemoryConfig_back.
  assert (forall old, Ok (MergePromptTemplates (PromptTemplatesToJson (promptTemplates c) : J) old)
    = Ok (promptTemplates c ∪ old)) as Ht by (intros; f_equal; apply PromptTemplates_back).
  back_section Ht. back. back_strings.
  rewrite (over_at doc _ Hdoc _ "toolDisclosureMode" _ (j_string (ToolDisclosureModeToString (toolDisclosureMode c)))
    (toolDisclosureMode c)); [cbn [obind] | reflexivity |].
  - back. by destruct c.
  - rewrite get_string_j_string. cbn [obind]. by rewrite ToolDisclosureMode_back.
Qed.

(** *** Any document *)

Lemma over_int_typed k old (j : J) z : is_int old -> over json_get_int k old j = Ok z -> is_int z.
Proof.
  unfold over. intros Ho Hz. destruct (jfield k j); [by eapply get_int_range | by simplify_eq].
Qed.

Lemma assign_fields_typed (conv : J -> outcome (option ConfigValue)) l out out' :
  (forall x v, conv x = Ok (Some v) -> value_ok any_float v) ->
  (forall k v, out !! k = Some v -> value_ok any_float v) ->
  assign_fields conv l out = Ok out' -> forall k v, out' !! k = Some v -> value_ok any_float v.
Proof.
  intros Hc. revert out. induction l as [|[k x] l IH]; intros out Ho E; cbn in E; [by simplify_eq|].
  destruct (conv x) as [c|] eqn:Ex; [|done]. cbn in E. eapply IH; [|exact E].
  intros k' v Hv. destruct c as [c|]; [|by eapply Ho].
  apply lookup_insert_Some in Hv as [[-> ->]|[_ Hv]]; [by eapply Hc | by eapply Ho].
Qed.

Lemma config_value_typed fuel (x : J) v : config_value fuel x = Ok (Some v) -> value_ok any_float v.
Proof.
  revert x v. induction fuel as [|fuel IH]; intros x v E; [done|]. cbn in E.
  destruct (json_view x); simplify_eq; try constructor.
  - destruct (json_get_int x) eqn:Ei; simplify_eq/=. constructor. by eapply get_int_range.
  - destruct (json_get_float x); simplify_eq/=. by constructor.
  - destruct (list_items l); simplify_eq/=. constructor.
  - destruct (assign_fields _ _ _) as [fs|] eqn:Ef; simplify_eq/=. constructor.
    eapply assign_fields_typed; [exact IH | | exact Ef]. intros k v Hv. by rewrite lookup_empty in Hv.
Qed.

Lemma over_node_typed k old (j : J) n :
  node_ok any_float old -> over_node k old j = Ok n -> node_ok any_float n.
Proof.
  unfold over_node. intros Ho E. destruct (jfield k j) as [v|]; [|by simplify_eq].
  destruct (is_object v); [|by simplify_eq]. unfold ConfigNodeFromJson in E.
  assert (node_ok any_float default_ConfigNode) as Hd by (intros k' v' Hv; exfalso; revert Hv; cbn; by rewrite lookup_empty).
  destruct (json_view v); simplify_eq; try done.
  destruct (assign_fields _ _ _) as [fs|] eqn:Ef; simplify_eq/=.
  intros k' v'. eapply assign_fields_typed; [apply config_value_typed | exact Hd | exact Ef].
Qed.

Lemma over_idle_typed old (j ctx : J) z : is_int old -> over_idle old j ctx = Ok z -> is_int z.
Proof. unfold over_idle. case_match; apply over_int_typed. Qed.

(** The successful steps of a merge. *)
Ltac open_merge H :=
  repeat lazymatch type of H with
  | obind ?m _ = Ok _ => let E := fresh "E" in destruct m eqn:E; [cbn [obind] in H | done]
  | (if negb ?b then Ok _ else _) = Ok _ => destruct (negb b); [by simplify_eq|]
  end; simplify_eq/=.
Ltac typed :=
  repeat match goal with
  | |- _ /\ _ => split
  | E : over json_get_int _ _ _ = Ok ?z |- is_int ?z => by eapply over_int_typed in E
  | E : over_idle _ _ _ = Ok ?z |- is_int ?z => by eapply over_idle_typed in E
  | E : over_node _ _ _ = Ok ?n |- node_ok _ ?n => by eapply over_node_typed in E
  end; try done.

Lemma MergeModelConfig_typed (j : J) out c :
  model_ok any_float out -> MergeModelConfig j out = Ok c -> model_ok any_float c.
Proof.
  intros Ho E. unfold MergeModelConfig in E. destruct Ho as [Hn Hr]. pose proof Hr as (? & ? & ?).
  open_merge E. split; cbn; typed.
  destruct (jfield "retryPolicy" j) as [rp|]; [|by simplify_eq].
  destruct (is_object rp); [|by simplify_eq]. unfold MergeRetryPolicy in *.
  match goal with E : obind _ _ = Ok _ |- _ => open_merge E end. unfold retry_ok; cbn; typed.
Qed.

Lemma MergeContextConfig_typed (j : J) out c :
  context_ok out -> MergeContextConfig j out = Ok c -> context_ok c.
Proof.
  intros Ho E. unfold MergeContextConfig in E. pose proof Ho as (? & ?). open_merge E.
  unfold context_ok; cbn; typed.
Qed.

Lemma MergeDreamConfig_typed (j : J) out c :
  dream_ok out -> MergeDreamConfig j out = Ok c -> dream_ok c.
Proof.
  intros Ho E. unfold MergeDreamConfig in E. pose proof Ho as (? & ? & ? & ? & ?). open_merge E.
  unfold dream_ok; cbn; typed.
Qed.

Lemma MergeMemoryConfig_typed (j ctx : J) out c :
  memory_ok any_float out -> MergeMemoryConfig j out ctx = Ok c -> memory_ok any_float c.
Proof.
  intros Ho E. unfold MergeMemoryConfig in E.
  pose proof Ho as (? & ? & ? & ? & ? & ? & ? & ? & ? & ? & ?). open_merge E.
  unfold memory_ok; cbn; typed.
Qed.

Lemma over_section_typed {A} (P : A -> Prop) (merge : J -> A -> outcome A) k old j a :
  (forall v a, merge v old = Ok a -> P a) -> P old -> over_section merge k old j = Ok a -> P a.
Proof. unfold over_section. intros Hm Ho E. destruct (jfield k j); [by eapply Hm | by simplify_eq]. Qed.

(** Merging keeps a configuration well typed: whatever the document holds, when
    the merge does not throw, every integer of the result is an [int] and no node
    of its extra parameters is null. *)
Theorem merge_keeps_types (j : J) (out c : AgentConfig) :
  agent_ok any_float out -> MergeAgentConfigFromJson j out = Ok c -> agent_ok any_float c.
Proof.
  intros Ho E. unfold MergeAgentConfigFromJson in E.
  pose proof Ho as (? & ? & ? & ? & ? & ? & ? & ?). open_merge E.
  repeat match goal with
  | E : over_section MergeModelConfig _ _ _ = Ok _ |- _ =>
      eapply (over_section_typed (model_ok any_float)) in E; [|by intros; eapply MergeModelConfig_typed|done]
  | E : over_section MergeContextConfig _ _ _ = Ok _ |- _ =>
      eapply (over_section_typed context_ok) in E; [|by intros; eapply MergeContextConfig_typed|done]
  | E : over_section MergeDreamConfig _ _ _ = Ok _ |- _ =>
      eapply (over_section_typed dream_ok) in E; [|by intros; eapply MergeDreamConfig_typed|done]
  | E : over_section _ "memoryConfig" _ _ = Ok _ |- _ =>
      eapply (over_section_typed (memory_ok any_float)) in E; [|by intros; eapply MergeMemoryConfig_typed|done]
  end.
  unfold agent_ok; cbn; typed.
Qed.

(** *** Overlaying twice *)

Lemma over_again {A} (get : J -> outcome A) k old j a : over get k old j = Ok a -> over get k a j = Ok a.
Proof. unfold over. by destruct (jfield k j). Qed.
Lemma over_idle_again old (j ctx : J) z : over_idle old j ctx = Ok z -> over_idle z j ctx = Ok z.
Proof. unfold over_idle. case_match; apply over_again. Qed.
Lemma over_node_again k old (j : J) n : over_node k old j = Ok n -> over_node k n j = Ok n.
Proof. unfold over_node. destruct (jfield k j) as [v|]; [|done]. by destruct (is_object v). Qed.
Lemma over_enum_again {A} (from : string -> option A) k old (j : J) :
  over_enum from k (over_enum from k old j) j = over_enum from k old j.
Proof. unfold over_enum. destruct (string_field k j) as [s|]; [|done]. by destruct (from s). Qed.
Lemma over_strings_again k old (j : J) : over_strings k (over_strings k old j) j = over_strings k old j.
Proof. unfold over_strings. by destruct (array_field k j). Qed.
Lemma over_section_again {A} (merge : J -> A -> outcome A) k old j a :
  (forall v old a, merge v old = Ok a -> merge v a = Ok a) ->
  over_section merge k old j = Ok a -> over_section merge k a j = Ok a.
Proof. unfold over_section. intros Hm. destruct (jfield k j); [apply Hm | done]. Qed.

Ltac again_with E := rewrite E; cbn [obind].
Ltac again :=
  repeat lazymatch goal with
  | |- obind (over ?g ?k ?o ?d) _ = _ =>
      match goal with E : over g k _ d = Ok o |- _ => again_with (over_again _ _ _ _ _ E) end
  | |- obind (over_idle ?o ?d ?c) _ = _ =>
      match goal with E : over_idle _ d c = Ok o |- _ => again_with (over_idle_again _ _ _ _ E) end
  | |- obind (over_node ?k ?o ?d) _ = _ =>
      match goal with E : over_node k _ d = Ok o |- _ => again_with (over_node_again _ _ _ _ E) end
  end; rewrite ?over_enum_again, ?over_strings_again.
Ltac again_section lem :=
  match goal with
  | E : over_section ?m ?k _ ?d = Ok ?o |- obind (over_section ?m ?k ?o ?d) _ = _ =>
      again_with (over_section_again m k _ d o lem E)
  end.

Lemma MergeRetryPolicy_again (j : J) out c :
  MergeRetryPolicy j out = Ok c -> MergeRetryPolicy j c = Ok c.
Proof. unfold MergeRetryPolicy. intros E. open_merge E. cbn. by again. Qed.

Lemma MergeModelConfig_again (j : J) out c : MergeModelConfig j out = Ok c -> MergeModelConfig j c = Ok c.
Proof.
  unfold MergeModelConfig. intros E. open_merge E. cbn. again.
  match goal with E : match jfield "retryPolicy" j with _ => _ end = Ok ?p |- _ =>
    assert (match jfield "retryPolicy" j with
            | Some rp => if is_object rp then MergeRetryPolicy rp p else Ok p
            | None => Ok p end = Ok p) as ->; [|done];
    destruct (jfield "retryPolicy" j) as [rp|]; [|done];
    destruct (is_object rp); [by eapply MergeRetryPolicy_again | done] end.
Qed.

Lemma MergeContextConfig_again (j : J) out c :
  MergeContextConfig j out = Ok c -> MergeContextConfig j c = Ok c.
Proof. unfold MergeContextConfig. intros E. open_merge E. cbn. by again. Qed.

Lemma MergeDreamConfig_again (j : J) out c : MergeDreamConfig j out = Ok c -> MergeDreamConfig j c = Ok c.
Proof. unfold MergeDreamConfig. intros E. open_merge E. cbn. by again. Qed.

Lemma MergeMemoryConfig_other (ctx j : J) out : is_object j = false -> MergeMemoryConfig j out ctx = Ok out.
Proof. intros Ho. unfold MergeMemoryConfig. rewrite Ho. reflexivity. Qed.

Lemma MergeMemoryConfig_again (ctx j : J) out c :
  MergeMemoryConfig j out ctx = Ok c -> MergeMemoryConfig j c ctx = Ok c.
Proof.
  intros E. destruct (is_object j) eqn:Ho; [|by apply MergeMemoryConfig_other].
  unfold MergeMemoryConfig in E. rewrite Ho in E. cbn [negb] in E. open_merge E.
  unfold MergeMemoryConfig. rewrite Ho. cbn. by again.
Qed.

Lemma MergePromptTemplates_again (j : J) out c :
  Ok (MergePromptTemplates j out) = Ok c -> Ok (MergePromptTemplates j c) = Ok c.
Proof.
  intros [= <-]. unfold MergePromptTemplates. destruct (json_view j); try done.
  by rewrite map_union_assoc, map_union_idemp.
Qed.

(** Overlaying a document a second time changes nothing. *)
Lemma MergeAgentConfig_again (j : J) out c :
  MergeAgentConfigFromJson j out = Ok c -> MergeAgentConfigFromJson j c = Ok c.
Proof.
  unfold MergeAgentConfigFromJson. intros E. open_merge E.
  cbn [ac_id ac_name ac_description ac_version ac_mode modelConfig promptTemplates contextConfig
    dreamConfig memoryConfig skillDirectory maxIterations dataBasePath maxConcurrentSessions
    defaultTools toolDisclosureMode toolSchemaTokenBudget toolCatalogTokenBudget alwaysOnTools
    mcpServerIds]. again.
  again_section MergeModelConfig_again. again_section MergeContextConfig_again.
  again_section MergeDreamConfig_again.
  again_section (MergeMemoryConfig_again (default (j_object ∅) (jfield "contextConfig" j))).
  again_section MergePromptTemplates_again. again.
  match goal with E : over _ "toolDisclosureMode" _ _ = Ok ?m |- _ =>
    assert (over (fun v => s <-- get_string v ;; Ok (default m (ToolDisclosureModeFromString s)))
              "toolDisclosureMode" m j = Ok m) as -> end; [|cbn [obind]; by again].
  unfold over in *. destruct (jfield "toolDisclosureMode" j) as [v|]; [|done].
  destruct (get_string v) as [s|]; [|done]. cbn in *. by destruct (ToolDisclosureModeFromString s); simplify_eq/=.
Qed.
End CodecFacts.
