(* ===== verification/AgentConfigStore.v ===== *)
(** * The configuration store (src/config/agent_config_store.cpp)

    Code defaults, the overrides kept in agents.json, and the effective
    configurations.  The maps are unordered: [iter] is the order in which the
    library visits one.  Every operation runs under the store's mutex, so it is
    one function of the state.  The file system is the map from path to text;
    two flags say whether the file can be read and replaced. *)
From Stdlib Require Import ZArith Lia String Ascii List.
From stdpp Require Import base decidable list strings gmap sets.
From S2P Require Import Prelude Encoding Types JsonLib AgentConfigJson.
Open Scope Z_scope.

Section Store.
Context {J : Type} `{Json J}.
Variable iter : forall V : Type, gmap string V -> list (string * V).
Arguments iter {V}.

Record ConfigStore := mkConfigStore {
  path_ : string;
  defaults_ : gmap string AgentConfig;
  current_ : gmap string AgentConfig;
  overrides_ : gmap string J;
  cs_files : gmap string string;
  cs_readable : bool;
  cs_writable : bool
}.

Definition fresh_config_store (files : gmap string string) (readable writable : bool) : ConfigStore :=
  mkConfigStore "./data/agents.json" ∅ ∅ ∅ files readable writable.

Definition set_current (c : gmap string AgentConfig) (s : ConfigStore) : ConfigStore :=
  mkConfigStore (path_ s) (defaults_ s) c (overrides_ s) (cs_files s) (cs_readable s) (cs_writable s).
Definition set_overrides (o : gmap string J) (s : ConfigStore) : ConfigStore :=
  mkConfigStore (path_ s) (defaults_ s) (current_ s) o (cs_files s) (cs_readable s) (cs_writable s).
Definition set_files (f : gmap string string) (s : ConfigStore) : ConfigStore :=
  mkConfigStore (path_ s) (defaults_ s) (current_ s) (overrides_ s) f (cs_readable s) (cs_writable s).

Definition SetPersistPath (path : string) (s : ConfigStore) : ConfigStore :=
  mkConfigStore path (defaults_ s) (current_ s) (overrides_ s) (cs_files s) (cs_readable s) (cs_writable s).

Definition RegisterDefault (def : AgentConfig) (s : ConfigStore) : ConfigStore :=
  if str_empty (ac_id def) then s
  else mkConfigStore (path_ s) (<[ac_id def := def]> (defaults_ s)) (current_ s) (overrides_ s)
         (cs_files s) (cs_readable s) (cs_writable s).

(** A file that is missing, unreadable or not JSON counts as null. *)
Definition ReadFileLocked (s : ConfigStore) : J :=
  match cs_files s !! path_ s with
  | None => j_null
  | Some text =>
      if cs_readable s then match json_parse text with Ok j => j | Throw _ => j_null end else j_null
  end.

(** The entries of the file, by their id. *)
Fixpoint read_overrides (items : list J) (o : gmap string J) : gmap string J * outcome unit :=
  match items with
  | [] => (o, Ok tt)
  | item :: items =>
      match jfield "id" item with
      | None => read_overrides items o
      | Some v =>
          match get_string v with
          | Throw e => (o, Throw e)
          | Ok id => read_overrides items (if str_empty id then o else <[id := item]> o)
          end
      end
  end.

Definition blank_config (id : string) : AgentConfig :=
  mkAgentConfig id "" "" "" REACT default_ModelConfig ∅ default_ContextConfig default_DreamConfig
    default_MemoryConfig "" 10 "" 3 [] SELECTIVE 0 0 [] [].

(** The first loop of [Load]: defaults with their overrides. *)
Fixpoint merge_defaults (o : gmap string J) (l : list (string * AgentConfig))
    (cur : gmap string AgentConfig) : gmap string AgentConfig * outcome unit :=
  match l with
  | [] => (cur, Ok tt)
  | (id, d) :: l =>
      match o !! id with
      | None => merge_defaults o l (<[id := d]> cur)
      | Some j =>
          match MergeAgentConfigFromJson j d with
          | Ok c => merge_defaults o l (<[id := c]> cur)
          | Throw e => (cur, Throw e)
          end
      end
  end.

(** The second loop: agents only the file names. *)
Fixpoint merge_extra (d : gmap string AgentConfig) (l : list (string * J))
    (cur : gmap string AgentConfig) : gmap string AgentConfig * outcome unit :=
  match l with
  | [] => (cur, Ok tt)
  | (id, j) :: l =>
      match d !! id with
      | Some _ => merge_extra d l cur
      | None =>
          match MergeAgentConfigFromJson j (blank_config id) with
          | Ok c => merge_extra d l (<[id := c]> cur)
          | Throw e => (cur, Throw e)
          end
      end
  end.

Definition Load (s : ConfigStore) : ConfigStore * outcome (gmap string AgentConfig) :=
  let root := ReadFileLocked s in
  let items := default [] (array_field "agents" root) in
  match read_overrides items ∅ with
  | (o, Throw e) => (set_current ∅ (set_overrides o s), Throw e)
  | (o, Ok _) =>
      match merge_defaults o (iter (defaults_ s)) ∅ with
      | (cur, Throw e) => (set_current cur (set_overrides o s), Throw e)
      | (cur, Ok _) =>
          let '(cur, r) := merge_extra (defaults_ s) (iter o) cur in
          (set_current cur (set_overrides o s), _ <-- r ;; Ok cur)
      end
  end.

Definition Get (id : string) (s : ConfigStore) : option AgentConfig := current_ s !! id.
Definition List (s : ConfigStore) : list AgentConfig := map snd (iter (current_ s)).

Definition root_json (s : ConfigStore) : J :=
  j_fields [("version", j_int 1); ("agents", j_array (map snd (iter (overrides_ s))))].

(** Written beside the file and renamed over it; every failure is logged. *)
Definition SaveLocked (s : ConfigStore) : ConfigStore :=
  if cs_writable s then
    match json_dump (Some 2%nat) (root_json s) with
    | Ok text => set_files (<[path_ s := text]> (cs_files s)) s
    | Throw _ => s
    end
  else s.

Definition Save (s : ConfigStore) : ConfigStore * bool := (SaveLocked s, true).

(** The override is recorded before the merge that may throw. *)
Definition Upsert (cfg : AgentConfig) (s : ConfigStore) : ConfigStore * outcome unit :=
  if str_empty (ac_id cfg) then (s, Ok tt)
  else
    let j := AgentConfigToJson cfg in
    let s1 := set_overrides (<[ac_id cfg := j]> (overrides_ s)) s in
    match (match defaults_ s !! ac_id cfg with
           | Some d => MergeAgentConfigFromJson j d
           | None => Ok cfg
           end) with
    | Ok merged => (SaveLocked (set_current (<[ac_id cfg := merged]> (current_ s1)) s1), Ok tt)
    | Throw e => (s1, Throw e)
    end.

(** [clean["id"] = id] on an object. *)
Definition clean_override (id : string) (overrideJson : J) : J :=
  j_object (<["id" := j_string id]>
              (match json_view overrideJson with JObject m => m | _ => ∅ end)).

Definition UpsertOverride (id : string) (overrideJson : J) (s : ConfigStore) : ConfigStore * outcome unit :=
  if str_empty id then (s, Ok tt)
  else
    let j := clean_override id overrideJson in
    let s1 := set_overrides (<[id := j]> (overrides_ s)) s in
    match MergeAgentConfigFromJson j (default (blank_config id) (defaults_ s !! id)) with
    | Ok merged => (SaveLocked (set_current (<[id := merged]> (current_ s1)) s1), Ok tt)
    | Throw e => (s1, Throw e)
    end.

Definition Remove (id : string) (s : ConfigStore) : ConfigStore :=
  let s1 := set_overrides (delete id (overrides_ s)) s in
  SaveLocked
    (set_current (match defaults_ s !! id with
                  | Some d => <[id := d]> (current_ s1)
                  | None => delete id (current_ s1)
                  end) s1).

(** What a client does between two loads. *)
Inductive store_op :=
  | OpUpsert (cfg : AgentConfig)
  | OpOverride (id : string) (j : J)
  | OpRemove (id : string)
  | OpSave.

Definition apply_store_op (op : store_op) (s : ConfigStore) : ConfigStore * outcome unit :=
  match op with
  | OpUpsert cfg => Upsert cfg s
  | OpOverride id j => UpsertOverride id j s
  | OpRemove id => (Remove id s, Ok tt)
  | OpSave => ((Save s).1, Ok tt)
  end.

(** The operations one after the other, as long as none throws. *)
Fixpoint apply_store_ops (ops : list store_op) (s : ConfigStore) : ConfigStore * outcome unit :=
  match ops with
  | [] => (s, Ok tt)
  | op :: ops =>
      match apply_store_op op s with
      | (s1, Ok _) => apply_store_ops ops s1
      | r => r
      end
  end.

(** The next process: the same defaults and files. *)
Definition reopen (s : ConfigStore) : ConfigStore :=
  mkConfigStore (path_ s) (defaults_ s) ∅ ∅ (cs_files s) (cs_readable s) (cs_writable s).
End Store.
Arguments ConfigStore : clear implicits.
Arguments store_op : clear implicits.

(** ** Facts *)

Section StoreFacts.
Context {J : Type} `{JsonLaws J}.
Variable iter : forall V : Type, gmap string V -> list (string * V).
Hypothesis iter_perm : forall V (m : gmap string V), iter V m ≡ₚ map_to_list m.

Local Notation ConfigStore := (ConfigStore J).
Local Notation Load := (Load iter).
Local Notation SaveLocked := (SaveLocked iter).
Local Notation Save := (Save iter).
Local Notation apply_store_op := (apply_store_op iter).
Local Notation apply_store_ops := (apply_store_ops iter).

Lemma elem_of_iter {V} (m : gmap string V) k v : (k, v) ∈ iter V m <-> m !! k = Some v.
Proof. rewrite iter_perm. apply elem_of_map_to_list. Qed.

Lemma elem_of_iter_keys {V} (m : gmap string V) k : k ∈ map fst (iter V m) <-> is_Some (m !! k).
Proof.
  rewrite list_elem_of_fmap. split.
  - intros ([k' v] & -> & Hk). apply elem_of_iter in Hk. by exists v.
  - intros [v Hv]. exists (k, v). by rewrite elem_of_iter.
Qed.

(** The specification: what an agent's configuration is, given the defaults and
    the overrides. *)
Definition effective (d : gmap string AgentConfig) (o : gmap string J) (id : string)
    : option (outcome AgentConfig) :=
  match o !! id with
  | Some j => Some (MergeAgentConfigFromJson j (default (blank_config id) (d !! id)))
  | None => Ok <$> d !! id
  end.

Definition matches (cur d : gmap string AgentConfig) (o : gmap string J) : Prop :=
  forall id, match effective d o id with
             | Some r => exists c, r = Ok c /\ cur !! id = Some c
             | None => cur !! id = None
             end.

Definition keyed (o : gmap string J) : Prop :=
  forall id j, o !! id = Some j -> str_empty id = false /\ string_field "id" j = Some id.

Definition store_inv (s : ConfigStore) : Prop :=
  keyed (overrides_ s) /\ matches (current_ s) (defaults_ s) (overrides_ s).

Lemma read_overrides_keyed items o o' :
  keyed o -> read_overrides items o = (o', Ok tt) -> keyed o'.
Proof.
  revert o; induction items as [|item items IH]; intros o Ho E; cbn in E; [by simplify_eq|].
  destruct (jfield "id" item) as [v|] eqn:Ev; [|by eapply IH].
  destruct (get_string v) as [id|] eqn:Eg; [|done].
  eapply IH; [|exact E]. destruct (str_empty id) eqn:Ee; [done|].
  intros id' j Hj. apply lookup_insert_Some in Hj as [[<- <-]|[_ Hj]]; [|by apply Ho].
  split; [done|]. unfold string_field. rewrite Ev. unfold get_string in Eg.
  by destruct (json_view v); simplify_eq.
Qed.

Lemma read_overrides_back (m : gmap string J) l o :
  keyed m -> (forall x, x ∈ l -> m !! x.1 = Some x.2) ->
  exists o', read_overrides (map snd l) o = (o', Ok tt) /\
    forall id, o' !! id = if bool_decide (id ∈ map fst l) then m !! id else o !! id.
Proof.
  intros Hm. revert o; induction l as [|[k j] l IH]; intros o Hl; [by exists o|].
  pose proof (Hl (k, j) ltac:(left)) as Hk. cbn in Hk. destruct (Hm _ _ Hk) as [He Hf].
  unfold string_field in Hf. destruct (jfield "id" j) as [v|] eqn:Ev; [|done].
  destruct (IH (<[k := j]> o)) as (o' & E & Ho); [intros x Hx; apply Hl; by right|].
  exists o'. cbn. rewrite Ev. unfold get_string. destruct (json_view v); simplify_eq.
  rewrite He, E. split; [done|]. intros id. rewrite Ho. destruct (decide (id = k)) as [->|Hne].
  - rewrite lookup_insert_eq, (bool_decide_true (k ∈ k :: _)) by left. by case_bool_decide.
  - rewrite lookup_insert_ne by done.
    by rewrite (bool_decide_ext (id ∈ k :: map fst l) (id ∈ map fst l)) by set_solver.
Qed.

Lemma read_overrides_iter (m : gmap string J) :
  keyed m -> read_overrides (map snd (iter J m)) ∅ = (m, Ok tt).
Proof.
  intros Hm. destruct (read_overrides_back m (iter J m) ∅ Hm) as (o & E & Ho).
  { intros [k j] Hx. by apply elem_of_iter. }
  rewrite E. f_equal. apply map_eq. intros id. rewrite Ho. case_bool_decide as Hk; [done|].
  rewrite lookup_empty. destruct (m !! id) eqn:Em; [|done].
  destruct Hk. apply elem_of_iter_keys. by rewrite Em.
Qed.

(** A loop that assigns the effective configuration of each id it visits. *)
Definition loaded (d : gmap string AgentConfig) (o : gmap string J) (keys : list string)
    (cur : gmap string AgentConfig) (r : gmap string AgentConfig * outcome unit) : Prop :=
  match r with
  | (cur', Ok _) => forall id,
      (id ∈ keys -> exists c, effective d o id = Some (Ok c) /\ cur' !! id = Some c) /\
      (id ∉ keys -> cur' !! id = cur !! id)
  | (_, Throw e) => exists id, effective d o id = Some (Throw e)
  end.

Lemma loaded_cons d o k c keys cur r :
  effective d o k = Some (Ok c) -> loaded d o keys (<[k := c]> cur) r -> loaded d o (k :: keys) cur r.
Proof.
  intros Hk Hr. destruct r as [cur' [u|e]]; [|done]. intros id. destruct (Hr id) as [Hin Hout].
  destruct (decide (id ∈ keys)) as [Hi|Hi]; [split; [auto | set_solver]|].
  destruct (decide (id = k)) as [->|Hne].
  - split; [|set_solver]. intros _. exists c. split; [done|]. by rewrite Hout, lookup_insert_eq.
  - split; [set_solver|]. intros _. by rewrite Hout, lookup_insert_ne.
Qed.

Lemma merge_defaults_loaded d o l cur :
  (forall x, x ∈ l -> d !! x.1 = Some x.2) -> loaded d o (map fst l) cur (merge_defaults o l cur).
Proof.
  revert cur; induction l as [|[k c] l IH]; intros cur Hl; [intros id; split; [set_solver | done]|].
  pose proof (Hl (k, c) ltac:(left)) as Hk. cbn in Hk. cbn [merge_defaults map fst].
  destruct (o !! k) as [j|] eqn:Ej.
  - destruct (MergeAgentConfigFromJson j c) as [c'|e] eqn:Em.
    + eapply loaded_cons; [unfold effective; rewrite Ej, Hk; cbn; by rewrite Em|].
      apply IH. intros x Hx. apply Hl. by right.
    + exists k. unfold effective. rewrite Ej, Hk. cbn. by rewrite Em.
  - eapply loaded_cons; [unfold effective; by rewrite Ej, Hk|].
    apply IH. intros x Hx. apply Hl. by right.
Qed.

Lemma merge_extra_loaded d o l cur :
  (forall x, x ∈ l -> o !! x.1 = Some x.2) ->
  loaded d o (filter (fun k => d !! k = None) (map fst l)) cur (merge_extra d l cur).
Proof.
  revert cur; induction l as [|[k j] l IH]; intros cur Hl; [intros id; split; [set_solver | done]|].
  pose proof (Hl (k, j) ltac:(left)) as Hk. cbn in Hk. cbn [merge_extra map fst].
  assert (forall x, x ∈ l -> o !! x.1 = Some x.2) as Hl' by (intros; apply Hl; by right).
  rewrite filter_cons. destruct (d !! k) as [c|] eqn:Ec.
  - rewrite decide_False by done. by apply IH.
  - rewrite decide_True by done. destruct (MergeAgentConfigFromJson j (blank_config k)) as [c'|e] eqn:Em.
    + eapply loaded_cons; [unfold effective; rewrite Hk, Ec; cbn; by rewrite Em|]. by apply IH.
    + exists k. unfold effective. rewrite Hk, Ec. cbn. by rewrite Em.
Qed.

(** [Load] computes exactly the effective configurations, or throws what one of
    them throws. *)
Lemma Load_effective (s : ConfigStore) (o : gmap string J) :
  read_overrides (default [] (array_field "agents" (ReadFileLocked s))) ∅ = (o, Ok tt) ->
  match Load s with
  | (s', Ok cur) => current_ s' = cur /\ overrides_ s' = o /\ defaults_ s' = defaults_ s /\
      matches cur (defaults_ s) o
  | (_, Throw e) => exists id, effective (defaults_ s) o id = Some (Throw e)
  end.
Proof.
  intros Ho. unfold AgentConfigStore.Load. rewrite Ho.
  pose proof (merge_defaults_loaded (defaults_ s) o (iter _ (defaults_ s)) ∅) as Hd.
  destruct (merge_defaults o _ ∅) as [cur1 [u|e]]; [|apply Hd; intros [k c]; apply elem_of_iter].
  specialize (Hd ltac:(intros [k c]; apply elem_of_iter)).
  pose proof (merge_extra_loaded (defaults_ s) o (iter _ o) cur1) as He.
  destruct (merge_extra _ _ cur1) as [cur2 [u'|e]]; [|apply He; intros [k c]; apply elem_of_iter].
  specialize (He ltac:(intros [k c]; apply elem_of_iter)). cbn.
  split_and!; [done..|]. intros id. destruct (Hd id) as [Hd1 Hd2], (He id) as [He1 He2].
  rewrite list_elem_of_filter in He1, He2. rewrite (elem_of_iter_keys (defaults_ s)) in Hd1, Hd2.
  rewrite (elem_of_iter_keys o) in He1, He2.
  unfold effective in *.
  destruct (defaults_ s !! id) as [c|] eqn:Ec.
  - destruct Hd1 as (c' & Hc' & Hcur); [by eexists|].
    rewrite He2 by naive_solver. destruct (o !! id); cbn in *; simplify_eq; eauto.
  - destruct (o !! id) as [j|] eqn:Ej.
    + destruct He1 as (c' & Hc' & Hcur); [split; [done | by eexists]|]. cbn in *. simplify_eq. eauto.
    + cbn. rewrite He2 by (intros [_ [? ?]]; done). rewrite Hd2 by (intros [? ?]; done).
      apply lookup_empty.
Qed.

Lemma Load_inv (s s' : ConfigStore) cur : Load s = (s', Ok cur) -> store_inv s'.
Proof.
  intros E. destruct (read_overrides (default [] (array_field "agents" (ReadFileLocked s))) ∅)
    as [o [[]|e]] eqn:Eo; [|unfold AgentConfigStore.Load in E; by rewrite Eo in E].
  pose proof (Load_effective s o Eo) as Hl. rewrite E in Hl. destruct Hl as (Hc & Ho & Hd & Hm).
  split; [|by rewrite Hc, Ho, Hd]. rewrite Ho. eapply read_overrides_keyed; [|exact Eo].
  intros id j Hj. by rewrite lookup_empty in Hj.
Qed.

(** *** Updates *)

Lemma effective_insert d o id j id' :
  effective d (<[id := j]> o) id' =
  if decide (id' = id) then Some (MergeAgentConfigFromJson j (default (blank_config id) (d !! id)))
  else effective d o id'.
Proof.
  unfold effective. case_decide as Hi; [subst; by rewrite lookup_insert_eq | by rewrite lookup_insert_ne].
Qed.

Lemma matches_insert cur d o id j c :
  matches cur d o -> MergeAgentConfigFromJson j (default (blank_config id) (d !! id)) = Ok c ->
  matches (<[id := c]> cur) d (<[id := j]> o).
Proof.
  intros Hm Hc id'. rewrite effective_insert. case_decide as Hi.
  - subst. rewrite Hc. exists c. by rewrite lookup_insert_eq.
  - rewrite lookup_insert_ne by done. apply Hm.
Qed.

Lemma keyed_insert o id j :
  keyed o -> str_empty id = false -> string_field "id" j = Some id -> keyed (<[id := j]> o).
Proof.
  intros Ho He Hf id' j' Hj. apply lookup_insert_Some in Hj as [[<- <-]|[_ Hj]]; [done | by apply Ho].
Qed.

Lemma AgentConfigToJson_id (cfg : AgentConfig) :
  string_field "id" (AgentConfigToJson cfg : J) = Some (ac_id cfg).
Proof.
  unfold AgentConfigToJson. rewrite string_field_j_fields. cbn [assoc_last String.eqb Ascii.eqb Bool.eqb].
  by rewrite view_j_string.
Qed.

Lemma clean_override_id id (j : J) : string_field "id" (clean_override id j) = Some id.
Proof.
  unfold string_field, clean_override. rewrite jfield_j_object, lookup_insert_eq. by rewrite view_j_string.
Qed.

Lemma SaveLocked_frame (s : ConfigStore) :
  overrides_ (SaveLocked s) = overrides_ s /\ current_ (SaveLocked s) = current_ s /\
  defaults_ (SaveLocked s) = defaults_ s /\ path_ (SaveLocked s) = path_ s /\
  cs_readable (SaveLocked s) = cs_readable s /\ cs_writable (SaveLocked s) = cs_writable s.
Proof. unfold AgentConfigStore.SaveLocked. by repeat case_match. Qed.

Lemma SaveLocked_inv (s : ConfigStore) : store_inv s -> store_inv (SaveLocked s).
Proof. unfold store_inv. destruct (SaveLocked_frame s) as (-> & -> & -> & _). done. Qed.

(** A configuration passed to [Upsert] is well typed, with finite numbers. *)
Definition store_op_ok (op : store_op J) : Prop :=
  match op with OpUpsert cfg => agent_ok is_float cfg | _ => True end.

Lemma Upsert_merge (cfg : AgentConfig) (d : gmap string AgentConfig) (c : AgentConfig) :
  agent_ok is_float cfg ->
  match d !! ac_id cfg with Some d => MergeAgentConfigFromJson (AgentConfigToJson cfg : J) d | None => Ok cfg end = Ok c ->
  MergeAgentConfigFromJson (AgentConfigToJson cfg : J) (default (blank_config (ac_id cfg)) (d !! ac_id cfg)) = Ok c.
Proof.
  intros Hok. destruct (d !! ac_id cfg) as [d0|]; [done|]. intros [= <-]. cbn.
  rewrite AgentConfig_back by done. f_equal. cbn. rewrite map_union_empty. by destruct cfg.
Qed.

Lemma apply_store_op_inv (op : store_op J) (s s' : ConfigStore) :
  store_op_ok op -> store_inv s -> apply_store_op op s = (s', Ok tt) -> store_inv s'.
Proof.
  intros Hop [Hk Hm] E. destruct op as [cfg|id j|id|]; cbn in E.
  - unfold Upsert in E. destruct (str_empty (ac_id cfg)) eqn:Ee; [by simplify_eq|].
    destruct (match defaults_ s !! ac_id cfg with Some _ => _ | None => _ end) as [c|e] eqn:Ec; simplify_eq.
    apply SaveLocked_inv. split; [by apply keyed_insert, AgentConfigToJson_id|].
    by apply matches_insert, Upsert_merge.
  - unfold UpsertOverride in E. destruct (str_empty id) eqn:Ee; [by simplify_eq|].
    destruct (MergeAgentConfigFromJson _ _) as [c|e] eqn:Ec; simplify_eq.
    apply SaveLocked_inv. split; [by apply keyed_insert, clean_override_id|].
    by apply matches_insert.
  - injection E as <-. apply SaveLocked_inv. split; cbn.
    + intros id' j Hj. apply lookup_delete_Some in Hj as [_ Hj]. by apply Hk.
    + intros id'. specialize (Hm id'). unfold effective in *.
      destruct (decide (id' = id)) as [->|Hne].
      * rewrite lookup_delete_eq. destruct (defaults_ s !! id) as [d|]; cbn.
        -- exists d. by rewrite lookup_insert_eq.
        -- by rewrite lookup_delete_eq.
      * rewrite lookup_delete_ne by done.
        destruct (defaults_ s !! id) as [d|]; [by rewrite lookup_insert_ne | by rewrite lookup_delete_ne].
  - injection E as <-. by apply SaveLocked_inv.
Qed.

(** What no operation changes. *)
Definition same_setup (s s' : ConfigStore) : Prop :=
  defaults_ s' = defaults_ s /\ path_ s' = path_ s /\ cs_readable s' = cs_readable s /\
  cs_writable s' = cs_writable s.

Lemma SaveLocked_setup (s s' : ConfigStore) : same_setup s s' -> same_setup s (SaveLocked s').
Proof. unfold same_setup. by destruct (SaveLocked_frame s') as (_ & _ & -> & -> & -> & ->). Qed.

Lemma apply_store_op_frame (op : store_op J) (s : ConfigStore) :
  same_setup s (apply_store_op op s).1.
Proof.
  destruct op as [cfg|id j|id|]; cbn; unfold Upsert, UpsertOverride, Remove; repeat case_match;
    first [done | by apply SaveLocked_setup].
Qed.

Lemma apply_store_ops_inv (ops : list (store_op J)) (s s' : ConfigStore) :
  Forall store_op_ok ops -> store_inv s -> apply_store_ops ops s = (s', Ok tt) ->
  store_inv s' /\ defaults_ s' = defaults_ s /\ path_ s' = path_ s /\
  cs_readable s' = cs_readable s /\ cs_writable s' = cs_writable s.
Proof.
  intros Hops. revert s. induction Hops as [|op ops Hop _ IH]; intros s Hs E; cbn in E; [by simplify_eq|].
  pose proof (apply_store_op_frame op s) as Hf. unfold same_setup in Hf.
  destruct (apply_store_op op s) as [s1 [[]|e]] eqn:E1; [|done]. cbn in Hf.
  destruct Hf as (<- & <- & <- & <-). apply IH; [|done]. by eapply apply_store_op_inv.
Qed.

Definition plain_overrides (s : ConfigStore) : Prop :=
  forall id j, overrides_ s !! id = Some j -> json_plain j.

(** What a later process reads is what was saved. *)
Lemma saved_overrides (s : ConfigStore) :
  keyed (overrides_ s) -> plain_overrides s -> cs_readable s = true -> cs_writable s = true ->
  read_overrides (default [] (array_field "agents" (ReadFileLocked (reopen (SaveLocked s))))) ∅
  = (overrides_ s, Ok tt).
Proof.
  intros Hk Hp Hr Hw. assert (json_plain (root_json iter s)) as Hroot.
  { apply json_plain_fields. intros k x Hx. plain_fields.
    - split; [by apply utf8_ascii|]. eapply plain_int, view_j_int.
    - split; [by apply utf8_ascii|]. apply json_plain_array. intros j Hj.
      apply list_elem_of_fmap in Hj as ([id j'] & -> & Hj). apply elem_of_iter in Hj. by eapply Hp. }
  destruct (dump_ok (Some 2%nat) _ Hroot) as [text Ht].
  unfold AgentConfigStore.SaveLocked, ReadFileLocked. rewrite Hw, Ht. cbn.
  rewrite lookup_insert_eq, Hr, (parse_dump _ _ _ Hroot Ht). unfold root_json.
  rewrite array_field_j_fields. cbn [assoc_last String.eqb Ascii.eqb Bool.eqb default].
  rewrite view_j_array. by apply read_overrides_iter.
Qed.

(** C12.  The configurations survive a restart.  After any updates of a loaded store
    that did not throw, the next process reads from the saved file the same
    effective configuration for every agent, whatever the order in which the maps
    are visited - for well-typed configurations whose texts are UTF-8. *)
Theorem configs_survive_restart (s0 s s1 : ConfigStore) cur (ops : list (store_op J)) :
  Load s0 = (s, Ok cur) -> Forall store_op_ok ops -> apply_store_ops ops s = (s1, Ok tt) ->
  plain_overrides s1 -> cs_readable s1 = true -> cs_writable s1 = true ->
  exists s2 cur2, Load (reopen (Save s1).1) = (s2, Ok cur2) /\ forall id, Get id s2 = Get id s1.
Proof.
  intros HL Hops E Hp Hr Hw. apply Load_inv in HL.
  destruct (apply_store_ops_inv ops s s1 Hops HL E) as ([Hk Hm] & _).
  pose proof (saved_overrides s1 Hk Hp Hr Hw) as Ho. cbn [Save fst].
  pose proof (Load_effective (reopen (SaveLocked s1)) _ Ho) as Hl.
  assert (defaults_ (reopen (SaveLocked s1)) = defaults_ s1) as Hd by apply SaveLocked_frame.
  destruct (Load _) as [s2 [cur2|e]].
  - destruct Hl as (Hc & _ & _ & Hm2). exists s2, cur2. split; [done|]. intros id. unfold Get.
    specialize (Hm id). specialize (Hm2 id). rewrite Hd in Hm2. rewrite Hc.
    destruct (effective (defaults_ s1) (overrides_ s1) id); naive_solver congruence.
  - destruct Hl as [id Hid]. specialize (Hm id). rewrite Hd in Hid. rewrite Hid in Hm.
    by destruct Hm as (c & ? & _).
Qed.

(** A rejected override is not forgotten.  When [UpsertOverride] throws, the
    override stays in the store; the next save writes it, and every later [Load] of
    that file throws, for this and all other agents. *)
Theorem rejected_override_breaks_load (s0 s s1 : ConfigStore) cur id (j : J) e :
  Load s0 = (s, Ok cur) -> UpsertOverride iter id j s = (s1, Throw e) ->
  plain_overrides s1 -> cs_readable s1 = true -> cs_writable s1 = true ->
  exists e', (Load (reopen (Save s1).1)).2 = Throw e'.
Proof.
  intros HL E Hp Hr Hw. apply Load_inv in HL as [Hk Hm].
  unfold UpsertOverride in E. destruct (str_empty id) eqn:Ee; [done|].
  destruct (MergeAgentConfigFromJson _ _) as [c|e'] eqn:Ec; [done|]. injection E as <- <-.
  assert (keyed (overrides_ (set_overrides (<[id := clean_override id j]> (overrides_ s)) s))) as Hk1
    by (by apply keyed_insert, clean_override_id).
  pose proof (saved_overrides _ Hk1 Hp Hr Hw) as Ho. cbn [Save fst].
  pose proof (Load_effective (reopen (SaveLocked _)) _ Ho) as Hl.
  destruct (Load _) as [s2 [cur2|e1]]; [|by eexists]. destruct Hl as (_ & _ & _ & Hm2). specialize (Hm2 id).
  assert (defaults_ (reopen (SaveLocked (set_overrides (<[id := clean_override id j]> (overrides_ s)) s)))
    = defaults_ s) as Hd by (cbn; by rewrite (proj1 (proj2 (proj2 (SaveLocked_frame _))))).
  rewrite Hd in Hm2. cbn in Hm2. rewrite effective_insert, decide_True in Hm2 by done.
  rewrite Ec in Hm2. by destruct Hm2 as (c & ? & _).
Qed.
End StoreFacts.

(** ** Witnesses *)

Definition ex_iter (V : Type) (m : gmap string V) : list (string * V) := map_to_list m.
Definition ex_default : AgentConfig := blank_config "a".
#[local] Instance ex_json0 : Json JsonTree.json := JsonTree.instance [].
#[local] Instance ex_laws : JsonLaws JsonTree.json.
Proof. apply JsonTree.laws. intros x Hx. by apply elem_of_nil in Hx. Qed.
Definition ex_store : ConfigStore JsonTree.json :=
  RegisterDefault ex_default (fresh_config_store ∅ true true).
Definition ex_three : JsonTree.json := j_fields [("maxIterations", j_int 3)].
Definition ex_text : JsonTree.json :=
  j_fields [("maxIterations", j_string "many")].
Definition ex_loaded : ConfigStore JsonTree.json := (Load ex_iter ex_store).1.
Definition ex_override (j : JsonTree.json) : ConfigStore JsonTree.json :=
  (UpsertOverride ex_iter "a" j ex_loaded).1.

Lemma ex_override_plain (v : JsonTree.json) :
  json_plain v ->
  plain_overrides (ex_override (j_fields [("maxIterations", v)])).
Proof.
  intros Hv id j Hj.
  assert (overrides_ (ex_override (j_fields [("maxIterations", v)])) =
    <["a" := clean_override "a" (j_fields [("maxIterations", v)])]> ∅) as E.
  { assert (overrides_ ex_loaded = ∅) as Hl by (vm_compute; reflexivity).
    unfold ex_override, UpsertOverride. cbn [str_empty]. generalize dependent ex_loaded. intros s0 Hl.
    destruct (MergeAgentConfigFromJson _ _); cbn [fst];
      [rewrite (proj1 (SaveLocked_frame _ _))|]; cbn [overrides_ set_current set_overrides];
      rewrite Hl; reflexivity. }
  rewrite E, lookup_insert in Hj. revert Hj. case_decide; [|rewrite lookup_empty; discriminate].
  intros Hj. assert (clean_override "a" (j_fields [("maxIterations", v)]) = j) as <- by (injection Hj; trivial).
  clear -Hv. unfold clean_override. apply json_plain_object.
  intros k x Hx. apply lookup_insert_Some in Hx as [[<- <-]|[_ Hx]].
  - split; [by apply utf8_ascii|]. apply json_plain_string. by apply utf8_ascii.
  - unfold j_fields in Hx. rewrite view_j_object in Hx. cbn in Hx.
    apply lookup_insert_Some in Hx as [[<- <-]|[_ Hx]]; [|by rewrite lookup_empty in Hx].
    split; [by apply utf8_ascii | done].
Qed.

Lemma configs_survive_restart_witness :
  exists s2 cur2,
    Load ex_iter (reopen (Save ex_iter (ex_override ex_three)).1) = (s2, Ok cur2) /\
    (maxIterations <$> Get "a" s2) = Some 3.
Proof.
  destruct (configs_survive_restart ex_iter (fun V m => reflexivity _)
    ex_store ex_loaded (ex_override ex_three) (current_ ex_loaded) [OpOverride "a" ex_three; OpSave])
    as (s2 & cur2 & E & Hg).
  - vm_compute. reflexivity.
  - repeat constructor.
  - vm_compute. reflexivity.
  - apply ex_override_plain. apply (plain_int _ 3). reflexivity.
  - vm_compute. reflexivity.
  - vm_compute. reflexivity.
  - exists s2, cur2. split; [exact E|]. rewrite Hg. vm_compute. reflexivity.
Defined.

Lemma rejected_override_breaks_load_witness :
  exists e, (Load ex_iter
    (reopen (Save ex_iter (ex_override ex_text)).1)).2 = Throw e.
Proof.
  apply (rejected_override_breaks_load ex_iter (fun V m => reflexivity _)
    ex_store ex_loaded (ex_override ex_text) (current_ ex_loaded) "a" ex_text "type_error").
  - vm_compute. reflexivity.
  - vm_compute. reflexivity.
  - apply ex_override_plain. apply json_plain_string. by apply utf8_ascii.
  - vm_compute. reflexivity.
  - vm_compute. reflexivity.
Defined.

Lemma merge_keeps_types_witness :
  exists c, MergeAgentConfigFromJson ex_three ex_default = Ok c /\
    agent_ok any_float c.
Proof.
  eexists. split; [vm_compute; reflexivity|].
  apply (merge_keeps_types ex_three ex_default).
  - unfold agent_ok, model_ok, memory_ok, node_ok, retry_ok, context_ok, dream_ok, is_int. cbn.
    split_and!; try lia; intros k v Hv; exfalso; revert Hv; by rewrite lookup_empty.
  - vm_compute. reflexivity.
Defined.
