(* ===== verification/Transport.v ===== *)
(** * HTTP transport and retries (src/utils/curl_client.cpp, src/utils/retry_helper.h)

    libcurl is the class [Curl]: what one transfer delivers, how it ends, and the
    time that passes between two deliveries.  The retry loop the model back ends
    share is here too, with the delay of the next attempt; so is the cutting of a
    stream into lines. *)
From Stdlib Require Import ZArith Lia String Ascii List.
From stdpp Require Import base decidable list strings gmap sets pretty.
From S2P Require Import Prelude Numbers Types.
Open Scope Z_scope.

(** ** Requests (curl_client.h) *)

Record CurlRequest := mkCurlRequest {
  cr_url : string;
  cr_headers : list string;
  cr_body : string;
  connectTimeout : Z;
  requestTimeout : Z;
  followLocation : bool;
  sslVerify : bool;
  userAgent : string;
  referer : string;
  enableCookies : bool;
  noProxyHosts : string
}.
(** A request with the default options. *)
Definition plain_request (url : string) (headers : list string) (body : string) : CurlRequest :=
  mkCurlRequest url headers body 0 0 false true "" "" false "".

Record CurlResponse := mkCurlResponse {
  statusCode : Z;
  rs_body : string;
  curlCode : Z;
  isCurlError : bool;
  curlErrorStr : string
}.

Definition CURLE_OK : Z := 0.
Definition CURLE_FAILED_INIT : Z := 2.
Definition CURLE_COULDNT_RESOLVE_HOST : Z := 6.
Definition CURLE_COULDNT_CONNECT : Z := 7.
Definition CURLE_PARTIAL_FILE : Z := 18.
Definition CURLE_WRITE_ERROR : Z := 23.
Definition CURLE_OPERATION_TIMEDOUT : Z := 28.
Definition CURLE_GOT_NOTHING : Z := 52.
Definition CURLE_SEND_ERROR : Z := 55.
Definition CURLE_RECV_ERROR : Z := 56.

Inductive CurlOption :=
  | OPT_URL (url : string)
  | OPT_HTTPHEADER (headers : list string)
  | OPT_POST
  | OPT_POSTFIELDS (body : string)
  | OPT_POSTFIELDSIZE (size : Z)
  | OPT_CONNECTTIMEOUT (seconds : Z)
  | OPT_TIMEOUT (seconds : Z)
  | OPT_FOLLOWLOCATION
  | OPT_SSL_VERIFYPEER (on : bool)
  | OPT_SSL_VERIFYHOST (on : bool)
  | OPT_USERAGENT (agent : string)
  | OPT_REFERER (referer : string)
  | OPT_COOKIEFILE (file : string)
  | OPT_NOPROXY (hosts : string).

Definition when {A} (b : bool) (l : list A) : list A := if b then l else [].

(** The options set for a request, in order. *)
Definition ApplyOptions (req : CurlRequest) : list CurlOption :=
  [OPT_URL (cr_url req)]
  ++ match cr_headers req with [] => [] | hs => [OPT_HTTPHEADER hs] end
  ++ when (negb (str_empty (cr_body req)))
       [OPT_POST; OPT_POSTFIELDS (cr_body req); OPT_POSTFIELDSIZE (Z.of_nat (String.length (cr_body req)))]
  ++ when (0 <? connectTimeout req) [OPT_CONNECTTIMEOUT (connectTimeout req)]
  ++ when (0 <? requestTimeout req) [OPT_TIMEOUT (requestTimeout req)]
  ++ when (followLocation req) [OPT_FOLLOWLOCATION]
  ++ when (negb (sslVerify req)) [OPT_SSL_VERIFYPEER false; OPT_SSL_VERIFYHOST false]
  ++ when (negb (str_empty (userAgent req))) [OPT_USERAGENT (userAgent req)]
  ++ when (negb (str_empty (referer req))) [OPT_REFERER (referer req)]
  ++ when (enableCookies req) [OPT_COOKIEFILE ""]
  ++ when (negb (str_empty (noProxyHosts req))) [OPT_NOPROXY (noProxyHosts req)].

(** libcurl and the machine it runs on. *)
Class Curl (X : Type) := {
  (** Whether [curl_easy_init] gives a handle. *)
  curl_handle : X -> bool;
  (** One transfer: the blocks of bytes it delivers, its code and the status of the
      response, when no write callback aborts it. *)
  curl_easy_perform : list CurlOption -> X -> X * list string * Z * Z;
  curl_easy_strerror : Z -> string;
  curl_easy_escape : string -> string;
  (** Empty when it gives a null pointer. *)
  curl_easy_unescape : string -> option string;
  (** What happens before the next block arrives. *)
  curl_elapse : X -> X;
  (** [uniform_int_distribution<int>(0, n)(rng)]. *)
  random_upto : Z -> X -> X * Z;
  sleep_ms : Z -> X -> X;
  (** [Logger::ShouldLog(INFO)]. *)
  logs_info : X -> bool
}.

Section Transport.
Context {X : Type} `{Curl X}.

(** The blocks of a transfer handed to a write callback with state [s]; the last
    component is whether none aborted the transfer. *)
Fixpoint deliver {S} (onChunk : S -> string -> X -> S * X * bool) (chunks : list string) (s : S) (x : X)
    : S * X * bool :=
  match chunks with
  | [] => (s, x, true)
  | c :: chunks =>
      let x := curl_elapse x in
      if str_empty c then deliver onChunk chunks s x
      else
        let '(s1, x1, keep) := onChunk s c x in
        if keep then deliver onChunk chunks s1 x1 else (s1, x1, false)
  end.

Definition finish_transfer (rc code : Z) (body : string) : CurlResponse :=
  mkCurlResponse code body rc (negb (rc =? CURLE_OK))
    (if rc =? CURLE_OK then "" else curl_easy_strerror rc).

(** [Perform] with a callback: the body of the response stays empty. *)
Definition PostStream {S} (req : CurlRequest) (onChunk : S -> string -> X -> S * X * bool) (s : S) (x : X)
    : S * X * CurlResponse :=
  if negb (curl_handle x) then (s, x, mkCurlResponse 0 "" CURLE_FAILED_INIT true "")
  else
    let '(x1, chunks, rc, code) := curl_easy_perform (ApplyOptions req) x in
    let '(s1, x2, whole) := deliver onChunk chunks s x1 in
    (s1, x2, finish_transfer (if whole : bool then rc else CURLE_WRITE_ERROR) code "").

(** [Perform] without one: [Post] and [Get]. *)
Definition PerformBody (req : CurlRequest) (x : X) : X * CurlResponse :=
  if negb (curl_handle x) then (x, mkCurlResponse 0 "" CURLE_FAILED_INIT true "")
  else
    let '(x1, chunks, rc, code) := curl_easy_perform (ApplyOptions req) x in
    (x1, finish_transfer rc code (string_concat chunks)).

Definition UrlEncode (value : string) (x : X) : string :=
  if curl_handle x then curl_easy_escape value else value.

Definition UrlDecode (value : string) (x : X) : string :=
  if curl_handle x then default value (curl_easy_unescape value) else value.

(** ** Delays (retry_helper.h) *)

(** [delay *= 2], [attempt] times. *)
Fixpoint double_times (attempt : nat) (delay : Z) : option Z :=
  match attempt with
  | O => Some delay
  | S attempt => match int_result (delay * 2) with Some d => double_times attempt d | None => None end
  end.

(** The distribution needs bounds in order. *)
Definition ComputeBackoffDelayMs (attempt : nat) (policy : RetryPolicy) (x : X) : X * option Z :=
  match double_times attempt (baseDelayMs policy) with
  | None => (x, None)
  | Some doubled =>
      let delay := Z.min doubled (maxDelayMs policy) in
      if withJitter policy then
        if Z.quot delay 2 <? 0 then (x, None)
        else
          let '(x1, jitter) := random_upto (Z.quot delay 2) x in
          (x1, match int_result (delay + jitter) with
               | Some d => Some (Z.min d (maxDelayMs policy)) | None => None end)
      else (x, Some (Z.min delay (maxDelayMs policy)))
  end.

Definition IsRetryableHttpStatus (httpCode : Z) : bool :=
  bool_decide (httpCode ∈ [429; 500; 502; 503; 504]).

Definition IsRetryableCurlError (code : Z) : bool :=
  bool_decide (code ∈ [CURLE_OPERATION_TIMEDOUT; CURLE_COULDNT_CONNECT; CURLE_COULDNT_RESOLVE_HOST;
                       CURLE_RECV_ERROR; CURLE_SEND_ERROR; CURLE_GOT_NOTHING; CURLE_PARTIAL_FILE]).

Definition SleepBackoff (attempt : nat) (policy : RetryPolicy) (x : X) : X * option unit :=
  let '(x1, d) := ComputeBackoffDelayMs attempt policy x in
  match d with Some ms => (sleep_ms ms x1, Some tt) | None => (x1, None) end.

(** The delay is computed once for the log and once to sleep. *)
Definition log_and_sleep (attempt : nat) (policy : RetryPolicy) (x : X) : X * option unit :=
  if logs_info x then
    let '(x1, d) := ComputeBackoffDelayMs attempt policy x in
    match d with Some _ => SleepBackoff attempt policy x1 | None => (x1, None) end
  else SleepBackoff attempt policy x.

(** ** The attempts of a model call *)

Variable shouldCancel : X -> bool.
(** [DoInvokeOnce]; the flag is whether the chunks are streamed. *)
Variable once : bool -> X -> X * list string * ModelResponse.

Definition cancelled_response : ModelResponse := mkModelResponse "" [] true "cancelled" false None.
Definition exhausted_response : ModelResponse :=
  mkModelResponse "Error: retry loop exhausted" [] true "error" false None.

Fixpoint attempts (n attempt : nat) (policy : RetryPolicy) (x : X) : X * list string * res ModelResponse :=
  match n with
  | O => (x, [], Val exhausted_response)
  | S n =>
      if shouldCancel x then (x, [], Val cancelled_response)
      else
        let '(x1, chunks, out) := once (Nat.eqb attempt 0) x in
        if String.eqb (mr_finishReason out) "cancelled" || negb (mr_isRetryable out) || Nat.eqb n 0
        then (x1, chunks, Val out)
        else
          let '(x2, slept) := log_and_sleep attempt policy x1 in
          match slept with
          | None => (x2, chunks, Undefined)
          | Some _ =>
              let '(x3, more, r) := attempts n (S attempt) policy x2 in (x3, chunks ++ more, r)
          end
  end.

Definition invoke_attempts (policy : RetryPolicy) (x : X) : X * list string * res ModelResponse :=
  attempts (Z.to_nat (1 + maxRetries policy)) 0 policy x.
End Transport.

(** ** Lines of a stream *)

(** The complete lines, and what follows the last newline. *)
Fixpoint take_lines (cur s : string) : list string * string :=
  match s with
  | EmptyString => ([], cur)
  | String c s' =>
      if Ascii.eqb c NL then let '(ls, rest) := take_lines "" s' in (cur :: ls, rest)
      else take_lines (cur +:+ String c "") s'
  end.

(** ** Facts *)

Lemma take_lines_app (cur a b : string) :
  take_lines cur (a +:+ b) =
  let '(l1, r1) := take_lines cur a in let '(l2, r2) := take_lines r1 b in (l1 ++ l2, r2).
Proof.
  revert cur; induction a as [|c a IH]; intros cur.
  - cbn. by destruct (take_lines cur b).
  - change (String c a +:+ b) with (String c (a +:+ b)). cbn [take_lines].
    destruct (Ascii.eqb c NL); [|apply IH]. rewrite IH.
    destruct (take_lines "" a) as [l1 r1]. by destruct (take_lines r1 b).
Qed.

Lemma take_lines_rest (cur s : string) :
  occurs NL cur = false -> occurs NL (take_lines cur s).2 = false.
Proof.
  revert cur; induction s as [|c s IH]; intros cur Hc; [done|]. cbn [take_lines].
  destruct (Ascii.eqb c NL) eqn:E.
  - specialize (IH "" eq_refl). by destruct (take_lines "" s).
  - apply IH. rewrite occurs_app, Hc. cbn [occurs]. by rewrite Ascii.eqb_sym, E.
Qed.

Lemma take_lines_none (cur s : string) : occurs NL s = false -> take_lines cur s = ([], cur +:+ s).
Proof.
  revert cur; induction s as [|c s IH]; intros cur Hs; [by rewrite str_app_nil_r|].
  cbn [occurs] in Hs. apply orb_false_iff in Hs as [Hc Hs]. cbn [take_lines].
  rewrite Ascii.eqb_sym, Hc, IH by done. by rewrite str_app_assoc.
Qed.

Lemma take_lines_line (cur l rest : string) :
  occurs NL l = false ->
  take_lines cur (l +:+ nl +:+ rest) = let '(ls, r) := take_lines "" rest in ((cur +:+ l) :: ls, r).
Proof.
  revert cur; induction l as [|c l IH]; intros cur Hl.
  - rewrite str_app_nil_r. reflexivity.
  - cbn [occurs] in Hl. apply orb_false_iff in Hl as [Hc Hl].
    change (String c l +:+ nl +:+ rest) with (String c (l +:+ nl +:+ rest)). cbn [take_lines].
    rewrite Ascii.eqb_sym, Hc, IH by done. by rewrite str_app_assoc.
Qed.

Section TransportFacts.
Context {X : Type} `{Curl X}.

(** A retry sleeps at most [maxDelayMs], in spite of the jitter. *)
Lemma backoff_bounds attempt policy (x x1 : X) d :
  ComputeBackoffDelayMs attempt policy x = (x1, Some d) -> d <= maxDelayMs policy.
Proof.
  unfold ComputeBackoffDelayMs. intros E. repeat case_match; simplify_eq; lia.
Qed.

Lemma double_times_spec attempt d :
  0 <= d -> d * 2 ^ Z.of_nat attempt < 2 ^ 31 -> double_times attempt d = Some (d * 2 ^ Z.of_nat attempt).
Proof.
  revert d; induction attempt as [|n IH]; intros d Hd Hlt; cbn [double_times].
  - f_equal. cbn. lia.
  - rewrite Nat2Z.inj_succ, Z.pow_succ_r in * by lia.
    assert (0 < 2 ^ Z.of_nat n) by (apply Z.pow_pos_nonneg; lia).
    unfold int_result, int_in_range. destruct (Z.leb_spec (- 2 ^ 31) (d * 2)), (Z.ltb_spec (d * 2) (2 ^ 31));
      try nia. cbn [andb]. rewrite IH by nia. f_equal. lia.
Qed.

(** The delay is defined, and at least the capped exponential one, as long as the
    doubling stays in range. *)
Lemma backoff_defined attempt policy (x : X) :
  (forall n x, 0 <= n -> 0 <= (random_upto n x).2 <= n) ->
  0 <= baseDelayMs policy -> baseDelayMs policy * 2 ^ Z.of_nat attempt < 2 ^ 31 ->
  0 <= maxDelayMs policy < 2 ^ 30 ->
  exists x1 d, ComputeBackoffDelayMs attempt policy x = (x1, Some d) /\
    Z.min (baseDelayMs policy * 2 ^ Z.of_nat attempt) (maxDelayMs policy) <= d <= maxDelayMs policy.
Proof.
  intros Hr Hb Hd Hm. unfold ComputeBackoffDelayMs. rewrite double_times_spec by done.
  assert (0 <= baseDelayMs policy * 2 ^ Z.of_nat attempt) by (apply Z.mul_nonneg_nonneg; lia).
  set (delay := Z.min _ _). assert (0 <= delay <= maxDelayMs policy) by lia.
  destruct (withJitter policy); [|exists x, (Z.min delay (maxDelayMs policy)); split; [done | lia]].
  assert (0 <= Z.quot delay 2 <= delay) as Hq
    by (split; [apply Z.quot_pos; lia | apply Z.quot_le_upper_bound; lia]).
  destruct (Z.ltb_spec (Z.quot delay 2) 0); [lia|]. pose proof (Hr (Z.quot delay 2) x ltac:(lia)) as Hj.
  destruct (random_upto (Z.quot delay 2) x) as [x1 j]. cbn in Hj.
  unfold int_result, int_in_range.
  destruct (Z.leb_spec (- 2 ^ 31) (delay + j)), (Z.ltb_spec (delay + j) (2 ^ 31)); try lia.
  cbn [andb]. eexists _, _. split; [done | lia].
Qed.
End TransportFacts.
