(* ===== verification/McpClient.v ===== *)
(** * The MCP client (src/mcp/mcp_client.cpp, mcp_tool.cpp, and the calls of
    mcp_connection.cpp)

    JSON-RPC over HTTP: the handshake, the listing of tools and the calls.  libcurl is
    the class [Curl] of Transport.  What the client makes of a server is the
    [remote_answer] McpManager connects with. *)
From Stdlib Require Import ZArith Lia String Ascii List.
From stdpp Require Import base decidable list strings gmap sets.
From S2P Require Import Prelude Encoding Types JsonLib ToolBase ResourceManager McpManager Transport.
Open Scope Z_scope.

Record MCPToolResult := mkMCPToolResult {
  tr_isError : bool;
  tr_content : list string
}.

Record MCPClient := mkMCPClient {
  cl_name : string;
  cl_version : string;
  endpoint_ : string;
  connectTimeoutSeconds_ : Z;
  requestTimeoutSeconds_ : Z;
  sessionId_ : string;
  isInitialized_ : bool;
  headers_ : list string;
  nextRequestId_ : Z;
  lastError_ : string
}.

Definition mcp_client_new (name version endpoint : string) (connectTimeout requestTimeout : Z) : MCPClient :=
  mkMCPClient name version endpoint connectTimeout requestTimeout "" false [] 1
    (if str_empty endpoint then "MCP endpoint must not be empty" else "").

Definition set_error (e : string) (c : MCPClient) : MCPClient :=
  mkMCPClient (cl_name c) (cl_version c) (endpoint_ c) (connectTimeoutSeconds_ c) (requestTimeoutSeconds_ c)
    (sessionId_ c) (isInitialized_ c) (headers_ c) (nextRequestId_ c) e.
Definition set_initialized (c : MCPClient) : MCPClient :=
  mkMCPClient (cl_name c) (cl_version c) (endpoint_ c) (connectTimeoutSeconds_ c) (requestTimeoutSeconds_ c)
    (sessionId_ c) true (headers_ c) (nextRequestId_ c) (lastError_ c).
(** [nextRequestId_++] of an atomic [int], which wraps. *)
Definition take_id (c : MCPClient) : MCPClient :=
  mkMCPClient (cl_name c) (cl_version c) (endpoint_ c) (connectTimeoutSeconds_ c) (requestTimeoutSeconds_ c)
    (sessionId_ c) (isInitialized_ c) (headers_ c) (JsonTree.wrap32 (nextRequestId_ c + 1)) (lastError_ c).

Section Client.
Context {J : Type} `{Json J} {X : Type} `{Curl X}.

Definition MakeErrorResponse (message : string) (c : MCPClient) : MCPClient * J :=
  (set_error message c, j_fields [("error", j_fields [("message", j_string message)])]).

Definition mcp_request (body : string) (c : MCPClient) : CurlRequest :=
  mkCurlRequest (endpoint_ c)
    (["Content-Type: application/json"; "Accept: application/json, text/event-stream"]
     ++ (if str_empty (sessionId_ c) then [] else ["Mcp-Session-Id: " +:+ sessionId_ c]) ++ headers_ c)
    body (Z.max 0 (connectTimeoutSeconds_ c)) (Z.max 0 (requestTimeoutSeconds_ c)) false true "" "" false "".

(** What is made of a response. *)
Definition mcp_response (resp : CurlResponse) (c : MCPClient) : MCPClient * J :=
  if isCurlError resp then MakeErrorResponse ("CURL error: " +:+ curlErrorStr resp) c
  else if negb (statusCode resp =? 200) && negb (statusCode resp =? 202) then
    MakeErrorResponse ("HTTP error " +:+ to_string (statusCode resp)
                       +:+ (if str_empty (rs_body resp) then "" else ": " +:+ rs_body resp)) c
  else if str_empty (rs_body resp) then (c, j_null)
  else match json_parse (rs_body resp) with
       | Throw _ => MakeErrorResponse "JSON parse error" c
       | Ok response => (set_error "" c, response)
       end.

Definition SendRequest (request : J) (c : MCPClient) (x : X) : MCPClient * X * outcome J :=
  if str_empty (endpoint_ c) then
    let '(c1, j) := MakeErrorResponse "MCP endpoint must not be empty" c in (c1, x, Ok j)
  else match json_dump None request with
  | Throw e => (c, x, Throw e)
  | Ok body =>
      let '(x1, resp) := PerformBody (mcp_request body c) x in
      let '(c1, j) := mcp_response resp c in (c1, x1, Ok j)
  end.

(** A request with the next id. *)
Definition rpc (c : MCPClient) (method : string) (params : J) : J :=
  j_fields [("jsonrpc", j_string "2.0"); ("id", j_int (nextRequestId_ c)); ("method", j_string method);
            ("params", params)].

(** [response["error"].value("message", dflt)] of a response that has an error. *)
Definition error_message (dflt : string) (response : J) : option (outcome string) :=
  value_string "message" dflt <$> jfield "error" response.

Definition Initialize (c : MCPClient) (x : X) : MCPClient * X * outcome bool :=
  if isInitialized_ c then (c, x, Ok true)
  else
    let params := j_fields [("protocolVersion", j_string "2024-11-05"); ("capabilities", j_object ∅);
                            ("clientInfo", j_fields [("name", j_string (cl_name c)); ("version", j_string (cl_version c))])] in
    match SendRequest (rpc c "initialize" params) (take_id c) x with
    | (c1, x1, Throw e) => (c1, x1, Throw e)
    | (c1, x1, Ok response) =>
        match error_message "Initialize failed" response with
        | Some (Throw e) => (c1, x1, Throw e)
        | Some (Ok msg) => (set_error msg c1, x1, Ok false)
        | None =>
            let notify := j_fields [("jsonrpc", j_string "2.0"); ("method", j_string "notifications/initialized");
                                    ("params", j_fields [("capabilities", j_object ∅)])] in
            match SendRequest notify c1 x1 with
            | (c2, x2, Throw e) => (c2, x2, Throw e)
            | (c2, x2, Ok _) => (set_initialized c2, x2, Ok true)
            end
        end
    end.

Definition decode_tool (toolDef : J) : outcome (MCPToolInfo (J := J)) :=
  name <-- value_string "name" "" toolDef ;;
  description <-- value_string "description" "" toolDef ;;
  Ok (mkMCPToolInfo name description (default j_null (jfield "inputSchema" toolDef))).

(** What a range-for over a JSON value visits. *)
Definition range_for (j : J) : list J :=
  match json_view j with
  | JNull => []
  | JArray l => l
  | JObject m => map snd (fields_of m)
  | _ => [j]
  end.

Definition ListTools (c : MCPClient) (x : X) : MCPClient * X * outcome (list (MCPToolInfo (J := J))) :=
  if negb (isInitialized_ c) then (set_error "MCP client not initialized" c, x, Ok [])
  else
    match SendRequest (rpc c "tools/list" (j_object ∅)) (take_id c) x with
    | (c1, x1, Throw e) => (c1, x1, Throw e)
    | (c1, x1, Ok response) =>
        match error_message "List tools failed" response with
        | Some (Throw e) => (c1, x1, Throw e)
        | Some (Ok msg) => (set_error msg c1, x1, Ok [])
        | None =>
            match jfield "result" response ≫= jfield "tools" with
            | Some l => (c1, x1, outcome_map decode_tool (range_for l))
            | None => (c1, x1, Ok [])
            end
        end
    end.

(** The texts of the content items that have one. *)
Fixpoint content_texts (items : list J) : outcome (list string) :=
  match items with
  | [] => Ok []
  | i :: items =>
      match jfield "text" i with
      | Some t => s <-- get_string t ;; rest <-- content_texts items ;; Ok (s :: rest)
      | None => content_texts items
      end
  end.

Definition call_result (response : J) : outcome MCPToolResult :=
  match error_message "Unknown error" response with
  | Some message => msg <-- message ;; Ok (mkMCPToolResult true ["Error: " +:+ msg])
  | None =>
      match jfield "result" response with
      | None => Ok (mkMCPToolResult false [])
      | Some r =>
          let isError := match jfield "isError" r with
                         | Some v => match json_view v with JBool b => b | _ => false end
                         | None => false
                         end in
          texts <-- (match array_field "content" r with Some l => content_texts l | None => Ok [] end) ;;
          Ok (mkMCPToolResult isError texts)
      end
  end.

Definition CallTool (toolName : string) (arguments : J) (c : MCPClient) (x : X) : MCPClient * X * outcome MCPToolResult :=
  if negb (isInitialized_ c) then
    (set_error "MCP client not initialized" c, x, Ok (mkMCPToolResult true ["MCP client not initialized"]))
  else
    match SendRequest (rpc c "tools/call" (j_fields [("name", j_string toolName); ("arguments", arguments)]))
            (take_id c) x with
    | (c1, x1, Throw e) => (c1, x1, Throw e)
    | (c1, x1, Ok response) => (c1, x1, call_result response)
    end.

(** ** The connection *)

(** [CreateClient] of an HTTP connection. *)
Definition CreateClient (name : string) (config : MCPEndpointConfig) : MCPClient :=
  mcp_client_new name "1.0.0" (ep_url config) (ep_connectTimeoutSeconds config) (ep_requestTimeoutSeconds config).

(** The client's part of [Connect]: what McpManager's [Connect] is given. *)
Definition handshake (name : string) (config : MCPEndpointConfig) (x : X)
    : MCPClient * X * remote_answer (J := J) :=
  match Initialize (CreateClient name config) x with
  | (c1, x1, Throw e) => (c1, x1, Throw e)
  | (c1, x1, Ok false) => (c1, x1, Ok (false, []))
  | (c1, x1, Ok true) =>
      match ListTools c1 x1 with
      | (c2, x2, Throw e) => (c2, x2, Throw e)
      | (c2, x2, Ok tools) => (c2, x2, Ok (true, tools))
      end
  end.

(** [MCPConnection::CallTool] of a connected client: arguments that are not JSON are
    sent as a string. *)
Definition connection_call (toolName arguments : string) (c : MCPClient) (x : X) : MCPClient * X * outcome MCPToolResult :=
  let argsJson := match json_parse arguments with Ok j => j | Throw _ => j_string arguments end in
  CallTool toolName argsJson c x.

(** [MCPTool::Invoke]; [client] is that of its connection, [None] when there is none or
    it is not connected. *)
Definition tool_output (result : MCPToolResult) : string :=
  (if tr_isError result then "MCP Tool Error: " else "") +:+ string_concat (tr_content result).
Definition MCPTool_Invoke (name input : string) (client : option MCPClient) (x : X)
    : option MCPClient * X * outcome string :=
  match client with
  | None => (None, x, Ok "Error: MCP Server not connected or invalid")
  | Some c =>
      let '(c1, x1, r) := connection_call name input c x in
      (Some c1, x1, result <-- r ;; Ok (tool_output result))
  end.
End Client.

(** ** What a server sends *)

Section Documents.
Context {J : Type} `{Json J}.

Definition tool_json (t : MCPToolInfo (J := J)) : J :=
  j_fields [("name", j_string (ti_name t)); ("description", j_string (ti_description t));
            ("inputSchema", inputSchema t)].
Definition listing_json (id : Z) (ts : list (MCPToolInfo (J := J))) : J :=
  j_fields [("jsonrpc", j_string "2.0"); ("id", j_int id);
            ("result", j_fields [("tools", j_array (map tool_json ts))])].

Definition text_item (t : string) : J := j_fields [("type", j_string "text"); ("text", j_string t)].

(** How a call may end. *)
Inductive CallEnd :=
  | Finished (isError : bool) (texts : list string)
  | Refused (message : string)
  | HttpFailure (status : Z) (body : string)
  | TransferFailure (what : string).

Definition end_json (id : Z) (e : CallEnd) : J :=
  match e with
  | Finished isError texts =>
      j_fields [("jsonrpc", j_string "2.0"); ("id", j_int id);
                ("result", j_fields [("isError", j_bool isError); ("content", j_array (map text_item texts))])]
  | Refused message =>
      j_fields [("jsonrpc", j_string "2.0"); ("id", j_int id);
                ("error", j_fields [("code", j_int (-32000)); ("message", j_string message)])]
  | _ => j_null
  end.

(** A document that arrives whole. *)
Definition delivers (j : J) (resp : CurlResponse) : Prop :=
  isCurlError resp = false /\ statusCode resp = 200 /\ rs_body resp <> "" /\ json_parse (rs_body resp) = Ok j.

Definition ends_with (id : Z) (e : CallEnd) (resp : CurlResponse) : Prop :=
  match e with
  | HttpFailure status body =>
      isCurlError resp = false /\ statusCode resp = status /\ status <> 200 /\ status <> 202 /\ rs_body resp = body /\
      body <> ""
  | TransferFailure what => isCurlError resp = true /\ curlErrorStr resp = what
  | _ => delivers (end_json id e) resp
  end.

(** What the tool returns to the model. *)
Definition end_text (e : CallEnd) : string :=
  match e with
  | Finished isError texts => (if isError then "MCP Tool Error: " else "") +:+ string_concat texts
  | Refused message => "MCP Tool Error: Error: " +:+ message
  | HttpFailure status body => "MCP Tool Error: Error: HTTP error " +:+ to_string status +:+ ": " +:+ body
  | TransferFailure what => "MCP Tool Error: Error: CURL error: " +:+ what
  end.
End Documents.

(** ** Facts *)

Section ClientFacts.
Context {J : Type} `{JsonLaws J} {X : Type} `{Curl X}.

Lemma mcp_response_delivered j resp c : delivers j resp -> mcp_response resp c = (set_error "" c, j).
Proof.
  intros (Hc & Hs & Hb & Hp). unfold mcp_response. rewrite Hc, Hs, Hp. cbn.
  by apply str_empty_false in Hb as ->.
Qed.

Lemma send_request c (request : J) (body : string) (x x1 : X) resp :
  endpoint_ c <> "" -> json_dump None request = Ok body ->
  PerformBody (mcp_request body c) x = (x1, resp) ->
  SendRequest request c x = ((mcp_response resp c).1, x1, Ok (mcp_response (J := J) resp c).2).
Proof.
  intros He Hd Hp. unfold SendRequest. apply str_empty_false in He as ->. rewrite Hd, Hp.
  by destruct (mcp_response resp c).
Qed.

Lemma content_texts_items (texts : list string) : content_texts (map (text_item (J := J)) texts) = Ok texts.
Proof.
  induction texts as [|t ts IH]; [done|]. cbn [map content_texts]. unfold text_item at 1. rewrite jfield_j_fields.
  cbn [assoc_last String.eqb Ascii.eqb Bool.eqb]. rewrite get_string_j_string. cbn [obind]. by rewrite IH.
Qed.

Lemma call_result_finished id b texts :
  call_result (end_json (J := J) id (Finished b texts)) = Ok (mkMCPToolResult b texts).
Proof.
  unfold call_result, error_message, end_json. rewrite !jfield_j_fields.
  cbn [assoc_last String.eqb Ascii.eqb Bool.eqb fmap option_fmap option_map].
  rewrite jfield_j_fields, array_field_j_fields. cbn [assoc_last String.eqb Ascii.eqb Bool.eqb].
  by rewrite view_j_bool, view_j_array, content_texts_items.
Qed.

Lemma call_result_error (message : string) (more extra : list (string * J)) :
  call_result (j_fields (more ++ [("error", j_fields (extra ++ [("message", j_string message)]))])) =
  Ok (mkMCPToolResult true ["Error: " +:+ message]).
Proof.
  unfold call_result, error_message. rewrite jfield_j_fields, assoc_last_app.
  cbn [assoc_last String.eqb Ascii.eqb Bool.eqb fmap option_fmap option_map].
  rewrite value_string_j_fields, assoc_last_app. cbn [assoc_last String.eqb Ascii.eqb Bool.eqb].
  by rewrite get_string_j_string.
Qed.

(** What the model sees of an MCP tool.  A call over an initialised client sends
    one request, [tools/call] with the next id, the name of the tool and the arguments
    as JSON; however the server ends it, the tool returns the text of that end: the
    texts of the result in order, marked when the server flags an error, or the message
    of the server's error, of the HTTP status or of the transfer. *)
Theorem mcp_call_output (name input body : string) (arguments : J) (c : MCPClient) (x x1 : X) (resp : CurlResponse)
    (e : CallEnd) :
  isInitialized_ c = true -> endpoint_ c <> "" -> json_parse input = Ok arguments ->
  json_dump None (rpc c "tools/call" (j_fields [("name", j_string name); ("arguments", arguments)])) = Ok body ->
  PerformBody (mcp_request body c) x = (x1, resp) -> ends_with (J := J) (nextRequestId_ c) e resp ->
  exists c1, MCPTool_Invoke (J := J) name input (Some c) x = (Some c1, x1, Ok (end_text e)) /\
    isInitialized_ c1 = true /\ nextRequestId_ c1 = JsonTree.wrap32 (nextRequestId_ c + 1).
Proof.
  intros Hi He Hp Hd Hx Hend. unfold MCPTool_Invoke, connection_call, CallTool. rewrite Hp, Hi. cbn [negb].
  rewrite (send_request (take_id c) _ body x x1 resp) by done.
  assert (exists c1 j, mcp_response (J := J) resp (take_id c) = (c1, j) /\ isInitialized_ c1 = true /\
    nextRequestId_ c1 = JsonTree.wrap32 (nextRequestId_ c + 1) /\
    exists r, call_result j = Ok r /\ tool_output r = end_text e) as (c1 & j & -> & Hc1 & Hn & r & Hr & Ho).
  { destruct e as [b texts|message|status text|what]; cbn [ends_with] in Hend.
    - rewrite (mcp_response_delivered _ _ _ Hend). eexists _, _. split_and!; [done..|].
      rewrite call_result_finished. by eexists.
    - rewrite (mcp_response_delivered _ _ _ Hend). eexists _, _. split_and!; [done..|].
      eexists. split.
      { apply (call_result_error message [("jsonrpc", j_string "2.0"); ("id", j_int (nextRequestId_ c))]
                 [("code", j_int (-32000))]). }
      cbn. by rewrite str_app_nil_r.
    - destruct Hend as (Hc & Hs & H200 & H202 & Hb & Hne). unfold mcp_response. rewrite Hc, Hs, Hb.
      apply Z.eqb_neq in H200 as ->. apply Z.eqb_neq in H202 as ->. apply str_empty_false in Hne as ->.
      eexists _, _. split_and!; [done..|]. eexists. split; [apply (call_result_error _ [] [])|].
      cbn. by rewrite str_app_nil_r.
    - destruct Hend as [Hc Hs]. unfold mcp_response. rewrite Hc, Hs.
      eexists _, _. split_and!; [done..|]. eexists. split; [apply (call_result_error _ [] [])|].
      cbn. by rewrite str_app_nil_r. }
  exists c1. cbn [fst snd]. rewrite Hr. cbn [obind]. by rewrite Ho.
Qed.

(** The documents of the handshake and the listing. *)
Definition initialize_json (name version : string) : J :=
  j_fields [("jsonrpc", j_string "2.0"); ("id", j_int 1); ("method", j_string "initialize");
            ("params", j_fields [("protocolVersion", j_string "2024-11-05"); ("capabilities", j_object ∅);
                                 ("clientInfo", j_fields [("name", j_string name); ("version", j_string version)])])].
Definition initialized_json : J :=
  j_fields [("jsonrpc", j_string "2.0"); ("method", j_string "notifications/initialized");
            ("params", j_fields [("capabilities", j_object ∅)])].
Definition list_json : J :=
  j_fields [("jsonrpc", j_string "2.0"); ("id", j_int 2); ("method", j_string "tools/list"); ("params", j_object ∅)].

(** A server that answers the three requests of the handshake: the two headers of the
    client are all it is sent. *)
Definition plain_headers : list string :=
  ["Content-Type: application/json"; "Accept: application/json, text/event-stream"].
Definition request_of (config : MCPEndpointConfig) (body : string) : CurlRequest :=
  mkCurlRequest (ep_url config) plain_headers body (Z.max 0 (ep_connectTimeoutSeconds config))
    (Z.max 0 (ep_requestTimeoutSeconds config)) false true "" "" false "".

Definition serves (name : string) (config : MCPEndpointConfig) (ts : list (MCPToolInfo (J := J))) (x x3 : X) : Prop :=
  exists b1 b2 b3 x1 x2 r1 r2 r3 j1,
    json_dump None (initialize_json name "1.0.0") = Ok b1 /\ json_dump None initialized_json = Ok b2 /\
    json_dump None list_json = Ok b3 /\
    PerformBody (request_of config b1) x = (x1, r1) /\ delivers j1 r1 /\ jfield "error" j1 = None /\
    PerformBody (request_of config b2) x1 = (x2, r2) /\
    PerformBody (request_of config b3) x2 = (x3, r3) /\ delivers (listing_json 2 ts) r3.

Lemma decode_tool_json t : decode_tool (tool_json (J := J) t) = Ok t.
Proof.
  unfold decode_tool, tool_json. rewrite !value_string_j_fields, jfield_j_fields.
  cbn [assoc_last String.eqb Ascii.eqb Bool.eqb]. rewrite !get_string_j_string. by destruct t.
Qed.

Lemma list_answer (ts : list (MCPToolInfo (J := J))) :
  error_message "List tools failed" (listing_json 2 ts) = None /\
  exists l, jfield "result" (listing_json 2 ts) ≫= jfield "tools" = Some l /\
    outcome_map decode_tool (range_for l) = Ok ts.
Proof.
  unfold error_message, listing_json. rewrite !jfield_j_fields.
  cbn [assoc_last String.eqb Ascii.eqb Bool.eqb fmap option_fmap option_map mbind option_bind].
  split; [done|]. eexists. rewrite jfield_j_fields. split; [done|].
  unfold range_for. rewrite view_j_array. apply outcome_map_ok. intros t _. apply decode_tool_json.
Qed.

Lemma handshake_answer name config ts (x x3 : X) :
  ep_url config <> "" -> serves name config ts x x3 ->
  exists c, handshake name config x = (c, x3, Ok (true, ts)) /\
    isInitialized_ c = true /\ nextRequestId_ c = 3 /\ lastError_ c = "".
Proof.
  intros Hu (b1 & b2 & b3 & x1 & x2 & r1 & r2 & r3 & j1 & D1 & D2 & D3 & P1 & A1 & E1 & P2 & P3 & A3).
  unfold handshake, Initialize. set (c0 := CreateClient name config). cbn [isInitialized_ c0 CreateClient mcp_client_new].
  fold c0. change (json_dump None (rpc c0 "initialize" (j_fields [("protocolVersion", j_string "2024-11-05");
    ("capabilities", j_object ∅); ("clientInfo", j_fields [("name", j_string (cl_name c0));
      ("version", j_string (cl_version c0))])])) = Ok b1) in D1.
  rewrite (send_request (take_id c0) _ b1 x x1 r1 Hu D1 P1), (mcp_response_delivered j1) by done.
  cbn [fst snd]. unfold error_message. rewrite E1. cbn [fmap option_fmap option_map].
  set (c1 := set_error "" (take_id c0)). unfold initialized_json in D2. rewrite (send_request c1 _ b2 x1 x2 r2 Hu D2 P2).
  cbn [fst snd]. unfold ListTools.
  assert (exists e, (mcp_response (J := J) r2 c1).1 = set_error e c1) as [e ->].
  { unfold mcp_response, MakeErrorResponse. repeat case_match; by eexists. }
  cbn [isInitialized_ set_initialized negb]. set (c2 := set_initialized (set_error e c1)).
  change (json_dump None (rpc c2 "tools/list" (j_object ∅)) = Ok b3) in D3.
  rewrite (send_request (take_id c2) _ b3 x2 x3 r3 Hu D3 P3), (mcp_response_delivered _ _ _ A3). cbn [fst snd].
  destruct (list_answer ts) as (-> & l & -> & ->). by eexists.
Qed.

Context {F SF T : Type} `{!ToolFactories F SF T J}.
Variable mcp_factory : ToolInfo -> nat -> F.

Lemma register_tools_all p ts (conn : MCPConnection (J := J)) (rm : ToolDomain F SF J) :
  Forall (fun t => is_ok (mcp_tool_info t) = true) ts ->
  exists conn1 rm1, register_tools mcp_factory p ts conn rm = (conn1, rm1, Ok tt) /\
    availableTools_ conn1 = availableTools_ conn ++ ts /\ conn_config conn1 = conn_config conn /\
    forall n, HasTool n rm1 = true <-> n ∈ map ti_name ts \/ HasTool n rm = true.
Proof.
  intros Hts. revert conn rm; induction Hts as [|t ts Ht _ IH]; intros conn rm.
  { exists conn, rm. rewrite app_nil_r. split_and!; [done..|]. intros n. cbn. rewrite elem_of_nil. tauto. }
  cbn [register_tools]. destruct (mcp_tool_info t) as [info|]; [|done].
  destruct (IH (mkMCPConnection (conn_name conn) (conn_config conn) (connected_ conn) (availableTools_ conn ++ [t])
    (has_client conn)) (RegisterMcpTool (ti_name t) (mcp_factory info p) rm)) as (c1 & rm1 & E & Ha & Hc & Hn).
  exists c1, rm1. split; [done|]. rewrite Ha. cbn [availableTools_]. rewrite <- app_assoc. split_and!; [done..|].
  intros n. rewrite Hn. cbn [map]. rewrite elem_of_cons. unfold HasTool. cbn. rewrite lookup_insert.
  case_decide as Hd; [subst; tauto|]. split; [tauto | intros [[->|?]|?]; tauto].
Qed.

(** Connecting to an MCP server offers its tools.  When the server answers the
    handshake and lists tools with well-formed schemas, connecting sends [initialize]
    with id 1, the notification and [tools/list] with id 2, and nothing of the
    configured headers; it leaves the connection up with the listed tools in order, and
    the registry with exactly the tools it had and those, under the names listed. *)
Theorem connect_offers_tools (name : string) (config : MCPEndpointConfig) (ts : list (MCPToolInfo (J := J)))
    (x x3 : X) (p : nat) (conn : MCPConnection (J := J)) (st : McpState (F := F) (SF := SF) (J := J)) :
  ep_url config <> "" -> serves name config ts x x3 -> Forall (fun t => is_ok (mcp_tool_info t) = true) ts ->
  conns st !! p = Some conn -> connected_ conn = false -> conn_config conn = config -> transportType config <> STDIO ->
  exists c answer st1 conn1, handshake name config x = (c, x3, answer) /\
    Connect mcp_factory answer p st = (st1, Ok tt) /\ isInitialized_ c = true /\ nextRequestId_ c = 3 /\
    conns st1 !! p = Some conn1 /\ connected_ conn1 = true /\ availableTools_ conn1 = ts /\
    forall n, HasTool n (tools st1) = true <-> n ∈ map ti_name ts \/ HasTool n (tools st) = true.
Proof.
  intros Hu Hs Hts Hp Hnc Hconf Htr. destruct (handshake_answer name config ts x x3 Hu Hs) as (c & Eh & Hi & Hn & _).
  destruct (register_tools_all p ts (mkMCPConnection (conn_name conn) config false [] true) (tools st) Hts)
    as (conn1 & rm1 & Er & Ha & _ & Hnames).
  exists c, (Ok (true, ts)). unfold Connect. rewrite Hp, Hnc, Hconf.
  assert (p < length (conns st))%nat as Hlt by (by eapply lookup_lt_Some).
  destruct (transportType config) eqn:Et; [done|..]; rewrite Er; eexists _, _;
    (split_and!; [exact Eh | reflexivity | exact Hi | exact Hn | cbn; by apply list_lookup_insert_eq | done | exact Ha | exact Hnames]).
Qed.
End ClientFacts.

(** ** Witnesses *)

#[local] Instance ex_json0 : Json JsonTree.json := JsonTree.instance [].
#[local] Instance ex_laws : JsonLaws JsonTree.json := JsonTree.laws [] ltac:(by intros ? ?%elem_of_nil).

Lemma ex_parse (j : JsonTree.json) : json_parse (JsonTree.dump j) = Ok j.
Proof. cbn. by rewrite JsonTree.of_bits_bits, decode_encode. Qed.

Definition ex_tools : list (MCPToolInfo (J := JsonTree.json)) := [mkMCPToolInfo "find" "Finds" (j_object ∅)].
Definition ex_end : CallEnd := Finished true ["no "; "match"].
(** A server: the world counts its replies. *)
Definition ex_reply (n : nat) : string :=
  match n with
  | 0%nat => JsonTree.dump (j_object ∅)
  | 1%nat => ""
  | 2%nat => JsonTree.dump (listing_json 2 ex_tools)
  | _ => JsonTree.dump (end_json 3 ex_end)
  end.
#[local] Instance ex_curl : Curl nat := {|
  curl_handle := fun _ => true;
  curl_easy_perform := fun _ x => (S x, [ex_reply x], CURLE_OK, 200);
  curl_easy_strerror := fun _ => "";
  curl_easy_escape := fun s => s;
  curl_easy_unescape := Some;
  curl_elapse := fun x => x;
  random_upto := fun _ x => (x, 0);
  sleep_ms := fun _ x => x;
  logs_info := fun _ => false
|}.

Lemma ex_perform (req : CurlRequest) (x : nat) :
  PerformBody req x = (S x, mkCurlResponse 200 (ex_reply x) CURLE_OK false "").
Proof.
  unfold PerformBody, finish_transfer. cbn [curl_handle negb curl_easy_perform ex_curl].
  unfold string_concat. cbn [fold_right]. by rewrite str_app_nil_r.
Qed.

Definition ex_config : MCPEndpointConfig := mkMCPEndpointConfig "" [] "http://h/mcp" STREAMABLE_HTTP ∅ ∅ 3 10.
Definition ex_conn : MCPConnection (J := JsonTree.json) := mkMCPConnection "s" ex_config false [] false.
Definition ex_state : McpState (F := ToolInfo) (SF := ToolInfo) (J := JsonTree.json) :=
  mkMcpState empty_tools [ex_conn] ∅ ∅ ∅.

Lemma ex_delivers (j : JsonTree.json) (n : nat) :
  ex_reply n = JsonTree.dump j -> delivers j (mkCurlResponse 200 (ex_reply n) CURLE_OK false "").
Proof. intros E. split_and!; [done | done | cbn [rs_body]; by rewrite E | cbn [rs_body]; rewrite E; apply ex_parse]. Qed.

Lemma connect_offers_tools_witness :
  exists c answer st1, handshake "s" ex_config 0%nat = (c, 3%nat, answer) /\
    Connect (fun i _ => i) answer 0 ex_state = (st1, Ok tt) /\ HasTool "find" (tools st1) = true.
Proof.
  destruct (connect_offers_tools (fun i _ => i) "s" ex_config ex_tools 0%nat 3%nat 0 ex_conn ex_state)
    as (c & answer & st1 & conn1 & Eh & Ec & _ & _ & _ & _ & _ & Hn); [done| | |done..|].
  - eexists _, _, _, _, _, _, _, _, _.
    split_and!; [reflexivity | reflexivity | reflexivity | apply ex_perform | by apply ex_delivers | reflexivity
      | apply ex_perform | apply ex_perform | by apply ex_delivers].
  - by apply Forall_singleton.
  - exists c, answer, st1. split_and!; [exact Eh | exact Ec|]. apply Hn. left. cbn. left.
Defined.

Definition ex_client : MCPClient := mkMCPClient "s" "1.0.0" "http://h/mcp" 3 10 "" true [] 3 "".
Definition ex_arguments : JsonTree.json := j_fields [("q", j_string "x")].

Lemma mcp_call_output_witness :
  exists c1, MCPTool_Invoke (J := JsonTree.json) "find" (JsonTree.dump ex_arguments) (Some ex_client) 3%nat =
    (Some c1, 4%nat, Ok "MCP Tool Error: no match").
Proof.
  destruct (mcp_call_output (J := JsonTree.json) "find" (JsonTree.dump ex_arguments)
    (JsonTree.dump (rpc ex_client "tools/call" (j_fields [("name", j_string "find"); ("arguments", ex_arguments)])))
    ex_arguments ex_client 3%nat 4%nat (mkCurlResponse 200 (ex_reply 3) CURLE_OK false "") ex_end) as (c1 & E & _).
  - done.
  - done.
  - apply ex_parse.
  - reflexivity.
  - apply ex_perform.
  - by apply ex_delivers.
  - exists c1. exact E.
Defined.
