(* ===== verification/OpenAIModel.v ===== *)
(** * The OpenAI-compatible back end (src/models/openai_model.cpp)

    The request body, and the decoder of the server-sent events: text fragments,
    tool calls assembled by index, and the finish reason.  Output to the caller's
    [onChunk] is the list of chunks a call returns. *)
From Stdlib Require Import ZArith Lia String Ascii List Floats.SpecFloat.
From stdpp Require Import base decidable list sorting strings gmap sets.
From S2P Require Import Prelude Encoding Types JsonLib JsonStorage ContextEngine ContextEngineFacts ResourceManager TurnState Transport.
Open Scope Z_scope.

(** ** Extra parameters (include/config_node.h)

    [GetPtr<T>] per alternative; [GetValue] is used where it is not null. *)

Definition GetPtr_int (key : string) (n : ConfigNode) : option Z :=
  match fields_ n !! key with Some (CVInt z) => Some z | _ => None end.
Definition GetPtr_float (key : string) (n : ConfigNode) : option spec_float :=
  match fields_ n !! key with Some (CVFloat f) => Some f | _ => None end.
Definition GetPtr_bool (key : string) (n : ConfigNode) : option bool :=
  match fields_ n !! key with Some (CVBool b) => Some b | _ => None end.

Section Format.
Context {J : Type} `{Json J}.

Definition ToolsArrayJson (tools : list (ToolSchema J)) : J :=
  j_array
    (map (fun t => j_fields
       [("type", j_string "function");
        ("function", j_fields [("name", j_string (ts_name t)); ("description", j_string (ts_description t));
                               ("parameters", ts_parameters t)])]) tools).

(** The catalogue of the fallback mode. *)
Fixpoint tool_texts (tools : list (ToolSchema J)) : outcome string :=
  match tools with
  | [] => Ok ""
  | t :: tools =>
      params <-- json_dump (Some 2%nat) (ts_parameters t) ;;
      rest <-- tool_texts tools ;;
      Ok ("## " +:+ ts_name t +:+ nl +:+ ts_description t +:+ nl
          +:+ "Parameters JSON Schema:" +:+ nl +:+ params +:+ nl +:+ nl +:+ rest)
  end.

Definition ToolsAsTextSchema (tools : list (ToolSchema J)) : outcome string :=
  match tools with
  | [] => Ok ""
  | _ =>
      texts <-- tool_texts tools ;;
      Ok (nl +:+ nl +:+ "# Available tools" +:+ nl
          +:+ "When you need to call a tool, output a JSON object exactly of the form:" +:+ nl
          +:+ "  {" +:+ dq +:+ "name" +:+ dq +:+ ": " +:+ dq +:+ "<tool>" +:+ dq +:+ ", "
          +:+ dq +:+ "arguments" +:+ dq +:+ ": { ... }}" +:+ nl
          +:+ "Do not wrap it in code fences. After receiving the Observation, decide whether to call more tools or produce a final answer."
          +:+ nl +:+ nl +:+ texts)
  end.

(** *** Pairing statistics *)

Record ToolPairingStats := mkToolPairingStats {
  assistantToolCalls : Z;
  toolResults : Z;
  missingIds : Z;
  orphanToolResults : Z;
  orphanToolCalls : Z
}.

(** The counters and the two id sets of the first loop. *)
Record pairing := mkPairing {
  pa_calls : Z;
  pa_results : Z;
  pa_missing : Z;
  callIds : gset string;
  resultIds : gset string
}.
Definition no_pairing : pairing := mkPairing 0 0 0 ∅ ∅.

Definition count_call (id : string) (p : pairing) : pairing :=
  if str_empty id
  then mkPairing (pa_calls p + 1) (pa_results p) (pa_missing p + 1) (callIds p) (resultIds p)
  else mkPairing (pa_calls p + 1) (pa_results p) (pa_missing p) ({[id]} ∪ callIds p) (resultIds p).
Definition count_result (id : string) (p : pairing) : pairing :=
  if str_empty id
  then mkPairing (pa_calls p) (pa_results p + 1) (pa_missing p + 1) (callIds p) (resultIds p)
  else mkPairing (pa_calls p) (pa_results p + 1) (pa_missing p) (callIds p) ({[id]} ∪ resultIds p).

Fixpoint count_calls (tcs : list J) (p : pairing) : outcome pairing :=
  match tcs with
  | [] => Ok p
  | tc :: tcs => id <-- value_string "id" "" tc ;; count_calls tcs (count_call id p)
  end.

Definition pair_message (msg : J) (p : pairing) : outcome pairing :=
  role <-- value_string "role" "" msg ;;
  match array_field "tool_calls" msg with
  | Some tcs =>
      if String.eqb role "assistant" then count_calls tcs p
      else if String.eqb role "tool"
           then id <-- value_string "tool_call_id" "" msg ;; Ok (count_result id p) else Ok p
  | None =>
      if String.eqb role "tool"
      then id <-- value_string "tool_call_id" "" msg ;; Ok (count_result id p) else Ok p
  end.

Fixpoint pair_messages (msgs : list J) (p : pairing) : outcome pairing :=
  match msgs with
  | [] => Ok p
  | msg :: msgs => p1 <-- pair_message msg p ;; pair_messages msgs p1
  end.

Definition ValidateToolPairing (msgs : list J) : outcome ToolPairingStats :=
  p <-- pair_messages msgs no_pairing ;;
  Ok (mkToolPairingStats (pa_calls p) (pa_results p) (pa_missing p)
        (Z.of_nat (size (resultIds p ∖ callIds p))) (Z.of_nat (size (callIds p ∖ resultIds p)))).

(** *** Messages *)

Definition role_content (role content : string) : J :=
  j_fields [("role", j_string role); ("content", j_string content)].

Definition native_call (tc : ToolCall) : J :=
  j_fields [("id", j_string (tc_id tc)); ("type", j_string "function");
            ("function", j_fields [("name", j_string (tc_name tc));
                                   ("arguments", j_string (tc_argumentsJson tc))])].

Definition native_assistant (content : string) (calls : list ToolCall) : J :=
  j_fields [("role", j_string "assistant"); ("content", j_string content);
            ("tool_calls", j_array (map native_call calls))].

Definition native_tool (toolCallId content : string) : J :=
  j_fields [("role", j_string "tool"); ("tool_call_id", j_string toolCallId); ("content", j_string content)].

(** A call as the text of the fallback mode. *)
Definition call_text (tc : ToolCall) : outcome string :=
  json_dump None
    (j_fields [("name", j_string (tc_name tc));
               ("arguments", match json_parse (tc_argumentsJson tc) with
                             | Ok j => j | Throw _ => j_string (tc_argumentsJson tc) end)]).
Fixpoint calls_text (calls : list ToolCall) : outcome string :=
  match calls with
  | [] => Ok ""
  | tc :: calls => t <-- call_text tc ;; rest <-- calls_text calls ;; Ok (t +:+ nl +:+ rest)
  end.

(** A tool result of the fallback mode joins a user message before it. *)
Definition push_observation (msgs : list J) (observation : string) : outcome (list J) :=
  match last msgs with
  | None => Ok (msgs ++ [role_content "user" observation])
  | Some back =>
      role <-- value_string "role" "" back ;;
      if String.eqb role "user" then
        prev <-- value_string "content" "" back ;;
        let merged := if str_empty prev then observation else prev +:+ nl +:+ nl +:+ observation in
        Ok (take (length msgs - 1) msgs ++
            [match json_view back with
             | JObject m => j_object (<["content" := j_string merged]> m) | _ => back end])
      else Ok (msgs ++ [role_content "user" observation])
  end.

Definition format_message (useNative : bool) (msgs : list J) (m : Message) : outcome (list J) :=
  let contentFixed := FixStringUTF8 (m_content m) in
  if String.eqb (m_role m) "assistant" then
    match m_toolCalls m with
    | [] => Ok (msgs ++ [role_content "assistant" contentFixed])
    | calls =>
        if useNative then Ok (msgs ++ [native_assistant contentFixed calls])
        else
          t <-- calls_text calls ;;
          Ok (msgs ++ [role_content "assistant"
                         ((if str_empty contentFixed then "" else contentFixed +:+ nl) +:+ t)])
    end
  else if String.eqb (m_role m) "tool" then
    if useNative then Ok (msgs ++ [native_tool (m_toolCallId m) contentFixed])
    else push_observation msgs ("Observation:" +:+ nl +:+ contentFixed)
  else Ok (msgs ++ [role_content (m_role m) contentFixed]).

Fixpoint format_messages (useNative : bool) (msgs : list J) (l : list Message) : outcome (list J) :=
  match l with
  | [] => Ok msgs
  | m :: l => msgs1 <-- format_message useNative msgs m ;; format_messages useNative msgs1 l
  end.

(** *** The body *)

Definition extra_field {A} (make : A -> J) (key : string) (v : option A) : list (string * J) :=
  match v with Some a => [(key, make a)] | None => [] end.

Definition extra_fields (useNative : bool) (ep : ConfigNode) : list (string * J) :=
  (if useNative then extra_field j_bool "parallel_tool_calls" (GetPtr_bool "parallel_tool_calls" ep) else [])
  ++ extra_field j_int "max_tokens" (GetPtr_int "max_tokens" ep)
  ++ extra_field j_float "temperature" (GetPtr_float "temperature" ep)
  ++ extra_field j_float "top_p" (GetPtr_float "top_p" ep)
  ++ extra_field j_float "presence_penalty" (GetPtr_float "presence_penalty" ep)
  ++ extra_field j_float "frequency_penalty" (GetPtr_float "frequency_penalty" ep)
  ++ extra_field j_int "seed" (GetPtr_int "seed" ep).

Definition request_messages (config_ : ModelConfig) (systemPrompt : string) (messages : list Message)
    (tools : list (ToolSchema J)) : outcome (list J) :=
  let useNative := useNativeFunctionCalling config_ in
  sys <-- (match tools with
           | [] => Ok systemPrompt
           | _ => if useNative then Ok systemPrompt
                  else t <-- ToolsAsTextSchema tools ;; Ok (systemPrompt +:+ t)
           end) ;;
  format_messages useNative (if str_empty sys then [] else [role_content "system" sys]) messages.

Definition Format (config_ : ModelConfig) (systemPrompt : string) (messages : list Message)
    (tools : list (ToolSchema J)) : outcome string :=
  let useNative := useNativeFunctionCalling config_ in
  msgs <-- request_messages config_ systemPrompt messages tools ;;
  stats <-- (if useNative then s <-- ValidateToolPairing msgs ;; Ok (Some s) else Ok None) ;;
  json_dump None
    (j_fields
       ([("model", j_string (modelName config_)); ("stream", j_bool true); ("messages", j_array msgs)]
        ++ (match tools with [] => [] | _ => if useNative then [("tools", ToolsArrayJson tools)] else [] end)
        ++ extra_fields useNative (extraParams config_))).
End Format.

(** ** The stream *)

Record PartialToolCall := mkPartialToolCall {
  pt_id : string;
  pt_name : string;
  pt_argumentsJson : string
}.
Definition empty_slot : PartialToolCall := mkPartialToolCall "" "" "".

Record StreamContext := mkStreamContext {
  fullText : string;
  buffer : string;
  finishReason : string;
  finished : bool;
  partialToolCalls : gmap Z PartialToolCall
}.
Definition initial_context : StreamContext := mkStreamContext "" "" "" false ∅.

Definition set_buffer (b : string) (ctx : StreamContext) : StreamContext :=
  mkStreamContext (fullText ctx) b (finishReason ctx) (finished ctx) (partialToolCalls ctx).
Definition add_text (t : string) (ctx : StreamContext) : StreamContext :=
  mkStreamContext (fullText ctx +:+ t) (buffer ctx) (finishReason ctx) (finished ctx) (partialToolCalls ctx).
Definition set_finished (ctx : StreamContext) : StreamContext :=
  mkStreamContext (fullText ctx) (buffer ctx) (finishReason ctx) true (partialToolCalls ctx).
Definition set_reason (r : string) (ctx : StreamContext) : StreamContext :=
  mkStreamContext (fullText ctx) (buffer ctx) r true (partialToolCalls ctx).
Definition set_slot (i : Z) (p : PartialToolCall) (ctx : StreamContext) : StreamContext :=
  mkStreamContext (fullText ctx) (buffer ctx) (finishReason ctx) (finished ctx) (<[i := p]> (partialToolCalls ctx)).

Section Stream.
Context {J : Type} `{Json J}.

(** One entry of delta.tool_calls. *)
Definition merge_slot (tc : J) (slot : PartialToolCall) : PartialToolCall :=
  let id := default (pt_id slot) (string_field "id" tc) in
  match jfield "function" tc with
  | Some fn =>
      mkPartialToolCall id (pt_name slot +:+ default "" (string_field "name" fn))
        (pt_argumentsJson slot +:+ default "" (string_field "arguments" fn))
  | None => mkPartialToolCall id (pt_name slot) (pt_argumentsJson slot)
  end.

Fixpoint tool_deltas (tcs : list J) (ctx : StreamContext) : StreamContext * outcome unit :=
  match tcs with
  | [] => (ctx, Ok tt)
  | tc :: tcs =>
      match value_int "index" 0 tc with
      | Throw e => (ctx, Throw e)
      | Ok idx =>
          let slot := default empty_slot (partialToolCalls ctx !! idx) in
          tool_deltas tcs (set_slot idx (merge_slot tc slot) ctx)
      end
  end.

(** choices[0].delta: the text fragment is forwarded before the tool calls are
    looked at. *)
Definition apply_delta (delta : J) (ctx : StreamContext) : StreamContext * list string * outcome unit :=
  let '(ctx1, chunks) :=
    match string_field "content" delta with
    | Some content => if str_empty content then (ctx, []) else (add_text content ctx, [content])
    | None => (ctx, [])
    end in
  match array_field "tool_calls" delta with
  | Some tcs => let '(ctx2, r) := tool_deltas tcs ctx1 in (ctx2, chunks, r)
  | None => (ctx1, chunks, Ok tt)
  end.

Definition apply_choice (choice : J) (ctx : StreamContext) : StreamContext * list string :=
  let '(ctx1, chunks, r) :=
    match jfield "delta" choice with Some delta => apply_delta delta ctx | None => (ctx, [], Ok tt) end in
  match r with
  | Throw _ => (ctx1, chunks)
  | Ok _ =>
      match jfield "finish_reason" choice with
      | Some v =>
          if is_null v then (ctx1, chunks)
          else match get_string v with Ok s => (set_reason s ctx1, chunks) | Throw _ => (ctx1, chunks) end
      | None => (ctx1, chunks)
      end
  end.

(** One complete line; every exception is caught. *)
Definition sse_line (line : string) (ctx : StreamContext) : StreamContext * list string :=
  if negb (starts_with "data: " line) then (ctx, [])
  else
    let dataStr := str_drop 6 line in
    if String.eqb dataStr "[DONE]" then (set_finished ctx, [])
    else
      match json_parse dataStr with
      | Throw _ => (ctx, [])
      | Ok data =>
          match array_field "choices" data with
          | Some (choice :: _) => apply_choice choice ctx
          | _ => (ctx, [])
          end
      end.

Fixpoint sse_lines (lines : list string) (ctx : StreamContext) : StreamContext * list string :=
  match lines with
  | [] => (ctx, [])
  | l :: lines =>
      let '(ctx1, c1) := sse_line l ctx in let '(ctx2, c2) := sse_lines lines ctx1 in (ctx2, c1 ++ c2)
  end.

(** [ProcessSSEChunk]: the complete lines of the buffer, whose rest is kept. *)
Definition ProcessSSEChunk (ctx : StreamContext) (data : string) : StreamContext * list string :=
  let '(lines, rest) := take_lines "" (buffer ctx +:+ data) in
  let '(ctx1, chunks) := sse_lines lines ctx in (set_buffer rest ctx1, chunks).

(** The blocks of a transfer, one after the other. *)
Fixpoint process_chunks (chunks : list string) (ctx : StreamContext) : StreamContext * list string :=
  match chunks with
  | [] => (ctx, [])
  | c :: chunks =>
      let '(ctx1, c1) := ProcessSSEChunk ctx c in
      let '(ctx2, c2) := process_chunks chunks ctx1 in (ctx2, c1 ++ c2)
  end.
End Stream.

(** The assembled calls in the order of their indices. *)
Definition sorted_slots (m : gmap Z PartialToolCall) : list PartialToolCall :=
  omap (fun i => m !! i) (merge_sort Z.le (elements (dom m))).
Definition slot_call (p : PartialToolCall) : ToolCall :=
  mkToolCall (pt_id p) (pt_name p) (if str_empty (pt_argumentsJson p) then "{}" else pt_argumentsJson p).

(** ** The call *)

Section Invoke.
Context {J : Type} `{Json J} {X : Type} `{Curl X}.
Variable config_ : ModelConfig.
Variable shouldCancel : X -> bool.

(** The callback of the transfer: the context, the streamed chunks and whether
    the call was cancelled. *)
Definition on_chunk (stream : bool) (s : StreamContext * list string * bool) (data : string) (x : X)
    : (StreamContext * list string * bool) * X * bool :=
  let '(ctx, out, cancelled) := s in
  let '(ctx1, chunks) := ProcessSSEChunk (J := J) ctx data in
  let out1 := if stream then out ++ chunks else out in
  if shouldCancel x then ((ctx1, out1, true), x, false) else ((ctx1, out1, cancelled), x, true).

Definition chat_request (formattedInput : string) : CurlRequest :=
  plain_request (baseUrl config_ +:+ "/chat/completions")
    ["Content-Type: application/json"; "Authorization: Bearer " +:+ apiKey config_] formattedInput.

Definition stream_response (ctx : StreamContext) (resp : CurlResponse) : ModelResponse :=
  if isCurlError resp then
    mkModelResponse ("Error: " +:+ curlErrorStr resp) [] true "error"
      (IsRetryableCurlError (curlCode resp)) None
  else if 400 <=? statusCode resp then
    mkModelResponse
      (if str_empty (fullText ctx) then "Error: HTTP " +:+ to_string (statusCode resp) else fullText ctx)
      [] true "error" (IsRetryableHttpStatus (statusCode resp)) (Some (statusCode resp))
  else
    mkModelResponse (fullText ctx)
      (if useNativeFunctionCalling config_ then map slot_call (sorted_slots (partialToolCalls ctx)) else [])
      true (if str_empty (finishReason ctx) then "stop" else finishReason ctx) false
      (Some (statusCode resp)).

Definition DoInvokeOnce (formattedInput : string) (stream : bool) (x : X) : X * list string * ModelResponse :=
  let '(s, x1, resp) :=
    PostStream (chat_request formattedInput) (on_chunk stream) (initial_context, [], false) x in
  let '(ctx, out, cancelled) := s in
  (x1, out,
   if cancelled then mkModelResponse (fullText ctx) [] true "cancelled" false None
   else stream_response ctx resp).

Definition Invoke (formattedInput : string) (x : X) : X * list string * res ModelResponse :=
  invoke_attempts shouldCancel (DoInvokeOnce formattedInput) (retryPolicy config_) x.
End Invoke.

(** ** Facts *)

Section StreamFacts.
Context {J : Type} `{JsonLaws J}.

(** *** Blocks and lines *)

Local Notation keeps_buffer f :=
  (forall b ctx, f (set_buffer b ctx) = (set_buffer b (f ctx).1, (f ctx).2)).

Lemma tool_deltas_buffer (tcs : list J) : keeps_buffer (tool_deltas tcs).
Proof.
  induction tcs as [|tc tcs IH]; intros b ctx; cbn; [done|].
  destruct (value_int "index" 0 tc) as [idx|]; [|done]. apply (IH b (set_slot _ _ ctx)).
Qed.

Lemma sse_line_buffer (l : string) : keeps_buffer (sse_line (J := J) l).
Proof.
  intros b ctx. unfold sse_line. destruct (negb _); [done|]. destruct (String.eqb _ _); [done|].
  destruct (json_parse _) as [data|]; [|done]. destruct (array_field _ data) as [[|choice l']|]; try done.
  unfold apply_choice. destruct (jfield "delta" choice) as [delta|].
  - unfold apply_delta. destruct (string_field "content" delta) as [c|];
      [destruct (str_empty c)|]; destruct (array_field "tool_calls" delta) as [tcs|];
      rewrite ?(tool_deltas_buffer tcs b (add_text c ctx)), ?(tool_deltas_buffer tcs b ctx);
      try change (add_text c (set_buffer b ctx)) with (set_buffer b (add_text c ctx));
      rewrite ?tool_deltas_buffer; repeat case_match; by simplify_eq/=.
  - repeat case_match; by simplify_eq/=.
Qed.

Lemma sse_lines_buffer (ls : list string) : keeps_buffer (sse_lines (J := J) ls).
Proof.
  induction ls as [|l ls IH]; intros b ctx; [done|]. cbn [sse_lines]. rewrite sse_line_buffer.
  destruct (sse_line l ctx) as [ctx1 c1]. cbn. rewrite IH. by destruct (sse_lines ls ctx1).
Qed.

Lemma sse_lines_app (a b : list string) ctx :
  sse_lines (J := J) (a ++ b) ctx =
  let '(ctx1, c1) := sse_lines a ctx in let '(ctx2, c2) := sse_lines b ctx1 in (ctx2, c1 ++ c2).
Proof.
  revert ctx; induction a as [|l a IH]; intros ctx; [cbn; by destruct (sse_lines b ctx)|].
  cbn [app sse_lines]. destruct (sse_line l ctx) as [ctx1 c1]. rewrite IH.
  destruct (sse_lines a ctx1) as [ctx2 c2]. destruct (sse_lines b ctx2) as [ctx3 c3].
  by rewrite app_assoc.
Qed.

(** How the bytes are cut into blocks does not matter. *)
Lemma process_chunks_concat (chunks : list string) (ctx : StreamContext) :
  occurs NL (buffer ctx) = false ->
  process_chunks (J := J) chunks ctx = ProcessSSEChunk ctx (string_concat chunks).
Proof.
  revert ctx; induction chunks as [|c chunks IH]; intros ctx Hb; cbn [process_chunks].
  - unfold ProcessSSEChunk. cbn [string_concat fold_right].
    rewrite str_app_nil_r, take_lines_none by done. by destruct ctx.
  - change (string_concat (c :: chunks)) with (c +:+ string_concat chunks).
    unfold ProcessSSEChunk.
    rewrite <- str_app_assoc, (take_lines_app "" (buffer ctx +:+ c) (string_concat chunks)).
    pose proof (take_lines_rest "" (buffer ctx +:+ c) eq_refl) as Hr.
    destruct (take_lines "" (buffer ctx +:+ c)) as [l1 r1]. cbn in Hr.
    destruct (sse_lines l1 ctx) as [ctx1 c1] eqn:E1. cbn beta iota. rewrite IH by done.
    unfold ProcessSSEChunk. cbn [buffer set_buffer]. rewrite take_lines_app, take_lines_none by done.
    cbn [app]. change ("" +:+ r1) with r1.
    destruct (take_lines r1 (string_concat chunks)) as [l2 r2].
    rewrite sse_lines_app, E1, sse_lines_buffer. by destruct (sse_lines l2 ctx1).
Qed.

(** *** What a server sends

    A response as the protocol streams it: fragments of text, then for each call
    an event with its id and name and the fragments of its arguments, then the
    finish reason. *)

Record Reply := mkReply {
  rp_texts : list string;
  rp_calls : list (string * string * list string);
  rp_reason : string
}.

Definition choice_event (fields : list (string * J)) : J :=
  j_fields [("choices", j_array [j_fields fields])].
Definition delta_event (fields : list (string * J)) : J := choice_event [("delta", j_fields fields)].
Definition text_event (t : string) : J := delta_event [("content", j_string t)].
Definition call_event (i : Z) (id name : string) : J :=
  delta_event [("tool_calls", j_array [j_fields
    [("index", j_int i); ("id", j_string id); ("type", j_string "function");
     ("function", j_fields [("name", j_string name); ("arguments", j_string "")])]])].
Definition args_event (i : Z) (fragment : string) : J :=
  delta_event [("tool_calls", j_array [j_fields
    [("index", j_int i); ("function", j_fields [("arguments", j_string fragment)])]])].
Definition finish_event (reason : string) : J :=
  choice_event [("delta", j_fields []); ("finish_reason", j_string reason)].

Fixpoint call_events (i : Z) (calls : list (string * string * list string)) : list J :=
  match calls with
  | [] => []
  | (id, name, fragments) :: calls =>
      call_event i id name :: map (args_event i) fragments ++ call_events (i + 1) calls
  end.

Definition reply_events (r : Reply) : list J :=
  map text_event (rp_texts r) ++ call_events 0 (rp_calls r) ++ [finish_event (rp_reason r)].

Definition done_line : string := "data: [DONE]" +:+ nl +:+ nl.

(** Each event on a line of its own, followed by an empty one. *)
Fixpoint event_stream (events : list J) : outcome string :=
  match events with
  | [] => Ok done_line
  | e :: events =>
      line <-- json_dump None e ;; rest <-- event_stream events ;;
      Ok ("data: " +:+ line +:+ nl +:+ nl +:+ rest)
  end.

(** The lines of a stream, event by event. *)
Fixpoint run_events (events : list J) (ctx : StreamContext) : StreamContext * list string :=
  match events with
  | [] => (set_finished ctx, [])
  | e :: events =>
      let '(ctx1, c1) := match array_field "choices" e with
                         | Some (choice :: _) => apply_choice choice ctx | _ => (ctx, []) end in
      let '(ctx2, c2) := run_events events ctx1 in (ctx2, c1 ++ c2)
  end.

Lemma sse_event_line e line ctx :
  json_plain e -> json_dump None e = Ok line -> is_ok (json_parse (J := J) "[DONE]") = false ->
  sse_line (J := J) ("data: " +:+ line) ctx =
  match array_field "choices" e with Some (choice :: _) => apply_choice choice ctx | _ => (ctx, []) end.
Proof.
  intros Hp Hd Hdone. unfold sse_line. rewrite starts_with_app. cbn [negb].
  change 6%nat with (String.length "data: "). rewrite str_drop_app. destruct (String.eqb_spec line "[DONE]") as [->|_].
  { by rewrite (parse_dump _ _ _ Hp Hd) in Hdone. }
  by rewrite (parse_dump _ _ _ Hp Hd).
Qed.

Lemma event_stream_run events text ctx :
  Forall json_plain events -> event_stream events = Ok text ->
  is_ok (json_parse (J := J) "[DONE]") = false ->
  sse_lines (take_lines "" text).1 ctx = run_events events ctx /\ (take_lines "" text).2 = "".
Proof.
  intros Hp E Hdone. revert text ctx E; induction Hp as [|e events He _ IH]; intros text ctx E.
  - cbn in E. injection E as <-. split; [|done]. cbn. by destruct ctx.
  - cbn [event_stream] in E. destruct (json_dump None e) as [line|] eqn:Ed; [|done].
    cbn [obind] in E. destruct (event_stream events) as [rest|] eqn:Er; [|done].
    assert (("data: " +:+ line) +:+ nl +:+ nl +:+ rest = text) as <-
      by (cbn [obind] in E; rewrite str_app_assoc; congruence).
    clear E. destruct (dump_one_line _ _ Ed) as [_ Hl]. destruct (IH rest) with (ctx := ctx) as [_ Hrest]; [done|].
    assert (take_lines "" (("data: " +:+ line) +:+ nl +:+ nl +:+ rest)
            = (("data: " +:+ line) :: "" :: (take_lines "" rest).1, (take_lines "" rest).2)) as Et.
    { rewrite take_lines_line by (rewrite occurs_app, Hl; done).
      change (nl +:+ rest) with ("" +:+ nl +:+ rest). rewrite (take_lines_line "" "" rest) by done.
      by destruct (take_lines "" rest). }
    rewrite Et. split; [|done]. cbn [fst sse_lines run_events].
    rewrite (sse_event_line e line ctx He Ed Hdone). destruct (match array_field _ _ with Some _ => _ | None => _ end) as [ctx1 c1].
    change (sse_line "" ctx1) with (ctx1, @nil string). cbn beta iota.
    rewrite (proj1 (IH rest ctx1 eq_refl)). by destruct (run_events events ctx1).
Qed.

Ltac fields := rewrite ?jfield_j_fields, ?string_field_j_fields, ?array_field_j_fields,
  ?value_int_j_fields; cbn [assoc_last String.eqb Ascii.eqb Bool.eqb];
  rewrite ?view_j_string, ?view_j_array, ?view_j_int.

Lemma run_events_cons e fs events ctx :
  e = choice_event fs ->
  run_events (e :: events) ctx =
  let '(ctx1, c1) := apply_choice (j_fields fs) ctx in
  let '(ctx2, c2) := run_events events ctx1 in (ctx2, c1 ++ c2).
Proof. intros ->. cbn [run_events]. unfold choice_event. by fields. Qed.

Lemma apply_text t ctx :
  apply_choice (j_fields [("delta", j_fields [("content", j_string t : J)])]) ctx =
  (add_text t ctx, if str_empty t then [] else [t]).
Proof.
  unfold apply_choice. fields. unfold apply_delta. fields.
  destruct (str_empty t) eqn:Et; [|done]. apply str_empty_spec in Et. subst.
  unfold add_text. rewrite str_app_nil_r. by destruct ctx.
Qed.

Lemma apply_call i id name ctx :
  is_int i -> partialToolCalls ctx !! i = None ->
  apply_choice (j_fields [("delta", j_fields [("tool_calls", j_array [j_fields
    [("index", j_int i); ("id", j_string id); ("type", j_string "function");
     ("function", j_fields [("name", j_string name); ("arguments", j_string "" : J)])]])])]) ctx =
  (set_slot i (mkPartialToolCall id name "") ctx, []).
Proof.
  intros Hi Hn. unfold apply_choice. fields. unfold apply_delta. fields. cbn [tool_deltas]. fields.
  rewrite get_int_j_int by done. unfold merge_slot. fields. fields. cbn [default]. rewrite Hn. done.
Qed.

Lemma apply_args i f p ctx :
  is_int i -> partialToolCalls ctx !! i = Some p ->
  apply_choice (j_fields [("delta", j_fields [("tool_calls", j_array [j_fields
    [("index", j_int i); ("function", j_fields [("arguments", j_string f : J)])]])])]) ctx =
  (set_slot i (mkPartialToolCall (pt_id p) (pt_name p) (pt_argumentsJson p +:+ f)) ctx, []).
Proof.
  intros Hi Hn. unfold apply_choice. fields. unfold apply_delta. fields. cbn [tool_deltas]. fields.
  rewrite get_int_j_int by done. unfold merge_slot. fields. fields. cbn [default].
  by rewrite Hn, str_app_nil_r.
Qed.

Lemma apply_finish r ctx :
  apply_choice (j_fields [("delta", j_fields []); ("finish_reason", j_string r : J)]) ctx =
  (set_reason r ctx, []).
Proof.
  unfold apply_choice. fields. unfold apply_delta. fields. unfold is_null. rewrite view_j_string.
  by rewrite get_string_j_string.
Qed.

Lemma run_texts ts events ctx :
  run_events (map text_event ts ++ events) ctx =
  let '(ctx2, c2) := run_events events (add_text (string_concat ts) ctx) in
  (ctx2, List.filter (fun t => negb (str_empty t)) ts ++ c2).
Proof.
  revert ctx; induction ts as [|t ts IH]; intros ctx.
  - cbn [map app]. unfold add_text. cbn [string_concat fold_right]. rewrite str_app_nil_r.
    destruct ctx. cbn. by destruct (run_events events _).
  - cbn [map app]. erewrite run_events_cons by reflexivity. rewrite apply_text, IH.
    unfold add_text at 1. cbn [fullText add_text].
    change (string_concat (t :: ts)) with (t +:+ string_concat ts). unfold add_text.
    cbn [fullText buffer finishReason finished partialToolCalls]. rewrite str_app_assoc.
    destruct (run_events events _) as [ctx2 c2]. cbn [List.filter]. by destruct (str_empty t).
Qed.

(** The slots hold the calls of a list, by index. *)
Definition holds (m : gmap Z PartialToolCall) (l : list PartialToolCall) : Prop :=
  forall i, m !! i = if 0 <=? i then l !! Z.to_nat i else None.

Lemma holds_snoc m l p : holds m l -> holds (<[Z.of_nat (length l) := p]> m) (l ++ [p]).
Proof.
  intros Hm i. destruct (decide (i = Z.of_nat (length l))) as [->|Hne].
  - rewrite lookup_insert_eq. destruct (Z.leb_spec 0 (Z.of_nat (length l))); [|lia].
    by rewrite Nat2Z.id, list_lookup_middle.
  - rewrite lookup_insert_ne, Hm by done. destruct (Z.leb_spec 0 i); [|done].
    destruct (decide (Z.to_nat i < length l)%nat); [by rewrite lookup_app_l|].
    rewrite lookup_ge_None_2 by lia. symmetry. apply lookup_ge_None_2. rewrite length_app. cbn. lia.
Qed.

Lemma holds_last m l p q :
  holds m (l ++ [p]) -> holds (<[Z.of_nat (length l) := q]> m) (l ++ [q]).
Proof.
  intros Hm i. destruct (decide (i = Z.of_nat (length l))) as [->|Hne].
  - rewrite lookup_insert_eq. destruct (Z.leb_spec 0 (Z.of_nat (length l))); [|lia].
    by rewrite Nat2Z.id, list_lookup_middle.
  - rewrite lookup_insert_ne, Hm by done. destruct (Z.leb_spec 0 i); [|done].
    destruct (decide (Z.to_nat i < length l)%nat); [by rewrite !lookup_app_l|].
    rewrite !lookup_ge_None_2; [done | rewrite length_app; cbn; lia..].
Qed.

Lemma holds_lookup_last m l p : holds m (l ++ [p]) -> m !! Z.of_nat (length l) = Some p.
Proof.
  intros Hm. rewrite Hm. destruct (Z.leb_spec 0 (Z.of_nat (length l))); [|lia].
  by rewrite Nat2Z.id, list_lookup_middle.
Qed.

(** What stays the same while calls are assembled. *)
Definition same_text (ctx ctx' : StreamContext) : Prop :=
  fullText ctx' = fullText ctx /\ finishReason ctx' = finishReason ctx.

Lemma run_args l p fs events ctx :
  holds (partialToolCalls ctx) (l ++ [p]) -> is_int (Z.of_nat (length l)) ->
  exists ctx', run_events (map (args_event (Z.of_nat (length l))) fs ++ events) ctx = run_events events ctx' /\
    holds (partialToolCalls ctx')
      (l ++ [mkPartialToolCall (pt_id p) (pt_name p) (pt_argumentsJson p +:+ string_concat fs)]) /\
    same_text ctx ctx'.
Proof.
  revert p ctx; induction fs as [|f fs IH]; intros p ctx Hh Hi.
  - exists ctx. cbn [string_concat fold_right]. rewrite str_app_nil_r. split_and!; try done. by destruct p.
  - cbn [map app]. erewrite run_events_cons by reflexivity.
    rewrite (apply_args _ _ p) by (done || by apply holds_lookup_last).
    destruct (IH (mkPartialToolCall (pt_id p) (pt_name p) (pt_argumentsJson p +:+ f))
      (set_slot (Z.of_nat (length l)) (mkPartialToolCall (pt_id p) (pt_name p) (pt_argumentsJson p +:+ f)) ctx))
      as (ctx' & E & Hh' & Hs); [by eapply holds_last | done|].
    exists ctx'. rewrite E. cbn in Hh'. split; [by destruct (run_events events ctx')|]. split; [|done].
    change (string_concat (f :: fs)) with (f +:+ string_concat fs). by rewrite <- str_app_assoc.
Qed.

(** The slot a call of the reply fills. *)
Definition slot_of (c : string * string * list string) : PartialToolCall :=
  let '(id, name, fragments) := c in mkPartialToolCall id name (string_concat fragments).

Lemma run_call_events l calls events ctx :
  holds (partialToolCalls ctx) l -> Z.of_nat (length l + length calls) < 2 ^ 31 ->
  exists ctx', run_events (call_events (Z.of_nat (length l)) calls ++ events) ctx = run_events events ctx' /\
    holds (partialToolCalls ctx') (l ++ map slot_of calls) /\ same_text ctx ctx'.
Proof.
  revert l ctx; induction calls as [|[[id name] fs] calls IH]; intros l ctx Hh Hlt.
  - exists ctx. cbn. rewrite app_nil_r. split_and!; done.
  - cbn [call_events app]. assert (is_int (Z.of_nat (length l))) as Hi by (unfold is_int; cbn in Hlt; lia).
    erewrite run_events_cons by reflexivity. rewrite apply_call; [| done |].
    2: { rewrite Hh. destruct (Z.leb_spec 0 (Z.of_nat (length l))); [|lia].
         rewrite Nat2Z.id. by apply lookup_ge_None_2. }
    rewrite <- app_assoc.
    destruct (run_args l (mkPartialToolCall id name "") fs
      (call_events (Z.of_nat (length l) + 1) calls ++ events)
      (set_slot (Z.of_nat (length l)) (mkPartialToolCall id name "") ctx)) as (ctx1 & E1 & Hh1 & Hs1);
      [by apply holds_snoc | done|].
    rewrite E1. cbn [pt_id pt_name pt_argumentsJson] in Hh1.
    change ("" +:+ string_concat fs) with (string_concat fs) in Hh1.
    destruct (IH (l ++ [mkPartialToolCall id name (string_concat fs)]) ctx1 Hh1) as (ctx2 & E2 & Hh2 & Hs2);
      [rewrite length_app; cbn in *; lia|].
    exists ctx2. rewrite length_app in E2. cbn [length] in E2.
    replace (Z.of_nat (length l + 1)) with (Z.of_nat (length l) + 1) in E2 by lia. rewrite E2.
    split; [by destruct (run_events events ctx2)|]. rewrite <- app_assoc in Hh2. split; [done|].
    unfold same_text in *. cbn in Hs1. destruct Hs1, Hs2. split; congruence.
Qed.

Lemma seqZ_sorted m n : StronglySorted Z.le (seqZ m (Z.of_nat n)).
Proof.
  revert m; induction n as [|n IH]; intros m; [constructor|].
  rewrite seqZ_cons by lia. replace (Z.pred (Z.of_nat (S n))) with (Z.of_nat n) by lia.
  constructor; [apply IH|]. apply Forall_forall. intros k Hk. apply elem_of_seqZ in Hk. lia.
Qed.

Lemma omap_seqZ (m : gmap Z PartialToolCall) l k :
  (forall j, (j < length l)%nat -> m !! (k + Z.of_nat j) = l !! j) ->
  omap (fun i => m !! i) (seqZ k (Z.of_nat (length l))) = l.
Proof.
  revert k; induction l as [|p l IH]; intros k Hl; [done|]. cbn [length].
  rewrite seqZ_cons by lia. replace (Z.pred (Z.of_nat (S (length l)))) with (Z.of_nat (length l)) by lia.
  cbn. pose proof (Hl 0%nat ltac:(cbn; lia)) as H1. rewrite Z.add_0_r in H1. rewrite H1. cbn. f_equal.
  apply IH. intros j Hj. specialize (Hl (S j) ltac:(cbn; lia)).
  change ((p :: l) !! S j) with (l !! j) in Hl. rewrite <- Hl. f_equal. lia.
Qed.

Lemma sorted_slots_holds m l : holds m l -> sorted_slots m = l.
Proof.
  intros Hm. unfold sorted_slots.
  assert (merge_sort Z.le (elements (dom m)) = seqZ 0 (Z.of_nat (length l))) as ->.
  { apply (StronglySorted_unique Z.le); [apply StronglySorted_merge_sort; apply _ | apply seqZ_sorted|].
    rewrite merge_sort_Permutation. apply NoDup_Permutation; [apply NoDup_elements | apply NoDup_seqZ|].
    intros i. rewrite elem_of_elements, elem_of_dom, elem_of_seqZ, Hm.
    destruct (Z.leb_spec 0 i); [|split; [by intros [? ?] | lia]].
    rewrite lookup_lt_is_Some. lia. }
  apply omap_seqZ. intros j Hj. rewrite Hm, Z.add_0_l.
  destruct (Z.leb_spec 0 (Z.of_nat j)); [|lia]. by rewrite Nat2Z.id.
Qed.

(** Events of a reply in UTF-8 are plain trees. *)
Definition reply_utf8 (r : Reply) : Prop :=
  Forall utf8 (rp_texts r) /\ utf8 (rp_reason r) /\
  Forall (fun c => utf8 c.1.1 /\ utf8 c.1.2 /\ Forall utf8 c.2) (rp_calls r).

Lemma plain_one_field (k : string) (v : J) : utf8 k -> json_plain v -> json_plain (j_fields [(k, v)]).
Proof. intros Hk Hv. apply json_plain_fields. intros k' v' Hx. plain_fields. done. Qed.

Lemma plain_choice (fields : list (string * J)) :
  (forall k x, (k, x) ∈ fields -> utf8 k /\ json_plain x) -> json_plain (choice_event fields).
Proof.
  intros Hf. apply plain_one_field; [by apply utf8_ascii|]. apply json_plain_array.
  intros x Hx. apply list_elem_of_singleton in Hx as ->. by apply json_plain_fields.
Qed.

Ltac plain_tree :=
  repeat first
    [ apply json_plain_string | apply plain_choice; intros ? ? ? | apply json_plain_fields; intros ? ? ?
    | apply json_plain_array; let x := fresh "x" in let Hx := fresh "Hx" in intros x Hx;
      apply list_elem_of_singleton in Hx as ->
    | eapply plain_int; apply view_j_int
    | progress plain_fields | split; [by apply utf8_ascii|] ].

Lemma plain_call_events (calls : list (string * string * list string)) (i : Z) :
  Forall (fun c => utf8 c.1.1 /\ utf8 c.1.2 /\ Forall utf8 c.2) calls ->
  Forall json_plain (call_events i calls).
Proof.
  intros Hc. revert i; induction Hc as [|[[id name] fs] calls (Hid & Hn & Hf) _ IH]; intros i; [constructor|].
  cbn [call_events]. cbn in Hid, Hn, Hf. constructor; [|apply Forall_app; split; [|apply IH]].
  - plain_tree; (done || by apply utf8_ascii).
  - apply Forall_map. eapply Forall_impl; [exact Hf|]. intros f Hu. cbn. plain_tree; done.
Qed.

Lemma reply_events_plain (r : Reply) : reply_utf8 r -> Forall json_plain (reply_events r).
Proof.
  intros (Ht & Hr & Hc). unfold reply_events. rewrite !Forall_app. split_and!.
  - apply Forall_map. eapply Forall_impl; [exact Ht|]. intros t Hu. cbn. plain_tree; done.
  - by apply plain_call_events.
  - constructor; [|constructor]. plain_tree; done.
Qed.

(** The calls of a reply as the worker receives them. *)
Definition reply_call (c : string * string * list string) : ToolCall := slot_call (slot_of c).

(** However the bytes of a reply are cut into blocks, the decoder recovers it. *)
Lemma openai_stream_decoded (r : Reply) (text : string) (chunks : list string) :
  Forall json_plain (reply_events r) -> Z.of_nat (length (rp_calls r)) < 2 ^ 31 ->
  is_ok (json_parse (J := J) "[DONE]") = false ->
  event_stream (reply_events r) = Ok text -> string_concat chunks = text ->
  exists ctx, process_chunks (J := J) chunks initial_context =
      (ctx, List.filter (fun t => negb (str_empty t)) (rp_texts r)) /\
    buffer ctx = "" /\ finished ctx = true /\ fullText ctx = string_concat (rp_texts r) /\
    finishReason ctx = rp_reason r /\
    map slot_call (sorted_slots (partialToolCalls ctx)) = map reply_call (rp_calls r).
Proof.
  intros Hp Hlen Hdone E <-. rewrite process_chunks_concat by done. unfold ProcessSSEChunk.
  destruct (event_stream_run _ _ initial_context Hp E Hdone) as [El Er].
  cbn [buffer initial_context]. change ("" +:+ string_concat chunks) with (string_concat chunks).
  destruct (take_lines "" (string_concat chunks)) as [ls rest]. cbn in El, Er. subst rest. rewrite El.
  unfold reply_events. rewrite run_texts.
  destruct (run_call_events [] (rp_calls r) [finish_event (rp_reason r)]
    (add_text (string_concat (rp_texts r)) initial_context)) as (ctx1 & E1 & Hh & Ht & Hf);
    [intros i; cbn; rewrite lookup_empty; by case_match | cbn; lia|].
  cbn [length] in E1. change (Z.of_nat 0) with 0 in E1. rewrite E1. erewrite run_events_cons by reflexivity.
  rewrite apply_finish. cbn [run_events]. eexists. split; [by rewrite app_nil_r|].
  cbn. rewrite (sorted_slots_holds _ _ Hh). cbn. split_and!; try done. by rewrite map_map.
Qed.
End StreamFacts.

(** *** A call *)

Section InvokeFacts.
Context {J : Type} `{JsonLaws J} {X : Type} `{Curl X}.
Variable config_ : ModelConfig.
Variable shouldCancel : X -> bool.
Hypothesis never_cancelled : forall x, shouldCancel x = false.

Definition nonempty (t : string) : bool := negb (str_empty t).

Lemma string_concat_nonempty (l : list string) : string_concat (List.filter nonempty l) = string_concat l.
Proof.
  induction l as [|t l IH]; [done|]. cbn [List.filter]. unfold nonempty at 1.
  change (string_concat (t :: l)) with (t +:+ string_concat l).
  destruct (str_empty t) eqn:Et; cbn [negb].
  - apply str_empty_spec in Et. by subst.
  - change (string_concat (t :: ?l)) with (t +:+ string_concat l). cbn. f_equal. exact IH.
Qed.

Lemma deliver_process (chunks : list string) ctx out (x : X) :
  exists x', deliver (on_chunk (J := J) shouldCancel true) chunks (ctx, out, false) x =
    (((process_chunks (J := J) (List.filter nonempty chunks) ctx).1,
      out ++ (process_chunks (J := J) (List.filter nonempty chunks) ctx).2, false), x', true).
Proof.
  revert ctx out x; induction chunks as [|c chunks IH]; intros ctx out x.
  - exists x. cbn. by rewrite app_nil_r.
  - cbn [deliver List.filter].
    assert (str_empty c = negb (nonempty c)) as -> by (unfold nonempty; by destruct (str_empty c)).
    destruct (nonempty c); cbn [negb]; [|apply IH].
    unfold on_chunk at 1. cbn [process_chunks]. destruct (ProcessSSEChunk ctx c) as [ctx1 c1].
    rewrite never_cancelled. destruct (IH ctx1 (out ++ c1) (curl_elapse x)) as [x' E]. exists x'. rewrite E.
    destruct (process_chunks (List.filter nonempty chunks) ctx1) as [ctx2 c2]. cbn. by rewrite app_assoc.
Qed.

(** C10.  A reply is received as it was sent.  When the transfer of a native-mode call
    succeeds with the bytes of a reply, cut into blocks anywhere, the call makes no
    second attempt; it streams the text fragments in order, and returns their
    concatenation with every tool call - id, name, assembled arguments - in order
    and the finish reason. *)
Theorem openai_reply_received (r : Reply) (text body : string) (chunks : list string) (x x1 : X) (code : Z) :
  useNativeFunctionCalling config_ = true -> 0 <= maxRetries (retryPolicy config_) -> code < 400 ->
  reply_utf8 r -> Z.of_nat (length (rp_calls r)) < 2 ^ 31 ->
  is_ok (json_parse (J := J) "[DONE]") = false ->
  event_stream (reply_events (J := J) r) = Ok text -> string_concat chunks = text ->
  curl_handle x = true ->
  curl_easy_perform (ApplyOptions (chat_request config_ body)) x = (x1, chunks, CURLE_OK, code) ->
  exists x2, Invoke (J := J) config_ shouldCancel body x =
    (x2, List.filter nonempty (rp_texts r),
     Val (mkModelResponse (string_concat (rp_texts r)) (map reply_call (rp_calls r)) true
            (if str_empty (rp_reason r) then "stop" else rp_reason r) false (Some code))).
Proof.
  intros Hnative Hretry Hcode Hp%(reply_events_plain (J := J)) Hlen Hdone E Hc Hh Hperf.
  destruct (deliver_process chunks initial_context [] x1) as [x2 Ed].
  rewrite <- string_concat_nonempty in Hc.
  destruct (openai_stream_decoded r text (List.filter nonempty chunks) Hp Hlen Hdone E Hc)
    as (ctx & Ep & _ & _ & Hfull & Hreason & Hcalls).
  rewrite Ep in Ed. cbn [fst snd app] in Ed. exists x2. unfold Invoke, invoke_attempts.
  destruct (Z.to_nat (1 + maxRetries (retryPolicy config_))) as [|n] eqn:En; [lia|].
  cbn [attempts]. rewrite never_cancelled. unfold DoInvokeOnce at 1, PostStream. rewrite Hh, Hperf. cbn [negb].
  cbn [Nat.eqb]. rewrite Ed. unfold stream_response, finish_transfer. cbn [isCurlError CURLE_OK].
  change (negb (CURLE_OK =? CURLE_OK)) with false. cbn [statusCode].
  destruct (Z.leb_spec 400 code); [lia|]. rewrite Hnative, Hfull, Hreason, Hcalls.
  cbn [mr_isRetryable negb]. rewrite orb_true_r. done.
Qed.
End InvokeFacts.

(** *** Pairing of the request *)

Section PairingFacts.
Context {J : Type} `{JsonLaws J}.

(** The message of a native-mode request. *)
Definition native_message (m : Message) : J :=
  let content := FixStringUTF8 (m_content m) in
  if is_assistant m then
    match m_toolCalls m with
    | [] => role_content "assistant" content
    | calls => native_assistant content calls
    end
  else if is_tool m then native_tool (m_toolCallId m) content
  else role_content (m_role m) content.

Lemma format_native (l : list Message) (msgs : list J) :
  format_messages true msgs l = Ok (msgs ++ map native_message l).
Proof.
  revert msgs; induction l as [|m l IH]; intros msgs; [cbn; by rewrite app_nil_r|].
  cbn [format_messages map]. assert (format_message true msgs m = Ok (msgs ++ [native_message m])) as ->.
  { unfold format_message, native_message, is_assistant, is_tool.
    destruct (String.eqb (m_role m) "assistant"); [by destruct (m_toolCalls m)|].
    by destruct (String.eqb (m_role m) "tool"). }
  cbn [obind]. by rewrite IH, <- app_assoc.
Qed.

(** What a message adds to the statistics. *)
Definition pair_native (m : Message) (p : pairing) : pairing :=
  if is_assistant m then fold_left (fun p tc => count_call (tc_id tc) p) (m_toolCalls m) p
  else if is_tool m then count_result (m_toolCallId m) p else p.

Ltac fields := rewrite ?jfield_j_fields, ?array_field_j_fields, ?value_string_j_fields;
  cbn [assoc_last String.eqb Ascii.eqb Bool.eqb];
  rewrite ?get_string_j_string, ?view_j_array, ?view_j_string; cbn [obind].

Lemma count_native_calls (calls : list ToolCall) (p : pairing) :
  count_calls (map (native_call (J := J)) calls) p =
  Ok (fold_left (fun p tc => count_call (tc_id tc) p) calls p).
Proof.
  revert p; induction calls as [|tc calls IH]; intros p; [done|]. cbn [map count_calls fold_left].
  unfold native_call at 1. fields. apply IH.
Qed.

Lemma pair_native_message (m : Message) (p : pairing) :
  pair_message (native_message m) p = Ok (pair_native m p).
Proof.
  unfold pair_message, native_message, pair_native.
  destruct (is_assistant m) eqn:Ea.
  - destruct (m_toolCalls m) as [|tc calls]; [unfold role_content; by fields|].
    unfold native_assistant. fields. apply (count_native_calls (tc :: calls)).
  - destruct (is_tool m) eqn:Et; [unfold native_tool; by fields|].
    unfold role_content. fields. unfold is_tool in Et. by rewrite Et.
Qed.

Lemma pair_native_messages (l : list Message) (p : pairing) :
  pair_messages (map native_message l) p = Ok (fold_left (fun p m => pair_native m p) l p).
Proof.
  revert p; induction l as [|m l IH]; intros p; [done|]. cbn [map pair_messages].
  rewrite pair_native_message. apply IH.
Qed.

(** The ids the two sets collect. *)
Definition call_ids_of (m : Message) : list string :=
  if is_assistant m then map tc_id (m_toolCalls m) else [].
Definition result_ids_of (m : Message) : list string :=
  if is_tool m then [m_toolCallId m] else [].

Definition more_ids (p q : pairing) (calls results : list string) : Prop :=
  pa_missing q = pa_missing p /\
  callIds q = callIds p ∪ list_to_set calls /\ resultIds q = resultIds p ∪ list_to_set results.

Lemma more_ids_trans p q r c1 r1 c2 r2 :
  more_ids p q c1 r1 -> more_ids q r c2 r2 -> more_ids p r (c1 ++ c2) (r1 ++ r2).
Proof.
  intros (H1 & H2 & H3) (H4 & H5 & H6). split; [congruence|]. rewrite H5, H6, H2, H3, !list_to_set_app_L.
  split; set_solver.
Qed.

Lemma fold_calls_ids (calls : list ToolCall) (p : pairing) :
  "" ∉ map tc_id calls ->
  more_ids p (fold_left (fun p tc => count_call (tc_id tc) p) calls p) (map tc_id calls) [].
Proof.
  revert p; induction calls as [|tc calls IH]; intros p Hne; [split; [done | cbn; split; set_solver]|].
  apply not_elem_of_cons in Hne as [He Hne]. cbn [fold_left map].
  apply (more_ids_trans p (count_call (tc_id tc) p) _ [tc_id tc] [] (map tc_id calls) []); [|by apply IH].
  unfold count_call. rewrite (proj2 (str_empty_false _)) by done.
  split; [done | cbn; split; set_solver].
Qed.

Lemma pair_native_ids (m : Message) (p : pairing) :
  "" ∉ call_ids_of m -> "" ∉ result_ids_of m ->
  more_ids p (pair_native m p) (call_ids_of m) (result_ids_of m).
Proof.
  unfold pair_native, call_ids_of, result_ids_of. intros Hc Hr. destruct (is_assistant m) eqn:Ea.
  - destruct (is_tool m) eqn:Et; [apply is_tool_assistant in Et; congruence | by apply fold_calls_ids].
  - destruct (is_tool m); [|split; [done | cbn; split; set_solver]].
    unfold count_result. rewrite (proj2 (str_empty_false _)) by set_solver.
    split; [done | cbn; split; set_solver].
Qed.

Lemma pair_native_all_ids (l : list Message) (p : pairing) :
  "" ∉ flat_map call_ids_of l -> "" ∉ flat_map result_ids_of l ->
  more_ids p (fold_left (fun p m => pair_native m p) l p) (flat_map call_ids_of l) (flat_map result_ids_of l).
Proof.
  revert p; induction l as [|m l IH]; intros p Hc Hr; [split; [done | cbn; split; set_solver]|].
  cbn [flat_map fold_left] in *. rewrite not_elem_of_app in Hc, Hr. destruct Hc, Hr.
  eapply more_ids_trans; [by apply pair_native_ids | by apply IH].
Qed.

Lemma elem_of_flat_map {A B} (f : A -> list B) (l : list A) (y : B) :
  y ∈ flat_map f l <-> exists x, x ∈ l /\ y ∈ f x.
Proof. rewrite !list_elem_of_In, in_flat_map. by setoid_rewrite list_elem_of_In. Qed.

Lemma paired_ids (w : list Message) :
  tools_paired w ->
  "" ∉ flat_map call_ids_of w /\ "" ∉ flat_map result_ids_of w /\
  forall id, id ∈ flat_map call_ids_of w <-> id ∈ flat_map result_ids_of w.
Proof.
  intros [Ht Hc].
  assert (forall id, id ∈ flat_map call_ids_of w -> id <> "" /\ id ∈ flat_map result_ids_of w) as H1.
  { intros id (a & Ha & Hid)%elem_of_flat_map. unfold call_ids_of in Hid.
    destruct (is_assistant a) eqn:Ea; [|set_solver].
    apply list_elem_of_fmap in Hid as (tc & -> & Htc).
    destruct (Hc a tc Ha Ea Htc) as (Hne & t & Hin & Htool & Hid). split; [done|].
    apply elem_of_flat_map. exists t. split; [done|]. unfold result_ids_of. rewrite Htool. set_solver. }
  assert (forall id, id ∈ flat_map result_ids_of w -> id <> "" /\ id ∈ flat_map call_ids_of w) as H2.
  { intros id (t & Hin & Hid)%elem_of_flat_map. unfold result_ids_of in Hid.
    destruct (is_tool t) eqn:Et; [|set_solver]. apply list_elem_of_singleton in Hid as ->.
    destruct (Ht t Hin Et) as (Hne & a & tc & Ha & Ea & Htc & Hid). split; [done|].
    apply elem_of_flat_map. exists a. split; [done|]. unfold call_ids_of. rewrite Ea, <- Hid.
    by apply list_elem_of_fmap_2. }
  split_and!; [by intros [? _]%H1 | by intros [? _]%H2 |]. intros id. split; [apply H1 | apply H2].
Qed.

(** C11.  What the context engine hands to the back end is a request the service
    accepts: the native-mode messages built from a limited window and the notes the
    worker appends have no tool call without a result, no result without its call,
    and no missing id. *)
Theorem native_request_paired (cfg : ContextConfig) (hist w notes : list Message)
    (config_ : ModelConfig) (prompt : string) (tools : list (ToolSchema J)) :
  useNativeFunctionCalling config_ = true ->
  ApplyContextLimits cfg hist = Some w ->
  Forall (fun m => m_role m = "system") notes ->
  exists msgs stats,
    request_messages (J := J) config_ prompt (w ++ notes) tools = Ok msgs /\
    ValidateToolPairing msgs = Ok stats /\
    missingIds stats = 0 /\ orphanToolCalls stats = 0 /\ orphanToolResults stats = 0.
Proof.
  intros Hn Hw Hnotes.
  assert (tools_paired w) as Hp.
  { destruct hist as [|m ms]; [cbn in Hw; simplify_eq; split; set_solver|].
    rewrite ApplyContextLimits_unfold in Hw by done.
    apply fmap_Some in Hw as (t & _ & ->). apply DropUnpaired_paired. }
  destruct (paired_ids w Hp) as (Hc & Hr & Heq).
  assert (forall f, (forall m, m_role m = "system" -> f m = []) ->
    flat_map f (w ++ notes) = flat_map (B := string) f w) as Hf.
  { intros f Hf. rewrite flat_map_app. replace (flat_map f notes) with (@nil string); [apply app_nil_r|].
    symmetry. induction Hnotes as [|m notes Hm _ IH]; [done|]. cbn. by rewrite (Hf m Hm), IH. }
  assert (flat_map call_ids_of (w ++ notes) = flat_map call_ids_of w) as E1
    by (apply Hf; intros m Hm; unfold call_ids_of, is_assistant; by rewrite Hm).
  assert (flat_map result_ids_of (w ++ notes) = flat_map result_ids_of w) as E2
    by (apply Hf; intros m Hm; unfold result_ids_of, is_tool; by rewrite Hm).
  pose (sys := if str_empty prompt then [] else [role_content (J := J) "system" prompt]).
  exists (sys ++ map native_message (w ++ notes)).
  pose proof (pair_native_all_ids (w ++ notes) no_pairing) as Hids. rewrite E1, E2 in Hids.
  destruct (Hids Hc Hr) as (Hm & Hcall & Hres). eexists. split; [|split].
  - unfold request_messages. rewrite Hn. destruct tools; apply format_native.
  - unfold ValidateToolPairing.
    assert (pair_messages (sys ++ map native_message (w ++ notes)) no_pairing
            = pair_messages (map native_message (w ++ notes)) no_pairing) as ->.
    { unfold sys. destruct (str_empty prompt); [done|]. cbn [app pair_messages].
      assert (pair_message (role_content (J := J) "system" prompt) no_pairing = Ok no_pairing) as ->; [|done].
      unfold pair_message, role_content. by fields. }
    rewrite pair_native_messages. reflexivity.
  - cbn [missingIds orphanToolCalls orphanToolResults]. rewrite Hm, Hcall, Hres. cbn.
    assert (list_to_set (C := gset string) (flat_map call_ids_of w) = list_to_set (flat_map result_ids_of w)) as ->
      by (apply set_eq; intros id; rewrite !elem_of_list_to_set; apply Heq).
    rewrite !union_empty_l_L, difference_diag_L, size_empty. done.
Qed.
End PairingFacts.

(** ** Witnesses *)

#[local] Instance ex_json0 : Json JsonTree.json := JsonTree.instance [].
#[local] Instance ex_laws : JsonLaws JsonTree.json.
Proof. apply JsonTree.laws. intros x Hx. by apply elem_of_nil in Hx. Qed.

Definition ex_reply : Reply :=
  mkReply ["Let me "; ""; "look."] [("call_1", "time_info", ["{"; "}"]); ("call_2", "list_dir", [])] "tool_calls".
Definition ex_stream : string :=
  match event_stream (J := JsonTree.json) (reply_events ex_reply) with Ok t => t | Throw _ => "" end.
Definition ex_chunks : list string := [str_take 700 ex_stream; ""; str_drop 700 ex_stream].

(** A transfer that always delivers the reply in two blocks. *)
#[local] Instance ex_curl : Curl unit := {|
  curl_handle := fun _ => true;
  curl_easy_perform := fun _ x => (x, ex_chunks, CURLE_OK, 200);
  curl_easy_strerror := fun _ => "";
  curl_easy_escape := fun s => s;
  curl_easy_unescape := Some;
  curl_elapse := fun x => x;
  random_upto := fun _ x => (x, 0);
  sleep_ms := fun _ x => x;
  logs_info := fun _ => false
|}.

Lemma openai_reply_received_witness :
  exists x2, Invoke (J := JsonTree.json) default_ModelConfig (fun _ => false) "{}" tt =
    (x2, ["Let me "; "look."],
     Val (mkModelResponse "Let me look."
       [mkToolCall "call_1" "time_info" "{}"; mkToolCall "call_2" "list_dir" "{}"] true "tool_calls" false (Some 200))).
Proof.
  apply (openai_reply_received default_ModelConfig (fun _ => false) (fun _ => eq_refl)
    ex_reply ex_stream "{}" ex_chunks tt tt 200).
  - reflexivity.
  - vm_compute. discriminate.
  - reflexivity.
  - unfold reply_utf8, ex_reply. cbn [rp_texts rp_calls rp_reason]. rewrite !Forall_cons, ?Forall_nil. cbn [fst snd].
    rewrite !Forall_cons, ?Forall_nil. split_and!; (exact I || by apply utf8_ascii).
  - reflexivity.
  - vm_compute. reflexivity.
  - vm_compute. reflexivity.
  - vm_compute. reflexivity.
  - reflexivity.
  - reflexivity.
Defined.

Definition ex_note : Message := mkMessage "system" "Use the tools." [] "" "" "" "".

Lemma native_request_paired_witness :
  exists w msgs stats,
    ApplyContextLimits ex_cfg ex_turn = Some w /\
    request_messages (J := JsonTree.json) default_ModelConfig "You help." (w ++ [ex_note]) [] = Ok msgs /\
    ValidateToolPairing msgs = Ok stats /\ assistantToolCalls stats = 1 /\ orphanToolCalls stats = 0.
Proof.
  destruct (ApplyContextLimits ex_cfg ex_turn) as [w|] eqn:E; [|vm_compute in E; discriminate].
  destruct (native_request_paired ex_cfg ex_turn w [ex_note] default_ModelConfig "You help." []
    (J := JsonTree.json)) as (msgs & stats & Em & Es & _ & Eo & _).
  - reflexivity.
  - exact E.
  - repeat constructor.
  - exists w, msgs, stats. split; [done|]. split; [done|]. split; [done|]. split; [|done].
    vm_compute in E. injection E as <-. vm_compute in Em. injection Em as <-. vm_compute in Es.
    injection Es as <-. reflexivity.
Defined.
