(* ===== verification/AnthropicModel.v ===== *)
(** * The Anthropic back end (src/models/anthropic_model.cpp)

    The request body, with tool results folded into user messages and late system
    messages into the system prompt, and the decoder of its server-sent events.
    Transport, retries and the cutting into lines are those of Transport. *)
From Stdlib Require Import ZArith Lia String Ascii List.
From stdpp Require Import base decidable list strings gmap sets.
From S2P Require Import Prelude Encoding Types JsonLib JsonStorage ContextEngine ContextEngineFacts ResourceManager TurnState Transport OpenAIModel.
Open Scope Z_scope.

Section Format.
Context {J : Type} `{Json J}.

Definition AnthropicToolsArray (tools : list (ToolSchema J)) : J :=
  j_array
    (map (fun t => j_fields [("name", j_string (ts_name t)); ("description", j_string (ts_description t));
                             ("input_schema", ts_parameters t)]) tools).

Fixpoint fallback_tools (tools : list (ToolSchema J)) : outcome string :=
  match tools with
  | [] => Ok ""
  | t :: tools =>
      params <-- json_dump (Some 2%nat) (ts_parameters t) ;;
      rest <-- fallback_tools tools ;;
      Ok ("## " +:+ ts_name t +:+ nl +:+ ts_description t +:+ nl +:+ "Parameters:" +:+ nl +:+ params
          +:+ nl +:+ nl +:+ rest)
  end.

Definition FallbackToolText (tools : list (ToolSchema J)) : outcome string :=
  match tools with
  | [] => Ok ""
  | _ =>
      texts <-- fallback_tools tools ;;
      Ok (nl +:+ nl +:+ "# Available tools" +:+ nl
          +:+ "When calling a tool, output a JSON object exactly:" +:+ nl
          +:+ "  {" +:+ dq +:+ "name" +:+ dq +:+ ":" +:+ dq +:+ "<tool>" +:+ dq +:+ ","
          +:+ dq +:+ "arguments" +:+ dq +:+ ":{...}}" +:+ nl
          +:+ "Do NOT wrap in code fences." +:+ nl +:+ nl +:+ texts)
  end.

(** *** Messages *)

(** What the loop of [Format] keeps. *)
Record FormatState := mkFormatState {
  fs_system : string;
  fs_msgs : list J;
  awaitingToolBlock : bool
}.
Definition push_message (m : J) (st : FormatState) : FormatState :=
  mkFormatState (fs_system st) (fs_msgs st ++ [m]) (awaitingToolBlock st).
Definition set_awaiting (b : bool) (st : FormatState) : FormatState :=
  mkFormatState (fs_system st) (fs_msgs st) b.

Definition role_entry (role : string) (content : J) : J :=
  j_fields [("role", j_string role); ("content", content)].
(** [{{"type", "text"}, {"text", text}}] makes an object. *)
Definition text_block (text : string) : J := j_fields [("type", j_string "text"); ("text", j_string text)].

Definition tool_use_block (tc : ToolCall) : J :=
  j_fields [("type", j_string "tool_use"); ("id", j_string (tc_id tc)); ("name", j_string (tc_name tc));
            ("input", match json_parse (tc_argumentsJson tc) with Ok j => j | Throw _ => j_object ∅ end)].
Definition tool_result_block (toolUseId content : string) : J :=
  j_fields [("type", j_string "tool_result"); ("tool_use_id", j_string toolUseId);
            ("content", j_string content)].

(** [j.push_back(x)]. *)
Definition json_push_back (x j : J) : outcome J :=
  match json_view j with
  | JArray l => Ok (j_array (l ++ [x]))
  | JNull => Ok (j_array [x])
  | _ => Throw (json_type_error j)
  end.

(** [msgs.back()["content"] = content]. *)
Definition set_back_content (content : J) (msgs : list J) : list J :=
  match last msgs with
  | Some back =>
      take (length msgs - 1) msgs ++
      [match json_view back with JObject m => j_object (<["content" := content]> m) | _ => back end]
  | None => []
  end.

Definition back_content (msgs : list J) : J :=
  default j_null (last msgs ≫= jfield "content").

Definition startToolResultBlock (st : FormatState) : FormatState :=
  push_message (role_entry "user" (j_array [])) st.

Definition appendToolResult (toolUseId content : string) (st : FormatState) : outcome FormatState :=
  let st1 := if Nat.eqb (length (fs_msgs st)) 0 || negb (awaitingToolBlock st)
             then set_awaiting true (startToolResultBlock st) else st in
  arr <-- json_push_back (tool_result_block toolUseId content) (back_content (fs_msgs st1)) ;;
  Ok (mkFormatState (fs_system st1) (set_back_content arr (fs_msgs st1)) (awaitingToolBlock st1)).

(** A tool result of the fallback mode. *)
Definition append_observation (observation : string) (st : FormatState) : FormatState :=
  let back_is_user :=
    match last (fs_msgs st) ≫= jfield "role" with
    | Some r => match json_view r with JString s => String.eqb s "user" | _ => false end
    | None => false
    end in
  if back_is_user then
    if negb (awaitingToolBlock st) then
      let prev := match json_view (back_content (fs_msgs st)) with JString s => s | _ => "" end in
      let text := if str_empty prev then observation else prev +:+ nl +:+ nl +:+ observation in
      mkFormatState (fs_system st) (set_back_content (j_string text) (fs_msgs st)) (awaitingToolBlock st)
    else set_awaiting false (push_message (role_entry "user" (j_string observation)) st)
  else push_message (role_entry "user" (j_string observation)) st.

Definition assistant_content (useNative : bool) (fixed : string) (calls : list ToolCall) : outcome J :=
  match calls with
  | [] => Ok (text_block fixed)
  | _ =>
      if useNative
      then Ok (j_array ((if str_empty fixed then [] else [text_block fixed]) ++ map tool_use_block calls))
      else t <-- calls_text calls ;;
           Ok (text_block ((if str_empty fixed then "" else fixed +:+ nl) +:+ t))
  end.

Definition anthropic_message (useNative : bool) (m : Message) (st : FormatState) : outcome FormatState :=
  let fixed := FixStringUTF8 (m_content m) in
  if String.eqb (m_role m) "assistant" then
    content <-- assistant_content useNative fixed (m_toolCalls m) ;;
    Ok (push_message (role_entry "assistant" content) (set_awaiting false st))
  else if String.eqb (m_role m) "tool" then
    if useNative then appendToolResult (m_toolCallId m) fixed st
    else Ok (append_observation ("Observation:" +:+ nl +:+ fixed) st)
  else
    let st1 := if String.eqb (m_role m) "user" && awaitingToolBlock st then set_awaiting false st else st in
    if String.eqb (m_role m) "system"
    then Ok (mkFormatState (fs_system st1 +:+ nl +:+ nl +:+ fixed) (fs_msgs st1) (awaitingToolBlock st1))
    else Ok (push_message (role_entry (m_role m) (j_string fixed)) st1).

Fixpoint anthropic_messages (useNative : bool) (l : list Message) (st : FormatState) : outcome FormatState :=
  match l with
  | [] => Ok st
  | m :: l => st1 <-- anthropic_message useNative m st ;; anthropic_messages useNative l st1
  end.

Definition initial_format (sys : string) : FormatState := mkFormatState sys [] false.

Definition Format (config_ : ModelConfig) (systemPrompt : string) (messages : list Message)
    (tools : list (ToolSchema J)) : outcome string :=
  let useNative := useNativeFunctionCalling config_ in
  sys <-- (match tools with
           | [] => Ok systemPrompt
           | _ => if useNative then Ok systemPrompt
                  else t <-- FallbackToolText tools ;; Ok (systemPrompt +:+ t)
           end) ;;
  st <-- anthropic_messages useNative messages (initial_format sys) ;;
  json_dump None
    (j_fields
       ([("model", j_string (modelName config_)); ("stream", j_bool true); ("max_tokens", j_int 4096);
         ("system", j_string (fs_system st)); ("messages", j_array (fs_msgs st))]
        ++ match tools with [] => [] | _ => if useNative then [("tools", AnthropicToolsArray tools)] else [] end)).
End Format.

(** ** The stream *)

Record PartialToolUse := mkPartialToolUse {
  pu_id : string;
  pu_name : string;
  inputJson : string
}.

Record AnthropicStreamContext := mkAnthropicStreamContext {
  ac_fullText : string;
  ac_buffer : string;
  ac_finishReason : string;
  toolUses : list PartialToolUse;
  currentToolIndex : Z
}.
Definition initial_anthropic : AnthropicStreamContext := mkAnthropicStreamContext "" "" "" [] (-1).

Definition ac_set_buffer (b : string) (ctx : AnthropicStreamContext) : AnthropicStreamContext :=
  mkAnthropicStreamContext (ac_fullText ctx) b (ac_finishReason ctx) (toolUses ctx) (currentToolIndex ctx).
Definition ac_add_text (t : string) (ctx : AnthropicStreamContext) : AnthropicStreamContext :=
  mkAnthropicStreamContext (ac_fullText ctx +:+ t) (ac_buffer ctx) (ac_finishReason ctx) (toolUses ctx)
    (currentToolIndex ctx).
Definition ac_set_reason (r : string) (ctx : AnthropicStreamContext) : AnthropicStreamContext :=
  mkAnthropicStreamContext (ac_fullText ctx) (ac_buffer ctx) r (toolUses ctx) (currentToolIndex ctx).
Definition ac_set_tools (l : list PartialToolUse) (ctx : AnthropicStreamContext) : AnthropicStreamContext :=
  mkAnthropicStreamContext (ac_fullText ctx) (ac_buffer ctx) (ac_finishReason ctx) l (currentToolIndex ctx).
Definition ac_set_index (i : Z) (ctx : AnthropicStreamContext) : AnthropicStreamContext :=
  mkAnthropicStreamContext (ac_fullText ctx) (ac_buffer ctx) (ac_finishReason ctx) (toolUses ctx) i.

Section Stream.
Context {J : Type} `{Json J}.

(** content_block_start of a tool use: the input is dumped as it comes. *)
Definition partial_tool_use (block : J) : outcome PartialToolUse :=
  id <-- value_string "id" "" block ;;
  name <-- value_string "name" "" block ;;
  input <-- (match jfield "input" block with
             | Some i => if is_object i then json_dump None i else Ok ""
             | None => Ok ""
             end) ;;
  Ok (mkPartialToolUse id name input).

Definition content_block_start (data : J) (ctx : AnthropicStreamContext)
    : AnthropicStreamContext * outcome unit :=
  let block := default j_null (jfield "content_block" data) in
  match (_ <-- value_int "index" (-1) data ;; value_string "type" "" block) with
  | Throw e => (ctx, Throw e)
  | Ok blockType =>
      if String.eqb blockType "tool_use" then
        let ctx1 := ac_set_index (Z.of_nat (length (toolUses ctx))) ctx in
        match partial_tool_use block with
        | Throw e => (ctx1, Throw e)
        | Ok tu => (ac_set_tools (toolUses ctx ++ [tu]) ctx1, Ok tt)
        end
      else (ac_set_index (-1) ctx, Ok tt)
  end.

Definition add_input (index : Z) (partial : string) (ctx : AnthropicStreamContext) : AnthropicStreamContext :=
  if (0 <=? index) && (index <? Z.of_nat (length (toolUses ctx)))
  then ac_set_tools
         (alter (fun tu => mkPartialToolUse (pu_id tu) (pu_name tu) (inputJson tu +:+ partial))
            (Z.to_nat index) (toolUses ctx)) ctx
  else ctx.

Definition content_block_delta (data : J) (ctx : AnthropicStreamContext)
    : AnthropicStreamContext * list string * outcome unit :=
  let delta := default j_null (jfield "delta" data) in
  match (index <-- value_int "index" (-1) data ;; deltaType <-- value_string "type" "" delta ;;
         Ok (index, deltaType)) with
  | Throw e => (ctx, [], Throw e)
  | Ok (index, deltaType) =>
      if String.eqb deltaType "text_delta" then
        match value_string "text" "" delta with
        | Throw e => (ctx, [], Throw e)
        | Ok text => if str_empty text then (ctx, [], Ok tt) else (ac_add_text text ctx, [text], Ok tt)
        end
      else if String.eqb deltaType "input_json_delta" then
        match value_string "partial_json" "" delta with
        | Throw e => (ctx, [], Throw e)
        | Ok partial => (if str_empty partial then ctx else add_input index partial ctx, [], Ok tt)
        end
      else (ctx, [], Ok tt)
  end.

Definition message_delta (data : J) (ctx : AnthropicStreamContext) : AnthropicStreamContext * outcome unit :=
  match jfield "delta" data ≫= jfield "stop_reason" with
  | None => (ctx, Ok tt)
  | Some v => match get_string v with Ok r => (ac_set_reason r ctx, Ok tt) | Throw e => (ctx, Throw e) end
  end.

(** One parsed event; the flag says the loop breaks. *)
Definition anthropic_event (data : J) (ctx : AnthropicStreamContext)
    : AnthropicStreamContext * list string * bool :=
  match value_string "type" "" data with
  | Throw _ => (ctx, [], false)
  | Ok type =>
      if String.eqb type "content_block_start" then ((content_block_start data ctx).1, [], false)
      else if String.eqb type "content_block_delta" then
        let '(ctx1, chunks, _) := content_block_delta data ctx in (ctx1, chunks, false)
      else if String.eqb type "content_block_stop" then (ac_set_index (-1) ctx, [], false)
      else if String.eqb type "message_delta" then ((message_delta data ctx).1, [], false)
      else if String.eqb type "message_stop" then (ctx, [], true)
      else (ctx, [], false)
  end.

Definition anthropic_line (line : string) (ctx : AnthropicStreamContext)
    : AnthropicStreamContext * list string * bool :=
  if negb (starts_with "data: " line) then (ctx, [], false)
  else
    let dataStr := str_drop 6 line in
    if str_empty dataStr then (ctx, [], false)
    else
      match json_parse dataStr with
      | Throw _ => (ctx, [], false)
      | Ok data => anthropic_event data ctx
      end.

Fixpoint anthropic_lines (lines : list string) (ctx : AnthropicStreamContext)
    : AnthropicStreamContext * list string * bool :=
  match lines with
  | [] => (ctx, [], false)
  | l :: lines =>
      let '(ctx1, c1, stopped) := anthropic_line l ctx in
      if stopped then (ctx1, c1, true)
      else let '(ctx2, c2, stopped) := anthropic_lines lines ctx1 in (ctx2, c1 ++ c2, stopped)
  end.

(** [message_stop] drops what is left of the buffer. *)
Definition ProcessAnthropicSSEChunk (ctx : AnthropicStreamContext) (data : string)
    : AnthropicStreamContext * list string :=
  let '(lines, rest) := take_lines "" (ac_buffer ctx +:+ data) in
  let '(ctx1, chunks, stopped) := anthropic_lines lines ctx in
  (ac_set_buffer (if stopped then "" else rest) ctx1, chunks).

Fixpoint anthropic_chunks (chunks : list string) (ctx : AnthropicStreamContext)
    : AnthropicStreamContext * list string :=
  match chunks with
  | [] => (ctx, [])
  | c :: chunks =>
      let '(ctx1, c1) := ProcessAnthropicSSEChunk ctx c in
      let '(ctx2, c2) := anthropic_chunks chunks ctx1 in (ctx2, c1 ++ c2)
  end.
End Stream.

(** ** The call *)

Section Invoke.
Context {J : Type} `{Json J} {X : Type} `{Curl X}.
Variable config_ : ModelConfig.
Variable shouldCancel : X -> bool.

Definition on_anthropic_chunk (stream : bool) (s : AnthropicStreamContext * list string * bool)
    (data : string) (x : X) : (AnthropicStreamContext * list string * bool) * X * bool :=
  let '(ctx, out, cancelled) := s in
  let '(ctx1, chunks) := ProcessAnthropicSSEChunk (J := J) ctx data in
  let out1 := if stream then out ++ chunks else out in
  if shouldCancel x then ((ctx1, out1, true), x, false) else ((ctx1, out1, cancelled), x, true).

Definition messages_request (formattedInput : string) : CurlRequest :=
  plain_request (baseUrl config_ +:+ "/v1/messages")
    ["Content-Type: application/json"; "x-api-key: " +:+ apiKey config_; "anthropic-version: 2023-06-01"]
    formattedInput.

Definition use_call (tu : PartialToolUse) : ToolCall :=
  let args := if str_empty (inputJson tu) then "{}" else inputJson tu in
  mkToolCall (pu_id tu) (pu_name tu) (if is_ok (json_parse (J := J) args) then args else "{}").

Definition map_reason (fr : string) : string :=
  if String.eqb fr "end_turn" then "stop"
  else if String.eqb fr "tool_use" then "tool_calls"
  else if String.eqb fr "max_tokens" then "length"
  else fr.

Definition messages_response (ctx : AnthropicStreamContext) (resp : CurlResponse) : ModelResponse :=
  if isCurlError resp then
    mkModelResponse ("Error: " +:+ curlErrorStr resp) [] true "error"
      (IsRetryableCurlError (curlCode resp)) None
  else if 400 <=? statusCode resp then
    mkModelResponse
      (if str_empty (ac_fullText ctx) then "Error: HTTP " +:+ to_string (statusCode resp) else ac_fullText ctx)
      [] true "error" (IsRetryableHttpStatus (statusCode resp)) (Some (statusCode resp))
  else
    mkModelResponse (ac_fullText ctx)
      (if useNativeFunctionCalling config_ then map use_call (toolUses ctx) else [])
      true (map_reason (ac_finishReason ctx)) false (Some (statusCode resp)).

Definition DoInvokeOnce (formattedInput : string) (stream : bool) (x : X) : X * list string * ModelResponse :=
  let '(s, x1, resp) :=
    PostStream (messages_request formattedInput) (on_anthropic_chunk stream)
      (initial_anthropic, [], false) x in
  let '(ctx, out, cancelled) := s in
  (x1, out,
   if cancelled then mkModelResponse (ac_fullText ctx) [] true "cancelled" false None
   else messages_response ctx resp).

Definition Invoke (formattedInput : string) (x : X) : X * list string * res ModelResponse :=
  invoke_attempts shouldCancel (DoInvokeOnce formattedInput) (retryPolicy config_) x.
End Invoke.

(** ** Facts *)

Section FormatFacts.
Context {J : Type} `{JsonLaws J}.

(** *** What a native-mode request says *)

(** A run of tool results, or any other message. *)
Inductive RequestItem :=
  | IMessage (m : Message)
  | IResults (results : list Message).

Fixpoint request_items (l : list Message) : list RequestItem :=
  match l with
  | [] => []
  | m :: l =>
      if is_tool m then
        match request_items l with
        | IResults ts :: items => IResults (m :: ts) :: items
        | items => IResults [m] :: items
        end
      else IMessage m :: request_items l
  end.

Definition result_json (m : Message) : J :=
  tool_result_block (m_toolCallId m) (FixStringUTF8 (m_content m)).

Definition message_json (m : Message) : J :=
  let fixed := FixStringUTF8 (m_content m) in
  if is_assistant m then
    role_entry "assistant"
      (match m_toolCalls m with
       | [] => text_block fixed
       | calls => j_array ((if str_empty fixed then [] else [text_block fixed]) ++ map tool_use_block calls)
       end)
  else role_entry (m_role m) (j_string fixed).

Definition results_json (ts : list Message) : J := role_entry "user" (j_array (map result_json ts)).

Definition item_json (i : RequestItem) : J :=
  match i with IMessage m => message_json m | IResults ts => results_json ts end.

Definition is_system (m : Message) : bool := String.eqb (m_role m) "system".

(** The notes folded into the system prompt. *)
Fixpoint folded_notes (l : list Message) : string :=
  match l with
  | [] => ""
  | m :: l =>
      (if is_system m then nl +:+ nl +:+ FixStringUTF8 (m_content m) else "") +:+ folded_notes l
  end.

Definition known_role (m : Message) : Prop := m_role m ∈ ["user"; "assistant"; "tool"; "system"].

Lemma back_content_results (msgs : list J) ts :
  back_content (msgs ++ [results_json ts]) = j_array (map result_json ts).
Proof. unfold back_content, results_json, role_entry. rewrite last_snoc. cbn. by rewrite jfield_j_fields. Qed.

Lemma set_back_results (msgs : list J) ts m :
  set_back_content (j_array (map result_json ts ++ [result_json m])) (msgs ++ [results_json ts])
  = msgs ++ [results_json (ts ++ [m])].
Proof.
  unfold set_back_content. rewrite last_snoc, length_app. cbn [length].
  replace (length msgs + 1 - 1)%nat with (length msgs) by lia. rewrite take_app_length.
  unfold results_json, role_entry, j_fields. rewrite view_j_object. cbn [fold_left].
  rewrite insert_insert_eq, map_app. done.
Qed.

(** A run goes on where the list continues with results. *)
Definition join_results (ts : list Message) (items : list RequestItem) : list RequestItem :=
  match items with
  | IResults us :: items => IResults (ts ++ us) :: items
  | _ => IResults ts :: items
  end.

Lemma request_items_tool m l :
  is_tool m = true -> request_items (m :: l) = join_results [m] (request_items l).
Proof. intros E. cbn [request_items]. rewrite E. by destruct (request_items l) as [|[]]. Qed.

Lemma join_results_tool ts m l :
  is_tool m = true -> join_results ts (request_items (m :: l)) = join_results (ts ++ [m]) (request_items l).
Proof.
  intros E. rewrite request_items_tool by done. destruct (request_items l) as [|[]]; cbn; try done.
  by rewrite <- app_assoc.
Qed.

(** The messages of the loop and its flag: either no block is open, or the last
    message is the open block. *)
Definition open_items (ts : option (list Message)) (items : list RequestItem) : list RequestItem :=
  match ts with Some ts => join_results ts items | None => items end.
Definition loop_state (sys : string) (pre : list J) (ts : option (list Message)) : FormatState :=
  match ts with
  | Some ts => mkFormatState sys (pre ++ [results_json ts]) true
  | None => mkFormatState sys pre false
  end.

Lemma append_result_state sys pre ts m :
  appendToolResult (m_toolCallId m) (FixStringUTF8 (m_content m)) (loop_state sys pre ts)
  = Ok (loop_state sys pre (Some (default [] ts ++ [m]))).
Proof.
  unfold appendToolResult. fold (result_json m). destruct ts as [ts|]; cbn [loop_state fs_msgs awaitingToolBlock fs_system default negb].
  - rewrite length_app, Nat.add_comm, orb_false_r. cbn [length Nat.add Nat.eqb].
    cbn [fs_msgs awaitingToolBlock fs_system]. rewrite back_content_results. unfold json_push_back.
    rewrite view_j_array. cbn [obind]. by rewrite set_back_results.
  - rewrite orb_true_r. cbn [set_awaiting startToolResultBlock push_message fs_msgs fs_system awaitingToolBlock].
    change (role_entry "user" (j_array [])) with (results_json []). rewrite back_content_results. unfold json_push_back. rewrite view_j_array. cbn [obind].
    by rewrite (set_back_results pre [] m).
Qed.

(** Any other message closes the block. *)
Lemma message_state sys pre ts m :
  known_role m -> is_tool m = false -> is_system m = false ->
  anthropic_message true m (loop_state sys pre ts)
  = Ok (loop_state sys (fs_msgs (loop_state sys pre ts) ++ [message_json m]) None).
Proof.
  unfold known_role, is_tool, is_system, anthropic_message, message_json, is_assistant. intros Hk Ht Hs.
  rewrite Ht, Hs. destruct (String.eqb_spec (m_role m) "assistant") as [E|Ea].
  - unfold assistant_content. destruct (m_toolCalls m); by destruct ts.
  - apply String.eqb_neq in Ht, Hs. assert (m_role m = "user") as -> by set_solver.
    by destruct ts.
Qed.

Lemma system_state sys pre ts m :
  is_system m = true ->
  anthropic_message true m (loop_state sys pre ts)
  = Ok (loop_state (sys +:+ nl +:+ nl +:+ FixStringUTF8 (m_content m)) pre ts).
Proof.
  unfold is_system, anthropic_message. intros E%String.eqb_eq. rewrite E. cbn.
  by destruct ts.
Qed.

Lemma anthropic_messages_run (l : list Message) sys pre ts :
  Forall known_role l ->
  exists b, anthropic_messages true l (loop_state sys pre ts) =
    Ok (mkFormatState (sys +:+ folded_notes l)
          (pre ++ map item_json (open_items ts (request_items (List.filter (fun m => negb (is_system m)) l)))) b).
Proof.
  intros Hl. revert sys pre ts; induction Hl as [|m l Hm _ IH]; intros sys pre ts.
  - cbn. rewrite str_app_nil_r. destruct ts; cbn; [by eexists | rewrite app_nil_r; by eexists].
  - cbn [anthropic_messages folded_notes List.filter]. destruct (is_system m) eqn:Es; cbn [negb].
    + rewrite system_state by done. cbn [obind].
      destruct (IH (sys +:+ nl +:+ nl +:+ FixStringUTF8 (m_content m)) pre ts) as [b E].
      exists b. rewrite E. do 2 f_equal. by rewrite !str_app_assoc.
    + change ("" +:+ folded_notes l) with (folded_notes l). destruct (is_tool m) eqn:Et.
      * assert (anthropic_message true m (loop_state sys pre ts)
          = Ok (loop_state sys pre (Some (default [] ts ++ [m])))) as ->.
        { rewrite <- append_result_state. unfold anthropic_message, is_tool in *.
          apply String.eqb_eq in Et. by rewrite Et. }
        cbn [obind]. destruct (IH sys pre (Some (default [] ts ++ [m]))) as [b E]. exists b. rewrite E.
        do 3 f_equal. f_equal. cbn [open_items]. destruct ts; cbn [open_items default];
          [by rewrite join_results_tool | by rewrite request_items_tool].
      * rewrite message_state by done. cbn [obind].
        destruct (IH sys (fs_msgs (loop_state sys pre ts) ++ [message_json m]) None) as [b E]. exists b.
        rewrite E. do 2 f_equal. cbn [open_items request_items]. rewrite Et, <- app_assoc.
        destruct ts as [ts|]; [|done]. cbn. by rewrite <- app_assoc.
Qed.

(** C18.  The body of a native-mode request.  Each maximal run of tool results -
    system messages aside - becomes one user message of tool_result blocks, in
    order; every other message becomes one message; and every system message is
    appended to the system prompt. *)
Theorem anthropic_request_shape (l : list Message) (prompt : string) :
  Forall known_role l ->
  exists st, anthropic_messages (J := J) true l (initial_format prompt) = Ok st /\
    fs_system st = prompt +:+ folded_notes l /\
    fs_msgs st = map item_json (request_items (List.filter (fun m => negb (is_system m)) l)).
Proof.
  intros Hl. destruct (anthropic_messages_run l prompt [] None Hl) as [b E]. eexists. split; [exact E|].
  done.
Qed.
End FormatFacts.

Section StreamFacts.
Context {J : Type} `{JsonLaws J}.

(** *** Blocks and lines *)

Local Notation keeps_buffer f :=
  (forall b ctx, f (ac_set_buffer b ctx) = (ac_set_buffer b (f ctx).1.1, (f ctx).1.2, (f ctx).2)).

Lemma anthropic_line_buffer (l : string) : keeps_buffer (anthropic_line (J := J) l).
Proof.
  intros b ctx. unfold anthropic_line. destruct (negb _); [done|]. destruct (str_empty _); [done|].
  destruct (json_parse _) as [data|]; [|done]. unfold anthropic_event.
  destruct (value_string "type" "" data) as [type|]; [|done]. repeat (destruct (String.eqb type _)); try done.
  - unfold content_block_start. cbn [toolUses ac_set_buffer]. repeat case_match; by simplify_eq/=.
  - unfold content_block_delta, add_input. cbn [toolUses ac_set_buffer]. repeat case_match; by simplify_eq/=.
  - unfold message_delta. repeat case_match; by simplify_eq/=.
Qed.

Lemma anthropic_lines_buffer (ls : list string) : keeps_buffer (anthropic_lines (J := J) ls).
Proof.
  induction ls as [|l ls IH]; intros b ctx; [done|]. cbn [anthropic_lines]. rewrite anthropic_line_buffer.
  destruct (anthropic_line l ctx) as [[ctx1 c1] []]; [done|]. cbn. rewrite IH.
  by destruct (anthropic_lines ls ctx1) as [[]].
Qed.

(** Whether a line is the event that ends the stream. *)
Definition stops (l : string) : bool := (anthropic_line (J := J) l initial_anthropic).2.

Lemma stops_spec (l : string) ctx : (anthropic_line (J := J) l ctx).2 = stops l.
Proof.
  unfold stops, anthropic_line, anthropic_event. repeat (case_match; try done); by simplify_eq/=.
Qed.

(** Only line ends follow the event that ends the stream. *)
Fixpoint quiet (ls : list string) (rest : string) : Prop :=
  match ls with
  | [] => True
  | l :: ls => if stops l then Forall (eq "") ls /\ rest = "" else quiet ls rest
  end.

Lemma quiet_blank (ls : list string) rest : Forall (eq "") ls -> quiet ls rest.
Proof. induction 1 as [|l ls <- _ IH]; done. Qed.

Lemma anthropic_lines_blank (ls : list string) ctx :
  Forall (eq "") ls -> anthropic_lines (J := J) ls ctx = (ctx, [], false).
Proof. induction 1 as [|l ls <- _ IH]; [done|]. cbn. by rewrite IH. Qed.

Lemma anthropic_lines_app (a b : list string) ctx :
  anthropic_lines (J := J) (a ++ b) ctx =
  let '(ctx1, c1, stopped) := anthropic_lines a ctx in
  if stopped then (ctx1, c1, true)
  else let '(ctx2, c2, stopped) := anthropic_lines b ctx1 in (ctx2, c1 ++ c2, stopped).
Proof.
  revert ctx; induction a as [|l a IH]; intros ctx; [cbn; by destruct (anthropic_lines b ctx) as [[]]|].
  cbn [app anthropic_lines]. destruct (anthropic_line l ctx) as [[ctx1 c1] []]; [done|]. rewrite IH.
  destruct (anthropic_lines a ctx1) as [[ctx2 c2] []]; [done|].
  destruct (anthropic_lines b ctx2) as [[ctx3 c3] ?]. by rewrite app_assoc.
Qed.

Lemma quiet_app (a b : list string) rest ctx :
  quiet (a ++ b) rest ->
  if (anthropic_lines (J := J) a ctx).2 then Forall (eq "") b /\ rest = "" else quiet b rest.
Proof.
  revert ctx; induction a as [|l a IH]; intros ctx; [done|]. cbn [app quiet anthropic_lines].
  rewrite <- (stops_spec l ctx). destruct (anthropic_line l ctx) as [[ctx1 c1] []]; cbn [snd].
  - by intros [[_ Hb]%Forall_app Hr].
  - intros Hq. specialize (IH ctx1 Hq). by destruct (anthropic_lines a ctx1) as [[]].
Qed.

Lemma take_lines_blank (cur s : string) ls :
  take_lines cur s = (ls, "") -> Forall (eq "") ls -> cur = "".
Proof.
  revert cur ls; induction s as [|c s IH]; intros cur ls E Hl; cbn [take_lines] in E; [by simplify_eq|].
  destruct (Ascii.eqb c NL).
  - destruct (take_lines "" s). injection E as <- _. by apply Forall_cons in Hl as [<- _].
  - specialize (IH _ _ E Hl). by destruct cur.
Qed.

(** The text of a stream that ends quietly can be cut anywhere: the context is that
    of its lines, but for what the buffer holds. *)
Lemma anthropic_chunks_lines (chunks : list string) (ctx : AnthropicStreamContext) ls rest :
  occurs NL (ac_buffer ctx) = false ->
  take_lines "" (ac_buffer ctx +:+ string_concat chunks) = (ls, rest) -> quiet ls rest ->
  exists b, anthropic_chunks (J := J) chunks ctx =
    (ac_set_buffer b (anthropic_lines (J := J) ls ctx).1.1, (anthropic_lines (J := J) ls ctx).1.2).
Proof.
  revert ctx ls; induction chunks as [|c chunks IH]; intros ctx ls Hb E Hq.
  - cbn [string_concat fold_right] in E. rewrite str_app_nil_r, take_lines_none in E by done.
    injection E as <- <-. exists (ac_buffer ctx). by destruct ctx.
  - change (string_concat (c :: chunks)) with (c +:+ string_concat chunks) in E.
    rewrite <- str_app_assoc, (take_lines_app "" (ac_buffer ctx +:+ c)) in E.
    cbn [anthropic_chunks]. unfold ProcessAnthropicSSEChunk.
    pose proof (take_lines_rest "" (ac_buffer ctx +:+ c) eq_refl) as Hr.
    destruct (take_lines "" (ac_buffer ctx +:+ c)) as [l1 r1]. cbn in Hr.
    destruct (take_lines r1 (string_concat chunks)) as [l2 r2] eqn:E2. injection E as <- <-.
    rewrite anthropic_lines_app. pose proof (quiet_app l1 l2 r2 ctx Hq) as Hq2.
    destruct (anthropic_lines l1 ctx) as [[ctx1 c1] stopped]. cbn [snd] in Hq2.
    assert (exists l2', take_lines "" ((if stopped then "" else r1) +:+ string_concat chunks) = (l2', r2) /\
      quiet l2' r2 /\ (stopped = true -> Forall (eq "") l2') /\ (stopped = false -> l2' = l2)) as (l2' & E2' & Hq2' & Hst & Hns).
    { destruct stopped.
      - destruct Hq2 as [Hbl ->]. assert (r1 = "") as -> by by eapply take_lines_blank.
        exists l2. split; [done|]. split; [by apply quiet_blank | done].
      - exists l2. rewrite take_lines_app, take_lines_none by done. cbn. rewrite E2. done. }
    destruct (IH (ac_set_buffer (if stopped then "" else r1) ctx1) l2') as [b Eb];
      [by destruct stopped | exact E2' | exact Hq2'|].
    exists b. rewrite Eb, anthropic_lines_buffer. cbn [fst snd]. destruct stopped.
    + rewrite anthropic_lines_blank by by apply Hst. cbn. by rewrite app_nil_r.
    + rewrite (Hns eq_refl). by destruct (anthropic_lines l2 ctx1) as [[]].
Qed.

(** *** What the service sends

    A response as the protocol streams it: content blocks one after the other,
    text or tool use, each with its fragments, then the stop reason. *)

Inductive ContentBlock :=
  | TextBlock (fragments : list string)
  | ToolBlock (id name : string) (fragments : list string).

Definition block_start (i : Z) (block : list (string * J)) : J :=
  j_fields [("type", j_string "content_block_start"); ("index", j_int i); ("content_block", j_fields block)].
Definition block_delta (i : Z) (delta : list (string * J)) : J :=
  j_fields [("type", j_string "content_block_delta"); ("index", j_int i); ("delta", j_fields delta)].
Definition block_stop (i : Z) : J :=
  j_fields [("type", j_string "content_block_stop"); ("index", j_int i)].
Definition text_delta (i : Z) (t : string) : J :=
  block_delta i [("type", j_string "text_delta"); ("text", j_string t)].
Definition input_delta (i : Z) (t : string) : J :=
  block_delta i [("type", j_string "input_json_delta"); ("partial_json", j_string t)].

Definition block_events (i : Z) (b : ContentBlock) : list J :=
  match b with
  | TextBlock fragments =>
      block_start i [("type", j_string "text"); ("text", j_string "")]
      :: map (text_delta i) fragments ++ [block_stop i]
  | ToolBlock id name fragments =>
      block_start i [("type", j_string "tool_use"); ("id", j_string id); ("name", j_string name);
                     ("input", j_object ∅)]
      :: map (input_delta i) fragments ++ [block_stop i]
  end.

Fixpoint blocks_events (i : Z) (bs : list ContentBlock) : list J :=
  match bs with [] => [] | b :: bs => block_events i b ++ blocks_events (i + 1) bs end.

Definition stop_reason_event (reason : string) : J :=
  j_fields [("type", j_string "message_delta"); ("delta", j_fields [("stop_reason", j_string reason)])].
Definition message_stop_event : J := j_fields [("type", j_string "message_stop")].

(** An event: its name, its data, an empty line. *)
Definition event_name (e : J) : string :=
  match value_string "type" "" e with Ok t => t | Throw _ => "" end.

Fixpoint named_stream (events : list J) : outcome string :=
  match events with
  | [] => Ok ""
  | e :: events =>
      line <-- json_dump None e ;; rest <-- named_stream events ;;
      Ok ("event: " +:+ event_name e +:+ nl +:+ "data: " +:+ line +:+ nl +:+ nl +:+ rest)
  end.

(** The events, one by one. *)
Fixpoint anthropic_events (events : list J) (ctx : AnthropicStreamContext)
    : AnthropicStreamContext * list string * bool :=
  match events with
  | [] => (ctx, [], false)
  | e :: events =>
      let '(ctx1, c1, stopped) := anthropic_event e ctx in
      if stopped then (ctx1, c1, true)
      else let '(ctx2, c2, stopped) := anthropic_events events ctx1 in (ctx2, c1 ++ c2, stopped)
  end.

(** Only the last event ends the stream. *)
Fixpoint stop_last (events : list J) : Prop :=
  match events with
  | [] => True
  | e :: events => if String.eqb (event_name e) "message_stop" then events = [] else stop_last events
  end.

Lemma anthropic_event_line e line ctx :
  json_plain e -> json_dump None e = Ok line ->
  anthropic_line (J := J) ("data: " +:+ line) ctx = anthropic_event e ctx.
Proof.
  intros Hp Hd. unfold anthropic_line. rewrite starts_with_app. cbn [negb].
  change 6%nat with (String.length "data: "). rewrite str_drop_app.
  destruct (dump_one_line _ _ Hd) as [Hne _]. rewrite (proj2 (str_empty_false line) Hne).
  by rewrite (parse_dump _ _ _ Hp Hd).
Qed.

Lemma anthropic_event_stops e ctx :
  (anthropic_event (J := J) e ctx).2 = String.eqb (event_name e) "message_stop".
Proof.
  unfold anthropic_event, event_name. destruct (value_string "type" "" e) as [t|]; [|done].
  destruct (String.eqb_spec t "content_block_start") as [->|_]; [done|].
  destruct (String.eqb_spec t "content_block_delta") as [->|_]; [by destruct (content_block_delta e ctx) as [[]]|].
  destruct (String.eqb_spec t "content_block_stop") as [->|_]; [done|].
  destruct (String.eqb_spec t "message_delta") as [->|_]; [done|]. by destruct (String.eqb t "message_stop").
Qed.

Lemma named_stream_lines events text :
  Forall json_plain events -> Forall (fun e => occurs NL (event_name e) = false) events ->
  named_stream events = Ok text ->
  exists ls, take_lines "" text = (ls, "") /\
    (forall ctx, anthropic_lines ls ctx = anthropic_events events ctx) /\
    (stop_last events -> quiet ls "").
Proof.
  intros Hp Hn. revert text; induction Hp as [|e events He _ IH]; intros text E.
  - injection E as <-. by exists [].
  - apply Forall_cons in Hn as [Hn Hns]. cbn [named_stream] in E.
    destruct (json_dump None e) as [line|] eqn:Ed; [|done].
    cbn [obind] in E. destruct (named_stream events) as [rest|] eqn:Er; [|done]. cbn [obind] in E.
    assert (("event: " +:+ event_name e) +:+ nl +:+ ("data: " +:+ line) +:+ nl +:+ "" +:+ nl +:+ rest = text) as <-
      by (rewrite !str_app_assoc; injection E as <-; reflexivity).
    clear E. destruct (IH Hns rest eq_refl) as (ls & El & Hrun & Hq).
    destruct (dump_one_line _ _ Ed) as [_ Hl].
    exists (("event: " +:+ event_name e) :: ("data: " +:+ line) :: "" :: ls).
    assert (forall ctx, anthropic_line (J := J) ("event: " +:+ event_name e) ctx = (ctx, [], false)) as Hev by done.
    assert (forall ctx, anthropic_line (J := J) "" ctx = (ctx, [], false)) as Hbl by done.
    split_and!.
    + by rewrite !take_lines_line, El by (rewrite ?occurs_app, ?Hn, ?Hl; done).
    + intros ctx. cbn [anthropic_lines anthropic_events]. rewrite Hev, (anthropic_event_line e) by done.
      destruct (anthropic_event e ctx) as [[ctx1 c1] []]; [done|]. rewrite Hbl, Hrun.
      by destruct (anthropic_events events ctx1) as [[]].
    + cbn [stop_last quiet]. unfold stops. rewrite Hev, Hbl, (anthropic_event_line e) by done. cbn [snd].
      rewrite anthropic_event_stops. destruct (String.eqb _ _); [|done]. intros ->.
      injection Er as <-. injection El as <-. split; [by repeat constructor | done].
Qed.

(** *** What the decoder makes of a response *)

Ltac fields := rewrite ?value_string_j_fields, ?value_int_j_fields, ?jfield_j_fields;
  cbn [assoc_last String.eqb Ascii.eqb Bool.eqb from_option id]; rewrite ?get_string_j_string.

Lemma run_block_start_text i ctx :
  is_int i ->
  anthropic_event (block_start i [("type", j_string "text"); ("text", j_string "" : J)]) ctx =
  (ac_set_index (-1) ctx, [], false).
Proof.
  intros Hi. unfold anthropic_event, block_start, content_block_start. fields.
  rewrite get_int_j_int by done. cbn [obind]. fields. done.
Qed.

Lemma run_block_start_tool i id name E ctx :
  is_int i -> json_dump None (j_object ∅ : J) = Ok E ->
  anthropic_event (block_start i [("type", j_string "tool_use"); ("id", j_string id); ("name", j_string name);
                                  ("input", j_object ∅ : J)]) ctx =
  (ac_set_tools (toolUses ctx ++ [mkPartialToolUse id name E])
     (ac_set_index (Z.of_nat (length (toolUses ctx))) ctx), [], false).
Proof.
  intros Hi HE. unfold anthropic_event, block_start, content_block_start. fields.
  rewrite get_int_j_int by done. cbn [obind]. fields. cbn [obind]. unfold partial_tool_use. fields. cbn [obind].
  unfold is_object. rewrite view_j_object, HE. done.
Qed.

Lemma run_text_delta i t ctx :
  is_int i ->
  anthropic_event (text_delta i t : J) ctx =
  (ac_add_text t ctx, if str_empty t then [] else [t], false).
Proof.
  intros Hi. unfold anthropic_event, text_delta, block_delta, content_block_delta. fields.
  rewrite get_int_j_int by done. cbn [obind]. fields. cbn [obind]. fields.
  destruct (str_empty t) eqn:Et; [|done]. apply str_empty_spec in Et. subst.
  unfold ac_add_text. rewrite str_app_nil_r. by destruct ctx.
Qed.

Lemma run_input_delta i t ctx :
  is_int i ->
  anthropic_event (input_delta i t : J) ctx = (if str_empty t then ctx else add_input i t ctx, [], false).
Proof.
  intros Hi. unfold anthropic_event, input_delta, block_delta, content_block_delta. fields.
  rewrite get_int_j_int by done. cbn [obind]. fields. cbn [obind]. by fields.
Qed.

Lemma run_block_stop i ctx :
  anthropic_event (block_stop i : J) ctx = (ac_set_index (-1) ctx, [], false).
Proof. unfold anthropic_event, block_stop. by fields. Qed.

(** What a context keeps of a response: text, stop reason and tool uses. *)
Definition contents (ctx : AnthropicStreamContext) : string * string * list PartialToolUse :=
  (ac_fullText ctx, ac_finishReason ctx, toolUses ctx).

(** The events reach contents [c] having streamed [out], whatever follows. *)
Definition reaches (events : list J) (ctx : AnthropicStreamContext) (out : list string)
    (c : string * string * list PartialToolUse) : Prop :=
  exists ctx', contents ctx' = c /\
    forall rest, anthropic_events (events ++ rest) ctx =
      let '(ctx2, c2, stopped) := anthropic_events rest ctx' in (ctx2, out ++ c2, stopped).

Lemma reaches_nil ctx : reaches [] ctx [] (contents ctx).
Proof. exists ctx. split; [done|]. intros rest. cbn [app]. by destruct (anthropic_events rest ctx) as [[]]. Qed.

Lemma reaches_one e ctx ctx' out :
  anthropic_event e ctx = (ctx', out, false) -> reaches [e] ctx out (contents ctx').
Proof. intros E. exists ctx'. split; [done|]. intros rest. cbn. by rewrite E. Qed.

Lemma reaches_app a b ctx out1 c1 out2 c2 :
  reaches a ctx out1 c1 -> (forall ctx1, contents ctx1 = c1 -> reaches b ctx1 out2 c2) ->
  reaches (a ++ b) ctx (out1 ++ out2) c2.
Proof.
  intros (ctx1 & E1 & Ha) Hb. destruct (Hb ctx1 E1) as (ctx2 & E2 & Hb2). exists ctx2. split; [done|].
  intros rest. rewrite <- app_assoc, Ha, Hb2. destruct (anthropic_events rest ctx2) as [[]].
  by rewrite app_assoc.
Qed.

Lemma reaches_texts i ts ctx :
  is_int i ->
  reaches (map (text_delta i) ts) ctx (List.filter nonempty ts)
    (ac_fullText ctx +:+ string_concat ts, ac_finishReason ctx, toolUses ctx).
Proof.
  intros Hi. revert ctx; induction ts as [|t ts IH]; intros ctx.
  - cbn. rewrite str_app_nil_r. apply reaches_nil.
  - change (t :: ts) with ([t] ++ ts). rewrite map_app, List.filter_app.
    eapply reaches_app.
    + replace (List.filter nonempty [t]) with (if str_empty t then [] else [t])
        by (cbn; unfold nonempty; by destruct (str_empty t)).
      apply reaches_one, run_text_delta, Hi.
    + intros ctx1 [= E1 E2 E3]. specialize (IH ctx1). rewrite E1, E2, E3 in IH.
      change (string_concat ([t] ++ ts)) with (t +:+ string_concat ts). by rewrite <- str_app_assoc.
Qed.

(** The fragments a tool use keeps: the block index is read as an index among the
    tool uses. *)
Definition kept (i k : nat) (ts : list string) : string := if Nat.eqb i k then string_concat ts else "".

Lemma add_input_last i l tu t ctx :
  (length l <= i)%nat -> toolUses ctx = l ++ [tu] ->
  contents (if str_empty t then ctx else add_input (Z.of_nat i) t ctx) =
  (ac_fullText ctx, ac_finishReason ctx,
   l ++ [mkPartialToolUse (pu_id tu) (pu_name tu) (inputJson tu +:+ kept i (length l) [t])]).
Proof.
  intros Hi Et. unfold contents, kept. destruct (str_empty t) eqn:E.
  - apply str_empty_spec in E. subst. rewrite Et. assert ((if Nat.eqb i (length l) then string_concat [""] else "") = "")
      as -> by by destruct (Nat.eqb i (length l)). rewrite str_app_nil_r. by destruct tu.
  - unfold add_input. rewrite Et, length_app. cbn [length].
    destruct (Z.leb_spec 0 (Z.of_nat i)); [|lia]. cbn [andb].
    destruct (Z.ltb_spec (Z.of_nat i) (Z.of_nat (length l + 1))), (Nat.eqb_spec i (length l)); try lia.
    + subst i. unfold string_concat. cbn [fold_right]. rewrite str_app_nil_r, Nat2Z.id.
      cbn [ac_fullText ac_finishReason toolUses ac_set_tools]. f_equal.
      rewrite <- (Nat.add_0_r (length l)) at 1. by rewrite alter_app_r.
    + rewrite str_app_nil_r, Et. by destruct tu.
Qed.

Lemma reaches_inputs i ts l tu ctx :
  is_int (Z.of_nat i) -> (length l <= i)%nat -> toolUses ctx = l ++ [tu] ->
  reaches (map (input_delta (Z.of_nat i)) ts) ctx []
    (ac_fullText ctx, ac_finishReason ctx,
     l ++ [mkPartialToolUse (pu_id tu) (pu_name tu) (inputJson tu +:+ kept i (length l) ts)]).
Proof.
  intros Hi Hl. revert tu ctx; induction ts as [|t ts IH]; intros tu ctx Et.
  - replace (inputJson tu +:+ kept i (length l) []) with (inputJson tu)
      by (unfold kept; by destruct (Nat.eqb i (length l)); rewrite str_app_nil_r).
    replace (mkPartialToolUse _ _ _) with tu by by destruct tu. rewrite <- Et. apply reaches_nil.
  - change (t :: ts) with ([t] ++ ts). rewrite map_app. change (@nil string) with (@nil string ++ []).
    eapply reaches_app; [apply reaches_one, run_input_delta, Hi|].
    rewrite (add_input_last i l tu) by done. intros ctx1 [= E1 E2 E3]. specialize (IH _ ctx1 E3).
    rewrite E1, E2 in IH. cbn [pu_id pu_name inputJson] in IH. rewrite str_app_assoc in IH.
    replace (kept i (length l) [t] +:+ kept i (length l) ts) with (kept i (length l) ([t] ++ ts)) in IH; [done|].
    unfold kept. destruct (Nat.eqb i (length l)); [|done]. unfold string_concat. cbn. by rewrite str_app_nil_r.
Qed.

(** The text fragments of a response, and the tool uses as they are decoded: [E] is
    the empty object's text. *)
Definition block_texts (b : ContentBlock) : list string :=
  match b with TextBlock ts => ts | ToolBlock _ _ _ => [] end.
Fixpoint decoded_uses (E : string) (i k : nat) (bs : list ContentBlock) : list PartialToolUse :=
  match bs with
  | [] => []
  | TextBlock _ :: bs => decoded_uses E (S i) k bs
  | ToolBlock id name ts :: bs => mkPartialToolUse id name (E +:+ kept i k ts) :: decoded_uses E (S i) (S k) bs
  end.

Lemma reaches_block E i b ctx :
  json_dump None (j_object ∅ : J) = Ok E -> is_int (Z.of_nat i) -> (length (toolUses ctx) <= i)%nat ->
  reaches (block_events (Z.of_nat i) b) ctx (List.filter nonempty (block_texts b))
    (ac_fullText ctx +:+ string_concat (block_texts b), ac_finishReason ctx,
     toolUses ctx ++ decoded_uses E i (length (toolUses ctx)) [b]).
Proof.
  intros HE Hi Hk. destruct b as [ts|id name ts]; cbn [block_events block_texts decoded_uses].
  - rewrite app_nil_r. change (List.filter nonempty ts) with ([] ++ List.filter nonempty ts).
    change (?a :: ?b ++ ?c) with ([a] ++ (b ++ c)).
    eapply reaches_app; [apply reaches_one, run_block_start_text, Hi|]. intros ctx1 [= E1 E2 E3].
    rewrite <- (app_nil_r (List.filter nonempty ts)), <- E1, <- E2, <- E3.
    eapply reaches_app; [apply reaches_texts, Hi|]. intros ctx2 Ec. rewrite <- Ec.
    exact (reaches_one _ _ _ _ (run_block_stop _ ctx2)).
  - change (string_concat []) with "". rewrite str_app_nil_r. change (List.filter nonempty []) with (@nil string ++ []).
    change (?a :: ?b ++ ?c) with ([a] ++ (b ++ c)).
    eapply reaches_app; [apply reaches_one, (run_block_start_tool _ _ _ E); done|]. intros ctx1 [= E1 E2 E3].
    change (@nil string) with (@nil string ++ []). rewrite <- E1, <- E2.
    eapply reaches_app; [apply (reaches_inputs i ts (toolUses ctx) (mkPartialToolUse id name E) ctx1); done|].
    cbn [pu_id pu_name inputJson]. intros ctx2 Ec. rewrite <- Ec.
    exact (reaches_one _ _ _ _ (run_block_stop _ ctx2)).
Qed.

Lemma decoded_uses_app E i k b bs :
  decoded_uses E i k (b :: bs) = decoded_uses E i k [b] ++ decoded_uses E (S i) (k + length (decoded_uses E i k [b])) bs.
Proof. destruct b; cbn; [by rewrite Nat.add_0_r | by rewrite Nat.add_1_r]. Qed.

Lemma reaches_blocks E i bs ctx :
  json_dump None (j_object ∅ : J) = Ok E -> Z.of_nat (i + length bs) < 2 ^ 31 ->
  (length (toolUses ctx) <= i)%nat ->
  reaches (blocks_events (Z.of_nat i) bs) ctx (List.filter nonempty (flat_map block_texts bs))
    (ac_fullText ctx +:+ string_concat (flat_map block_texts bs), ac_finishReason ctx,
     toolUses ctx ++ decoded_uses E i (length (toolUses ctx)) bs).
Proof.
  intros HE. revert i ctx; induction bs as [|b bs IH]; intros i ctx Hi Hk.
  - cbn. rewrite str_app_nil_r, app_nil_r. apply reaches_nil.
  - cbn [blocks_events flat_map length] in *. rewrite List.filter_app.
    eapply reaches_app; [apply (reaches_block E); [done | unfold is_int; lia | done]|].
    intros ctx1 [= E1 E2 E3]. replace (Z.of_nat i + 1) with (Z.of_nat (S i)) by lia.
    specialize (IH (S i) ctx1). rewrite E1, E2, E3, length_app in IH.
    rewrite string_concat_app, decoded_uses_app. rewrite <- str_app_assoc, (app_assoc (toolUses ctx)).
    apply IH; [lia|]. clear -Hk. destruct b; cbn; lia.
Qed.

(** A whole response. *)
Definition response_events (bs : list ContentBlock) (reason : string) : list J :=
  blocks_events 0 bs ++ [stop_reason_event reason; message_stop_event].

Lemma run_response_end reason ctx :
  anthropic_events [stop_reason_event reason; message_stop_event : J] ctx =
  (ac_set_reason reason ctx, [], true).
Proof.
  cbn [anthropic_events]. unfold anthropic_event, stop_reason_event, message_stop_event. fields.
  unfold message_delta. fields. cbn [mbind option_bind]. fields. done.
Qed.

Lemma run_response E bs reason :
  json_dump None (j_object ∅ : J) = Ok E -> Z.of_nat (length bs) < 2 ^ 31 ->
  exists ctx, anthropic_events (response_events bs reason) initial_anthropic =
      (ctx, List.filter nonempty (flat_map block_texts bs), true) /\
    contents ctx = (string_concat (flat_map block_texts bs), reason, decoded_uses E 0 0 bs).
Proof.
  intros HE Hl. destruct (reaches_blocks E 0 bs initial_anthropic HE) as (ctx & Ec & Hr); [lia | cbn; lia|].
  exists (ac_set_reason reason ctx). unfold response_events. rewrite (Hr _), run_response_end, app_nil_r.
  split; [done|]. unfold contents in *. cbn in *. injection Ec as -> _ ->. done.
Qed.

(** The events are plain trees, named without a line end, and the last one stops. *)
Definition block_utf8 (b : ContentBlock) : Prop :=
  match b with
  | TextBlock ts => Forall utf8 ts
  | ToolBlock id name ts => utf8 id /\ utf8 name /\ Forall utf8 ts
  end.

Definition sound_event (e : J) : Prop :=
  json_plain e /\ occurs NL (event_name e) = false /\ event_name e <> "message_stop".

Ltac plain_tree :=
  repeat first
    [ apply json_plain_string | apply json_plain_fields; intros ? ? ?
    | eapply plain_int; apply view_j_int
    | apply json_plain_object; let Hx := fresh in intros ? ? Hx; by rewrite lookup_empty in Hx
    | progress plain_fields | split; [by apply utf8_ascii|] ]; try (done || by apply utf8_ascii).

Ltac sound := split_and!; [plain_tree | unfold event_name; by fields ..].

Lemma sound_block i b : block_utf8 b -> Forall sound_event (block_events i b).
Proof.
  destruct b as [ts|id name ts]; cbn [block_utf8 block_events].
  - intros Hts. constructor; [unfold block_start; sound|]. apply Forall_app. split.
    + apply Forall_map. eapply Forall_impl; [exact Hts|]. intros t Ht. unfold text_delta, block_delta. sound.
    + constructor; [|constructor]. unfold block_stop. sound.
  - intros (Hid & Hn & Hts). constructor; [unfold block_start; sound|]. apply Forall_app. split.
    + apply Forall_map. eapply Forall_impl; [exact Hts|]. intros t Ht. unfold input_delta, block_delta. sound.
    + constructor; [|constructor]. unfold block_stop. sound.
Qed.

Lemma sound_blocks bs i : Forall block_utf8 bs -> Forall sound_event (blocks_events i bs).
Proof.
  intros Hb. revert i; induction Hb as [|b bs Hb _ IH]; intros i; [constructor|].
  apply Forall_app. split; [by apply sound_block | apply IH].
Qed.

Lemma stop_last_app (l : list J) e : Forall sound_event l -> stop_last (l ++ [e]).
Proof.
  induction 1 as [|e' l (_ & _ & Hn) _ IH]; cbn [app stop_last]; [by destruct (String.eqb _ _)|].
  by apply String.eqb_neq in Hn as ->.
Qed.

Lemma anthropic_stream_decoded E bs reason text chunks :
  json_dump None (j_object ∅ : J) = Ok E -> Z.of_nat (length bs) < 2 ^ 31 ->
  Forall block_utf8 bs -> utf8 reason ->
  named_stream (response_events bs reason) = Ok text -> string_concat chunks = text ->
  exists ctx, anthropic_chunks (J := J) chunks initial_anthropic =
      (ctx, List.filter nonempty (flat_map block_texts bs)) /\
    contents ctx = (string_concat (flat_map block_texts bs), reason, decoded_uses E 0 0 bs).
Proof.
  intros HE Hl Hb Hr Es <-.
  assert (Forall sound_event (blocks_events 0 bs ++ [stop_reason_event reason])) as Hs.
  { apply Forall_app. split; [by apply sound_blocks|]. constructor; [|constructor].
    unfold stop_reason_event. sound. }
  assert (json_plain (message_stop_event : J) /\ event_name (message_stop_event : J) = "message_stop") as [Hp Hn].
  { unfold message_stop_event. split; [plain_tree | unfold event_name; by fields]. }
  replace (response_events bs reason) with ((blocks_events 0 bs ++ [stop_reason_event reason]) ++ [message_stop_event])
    in Es by (unfold response_events; by rewrite <- app_assoc).
  destruct (named_stream_lines ((blocks_events 0 bs ++ [stop_reason_event reason]) ++ [message_stop_event])
    (string_concat chunks))
    as (ls & El & Hrun & Hq); [| | exact Es |].
  - apply Forall_app. split; [eapply Forall_impl; [exact Hs|]; by intros e [] | by apply Forall_singleton].
  - apply Forall_app. split; [eapply Forall_impl; [exact Hs|]; by intros e (_ & ? & _)|].
    constructor; [by rewrite Hn | constructor].
  - destruct (run_response E bs reason HE Hl) as (ctx & Er & Ec).
    destruct (anthropic_chunks_lines chunks initial_anthropic ls "") as [b Eb];
      [done | exact El | by apply Hq, stop_last_app|].
    rewrite Hrun, <- app_assoc in Eb. cbn [app] in Eb. unfold response_events in Er.
    rewrite Er in Eb. exists (ac_set_buffer b ctx). split; [exact Eb | exact Ec].
Qed.
End StreamFacts.

(** *** A call *)

Section InvokeFacts.
Context {J : Type} `{JsonLaws J} {X : Type} `{Curl X}.
Variable config_ : ModelConfig.
Variable shouldCancel : X -> bool.
Hypothesis never_cancelled : forall x, shouldCancel x = false.

Lemma deliver_anthropic (chunks : list string) ctx out (x : X) :
  exists x', deliver (on_anthropic_chunk (J := J) shouldCancel true) chunks (ctx, out, false) x =
    (((anthropic_chunks (J := J) (List.filter nonempty chunks) ctx).1,
      out ++ (anthropic_chunks (J := J) (List.filter nonempty chunks) ctx).2, false), x', true).
Proof.
  revert ctx out x; induction chunks as [|c chunks IH]; intros ctx out x.
  - exists x. cbn. by rewrite app_nil_r.
  - cbn [deliver List.filter].
    assert (str_empty c = negb (nonempty c)) as -> by (unfold nonempty; by destruct (str_empty c)).
    destruct (nonempty c); cbn [negb]; [|apply IH].
    unfold on_anthropic_chunk at 1. cbn [anthropic_chunks].
    destruct (ProcessAnthropicSSEChunk ctx c) as [ctx1 c1]. rewrite never_cancelled.
    destruct (IH ctx1 (out ++ c1) (curl_elapse x)) as [x' E]. exists x'. rewrite E.
    destruct (anthropic_chunks (List.filter nonempty chunks) ctx1) as [ctx2 c2]. cbn. by rewrite app_assoc.
Qed.

(** The calls of a response: ids and names. *)
Definition sent_calls (bs : list ContentBlock) : list (string * string) :=
  flat_map (fun b => match b with TextBlock _ => [] | ToolBlock id name _ => [(id, name)] end) bs.
Definition arguments_of (b : ContentBlock) : string :=
  match b with TextBlock _ => "" | ToolBlock _ _ ts => string_concat ts end.

Lemma decoded_uses_calls (E : string) (bs : list ContentBlock) i k :
  json_dump None (j_object ∅ : J) = Ok E ->
  (forall b, b ∈ bs -> arguments_of b <> "" -> is_ok (json_parse (J := J) (E +:+ arguments_of b)) = false) ->
  map (fun c => (tc_id c, tc_name c)) (map (use_call (J := J)) (decoded_uses E i k bs)) = sent_calls bs /\
  Forall (fun c => tc_argumentsJson c = E \/ tc_argumentsJson c = "{}")
    (map (use_call (J := J)) (decoded_uses E i k bs)).
Proof.
  intros HE Hjunk.
  assert (E <> "") as HE0 by (by destruct (dump_one_line _ _ HE)).
  revert i k; induction bs as [|[ts|id name ts] bs IH]; intros i k; [done|..].
  { apply IH. intros b Hb. apply Hjunk. by right. }
  destruct (IH ltac:(intros b Hb; apply Hjunk; by right) (S i) (S k)) as [Hm Hf].
  cbn [decoded_uses map sent_calls flat_map app]. split; [by f_equal|]. constructor; [|exact Hf].
  unfold use_call. cbn [inputJson tc_argumentsJson]. unfold kept.
  assert (str_empty (E +:+ if Nat.eqb i k then string_concat ts else "") = false) as -> by by destruct E.
  destruct (is_ok _) eqn:Eok; [left | by right].
  destruct (Nat.eqb i k); [|by rewrite str_app_nil_r].
  destruct (decide (string_concat ts = "")) as [->|Hne]; [by rewrite str_app_nil_r|].
  specialize (Hjunk (ToolBlock id name ts) ltac:(left) Hne). cbn in Hjunk. congruence.
Qed.

(** What a streamed response loses.  When a native-mode call receives the bytes
    of a response, cut into blocks anywhere, the text arrives complete and in order,
    and every tool use with its id and name; but the arguments of every call are
    those of the empty input object the stream opens it with, whatever arguments
    follow - the fragments are dropped when the block index is past the tool uses,
    and otherwise appended to that object's text, which no longer parses. *)
Theorem anthropic_arguments_lost (bs : list ContentBlock) (reason text E body : string)
    (chunks : list string) (x x1 : X) (code : Z) :
  useNativeFunctionCalling config_ = true -> 0 <= maxRetries (retryPolicy config_) -> code < 400 ->
  Forall block_utf8 bs -> utf8 reason -> Z.of_nat (length bs) < 2 ^ 31 ->
  json_dump None (j_object ∅ : J) = Ok E ->
  (forall b, b ∈ bs -> arguments_of b <> "" -> is_ok (json_parse (J := J) (E +:+ arguments_of b)) = false) ->
  named_stream (J := J) (response_events bs reason) = Ok text -> string_concat chunks = text ->
  curl_handle x = true ->
  curl_easy_perform (ApplyOptions (messages_request config_ body)) x = (x1, chunks, CURLE_OK, code) ->
  exists x2 calls, Invoke (J := J) config_ shouldCancel body x =
    (x2, List.filter nonempty (flat_map block_texts bs),
     Val (mkModelResponse (string_concat (flat_map block_texts bs)) calls true (map_reason reason) false (Some code))) /\
    map (fun c => (tc_id c, tc_name c)) calls = sent_calls bs /\
    Forall (fun c => tc_argumentsJson c = E \/ tc_argumentsJson c = "{}") calls.
Proof.
  intros Hnative Hretry Hcode Hb Hr Hlen HE Hjunk Es Hc Hh Hperf.
  destruct (deliver_anthropic chunks initial_anthropic [] x1) as [x2 Ed].
  rewrite <- string_concat_nonempty in Hc.
  destruct (anthropic_stream_decoded E bs reason text (List.filter nonempty chunks) HE Hlen Hb Hr Es Hc)
    as (ctx & Ep & [= Et Er Eu]).
  rewrite Ep in Ed. cbn [fst snd app] in Ed.
  exists x2, (map (use_call (J := J)) (decoded_uses E 0 0 bs)).
  split; [|by apply decoded_uses_calls]. unfold Invoke, invoke_attempts.
  destruct (Z.to_nat (1 + maxRetries (retryPolicy config_))) as [|n] eqn:En; [lia|].
  cbn [attempts]. rewrite never_cancelled. unfold DoInvokeOnce at 1, PostStream. rewrite Hh, Hperf. cbn [negb].
  cbn [Nat.eqb]. rewrite Ed. unfold messages_response, finish_transfer. cbn [isCurlError CURLE_OK].
  change (negb (CURLE_OK =? CURLE_OK)) with false. cbn [statusCode].
  destruct (Z.leb_spec 400 code); [lia|]. rewrite Hnative, Et, Er, Eu.
  cbn [mr_isRetryable negb]. by rewrite orb_true_r.
Qed.
End InvokeFacts.

(** ** Witnesses *)

#[local] Instance ex_json0 : Json JsonTree.json := JsonTree.instance [].
#[local] Instance ex_laws : JsonLaws JsonTree.json.
Proof. apply JsonTree.laws. intros x Hx. by apply elem_of_nil in Hx. Qed.

Definition ex_request : list Message :=
  [mkMessage "user" "what time is it?" [] "" "" "" "";
   mkMessage "assistant" "" [mkToolCall "a" "time_info" "{}"; mkToolCall "b" "list_dir" "{}"] "" "" "" "";
   mkMessage "tool" "noon" [] "a" "time_info" "" "";
   mkMessage "system" "note" [] "" "" "" "";
   mkMessage "tool" "nothing" [] "b" "list_dir" "" ""].

Lemma anthropic_request_shape_witness :
  exists st, anthropic_messages (J := JsonTree.json) true ex_request (initial_format "P") = Ok st /\
    fs_system st = "P" +:+ nl +:+ nl +:+ "note" /\ length (fs_msgs st) = 3%nat.
Proof.
  destruct (anthropic_request_shape (J := JsonTree.json) ex_request "P") as (st & E & Es & Em).
  - unfold ex_request, known_role. rewrite !Forall_cons, Forall_nil. cbn [m_role]. split_and!; (exact I || set_solver).
  - exists st. split; [exact E|]. split; [rewrite Es; vm_compute; reflexivity|].
    rewrite Em. vm_compute. reflexivity.
Defined.

Definition ex_response : list ContentBlock :=
  [ToolBlock "t1" "list_dir" ["{n"; ":0}"]; TextBlock ["Look"; "ing."]; ToolBlock "t2" "exec" ["{n:0}"]].
Definition ex_text : string :=
  match named_stream (J := JsonTree.json) (response_events ex_response "tool_use") with
  | Ok t => t | Throw _ => "" end.
Definition ex_chunks : list string := [str_take 1200 ex_text; str_drop 1200 ex_text].
Definition ex_empty_input : string :=
  match json_dump None (j_object ∅ : JsonTree.json) with Ok t => t | Throw _ => "" end.

#[local] Instance ex_curl : Curl unit := {|
  curl_handle := fun _ => true;
  curl_easy_perform := fun _ x => (x, ex_chunks, CURLE_OK, 200);
  curl_easy_strerror := fun _ => "";
  curl_easy_escape := fun s => s;
  curl_easy_unescape := Some;
  curl_elapse := fun x => x;
  random_upto := fun _ x => (x, 0);
  sleep_ms := fun _ x => x;
  logs_info := fun _ => false
|}.

Lemma anthropic_arguments_lost_witness :
  exists x2 calls, Invoke (J := JsonTree.json) default_ModelConfig (fun _ => false) "{}" tt =
    (x2, ["Look"; "ing."], Val (mkModelResponse "Looking." calls true "tool_calls" false (Some 200))) /\
    map (fun c => (tc_id c, tc_name c)) calls = [("t1", "list_dir"); ("t2", "exec")] /\
    Forall (fun c => tc_argumentsJson c = ex_empty_input \/ tc_argumentsJson c = "{}") calls.
Proof.
  apply (anthropic_arguments_lost default_ModelConfig (fun _ => false) (fun _ => eq_refl)
    ex_response "tool_use" ex_text ex_empty_input "{}" ex_chunks tt tt 200).
  - reflexivity.
  - vm_compute. discriminate.
  - reflexivity.
  - unfold ex_response. rewrite !Forall_cons, ?Forall_nil. cbn [block_utf8].
    rewrite !Forall_cons, ?Forall_nil. split_and!; (exact I || by apply utf8_ascii).
  - by apply utf8_ascii.
  - reflexivity.
  - vm_compute. reflexivity.
  - intros b Hb Hne. unfold ex_response in Hb.
    repeat (apply elem_of_cons in Hb as [->|Hb]; [vm_compute; reflexivity || by destruct Hne|]).
    by apply elem_of_nil in Hb.
  - vm_compute. reflexivity.
  - vm_compute. reflexivity.
  - reflexivity.
  - reflexivity.
Defined.
