(* ===== verification/AskUser.v ===== *)
(** * Asking the user (src/core/ask_user_dispatcher.cpp,
    src/tools/builtin_tools/ask_user_tool.cpp, SessionManager::ProvideUserResponse)

    A tool call on a worker thread emits a question and blocks; answers come from
    other threads.  As in SessionManager, a thread is an element of a list with its
    program counter, and a step is what the code does between two lock operations.
    Slots and dispatchers are shared by pointer and live in heaps. *)
From Stdlib Require Import ZArith Lia String Ascii List.
From stdpp Require Import base decidable list strings gmap sets.
From S2P Require Import Prelude Encoding Types JsonLib.
Open Scope Z_scope.

(** ** Request ids *)

Definition hex_digit (n : N) : ascii :=
  ascii_of_N (if (n <? 10)%N then 48 + n else 87 + n).
(** [std::hex]; [fuel] bounds the number of digits. *)
Fixpoint hex_digits (fuel : nat) (n : N) : string :=
  match fuel with
  | O => ""
  | S fuel =>
      if (n <? 16)%N then String (hex_digit n) ""
      else hex_digits fuel (n / 16) +:+ String (hex_digit (n mod 16)) ""
  end.
Definition to_hex (n : N) : string := hex_digits (S (N.to_nat (N.log2 n))) n.

(** [rand] is the device's number xor the clock. *)
Definition GenerateRequestId (seq rand : N) : string := "ask-" +:+ to_hex seq +:+ "-" +:+ to_hex rand.

(** ** State *)

Record Slot := mkSlot {
  sl_answer : option string;
  sl_done : bool
}.

Record Dispatcher := mkDispatcher {
  slots_ : gmap string nat;
  dp_sessionId : string;
  (** Whether it has a router. *)
  router_ : bool
}.

(** What [Invoke] of the tool holds once it has its request id. *)
Record AskRequest := mkAskRequest {
  rq_dispatcher : nat;
  rq_id : string;
  rq_payload : string;
  (** Whether there is a stream callback. *)
  rq_stream : bool
}.

Inductive Thread :=
  | AskCalled (dispatcher : option nat) (input : string) (stream : bool)
  | AskReady (q : AskRequest)
  | AskSlotted (q : AskRequest)
  | AskRegistered (q : AskRequest)
  | AskEmitted (q : AskRequest)
  | AskWaiting (q : AskRequest) (slot : nat)
  | AskWoken (q : AskRequest) (result : option string)
  | AskErased (q : AskRequest) (result : option string)
  | AskReturned (requestId : option string) (result : outcome string)
  | Provide (requestId answer : string)
  | ProvideRouted (requestId answer sessionId : string)
  | ProvideEntry (requestId answer : string) (dispatcher : nat)
  | ProvideSlot (requestId answer : string) (slot : nat)
  | ProvideReturned (requestId answer : string) (ok : bool).

Record AskState := mkAskState {
  slot_heap : list Slot;
  dispatchers : list Dispatcher;
  askRequestToSession_ : gmap string string;
  (** sessions_: the dispatcher of each entry. *)
  session_dispatcher : gmap string nat;
  request_counter : N;
  streamed : list string;
  threads : list Thread
}.
Definition ask_initial : AskState := mkAskState [] [] ∅ ∅ 0 [] [].

Definition set_heap (h : list Slot) (s : AskState) : AskState :=
  mkAskState h (dispatchers s) (askRequestToSession_ s) (session_dispatcher s) (request_counter s)
    (streamed s) (threads s).
Definition set_dispatchers (l : list Dispatcher) (s : AskState) : AskState :=
  mkAskState (slot_heap s) l (askRequestToSession_ s) (session_dispatcher s) (request_counter s)
    (streamed s) (threads s).
Definition set_index (m : gmap string string) (s : AskState) : AskState :=
  mkAskState (slot_heap s) (dispatchers s) m (session_dispatcher s) (request_counter s)
    (streamed s) (threads s).
Definition set_session_dispatcher (m : gmap string nat) (s : AskState) : AskState :=
  mkAskState (slot_heap s) (dispatchers s) (askRequestToSession_ s) m (request_counter s)
    (streamed s) (threads s).
Definition set_counter (n : N) (s : AskState) : AskState :=
  mkAskState (slot_heap s) (dispatchers s) (askRequestToSession_ s) (session_dispatcher s) n
    (streamed s) (threads s).
Definition emit (t : string) (s : AskState) : AskState :=
  mkAskState (slot_heap s) (dispatchers s) (askRequestToSession_ s) (session_dispatcher s)
    (request_counter s) (streamed s ++ [t]) (threads s).
Definition set_threads (l : list Thread) (s : AskState) : AskState :=
  mkAskState (slot_heap s) (dispatchers s) (askRequestToSession_ s) (session_dispatcher s)
    (request_counter s) (streamed s) l.
Definition continue (i : nat) (t : Thread) (s : AskState) : AskState := set_threads (<[i := t]> (threads s)) s.

Definition set_slots (m : gmap string nat) (d : Dispatcher) : Dispatcher :=
  mkDispatcher m (dp_sessionId d) (router_ d).

(** ** Operations under a lock *)

Definition GetOrCreateSlot (d : nat) (requestId : string) (s : AskState) : option (AskState * nat) :=
  dp ← dispatchers s !! d;
  Some (match slots_ dp !! requestId with
        | Some k => (s, k)
        | None =>
            let k := length (slot_heap s) in
            (set_dispatchers (<[d := set_slots (<[requestId := k]> (slots_ dp)) dp]> (dispatchers s))
               (set_heap (slot_heap s ++ [mkSlot None false]) s), k)
        end).

Definition erase_slot (d : nat) (requestId : string) (s : AskState) : AskState :=
  set_dispatchers (alter (fun dp => set_slots (delete requestId (slots_ dp)) dp) d (dispatchers s)) s.

(** [RegisterAskRequest] and [UnregisterAskRequest], when there is a router. *)
Definition register (d : nat) (requestId : string) (s : AskState) : option AskState :=
  dp ← dispatchers s !! d;
  Some (if router_ dp then set_index (<[requestId := dp_sessionId dp]> (askRequestToSession_ s)) s else s).
Definition unregister (d : nat) (requestId : string) (s : AskState) : option AskState :=
  dp ← dispatchers s !! d;
  Some (if router_ dp then set_index (delete requestId (askRequestToSession_ s)) s else s).

Section Step.
Context {J : Type} `{Json J}.
Variable random : N -> N.

Definition kAskUserTimeoutSec : Z := 60.

Definition MakeError (msg : string) : outcome string :=
  json_dump None (j_fields [("ok", j_bool false); ("error", j_string msg)]).

Definition ask_payload (requestId : string) (payload : J) : J :=
  let m := match json_view payload with JObject m => m | _ => ∅ end in
  let m1 := <["request_id" := j_string requestId]> m in
  j_object (match m1 !! "timeout_seconds" with
            | Some _ => m1
            | None => <["timeout_seconds" := j_int kAskUserTimeoutSec]> m1
            end).

(** The tool up to the call of [EmitAskUser]. *)
Definition ask_begin (dispatcher : option nat) (input : string) (stream : bool) (s : AskState)
    : AskState * Thread :=
  match dispatcher with
  | None => (s, AskReturned None (MakeError "ask_user is not available in this context (no dispatcher)"))
  | Some d =>
      match json_parse input with
      | Throw e => (s, AskReturned None (MakeError ("invalid JSON: " +:+ e)))
      | Ok payload =>
          match string_field "question" payload with
          | None => (s, AskReturned None (MakeError "'question' (string) is required"))
          | Some _ =>
              let n := request_counter s in
              let requestId := GenerateRequestId n (random n) in
              (set_counter (n + 1) s,
               match json_dump None (ask_payload requestId payload) with
               | Ok text => AskReady (mkAskRequest d requestId text stream)
               | Throw e => AskReturned None (Throw e)
               end)
          end
      end
  end.

(** The next step of thread [i]; a waiting thread that is not done is blocked. *)
Definition ask_step (i : nat) (s : AskState) : option AskState :=
  t ← threads s !! i;
  match t with
  | AskCalled d input stream => let '(s1, t1) := ask_begin d input stream s in Some (continue i t1 s1)
  | AskReady q => '(s1, _) ← GetOrCreateSlot (rq_dispatcher q) (rq_id q) s; Some (continue i (AskSlotted q) s1)
  | AskSlotted q => s1 ← register (rq_dispatcher q) (rq_id q) s; Some (continue i (AskRegistered q) s1)
  | AskRegistered q =>
      Some (continue i (AskEmitted q)
              (if rq_stream q
               then emit (nl +:+ "[ASK_USER]" +:+ rq_payload q +:+ "[/ASK_USER]" +:+ nl) s else s))
  | AskEmitted q => '(s1, k) ← GetOrCreateSlot (rq_dispatcher q) (rq_id q) s; Some (continue i (AskWaiting q k) s1)
  | AskWaiting q k =>
      sl ← slot_heap s !! k;
      if sl_done sl then Some (continue i (AskWoken q (sl_answer sl)) s) else None
  | AskWoken q r => Some (continue i (AskErased q r) (erase_slot (rq_dispatcher q) (rq_id q) s))
  | AskErased q r =>
      s1 ← unregister (rq_dispatcher q) (rq_id q) s;
      Some (continue i (AskReturned (Some (rq_id q)) (Ok (default "" r))) s1)
  | Provide rid ans =>
      Some (continue i (match askRequestToSession_ s !! rid with
                        | Some sid => ProvideRouted rid ans sid
                        | None => ProvideReturned rid ans false
                        end) s)
  | ProvideRouted rid ans sid =>
      Some (continue i (match session_dispatcher s !! sid with
                        | Some d => ProvideEntry rid ans d
                        | None => ProvideReturned rid ans false
                        end) s)
  | ProvideEntry rid ans d =>
      dp ← dispatchers s !! d;
      Some (continue i (match slots_ dp !! rid with
                        | Some k => ProvideSlot rid ans k
                        | None => ProvideReturned rid ans false
                        end) s)
  | ProvideSlot rid ans k =>
      Some (continue i (ProvideReturned rid ans true)
              (set_heap (<[k := mkSlot (Some ans) true]> (slot_heap s)) s))
  | AskReturned _ _ | ProvideReturned _ _ _ => None
  end.

(** The wait of thread [i] runs out of time: [wait_for] looks at [done] once more. *)
Definition ask_timeout (i : nat) (s : AskState) : option AskState :=
  t ← threads s !! i;
  match t with
  | AskWaiting q k =>
      sl ← slot_heap s !! k;
      Some (continue i (AskWoken q (if sl_done sl then sl_answer sl else None)) s)
  | _ => None
  end.

Inductive ask_action :=
  | AskNew (dispatcher : option nat) (input : string) (stream : bool)
  | ProvideNew (requestId answer : string)
  | AskStep (i : nat)
  | AskTimeout (i : nat)
  | SessionCreated (sessionId : string)
  | SessionRemoved (sessionId : string).

Definition spawn (t : Thread) (s : AskState) : AskState := set_threads (threads s ++ [t]) s.

(** [FindOrCreateEntry] makes the dispatcher of a new session. *)
Definition ask_exec (a : ask_action) (s : AskState) : option AskState :=
  match a with
  | AskNew d input stream => Some (spawn (AskCalled d input stream) s)
  | ProvideNew rid ans => Some (spawn (Provide rid ans) s)
  | AskStep i => ask_step i s
  | AskTimeout i => ask_timeout i s
  | SessionCreated sid =>
      Some (match session_dispatcher s !! sid with
            | Some _ => s
            | None =>
                set_session_dispatcher (<[sid := length (dispatchers s)]> (session_dispatcher s))
                  (set_dispatchers (dispatchers s ++ [mkDispatcher ∅ sid true]) s)
            end)
  | SessionRemoved sid => Some (set_session_dispatcher (delete sid (session_dispatcher s)) s)
  end.

Fixpoint ask_exec_all (acts : list ask_action) (s : AskState) : option AskState :=
  match acts with
  | [] => Some s
  | a :: acts => s1 ← ask_exec a s; ask_exec_all acts s1
  end.

(** The states of a process. *)
Definition ask_reachable : AskState -> Prop :=
  reach (fun s s' => exists a, ask_exec a s = Some s') ask_initial.
End Step.

(** ** Facts *)

(** *** Request ids are fresh *)

Definition hex_value (c : ascii) : N :=
  let n := N_of_ascii c in if (n <? 58)%N then n - 48 else n - 87.
Fixpoint hex_number (acc : N) (s : string) : N :=
  match s with
  | EmptyString => acc
  | String c s => hex_number (16 * acc + hex_value c) s
  end.

Lemma hex_number_app acc a b : hex_number acc (a +:+ b) = hex_number (hex_number acc a) b.
Proof. revert acc; induction a as [|c a IH]; intros acc; [done|]. cbn. apply IH. Qed.

Lemma hex_digit_value n : (n < 16)%N -> hex_value (hex_digit n) = n /\ Ascii.eqb (hex_digit n) "-" = false.
Proof.
  intros Hn. assert (forall m, (m < 16)%nat -> hex_value (hex_digit (N.of_nat m)) = N.of_nat m /\
    Ascii.eqb (hex_digit (N.of_nat m)) "-" = false) as H.
  { intros m Hm. do 16 (destruct m as [|m]; [by vm_compute|]). lia. }
  specialize (H (N.to_nat n)). rewrite N2Nat.id in H. apply H. lia.
Qed.

Lemma hex_digits_spec fuel n :
  (n < 16 ^ N.of_nat fuel)%N -> hex_number 0 (hex_digits fuel n) = n /\ occurs "-" (hex_digits fuel n) = false.
Proof.
  revert n; induction fuel as [|fuel IH]; intros n Hn; [cbn in *; split; [lia | done]|].
  cbn [hex_digits]. destruct (N.ltb_spec n 16) as [Hlt|Hge].
  - destruct (hex_digit_value n Hlt) as [Hv Ho]. cbn [hex_number occurs]. rewrite Hv. split; [lia|]. by rewrite Ascii.eqb_sym, Ho.
  - rewrite Nat2N.inj_succ, N.pow_succ_r' in Hn.
    destruct (IH (n / 16)%N) as [Hv Ho]; [apply N.Div0.div_lt_upper_bound; lia|].
    destruct (hex_digit_value (n mod 16)) as [Hd Hm]; [by apply N.mod_lt|].
    rewrite hex_number_app, Hv, occurs_app, Ho. cbn [hex_number occurs]. rewrite Hd, Ascii.eqb_sym, Hm. split; [|done].
    pose proof (N.div_mod' n 16). lia.
Qed.

Lemma to_hex_spec n : hex_number 0 (to_hex n) = n /\ occurs "-" (to_hex n) = false.
Proof.
  apply hex_digits_spec. rewrite Nat2N.inj_succ, N2Nat.id.
  eapply N.lt_le_trans; [|apply (N.pow_le_mono_l 2); lia].
  destruct (N.eq_dec n 0%N) as [->|Hn]; [done|]. apply N.log2_spec. lia.
Qed.

Lemma split_at_inj d a b a' b' :
  occurs d a = false -> occurs d a' = false -> a +:+ String d b = a' +:+ String d b' -> a = a'.
Proof.
  revert a'; induction a as [|c a IH]; intros [|c' a'] Ha Ha' E; cbn in *; try done.
  - injection E as <- _. by rewrite Ascii.eqb_refl in Ha'.
  - injection E as -> _. by rewrite Ascii.eqb_refl in Ha.
  - injection E as <- E. apply orb_false_iff in Ha as [_ Ha], Ha' as [_ Ha']. f_equal. by apply IH.
Qed.

Lemma GenerateRequestId_inj n r n' r' : GenerateRequestId n r = GenerateRequestId n' r' -> n = n'.
Proof.
  unfold GenerateRequestId. intros E. cbn [String.append] in E. injection E as E.
  destruct (to_hex_spec n) as [Hn On], (to_hex_spec n') as [Hn' On'].
  apply split_at_inj in E; [|done..]. congruence.
Qed.

(** *** Answers reach the right request *)

Section AskFacts.
Context {J : Type} `{Json J}.
Variable random : N -> N.
Local Notation ask_exec := (ask_exec (J := J) random).
Local Notation ask_step := (ask_step (J := J) random).
Local Notation ask_reachable := (ask_reachable (J := J) random).

(** A call of [ProvideUserResponse] that returned true with this answer. *)
Definition given (s : AskState) (rid a : string) : Prop := ProvideReturned rid a true ∈ threads s.

Definition final (t : Thread) : bool :=
  match t with AskReturned _ _ | ProvideReturned _ _ _ => true | _ => false end.

(** [owner k] is the request the slot [k] was made for. *)
Definition thread_ok (owner : nat -> string) (n : nat) (P : string -> string -> Prop) (t : Thread) : Prop :=
  match t with
  | AskWaiting q k => (k < n)%nat /\ owner k = rq_id q
  | ProvideSlot rid _ k => (k < n)%nat /\ owner k = rid
  | AskWoken q (Some a) | AskErased q (Some a) => P (rq_id q) a
  | AskReturned (Some rid) (Ok text) => text = "" \/ P rid text
  | _ => True
  end.

Record answers_inv (owner : nat -> string) (s : AskState) : Prop := {
  ai_threads t : t ∈ threads s -> thread_ok owner (length (slot_heap s)) (given s) t;
  ai_slots d dp rid k : dispatchers s !! d = Some dp -> slots_ dp !! rid = Some k ->
    (k < length (slot_heap s))%nat /\ owner k = rid;
  ai_answers k sl a : slot_heap s !! k = Some sl -> sl_answer sl = Some a -> given s (owner k) a
}.

Lemma thread_ok_mono owner (P Q : string -> string -> Prop) n t :
  (forall rid a, P rid a -> Q rid a) -> thread_ok owner n P t -> thread_ok owner n Q t.
Proof. intros HPQ. destruct t as [| | | | | |q [a|]|q [a|]|[rid|] [x|]| | | | |]; cbn; naive_solver. Qed.

Lemma given_continue s i t0 t rid a :
  threads s !! i = Some t0 -> final t0 = false -> given s rid a -> given (continue i t s) rid a.
Proof.
  intros Hi Hf Hg. apply list_elem_of_lookup in Hg as [j Hj]. apply list_elem_of_lookup. exists j. cbn.
  rewrite list_lookup_insert_ne; [done|]. intros ->. rewrite Hi in Hj. by simplify_eq.
Qed.

(** The invariant does not look at the index, the sessions, the counter and the stream. *)
Lemma inv_same owner s s' :
  answers_inv owner s -> slot_heap s' = slot_heap s -> dispatchers s' = dispatchers s ->
  threads s' = threads s -> answers_inv owner s'.
Proof.
  intros [Ht Hs Ha] Eh Ed Et. split; unfold given; rewrite ?Eh, ?Ed, ?Et; done.
Qed.

Lemma inv_continue owner s i t0 t :
  answers_inv owner s -> threads s !! i = Some t0 -> final t0 = false ->
  thread_ok owner (length (slot_heap s)) (given (continue i t s)) t -> answers_inv owner (continue i t s).
Proof.
  intros [Ht Hs Ha] Hi Hf Hok. split; cbn.
  - intros t' Hin. apply list_elem_of_lookup in Hin as [j Hj].
    destruct (decide (i = j)) as [->|Hne].
    + rewrite list_lookup_insert_eq in Hj by (by eapply lookup_lt_Some). by simplify_eq.
    + rewrite list_lookup_insert_ne in Hj by done. apply (thread_ok_mono _ (given s)).
      * intros rid a. by apply (given_continue _ _ t0).
      * apply Ht. by eapply list_elem_of_lookup_2.
  - exact Hs.
  - intros k sl a Hk Hsl. apply (given_continue _ _ t0); eauto.
Qed.

Lemma inv_GetOrCreateSlot owner s d rid s1 k :
  answers_inv owner s -> GetOrCreateSlot d rid s = Some (s1, k) ->
  exists owner1, answers_inv owner1 s1 /\ threads s1 = threads s /\
    (k < length (slot_heap s1))%nat /\ owner1 k = rid.
Proof.
  intros Hinv E. unfold GetOrCreateSlot in E. destruct (dispatchers s !! d) as [dp|] eqn:Ed; [|done]. cbn in E.
  destruct (slots_ dp !! rid) as [k0|] eqn:Ek; simplify_eq.
  { exists owner. split_and!; [done..| |]; by eapply ai_slots. }
  set (n := length (slot_heap s)). exists (fun j => if Nat.eqb j n then rid else owner j).
  assert (forall j, (j < n)%nat -> (if Nat.eqb j n then rid else owner j) = owner j) as Hold
    by (intros j Hj; by destruct (Nat.eqb_spec j n); [lia|]).
  destruct Hinv as [Ht Hs Ha]. split_and!; [split; cbn| done | cbn; rewrite length_app; cbn; lia
    | by rewrite Nat.eqb_refl].
  - intros t Hin. specialize (Ht t Hin). rewrite length_app. cbn [length].
    destruct t as [| | | | |q j| | |o|rid'| | |rid' a j|]; try exact Ht;
      (destruct Ht as [Hj Ho]; split; [lia | by rewrite Hold]).
  - intros d' dp' rid' j Hd' Hj. rewrite length_app. cbn [length].
    destruct (decide (d = d')) as [<-|Hne].
    + rewrite list_lookup_insert_eq in Hd' by (by eapply lookup_lt_Some). simplify_eq. cbn in Hj.
      apply lookup_insert_Some in Hj as [[<- <-]|[Hr Hj]]; [split; [unfold n; lia | by rewrite Nat.eqb_refl]|].
      destruct (Hs _ _ _ _ Ed Hj). split; [lia | by rewrite Hold].
    + rewrite list_lookup_insert_ne in Hd' by done. destruct (Hs _ _ _ _ Hd' Hj). split; [lia | by rewrite Hold].
  - intros j sl a Hj Hsl. apply lookup_app_Some in Hj as [Hj|[Hge Hj]].
    + rewrite Hold by (by eapply lookup_lt_Some). by eapply Ha.
    + apply list_lookup_singleton_Some in Hj as [_ <-]. done.
Qed.

Lemma inv_erase_slot owner s d rid : answers_inv owner s -> answers_inv owner (erase_slot d rid s).
Proof.
  intros [Ht Hs Ha]. split; [exact Ht | | exact Ha]. cbn. intros d' dp' rid' k Hd Hk.
  rewrite list_lookup_alter in Hd. case_decide; [|by eapply Hs].
  apply fmap_Some in Hd as (dp & Hd & ->). cbn in Hk.
  apply lookup_delete_Some in Hk as [_ Hk]. by eapply Hs.
Qed.

Lemma inv_answer owner s k a :
  answers_inv owner s -> given s (owner k) a ->
  answers_inv owner (set_heap (<[k := mkSlot (Some a) true]> (slot_heap s)) s).
Proof.
  intros [Ht Hs Ha] Hg. split; cbn; rewrite ?length_insert; [exact Ht | exact Hs|].
  intros j sl a' Hj Hsl. apply list_lookup_insert_Some in Hj as [(<- & <- & _)|[_ Hj]]; [by simplify_eq/=|].
  by eapply Ha.
Qed.

Lemma answers_inv_step i s s1 owner :
  answers_inv owner s -> ask_step i s = Some s1 -> exists owner1, answers_inv owner1 s1.
Proof.
  intros Hinv E. unfold AskUser.ask_step in E. destruct (threads s !! i) as [t|] eqn:Ei; [|done]. cbn in E.
  assert (t ∈ threads s) as Hin by by eapply list_elem_of_lookup_2.
  pose proof (ai_threads _ _ Hinv t Hin) as Hok.
  assert (forall s' t', answers_inv owner s' -> threads s' = threads s -> final t = false ->
    thread_ok owner (length (slot_heap s')) (given (continue i t' s')) t' ->
    exists owner1, answers_inv owner1 (continue i t' s')) as Hgo.
  { intros s' t' Hs' Hth Hf Ht'. exists owner. eapply inv_continue; [done | by rewrite Hth | done | done]. }
  destruct t as [d input stream|q|q|q|q|q k|q r|q r|o r|rid a|rid a sid|rid a d|rid a k|rid a ok];
    cbn in E, Hok; try discriminate E.
  - destruct (ask_begin random d input stream s) as [s' t'] eqn:Eb. injection E as <-.
    unfold ask_begin in Eb.
    repeat (case_match; simplify_eq); (apply Hgo; [by eapply inv_same | done..]).
  - destruct (GetOrCreateSlot _ _ s) as [[s' k]|] eqn:Eg; [|done]. injection E as <-.
    destruct (inv_GetOrCreateSlot _ _ _ _ _ _ Hinv Eg) as (owner1 & Hs' & Hth & _). exists owner1.
    eapply inv_continue; [done | by rewrite Hth | done | done].
  - destruct (register _ _ s) as [s'|] eqn:Er; [|done]. injection E as <-. unfold register in Er.
    destruct (dispatchers s !! _); [|done]. cbn in Er.
    injection Er as <-. destruct (router_ _); (apply Hgo; [by eapply inv_same | done..]).
  - injection E as <-. case_match; (apply Hgo; [by eapply inv_same | done..]).
  - destruct (GetOrCreateSlot _ _ s) as [[s' k]|] eqn:Eg; [|done]. injection E as <-.
    destruct (inv_GetOrCreateSlot _ _ _ _ _ _ Hinv Eg) as (owner1 & Hs' & Hth & Hk & Ho). exists owner1.
    eapply inv_continue; [done | by rewrite Hth | done | done].
  - destruct (slot_heap s !! k) as [sl|] eqn:Ek; [|done]. cbn in E. destruct (sl_done sl); [|done].
    injection E as <-. apply Hgo; try done. cbn. destruct (sl_answer sl) as [a|] eqn:Esl; [|done].
    destruct Hok as [_ <-]. eapply given_continue; [done..|]. by eapply ai_answers.
  - injection E as <-. apply Hgo; [by apply inv_erase_slot | done..|].
    eapply thread_ok_mono; [|exact Hok]. intros rid a. by apply (given_continue _ _ _ _ _ _ Ei).
  - destruct (unregister _ _ s) as [s'|] eqn:Er; [|done]. injection E as <-.
    assert (answers_inv owner s' /\ threads s' = threads s) as [Hu Hth].
    { unfold unregister in Er. destruct (dispatchers s !! _); [|done]. cbn in Er.
      injection Er as <-. destruct (router_ _); (split; [by eapply inv_same | done]). }
    apply Hgo; [done..|]. cbn. destruct r as [a|]; [right | by left].
    by apply (given_continue _ _ (AskErased q (Some a))); [rewrite Hth | | unfold given; rewrite Hth].
  - injection E as <-. by case_match; apply Hgo.
  - injection E as <-. by case_match; apply Hgo.
  - destruct (dispatchers s !! d) as [dp|] eqn:Ed; [|done]. injection E as <-.
    destruct (slots_ dp !! rid) as [k|] eqn:Ek; apply Hgo; try done. by eapply ai_slots.
  - injection E as <-. destruct Hok as [Hk <-].
    destruct (Hgo s (ProvideReturned (owner k) a true)) as [owner1 _]; [done..|]. exists owner.
    apply (inv_answer owner (continue i (ProvideReturned (owner k) a true) s)).
    + by eapply inv_continue.
    + apply list_elem_of_lookup. exists i. cbn. apply list_lookup_insert_eq. by eapply lookup_lt_Some.
Qed.

Lemma answers_inv_spawn owner s t :
  answers_inv owner s -> final t = false -> thread_ok owner (length (slot_heap s)) (given s) t ->
  answers_inv owner (spawn t s).
Proof.
  intros [Ht Hs Ha] Hf Hok.
  assert (forall rid a, given s rid a -> given (spawn t s) rid a) as Hg
    by (intros rid a Hg; apply elem_of_app; by left).
  split; cbn.
  - intros t' [Hin|Hin]%elem_of_app; [by apply (thread_ok_mono _ (given s)); [|apply Ht]|].
    apply list_elem_of_singleton in Hin as ->. by apply (thread_ok_mono _ (given s)).
  - exact Hs.
  - eauto.
Qed.

Lemma answers_inv_exec act s s1 owner :
  answers_inv owner s -> ask_exec act s = Some s1 -> exists owner1, answers_inv owner1 s1.
Proof.
  intros Hinv E. destruct act as [d input stream|rid a|i|i|sid|sid]; cbn in E.
  - injection E as <-. exists owner. by apply answers_inv_spawn.
  - injection E as <-. exists owner. by apply answers_inv_spawn.
  - by eapply answers_inv_step.
  - unfold ask_timeout in E. destruct (threads s !! i) as [t|] eqn:Ei; [|done]. cbn in E.
    destruct t as [| | | | |q k| | | | | | | |]; try done.
    destruct (slot_heap s !! k) as [sl|] eqn:Ek; [|done]. injection E as <-. exists owner.
    eapply inv_continue; [done..|]. cbn. destruct (sl_done sl); [|done].
    destruct (sl_answer sl) as [a|] eqn:Esl; [|done].
    destruct (ai_threads _ _ Hinv (AskWaiting q k)) as [_ <-]; [by eapply list_elem_of_lookup_2|].
    eapply given_continue; [done..|]. by eapply ai_answers.
  - destruct (session_dispatcher s !! sid); simplify_eq; [by exists owner|]. exists owner.
    destruct Hinv as [Ht Hs Ha]. split; [exact Ht | | exact Ha]. cbn. intros d dp rid k Hd Hk.
    apply lookup_app_Some in Hd as [Hd|[_ Hd]]; [by eapply Hs|].
    apply list_lookup_singleton_Some in Hd as [_ <-]. cbn in Hk. by rewrite lookup_empty in Hk.
  - injection E as <-. exists owner. by eapply inv_same.
Qed.

Lemma answers_inv_reachable s : ask_reachable s -> exists owner, answers_inv owner s.
Proof.
  apply (reach_invariant _ (fun s => exists owner, answers_inv owner s)).
  - exists (fun _ => ""). split; cbn; [intros t Ht; by apply elem_of_nil in Ht | |]; intros *; by rewrite ?lookup_nil.
  - intros s0 s1 [owner Hinv] [act E]. by eapply answers_inv_exec.
Qed.

(** C19.  Whatever tools and answers run at the same time, an answered question
    returns only text that some [ProvideUserResponse] supplied for this very
    request id, and was told was accepted; without one the tool returns the empty
    string. *)
Theorem answers_are_provided (s : AskState) (rid text : string) :
  ask_reachable s -> AskReturned (Some rid) (Ok text) ∈ threads s -> text = "" \/ given s rid text.
Proof. intros [owner Hinv]%answers_inv_reachable Hin. exact (ai_threads _ _ Hinv _ Hin). Qed.

(** *** Nothing stays behind *)

(** The request a thread has made, the one whose slot it keeps in its dispatcher,
    and the one it keeps in the index. *)
Definition used_id (t : Thread) : option string :=
  match t with
  | AskReady q | AskSlotted q | AskRegistered q | AskEmitted q | AskWaiting q _ | AskWoken q _
  | AskErased q _ => Some (rq_id q)
  | AskReturned o _ => o
  | _ => None
  end.
Definition slot_holder (t : Thread) : option AskRequest :=
  match t with
  | AskSlotted q | AskRegistered q | AskEmitted q | AskWaiting q _ | AskWoken q _ => Some q
  | _ => None
  end.
Definition index_holder (t : Thread) : option AskRequest :=
  match t with
  | AskRegistered q | AskEmitted q | AskWaiting q _ | AskWoken q _ | AskErased q _ => Some q
  | _ => None
  end.

Definition held (f : Thread -> option AskRequest) (R : AskRequest -> Prop) (l : list Thread) : Prop :=
  exists j t q, l !! j = Some t /\ f t = Some q /\ R q.

Record ids_inv (s : AskState) : Prop := {
  ii_fresh i t rid : threads s !! i = Some t -> used_id t = Some rid ->
    exists n, (n < request_counter s)%N /\ rid = GenerateRequestId n (random n);
  ii_inj i j t t' rid : threads s !! i = Some t -> threads s !! j = Some t' ->
    used_id t = Some rid -> used_id t' = Some rid -> i = j;
  ii_router d dp : dispatchers s !! d = Some dp -> router_ dp = true;
  ii_slots d dp rid : dispatchers s !! d = Some dp -> is_Some (slots_ dp !! rid) ->
    held slot_holder (fun q => rq_dispatcher q = d /\ rq_id q = rid) (threads s);
  ii_index rid : is_Some (askRequestToSession_ s !! rid) ->
    held index_holder (fun q => rq_id q = rid) (threads s)
}.

Lemma slot_holder_used t q : slot_holder t = Some q -> used_id t = Some (rq_id q).
Proof. destruct t; cbn; by intros [= ->]. Qed.
Lemma index_holder_used t q : index_holder t = Some q -> used_id t = Some (rq_id q).
Proof. destruct t; cbn; by intros [= ->]. Qed.

Lemma held_new f R l i t0 t q :
  l !! i = Some t0 -> f t = Some q -> R q -> held f R (<[i := t]> l).
Proof.
  intros Hi Hf HR. exists i, t, q. split; [|done]. apply list_lookup_insert_eq. by eapply lookup_lt_Some.
Qed.

(** The holder is another thread, or goes on holding. *)
Lemma held_insert f (R : AskRequest -> Prop) l i t0 t :
  l !! i = Some t0 -> (forall q, f t0 = Some q -> R q -> f t = Some q) ->
  held f R l -> held f R (<[i := t]> l).
Proof.
  intros Hi Hf (j & t' & q & Hj & Hq & HR). destruct (decide (i = j)) as [<-|Hne].
  - simplify_eq. eapply held_new; eauto.
  - exists j, t', q. by rewrite list_lookup_insert_ne.
Qed.

Lemma used_insert s i t0 t j t' rid :
  threads s !! i = Some t0 -> (used_id t = used_id t0 \/ used_id t = None) ->
  <[i := t]> (threads s) !! j = Some t' -> used_id t' = Some rid ->
  exists t'', threads s !! j = Some t'' /\ used_id t'' = Some rid.
Proof.
  intros Hi Hu Hj Hr. apply list_lookup_insert_Some in Hj as [(<- & -> & _)|[_ Hj]]; [|by exists t'].
  exists t0. split; [done|]. destruct Hu as [E|E]; congruence.
Qed.

(** A step that leaves the ids as they are. *)
Lemma ids_continue s s' i t0 t :
  ids_inv s -> threads s !! i = Some t0 -> threads s' = threads s ->
  (request_counter s <= request_counter s')%N ->
  (used_id t = used_id t0 \/ used_id t = None) ->
  (forall d dp, dispatchers s' !! d = Some dp -> router_ dp = true) ->
  (forall d dp rid, dispatchers s' !! d = Some dp -> is_Some (slots_ dp !! rid) ->
    held slot_holder (fun q => rq_dispatcher q = d /\ rq_id q = rid) (<[i := t]> (threads s))) ->
  (forall rid, is_Some (askRequestToSession_ s' !! rid) ->
    held index_holder (fun q => rq_id q = rid) (<[i := t]> (threads s))) ->
  ids_inv (continue i t s').
Proof.
  intros Hinv Hi Eth Hc Hu Hr Hs Hx. split; cbn; rewrite ?Eth; [| |exact Hr|exact Hs|exact Hx].
  - intros j t' rid Hj Hid. destruct (used_insert _ _ _ _ _ _ _ Hi Hu Hj Hid) as (t'' & Hj' & Hid').
    destruct (ii_fresh _ Hinv _ _ _ Hj' Hid') as (n & Hn & ->). exists n. split; [lia | done].
  - intros j k t' t'' rid Hj Hk Hidj Hidk.
    destruct (used_insert _ _ _ _ _ _ _ Hi Hu Hj Hidj) as (? & ? & ?).
    destruct (used_insert _ _ _ _ _ _ _ Hi Hu Hk Hidk) as (? & ? & ?). by eapply ii_inj.
Qed.

(** One that changes neither slots nor index and drops no holder. *)
Lemma ids_same s s' i t0 t :
  ids_inv s -> threads s !! i = Some t0 -> threads s' = threads s ->
  (request_counter s <= request_counter s')%N ->
  (used_id t = used_id t0 \/ used_id t = None) ->
  dispatchers s' = dispatchers s -> askRequestToSession_ s' = askRequestToSession_ s ->
  (forall q, slot_holder t0 = Some q -> slot_holder t = Some q) ->
  (forall q, index_holder t0 = Some q -> index_holder t = Some q) ->
  ids_inv (continue i t s').
Proof.
  intros Hinv Hi Eth Hc Hu Ed Ex Hs Hx. eapply ids_continue; try done; rewrite ?Ed, ?Ex.
  - apply (ii_router _ Hinv).
  - intros. eapply held_insert; [done | auto | by eapply ii_slots].
  - intros. eapply held_insert; [done | auto | by eapply ii_index].
Qed.

Lemma ids_GetOrCreateSlot s s1 i t0 t q k :
  ids_inv s -> threads s !! i = Some t0 ->
  GetOrCreateSlot (rq_dispatcher q) (rq_id q) s = Some (s1, k) ->
  used_id t = used_id t0 -> slot_holder t = Some q -> (forall q', slot_holder t0 = Some q' -> q' = q) ->
  (forall q', index_holder t0 = Some q' -> index_holder t = Some q') ->
  ids_inv (continue i t s1).
Proof.
  intros Hinv Hi E Hu Hq Hq0 Hx. unfold GetOrCreateSlot in E.
  destruct (dispatchers s !! rq_dispatcher q) as [dp|] eqn:Ed; [|done]. cbn in E.
  assert (forall q', slot_holder t0 = Some q' -> slot_holder t = Some q') as Hsl
    by (intros q' Hq'; by rewrite (Hq0 q' Hq')).
  destruct (slots_ dp !! rq_id q) as [k0|]; simplify_eq; [by eapply ids_same; eauto|].
  eapply ids_continue; try done; cbn; [by left | | |].
  - intros d dp' Hd. apply list_lookup_insert_Some in Hd as [(<- & <- & _)|[_ Hd]]; [|by eapply ii_router].
    cbn. by apply (ii_router _ Hinv _ _ Ed).
  - intros d dp' rid Hd Hr. apply list_lookup_insert_Some in Hd as [(<- & <- & _)|[Hne Hd]].
    + cbn in Hr. destruct (decide (rq_id q = rid)) as [<-|Hne]; [by eapply held_new|].
      rewrite lookup_insert_ne in Hr by done. eapply held_insert; [done | auto | by eapply ii_slots].
    + eapply held_insert; [done | auto | by eapply ii_slots].
  - intros rid Hr. eapply held_insert; [done | auto | by eapply ii_index].
Qed.

(** Another thread does not use the id of thread [i]. *)
Lemma held_other (f : Thread -> option AskRequest) s i t0 t (R : AskRequest -> Prop) rid :
  threads s !! i = Some t0 -> used_id t0 = Some rid -> (forall q, R q -> rq_id q <> rid) ->
  (forall t q, f t = Some q -> used_id t = Some (rq_id q)) ->
  held f R (threads s) -> held f R (<[i := t]> (threads s)).
Proof.
  intros Hi Hu HR Hf. apply (held_insert f R _ _ t0); [done|]. intros q Hq Hr.
  apply Hf in Hq. rewrite Hu in Hq. injection Hq as E. by destruct (HR q Hr).
Qed.

Lemma ids_erase_slot s i q r :
  ids_inv s -> threads s !! i = Some (AskWoken q r) ->
  ids_inv (continue i (AskErased q r) (erase_slot (rq_dispatcher q) (rq_id q) s)).
Proof.
  intros Hinv Hi. eapply ids_continue; try done; cbn; [by left | | |].
  - intros d dp Hd. rewrite list_lookup_alter in Hd. case_decide; [|by eapply ii_router].
    apply fmap_Some in Hd as (dp0 & Hd & ->). by apply (ii_router _ Hinv _ _ Hd).
  - intros d dp rid Hd Hr. rewrite list_lookup_alter in Hd. case_decide as Hdec.
    + subst d. apply fmap_Some in Hd as (dp0 & Hd & ->). cbn in Hr.
      destruct (decide (rq_id q = rid)) as [<-|Hne]; [by rewrite lookup_delete_eq in Hr; destruct Hr|].
      rewrite lookup_delete_ne in Hr by done.
      eapply held_other; [done | done | | apply slot_holder_used | by eapply ii_slots]. intros q' [_ ->]. done.
    + eapply held_insert; [done | | by eapply ii_slots]. cbn. intros q' [= <-] [Hd' _]. by destruct Hdec.
  - intros rid Hr. eapply held_insert; [done | | by eapply ii_index]. done.
Qed.

Lemma ids_register s s1 i q :
  ids_inv s -> threads s !! i = Some (AskSlotted q) ->
  register (rq_dispatcher q) (rq_id q) s = Some s1 -> ids_inv (continue i (AskRegistered q) s1).
Proof.
  intros Hinv Hi E. unfold register in E. destruct (dispatchers s !! rq_dispatcher q) as [dp|] eqn:Ed; [|done].
  injection E as <-. rewrite (ii_router _ Hinv _ _ Ed).
  eapply ids_continue; try done; cbn; [by left | apply (ii_router _ Hinv) | |].
  - intros. eapply held_insert; [done | | by eapply ii_slots]. done.
  - intros rid Hr. destruct (decide (rq_id q = rid)) as [<-|Hne]; [by eapply held_new|].
    rewrite lookup_insert_ne in Hr by done. eapply held_insert; [done | | by eapply ii_index]. done.
Qed.

Lemma ids_unregister s s1 i q r :
  ids_inv s -> threads s !! i = Some (AskErased q r) ->
  unregister (rq_dispatcher q) (rq_id q) s = Some s1 ->
  ids_inv (continue i (AskReturned (Some (rq_id q)) (Ok (default "" r))) s1).
Proof.
  intros Hinv Hi E. unfold unregister in E. destruct (dispatchers s !! rq_dispatcher q) as [dp|] eqn:Ed; [|done].
  injection E as <-. rewrite (ii_router _ Hinv _ _ Ed).
  eapply ids_continue; try done; cbn; [by left | apply (ii_router _ Hinv) | |].
  - intros. eapply held_insert; [done | | by eapply ii_slots]. done.
  - intros rid Hr. destruct (decide (rq_id q = rid)) as [<-|Hne]; [by rewrite lookup_delete_eq in Hr; destruct Hr|].
    rewrite lookup_delete_ne in Hr by done.
    eapply held_other; [done | done | | apply index_holder_used | by eapply ii_index]. intros q' ->. done.
Qed.

(** The id of a new request is used by no other thread. *)
Lemma ids_fresh s i q d input stream :
  ids_inv s -> threads s !! i = Some (AskCalled d input stream) ->
  rq_id q = GenerateRequestId (request_counter s) (random (request_counter s)) ->
  ids_inv (continue i (AskReady q) (set_counter (request_counter s + 1) s)).
Proof.
  intros Hinv Hi Hq.
  assert (forall j t rid, threads s !! j = Some t -> used_id t = Some rid -> rid <> rq_id q) as Hnew.
  { intros j t rid Hj Hu ->. destruct (ii_fresh _ Hinv _ _ _ Hj Hu) as (n & Hn & E).
    rewrite Hq in E. apply GenerateRequestId_inj in E. lia. }
  split; cbn.
  - intros j t rid Hj Hu. apply list_lookup_insert_Some in Hj as [(<- & <- & _)|[_ Hj]].
    + cbn in Hu. injection Hu as <-. eexists. split; [|exact Hq]. lia.
    + destruct (ii_fresh _ Hinv _ _ _ Hj Hu) as (n & Hn & ->). exists n. split; [lia | done].
  - intros j k t t' rid Hj Hk Hu Hu'. apply list_lookup_insert_Some in Hj as [(<- & <- & _)|[_ Hj]],
      Hk as [(<- & <- & _)|[_ Hk]]; try done; [| |by eapply ii_inj]; exfalso; cbn in *; simplify_eq;
      by eapply Hnew.
  - apply (ii_router _ Hinv).
  - intros. eapply held_insert; [done | | by eapply ii_slots]. done.
  - intros. eapply held_insert; [done | | by eapply ii_index]. done.
Qed.

Lemma ids_inv_step i s s1 : ids_inv s -> ask_step i s = Some s1 -> ids_inv s1.
Proof.
  intros Hinv E. unfold AskUser.ask_step in E. destruct (threads s !! i) as [t|] eqn:Ei; [|done]. cbn in E.
  destruct t as [d input stream|q|q|q|q|q k|q r|q r|o r|rid a|rid a sid|rid a d|rid a k|rid a ok];
    cbn in E; try discriminate E.
  - destruct (ask_begin random d input stream s) as [s' t'] eqn:Eb. injection E as <-.
    unfold ask_begin in Eb.
    repeat (case_match; simplify_eq); [by eapply ids_fresh | eapply ids_same; cbn; eauto; lia ..].
  - destruct (GetOrCreateSlot _ _ s) as [[s' k]|] eqn:Eg; [|done]. injection E as <-.
    by eapply ids_GetOrCreateSlot.
  - destruct (register _ _ s) as [s'|] eqn:Er; [|done]. injection E as <-. by eapply ids_register.
  - injection E as <-. destruct (rq_stream q); by eapply ids_same; eauto.
  - destruct (GetOrCreateSlot _ _ s) as [[s' k]|] eqn:Eg; [|done]. injection E as <-.
    eapply ids_GetOrCreateSlot; try done. by intros q' [= ->].
  - destruct (slot_heap s !! k) as [sl|]; [|done]. cbn in E. destruct (sl_done sl); [|done].
    injection E as <-. by eapply ids_same; eauto.
  - injection E as <-. by apply ids_erase_slot.
  - destruct (unregister _ _ s) as [s'|] eqn:Er; [|done]. injection E as <-. by eapply ids_unregister.
  - injection E as <-. by case_match; eapply ids_same; eauto.
  - injection E as <-. by case_match; eapply ids_same; eauto.
  - destruct (dispatchers s !! d) as [dp|]; [|done]. injection E as <-. by case_match; eapply ids_same; eauto.
  - injection E as <-. by eapply ids_same; eauto.
Qed.

Lemma ids_inv_spawn s t : ids_inv s -> used_id t = None -> ids_inv (spawn t s).
Proof.
  intros Hinv Hu.
  assert (forall j t' rid, (threads s ++ [t]) !! j = Some t' -> used_id t' = Some rid -> threads s !! j = Some t') as Hl.
  { intros j t' rid Hj Hid. apply lookup_app_Some in Hj as [Hj|[_ Hj]]; [done|].
    apply list_lookup_singleton_Some in Hj as [_ <-]. congruence. }
  assert (forall f R, held f R (threads s) -> held f R (threads s ++ [t])) as Hh.
  { intros f R (j & t' & q & Hj & Hq). exists j, t', q. split; [by apply lookup_app_l_Some | done]. }
  split; cbn; [| | apply (ii_router _ Hinv) | |].
  - intros j t' rid Hj Hid. eapply ii_fresh; eauto.
  - intros j k t' t'' rid Hj Hk Hid Hid'. eapply ii_inj; eauto.
  - intros. apply Hh. by eapply ii_slots.
  - intros. apply Hh. by eapply ii_index.
Qed.

Lemma ids_inv_exec act s s1 : ids_inv s -> ask_exec act s = Some s1 -> ids_inv s1.
Proof.
  intros Hinv E. destruct act as [d input stream|rid a|i|i|sid|sid]; cbn in E.
  - injection E as <-. by apply ids_inv_spawn.
  - injection E as <-. by apply ids_inv_spawn.
  - by eapply ids_inv_step.
  - unfold ask_timeout in E. destruct (threads s !! i) as [t|] eqn:Ei; [|done]. cbn in E.
    destruct t as [| | | | |q k| | | | | | | |]; try done.
    destruct (slot_heap s !! k) as [sl|]; [|done]. injection E as <-. by eapply ids_same; eauto.
  - destruct (session_dispatcher s !! sid); simplify_eq; [done|].
    destruct Hinv as [Hf Hi Hr Hs Hx]. split; cbn; [exact Hf | exact Hi | | | exact Hx].
    + intros d dp Hd. apply lookup_app_Some in Hd as [Hd|[_ Hd]]; [by eapply Hr|].
      by apply list_lookup_singleton_Some in Hd as [_ <-].
    + intros d dp rid Hd Hk. apply lookup_app_Some in Hd as [Hd|[_ Hd]]; [by eapply Hs|].
      apply list_lookup_singleton_Some in Hd as [_ <-]. cbn in Hk. rewrite lookup_empty in Hk. by destruct Hk.
  - injection E as <-. by destruct Hinv.
Qed.

Lemma ids_inv_reachable s : ask_reachable s -> ids_inv s.
Proof.
  apply reach_invariant.
  - split; cbn; intros *; rewrite ?lookup_nil, ?lookup_empty; try done; by intros [].
  - intros s0 s1 Hinv [act E]. by eapply ids_inv_exec.
Qed.

(** Request ids are unique, and a finished question leaves nothing behind: once
    the tool has returned, no dispatcher keeps a slot for its request and the index
    does not route it, so [ProvideUserResponse] refuses a late answer. *)
Theorem finished_ask_forgotten (s : AskState) (i : nat) (rid : string) (r : outcome string) :
  ask_reachable s -> threads s !! i = Some (AskReturned (Some rid) r) ->
  askRequestToSession_ s !! rid = None /\
  (forall d dp, dispatchers s !! d = Some dp -> slots_ dp !! rid = None) /\
  (forall j t, threads s !! j = Some t -> used_id t = Some rid -> j = i) /\
  (forall j a, threads s !! j = Some (Provide rid a) ->
     ask_step j s = Some (continue j (ProvideReturned rid a false) s)).
Proof.
  intros Hinv%ids_inv_reachable Hi.
  assert (forall f R, (forall t q, f t = Some q -> used_id t = Some (rq_id q) /\ final t = false) ->
    (forall q, R q -> rq_id q = rid) -> ~ held f R (threads s)) as Hno.
  { intros f R Hf HR (j & t & q & Hj & Hq & Hr). destruct (Hf _ _ Hq) as [Hu Hfin]. rewrite (HR _ Hr) in Hu.
    assert (j = i) as -> by by eapply ii_inj. by simplify_eq. }
  assert (askRequestToSession_ s !! rid = None) as Hx.
  { apply eq_None_not_Some. intros Hs. eapply Hno; [| |by apply (ii_index _ Hinv)]; [|done].
    intros t q Hq. split; [by apply index_holder_used | by destruct t]. }
  split_and!; [done | | |].
  - intros d dp Hd. apply eq_None_not_Some. intros Hs. eapply Hno; [| |by apply (ii_slots _ Hinv d dp rid Hd)];
      [|by intros q []]. intros t q Hq. split; [by apply slot_holder_used | by destruct t].
  - intros j t Hj Hu. by eapply ii_inj.
  - intros j a Hj. unfold AskUser.ask_step. rewrite Hj. cbn. by rewrite Hx.
Qed.
End AskFacts.

(** ** Runs *)

#[local] Instance ex_json0 : Json JsonTree.json :=
  JsonTree.instance [("{}", j_fields (H := JsonTree.instance []) []);
                     ("{q}", j_fields (H := JsonTree.instance [])
                               [("question", j_string (H := JsonTree.instance []) "Which file?")])].

Local Notation run := (ask_exec_all (J := JsonTree.json) (fun n => n)).

(** One question in a session, up to the wait. *)
Definition ex_ask : list ask_action :=
  [SessionCreated "s"; AskNew (Some 0%nat) "{q}" true; AskStep 0; AskStep 0; AskStep 0; AskStep 0; AskStep 0].
Definition ex_rid : string := GenerateRequestId 0 0.

(** The answer arrives while the tool waits. *)
Example ask_answered :
  (fun s => (threads s, askRequestToSession_ s !! ex_rid)) <$>
  run (ex_ask ++ [ProvideNew ex_rid "a.txt"; AskStep 1; AskStep 1; AskStep 1; AskStep 1;
                  AskStep 0; AskStep 0; AskStep 0]) ask_initial =
  Some ([AskReturned (Some ex_rid) (Ok "a.txt"); ProvideReturned ex_rid "a.txt" true], None).
Proof. vm_compute. reflexivity. Qed.

(** An accepted answer can be lost: the wait runs out between the look-up of the
    slot and the store of the answer, [ProvideUserResponse] returns true, and the
    tool returns the empty string. *)
Theorem accepted_answer_lost :
  exists s, run (ex_ask ++ [ProvideNew ex_rid "a.txt"; AskStep 1; AskStep 1; AskStep 1; AskTimeout 0; AskStep 1;
                            AskStep 0; AskStep 0]) ask_initial = Some s /\
    ProvideReturned ex_rid "a.txt" true ∈ threads s /\ AskReturned (Some ex_rid) (Ok "") ∈ threads s.
Proof.
  eexists. split; [vm_compute; reflexivity|]. cbn [threads]. split; [right; left | left].
Qed.

Lemma ask_exec_all_reachable acts s s1 :
  ask_reachable (J := JsonTree.json) (fun n => n) s -> run acts s = Some s1 ->
  ask_reachable (J := JsonTree.json) (fun n => n) s1.
Proof.
  revert s; induction acts as [|a acts IH]; intros s Hs E; [by simplify_eq/=|].
  cbn [ask_exec_all] in E. destruct (ask_exec _ a s) as [s2|] eqn:Ea; [|done].
  apply (IH s2); [|done]. eapply reach_step; [exact Hs|]. by exists a.
Qed.

Definition ex_answered : list ask_action :=
  ex_ask ++ [ProvideNew ex_rid "a.txt"; AskStep 1; AskStep 1; AskStep 1; AskStep 1; AskStep 0; AskStep 0; AskStep 0;
             ProvideNew ex_rid "b.txt"].

Lemma answers_are_provided_witness :
  exists s, run ex_answered ask_initial = Some s /\ given s ex_rid "a.txt".
Proof.
  destruct (run ex_answered ask_initial) as [s|] eqn:E; [|vm_compute in E; discriminate].
  exists s. split; [done|].
  destruct (answers_are_provided (J := JsonTree.json) (fun n => n) s ex_rid "a.txt") as [Habs|Hg].
  - eapply ask_exec_all_reachable; [apply reach_refl | exact E].
  - vm_compute in E. injection E as <-. cbn [threads]. left.
  - discriminate.
  - exact Hg.
Defined.

Lemma finished_ask_forgotten_witness :
  exists s, run ex_answered ask_initial = Some s /\
    ask_step (J := JsonTree.json) (fun n => n) 2 s = Some (continue 2 (ProvideReturned ex_rid "b.txt" false) s).
Proof.
  destruct (run ex_answered ask_initial) as [s|] eqn:E; [|vm_compute in E; discriminate].
  exists s. split; [done|].
  destruct (finished_ask_forgotten (J := JsonTree.json) (fun n => n) s 0 ex_rid (Ok "a.txt")) as (_ & _ & _ & Hr).
  - eapply ask_exec_all_reachable; [apply reach_refl | exact E].
  - vm_compute in E. injection E as <-. reflexivity.
  - apply (Hr 2%nat "b.txt"). vm_compute in E. injection E as <-. reflexivity.
Defined.
