(* ===== verification/Files.v ===== *)
(** * Files and the fields of a tool's input

    What the file tools (src/tools/builtin_tools/) share: the file system as a class,
    the parts of [std::filesystem::path] they use, and the scanner each of them has a
    copy of, which looks a field up in the text of a JSON object. *)
From Stdlib Require Import ZArith Lia String Ascii List.
From stdpp Require Import base decidable list strings.
From S2P Require Import Prelude Numbers.
Open Scope Z_scope.

(** ** The file system *)

Inductive file_type := not_found | regular | directory | other_file.
#[export] Instance file_type_eq_dec : EqDecision file_type.
Proof. solve_decision. Defined.

(** Calls that may throw a [filesystem_error] have an [outcome]. *)
Class FileSystem (X : Type) := {
  fs_status : string -> X -> outcome file_type;
  fs_file_size : string -> X -> outcome Z;
  (** [last_write_time] in seconds. *)
  fs_mtime : string -> X -> outcome Z;
  fs_create_directories : string -> X -> X * outcome unit;
  (** [directory_iterator]: names and types in the order of the directory. *)
  fs_entries : string -> X -> outcome (list (string * file_type));
  (** The bytes of a file, [None] when an [ifstream] cannot open it. *)
  fs_read : string -> X -> option string;
  (** An [ofstream] with [trunc], the text, and [close]; [false] when it cannot open. *)
  fs_write : string -> string -> X -> X * bool;
  (** [std::time]. *)
  unix_time : X -> Z
}.

(** A disk that is not full, times in 64 bits. *)
Class FileSystemLaws (X : Type) `{FileSystem X} := {
  write_read (p t : string) (x x1 : X) : fs_write p t x = (x1, true) -> fs_read p x1 = Some t;
  write_exists (p t : string) (x x1 : X) : fs_write p t x = (x1, true) -> fs_status p x1 = Ok regular;
  mtime_range (p : string) (x : X) (t : Z) : fs_mtime p x = Ok t -> - 2 ^ 63 <= t < 2 ^ 63;
  time_range (x : X) : - 2 ^ 63 <= unix_time x < 2 ^ 63
}.

Section Exists.
Context {X : Type} `{FileSystem X}.
Definition fs_exists (p : string) (x : X) : outcome bool :=
  t <-- fs_status p x ;; Ok (negb (bool_decide (t = not_found))).
Definition fs_is_directory (p : string) (x : X) : outcome bool :=
  t <-- fs_status p x ;; Ok (bool_decide (t = directory)).
Definition fs_is_regular_file (p : string) (x : X) : outcome bool :=
  t <-- fs_status p x ;; Ok (bool_decide (t = regular)).
End Exists.

(** ** Paths *)

Definition all_slashes (s : string) : bool := str_empty (str_filter (fun c => negb (Ascii.eqb c "/")) s).
(** The text up to and with the last slash, and the file name after it. *)
Definition dir_part (s : string) : string :=
  match rfind_char "/" s with Some i => str_take (S i) s | None => "" end.
Definition filename (s : string) : string :=
  match rfind_char "/" s with Some i => str_drop (S i) s | None => s end.
(** Without the slashes at the end. *)
Definition strip_slashes (s : string) : string :=
  match find_last_if (fun c => negb (Ascii.eqb c "/")) s with Some i => str_take (S i) s | None => "" end.
Definition parent_path (s : string) : string :=
  let d := dir_part s in if all_slashes d then d else strip_slashes d.
Definition extension (s : string) : string :=
  let f := filename s in
  if String.eqb f "." || String.eqb f ".." then ""
  else match rfind_char "." f with Some (S i) => str_drop (S i) f | _ => "" end.

(** ** Fields *)

(** The text from the first character of a key's value. *)
Definition value_text (key json : string) : option string :=
  let searchKey := dq +:+ key +:+ dq in
  keyPos ← find_str searchKey json 0;
  colonPos ← find_char ":" json (keyPos + String.length searchKey);
  valStart ← find_if_from (fun c => negb (is_blank c)) json (S colonPos);
  Some (str_drop valStart json).

(** A string up to its closing quote, or to the end of the text; [escape] is what a
    backslash and the character after it stand for. *)
Fixpoint scan_string (escape : ascii -> string) (s : string) : string :=
  match s with
  | EmptyString => ""
  | String c s' =>
      match s' with
      | String d s'' =>
          if Ascii.eqb c BSLASH then escape d +:+ scan_string escape s''
          else if Ascii.eqb c DQUOTE then "" else String c (scan_string escape s')
      | EmptyString => if Ascii.eqb c DQUOTE then "" else String c ""
      end
  end.

(** The escapes as they stand. *)
Definition raw_escape (d : ascii) : string := String BSLASH (String d "").

Definition ParseStringField (json key : string) : string :=
  match value_text key json with
  | Some (String c s) => if Ascii.eqb c DQUOTE then scan_string raw_escape s else ""
  | _ => ""
  end.

Definition ParseIntField (json key : string) (defaultVal : Z) : Z :=
  match value_text key json with Some s => default defaultVal (stoi s) | None => defaultVal end.

Definition ParseBoolField (json key : string) (defaultVal : bool) : bool :=
  match value_text key json with
  | Some s =>
      if String.eqb (str_take 4 s) "true" then true
      else if String.eqb (str_take 5 s) "false" then false else defaultVal
  | None => defaultVal
  end.

(** ** Facts *)

Lemma ParseIntField_range (json key : string) (d : Z) :
  - 2 ^ 31 <= d < 2 ^ 31 -> - 2 ^ 31 <= ParseIntField json key d < 2 ^ 31.
Proof.
  intros Hd. unfold ParseIntField. destruct (value_text key json) as [s|]; [|done].
  destruct (stoi s) as [z|] eqn:E; [by apply stoi_range in E | done].
Qed.

(** A field of a line is a line. *)
Lemma occurs_drop (c : ascii) (n : nat) (s : string) : occurs c s = false -> occurs c (str_drop n s) = false.
Proof.
  revert s; induction n as [|n IH]; intros [|d s] Hs; try done. cbn [str_drop]. apply IH.
  cbn [occurs] in Hs. by apply orb_false_iff in Hs as [_ Hs].
Qed.

Lemma occurs_scan (c : ascii) (s : string) :
  occurs c s = false -> occurs c (scan_string raw_escape s) = false.
Proof.
  remember (String.length s) as n eqn:En. revert s En. induction (lt_wf n) as [n _ IH]; intros [|a s] En Hs; [done|].
  cbn [occurs] in Hs. apply orb_false_iff in Hs as [Ha Hs]. cbn [scan_string]. destruct s as [|b s].
  - destruct (Ascii.eqb a DQUOTE); [done|]. cbn [occurs]. by rewrite Ha.
  - destruct (Ascii.eqb_spec a BSLASH) as [->|].
    + cbn [occurs] in Hs. apply orb_false_iff in Hs as [Hb Hs]. cbn [String.append raw_escape occurs].
      rewrite Ha, Hb. apply (IH (String.length s)); [cbn in En; lia | done..].
    + destruct (Ascii.eqb a DQUOTE); [done|]. cbn [occurs]. rewrite Ha.
      apply (IH (String.length (String b s))); [cbn in *; lia | done..].
Qed.

Lemma occurs_field (c : ascii) (json key : string) :
  occurs c json = false -> occurs c (ParseStringField json key) = false.
Proof.
  intros Hj. unfold ParseStringField. destruct (value_text key json) as [[|d s]|] eqn:E; [done| |done].
  destruct (Ascii.eqb d DQUOTE); [|done]. apply occurs_scan.
  assert (occurs c (String d s) = false) as Hs.
  { unfold value_text in E. destruct (find_str _ json 0) as [k|]; [|done]. cbn [mbind option_bind] in E.
    destruct (find_char _ json _) as [k1|]; [|done]. cbn [mbind option_bind] in E.
    destruct (find_if_from _ json _) as [k2|]; [|done]. cbn [mbind option_bind] in E.
    injection E as <-. by apply occurs_drop. }
  cbn [occurs] in Hs. by apply orb_false_iff in Hs as [_ Hs].
Qed.

Example ex_parents :
  map parent_path ["a/b"; "/a"; "a"; "a/b/"; "a//b"; "/"; "//x"] = ["a"; "/"; ""; "a/b"; "a"; "/"; "//"].
Proof. reflexivity. Qed.
Example ex_extensions : map extension ["a.ipynb"; ".ipynb"; "d.x/a"; "a."; ".."] = [".ipynb"; ""; ""; "."; ""].
Proof. reflexivity. Qed.
Example ex_fields :
  let j := "{" +:+ dq +:+ "path" +:+ dq +:+ ": " +:+ dq +:+ "a/b" +:+ dq +:+ ", " +:+ dq +:+ "limit" +:+ dq +:+ ":12}" in
  (ParseStringField j "path", ParseIntField j "limit" 1, ParseIntField j "offset" 7) = ("a/b", 12, 7).
Proof. vm_compute. reflexivity. Qed.

(** ** A disk in memory

    A finite map of files with their times, on which every directory exists. *)

Module MemDisk.
Record disk := mkDisk { d_files : list (string * (string * Z)); d_clock : Z }.

Definition find (p : string) (d : disk) : option (string * Z) :=
  snd <$> List.find (fun e => String.eqb e.1 p) (d_files d).
Definition clamp (z : Z) : Z := Z.max (- 2 ^ 63) (Z.min z (2 ^ 63 - 1)).

#[export] Instance instance : FileSystem disk := {|
  fs_status := fun p d => Ok (match find p d with
                              | Some _ => regular
                              | None => if str_empty p then not_found else
                                        if back_is "/" p then directory else not_found end);
  fs_file_size := fun p d => Ok (match find p d with Some (t, _) => Z.of_nat (String.length t) | None => 0 end);
  fs_mtime := fun p d => match find p d with Some (_, m) => Ok (clamp m) | None => Throw "no such file" end;
  fs_create_directories := fun _ d => (d, Ok tt);
  fs_entries := fun _ d => Ok (map (fun e => (e.1, regular)) (d_files d));
  fs_read := fun p d => fst <$> find p d;
  fs_write := fun p t d => (mkDisk ((p, (t, d_clock d)) :: d_files d) (d_clock d + 1), true);
  unix_time := fun d => clamp (d_clock d)
|}.

#[export] Instance laws : FileSystemLaws disk.
Proof.
  split.
  - intros p t x x1 [= <-]. cbn. unfold find. cbn. by rewrite String.eqb_refl.
  - intros p t x x1 [= <-]. cbn. unfold find. cbn. by rewrite String.eqb_refl.
  - intros p x t. cbn. destruct (find p x) as [[? m]|]; [|done]. intros [= <-]. unfold clamp. lia.
  - intros x. cbn. unfold clamp. lia.
Qed.
End MemDisk.
#[export] Existing Instances MemDisk.instance MemDisk.laws.
