(* ===== verification/FileTools.v ===== *)
(** * Reading, writing and editing files (src/tools/builtin_tools/)

    read_file_tool.cpp, write_file_tool.cpp and edit_file_tool.cpp.  A page of a file
    and the hint that leads to the next; what reaches a file from the JSON text of a
    call; replacement of a text.  The messages of the tools are written out, since a
    model acts on them. *)
From Stdlib Require Import ZArith Lia String Ascii List.
From stdpp Require Import base decidable list strings.
From S2P Require Import Prelude Numbers Files.
Open Scope Z_scope.

Fixpoint join (sep : string) (l : list string) : string :=
  match l with
  | [] => ""
  | [s] => s
  | s :: l => s +:+ sep +:+ join sep l
  end.

(** ** read_file *)

Definition kMaxChars : Z := 128000.
Definition kDefaultLimit : Z := 2000.

Definition lineEntry (i : Z) (line : string) : string := to_string (i + 1) +:+ "| " +:+ line.

(** The entries of at most [n] lines from line [i] on that fit; [None] when the count
    of characters overflows. *)
Fixpoint page_entries (ls : list string) (i : Z) (n : nat) (charCount : Z) : option (list string) :=
  match n, ls with
  | S n, l :: ls =>
      let e := lineEntry i l in
      sum ← int_result (charCount + int_cast (Z.of_nat (String.length e)));
      count ← int_result (sum + 1);
      if kMaxChars <? count then Some []
      else es ← page_entries ls (i + 1) n count; Some (e :: es)
  | _, _ => Some []
  end.

(** The entries, and [actualEnd]. *)
Definition read_page (allLines : list string) (offset limit : Z) : option (list string * Z) :=
  let total := int_cast (Z.of_nat (length allLines)) in
  let start := offset - 1 in
  stop ← int_result (start + limit);
  let e := Z.min stop total in
  es ← page_entries (drop (Z.to_nat start) allLines) start (Z.to_nat (e - start)) 0;
  Some (es, start + Z.of_nat (length es)).

Definition page_text (offset total : Z) (page : list string * Z) : string :=
  let '(entries, actualEnd) := page in
  join nl entries +:+
  if actualEnd <? total then
    nl +:+ nl +:+ "(Showing lines " +:+ to_string offset +:+ "-" +:+ to_string actualEnd +:+ " of "
    +:+ to_string total +:+ ". Use offset=" +:+ to_string (actualEnd + 1) +:+ " to continue.)"
  else nl +:+ nl +:+ "(End of file — " +:+ to_string total +:+ " lines total)".

Section ReadFile.
Context {X : Type} `{FileSystem X}.

Definition ReadFile (input : string) (x : X) : res string :=
  let filePath := ParseStringField input "path" in
  if str_empty filePath then Val "Error: 'path' parameter is required"
  else
    let offset := let o := ParseIntField input "offset" 1 in if o <? 1 then 1 else o in
    let limit := let l := ParseIntField input "limit" kDefaultLimit in if l <? 1 then kDefaultLimit else l in
    match fs_exists filePath x with
    | Throw e => Exc e
    | Ok false => Val ("Error: File not found: " +:+ filePath)
    | Ok true =>
        match fs_is_regular_file filePath x with
        | Throw e => Exc e
        | Ok false => Val ("Error: Not a file: " +:+ filePath)
        | Ok true =>
            match fs_read filePath x with
            | None => Val ("Error: Cannot open file: " +:+ filePath)
            | Some text =>
                let allLines := getlines text in
                let total := int_cast (Z.of_nat (length allLines)) in
                if total =? 0 then Val ("(Empty file: " +:+ filePath +:+ ")")
                else if total <? offset then
                  Val ("Error: offset " +:+ to_string offset +:+ " is beyond end of file ("
                       +:+ to_string total +:+ " lines)")
                else match read_page allLines offset limit with
                     | Some page => Val (page_text offset total page)
                     | None => Undefined
                     end
            end
        end
    end.
End ReadFile.

(** ** write_file *)

Section WriteFile.
Context {X : Type} `{FileSystem X}.

(** A backslash is dropped and the character after it kept as it is. *)
Definition drop_escape (d : ascii) : string := String d "".

(** The [content] of the call, or the message of the error. *)
Definition write_content (input : string) : string + string :=
  let key := dq +:+ "content" +:+ dq in
  match find_str key input 0 with
  | None => inl "Error: 'content' parameter is required"
  | Some contentKeyPos =>
      match find_char ":" input (contentKeyPos + 9) with
      | None => inl "Error: invalid input format for 'content'"
      | Some colonPos =>
          match find_if_from (fun c => negb (is_blank c)) input (S colonPos) with
          | None => inl "Error: 'content' parameter is required"
          | Some valStart =>
              match str_drop valStart input with
              | String c s => if Ascii.eqb c DQUOTE then inr (scan_string drop_escape s) else inr (String c s)
              | EmptyString => inr ""
              end
          end
      end
  end.

Definition WriteFile (input : string) (x : X) : X * string :=
  let filePath := ParseStringField input "path" in
  if str_empty filePath then (x, "Error: 'path' parameter is required")
  else
    match write_content input with
    | inl e => (x, e)
    | inr content =>
        let '(x1, made) := fs_create_directories (parent_path filePath) x in
        match made with
        | Throw e => (x1, "Error writing file: " +:+ e)
        | Ok _ =>
            let '(x2, opened) := fs_write filePath content x1 in
            if opened : bool
            then (x2, "Successfully wrote " +:+ nat_to_string (String.length content) +:+ " characters to "
                      +:+ filePath)
            else (x2, "Error: Cannot open file for writing: " +:+ filePath)
        end
    end.
End WriteFile.

(** ** edit_file *)

Definition edit_escape (d : ascii) : string :=
  if Ascii.eqb d "n" then nl else if Ascii.eqb d "t" then String TAB "" else String d "".

(** This tool's [ParseStringField] and [ParseBoolField]. *)
Definition edit_field (json key : string) : string :=
  match value_text key json with
  | Some (String c s) =>
      if Ascii.eqb c "t" then "true" else if Ascii.eqb c "f" then "false"
      else if Ascii.eqb c DQUOTE then scan_string edit_escape s else ""
  | _ => ""
  end.
Definition edit_flag (json key : string) (defaultVal : bool) : bool :=
  let val := edit_field json key in
  if String.eqb val "true" then true else if String.eqb val "false" then false else defaultVal.

(** The loop over every occurrence. *)
Fixpoint replace_loop (fuel : nat) (oldText newText newContent : string) (pos : nat) : option string :=
  match fuel with
  | O => None
  | S fuel =>
      match find_str oldText newContent pos with
      | None => Some newContent
      | Some p =>
          replace_loop fuel oldText newText (str_replace newContent p (String.length oldText) newText)
            (p + String.length newText)
      end
  end.

(** The number of occurrences from [pos] on. *)
Fixpoint count_loop (fuel : nat) (oldText content : string) (pos : nat) : option nat :=
  match fuel with
  | O => None
  | S fuel =>
      match find_str oldText content pos with
      | None => Some 0%nat
      | Some p => S <$> count_loop fuel oldText content (p + String.length oldText)
      end
  end.

Fixpoint count_lines (s : string) : nat :=
  match s with
  | EmptyString => 1
  | String c s => if Ascii.eqb c NL then S (count_lines s) else count_lines s
  end.

(** The new content or the message; [None] when a loop runs out of fuel. *)
Definition edit_content (filePath content oldText newText : string) (replaceAll : bool) : option (string + string) :=
  let fuel := S (S (String.length content)) in
  match find_str oldText content 0 with
  | None => Some (inl ("Error: old_text not found in " +:+ filePath +:+
                       ". Copy the exact text from read_file and try again."))
  | Some firstMatch =>
      count ← (if replaceAll
               then S <$> count_loop fuel oldText content (firstMatch + String.length oldText)
               else Some 1%nat);
      if (1 <? Z.of_nat count) && negb replaceAll then
        Some (inl ("Warning: old_text appears " +:+ nat_to_string count +:+ " times at line "
                   +:+ nat_to_string (count_lines (str_take firstMatch content))
                   +:+ ". Provide more context to make it unique, or set replace_all=true."))
      else if replaceAll then inr <$> replace_loop fuel oldText newText content 0
      else Some (inr (str_replace content firstMatch (String.length oldText) newText))
  end.

Section EditFile.
Context {X : Type} `{FileSystem X}.

(** Up to three files of the directory. *)
Definition suggestions (filePath : string) (x : X) : outcome string :=
  let parentDir := parent_path filePath in
  present <-- fs_exists parentDir x ;;
  if negb present then Ok "" else
  is_dir <-- fs_is_directory parentDir x ;;
  if negb is_dir then Ok "" else
  entries <-- fs_entries parentDir x ;;
  match List.filter (fun e => bool_decide (e.2 = regular)) entries with
  | [] => Ok ""
  | files => Ok (nl +:+ "Did you mean: " +:+ join ", " (take 3 (map fst files)) +:+ "?")
  end.

Definition create_file (filePath newText : string) (x : X) : X * outcome string :=
  match (present <-- fs_exists filePath x ;;
         if present : bool then size <-- fs_file_size filePath x ;; Ok (0 <? size) else Ok false) with
  | Throw e => (x, Throw e)
  | Ok true => (x, Ok ("Error: Cannot create file — " +:+ filePath +:+ " already exists and is not empty."))
  | Ok false =>
      let '(x1, made) := fs_create_directories (parent_path filePath) x in
      match made with
      | Throw e => (x1, Throw e)
      | Ok _ =>
          let '(x2, opened) := fs_write filePath newText x1 in
          (x2, Ok ((if opened : bool then "Successfully created " else "Error: Cannot create file: ") +:+ filePath))
      end
  end.

Definition EditFile (input : string) (x : X) : X * res string :=
  let lift (r : X * outcome string) := (r.1, match r.2 with Ok s => Val s | Throw e => Exc e end) in
  let filePath := edit_field input "path" in
  if str_empty filePath then (x, Val "Error: 'path' parameter is required")
  else
    let oldText := edit_field input "old_text" in
    let newText := edit_field input "new_text" in
    let replaceAll := edit_flag input "replace_all" false in
    if str_empty oldText && str_empty newText then
      (x, Val "Error: 'old_text' and/or 'new_text' parameter is required")
    else if str_empty oldText then lift (create_file filePath newText x)
    else
      match fs_exists filePath x with
      | Throw e => (x, Exc e)
      | Ok false =>
          lift (x, s <-- suggestions filePath x ;; Ok ("Error: File not found: " +:+ filePath +:+ s))
      | Ok true =>
          match fs_read filePath x with
          | None => (x, Val ("Error: Cannot open file for editing: " +:+ filePath))
          | Some content =>
              if String.eqb (extension filePath) ".ipynb" then
                (x, Val "Error: This is a Jupyter notebook. Use the notebook_edit tool instead.")
              else
                match edit_content filePath content oldText newText replaceAll with
                | None => (x, Undefined)
                | Some (inl message) => (x, Val message)
                | Some (inr newContent) =>
                    let '(x1, opened) := fs_write filePath newContent x in
                    (x1, Val ((if opened : bool then "Successfully edited " else "Error: Cannot write to file: ")
                              +:+ filePath))
                end
          end
      end.
End EditFile.

(** ** Facts *)

(** *** Editing *)

(** A text cut at the occurrences of [oldText], from the left and without overlaps. *)
Inductive pieces (oldText : string) : string -> list string -> Prop :=
  | pieces_last (s : string) : find_sub oldText s = None -> pieces oldText s [s]
  | pieces_cut (a s : string) (ps : list string) :
      find_sub oldText (a +:+ oldText +:+ s) = Some (String.length a) -> pieces oldText s ps ->
      pieces oldText (a +:+ oldText +:+ s) (a :: ps).

Lemma join_cons (sep a : string) (ps : list string) : ps <> [] -> join sep (a :: ps) = a +:+ sep +:+ join sep ps.
Proof. by destruct ps. Qed.

Lemma pieces_nonempty o s ps : pieces o s ps -> ps <> [].
Proof. by destruct 1. Qed.

Lemma pieces_join o s ps : pieces o s ps -> join o ps = s.
Proof.
  induction 1 as [|a s ps _ Hp IH]; [done|]. rewrite join_cons by (by eapply pieces_nonempty). by rewrite IH.
Qed.

Lemma pieces_exist (o s : string) : o <> "" -> exists ps, pieces o s ps.
Proof.
  intros Ho. remember (String.length s) as n eqn:En. revert s En.
  induction (lt_wf n) as [n _ IH]; intros s En. destruct (find_sub o s) as [i|] eqn:E; [|exists [s]; by constructor].
  apply find_sub_Some in E as E'. destruct E' as (a & b & -> & <-).
  destruct (IH (String.length b)) with (s := b) as (ps & Hps); [|done|exists (a :: ps); by constructor].
  rewrite En, !str_length_app. destruct o; [done|]. cbn. lia.
Qed.

Lemma find_str_here (p pre s : string) :
  find_str p (pre +:+ s) (String.length pre) = Nat.add (String.length pre) <$> find_sub p s.
Proof. unfold find_str. rewrite decide_True by (rewrite str_length_app; lia). by rewrite str_drop_app. Qed.

Lemma str_replace_at (pre o s t : string) :
  str_replace (pre +:+ o +:+ s) (String.length pre) (String.length o) t = pre +:+ t +:+ s.
Proof.
  unfold str_replace. rewrite str_take_app, <- str_length_app. by rewrite <- (str_app_assoc pre o s), str_drop_app.
Qed.

Lemma replace_loop_spec (o t pre s : string) (ps : list string) (fuel : nat) :
  o <> "" -> pieces o s ps -> (String.length s < fuel)%nat ->
  replace_loop fuel o t (pre +:+ s) (String.length pre) = Some (pre +:+ join t ps).
Proof.
  intros Ho Hp. revert pre fuel. induction Hp as [s Hs|a s ps Hf Hp IH]; intros pre fuel Hfuel.
  - destruct fuel as [|fuel]; [lia|]. cbn [replace_loop]. rewrite find_str_here, Hs. done.
  - destruct fuel as [|fuel]; [lia|]. cbn [replace_loop]. rewrite find_str_here, Hf. cbn [fmap option_fmap option_map].
    rewrite <- str_length_app. rewrite <- (str_app_assoc pre a), str_replace_at.
    rewrite <- str_length_app. rewrite <- (str_app_assoc (pre +:+ a) t), IH.
    + rewrite join_cons by (by eapply pieces_nonempty). by rewrite !str_app_assoc.
    + rewrite !str_length_app in Hfuel. destruct o; [done|]. cbn in Hfuel. lia.
Qed.

Lemma count_loop_total (o pre s : string) (ps : list string) (fuel : nat) :
  o <> "" -> pieces o s ps -> (String.length s < fuel)%nat ->
  exists n, count_loop fuel o (pre +:+ s) (String.length pre) = Some n.
Proof.
  intros Ho Hp. revert pre fuel. induction Hp as [s Hs|a s ps Hf Hp IH]; intros pre fuel Hfuel.
  - destruct fuel as [|fuel]; [lia|]. cbn [count_loop]. rewrite find_str_here, Hs. by eexists.
  - destruct fuel as [|fuel]; [lia|]. cbn [count_loop]. rewrite find_str_here, Hf. cbn [fmap option_fmap option_map].
    rewrite <- !str_length_app. rewrite <- (str_app_assoc a), <- (str_app_assoc pre).
    replace (String.length ((pre +:+ a) +:+ o)) with (String.length (pre +:+ a +:+ o)) by (by rewrite str_app_assoc).
    destruct (IH (pre +:+ a +:+ o) fuel) as (n & ->); [|by eexists].
    rewrite !str_length_app in Hfuel. destruct o; [done|]. cbn in Hfuel. lia.
Qed.

(** What an edit makes of a text cut into [ps]: every occurrence is replaced, or the
    first. *)
Definition edited (replaceAll : bool) (oldText newText : string) (ps : list string) : string :=
  match ps with
  | a :: rest => if replaceAll then join newText ps else a +:+ newText +:+ join oldText rest
  | [] => ""
  end.

Lemma edit_content_spec (p content o t : string) (all : bool) (ps : list string) :
  o <> "" -> pieces o content ps ->
  edit_content p content o t all =
  Some (if find_sub o content then inr (edited all o t ps)
        else inl ("Error: old_text not found in " +:+ p +:+ ". Copy the exact text from read_file and try again.")).
Proof.
  intros Ho Hp. unfold edit_content, find_str. rewrite decide_True by lia. cbn [str_drop].
  inversion Hp as [s Hs|a s ps' Hf Hp']; subst; [by rewrite Hs|].
  rewrite Hf. cbn [fmap option_fmap option_map Nat.add]. destruct all.
  - assert (exists n, count_loop (S (S (String.length (a +:+ o +:+ s)))) o (a +:+ o +:+ s)
      (String.length a + String.length o) = Some n) as (n & ->).
    { rewrite <- (str_length_app a o), <- (str_app_assoc a o s). eapply count_loop_total; [done..|].
      rewrite !str_length_app. lia. }
    cbn [mbind option_bind fmap option_fmap option_map]. rewrite andb_false_r.
    change (a +:+ o +:+ s) with ("" +:+ (a +:+ o +:+ s)).
    by rewrite (replace_loop_spec o t "" (a +:+ o +:+ s) (a :: ps')) by (done || (cbn; lia)).
  - cbn [mbind option_bind]. rewrite str_replace_at. cbn [edited]. by rewrite (pieces_join _ _ _ Hp').
Qed.

Section EditFacts.
Context {X : Type} `{FileSystemLaws X}.

(** What [edit_file] does to a file.  On a readable file that is not a notebook
    and a disk that takes the text, a call with a text to replace leaves, cut at the
    occurrences of that text from the left, the same pieces around the new text:
    around every occurrence with [replace_all], around the first one only without it,
    however many there are.  Without an occurrence nothing is written.  The loops of
    the tool end, also when the new text holds the old one. *)
Theorem edit_file_replaces (input p content o t : string) (all : bool) (x : X) :
  edit_field input "path" = p -> edit_field input "old_text" = o -> edit_field input "new_text" = t ->
  edit_flag input "replace_all" false = all ->
  p <> "" -> o <> "" -> fs_exists p x = Ok true -> fs_read p x = Some content ->
  extension p <> ".ipynb" -> (forall s, exists x1, fs_write p s x = (x1, true)) ->
  exists ps, pieces o content ps /\ join o ps = content /\
    match find_sub o content with
    | Some _ => exists x1, EditFile input x = (x1, Val ("Successfully edited " +:+ p)) /\
                  fs_read p x1 = Some (edited all o t ps)
    | None => EditFile input x =
        (x, Val ("Error: old_text not found in " +:+ p +:+ ". Copy the exact text from read_file and try again."))
    end.
Proof.
  intros Ep Eo Et Ea Hp Ho Hex Hr Hipynb Hw. destruct (pieces_exist o content Ho) as (ps & Hps).
  exists ps. split_and!; [done | by apply pieces_join|].
  unfold EditFile. rewrite Ep, Eo, Et, Ea. apply str_empty_false in Hp as ->.
  apply str_empty_false in Ho as Ho'. rewrite Ho', Hex, Hr. cbn [andb].
  destruct (String.eqb_spec (extension p) ".ipynb"); [done|]. rewrite (edit_content_spec _ _ _ _ _ ps) by done.
  destruct (find_sub o content); [|done]. destruct (Hw (edited all o t ps)) as (x1 & E). rewrite E.
  exists x1. split; [done|]. by eapply write_read.
Qed.
End EditFacts.

(** *** Reading *)

Definition entries_from (i : Z) (ls : list string) : list string :=
  imap (fun k l => lineEntry (i + Z.of_nat k) l) ls.

Lemma entries_from_cons i l ls : entries_from i (l :: ls) = lineEntry i l :: entries_from (i + 1) ls.
Proof.
  unfold entries_from. cbn. f_equal; [f_equal; lia|]. apply imap_ext. intros k s _. cbn. f_equal. lia.
Qed.

Lemma entries_from_drop n i ls : drop n (entries_from i ls) = entries_from (i + Z.of_nat n) (drop n ls).
Proof.
  revert i ls; induction n as [|n IH]; intros i ls; [by rewrite !drop_0, Z.add_0_r|].
  destruct ls as [|l ls]; [done|]. rewrite entries_from_cons. cbn [drop]. rewrite IH. f_equal. lia.
Qed.

Lemma length_entries_from i ls : length (entries_from i ls) = length ls.
Proof. apply length_imap. Qed.

(** The entry with its line end fits a page. *)
Definition entry_fits (e : string) : Prop := Z.of_nat (String.length e) + 1 <= kMaxChars.

Lemma page_entries_take ls i n c :
  Forall entry_fits (entries_from i ls) -> 0 <= c <= kMaxChars ->
  exists k, page_entries ls i n c = Some (take k (entries_from i ls)) /\
    (k <= n)%nat /\ (k <= length ls)%nat /\ (c = 0 -> n <> 0%nat -> ls <> [] -> k <> 0%nat).
Proof.
  unfold kMaxChars. revert i n c; induction ls as [|l ls IH]; intros i n c Hf Hc.
  { exists 0%nat. destruct n; cbn; split_and!; (done || lia). }
  destruct n as [|n]; [exists 0%nat; cbn; split_and!; (done || lia)|].
  rewrite entries_from_cons in *. apply Forall_cons in Hf as [Hl Hf]. unfold entry_fits, kMaxChars in Hl.
  cbn [page_entries]. rewrite int_cast_id by lia. rewrite int_result_ok by lia. cbn [mbind option_bind].
  rewrite int_result_ok by lia. cbn [mbind option_bind]. unfold kMaxChars.
  destruct (Z.ltb_spec 128000 (c + Z.of_nat (String.length (lineEntry i l)) + 1)) as [Hlt|Hge].
  - exists 0%nat. split_and!; (done || lia).
  - destruct (IH (i + 1) n (c + Z.of_nat (String.length (lineEntry i l)) + 1) Hf) as (k & -> & Hk & Hk2 & _); [lia|].
    exists (S k). cbn. split_and!; (done || lia).
Qed.

Lemma read_page_spec ls o limit :
  Forall entry_fits (entries_from 0 ls) -> Z.of_nat (length ls) < 2 ^ 31 ->
  1 <= o <= Z.of_nat (length ls) -> 1 <= limit -> o + limit <= 2 ^ 31 ->
  exists k, read_page ls o limit =
      Some (take k (drop (Z.to_nat (o - 1)) (entries_from 0 ls)), o - 1 + Z.of_nat k) /\
    (1 <= k)%nat /\ Z.of_nat k <= limit /\ o - 1 + Z.of_nat k <= Z.of_nat (length ls).
Proof.
  intros Hf Hn Ho Hl Hlim. unfold read_page. rewrite int_cast_id by lia.
  rewrite int_result_ok by lia. cbn [mbind option_bind].
  assert (Forall entry_fits (entries_from (o - 1) (drop (Z.to_nat (o - 1)) ls))) as Hf'.
  { apply (Forall_drop _ (Z.to_nat (o - 1))) in Hf. rewrite entries_from_drop in Hf.
    replace (0 + Z.of_nat (Z.to_nat (o - 1))) with (o - 1) in Hf by lia. done. }
  set (n := Z.to_nat (Z.min (o - 1 + limit) (Z.of_nat (length ls)) - (o - 1))).
  destruct (page_entries_take _ _ n 0 Hf' ltac:(done)) as (k & -> & Hk1 & Hk2 & Hk3).
  rewrite length_drop in Hk2. assert (k <> 0%nat) as Hk0.
  { apply Hk3; [done | subst n; lia|]. intros Hd. apply (f_equal length) in Hd. rewrite length_drop in Hd.
    cbn in Hd. lia. }
  exists k. cbn [mbind option_bind]. rewrite entries_from_drop.
  replace (0 + Z.of_nat (Z.to_nat (o - 1))) with (o - 1) by lia.
  rewrite length_take, length_entries_from, length_drop. replace (k `min` _)%nat with k by lia.
  split_and!; [done|lia..].
Qed.

(** The pages a reader gets who follows the hints from [offset] on. *)
Fixpoint follow_hints (fuel : nat) (ls : list string) (limit offset : Z) : option (list (list string)) :=
  match fuel with
  | O => None
  | S fuel =>
      page ← read_page ls offset limit;
      let '(es, actualEnd) := page in
      if actualEnd <? Z.of_nat (length ls) then
        rest ← follow_hints fuel ls limit (actualEnd + 1); Some (es :: rest)
      else Some [es]
  end.

Lemma follow_hints_spec fuel ls limit o :
  Forall entry_fits (entries_from 0 ls) -> Z.of_nat (length ls) + limit <= 2 ^ 31 ->
  1 <= o <= Z.of_nat (length ls) -> 1 <= limit -> Z.of_nat (length ls) - o < Z.of_nat fuel ->
  exists pages, follow_hints fuel ls limit o = Some pages /\
    concat pages = drop (Z.to_nat (o - 1)) (entries_from 0 ls) /\
    Forall (fun es => es <> [] /\ Z.of_nat (length es) <= limit) pages.
Proof.
  intros Hf Hn Ho Hl. revert o Ho; induction fuel as [|fuel IH]; intros o Ho Hfuel; [lia|].
  cbn [follow_hints]. destruct (read_page_spec ls o limit Hf) as (k & -> & Hk1 & Hk2 & Hk3); [lia..|].
  cbn [mbind option_bind].
  set (es := take k (drop (Z.to_nat (o - 1)) (entries_from 0 ls))).
  assert (length es = k) as Hlen.
  { unfold es. rewrite length_take, length_drop, length_entries_from. lia. }
  assert (es <> [] /\ Z.of_nat (length es) <= limit) as Hes by (split; [by destruct es; cbn in *; [lia|] | lia]).
  destruct (Z.ltb_spec (o - 1 + Z.of_nat k) (Z.of_nat (length ls))) as [Hlt|Hge].
  - destruct (IH (o - 1 + Z.of_nat k + 1)) as (pages & -> & Hc & Hp); [lia..|].
    cbn [mbind option_bind]. eexists. split; [done|]. split; [|by constructor].
    cbn [concat]. rewrite Hc. rewrite <- (take_drop k (drop (Z.to_nat (o - 1)) _)). unfold es. f_equal.
    rewrite drop_drop. f_equal. lia.
  - eexists. split; [done|]. split; [|by apply Forall_singleton]. cbn [concat]. rewrite app_nil_r. unfold es.
    apply take_ge. rewrite length_drop, length_entries_from. lia.
Qed.

Section ReadFacts.
Context {X : Type} `{FileSystem X}.

Lemma read_file_page (input p text : string) (o limit : Z) (x : X) :
  ParseStringField input "path" = p -> p <> "" ->
  ParseIntField input "offset" 1 = o -> ParseIntField input "limit" kDefaultLimit = limit ->
  fs_status p x = Ok regular -> fs_read p x = Some text ->
  Z.of_nat (length (getlines text)) < 2 ^ 31 -> 1 <= o <= Z.of_nat (length (getlines text)) -> 1 <= limit ->
  ReadFile input x =
  match read_page (getlines text) o limit with
  | Some page => Val (page_text o (Z.of_nat (length (getlines text))) page)
  | None => Undefined
  end.
Proof.
  intros Ep Hp Eo El Hs Hr Hn Ho Hl. unfold ReadFile, fs_exists, fs_is_regular_file. rewrite Ep, Eo, El, Hs, Hr.
  apply str_empty_false in Hp as ->. cbn [obind]. rewrite (bool_decide_eq_false_2 (regular = not_found)) by done.
  rewrite (bool_decide_eq_true_2 (regular = regular)) by done. cbn [negb].
  rewrite int_cast_id by lia.
  destruct (Z.ltb_spec o 1); [lia|]. destruct (Z.ltb_spec limit 1); [lia|].
  destruct (Z.eqb_spec (Z.of_nat (length (getlines text))) 0); [lia|].
  destruct (Z.ltb_spec (Z.of_nat (length (getlines text))) o); [lia|]. done.
Qed.

(** A reader who starts at the first line and follows the hints of [read_file]
    gets the whole file.  When every line fits a page and the numbers are in range, the
    calls end after at most one page per line, every page has between one and [limit]
    lines, and the pages put together are the lines of the file, each once, in order
    and with its number; what each call returns is the text of its page. *)
Theorem read_file_pages (p text : string) (limit : Z) (input : Z -> string) (x : X) :
  p <> "" -> fs_status p x = Ok regular -> fs_read p x = Some text ->
  (forall o, 1 <= o <= Z.of_nat (length (getlines text)) ->
     ParseStringField (input o) "path" = p /\ ParseIntField (input o) "offset" 1 = o /\
     ParseIntField (input o) "limit" kDefaultLimit = limit) ->
  getlines text <> [] -> 1 <= limit -> Z.of_nat (length (getlines text)) + limit <= 2 ^ 31 ->
  Forall entry_fits (entries_from 0 (getlines text)) ->
  exists pages, follow_hints (length (getlines text)) (getlines text) limit 1 = Some pages /\
    concat pages = entries_from 0 (getlines text) /\
    Forall (fun es => es <> [] /\ Z.of_nat (length es) <= limit) pages /\
    forall o, 1 <= o <= Z.of_nat (length (getlines text)) -> exists page,
      read_page (getlines text) o limit = Some page /\
      ReadFile (input o) x = Val (page_text o (Z.of_nat (length (getlines text))) page).
Proof.
  intros Hp Hs Hr Hin Hne Hl Hn Hf.
  assert (1 <= Z.of_nat (length (getlines text))) as Hlen by (destruct (getlines text); cbn; [done | lia]).
  destruct (follow_hints_spec (length (getlines text)) (getlines text) limit 1 Hf) as (pages & E & Hc & Hp'); [lia..|].
  exists pages. split_and!; [done..|]. intros o Ho.
  destruct (read_page_spec (getlines text) o limit Hf) as (k & Ek & _); [lia..|]. eexists. split; [done|].
  destruct (Hin o Ho) as (E1 & E2 & E3). rewrite (read_file_page _ p text o limit) by (done || lia). by rewrite Ek.
Qed.

(** A line too long for a page is never shown: the hint of an empty page leads back to
    the same offset. *)
Lemma long_line_stalls (ls : list string) (o limit : Z) (l : string) :
  Z.of_nat (length ls) < 2 ^ 31 -> 1 <= o <= Z.of_nat (length ls) -> 1 <= limit -> o + limit <= 2 ^ 31 ->
  ls !! Z.to_nat (o - 1) = Some l -> kMaxChars < Z.of_nat (String.length (lineEntry (o - 1) l)) + 1 < 2 ^ 31 ->
  read_page ls o limit = Some ([], o - 1).
Proof.
  intros Hn Ho Hl Hlim Hls Hlong. unfold read_page. rewrite int_cast_id by lia.
  rewrite int_result_ok by lia. cbn [mbind option_bind].
  rewrite (drop_S ls l (Z.to_nat (o - 1))) by done.
  destruct (Z.to_nat (Z.min (o - 1 + limit) (Z.of_nat (length ls)) - (o - 1))) as [|n] eqn:En; [lia|].
  cbn [page_entries]. rewrite int_cast_id by lia. rewrite int_result_ok by lia. cbn [mbind option_bind].
  rewrite int_result_ok by lia. cbn [mbind option_bind]. destruct (Z.ltb_spec kMaxChars (0 + Z.of_nat
    (String.length (lineEntry (o - 1) l)) + 1)); [|lia]. cbn. do 2 f_equal. lia.
Qed.
End ReadFacts.

(** *** Writing *)

(** How JSON text shows a character of a string. *)
Definition json_escape_char (c : ascii) : string :=
  let esc (d : ascii) := String BSLASH (String d "") in
  match byte_of c with
  | 34%N => esc DQUOTE
  | 92%N => esc BSLASH
  | 8%N => esc "b"%char
  | 9%N => esc "t"%char
  | 10%N => esc "n"%char
  | 12%N => esc "f"%char
  | 13%N => esc "r"%char
  | b => if (b <? 32)%N
         then String BSLASH ("u00" +:+ String (if (b <? 16)%N then "0" else "1")
                (String (ascii_of_N (let d := (b mod 16)%N in if (d <? 10)%N then 48 + d else 87 + d)) ""))
         else String c ""
  end.

Fixpoint str_bind (f : ascii -> string) (s : string) : string :=
  match s with EmptyString => "" | String c s' => f c +:+ str_bind f s' end.
Definition json_escape : string -> string := str_bind json_escape_char.

(** What is left of a character once the backslash of its escape is dropped. *)
Definition kept_char (c : ascii) : string :=
  match json_escape_char c with
  | String b (String d r) => if Ascii.eqb b BSLASH then String d r else json_escape_char c
  | e => e
  end.
Definition kept : string -> string := str_bind kept_char.

Definition is_control (c : ascii) : bool := (byte_of c <? 32)%N.
Fixpoint any_char (p : ascii -> bool) (s : string) : bool :=
  match s with EmptyString => false | String c s' => p c || any_char p s' end.

Lemma scan_escape_char (c d : ascii) (t : string) :
  scan_string drop_escape (json_escape_char c +:+ String d t) =
  kept_char c +:+ scan_string drop_escape (String d t).
Proof.
  destruct c as [[] [] [] [] [] [] [] []]; reflexivity.
Qed.

Lemma scan_escaped (s rest : string) : scan_string drop_escape (json_escape s +:+ dq +:+ rest) = kept s.
Proof.
  induction s as [|c s IH]; [by destruct rest|]. unfold json_escape, kept in *. cbn [str_bind].
  rewrite str_app_assoc. destruct (str_bind json_escape_char s +:+ dq +:+ rest) as [|d t] eqn:E.
  { destruct (str_bind json_escape_char s); done. }
  by rewrite scan_escape_char, IH.
Qed.

Lemma kept_char_control (c : ascii) :
  is_control c = true -> exists d r, kept_char c = String d r /\ d <> c.
Proof. destruct c as [[] [] [] [] [] [] [] []]; cbn; try done; intros _; by eexists _, _. Qed.

Lemma kept_char_plain (c : ascii) : is_control c = false -> kept_char c = String c "".
Proof. destruct c as [[] [] [] [] [] [] [] []]; cbn; done. Qed.

Lemma kept_id (s : string) : kept s = s <-> any_char is_control s = false.
Proof.
  induction s as [|c s IH]; [done|]. unfold kept in *. cbn [str_bind any_char].
  destruct (is_control c) eqn:Ec; cbn [orb].
  - split; [|done]. destruct (kept_char_control c Ec) as (d & r & -> & Hd). intros [= E _]. done.
  - rewrite kept_char_plain by done. rewrite <- IH. cbn. split; [by intros [= ->] | by intros ->].
Qed.

Lemma scan_plain (s rest : string) :
  occurs DQUOTE s = false -> occurs BSLASH s = false -> scan_string raw_escape (s +:+ dq +:+ rest) = s.
Proof.
  induction s as [|c s IH]; intros Hq Hb; [by destruct rest|].
  cbn [occurs] in Hq, Hb. apply orb_false_iff in Hq as [Hq Hq']. apply orb_false_iff in Hb as [Hb Hb'].
  change (String c s +:+ dq +:+ rest) with (String c (s +:+ dq +:+ rest)). cbn [scan_string].
  rewrite (Ascii.eqb_sym c BSLASH), Hb, (Ascii.eqb_sym c DQUOTE), Hq.
  destruct (s +:+ dq +:+ rest) as [|d t] eqn:E; [by destruct s|]. by rewrite IH.
Qed.

(** The arguments of a call as a JSON object. *)
Definition write_input (path content : string) : string :=
  "{" +:+ dq +:+ "path" +:+ dq +:+ ":" +:+ dq +:+ path +:+ dq +:+ "," +:+
  dq +:+ "content" +:+ dq +:+ ":" +:+ dq +:+ json_escape content +:+ dq +:+ "}".

Lemma write_input_path (p c : string) :
  occurs DQUOTE p = false -> occurs BSLASH p = false -> ParseStringField (write_input p c) "path" = p.
Proof.
  intros Hq Hb. unfold ParseStringField, write_input.
  assert (forall rest, value_text "path" ("{" +:+ dq +:+ "path" +:+ dq +:+ ":" +:+ dq +:+ rest) = Some (dq +:+ rest))
    as -> by (intros rest; unfold value_text, find_str; rewrite decide_True by lia; reflexivity).
  cbn. by apply scan_plain.
Qed.

Lemma find_char_here (c : ascii) (pre rest : string) :
  find_char c (pre +:+ String c rest) (String.length pre) = Some (String.length pre).
Proof.
  unfold find_char, find_if_from. rewrite str_drop_app. cbn. rewrite Ascii.eqb_refl. cbn. f_equal. lia.
Qed.

Lemma starts_with_quoted (a p r : string) :
  occurs DQUOTE a = false -> occurs DQUOTE p = false -> starts_with (a +:+ dq) (p +:+ dq +:+ r) = String.eqb a p.
Proof.
  revert p; induction a as [|c a IH]; intros p Ha Hp; destruct p as [|d p]; try done.
  - cbn [occurs] in Hp. apply orb_false_iff in Hp as [Hp _].
    change (Ascii.eqb DQUOTE d && true = false). by rewrite Hp.
  - cbn [occurs] in Ha. apply orb_false_iff in Ha as [Ha _].
    change (Ascii.eqb c DQUOTE && starts_with (a +:+ dq) r = false). by rewrite Ascii.eqb_sym, Ha.
  - cbn [occurs] in Ha, Hp. apply orb_false_iff in Ha as [_ Ha]. apply orb_false_iff in Hp as [_ Hp].
    change (Ascii.eqb c d && starts_with (a +:+ dq) (p +:+ dq +:+ r) = (if Ascii.eqb c d then String.eqb a p else false)).
    rewrite IH by done. by destruct (Ascii.eqb c d).
Qed.

Lemma find_sub_dq (p t : string) :
  find_sub (String DQUOTE p) (dq +:+ t) = if starts_with p t then Some 0%nat else S <$> find_sub (String DQUOTE p) t.
Proof. reflexivity. Qed.

Lemma write_input_key (p r : string) :
  occurs DQUOTE p = false -> p <> "content" ->
  find_sub (dq +:+ "content" +:+ dq)
    ("{" +:+ dq +:+ "path" +:+ dq +:+ ":" +:+ dq +:+ p +:+ dq +:+ "," +:+ dq +:+ "content" +:+ dq +:+ r)
  = Some (11 + String.length p)%nat.
Proof.
  intros Hp Hc. change (dq +:+ "content" +:+ dq) with (String DQUOTE ("content" +:+ dq)).
  rewrite find_sub_skip by done. rewrite find_sub_dq. change (starts_with ("content" +:+ dq) _) with false at 1.
  cbn iota. rewrite find_sub_skip by done. rewrite find_sub_dq. change (starts_with ("content" +:+ dq) _) with false at 1.
  cbn iota. rewrite find_sub_skip by done. rewrite find_sub_dq, starts_with_quoted by done.
  destruct (String.eqb_spec "content" p); [by subst|].
  rewrite find_sub_skip, find_sub_dq by done. change (starts_with ("content" +:+ dq) _) with false at 1.
  cbn iota. rewrite find_sub_skip, find_sub_dq by done.
  assert (starts_with ("content" +:+ dq) ("content" +:+ dq +:+ r) = true) as -> by (by destruct r).
  cbn -[Nat.add]. f_equal. lia.
Qed.

Lemma write_input_content (p c : string) :
  occurs DQUOTE p = false -> p <> "content" -> write_content (write_input p c) = inr (kept c).
Proof.
  intros Hq Hc. unfold write_content, find_str. rewrite decide_True by lia. cbn [str_drop].
  unfold write_input at 1. rewrite write_input_key by done. cbn [fmap option_fmap option_map]. rewrite Nat.add_0_l.
  set (pre := "{" +:+ dq +:+ "path" +:+ dq +:+ ":" +:+ dq +:+ p +:+ dq +:+ "," +:+ dq +:+ "content" +:+ dq).
  set (body := json_escape c +:+ dq +:+ "}").
  assert (write_input p c = pre +:+ String ":" (String DQUOTE body)) as ->
    by (unfold write_input, pre; by rewrite !str_app_assoc).
  assert (11 + String.length p + 9 = String.length pre)%nat as ->
    by (unfold pre; rewrite !str_length_app; cbn; lia).
  rewrite find_char_here. unfold find_if_from.
  assert (str_drop (S (String.length pre)) (pre +:+ String ":" (String DQUOTE body)) = String DQUOTE body) as Hd.
  { rewrite <- (Nat.add_1_r (String.length pre)), <- str_drop_drop, str_drop_app. done. }
  rewrite Hd. cbn [find_if]. change (negb (is_blank DQUOTE)) with true.
  cbn [fmap option_fmap option_map]. rewrite Nat.add_0_r, Hd, Ascii.eqb_refl. f_equal. apply scan_escaped.
Qed.

Section WriteFacts.
Context {X : Type} `{FileSystemLaws X}.

(** What [write_file] makes of its argument.  The JSON text of a call with a plain
    path and any content reaches the tool; on a disk that takes it, the file then
    holds the content with every escape cut to the letter behind its backslash: it is
    the content asked for exactly when that has no control character, and a line end
    becomes the letter n. *)
Theorem write_file_content (p content : string) (x x1 : X) :
  p <> "" -> p <> "content" -> occurs DQUOTE p = false -> occurs BSLASH p = false ->
  fs_create_directories (parent_path p) x = (x1, Ok tt) ->
  (exists x2, fs_write p (kept content) x1 = (x2, true)) ->
  exists x2, (WriteFile (write_input p content) x).1 = x2 /\ fs_read p x2 = Some (kept content) /\
    (fs_read p x2 = Some content <-> any_char is_control content = false).
Proof.
  intros Hp Hpc Hq Hb Hd (x2 & Hw). exists x2. unfold WriteFile.
  rewrite write_input_path, write_input_content by done. apply str_empty_false in Hp as ->. rewrite Hd, Hw.
  rewrite (write_read _ _ _ _ Hw). split_and!; [done..|]. rewrite <- kept_id. split; congruence.
Qed.
End WriteFacts.

(** ** Witnesses *)

Definition field (key value : string) : string := dq +:+ key +:+ dq +:+ ":" +:+ dq +:+ value +:+ dq.
Definition ex_disk : MemDisk.disk :=
  MemDisk.mkDisk [("d/f.txt", ("one two" +:+ nl +:+ "two" +:+ nl +:+ "three" +:+ nl, 5))] 100.

(** Two pages of two lines. *)
Definition ex_page_input (o : Z) : string :=
  "{" +:+ field "path" "d/f.txt" +:+ "," +:+ dq +:+ "offset" +:+ dq +:+ ": " +:+ to_string o
  +:+ "," +:+ dq +:+ "limit" +:+ dq +:+ ":2}".

Example ex_first_page :
  ReadFile (ex_page_input 1) ex_disk =
  Val ("1| one two" +:+ nl +:+ "2| two" +:+ nl +:+ nl +:+ "(Showing lines 1-2 of 3. Use offset=3 to continue.)").
Proof. vm_compute. reflexivity. Qed.

Lemma read_file_pages_witness :
  exists pages, follow_hints 3 ["one two"; "two"; "three"] 2 1 = Some pages /\
    concat pages = ["1| one two"; "2| two"; "3| three"].
Proof.
  destruct (read_file_pages "d/f.txt" ("one two" +:+ nl +:+ "two" +:+ nl +:+ "three" +:+ nl) 2 ex_page_input ex_disk)
    as (pages & E & Hc & _).
  - done.
  - vm_compute. reflexivity.
  - vm_compute. reflexivity.
  - intros o Ho. cbn in Ho. assert (o = 1 \/ o = 2 \/ o = 3) as [-> | [-> | ->]] by lia; vm_compute; done.
  - done.
  - done.
  - cbn. lia.
  - rewrite Forall_forall. intros e He. unfold entry_fits, kMaxChars. cbn in He.
    repeat (apply elem_of_cons in He as [->|He]; [vm_compute; done|]). by apply elem_of_nil in He.
  - exists pages. split; [exact E|]. rewrite Hc. vm_compute. reflexivity.
Defined.

Definition ex_edit_input (all : bool) : string :=
  "{" +:+ field "path" "d/f.txt" +:+ "," +:+ field "old_text" "two" +:+ "," +:+ field "new_text" "two two"
  +:+ (if all then "," +:+ dq +:+ "replace_all" +:+ dq +:+ ":true}" else "}").

(** Without [replace_all] the second occurrence is left, and nothing is said of it. *)
Example ex_first_only :
  fs_read "d/f.txt" (EditFile (ex_edit_input false) ex_disk).1 =
  Some ("one two two" +:+ nl +:+ "two" +:+ nl +:+ "three" +:+ nl).
Proof. vm_compute. reflexivity. Qed.

Lemma edit_file_replaces_witness :
  exists x1, EditFile (ex_edit_input true) ex_disk = (x1, Val "Successfully edited d/f.txt") /\
    fs_read "d/f.txt" x1 = Some ("one two two" +:+ nl +:+ "two two" +:+ nl +:+ "three" +:+ nl).
Proof.
  destruct (edit_file_replaces (ex_edit_input true) "d/f.txt" ("one two" +:+ nl +:+ "two" +:+ nl +:+ "three" +:+ nl)
    "two" "two two" true ex_disk) as (ps & _ & _ & He); try done; try (vm_compute; reflexivity).
  - intros s. by eexists.
  - assert (find_sub "two" ("one two" +:+ nl +:+ "two" +:+ nl +:+ "three" +:+ nl) = Some 4%nat) as E by reflexivity.
    rewrite E in He. destruct He as (x1 & Hx & _). exists x1. split; [exact Hx|].
    assert (x1 = (EditFile (ex_edit_input true) ex_disk).1) as -> by (by rewrite Hx). vm_compute. reflexivity.
Defined.

Lemma write_file_content_witness :
  exists x2, (WriteFile (write_input "d/new.c" ("a" +:+ nl +:+ "b")) ex_disk).1 = x2 /\
    fs_read "d/new.c" x2 = Some "anb".
Proof.
  destruct (write_file_content "d/new.c" ("a" +:+ nl +:+ "b") ex_disk ex_disk) as (x2 & E & Hr & _); try done.
  - by eexists.
  - exists x2. split; [exact E|]. rewrite Hr. reflexivity.
Defined.
