(* ===== verification/FileState.v ===== *)
(** * The file state tool (src/tools/builtin_tools/file_state_tool.cpp)

    Which files were read, with the time of the file then: kept in a text file that
    every call loads and every change rewrites. *)
From Stdlib Require Import ZArith Lia String Ascii List.
From stdpp Require Import base decidable list strings gmap.
From S2P Require Import Prelude Numbers JsonLib Files.
Open Scope Z_scope.

Record FileState := mkFileState {
  lastMtime : Z;
  lastReadTime : Z;
  lastWriteTime : Z;
  lastReadOffset : Z;
  lastReadLimit : Z
}.
Definition default_FileState : FileState := mkFileState 0 0 0 0 2000.

Record FileStateTool := mkFileStateTool {
  stateFile_ : string;
  stateMap_ : gmap string FileState
}.
Definition SetStateFile (path : string) (t : FileStateTool) : FileStateTool := mkFileStateTool path (stateMap_ t).
Definition set_map (m : gmap string FileState) (t : FileStateTool) : FileStateTool :=
  mkFileStateTool (stateFile_ t) m.

Definition set_mtime (z : Z) (s : FileState) : FileState :=
  mkFileState z (lastReadTime s) (lastWriteTime s) (lastReadOffset s) (lastReadLimit s).
Definition set_read_time (z : Z) (s : FileState) : FileState :=
  mkFileState (lastMtime s) z (lastWriteTime s) (lastReadOffset s) (lastReadLimit s).
Definition set_write_time (z : Z) (s : FileState) : FileState :=
  mkFileState (lastMtime s) (lastReadTime s) z (lastReadOffset s) (lastReadLimit s).
Definition set_offset (z : Z) (s : FileState) : FileState :=
  mkFileState (lastMtime s) (lastReadTime s) (lastWriteTime s) z (lastReadLimit s).
Definition set_limit (z : Z) (s : FileState) : FileState :=
  mkFileState (lastMtime s) (lastReadTime s) (lastWriteTime s) (lastReadOffset s) z.

(** ** Loading *)

(** The map so far, [currentPath] and [current]. *)
Record LoadAcc := mkLoadAcc {
  ld_map : gmap string FileState;
  ld_path : string;
  ld_current : FileState
}.

Definition flush (a : LoadAcc) : gmap string FileState :=
  if str_empty (ld_path a) then ld_map a else <[ld_path a := ld_current a]> (ld_map a).

Definition number (what : string) (z : option Z) : outcome Z :=
  match z with Some z => Ok z | None => Throw what end.
Definition update (set : Z -> FileState -> FileState) (z : outcome Z) (a : LoadAcc) : outcome LoadAcc :=
  v <-- z ;; Ok (mkLoadAcc (ld_map a) (ld_path a) (set v (ld_current a))).

Definition load_line (line : string) (a : LoadAcc) : outcome LoadAcc :=
  let field (p : string) := String.eqb (str_take (String.length p) line) p in
  let value (p : string) := str_drop (String.length p) line in
  if str_empty line || front_is "#" line then Ok a
  else if field "file:" then Ok (mkLoadAcc (flush a) (value "file:") default_FileState)
  else if field "mtime: " then update set_mtime (number "stoll" (stoll (value "mtime: "))) a
  else if field "read_time: " then update set_read_time (number "stoll" (stoll (value "read_time: "))) a
  else if field "write_time: " then update set_write_time (number "stoll" (stoll (value "write_time: "))) a
  else if field "offset: " then update set_offset (number "stoi" (stoi (value "offset: "))) a
  else if field "limit: " then update set_limit (number "stoi" (stoi (value "limit: "))) a
  else Ok a.

(** The map stays as it is when a number cannot be read. *)
Fixpoint load_lines (ls : list string) (a : LoadAcc) : gmap string FileState * outcome unit :=
  match ls with
  | [] => (flush a, Ok tt)
  | l :: ls => match load_line l a with
               | Ok a1 => load_lines ls a1
               | Throw e => (ld_map a, Throw e)
               end
  end.

(** ** Saving *)

Definition state_lines (entry : string * FileState) : list string :=
  let '(path, s) := entry in
  ["file:" +:+ path; "mtime: " +:+ to_string (lastMtime s); "read_time: " +:+ to_string (lastReadTime s);
   "write_time: " +:+ to_string (lastWriteTime s); "offset: " +:+ to_string (lastReadOffset s);
   "limit: " +:+ to_string (lastReadLimit s); ""].
Definition state_text (m : gmap string FileState) : string :=
  log_text ("# File state tracking for agent memory" :: concat (map state_lines (fields_of m))).

Section Tool.
Context {X : Type} `{FileSystem X}.

Definition LoadState (t : FileStateTool) (x : X) : FileStateTool * outcome unit :=
  if str_empty (stateFile_ t) then (set_map ∅ t, Ok tt)
  else match fs_exists (stateFile_ t) x with
  | Throw e => (set_map ∅ t, Throw e)
  | Ok false => (set_map ∅ t, Ok tt)
  | Ok true =>
      match fs_read (stateFile_ t) x with
      | None => (set_map ∅ t, Ok tt)
      | Some text =>
          let '(m, r) := load_lines (getlines text) (mkLoadAcc ∅ "" default_FileState) in (set_map m t, r)
      end
  end.

Definition SaveState (t : FileStateTool) (x : X) : X * outcome unit :=
  if str_empty (stateFile_ t) then (x, Ok tt)
  else
    let parentDir := parent_path (stateFile_ t) in
    let '(x1, made) :=
      if str_empty parentDir then (x, Ok tt)
      else match fs_exists parentDir x with
           | Throw e => (x, Throw e)
           | Ok true => (x, Ok tt)
           | Ok false => fs_create_directories parentDir x
           end in
    match made with
    | Throw e => (x1, Throw e)
    | Ok _ => ((fs_write (stateFile_ t) (state_text (stateMap_ t)) x1).1, Ok tt)
    end.

(** ** The actions *)

Definition check_answer (filePath : string) (offset limit : Z) (entry : option FileState) (x : X) : outcome string :=
  match entry with
  | None => Ok ("[WARNING] File " +:+ filePath +:+ " has not been read. Please read it first before editing.")
  | Some state =>
      mtimeSec <-- fs_mtime filePath x ;;
      if negb (mtimeSec =? lastMtime state) then
        Ok ("[WARNING] File " +:+ filePath +:+ " has been modified since last read. Please read it again.")
      else if negb (offset =? lastReadOffset state) || negb (limit =? lastReadLimit state) then
        Ok ("[WARNING] File " +:+ filePath +:+ " was read with different offset/limit. Please read with offset="
            +:+ to_string (lastReadOffset state) +:+ " and limit=" +:+ to_string (lastReadLimit state) +:+ " first.")
      else Ok ("[OK] File " +:+ filePath +:+ " state is valid for editing")
  end.

(** [SaveState] and the message of a change. *)
Definition saved (t : FileStateTool) (x : X) (message : string) : FileStateTool * X * outcome string :=
  let '(x1, r) := SaveState t x in (t, x1, _ <-- r ;; Ok message).

Definition read_state (mtime now offset limit : Z) : FileState := mkFileState mtime now 0 offset limit.

(** [Invoke] after [LoadState]. *)
Definition act (action filePath : string) (offset limit : Z) (t : FileStateTool) (x : X)
    : FileStateTool * X * outcome string :=
  let required := "Error: 'path' parameter is required for " +:+ action in
  let missing := "Error: File not found: " +:+ filePath in
  if String.eqb action "check" then
    if str_empty filePath then (t, x, Ok required)
    else match fs_exists filePath x with
    | Throw e => (t, x, Throw e)
    | Ok false => (t, x, Ok missing)
    | Ok true => (t, x, check_answer filePath offset limit (stateMap_ t !! filePath) x)
    end
  else if String.eqb action "record_read" then
    if str_empty filePath then (t, x, Ok required)
    else match fs_exists filePath x with
    | Throw e => (t, x, Throw e)
    | Ok false => (t, x, Ok missing)
    | Ok true =>
        match fs_mtime filePath x with
        | Throw e =>
            (set_map (match stateMap_ t !! filePath with
                      | Some _ => stateMap_ t
                      | None => <[filePath := default_FileState]> (stateMap_ t) end) t, x, Throw e)
        | Ok mtime =>
            saved (set_map (<[filePath := read_state mtime (unix_time x) offset limit]> (stateMap_ t)) t) x
              ("Marked " +:+ filePath +:+ " as read (offset=" +:+ to_string offset +:+ ", limit="
               +:+ to_string limit +:+ ")")
        end
    end
  else if String.eqb action "record_write" then
    if str_empty filePath then (t, x, Ok required)
    else
      let old := default default_FileState (stateMap_ t !! filePath) in
      saved (set_map (<[filePath := set_write_time (unix_time x) old]> (stateMap_ t)) t) x
        ("Marked " +:+ filePath +:+ " as written")
  else if String.eqb action "clear" then saved (set_map ∅ t) x "Cleared all file state"
  else (t, x, Ok ("Error: Unknown action '" +:+ action +:+ "'. Use: check, record_read, record_write, or clear")).

Definition Invoke (input : string) (t : FileStateTool) (x : X) : FileStateTool * X * outcome string :=
  let '(t1, loaded) := LoadState t x in
  match loaded with
  | Throw e => (t1, x, Throw e)
  | Ok _ =>
      act (ParseStringField input "action") (ParseStringField input "path") (ParseIntField input "offset" 1)
        (ParseIntField input "limit" 2000) t1 x
  end.
End Tool.

(** ** Facts *)

(** *** The file *)

Definition path_ok (p : string) : Prop := p <> "" /\ occurs NL p = false.
Definition state_ok (s : FileState) : Prop :=
  - 2 ^ 63 <= lastMtime s < 2 ^ 63 /\ - 2 ^ 63 <= lastReadTime s < 2 ^ 63 /\ - 2 ^ 63 <= lastWriteTime s < 2 ^ 63 /\
  - 2 ^ 31 <= lastReadOffset s < 2 ^ 31 /\ - 2 ^ 31 <= lastReadLimit s < 2 ^ 31.
Definition map_ok (m : gmap string FileState) : Prop := map_Forall (fun p s => path_ok p /\ state_ok s) m.

(** One entry of the file is read into [current], and the entry before it is stored. *)
Lemma load_entry (p : string) (s : FileState) (rest : list string) (a : LoadAcc) :
  path_ok p -> state_ok s ->
  load_lines (state_lines (p, s) ++ rest) a = load_lines rest (mkLoadAcc (flush a) p s).
Proof.
  intros [Hp _] (H1 & H2 & H3 & H4 & H5). cbn [state_lines app].
  assert (forall l ls a a1, load_line l a = Ok a1 -> load_lines (l :: ls) a = load_lines ls a1) as Hstep
    by (intros l ls b b1 E; cbn [load_lines]; by rewrite E).
  assert (forall v a, load_line ("file:" +:+ v) a = Ok (mkLoadAcc (flush a) v default_FileState)) as E1 by done.
  assert (forall v a, load_line ("mtime: " +:+ v) a = update set_mtime (number "stoll" (stoll v)) a) as E2 by done.
  assert (forall v a, load_line ("read_time: " +:+ v) a = update set_read_time (number "stoll" (stoll v)) a)
    as E3 by done.
  assert (forall v a, load_line ("write_time: " +:+ v) a = update set_write_time (number "stoll" (stoll v)) a)
    as E4 by done.
  assert (forall v a, load_line ("offset: " +:+ v) a = update set_offset (number "stoi" (stoi v)) a) as E5 by done.
  assert (forall v a, load_line ("limit: " +:+ v) a = update set_limit (number "stoi" (stoi v)) a) as E6 by done.
  rewrite (Hstep _ _ _ _ (E1 _ _)).
  erewrite Hstep by (rewrite E2, stoll_to_string by done; reflexivity).
  erewrite Hstep by (rewrite E3, stoll_to_string by done; reflexivity).
  erewrite Hstep by (rewrite E4, stoll_to_string by done; reflexivity).
  erewrite Hstep by (rewrite E5, stoi_to_string by done; reflexivity).
  erewrite Hstep by (rewrite E6, stoi_to_string by done; reflexivity).
  rewrite (Hstep "" rest _ _ eq_refl). cbn. by destruct s.
Qed.

Lemma load_entries (l : list (string * FileState)) (a : LoadAcc) :
  Forall (fun e => path_ok e.1 /\ state_ok e.2) l ->
  load_lines (concat (map state_lines l)) a =
  (fold_left (fun m e => <[e.1 := e.2]> m) l (flush a), Ok tt).
Proof.
  intros Hl. revert a; induction Hl as [|[p s] l [Hp Hs] _ IH]; intros a; [done|].
  cbn [map concat]. rewrite load_entry, IH by done. cbn [fold_left fst snd]. do 2 f_equal.
  unfold flush at 1. cbn [ld_path ld_map ld_current]. destruct Hp as [Hp _]. cbn [fst] in Hp.
  by apply str_empty_false in Hp as ->.
Qed.

Lemma state_lines_ok (m : gmap string FileState) :
  map_ok m -> Forall (fun l => occurs NL l = false)
    ("# File state tracking for agent memory" :: concat (map state_lines (fields_of m))).
Proof.
  intros Hm. constructor; [done|]. apply Forall_concat, Forall_map, Forall_forall. intros [p s] Hin.
  apply elem_of_fields_of in Hin. destruct (Hm p s Hin) as [[_ Hp] _]. cbn [state_lines].
  rewrite !Forall_cons, Forall_nil. split_and!; rewrite ?occurs_app, ?to_string_no_nl, ?Hp; done.
Qed.

(** What is saved is what is loaded. *)
Lemma load_saved (m : gmap string FileState) :
  map_ok m -> load_lines (getlines (state_text m)) (mkLoadAcc ∅ "" default_FileState) = (m, Ok tt).
Proof.
  intros Hm. unfold state_text. rewrite getlines_log by (by apply state_lines_ok). cbn [load_lines].
  assert (forall a, load_line "# File state tracking for agent memory" a = Ok a) as -> by done.
  rewrite load_entries, (insert_fields (V := FileState)); [done|]. apply Forall_forall. intros [p s] Hin.
  apply elem_of_fields_of in Hin. by apply (Hm p s).
Qed.

(** *** A run of the tool *)

(** What a call notes, the newest first. *)
Inductive note :=
  | Noted_read (p : string) (mtime offset limit : Z)
  | Noted_write (p : string)
  | Noted_clear.

(** The time, offset and limit a path was read with, as the notes tell. *)
Fixpoint seen (p : string) (notes : list note) : option (Z * Z * Z) :=
  match notes with
  | [] => None
  | Noted_clear :: _ => None
  | Noted_read q mtime offset limit :: notes =>
      if String.eqb q p then Some (mtime, offset, limit) else seen p notes
  | Noted_write q :: notes =>
      if String.eqb q p then Some (default (0, 0, 2000) (seen p notes)) else seen p notes
  end.

Section Run.
Context {X : Type} `{FileSystemLaws X}.
Variable f : string.

Definition noted (input : string) (x : X) : list note :=
  let action := ParseStringField input "action" in
  let p := ParseStringField input "path" in
  if String.eqb action "record_read" then
    match fs_exists p x, fs_mtime p x with
    | Ok true, Ok mtime =>
        if str_empty p then [] else [Noted_read p mtime (ParseIntField input "offset" 1) (ParseIntField input "limit" 2000)]
    | _, _ => []
    end
  else if String.eqb action "record_write" then if str_empty p then [] else [Noted_write p]
  else if String.eqb action "clear" then [Noted_clear] else [].

(** A call by an object whose map may be anything, or something else that happens. *)
Inductive event :=
  | Call (mem : gmap string FileState) (input : string)
  | Elsewhere (change : X -> X).

Definition event_ok (e : event) : Prop :=
  match e with
  | Call _ input => occurs NL input = false
  | Elsewhere change => forall x, fs_read f (change x) = fs_read f x /\ fs_exists f (change x) = fs_exists f x
  end.

Fixpoint run (es : list event) (notes : list note) (x : X) : list note * X :=
  match es with
  | [] => (notes, x)
  | Call mem input :: es => run es (noted input x ++ notes) (Invoke input (mkFileStateTool f mem) x).1.2
  | Elsewhere change :: es => run es notes (change x)
  end.

(** The state file can be written. *)
Definition disk_works : Prop :=
  f <> "" /\ (forall t x, exists x1, fs_write f t x = (x1, true)) /\
  (forall x, parent_path f <> "" -> fs_exists (parent_path f) x = Ok true).

Definition persisted (m : gmap string FileState) (x : X) : Prop :=
  map_ok m /\ ((fs_exists f x = Ok true /\ fs_read f x = Some (state_text m)) \/
               (fs_exists f x = Ok false /\ m = ∅)).

Definition tells (m : gmap string FileState) (notes : list note) : Prop :=
  forall p, (fun s => (lastMtime s, lastReadOffset s, lastReadLimit s)) <$> m !! p = seen p notes.

Lemma load_persisted m mem x :
  disk_works -> persisted m x -> LoadState (mkFileStateTool f mem) x = (mkFileStateTool f m, Ok tt).
Proof.
  intros (Hf & _) [Hm Hx]. unfold LoadState. cbn [stateFile_]. apply str_empty_false in Hf as ->.
  destruct Hx as [[-> ->]|[-> ->]]; [|done]. by rewrite load_saved.
Qed.

Lemma saved_persisted m x message :
  disk_works -> map_ok m ->
  exists x1, saved (mkFileStateTool f m) x message = (mkFileStateTool f m, x1, Ok message) /\ persisted m x1.
Proof.
  intros (Hf & Hw & Hp) Hm. unfold saved, SaveState. cbn [stateFile_ stateMap_]. apply str_empty_false in Hf as ->.
  destruct (Hw (state_text m) x) as (x1 & E). exists x1.
  assert ((if str_empty (parent_path f) then (x, Ok tt)
           else match fs_exists (parent_path f) x with
                | Throw e => (x, Throw e) | Ok true => (x, Ok tt)
                | Ok false => fs_create_directories (parent_path f) x end) = (x, Ok tt)) as ->.
  { destruct (str_empty (parent_path f)) eqn:Ep; [done|]. by rewrite (Hp x) by (by apply str_empty_false). }
  rewrite E. split; [done|]. split; [done|]. left. split; [|by eapply write_read].
  unfold fs_exists. by rewrite (write_exists _ _ _ _ E).
Qed.

Lemma tells_read m notes p mtime now offset limit :
  tells m notes ->
  tells (<[p := read_state mtime now offset limit]> m) (Noted_read p mtime offset limit :: notes).
Proof.
  intros Ht q. cbn [seen]. rewrite lookup_insert.
  destruct (String.eqb_spec p q); [by rewrite decide_True | rewrite decide_False by done; apply Ht].
Qed.

Lemma tells_write m notes p now :
  tells m notes ->
  tells (<[p := set_write_time now (default default_FileState (m !! p))]> m) (Noted_write p :: notes).
Proof.
  intros Ht q. cbn [seen]. rewrite lookup_insert.
  destruct (String.eqb_spec p q) as [->|]; [|rewrite decide_False by done; apply Ht].
  rewrite decide_True by done. rewrite <- Ht.
  by destruct (m !! q).
Qed.

Lemma map_ok_insert m p s : path_ok p -> state_ok s -> map_ok m -> map_ok (<[p := s]> m).
Proof. intros Hp Hs Hm. by apply map_Forall_insert_2. Qed.

Lemma write_state_ok m p (x : X) :
  map_ok m -> state_ok (set_write_time (unix_time x) (default default_FileState (m !! p))).
Proof.
  intros Hm. pose proof (time_range x) as Hx. destruct (m !! p) as [s|] eqn:E.
  - destruct (Hm p s E) as [_ (?&?&?&?&?)]. unfold state_ok; cbn; lia.
  - cbn. unfold state_ok. cbn. lia.
Qed.

(** A call keeps the file and the notes together. *)
Lemma call_step m mem notes input x :
  disk_works -> persisted m x -> tells m notes -> occurs NL input = false ->
  exists m1, persisted m1 (Invoke input (mkFileStateTool f mem) x).1.2 /\ tells m1 (noted input x ++ notes).
Proof.
  intros Hd Hp Ht Hin. unfold Invoke. rewrite (load_persisted m) by done.
  pose proof (proj1 Hp) as Hm.
  assert (forall m1 message, map_ok m1 -> persisted m1 (saved (mkFileStateTool f m1) x message).1.2) as Hsave.
  { intros m1 message Hm1. by destruct (saved_persisted m1 x message Hd Hm1) as (x1 & -> & ?). }
  unfold act, noted. set (p := ParseStringField input "path").
  assert (str_empty p = false -> path_ok p) as Hpath
    by (intros He; split; [by apply str_empty_false | by apply occurs_field]).
  pose proof (ParseIntField_range input "offset" 1 ltac:(lia)) as Ho.
  pose proof (ParseIntField_range input "limit" 2000 ltac:(lia)) as Hl.
  destruct (String.eqb_spec (ParseStringField input "action") "check") as [->|_].
  { cbn [String.eqb Ascii.eqb Bool.eqb app]. exists m. split; [|done].
    destruct (str_empty p); [done|]. by destruct (fs_exists p x) as [[]|]. }
  destruct (String.eqb (ParseStringField input "action") "record_read").
  { destruct (str_empty p) eqn:Ee; [exists m; split; [done|]; by destruct (fs_exists p x) as [[]|], (fs_mtime p x)|].
    destruct (fs_exists p x) as [[]|]; [|by exists m..].
    destruct (fs_mtime p x) as [mtime|] eqn:Et; [|by exists m].
    eexists. split; [apply Hsave | by apply tells_read]. apply map_ok_insert; [by apply Hpath | | done].
    apply mtime_range in Et. pose proof (time_range x). unfold state_ok; cbn in *; lia. }
  destruct (String.eqb (ParseStringField input "action") "record_write").
  { destruct (str_empty p) eqn:Ee; [by exists m|]. eexists. split; [apply Hsave | by apply tells_write].
    apply map_ok_insert; [by apply Hpath | by apply write_state_ok | done]. }
  destruct (String.eqb (ParseStringField input "action") "clear"); [|by exists m].
  exists ∅. split; [by apply Hsave|]. intros q. cbn. by rewrite lookup_empty.
Qed.

Lemma run_keeps es notes x m :
  disk_works -> Forall event_ok es -> persisted m x -> tells m notes ->
  exists m1, persisted m1 (run es notes x).2 /\ tells m1 (run es notes x).1.
Proof.
  intros Hd Hes. revert notes x m; induction Hes as [|e es He _ IH]; intros notes x m Hp Ht; [by exists m|].
  destruct e as [mem input|change]; cbn [run].
  - destruct (call_step m mem notes input x) as (m1 & Hp1 & Ht1); [done..|]. by apply (IH _ _ m1).
  - apply (IH _ _ m); [|done]. destruct (He x) as [E1 E2], Hp as [Hm Hx]. split; [done|]. by rewrite E1, E2.
Qed.

(** What [check] guards.  Start without a state file, and let any tool objects be
    called with any inputs of one line, in any order, while other programs change the
    disk but not the state file.  Then [check] calls a file valid for editing exactly
    when the last [record_read] of that path since the last [clear] was made with the
    offset and limit given now and the file has the modification time it had then;
    a path that was only recorded as written counts as read at time 0 from offset 0. *)
Theorem check_guards_edit (es : list event) (x0 x : X) (notes : list note) (mem : gmap string FileState)
    (input p : string) (now : Z) :
  disk_works -> fs_exists f x0 = Ok false -> Forall event_ok es -> run es [] x0 = (notes, x) ->
  ParseStringField input "action" = "check" -> ParseStringField input "path" = p -> p <> "" ->
  fs_exists p x = Ok true -> fs_mtime p x = Ok now ->
  (Invoke input (mkFileStateTool f mem) x).2 = Ok ("[OK] File " +:+ p +:+ " state is valid for editing") <->
  seen p notes = Some (now, ParseIntField input "offset" 1, ParseIntField input "limit" 2000).
Proof.
  intros Hd Hx0 Hes Erun Ha Ep Hp Hex Hnow. destruct (run_keeps es [] x0 ∅) as (m & Hm & Ht); [done..| | |].
  { split; [apply map_Forall_empty|]. by right. }
  { intros q. by rewrite lookup_empty. }
  rewrite Erun in *. cbn [fst snd] in *.
  unfold Invoke. rewrite (load_persisted m) by done. rewrite Ha, Ep. unfold act.
  cbn [String.eqb Ascii.eqb Bool.eqb]. apply str_empty_false in Hp as ->. rewrite Hex. cbn [snd stateMap_].
  rewrite <- Ht. unfold check_answer. destruct (m !! p) as [s|]; [|done]. rewrite Hnow. cbn [obind fmap option_fmap option_map].
  destruct (Z.eqb_spec now (lastMtime s)); cbn [negb]; [|split; [done | congruence]].
  destruct (Z.eqb_spec (ParseIntField input "offset" 1) (lastReadOffset s)); cbn [negb orb];
    [|split; [done | congruence]].
  destruct (Z.eqb_spec (ParseIntField input "limit" 2000) (lastReadLimit s)); cbn [negb];
    [|split; [done | congruence]].
  split; [congruence | done].
Qed.
End Run.

(** ** Witness *)

Definition ex_field (key value : string) : string := dq +:+ key +:+ dq +:+ ":" +:+ dq +:+ value +:+ dq.
Definition ex_input (action : string) : string :=
  "{" +:+ ex_field "action" action +:+ "," +:+ ex_field "path" "a.txt" +:+ "}".
Definition ex_disk : MemDisk.disk := MemDisk.mkDisk [("a.txt", ("text", 7))] 100.
Definition ex_events : list (event (X := MemDisk.disk)) :=
  [Call ∅ (ex_input "record_read"); Elsewhere (fun x => x); Call ∅ (ex_input "record_write")].
(** The same, and then another program writes the file. *)
Definition ex_late_events : list (event (X := MemDisk.disk)) :=
  ex_events ++ [Elsewhere (fun x => (fs_write "a.txt" "new" x).1)].

Lemma ex_disk_works : disk_works (X := MemDisk.disk) "state.dat".
Proof. split_and!; [done | by intros t x; eexists | done]. Qed.

Lemma ex_events_ok : Forall (event_ok "state.dat") ex_late_events.
Proof.
  unfold ex_late_events, ex_events. cbn [app]. rewrite !Forall_cons, Forall_nil.
  split_and!; try done; cbn [event_ok]; try (vm_compute; reflexivity).
Qed.

Lemma check_guards_edit_witness :
  exists notes1 x1 notes2 x2,
    run "state.dat" ex_events [] ex_disk = (notes1, x1) /\ run "state.dat" ex_late_events [] ex_disk = (notes2, x2) /\
    (Invoke (ex_input "check") (mkFileStateTool "state.dat" ∅) x1).2
      = Ok "[OK] File a.txt state is valid for editing" /\
    (Invoke (ex_input "check") (mkFileStateTool "state.dat" ∅) x2).2
      <> Ok "[OK] File a.txt state is valid for editing".
Proof.
  eexists _, _, _, _. split; [vm_compute; reflexivity|]. split; [vm_compute; reflexivity|]. split.
  - pose proof ex_events_ok as Ho. apply Forall_app in Ho as [Ho _].
    eapply (check_guards_edit "state.dat" ex_events ex_disk _ _ ∅ (ex_input "check") "a.txt" 7 ex_disk_works);
      [vm_compute; reflexivity | exact Ho | vm_compute; reflexivity | vm_compute; reflexivity | vm_compute; reflexivity
      | discriminate | vm_compute; reflexivity | vm_compute; reflexivity | vm_compute; reflexivity].
  - intros Hc.
    eapply (check_guards_edit "state.dat" ex_late_events ex_disk _ _ ∅ (ex_input "check") "a.txt" 102 ex_disk_works)
      in Hc;
      [| vm_compute; reflexivity | exact ex_events_ok | vm_compute; reflexivity
      | vm_compute; reflexivity | vm_compute; reflexivity | discriminate | vm_compute; reflexivity
      | vm_compute; reflexivity].
    cbn in Hc. congruence.
Defined.
