(* ===== verification/ExecTool.v ===== *)
(** * The shell tool (src/tools/builtin_tools/exec_tool.cpp)

    [ExecTool::Invoke] on a POSIX system: the fields of the call, the guard over
    dangerous commands, the line handed to [/bin/sh], what comes back from the pipe.

    The regular expressions of the guard are data with a matcher; the relation
    [rmatch] says what an expression matches.  How [/bin/sh] reads a line is
    specified by [sh_line], after the quoting and token rules of POSIX, for the part
    of the grammar the tool uses: a text it does not read is [None].  Processes are
    the class [Shell]. *)
From Stdlib Require Import ZArith Lia String Ascii List.
From stdpp Require Import base decidable list strings.
From S2P Require Import Prelude Numbers ToolBase Files.
Open Scope Z_scope.

(** ** Regular expressions *)

Inductive regex :=
  | Eps
  | One (p : ascii -> bool)
  | Many (p : ascii -> bool)
  | Cat (r1 r2 : regex)
  | Alt (r1 r2 : regex)
  | Bound.

(** A character of [\w], and the boundary [\b]. *)
Definition is_word (c : ascii) : bool :=
  let b := byte_of c in
  ((48 <=? b) && (b <=? 57) || (65 <=? b) && (b <=? 90) || (97 <=? b) && (b <=? 122) || (b =? 95))%N.
Definition word_at (s : string) (i : nat) : bool :=
  match String.get i s with Some c => is_word c | None => false end.
Definition boundary (s : string) (i : nat) : bool :=
  xorb (match i with O => false | S j => word_at s j end) (word_at s i).

(** The number of characters at the start that satisfy [p]. *)
Fixpoint run (p : ascii -> bool) (s : string) : nat :=
  match s with String c s' => if p c then S (run p s') else O | EmptyString => O end.

(** Where the matches that start at a position end. *)
Fixpoint ends (s : string) (r : regex) (i : nat) : list nat :=
  match r with
  | Eps => [i]
  | One p => match String.get i s with Some c => if p c then [S i] else [] | None => [] end
  | Many p => seq i (S (run p (str_drop i s)))
  | Cat r1 r2 => flat_map (ends s r2) (ends s r1 i)
  | Alt r1 r2 => ends s r1 i ++ ends s r2 i
  | Bound => if boundary s i then [i] else []
  end.

(** [std::regex_search]. *)
Definition regex_search (s : string) (r : regex) : bool :=
  existsb (fun i => negb (Nat.eqb (length (ends s r i)) 0)) (seq 0 (S (String.length s))).

Definition icase (c d : ascii) : bool := Ascii.eqb (tolower c) (tolower d).
Fixpoint lit (s : string) : regex :=
  match s with EmptyString => Eps | String c s' => Cat (One (icase c)) (lit s') end.
Definition oneof (cs : string) : ascii -> bool := fun c => occurs (tolower c) cs.
Definition sp_star : regex := Many is_space.
Definition sp_plus : regex := Cat (One is_space) (Many is_space).
Fixpoint alts (l : list string) : regex :=
  match l with [] => One (fun _ => false) | [s] => lit s | s :: l => Alt (lit s) (alts l) end.

Definition denyPatterns : list regex := [
  Cat (lit "rm") (Cat sp_plus (Cat (lit "-") (Cat (One (oneof "rf")) (Alt Eps (One (oneof "rf"))))));
  Cat (lit "del") (Cat sp_plus (Cat (lit "/") (One (oneof "fq"))));
  Cat (lit "rmdir") (Cat sp_plus (lit "/s"));
  Cat (lit "format") Bound;
  Cat Bound (Cat (alts ["mkfs"; "diskpart"]) Bound);
  Cat Bound (Cat (lit "dd") (Cat sp_plus (lit "if=")));
  Cat (lit ">") (Cat sp_star (lit "/dev/sd"));
  Cat Bound (Cat (alts ["shutdown"; "reboot"; "poweroff"]) Bound)
].

Definition guard_message : string :=
  "Error: Command blocked by safety guard (dangerous pattern detected)".

Definition GuardCommand (command : string) : string :=
  let lowerCmd := lower command in
  if existsb (regex_search lowerCmd) denyPatterns then guard_message else "".

(** ** The line *)

Definition SQUOTE : ascii := "'"%char.

Fixpoint quote_chars (s : string) : string :=
  match s with
  | EmptyString => ""
  | String c s' =>
      (if Ascii.eqb c SQUOTE then String SQUOTE (String BSLASH (String SQUOTE (String SQUOTE "")))
       else String c "") +:+ quote_chars s'
  end.
Definition ShellQuote (s : string) : string :=
  String SQUOTE "" +:+ quote_chars s +:+ String SQUOTE "".

Definition full_command (command workingDir : string) (timeoutSec : Z) : string :=
  let bashCmd := "bash -c " +:+ ShellQuote command in
  let fullCmd := if str_empty workingDir then bashCmd else "cd " +:+ ShellQuote workingDir +:+ " && " +:+ bashCmd in
  "timeout " +:+ to_string timeoutSec +:+ "s " +:+ fullCmd +:+ " 2>&1".

(** ** Processes *)

(** How a process ended, and the status [wait] encodes it in (Linux). *)
Inductive exit_status := exited (code : Z) | signaled (sig : Z) (core : bool).
Definition status_ok (e : exit_status) : Prop :=
  match e with exited c => 0 <= c <= 255 | signaled s _ => 1 <= s <= 64 end.
Definition wait_status (e : exit_status) : Z :=
  match e with exited c => c * 256 | signaled s core => s + (if core then 128 else 0) end.

(** [popen] with [/bin/sh]: everything the process writes to the pipe, and its end;
    [None] when there is no process. *)
Class Shell (X : Type) := popen : string -> X -> X * option (string * exit_status).

(** The loop over [fgets] with a buffer of 4096 characters; [+=] takes the buffer up to
    the first NUL of each block. *)
Definition kBuffer : nat := 4096.
Fixpoint read_pipe (room : nat) (cut : bool) (s : string) : string :=
  match s with
  | EmptyString => ""
  | String c s' =>
      let cut' := cut || Ascii.eqb c NUL in
      let out := if cut' then "" else String c "" in
      out +:+ (if Ascii.eqb c NL || Nat.eqb room 1 then read_pipe (kBuffer - 1) false s'
               else read_pipe (room - 1) cut' s')
  end.

Definition kMaxOutput : Z := 10000.
Definition TruncateOutput (output : string) : string :=
  if int_cast (Z.of_nat (String.length output)) <=? kMaxOutput then output
  else
    let half := Z.to_nat (kMaxOutput / 2) in
    str_take half output
    +:+ nl +:+ nl +:+ "... (" +:+ to_string (Z.of_nat (String.length output) - kMaxOutput)
    +:+ " chars truncated) ..." +:+ nl +:+ nl
    +:+ str_drop (String.length output - half) output.

Definition timeout_message (timeoutSec : Z) : string :=
  "Error: Command timed out after " +:+ to_string timeoutSec +:+ " seconds".

Definition pipe_result (timeoutSec : Z) (written : string) (e : exit_status) : string :=
  let result := read_pipe (kBuffer - 1) false written in
  let exitCode := wait_status e in
  if exitCode =? 124 then timeout_message timeoutSec
  else
    TruncateOutput ((if str_empty result then "(no output)" else result)
                    +:+ nl +:+ "Exit code: " +:+ to_string exitCode).

Section Exec.
Context {X : Type} `{Shell X}.

Definition ExecutePosix (command workingDir : string) (timeoutSec : Z) (x : X) : X * string :=
  match popen (c_str (full_command command workingDir timeoutSec)) x with
  | (x1, None) => (x1, "Error: Failed to execute command")
  | (x1, Some (written, e)) => (x1, pipe_result timeoutSec written e)
  end.

Definition exec_timeout (input : string) : Z :=
  let timeout := ParseIntField input "timeout" 60 in
  let timeout := if 600 <? timeout then 600 else timeout in
  if timeout <? 1 then 60 else timeout.

Definition Invoke (input : string) (x : X) : X * string :=
  let command := ParseStringField input "command" in
  if str_empty command then (x, "Error: 'command' parameter is required")
  else
    let workingDir := ParseStringField input "working_dir" in
    let timeout := exec_timeout input in
    let guardError := GuardCommand command in
    if negb (str_empty guardError) then (x, guardError)
    else ExecutePosix command workingDir timeout x.
End Exec.

Definition exec_tool : ToolInfo :=
  mkToolInfo "exec"
    ("Execute a shell command and return its output. "
     +:+ "Use -y or --yes flags to avoid interactive prompts. "
     +:+ "Output is truncated at 10000 chars; timeout defaults to 60s. "
     +:+ "Input: JSON with 'command' (required), "
     +:+ "'working_dir' (optional), 'timeout' (default 60, max 600).")
    [ mkToolParam "command" "The shell command to execute" "string" true;
      mkToolParam "working_dir" "Optional working directory" "string" false;
      mkToolParam "timeout" "Timeout in seconds (default 60, max 600)" "integer" false ].

(** ** What an expression matches *)

Inductive rmatch (s : string) : regex -> nat -> nat -> Prop :=
  | match_eps i : rmatch s Eps i i
  | match_one p i c : String.get i s = Some c -> p c = true -> rmatch s (One p) i (S i)
  | match_many_stop p i : rmatch s (Many p) i i
  | match_many_next p i j c :
      String.get i s = Some c -> p c = true -> rmatch s (Many p) (S i) j -> rmatch s (Many p) i j
  | match_cat r1 r2 i j k : rmatch s r1 i j -> rmatch s r2 j k -> rmatch s (Cat r1 r2) i k
  | match_left r1 r2 i j : rmatch s r1 i j -> rmatch s (Alt r1 r2) i j
  | match_right r1 r2 i j : rmatch s r2 i j -> rmatch s (Alt r1 r2) i j
  | match_bound i : boundary s i = true -> rmatch s Bound i i.

Lemma drop_get (s : string) (i : nat) :
  str_drop i s = match String.get i s with Some c => String c (str_drop (S i) s) | None => "" end.
Proof. revert i; induction s as [|c s IH]; intros [|i]; try done. cbn. apply IH. Qed.

Lemma ends_many (s : string) (p : ascii -> bool) (i j : nat) :
  In j (ends s (Many p) i) <-> rmatch s (Many p) i j.
Proof.
  cbn [ends]. rewrite in_seq. split.
  - remember (run p (str_drop i s)) as n eqn:En. revert i En. induction n as [|n IH]; intros i En Hj.
    { assert (j = i) as -> by lia. constructor. }
    destruct (decide (j = i)) as [->|Hne]; [constructor|].
    rewrite drop_get in En. destruct (String.get i s) as [c|] eqn:Ec; [|done]. cbn in En.
    destruct (p c) eqn:Hp; [|done]. injection En as En.
    eapply match_many_next; [done..|]. apply IH; [done | lia].
  - remember (Many p) as r eqn:Er. induction 1; try done; simplify_eq; [lia|].
    rewrite drop_get. match goal with H : String.get _ _ = Some _ |- _ => rewrite H end. cbn [run].
    match goal with H : p _ = true |- _ => rewrite H end. specialize (IHrmatch eq_refl). lia.
Qed.

(** The matcher finds the ends of exactly the matches. *)
Lemma ends_spec (s : string) (r : regex) (i j : nat) : In j (ends s r i) <-> rmatch s r i j.
Proof.
  revert i j. induction r as [|p|p|r1 IH1 r2 IH2|r1 IH1 r2 IH2|]; intros i j.
  - cbn. split; [intros [->|[]]; constructor | inversion 1; auto].
  - cbn. split.
    + destruct (String.get i s) as [c|] eqn:E; [|done]. destruct (p c) eqn:Hp; [|done].
      intros [<-|[]]. by econstructor.
    + inversion 1; simplify_eq. repeat match goal with H : _ = _ |- _ => rewrite H end. by left.
  - apply ends_many.
  - cbn. rewrite in_flat_map. split.
    + intros (k & Hk & Hj). apply IH1 in Hk. apply IH2 in Hj. by econstructor.
    + inversion 1; simplify_eq. eexists. by rewrite IH1, IH2.
  - cbn. rewrite in_app_iff, IH1, IH2. split.
    + intros [H|H]; [by apply match_left | by apply match_right].
    + inversion 1; simplify_eq; auto.
  - cbn. destruct (boundary s i) eqn:E; split; try done.
    + intros [<-|[]]. by constructor.
    + inversion 1; simplify_eq. by left.
    + inversion 1; simplify_eq. congruence.
Qed.

Lemma get_lt (s : string) (k : nat) (c : ascii) : String.get k s = Some c -> (k < String.length s)%nat.
Proof. revert k; induction s as [|d s IH]; intros [|k]; cbn; try done; [lia|]. intros Hk%IH. lia. Qed.

Lemma rmatch_le (s : string) (r : regex) (i j : nat) :
  (i <= String.length s)%nat -> rmatch s r i j -> (i <= j <= String.length s)%nat.
Proof.
  intros Hi Hm; induction Hm; try lia.
  - match goal with H : String.get _ _ = Some _ |- _ => apply get_lt in H end. lia.
  - match goal with H : String.get _ _ = Some _ |- _ => apply get_lt in H end. specialize (IHHm ltac:(lia)). lia.
Qed.

(** A search succeeds when the expression matches somewhere. *)
Lemma regex_search_spec (s : string) (r : regex) :
  regex_search s r = true <-> exists i j, (i <= String.length s)%nat /\ rmatch s r i j.
Proof.
  unfold regex_search. rewrite existsb_exists. split.
  - intros (i & Hi & He). apply in_seq in Hi. destruct (ends s r i) as [|j l] eqn:E; [done|].
    exists i, j. split; [lia|]. apply ends_spec. rewrite E. by left.
  - intros (i & j & Hi & Hm). apply ends_spec in Hm. exists i. rewrite in_seq. split; [lia|].
    by destruct (ends s r i).
Qed.

Definition denied (command : string) : Prop :=
  exists r i j, In r denyPatterns /\ (i <= String.length command)%nat /\ rmatch (lower command) r i j.

Lemma str_map_length f s : String.length (str_map f s) = String.length s.
Proof. induction s as [|c s IH]; [done|]. cbn. by rewrite IH. Qed.

Lemma GuardCommand_spec (command : string) :
  (denied command -> GuardCommand command = guard_message) /\
  (~ denied command -> GuardCommand command = "").
Proof.
  unfold GuardCommand. destruct (existsb _ denyPatterns) eqn:E.
  - split; [done|]. intros []. apply existsb_exists in E as (r & Hr & (i & j & Hi & Hm)%regex_search_spec).
    exists r, i, j. unfold lower in Hi. by rewrite str_map_length in Hi.
  - split; [|done]. intros (r & i & j & Hr & Hi & Hm).
    enough (existsb (regex_search (lower command)) denyPatterns = true) by congruence.
    apply existsb_exists. exists r. split; [done|]. apply regex_search_spec. exists i, j.
    unfold lower. by rewrite str_map_length.
Qed.

(** Flags of [rm] that come after another flag are not seen. *)
Example ex_guard :
  map (fun c => str_empty (GuardCommand c))
    ["RM  -Rf /"; "rm -v -rf /"; "git log --format=%h"; "echo formatting"; "dd bs=1M if=/dev/zero"; "ls; ReBoot"]
  = [false; true; false; true; true; false].
Proof. vm_compute. reflexivity. Qed.

(** ** How [/bin/sh] reads the line *)

Inductive token := Word (w : string) | AndIf | MergeErr.

(** Characters that stand for themselves outside of quotes. *)
Definition plain_char (c : ascii) : bool := is_word c || occurs c "-/.,:+%@".
Definition push (c : ascii) (cur : option string) : option string :=
  Some (default "" cur +:+ String c "").
Definition emit (cur : option string) (ts : list token) : list token :=
  match cur with Some w => Word w :: ts | None => ts end.

(** The tokens of a line, inside or outside of single quotes, with the word begun.  Between
    single quotes every character stands for itself; a backslash outside quotes the next
    one; [2>&1] is a redirection at the end of the line. *)
Fixpoint sh_lex (quoted : bool) (cur : option string) (s : string) : option (list token) :=
  match s with
  | EmptyString => if quoted then None else Some (emit cur [])
  | String c s' =>
      if quoted then if Ascii.eqb c SQUOTE then sh_lex false cur s' else sh_lex true (push c cur) s'
      else if Ascii.eqb c SQUOTE then sh_lex true (Some (default "" cur)) s'
      else if Ascii.eqb c BSLASH then
        match s' with
        | String d s'' => if Ascii.eqb d NL then None else sh_lex false (push d cur) s''
        | EmptyString => None
        end
      else if is_blank c then emit cur <$> sh_lex false None s'
      else if Ascii.eqb c "&" then
        match s' with
        | String d s'' =>
            if Ascii.eqb d "&" then (fun ts => emit cur (AndIf :: ts)) <$> sh_lex false None s'' else None
        | EmptyString => None
        end
      else if String.eqb s "2>&1" && bool_decide (cur = None) then Some [MergeErr]
      else if plain_char c then sh_lex false (push c cur) s'
      else None
  end.

(** A simple command: its words, and whether its errors go where its output goes. *)
Record simple_command := mkSimple { sc_argv : list string; sc_merge : bool }.

Fixpoint and_list (ts : list token) : option (list simple_command) :=
  match ts with
  | [] => Some [mkSimple [] false]
  | Word w :: ts =>
      match and_list ts with
      | Some (mkSimple argv merge :: l) => Some (mkSimple (w :: argv) merge :: l)
      | _ => None
      end
  | AndIf :: ts => cons (mkSimple [] false) <$> and_list ts
  | MergeErr :: ts =>
      match and_list ts with
      | Some (mkSimple argv _ :: l) => Some (mkSimple argv true :: l)
      | _ => None
      end
  end.

(** The simple commands of an and-list. *)
Definition sh_line (s : string) : option (list simple_command) := sh_lex false None s ≫= and_list.

Lemma sh_lex_quoted (s rest w : string) :
  sh_lex true (Some w) (quote_chars s +:+ String SQUOTE rest) = sh_lex false (Some (w +:+ s)) rest.
Proof.
  revert w; induction s as [|c s IH]; intros w; cbn [quote_chars].
  - cbn. by rewrite str_app_nil_r.
  - destruct (Ascii.eqb_spec c SQUOTE) as [->|Hc].
    + rewrite !str_app_assoc. cbn. rewrite IH. by rewrite str_app_assoc.
    + rewrite str_app_assoc. cbn. rewrite (eqb_false c SQUOTE) by done.
      change (push c (Some w)) with (Some (w +:+ String c "")). by rewrite IH, str_app_assoc.
Qed.

(** Quoting reads back as one word, whatever the text. *)
Lemma sh_lex_quote (s rest : string) (cur : option string) :
  sh_lex false cur (ShellQuote s +:+ rest) = sh_lex false (Some (default "" cur +:+ s)) rest.
Proof. unfold ShellQuote. rewrite !str_app_assoc. cbn. by rewrite sh_lex_quoted. Qed.

Definition plain_text (s : string) : Prop := forall c, occurs c s = true -> plain_char c = true.

Lemma plain_text_all (s : string) :
  str_empty (str_filter (fun c => negb (plain_char c)) s) = true -> plain_text s.
Proof.
  induction s as [|d s IH]; intros Hs c Hc; [done|]. cbn in Hs, Hc.
  destruct (plain_char d) eqn:E; cbn in Hs; [|done].
  apply orb_true_iff in Hc as [Hc|Hc]; [by apply Ascii.eqb_eq in Hc as -> | by apply IH].
Qed.

Lemma plain_char_syntax c :
  plain_char c = true ->
  Ascii.eqb c SQUOTE = false /\ Ascii.eqb c BSLASH = false /\ is_blank c = false /\ Ascii.eqb c "&" = false.
Proof. destruct c as [[] [] [] [] [] [] [] []]; by vm_compute. Qed.

Lemma sh_lex_plain (a rest w : string) :
  plain_text a -> sh_lex false (Some w) (a +:+ rest) = sh_lex false (Some (w +:+ a)) rest.
Proof.
  revert w; induction a as [|c a IH]; intros w Ha; cbn; [by rewrite str_app_nil_r|].
  assert (plain_char c = true) as Hp by (apply Ha; cbn; by rewrite Ascii.eqb_refl).
  destruct (plain_char_syntax c Hp) as (H1 & H2 & H3 & H4). rewrite H1, H2, H3, H4, Hp, andb_false_r. cbn.
  change (push c (Some w)) with (Some (w +:+ String c "")). rewrite IH; [by rewrite str_app_assoc|].
  intros d Hd. apply Ha. cbn. by rewrite Hd, orb_true_r.
Qed.

(** A plain word that starts with a letter other than 2, at the start of a token. *)
Lemma sh_lex_word c (a rest : string) :
  plain_char c = true -> c <> "2"%char -> plain_text a ->
  sh_lex false None (String c a +:+ rest) = sh_lex false (Some (String c a)) rest.
Proof.
  intros Hp H2 Ha. cbn. destruct (plain_char_syntax c Hp) as (H1 & Hb & H3 & H4).
  rewrite H1, Hb, H3, H4, Hp, (eqb_false c "2") by done. cbn.
  change (push c None) with (Some (String c "")). by rewrite sh_lex_plain.
Qed.

Lemma sh_lex_blank (cur : option string) (rest : string) :
  sh_lex false cur (String " " rest) = emit cur <$> sh_lex false None rest.
Proof. reflexivity. Qed.

Lemma to_string_plain (z : Z) : plain_text (to_string z).
Proof.
  intros c Hc. destruct (to_string_chars z c Hc) as [->|[d Hd]]; [done|].
  unfold digit_of in Hd. destruct ((48 <=? byte_of c)%N && (byte_of c <=? 57)%N) eqn:E; [|done].
  unfold plain_char, is_word. by rewrite E.
Qed.

(** The duration, which may start with 2, as a word. *)
Lemma sh_lex_duration (z : Z) (rest : string) :
  sh_lex false None (to_string z +:+ "s" +:+ String " " rest)
  = cons (Word (to_string z +:+ "s")) <$> sh_lex false None rest.
Proof.
  pose proof (to_string_plain z) as Hp. destruct (to_string z) as [|c t] eqn:E.
  { by destruct (to_string_not_empty z). }
  assert (plain_char c = true) as Hc by (apply Hp; cbn; by rewrite Ascii.eqb_refl).
  assert (plain_text (t +:+ "s")) as Ht.
  { intros d. rewrite occurs_app. intros [Hd|Hd]%orb_true_iff; [apply Hp; cbn; by rewrite Hd, orb_true_r|].
    cbn in Hd. rewrite orb_false_r in Hd. by apply Ascii.eqb_eq in Hd as ->. }
  destruct (plain_char_syntax c Hc) as (H1 & H2 & H3 & H4).
  rewrite <- (str_app_assoc (String c t)). change (String c t +:+ "s") with (String c (t +:+ "s")).
  change (String c (t +:+ "s") +:+ String " " rest) with (String c ((t +:+ "s") +:+ String " " rest)).
  cbn [sh_lex]. rewrite H1, H2, H3, H4, Hc.
  assert (String.eqb (String c ((t +:+ "s") +:+ String " " rest)) "2>&1" = false) as Hne.
  { apply String.eqb_neq. intros [= _ Ee]. destruct t as [|x t]; cbn in Ee; [done|]. injection Ee as -> _.
    assert (plain_char ">" = true) by (apply Ht; done). done. }
  rewrite Hne. cbn [andb]. change (push c None) with (Some (String c "")).
  by rewrite sh_lex_plain, sh_lex_blank.
Qed.

(** ** The call *)

Lemma occurs_quote (c : ascii) (s : string) :
  c <> SQUOTE -> c <> BSLASH -> occurs c (ShellQuote s) = occurs c s.
Proof.
  intros H1 H2. apply eqb_false in H1, H2. unfold ShellQuote. rewrite !occurs_app. cbn [occurs]. rewrite H1. cbn.
  rewrite orb_false_r. induction s as [|d s IH]; [done|]. cbn [quote_chars occurs]. rewrite occurs_app, IH.
  destruct (Ascii.eqb_spec d SQUOTE) as [->|]; cbn [occurs]; rewrite ?H1, ?H2; [done|]. by rewrite orb_false_r.
Qed.

Lemma to_string_no_nul (z : Z) : occurs NUL (to_string z) = false.
Proof.
  apply occurs_false. intros d Hd. destruct (to_string_chars z d Hd) as [->|[v Hv]]; [done|]. by intros ->.
Qed.

Lemma full_command_no_nul (command dir : string) (t : Z) :
  occurs NUL command = false -> occurs NUL dir = false -> occurs NUL (full_command command dir t) = false.
Proof.
  intros Hc Hd. unfold full_command.
  destruct (str_empty dir); rewrite !occurs_app, ?occurs_quote, to_string_no_nul, ?Hc, ?Hd by done; done.
Qed.

(** What the shell runs. *)
Definition plan (command dir : string) (t : Z) : list simple_command :=
  let timed := ["timeout"; to_string t +:+ "s"] in
  if str_empty dir then [mkSimple (timed ++ ["bash"; "-c"; command]) true]
  else [mkSimple (timed ++ ["cd"; dir]) false; mkSimple ["bash"; "-c"; command] true].

Lemma full_command_line (command dir : string) (t : Z) :
  sh_line (full_command command dir t) = Some (plan command dir t).
Proof.
  assert (forall rest, sh_lex false None ("bash -c " +:+ ShellQuote command +:+ rest)
    = (fun ts => Word "bash" :: Word "-c" :: ts) <$> sh_lex false (Some command) rest) as Hbash.
  { intros rest. change ("bash -c " +:+ ?r) with (String "b" "ash" +:+ String " " (String "-" "c" +:+ String " " r)).
    rewrite sh_lex_word, sh_lex_blank, sh_lex_word, sh_lex_blank, (sh_lex_quote command); try done.
    - cbn [default]. change ("" +:+ command) with command. by destruct (sh_lex false (Some command) rest).
    - by apply plain_text_all.
    - by apply plain_text_all. }
  unfold sh_line, full_command, plan.
  change ("timeout " +:+ ?r) with (String "t" "imeout" +:+ String " " r).
  rewrite sh_lex_word by (done || by apply plain_text_all).
  rewrite sh_lex_blank. change ("s " +:+ ?r) with ("s" +:+ String " " r). rewrite sh_lex_duration.
  destruct (str_empty dir).
  - rewrite str_app_assoc, Hbash. reflexivity.
  - rewrite !str_app_assoc. change ("cd " +:+ ?r) with (String "c" "d" +:+ String " " r).
    rewrite sh_lex_word by (done || by apply plain_text_all).
    rewrite sh_lex_blank, sh_lex_quote. cbn [default]. change ("" +:+ dir) with dir.
    change (" && " +:+ ?r) with (String " " (String "&" (String "&" (String " " r)))).
    rewrite sh_lex_blank. cbn [sh_lex]. rewrite !(eqb_false _ SQUOTE), !(eqb_false _ BSLASH) by done.
    change (is_blank "&") with false. rewrite !Ascii.eqb_refl. cbn iota beta.
    change (is_blank " ") with true. cbn iota beta. cbn [emit]. rewrite Hbash. reflexivity.
Qed.

Lemma read_pipe_id (room : nat) (s : string) : occurs NUL s = false -> read_pipe room false s = s.
Proof.
  revert room; induction s as [|c s IH]; intros room Hs; [done|].
  cbn [occurs] in Hs. apply orb_false_iff in Hs as [Hc Hs]. cbn [read_pipe].
  rewrite Ascii.eqb_sym, Hc. cbn [orb]. by destruct (Ascii.eqb c NL || Nat.eqb room 1); cbn; rewrite IH.
Qed.

(** A call sees no end of a process as the exit code 124. *)
Lemma status_not_124 (e : exit_status) : status_ok e -> wait_status e <> 124.
Proof. destruct e as [c|n [|]]; cbn; lia. Qed.

Definition report (written : string) (e : exit_status) : string :=
  (if str_empty written then "(no output)" else written)
  +:+ nl +:+ "Exit code: " +:+ to_string (wait_status e).

Lemma pipe_result_report (t : Z) (written : string) (e : exit_status) :
  status_ok e -> occurs NUL written = false -> pipe_result t written e = TruncateOutput (report written e).
Proof.
  intros He Hw. unfold pipe_result. rewrite read_pipe_id by done.
  destruct (Z.eqb_spec (wait_status e) 124) as [E|]; [by destruct (status_not_124 e) | done].
Qed.

Lemma exec_timeout_range (input : string) : 1 <= exec_timeout input <= 600.
Proof.
  unfold exec_timeout.
  destruct (Z.ltb_spec 600 (ParseIntField input "timeout" 60)) as [H|H];
    [|destruct (Z.ltb_spec (ParseIntField input "timeout" 60) 1)]; cbn; lia.
Qed.

(** What a call of the shell tool does.  A command in which a pattern of the guard
    matches starts no process.  Any other command, whatever quotes, blanks or operators
    it and the working directory hold, reaches the shell as the words of [plan]: [timeout]
    with 1 to 600 seconds and one argument of [bash -c], and with a working directory
    [timeout] over [cd] alone with the command after it; when the process ends, the
    answer is its output and 256 times its exit code, never the message of the timeout. *)
Theorem exec_runs_plan {X : Type} `{Shell X} (input : string) (x : X) :
  let command := ParseStringField input "command" in
  let dir := ParseStringField input "working_dir" in
  occurs NUL input = false -> command <> "" ->
  (denied command -> Invoke input x = (x, guard_message)) /\
  (~ denied command -> exists line t, 1 <= t <= 600 /\ sh_line line = Some (plan command dir t) /\
     match popen line x with
     | (x1, None) => Invoke input x = (x1, "Error: Failed to execute command")
     | (x1, Some (written, e)) =>
         status_ok e -> occurs NUL written = false ->
         Invoke input x = (x1, TruncateOutput (report written e))
     end).
Proof.
  intros command dir Hin Hne. destruct (GuardCommand_spec command) as [Hd Hn].
  unfold Invoke. fold command. fold dir. apply str_empty_false in Hne as ->. split.
  - intros Hden. by rewrite (Hd Hden).
  - intros Hden. rewrite (Hn Hden). cbn [str_empty negb].
    exists (full_command command dir (exec_timeout input)), (exec_timeout input).
    split; [apply exec_timeout_range|]. split; [apply full_command_line|].
    unfold ExecutePosix. rewrite c_str_id by (apply full_command_no_nul; by apply occurs_field).
    destruct (popen _ x) as [x1 [[written e]|]]; [|done].
    intros He Hw. by rewrite pipe_result_report.
Qed.

(** An output of the process that fits in an [int] is cut to at most 10,045
    characters: it comes back whole up to 10,000, and otherwise its first and its last
    5,000 characters do, around the count of what is missing. *)
Theorem truncate_bounds (output : string) :
  Z.of_nat (String.length output) < 2 ^ 31 ->
  Z.of_nat (String.length (TruncateOutput output)) <= 10045 /\
  (if decide (Z.of_nat (String.length output) <= kMaxOutput) then TruncateOutput output = output
   else exists front middle back missing,
     output = front +:+ middle +:+ back /\ String.length front = 5000%nat /\ String.length back = 5000%nat /\
     TruncateOutput output = front +:+ missing +:+ back /\
     has_sub (to_string (Z.of_nat (String.length middle))) missing = true).
Proof.
  intros Hl. unfold TruncateOutput. rewrite int_cast_id by lia.
  destruct (Z.leb_spec (Z.of_nat (String.length output)) kMaxOutput) as [Hle|Hgt]; unfold kMaxOutput in *.
  { rewrite decide_True by done. split; [lia | done]. }
  rewrite decide_False by lia. change (Z.to_nat (10000 / 2)) with 5000%nat.
  set (n := String.length output) in *.
  assert (String.length (str_take 5000 output) = 5000%nat) as Hf by (rewrite str_length_take; lia).
  assert (String.length (str_drop (n - 5000) output) = 5000%nat) as Hb by (rewrite str_length_drop; lia).
  assert (String.length (to_string (Z.of_nat n - 10000)) <= 10)%nat as Hd.
  { change 10%nat with (Nat.max 1 10). apply to_string_length. change (10 ^ Z.of_nat 10) with 10000000000. lia. }
  split.
  - rewrite !str_length_app, Hf, Hb. change (String.length nl) with 1%nat.
    change (String.length "... (") with 5%nat. change (String.length " chars truncated) ...") with 21%nat. lia.
  - exists (str_take 5000 output), (str_take (n - 5000 - 5000) (str_drop 5000 output)), (str_drop (n - 5000) output).
    eexists (nl +:+ nl +:+ "... (" +:+ to_string (Z.of_nat n - 10000) +:+ " chars truncated) ..." +:+ nl +:+ nl).
    split_and!; [|done|done|by rewrite !str_app_assoc|].
    + rewrite <- (str_take_drop 5000 output) at 1. f_equal.
      rewrite <- (str_take_drop (n - 5000 - 5000) (str_drop 5000 output)) at 1. f_equal.
      rewrite str_drop_drop. f_equal. lia.
    + rewrite str_length_take, str_length_drop. fold n.
      replace (Z.of_nat (Nat.min (n - 5000 - 5000) (n - 5000))) with (Z.of_nat n - 10000) by lia.
      apply has_sub_spec. by exists (nl +:+ nl +:+ "... ("), (" chars truncated) ..." +:+ nl +:+ nl).
Qed.

(** ** Examples *)

(** A shell that writes what it was asked to run, and takes as long as it wants. *)
#[local] Instance echo_shell : Shell nat := fun line n => (S n, Some (line, exited 124)).

Definition exec_input (command : string) : string :=
  "{" +:+ dq +:+ "command" +:+ dq +:+ ":" +:+ dq +:+ command +:+ dq +:+ "}".

(** A command that was killed by [timeout] is reported with code 31744. *)
Lemma exec_runs_plan_witness :
  Invoke (exec_input "rm -rf /") 0%nat = (0%nat, guard_message) /\
  exists line, sh_line line = Some (plan "echo 'a'; b" "" 60) /\
    Invoke (exec_input "echo 'a'; b") 0%nat = (1%nat, line +:+ nl +:+ "Exit code: 31744").
Proof.
  split.
  - refine (proj1 (exec_runs_plan (exec_input "rm -rf /") 0%nat eq_refl _) _); [done|].
    exists (nth 0 denyPatterns Eps), 0%nat, 6%nat. split; [by left|]. split; [vm_compute; lia|].
    apply ends_spec. vm_compute. auto.
  - destruct (proj2 (exec_runs_plan (exec_input "echo 'a'; b") 0%nat eq_refl ltac:(done))) as (line & t & Ht & Hl & Hr).
    + intros Hd. apply GuardCommand_spec in Hd. revert Hd. vm_compute. done.
    + exists (full_command "echo 'a'; b" "" 60). split; [vm_compute; reflexivity|]. vm_compute. reflexivity.
Defined.

Lemma truncate_bounds_witness :
  TruncateOutput "ok" = "ok".
Proof. exact (proj2 (truncate_bounds "ok" eq_refl)). Defined.
