(* ===== verification/SearchTools.v ===== *)
(** * Directory and search tools (src/tools/builtin_tools/)

    list_dir_tool.cpp, glob_tool.cpp and grep_tool.cpp.  The three walk a tree and only
    read it.  A recursive walk is the class [Walk]; [std::regex] over an expression the
    caller gives is the class [StdRegex].  The number of entries of a directory and of
    matches is taken to fit in an [int]. *)
From Stdlib Require Import ZArith Lia String Ascii List.
From stdpp Require Import base decidable list strings gmap sorting.
From S2P Require Import Prelude Numbers ToolBase Files FileTools ExecTool.
Open Scope Z_scope.

(** ** Walks and expressions *)

(** An entry of a walk: its names below the root, and its type, which may throw. *)
Record Entry := mkEntry { e_names : list string; e_type : outcome file_type }.

Class Walk (X : Type) := {
  (** [recursive_directory_iterator]: the entries, and the exception the walk ends with. *)
  walk : string -> X -> list Entry * option string;
  (** [relative(path, root).generic_string()]. *)
  fs_relative : string -> string -> X -> outcome string;
  (** The modification time as a double, which is an integer multiple of [2 ^ -1074];
      [None] when it throws. *)
  write_time : string -> X -> option Z
}.

(** [std::regex] with the ECMAScript grammar: an expression or the message of the
    [regex_error]; a search or a match may throw. *)
Class StdRegex (R : Type) := {
  regex_new : bool -> string -> string + R;
  regex_find : R -> string -> outcome bool;
  regex_match : R -> string -> outcome bool
}.

(** The names a path goes through; the root directory is not one. *)
Fixpoint path_names_aux (cur s : string) : list string :=
  match s with
  | EmptyString => if str_empty cur then [] else [cur]
  | String c s' =>
      if Ascii.eqb c "/" then (if str_empty cur then path_names_aux "" s' else cur :: path_names_aux "" s')
      else path_names_aux (cur +:+ String c "") s'
  end.
Definition path_names (s : string) : list string := path_names_aux "" s.

(** [root / n1 / n2]. *)
Definition slash (a b : string) : string := if back_is "/" a || str_empty a then a +:+ b else a +:+ "/" +:+ b.
Definition entry_path (root : string) (e : Entry) : string := fold_left slash (e_names e) root.
Definition entry_name (e : Entry) : string := List.last (e_names e) "".
Definition is_type (t : file_type) (e : Entry) : outcome bool := u <-- e_type e ;; Ok (bool_decide (u = t)).

Definition kIgnoreSearch : list string :=
  [".git"; "node_modules"; "__pycache__"; ".venv"; "venv"; "dist"; "build"; ".tox"; ".mypy_cache"; ".pytest_cache"].
Definition kIgnoreList : list string := kIgnoreSearch ++ [".ruff_cache"; ".coverage"; "htmlcov"].

(** The loop over [entry.path()]: every part counts, those of the root too. *)
Definition skipped (ignore : list string) (root : string) (e : Entry) : bool :=
  existsb (fun p => list_has p ignore) (path_names root ++ e_names e).

(** [operator<=] on strings. *)
Definition str_le (a b : string) : Prop := String.compare a b <> Gt.
#[export] Instance str_le_dec : RelDecision str_le.
Proof. intros a b. unfold str_le. apply _. Defined.

(** ** list_dir *)

Section ListDir.
Context {X : Type} `{FileSystem X, Walk X}.

(** The rest of the entries: what is shown, and the number of those not ignored. *)
Fixpoint list_walk (root : string) (maxEntries : Z) (x : X) (es : list Entry) (thrown : option string)
    (items : list string) (total : Z) : outcome (list string * Z) :=
  match es with
  | [] => match thrown with Some e => Throw e | None => Ok (items, total) end
  | e :: es =>
      if skipped kIgnoreList root e then list_walk root maxEntries x es thrown items total
      else if Z.of_nat (length items) <? maxEntries then
        rel <-- fs_relative (entry_path root e) root x ;;
        dir <-- is_type directory e ;;
        list_walk root maxEntries x es thrown (items ++ [rel +:+ if dir : bool then "/" else ""]) (total + 1)
      else list_walk root maxEntries x es thrown items (total + 1)
  end.

Fixpoint list_flat (maxEntries : Z) (es : list (string * file_type)) (items : list string) (total : Z)
    : list string * Z :=
  match es with
  | [] => (items, total)
  | (name, t) :: es =>
      if list_has name kIgnoreList then list_flat maxEntries es items total
      else
        let items' :=
          if Z.of_nat (length items) <? maxEntries
          then items ++ [(if bool_decide (t = directory) then "[DIR]  " else "[FILE] ") +:+ name] else items in
        list_flat maxEntries es items' (total + 1)
  end.

Definition list_text (dirPath : string) (maxEntries : Z) (r : list string * Z) : string :=
  let '(items, total) := r in
  if bool_decide (items = []) && (total =? 0) then "Directory " +:+ dirPath +:+ " is empty"
  else
    join nl (merge_sort str_le items)
    +:+ (if maxEntries <? total
         then nl +:+ nl +:+ "(truncated, showing first " +:+ to_string maxEntries +:+ " of "
              +:+ to_string total +:+ " entries)" else "").

Definition ListDir (input : string) (x : X) : res string :=
  let dirPath := ParseStringField input "path" in
  if str_empty dirPath then Val "Error: 'path' parameter is required"
  else
    let recursive := ParseBoolField input "recursive" false in
    let maxEntries := ParseIntField input "max_entries" 200 in
    match fs_exists dirPath x with
    | Throw e => Exc e
    | Ok false => Val ("Error: Directory not found: " +:+ dirPath)
    | Ok true =>
        match fs_is_directory dirPath x with
        | Throw e => Exc e
        | Ok false => Val ("Error: Not a directory: " +:+ dirPath)
        | Ok true =>
            let listed :=
              if recursive : bool
              then let '(es, thrown) := walk dirPath x in list_walk dirPath maxEntries x es thrown [] 0
              else es <-- fs_entries dirPath x ;; Ok (list_flat maxEntries es [] 0) in
            match listed with Throw e => Exc e | Ok r => Val (list_text dirPath maxEntries r) end
        end
    end.
End ListDir.

(** ** glob *)

(** The expression of a pattern; brackets and every other character stay as they are. *)
Definition glob_char (c : ascii) : string :=
  if Ascii.eqb c "*" then ".*" else if Ascii.eqb c "?" then "."
  else if Ascii.eqb c "." then String BSLASH "." else String c "".
Fixpoint glob_body (pattern : string) : string :=
  match pattern with EmptyString => "" | String c p => glob_char c +:+ glob_body p end.
Definition glob_regex (pattern : string) : string := "^" +:+ glob_body pattern +:+ "$".

Definition over_path (pattern : string) : bool :=
  occurs "/" pattern || has_sub "**" pattern.

Section Glob.
Context {X R : Type} `{FileSystem X, Walk X, StdRegex R}.

Definition GlobMatch (relPath fileName pattern : string) : bool :=
  match regex_new true (glob_regex pattern) with
  | inl _ => false
  | inr re =>
      match regex_match re (if over_path pattern then relPath else fileName) with
      | Ok b => b
      | Throw _ => false
      end
  end.

(** Newest first, then by name. *)
Definition newer (a b : string * Z) : Prop :=
  b.2 < a.2 \/ (b.2 = a.2 /\ str_le a.1 b.1).
#[export] Instance newer_dec : RelDecision newer.
Proof. intros a b. unfold newer. apply _. Defined.

(** What an entry adds to the matches. *)
Definition glob_entry (root pattern : string) (includeFiles includeDirs : bool) (x : X) (e : Entry)
    : outcome (list (string * Z)) :=
  if skipped kIgnoreSearch root e then Ok []
  else
    file <-- (if includeFiles then is_type regular e else Ok false) ;;
    dir <-- (if includeDirs then is_type directory e else Ok false) ;;
    if negb (file || dir) then Ok []
    else
      relPath <-- fs_relative (entry_path root e) root x ;;
      if GlobMatch relPath (entry_name e) pattern then
        isDir <-- is_type directory e ;;
        Ok [(relPath +:+ (if isDir : bool then "/" else ""), default 0 (write_time (entry_path root e) x))]
      else Ok [].

Fixpoint glob_walk (root pattern : string) (includeFiles includeDirs : bool) (x : X) (es : list Entry)
    (thrown : option string) : outcome (list (string * Z)) :=
  match es with
  | [] => match thrown with Some e => Throw e | None => Ok [] end
  | e :: es =>
      here <-- glob_entry root pattern includeFiles includeDirs x e ;;
      rest <-- glob_walk root pattern includeFiles includeDirs x es thrown ;;
      Ok (here ++ rest)
  end.

Definition glob_text (headLimit : Z) (matches : list (string * Z)) : string :=
  join nl (take (Z.to_nat headLimit) (map fst (merge_sort newer matches)))
  +:+ (if headLimit <? int_cast (Z.of_nat (length matches))
       then nl +:+ nl +:+ "(pagination: limit=" +:+ to_string headLimit +:+ ", offset=0)" else "").

Definition Glob (input : string) (x : X) : res string :=
  let pattern := ParseStringField input "pattern" in
  if str_empty pattern then Val "Error: 'pattern' parameter is required"
  else
    let searchPath := let p := ParseStringField input "path" in if str_empty p then "." else p in
    let headLimit := let h := ParseIntField input "head_limit" 250 in if h <=? 0 then 250 else h in
    let entryType := let t := ParseStringField input "entry_type" in if str_empty t then "files" else t in
    match fs_exists searchPath x with
    | Throw e => Exc e
    | Ok false => Val ("Error: Path not found: " +:+ searchPath)
    | Ok true =>
        match fs_is_directory searchPath x with
        | Throw e => Exc e
        | Ok false => Val ("Error: Not a directory: " +:+ searchPath)
        | Ok true =>
            let includeFiles := String.eqb entryType "files" || String.eqb entryType "both" in
            let includeDirs := String.eqb entryType "dirs" || String.eqb entryType "both" in
            let '(es, thrown) := walk searchPath x in
            match glob_walk searchPath pattern includeFiles includeDirs x es thrown with
            | Throw e => Val ("Error finding files: " +:+ e)
            | Ok [] => Val ("No paths matched pattern '" +:+ pattern +:+ "' in " +:+ searchPath)
            | Ok matches => Val (glob_text headLimit matches)
            end
        end
    end.
End Glob.

(** ** grep *)

Definition kMaxResultChars : Z := 128000.
Definition kMaxFileBytes : Z := 2000000.

(** The quoted words [true] and [false] only. *)
Definition GrepBoolField (json key : string) (defaultVal : bool) : bool :=
  let val := ParseStringField json key in
  if String.eqb val "true" then true else if String.eqb val "false" then false else defaultVal.

Definition non_text (c : ascii) : bool :=
  let b := byte_of c in ((b <? 9) || ((13 <? b) && (b <? 32)))%N && negb (b =? 27)%N.

(** More than a fifth of the sample; the double division is exact enough for the
    comparison, since the quotient of two numbers up to 4096 is [0.2] or differs from it
    by more than [10 ^ -5]. *)
Definition IsBinary (content : string) : bool :=
  let sample := str_take 4096 content in
  if str_empty sample then false
  else
    occurs NUL sample
    || (Z.of_nat (String.length sample) <? 5 * Z.of_nat (String.length (str_filter non_text sample))).

Definition GlobFilter (fileName pattern : string) : bool :=
  match pattern with
  | String "*" (String "." e) =>
      let ext := String "." e in
      Nat.leb (String.length ext) (String.length fileName)
      && String.eqb (str_drop (String.length fileName - String.length ext) fileName) ext
  | _ => true
  end.

(** What the calls of [ProcessFile] share ([fileMtimes] is written and never read). *)
Record GrepState := mkGrep {
  matchingFiles : list string;
  blocks : list string;
  counts : gmap string Z;
  resultChars : Z;
  truncated : bool;
  skippedBinary : Z;
  skippedLarge : Z
}.
Definition grep_start : GrepState := mkGrep [] [] ∅ 0 false 0 0.

Definition add_match (f : string) (g : GrepState) : GrepState :=
  if list_has f (matchingFiles g) then g
  else mkGrep (matchingFiles g ++ [f]) (blocks g) (counts g) (resultChars g) (truncated g)
         (skippedBinary g) (skippedLarge g).
Definition add_count (f : string) (g : GrepState) : GrepState :=
  mkGrep (matchingFiles g) (blocks g) (<[f := default 0 (counts g !! f) + 1]> (counts g)) (resultChars g)
    (truncated g) (skippedBinary g) (skippedLarge g).
Definition cut_output (g : GrepState) : GrepState :=
  mkGrep (matchingFiles g) (blocks g) (counts g) (resultChars g) true (skippedBinary g) (skippedLarge g).
Definition add_block (b : string) (sum : Z) (g : GrepState) : GrepState :=
  mkGrep (matchingFiles g) (blocks g ++ [b]) (counts g) sum (truncated g) (skippedBinary g) (skippedLarge g).
Definition skip_binary (g : GrepState) : GrepState :=
  mkGrep (matchingFiles g) (blocks g) (counts g) (resultChars g) (truncated g) (skippedBinary g + 1) (skippedLarge g).
Definition skip_large (g : GrepState) : GrepState :=
  mkGrep (matchingFiles g) (blocks g) (counts g) (resultChars g) (truncated g) (skippedBinary g) (skippedLarge g + 1).

(** The lines from [startLine] to before [endLine] around line [idx]. *)
Definition block_line (lines : list string) (idx l : Z) : string :=
  nl +:+ (if l =? idx then "> " else "  ") +:+ to_string (l + 1) +:+ "| " +:+ nth (Z.to_nat l) lines "".
Definition grep_block (displayPath : string) (lines : list string) (idx startLine endLine : Z) : string :=
  displayPath +:+ ":" +:+ to_string (idx + 1)
  +:+ string_concat (map (fun k => block_line lines idx (startLine + Z.of_nat k))
                       (seq 0 (Z.to_nat (endLine - startLine)))).

(** The window around a line; [None] when [idx - contextBefore] overflows. *)
Definition grep_window (contextBefore contextAfter idx count : Z) : option (Z * Z) :=
  before ← int_result (int_cast idx - contextBefore);
  Some (Z.max before 0, int_cast (Z.min ((idx + contextAfter + 1) mod 2 ^ 64) count)).

Section Grep.
Context {X R : Type} `{FileSystem X, Walk X, StdRegex R}.

Section File.
Variables (re : R) (outputMode : string) (headLimit contextBefore contextAfter : Z).
Variables (displayPath : string) (lines : list string).

(** The rest of the lines; the flag is [fileHadMatch]. *)
Fixpoint grep_lines (ls : list string) (idx : Z) (had : bool) (g : GrepState) : res (bool * GrepState) :=
  match ls with
  | [] => Val (had, g)
  | l :: ls =>
      match regex_find re l with
      | Throw e => Exc e
      | Ok false => grep_lines ls (idx + 1) had g
      | Ok true =>
          if String.eqb outputMode "count" then grep_lines ls (idx + 1) true (add_count displayPath g)
          else if String.eqb outputMode "files_with_matches" then Val (true, add_match displayPath g)
          else if headLimit <=? int_cast (Z.of_nat (length (blocks g))) then Val (true, cut_output g)
          else
            match grep_window contextBefore contextAfter idx (Z.of_nat (length lines)) with
            | None => Undefined
            | Some (startLine, endLine) =>
                let b := grep_block displayPath lines idx startLine endLine in
                match int_result (resultChars g + int_cast (Z.of_nat (String.length b))) with
                | None => Undefined
                | Some sum =>
                    if kMaxResultChars <? sum then Val (true, cut_output g)
                    else grep_lines ls (idx + 1) true (add_block b sum g)
                end
            end
      end
  end.
End File.

Definition ProcessFile (re : R) (outputMode : string) (headLimit contextBefore contextAfter : Z)
    (filePath root : string) (x : X) (g : GrepState) : res GrepState :=
  match fs_file_size filePath x with
  | Throw e => Exc e
  | Ok fsize =>
      if kMaxFileBytes <? fsize then Val (skip_large g)
      else
        match fs_read filePath x with
        | None => Val (skip_binary g)
        | Some content =>
            if IsBinary content then Val (skip_binary g)
            else if str_empty content then Val g
            else
              match fs_relative filePath root x with
              | Throw e => Exc e
              | Ok displayPath =>
                  let lines := getlines content in
                  match grep_lines re outputMode headLimit contextBefore contextAfter displayPath lines lines 0 false g with
                  | Exc e => Exc e
                  | Undefined => Undefined
                  | Val (had, g1) =>
                      if (String.eqb outputMode "count" || String.eqb outputMode "files_with_matches") && had
                      then Val (add_match displayPath g1) else Val g1
                  end
              end
        end
  end.

(** What is asked for. *)
Record GrepQuery := mkGrepQuery {
  q_pattern : string; q_path : string; q_mode : string; q_glob : string; q_icase : bool;
  q_head : Z; q_before : Z; q_after : Z
}.

Definition grep_query (input : string) : GrepQuery :=
  let path := ParseStringField input "path" in
  let mode := ParseStringField input "output_mode" in
  let head := ParseIntField input "head_limit" 250 in
  mkGrepQuery (ParseStringField input "pattern") (if str_empty path then "." else path)
    (if str_empty mode then "files_with_matches" else mode) (ParseStringField input "glob")
    (GrepBoolField input "case_insensitive" false) (if head <=? 0 then 250 else head)
    (ParseIntField input "context_before" 0) (ParseIntField input "context_after" 0).

Section Tree.
Variables (re : R) (q : GrepQuery).
Let process := ProcessFile re (q_mode q) (q_head q) (q_before q) (q_after q).

Fixpoint grep_walk (root : string) (x : X) (es : list Entry) (thrown : option string) (g : GrepState)
    : res GrepState :=
  match es with
  | [] => match thrown with Some e => Exc e | None => Val g end
  | e :: es =>
      if skipped kIgnoreSearch root e then grep_walk root x es thrown g
      else
        match is_type regular e with
        | Throw e => Exc e
        | Ok false => grep_walk root x es thrown g
        | Ok true =>
            if negb (GlobFilter (entry_name e) (q_glob q)) then grep_walk root x es thrown g
            else
              match process (entry_path root e) root x g with
              | Val g1 => if truncated g1 then Val g1 else grep_walk root x es thrown g1
              | r => r
              end
        end
  end.

Definition grep_target (x : X) : res GrepState :=
  let target := q_path q in
  match fs_is_regular_file target x with
  | Throw e => Exc e
  | Ok true =>
      if str_empty (q_glob q) || GlobFilter (filename target) (q_glob q)
      then process target (parent_path target) x grep_start else Val grep_start
  | Ok false =>
      match fs_is_directory target x with
      | Throw e => Exc e
      | Ok true => let '(es, thrown) := walk target x in grep_walk target x es thrown grep_start
      | Ok false => Val grep_start
      end
  end.
End Tree.

(** The keys of a [map] come in their order. *)
Definition sorted_counts (c : gmap string Z) : list (string * Z) :=
  merge_sort (fun a b : string * Z => str_le a.1 b.1) (map_to_list c).

Definition grep_notes (g : GrepState) : string :=
  let notes := (if truncated g then ["(output truncated)"] else [])
    ++ (if 0 <? skippedBinary g then ["(skipped " +:+ to_string (skippedBinary g) +:+ " binary files)"] else [])
    ++ (if 0 <? skippedLarge g then ["(skipped " +:+ to_string (skippedLarge g) +:+ " large files)"] else []) in
  if bool_decide (notes = []) then "" else nl +:+ nl +:+ join ", " notes.

Definition grep_text (q : GrepQuery) (g : GrepState) : string :=
  let none := "No matches found for pattern '" +:+ q_pattern q +:+ "' in " +:+ q_path q in
  let head := Z.to_nat (q_head q) in
  if String.eqb (q_mode q) "files_with_matches" then
    if bool_decide (matchingFiles g = []) then none
    else join nl (take head (matchingFiles g)) +:+ grep_notes g
  else if String.eqb (q_mode q) "count" then
    if bool_decide (counts g = ∅) then none
    else join nl (map (fun kv => kv.1 +:+ ": " +:+ to_string kv.2) (take head (sorted_counts (counts g))))
         +:+ grep_notes g
  else
    if bool_decide (blocks g = []) then none
    else join (nl +:+ nl) (blocks g) +:+ grep_notes g.

Definition Grep (input : string) (x : X) : res string :=
  let q := grep_query input in
  if str_empty (q_pattern q) then Val "Error: 'pattern' parameter is required"
  else
    match fs_exists (q_path q) x with
    | Throw e => Exc e
    | Ok false => Val ("Error: Path not found: " +:+ q_path q)
    | Ok true =>
        match regex_new (q_icase q) (q_pattern q) with
        | inl e => Val ("Error: invalid regex pattern: " +:+ e)
        | inr re =>
            match grep_target re q x with
            | Exc e => Val ("Error searching files: " +:+ e)
            | Undefined => Undefined
            | Val g => Val (grep_text q g)
            end
        end
    end.
End Grep.

(** ** Patterns *)

(** What the documentation of [std::regex] says of expressions made of characters that
    have no meaning in the grammar, of [\.], of [.] and of [.*]. *)
Inductive piece := PChar (c : ascii) | POne | PMany.
Definition piece_text (p : piece) : string :=
  match p with
  | PChar c => if Ascii.eqb c "." then String BSLASH "." else String c ""
  | POne => "."
  | PMany => ".*"
  end.
(** [.] matches no line terminator. *)
Definition dot (c : ascii) : bool := negb (Ascii.eqb c NL) && negb (Ascii.eqb c CR).
Definition piece_regex (p : piece) : regex :=
  match p with PChar c => One (icase c) | POne => One dot | PMany => Many dot end.
Definition pieces_text (ps : list piece) : string := string_concat (map piece_text ps).
Definition pieces_regex (ps : list piece) : regex := fold_right (fun p r => Cat (piece_regex p) r) Eps ps.
Definition no_syntax (c : ascii) : bool :=
  negb (occurs c "^$\+*?()[]{}|" || Ascii.eqb c NUL).
Definition piece_ok (p : piece) : Prop := match p with PChar c => no_syntax c = true | _ => True end.

Class StdRegexLaws (R : Type) `{StdRegex R} := {
  regex_pieces (ps : list piece) :
    Forall piece_ok ps ->
    exists re, regex_new true ("^" +:+ pieces_text ps +:+ "$") = inr re /\
      forall s b, regex_match re s = Ok b -> (b = true <-> rmatch s (pieces_regex ps) 0 (String.length s))
}.

(** Wildcards: [?] stands for a character and [*] for any text, on one line; letters match
    in either case. *)
Fixpoint wild (p : string) : string -> bool :=
  match p with
  | EmptyString => str_empty
  | String c p' =>
      if Ascii.eqb c "*" then
        fix star (s : string) : bool :=
          wild p' s || match s with String d s' => dot d && star s' | EmptyString => false end
      else fun s =>
        match s with
        | String d s' => (if Ascii.eqb c "?" then dot d else icase c d) && wild p' s'
        | EmptyString => false
        end
  end.

Example ex_wild :
  (wild "*.CPP" "main.cpp", wild "t?st_*" "test_", wild "*.py" "a.pyc", wild "a*b" ("a" +:+ nl +:+ "b"))
  = (true, true, false, false).
Proof. reflexivity. Qed.

Fixpoint glob_pieces (pattern : string) : list piece :=
  match pattern with
  | EmptyString => []
  | String c p => (if Ascii.eqb c "*" then PMany else if Ascii.eqb c "?" then POne else PChar c) :: glob_pieces p
  end.

(** A pattern of wildcards and characters that have no meaning in an expression. *)
Fixpoint wild_pattern (pattern : string) : bool :=
  match pattern with
  | EmptyString => true
  | String c p => (Ascii.eqb c "*" || Ascii.eqb c "?" || no_syntax c) && wild_pattern p
  end.

Lemma glob_body_pieces (pattern : string) : glob_body pattern = pieces_text (glob_pieces pattern).
Proof.
  induction pattern as [|c p IH]; [done|]. cbn [glob_body glob_pieces]. unfold pieces_text in *.
  cbn [map string_concat fold_right]. rewrite IH. f_equal. unfold glob_char.
  destruct (Ascii.eqb c "*"); [done|]. by destruct (Ascii.eqb c "?").
Qed.

Lemma glob_pieces_ok (pattern : string) : wild_pattern pattern = true -> Forall piece_ok (glob_pieces pattern).
Proof.
  induction pattern as [|c p IH]; cbn; [constructor|]. intros [Hc Hp]%andb_true_iff.
  constructor; [|by apply IH]. destruct (Ascii.eqb c "*"); [done|]. destruct (Ascii.eqb c "?"); [done|]. apply Hc.
Qed.

Lemma get_drop (s : string) (i j : nat) : String.get j (str_drop i s) = String.get (i + j) s.
Proof. revert s; induction i as [|i IH]; intros [|c s]; try done. cbn [str_drop Nat.add]. by rewrite IH. Qed.

Lemma drop_cons (s t : string) (i : nat) (c : ascii) :
  str_drop i s = String c t -> String.get i s = Some c /\ str_drop (S i) s = t.
Proof. intros E. rewrite drop_get in E. destruct (String.get i s); [|done]. by simplify_eq. Qed.

Lemma drop_length_cons (s : string) (i : nat) (c : ascii) :
  String.get i s = Some c -> str_drop i s = String c (str_drop (S i) s).
Proof. intros E. by rewrite drop_get, E. Qed.

(** Matching the rest of a text with the rest of a pattern. *)
Lemma wild_spec (p s : string) (i : nat) :
  (i <= String.length s)%nat ->
  wild p (str_drop i s) = true <-> rmatch s (pieces_regex (glob_pieces p)) i (String.length s).
Proof.
  revert i. induction p as [|c p IH]; intros i Hi.
  - cbn. split.
    + intros E. assert (i = String.length s) as ->; [|constructor].
      apply str_empty_spec, (f_equal String.length) in E. rewrite str_length_drop in E. cbn in E. lia.
    + inversion 1; simplify_eq. by rewrite str_drop_ge by lia.
  - cbn [glob_pieces pieces_regex fold_right]. cbn [wild].
    destruct (Ascii.eqb c "*") eqn:Estar; [|].
    + cbn [piece_regex]. split.
      * remember (str_drop i s) as t eqn:Et. revert i Hi Et. induction t as [|d t IHt]; intros i Hi Et Hw.
        -- cbn in Hw. rewrite orb_false_r, Et in Hw. apply IH in Hw; [|done].
           econstructor; [apply match_many_stop | exact Hw].
        -- apply orb_true_iff in Hw as [Hw|[Hd Hw]%andb_true_iff].
           { rewrite Et in Hw. apply IH in Hw; [|done]. econstructor; [apply match_many_stop | exact Hw]. }
           symmetry in Et. apply drop_cons in Et as [Hg Et].
           assert (S i <= String.length s)%nat as Hi' by (by eapply get_lt).
           specialize (IHt (S i) Hi' (eq_sym Et) Hw). inversion IHt; simplify_eq.
           econstructor; [eapply match_many_next; [exact Hg | exact Hd | eassumption] | eassumption].
      * inversion 1 as [| | | |r1 r2 i' k j' Hm Hr| | |]; simplify_eq.
        remember (Many dot) as r eqn:Er. clear H.
        induction Hm as [| |q i|q i k d Hg Hd Hm IHm| | | |]; simplify_eq.
        -- apply IH in Hr; [|done]. destruct (str_drop i s); cbn [orb] in *; by rewrite Hr.
        -- assert (S i <= String.length s)%nat as Hi' by (by eapply get_lt).
           specialize (IHm Hi' eq_refl Hr). rewrite (drop_length_cons s i d Hg).
           apply orb_true_iff. right. by rewrite Hd, IHm.
    + assert (piece_regex (if Ascii.eqb c "?" then POne else PChar c)
              = One (fun d => if Ascii.eqb c "?" then dot d else icase c d)) as Ep.
      { by destruct (Ascii.eqb c "?"). }
      rewrite Ep. split.
      * destruct (str_drop i s) as [|d t] eqn:Et; [done|]. apply drop_cons in Et as [Hg Et].
        intros [Hd Hw]%andb_true_iff.
        assert (S i <= String.length s)%nat as Hi' by (by eapply get_lt).
        rewrite <- Et in Hw. apply IH in Hw; [|done]. econstructor; [by econstructor | exact Hw].
      * inversion 1 as [| | | |r1 r2 i' k j' Hm Hr| | |]; simplify_eq.
        inversion Hm as [|q i' d Hg Hd| | | | | |]; simplify_eq.
        assert (S i <= String.length s)%nat as Hi' by (by eapply get_lt).
        apply IH in Hr; [|done]. rewrite (drop_length_cons s i d Hg). by rewrite Hd, Hr.
Qed.

Section GlobFacts.
Context {X R : Type} `{FileSystem X, Walk X, StdRegex R, !StdRegexLaws R}.

(** Unless the matcher throws, a pattern of wildcards matches the way a shell does, over
    the relative path when it has a slash or [**], and over the file name otherwise. *)
Lemma GlobMatch_wild (relPath fileName pattern : string) :
  wild_pattern pattern = true ->
  (forall (re : R) s e, regex_match re s <> Throw e) ->
  GlobMatch relPath fileName pattern = wild pattern (if over_path pattern then relPath else fileName).
Proof.
  intros Hp Hnt. unfold GlobMatch, glob_regex. rewrite glob_body_pieces.
  destruct (regex_pieces (glob_pieces pattern) (glob_pieces_ok pattern Hp)) as (re & -> & Hre).
  set (s := if over_path pattern then relPath else fileName).
  pose proof (wild_spec pattern s 0 ltac:(lia)) as Hw. cbn [str_drop] in Hw.
  destruct (regex_match re s) as [b|e] eqn:E; [|by destruct (Hnt re s e)].
  specialize (Hre s b E). destruct b, (wild pattern s); try done.
  - symmetry. by apply Hw, Hre.
  - by apply Hre, Hw.
Qed.

(** The entries a search is for, and what is shown of them. *)
Definition type_of (e : Entry) : file_type := match e_type e with Ok t => t | Throw _ => not_found end.
Definition rel_of (root : string) (x : X) (e : Entry) : string :=
  match fs_relative (entry_path root e) root x with Ok r => r | Throw _ => "" end.
Definition wanted (root pattern : string) (files dirs : bool) (x : X) (e : Entry) : bool :=
  negb (skipped kIgnoreSearch root e)
  && (files && bool_decide (type_of e = regular) || dirs && bool_decide (type_of e = directory))
  && wild pattern (if over_path pattern then rel_of root x e else entry_name e).
Definition shown (root : string) (x : X) (e : Entry) : string * Z :=
  (rel_of root x e +:+ (if bool_decide (type_of e = directory) then "/" else ""),
   default 0 (write_time (entry_path root e) x)).

(** A walk that meets no error. *)
Definition readable (root : string) (x : X) (es : list Entry) : Prop :=
  Forall (fun e => is_ok (e_type e) = true /\ is_ok (fs_relative (entry_path root e) root x) = true) es.

Lemma glob_walk_spec (root pattern : string) (files dirs : bool) (x : X) (es : list Entry) :
  wild_pattern pattern = true -> (forall (re : R) s e, regex_match re s <> Throw e) -> readable root x es ->
  glob_walk root pattern files dirs x es None
  = Ok (map (shown root x) (List.filter (wanted root pattern files dirs x) es)).
Proof.
  intros Hp Hnt. induction 1 as [|e es [Ht Hr] _ IH]; [done|].
  cbn [glob_walk List.filter].
  enough (glob_entry root pattern files dirs x e
          = Ok (if wanted root pattern files dirs x e then [shown root x e] else [])) as ->.
  { cbn [obind]. rewrite IH. cbn [obind]. by destruct (wanted root pattern files dirs x e). }
  unfold glob_entry, wanted, shown, is_type, type_of, rel_of.
  destruct (e_type e) as [t|]; [|done]. destruct (fs_relative _ root x) as [r|]; [|done]. cbn [obind].
  destruct (skipped _ root e); [done|].
  rewrite (GlobMatch_wild r (entry_name e) pattern) by done.
  destruct files, dirs; cbn [obind negb andb orb]; rewrite ?orb_false_r; try done;
    repeat case_bool_decide; cbn [obind negb andb orb]; simplify_eq; try done;
    by destruct (wild pattern _).
Qed.

Lemma str_le_total (a b : string) : str_le a b \/ str_le b a.
Proof.
  unfold str_le. destruct (String.compare a b) eqn:E; [by left..|]. right.
  apply str_compare_lt_gt in E. unfold str_lt in E. by rewrite E.
Qed.

#[export] Instance newer_total : Total newer.
Proof.
  intros [a x1] [b y]. unfold newer. cbn. destruct (Z.lt_trichotomy x1 y) as [?|[->|?]]; [by auto| |by auto].
  destruct (str_le_total a b); auto.
Qed.

(** A pattern of wildcards finds what it says.  Over a tree that can be read, the
    answer lists, newest first and names in order where the times agree, the entries of
    the wanted type, outside the ignored directories, whose path (with a slash or [**] in
    the pattern) or name matches; the first [head_limit] are shown, with a note when there
    are more. *)
Theorem glob_finds (input : string) (x : X) (es : list Entry) :
  let pattern := ParseStringField input "pattern" in
  let path := ParseStringField input "path" in
  let root := if str_empty path then "." else path in
  let kind := ParseStringField input "entry_type" in
  let head := let h := ParseIntField input "head_limit" 250 in if h <=? 0 then 250 else h in
  let files := String.eqb kind "" || String.eqb kind "files" || String.eqb kind "both" in
  let dirs := String.eqb kind "dirs" || String.eqb kind "both" in
  pattern <> "" -> wild_pattern pattern = true ->
  (forall (re : R) s e, regex_match re s <> Throw e) ->
  fs_status root x = Ok directory -> walk root x = (es, None) -> readable root x es ->
  exists matches,
    Permutation matches (map (shown root x) (List.filter (wanted root pattern files dirs x) es)) /\
    Sorted newer matches /\
    Glob input x = Val (if bool_decide (matches = []) then "No paths matched pattern '" +:+ pattern +:+ "' in " +:+ root
      else join nl (take (Z.to_nat head) (map fst matches))
           +:+ (if head <? int_cast (Z.of_nat (length matches))
                then nl +:+ nl +:+ "(pagination: limit=" +:+ to_string head +:+ ", offset=0)" else "")).
Proof.
  intros pattern path root kind head files dirs Hne Hp Hnt Hroot Hw Hr.
  set (found := map (shown root x) (List.filter (wanted root pattern files dirs x) es)).
  exists (merge_sort newer found).
  split; [apply merge_sort_Permutation|]. split; [apply Sorted_merge_sort, _|].
  unfold Glob. fold pattern. fold path. fold root. fold kind. apply str_empty_false in Hne as ->.
  unfold fs_exists, fs_is_directory. rewrite Hroot. cbn [obind]. rewrite bool_decide_false by done. cbn [negb].
  rewrite bool_decide_true by done. rewrite Hw.
  cbv zeta. rewrite glob_walk_spec by done.
  assert (((if str_empty kind then "files" else kind) =? "files")%string || ((if str_empty kind then "files" else kind) =? "both")%string = files) as ->.
  { subst files. by destruct kind as [|c k]. }
  assert (((if str_empty kind then "files" else kind) =? "dirs")%string || ((if str_empty kind then "files" else kind) =? "both")%string = dirs) as ->.
  { subst dirs. by destruct kind as [|c k]. }
  fold found. unfold glob_text.
  pose proof (merge_sort_Permutation newer found) as Hperm.
  destruct found as [|m ms] eqn:Ef; [done|]. rewrite <- Ef in *.
  rewrite bool_decide_false by (intros E0; rewrite E0 in Hperm; apply Permutation_nil in Hperm; congruence).
  fold head. by rewrite (Permutation_length Hperm).
Qed.
End GlobFacts.

(** ** What a search in content mode shows *)

Definition content_mode (mode : string) : bool :=
  negb (String.eqb mode "count") && negb (String.eqb mode "files_with_matches").

(** The blocks of the lines that match, from line [i] on. *)
Fixpoint file_blocks (m : string -> bool) (before after : Z) (displayPath : string) (lines ls : list string)
    (i : Z) : list string :=
  match ls with
  | [] => []
  | l :: ls =>
      (if m l then [grep_block displayPath lines i (Z.max (i - before) 0)
                      (Z.min (i + after + 1) (Z.of_nat (length lines)))] else [])
      ++ file_blocks m before after displayPath lines ls (i + 1)
  end.

(** Blocks are taken in order until one does not fit. *)
Fixpoint fill (head : Z) (bs : list string) (g : GrepState) : GrepState :=
  match bs with
  | [] => g
  | b :: bs =>
      if head <=? Z.of_nat (length (blocks g)) then cut_output g
      else if kMaxResultChars <? resultChars g + Z.of_nat (String.length b) then cut_output g
      else fill head bs (add_block b (resultChars g + Z.of_nat (String.length b)) g)
  end.

Definition sum_lengths (bs : list string) : Z :=
  fold_right (fun b n => Z.of_nat (String.length b) + n) 0 bs.

(** The limits hold, and the characters are counted. *)
Definition within (head : Z) (g : GrepState) : Prop :=
  Z.of_nat (length (blocks g)) <= head /\ resultChars g = sum_lengths (blocks g) /\ 0 <= resultChars g <= kMaxResultChars.

Lemma sum_lengths_app (a b : list string) : sum_lengths (a ++ b) = sum_lengths a + sum_lengths b.
Proof. induction a as [|s a IH]; [done|]. cbn. unfold sum_lengths in IH. rewrite IH. unfold sum_lengths. lia. Qed.

Lemma fill_app (head : Z) (bs cs : list string) (g : GrepState) :
  truncated g = false ->
  fill head (bs ++ cs) g = (let g1 := fill head bs g in if truncated g1 then g1 else fill head cs g1).
Proof.
  revert g; induction bs as [|b bs IH]; intros g Hg; cbn [app fill]; [by rewrite Hg|].
  destruct (head <=? _); [done|]. destruct (kMaxResultChars <? _); [done|]. by apply IH.
Qed.

Lemma fill_within (head : Z) (bs : list string) (g : GrepState) :
  within head g -> within head (fill head bs g).
Proof.
  revert g; induction bs as [|b bs IH]; intros g Hg; [done|]. cbn [fill].
  destruct (Z.leb_spec head (Z.of_nat (length (blocks g)))); [done|].
  destruct (Z.ltb_spec kMaxResultChars (resultChars g + Z.of_nat (String.length b))); [done|].
  apply IH. destruct Hg as (Hl & Hs & Hc). unfold within. cbn. rewrite length_app, sum_lengths_app. cbn.
  split_and!; lia.
Qed.

(** Either everything fits, or as many as fit are taken. *)
Lemma fill_spec (head : Z) (bs : list string) (g : GrepState) :
  truncated g = false -> Z.of_nat (length (blocks g)) <= head ->
  exists n, blocks (fill head bs g) = blocks g ++ take n bs /\
    (truncated (fill head bs g) = false /\ (length bs <= n)%nat \/
     truncated (fill head bs g) = true /\ exists b, bs !! n = Some b /\
       (Z.of_nat (length (blocks g) + n) = head \/
        kMaxResultChars < resultChars g + sum_lengths (take n bs) + Z.of_nat (String.length b))).
Proof.
  revert g; induction bs as [|b bs IH]; intros g Ht Hg; cbn [fill].
  { exists 0%nat. rewrite app_nil_r. split; [done|]. left. split; [done | cbn; lia]. }
  destruct (Z.leb_spec head (Z.of_nat (length (blocks g)))) as [Hh|Hh].
  { exists 0%nat. rewrite app_nil_r. split; [done|]. right. split; [done|]. exists b. split; [done | left; lia]. }
  destruct (Z.ltb_spec kMaxResultChars (resultChars g + Z.of_nat (String.length b))) as [Hm|Hm].
  { exists 0%nat. rewrite app_nil_r. split; [done|]. right. split; [done|]. exists b. split; [done | right; cbn; lia]. }
  destruct (IH (add_block b (resultChars g + Z.of_nat (String.length b)) g)) as (n & Hb & Hn); [done | cbn; rewrite length_app; cbn; lia|].
  exists (S n). split; [rewrite Hb; cbn; by rewrite <- app_assoc|]. destruct Hn as [[H1 H2]|(H1 & c & Hc & H2)].
  - left. split; [done | cbn; lia].
  - right. split; [done|]. exists c. split; [done|]. cbn in H2 |- *. rewrite length_app in H2. cbn in H2.
    unfold sum_lengths in *. destruct H2; [left | right]; lia.
Qed.

Section GrepFacts.
Context {X R : Type} `{FileSystem X, Walk X, StdRegex R}.
Variables (re : R) (m : string -> bool).
Hypothesis re_total : forall l, regex_find re l = Ok (m l).
Variables (mode : string) (head before after : Z).
Hypothesis mode_content : content_mode mode = true.
Hypothesis head_range : 0 < head < 2 ^ 31.
Hypothesis before_range : 0 <= before < 2 ^ 31.
Hypothesis after_range : 0 <= after < 2 ^ 31.

Lemma grep_window_fit (i n : Z) :
  0 <= i < n -> n < 2 ^ 31 ->
  grep_window before after i n = Some (Z.max (i - before) 0, Z.min (i + after + 1) n).
Proof using before_range after_range.
  clear mode_content. intros Hi Hn. unfold grep_window. rewrite (int_cast_id i) by lia. rewrite int_result_ok by lia.
  cbn. rewrite Z.mod_small by lia. by rewrite int_cast_id by lia.
Qed.

Lemma grep_lines_content (displayPath : string) (lines ls : list string) (i : Z) (had : bool) (g : GrepState) :
  0 <= i -> i + Z.of_nat (length ls) = Z.of_nat (length lines) -> Z.of_nat (length lines) < 2 ^ 31 ->
  Forall (fun b => Z.of_nat (String.length b) < 2 ^ 30) (file_blocks m before after displayPath lines ls i) ->
  within head g -> 
  exists had1, grep_lines re mode head before after displayPath lines ls i had g
    = Val (had1, fill head (file_blocks m before after displayPath lines ls i) g).
Proof.
  revert i had g; induction ls as [|l ls IH]; intros i had g Hi Hlen Hn Hb Hg; [by exists had|].
  pose proof mode_content as Hm. apply andb_true_iff in Hm as [Hm1%negb_true_iff Hm2%negb_true_iff].
  cbn [grep_lines file_blocks]. cbn [length file_blocks] in Hlen, Hb. rewrite re_total.
  destruct (m l).
  - apply Forall_app in Hb as [Hb1 Hb2]. rewrite Forall_singleton in Hb1. rewrite Hm1, Hm2.
    destruct Hg as (Hl & Hs & Hc). rewrite (int_cast_id (Z.of_nat (length (blocks g)))) by lia.
    cbn [app fill]. destruct (Z.leb_spec head (Z.of_nat (length (blocks g)))) as [|Hh]; [by eexists|].
    rewrite grep_window_fit by lia. set (b := grep_block _ _ _ _ _) in *.
    unfold kMaxResultChars in *. rewrite int_cast_id by lia. rewrite int_result_ok by lia.
    destruct (Z.ltb_spec 128000 (resultChars g + Z.of_nat (String.length b))) as [|Hfit]; [by eexists|].
    apply IH; [lia..|done|]. unfold within. cbn. rewrite length_app, sum_lengths_app. cbn.
    unfold kMaxResultChars. split_and!; lia.
  - apply IH; [lia..|done|done].
Qed.

(** The text of a file that is searched: not too large, not binary, not empty. *)
Definition text_of (path : string) (x : X) : option string :=
  match fs_file_size path x, fs_read path x with
  | Ok n, Some t => if (kMaxFileBytes <? n) || IsBinary t || str_empty t then None else Some t
  | _, _ => None
  end.
Definition entry_blocks (root : string) (x : X) (e : Entry) : list string :=
  match text_of (entry_path root e) x with
  | Some t => file_blocks m before after (rel_of root x e) (getlines t) (getlines t) 0
  | None => []
  end.
Definition searched (root glob : string) (e : Entry) : bool :=
  negb (skipped kIgnoreSearch root e) && bool_decide (type_of e = regular) && GlobFilter (entry_name e) glob.
Definition tree_blocks (root glob : string) (x : X) (es : list Entry) : list string :=
  flat_map (entry_blocks root x) (List.filter (searched root glob) es).

(** A tree whose files can be opened, with less than [2 ^ 31] lines each. *)
Definition grep_readable (root : string) (x : X) (e : Entry) : Prop :=
  is_ok (e_type e) = true /\ is_ok (fs_file_size (entry_path root e) x) = true /\
  is_ok (fs_relative (entry_path root e) root x) = true /\
  forall t, fs_read (entry_path root e) x = Some t -> Z.of_nat (length (getlines t)) < 2 ^ 31.

(** States that show the same. *)
Definition output (g : GrepState) : list string * Z * bool := (blocks g, resultChars g, truncated g).

Lemma fill_output (bs : list string) (g g' : GrepState) :
  output g = output g' -> output (fill head bs g) = output (fill head bs g').
Proof.
  revert g g'; induction bs as [|b bs IH]; intros g g' E; [done|]. unfold output in E. injection E as E1 E2 E3.
  cbn [fill]. rewrite E1, E2. destruct (head <=? _); [unfold output; cbn; by rewrite E1, E2|].
  destruct (kMaxResultChars <? _); [unfold output; cbn; by rewrite E1, E2|].
  apply IH. unfold output. cbn. by rewrite E1, E3.
Qed.

Lemma output_within (g g' : GrepState) : output g = output g' -> within head g -> within head g'.
Proof. unfold output, within. intros [= -> -> _]. done. Qed.

Lemma ProcessFile_content (root : string) (x : X) (e : Entry) (g : GrepState) :
  grep_readable root x e -> within head g ->
  Forall (fun b => Z.of_nat (String.length b) < 2 ^ 30) (entry_blocks root x e) ->
  exists g1, ProcessFile re mode head before after (entry_path root e) root x g = Val g1 /\
    output g1 = output (fill head (entry_blocks root x e) g).
Proof.
  intros (_ & Hs & Hr & Hl) Hg Hb. unfold ProcessFile, entry_blocks, text_of, rel_of in *.
  destruct (fs_file_size _ x) as [n|]; [|done]. destruct (fs_relative _ root x) as [rel|]; [|done].
  destruct (fs_read _ x) as [t|] eqn:Et; [|by destruct (kMaxFileBytes <? n); eexists].
  destruct (kMaxFileBytes <? n); [by eexists|]. cbn [orb] in *.
  destruct (IsBinary t); [by eexists|]. cbn [orb] in *. destruct (str_empty t); [by eexists|].
  destruct (grep_lines_content rel (getlines t) (getlines t) 0 false g) as (had & ->); try done.
  { by apply Hl. }
  pose proof mode_content as Hm. apply andb_true_iff in Hm as [->%negb_true_iff ->%negb_true_iff]. cbn [orb andb].
  by eexists.
Qed.

Lemma grep_walk_content (q : GrepQuery) (root : string) (x : X) (es : list Entry) (g : GrepState) :
  q_mode q = mode -> q_head q = head -> q_before q = before -> q_after q = after ->
  Forall (grep_readable root x) es -> within head g -> truncated g = false ->
  Forall (fun b => Z.of_nat (String.length b) < 2 ^ 30) (tree_blocks root (q_glob q) x es) ->
  exists g1, grep_walk re q root x es None g = Val g1 /\
    output g1 = output (fill head (tree_blocks root (q_glob q) x es) g).
Proof.
  intros E1 E2 E3 E4 Hes. revert g. induction Hes as [|e es He _ IH]; intros g Hg Ht Hb; [by exists g|].
  unfold tree_blocks in *. cbn [grep_walk List.filter flat_map] in *. unfold searched in Hb at 1 |- * at 1.
  pose proof He as (Hty & _). unfold is_type, type_of in *. destruct (e_type e) as [t|]; [|done]. cbn [obind].
  destruct (skipped kIgnoreSearch root e); cbn [negb andb] in *; [by apply IH|].
  destruct (bool_decide (t = regular)); cbn [andb] in *; [|by apply IH].
  destruct (GlobFilter (entry_name e) (q_glob q)); cbn [negb] in *; [|by apply IH].
  cbn [flat_map] in *. apply Forall_app in Hb as [Hb1 Hb2].
  rewrite E1, E2, E3, E4. destruct (ProcessFile_content root x e g He Hg Hb1) as (g1 & -> & Ho).
  rewrite fill_app by done. cbv zeta.
  assert (truncated g1 = truncated (fill head (entry_blocks root x e) g)) as Ett by (by injection Ho).
  rewrite <- Ett. destruct (truncated g1) eqn:Etr; [by exists g1|].
  destruct (IH g1) as (g2 & -> & Ho2); [|done|done|].
  { eapply output_within; [symmetry; exact Ho | by apply fill_within]. }
  exists g2. split; [done|]. rewrite Ho2. by apply fill_output.
Qed.
End GrepFacts.

Section GrepTheorem.
Context {X R : Type} `{FileSystem X, Walk X, StdRegex R}.

(** What a search of a directory shows in content mode.  With an expression that
    never throws, and a tree that can be read, the answer is the blocks of the matching
    lines, file after file, each line with its context: all of them, or as many as come
    before the [head_limit] or the limit of 128,000 characters stops the search, which is
    said.  The limits are never exceeded. *)
Theorem grep_shows_matches (input : string) (x : X) (es : list Entry) (re : R) (m : string -> bool) :
  let q := grep_query input in
  let root := q_path q in
  let all := tree_blocks m (q_before q) (q_after q) root (q_glob q) x es in
  q_pattern q <> "" -> content_mode (q_mode q) = true -> 0 <= q_before q -> 0 <= q_after q ->
  regex_new (q_icase q) (q_pattern q) = inr re -> (forall l, regex_find re l = Ok (m l)) ->
  fs_status root x = Ok directory -> walk root x = (es, None) -> Forall (grep_readable root x) es ->
  Forall (fun b => Z.of_nat (String.length b) < 2 ^ 30) all ->
  exists n g, let shown := take n all in
    Grep input x = Val (if bool_decide (shown = [])
                        then "No matches found for pattern '" +:+ q_pattern q +:+ "' in " +:+ root
                        else join (nl +:+ nl) shown +:+ grep_notes g) /\
    Z.of_nat (length shown) <= q_head q /\ sum_lengths shown <= kMaxResultChars /\
    (truncated g = false /\ shown = all \/
     truncated g = true /\ exists b, all !! n = Some b /\
       (Z.of_nat n = q_head q \/ kMaxResultChars < sum_lengths shown + Z.of_nat (String.length b))).
Proof.
  intros q root all Hne Hmode Hb Ha Hre Hm Hst Hw Hes Hall.
  assert (0 < q_head q < 2 ^ 31) as Hh.
  { unfold q, grep_query, q_head. pose proof (ParseIntField_range input "head_limit" 250 ltac:(lia)).
    destruct (Z.leb_spec (ParseIntField input "head_limit" 250) 0); lia. }
  assert (q_before q < 2 ^ 31 /\ q_after q < 2 ^ 31) as [Hb2 Ha2].
  { unfold q, grep_query, q_before, q_after. pose proof (ParseIntField_range input "context_before" 0 ltac:(lia)).
    pose proof (ParseIntField_range input "context_after" 0 ltac:(lia)). lia. }
  assert (within (q_head q) grep_start) as Hw0.
  { split; [change (0 <= q_head q); lia|]. split; [done|]. change (0 <= 0 <= 128000). lia. }
  destruct (grep_walk_content re m Hm (q_mode q) (q_head q) (q_before q) (q_after q) Hmode Hh
    (conj Hb Hb2) (conj Ha Ha2) q root x es grep_start) as (g & Hg & Ho); try done.
  fold all in Ho.
  destruct (fill_spec (q_head q) all grep_start eq_refl (proj1 Hw0)) as (n & Hblocks & Hn).
  pose proof (fill_within (q_head q) all grep_start Hw0) as (Hl & Hs & Hc).
  pose proof (f_equal (fun o => o.1.1) Ho) as Eb. pose proof (f_equal snd Ho) as Et.
  cbn [output fst snd] in Eb, Et. cbn [blocks grep_start app] in Hblocks.
  rewrite Hblocks in *. rewrite <- Et in Hn.
  exists n, g. cbv zeta. split.
  - unfold Grep. fold q. fold root. apply str_empty_false in Hne as ->. unfold fs_exists. rewrite Hst. cbn [obind].
    rewrite bool_decide_false by done. cbn [negb]. rewrite Hre. unfold grep_target. fold root.
    unfold fs_is_regular_file, fs_is_directory. rewrite Hst. cbn [obind].
    rewrite (bool_decide_false (directory = regular)), (bool_decide_true (directory = directory)) by done.
    rewrite Hw. fold root in Hg. rewrite Hg. f_equal. unfold grep_text.
    apply andb_true_iff in Hmode as [->%negb_true_iff ->%negb_true_iff]. rewrite Eb. by case_bool_decide.
  - split; [lia|]. split; [lia|]. destruct Hn as [[H3 H4]|(H3 & b & H4 & H5)].
    + left. split; [done|]. by apply take_ge.
    + right. split; [done|]. exists b. split; [done|]. cbn [blocks grep_start length resultChars Nat.add] in H5.
      destruct H5; [left | right]; lia.
Qed.
End GrepTheorem.

(** ** Examples *)

(** Expressions made of pieces, as an instance of the class. *)
Module Pieces.
Fixpoint parse (s : string) : option (list piece) :=
  match s with
  | EmptyString => None
  | String c s' =>
      if Ascii.eqb c "$" then (if str_empty s' then Some [] else None)
      else if Ascii.eqb c "." then
        match s' with String "*" s'' => cons PMany <$> parse s'' | _ => cons POne <$> parse s' end
      else if Ascii.eqb c BSLASH then
        match s' with String "." s'' => cons (PChar ".") <$> parse s'' | _ => None end
      else if no_syntax c then cons (PChar c) <$> parse s' else None
  end.

Lemma parse_one (t : string) : front_is "*" t = false -> parse (String "." t) = cons POne <$> parse t.
Proof. destruct t as [|c t]; [done|]. by destruct c as [[] [] [] [] [] [] [] []]. Qed.

Lemma parse_char (c : ascii) (t : string) :
  no_syntax c = true -> c <> "."%char -> parse (String c t) = cons (PChar c) <$> parse t.
Proof.
  intros Hc Hd. cbn [parse]. rewrite Hc, (eqb_false c ".") by done.
  assert (Ascii.eqb c "$" = false /\ Ascii.eqb c BSLASH = false) as [-> ->]; [|done].
  by destruct c as [[] [] [] [] [] [] [] []].
Qed.

Lemma pieces_front (ps : list piece) : Forall piece_ok ps -> front_is "*" (pieces_text ps +:+ "$") = false.
Proof.
  destruct 1 as [|[c| |] ps Hc _]; [done| |done|done]. unfold pieces_text. cbn [map string_concat fold_right piece_text].
  destruct (Ascii.eqb c "."); [done|]. by destruct c as [[] [] [] [] [] [] [] []].
Qed.

Lemma parse_pieces (ps : list piece) :
  Forall piece_ok ps -> parse (pieces_text ps +:+ "$") = Some ps.
Proof.
  induction 1 as [|p ps Hp Hps IH]; [done|].
  assert (pieces_text (p :: ps) +:+ "$" = piece_text p +:+ pieces_text ps +:+ "$") as ->.
  { unfold pieces_text. cbn [map string_concat fold_right]. by rewrite str_app_assoc. }
  pose proof (pieces_front ps Hps) as Hf. set (t := pieces_text ps +:+ "$") in *.
  destruct p as [c| |]; cbn [piece_text].
  - destruct (Ascii.eqb_spec c ".") as [->|Hc].
    + change (parse (String BSLASH "." +:+ t)) with (cons (PChar ".") <$> parse t). by rewrite IH.
    + change (String c "" +:+ t) with (String c t). by rewrite parse_char, IH.
  - change ("." +:+ t) with (String "." t). by rewrite parse_one, IH.
  - change (parse (".*" +:+ t)) with (cons PMany <$> parse t). by rewrite IH.
Qed.

Definition compile (ic : bool) (s : string) : string + list piece :=
  match s with
  | String "^" s' => match parse s' with Some ps => inr ps | None => inl "Unexpected character" end
  | _ => match parse (s +:+ "$") with Some ps => inr ps | None => inl "Unexpected character" end
  end.
Definition whole (ps : list piece) (s : string) : bool :=
  existsb (Nat.eqb (String.length s)) (ends s (pieces_regex ps) 0).

#[export] Instance instance : StdRegex (list piece) := {|
  regex_new := compile;
  regex_find := fun ps s => Ok (regex_search s (pieces_regex ps));
  regex_match := fun ps s => Ok (whole ps s)
|}.

#[export] Instance laws : StdRegexLaws (list piece).
Proof.
  split. intros ps Hps. exists ps. split.
  - cbn [regex_new instance]. change ("^" +:+ pieces_text ps +:+ "$") with (String "^" (pieces_text ps +:+ "$")).
    cbn [compile]. by rewrite parse_pieces.
  - intros s b [= <-]. unfold whole. rewrite existsb_exists. rewrite <- ends_spec. split.
    + intros (j & Hj & <-%Nat.eqb_eq). done.
    + intros Hj. exists (String.length s). by rewrite Nat.eqb_refl.
Qed.
End Pieces.
#[export] Existing Instances Pieces.instance Pieces.laws.

(** The files of a disk in memory below a root. *)
#[export] Instance disk_walk : Walk MemDisk.disk := {|
  walk := fun root d =>
    (map (fun f => mkEntry (path_names (str_drop (String.length root) f.1)) (Ok regular))
       (List.filter (fun f => starts_with (slash root "") f.1) (MemDisk.d_files d)), None);
  fs_relative := fun path root _ => Ok (str_drop (String.length (slash root "")) path);
  write_time := fun path d => snd <$> MemDisk.find path d
|}.

Definition ex_tree : MemDisk.disk :=
  MemDisk.mkDisk [("src/a.cpp", ("int i;" +:+ nl +:+ "x = 1;" +:+ nl, 10)); ("src/build/b.cpp", ("x", 11));
                  ("src/lib/c.CPP", ("y", 12)); ("src/d.py", ("x", 13))] 20.

Definition field (k v : string) : string := dq +:+ k +:+ dq +:+ ":" +:+ dq +:+ v +:+ dq.
Definition ex_glob : string := "{" +:+ field "pattern" "*.cpp" +:+ "," +:+ field "path" "src/" +:+ "}".
Definition ex_grep (extra : string) : string :=
  "{" +:+ field "pattern" "X" +:+ "," +:+ field "path" "src/" +:+ "," +:+ field "output_mode" "content" +:+ extra +:+ "}".

(** Newest first; [build] is ignored, and the case of the extension. *)
Lemma glob_finds_witness :
  Glob ex_glob ex_tree = Val ("lib/c.CPP" +:+ nl +:+ "a.cpp").
Proof.
  destruct (glob_finds ex_glob ex_tree (walk "src/" ex_tree).1 ltac:(done) eq_refl ltac:(done) eq_refl eq_refl
    ltac:(vm_compute; by repeat constructor)) as (ms & Hp & Hs & E).
  assert (Permutation ms [("lib/c.CPP", 12); ("a.cpp", 10)]) as Hp2.
  { etrans; [exact Hp|]. apply perm_swap. }
  assert (ms = [("lib/c.CPP", 12); ("a.cpp", 10)]) as ->.
  { apply Permutation_sym, Permutation_length_2_inv in Hp2 as [->| ->]; [done|]. exfalso.
    inversion_clear Hs as [|a l Hs1 Hh]. inversion_clear Hh as [|b k Hb].
    destruct Hb as [Hb|[Hb _]]; cbn in Hb; lia. }
  rewrite E. vm_compute. reflexivity.
Defined.

(** The boolean the schema asks for is not seen; the word in quotes is. *)
Example ex_boolean_ignored :
  (GrepBoolField ("{" +:+ dq +:+ "case_insensitive" +:+ dq +:+ ": true}") "case_insensitive" false,
   GrepBoolField ("{" +:+ field "case_insensitive" "true" +:+ "}") "case_insensitive" false) = (false, true).
Proof. vm_compute. reflexivity. Qed.

(** A root below a directory with an ignored name is empty to the tools. *)
Example ex_ignored_root (e : Entry) :
  skipped kIgnoreSearch "/home/me/build/src" e = true.
Proof. reflexivity. Qed.

Definition ex_regex : list piece := [PChar "X"].
Lemma ex_readable : Forall (grep_readable "src/" ex_tree) (walk "src/" ex_tree).1.
Proof.
  assert ((walk "src/" ex_tree).1 = map (fun ns => mkEntry ns (Ok regular)) [["a.cpp"]; ["build"; "b.cpp"]; ["lib"; "c.CPP"]; ["d.py"]])
    as -> by (vm_compute; reflexivity).
  repeat (apply Forall_cons_2; [|]); try apply Forall_nil_2;
    (split_and!; [reflexivity..|]; intros t Ht; vm_compute in Ht; injection Ht as <-; vm_compute; reflexivity).
Qed.

Definition ex_content : string := ex_grep ("," +:+ dq +:+ "context_after" +:+ dq +:+ ":1").
Lemma ex_blocks (b : string) :
  b ∈ tree_blocks (fun l => regex_search l (pieces_regex ex_regex)) (q_before (grep_query ex_content))
    (q_after (grep_query ex_content)) "src/" (q_glob (grep_query ex_content)) ex_tree (walk "src/" ex_tree).1 ->
  b = "a.cpp:2" +:+ nl +:+ "> 2| x = 1;" \/ b = "d.py:1" +:+ nl +:+ "> 1| x".
Proof.
  intros Hb. vm_compute in Hb. apply elem_of_cons in Hb as [->|Hb]; [by left|].
  apply list_elem_of_singleton in Hb as ->. by right.
Qed.

Lemma grep_shows_matches_witness :
  exists g, Grep ex_content ex_tree
    = Val ("a.cpp:2" +:+ nl +:+ "> 2| x = 1;" +:+ nl +:+ nl +:+ "d.py:1" +:+ nl +:+ "> 1| x" +:+ grep_notes g).
Proof.
  assert (q_pattern (grep_query ex_content) <> "") as H1 by (by vm_compute).
  assert (content_mode (q_mode (grep_query ex_content)) = true) as H2 by (by vm_compute).
  assert (0 <= q_before (grep_query ex_content)) as H3 by (by vm_compute).
  assert (0 <= q_after (grep_query ex_content)) as H4 by (by vm_compute).
  assert (regex_new (q_icase (grep_query ex_content)) (q_pattern (grep_query ex_content)) = inr ex_regex) as H5
    by (vm_compute; reflexivity).
  assert (fs_status (q_path (grep_query ex_content)) ex_tree = Ok directory) as H6 by (vm_compute; reflexivity).
  assert (q_path (grep_query ex_content) = "src/") as H7 by (vm_compute; reflexivity).
  assert (walk (q_path (grep_query ex_content)) ex_tree = ((walk "src/" ex_tree).1, None)) as H8 by (by rewrite H7).
  destruct (grep_shows_matches ex_content ex_tree (walk "src/" ex_tree).1 ex_regex
    (fun l => regex_search l (pieces_regex ex_regex)) H1 H2 H3 H4 H5 (fun l => eq_refl) H6 H8)
    as (n & g & E & _ & _ & Hc).
  { rewrite H7. apply ex_readable. }
  { rewrite H7. apply Forall_forall. intros b Hb. apply ex_blocks in Hb as [->| ->]; vm_compute; reflexivity. }
  exists g. rewrite E. destruct Hc as [[_ ->]|(_ & b & Hb & Hc)]; [vm_compute; reflexivity|].
  exfalso. destruct n as [|[|n]]; [| |by vm_compute in Hb].
  - destruct Hc as [Hc|Hc]; vm_compute in Hb; injection Hb as <-; by vm_compute in Hc.
  - destruct Hc as [Hc|Hc]; vm_compute in Hb; injection Hb as <-; by vm_compute in Hc.
Defined.
