(* ===== verification/EntityDecay.v ===== *)
(** * Expiry of event entities (src/memory/entity_decay.cpp)

    What both memory runtimes do with a context package before it reaches the
    prompt: entities of an event type that were not updated for some days are
    dropped, with the relations and the lines of the memory text that name them.
    [mktime] depends on the machine's time zone and is a parameter. *)
From Stdlib Require Import ZArith Lia String Ascii List Floats.SpecFloat.
From stdpp Require Import base decidable list strings gmap sets.
From S2P Require Import Prelude Numbers Types JsonLib MemoryTypes.
Open Scope Z_scope.

(** ** Timestamps *)

(** [in >> c]; [None] sets the stream's fail bit. *)
Definition read_char (s : string) : option string :=
  match skip_space s with String _ s' => Some s' | EmptyString => None end.

(** The fields of [std::tm] the code sets. *)
Record tm := mkTm {
  tm_year : Z;
  tm_mon : Z;
  tm_mday : Z;
  tm_hour : Z;
  tm_min : Z;
  tm_sec : Z
}.

Definition read_tm (s : string) : option tm :=
  '(year, s) ← read_int s; s ← read_char s;
  '(mon, s) ← read_int s; s ← read_char s;
  '(mday, s) ← read_int s;
  '(hour, s) ← read_int s; s ← read_char s;
  '(min, s) ← read_int s; s ← read_char s;
  '(sec, _) ← read_int s;
  Some (mkTm (year - 1900) (mon - 1) mday hour min sec).

Section Decay.
Context {J : Type} `{Json J}.
Variable mktime : tm -> Z.

Definition ParseSqliteTimestamp (s : string) : Z :=
  if (String.length s <? 19)%nat then 0
  else match read_tm s with Some t => mktime t | None => 0 end.

(** ** The memory text *)

(** Whether a line survives. *)
Definition keep_line (droppedIds : list string) (line : string) : bool :=
  if negb (starts_with "- " line) then true
  else negb (existsb (fun id => starts_with ("- " +:+ id +:+ " (") line) droppedIds
             || existsb (fun tok => list_has tok droppedIds) (words line)).

Definition RewriteMemoryText (droppedIds : list string) (text : string) : string :=
  match droppedIds with
  | [] => text
  | _ => log_text (List.filter (keep_line droppedIds) (getlines text))
  end.

(** ** The filter *)

Definition set_text (t : string) (pkg : MemoryContextPackage J) : MemoryContextPackage J :=
  mkMemoryContextPackage (pk_messages pkg) t (pk_entities pkg) (pk_relations pkg) (payloadRefs pkg)
    (citations pkg) (pk_metadata pkg).
Definition set_entities (l : list (MemoryEntity J)) (pkg : MemoryContextPackage J) : MemoryContextPackage J :=
  mkMemoryContextPackage (pk_messages pkg) (memoryText pkg) l (pk_relations pkg) (payloadRefs pkg)
    (citations pkg) (pk_metadata pkg).
Definition set_relations (l : list (MemoryRelation J)) (pkg : MemoryContextPackage J) : MemoryContextPackage J :=
  mkMemoryContextPackage (pk_messages pkg) (memoryText pkg) (pk_entities pkg) l (payloadRefs pkg)
    (citations pkg) (pk_metadata pkg).

(** An entity is dropped when it is of an event type and too old, or undated. *)
Definition expired (config : MemoryConfig) (now : Z) (e : MemoryEntity J) : bool :=
  let cutoff := now - eventEntityTtlDays config * 86400 in
  let updated := ParseSqliteTimestamp (me_updatedAt e) in
  list_has (entityType e) (eventEntityTypes config)
  && negb ((0 <? updated) && (cutoff <=? updated)).

(** [droppedIds] as the set's elements in the order of [std::set]. *)
Definition dropped_ids (config : MemoryConfig) (now : Z) (es : list (MemoryEntity J)) : list string :=
  sset_of_list (map me_id (List.filter (expired config now) es)).

Definition dangles (droppedIds : list string) (r : MemoryRelation J) : bool :=
  list_has (fromEntityId r) droppedIds || list_has (toEntityId r) droppedIds.

(** The package and the number of ids dropped; [now] is [std::time]. *)
Definition FilterExpiredEventEntities (config : MemoryConfig) (now : Z) (pkg : MemoryContextPackage J)
    : MemoryContextPackage J * nat :=
  if eventEntityTtlDays config <=? 0 then (pkg, 0%nat)
  else match eventEntityTypes config with
  | [] => (pkg, 0%nat)
  | _ =>
      match pk_entities pkg with
      | [] => (pkg, 0%nat)
      | es =>
          let droppedIds := dropped_ids config now es in
          let pkg1 := set_entities (List.filter (fun e => negb (expired config now e)) es) pkg in
          match droppedIds with
          | [] => (pkg1, 0%nat)
          | _ =>
              (set_text (RewriteMemoryText droppedIds (memoryText pkg1))
                 (set_relations (List.filter (fun r => negb (dangles droppedIds r)) (pk_relations pkg1)) pkg1),
               length droppedIds)
          end
      end
  end.
End Decay.

(** ** Facts *)

Section DecayFacts.
Context {J : Type} `{Json J}.
Variable mktime : tm -> Z.
Local Notation expired := (expired (J := J) mktime).
Local Notation dropped_ids := (dropped_ids (J := J) mktime).
Local Notation FilterExpiredEventEntities := (FilterExpiredEventEntities (J := J) mktime).

Lemma getlines_no_nl (cur s : string) :
  occurs NL cur = false -> Forall (fun l => occurs NL l = false) (getlines_aux cur s).
Proof.
  revert cur; induction s as [|c s IH]; intros cur Hc; cbn [getlines_aux].
  - destruct cur; by repeat constructor.
  - destruct (Ascii.eqb c NL) eqn:E; [constructor; [done | by apply IH]|].
    apply IH. rewrite occurs_app, Hc. cbn [occurs]. by rewrite Ascii.eqb_sym, E.
Qed.

Lemma rewrite_lines (ids : list string) (text : string) :
  ids <> [] -> getlines (RewriteMemoryText ids text) = List.filter (keep_line ids) (getlines text).
Proof.
  intros Hne. unfold RewriteMemoryText. destruct ids; [done|]. apply getlines_log.
  pose proof (getlines_no_nl "" text eq_refl) as Hl. unfold getlines.
  induction Hl as [|l ls Hx _ IH]; [constructor|]. cbn [List.filter]. destruct (keep_line _ l); [by constructor | done].
Qed.

Lemma filter_nothing_expired config now (es : list (MemoryEntity J)) :
  dropped_ids config now es = [] <-> List.filter (fun e => negb (expired config now e)) es = es.
Proof.
  unfold EntityDecay.dropped_ids. split.
  - intros Hd. apply filterb_all. intros e He. destruct (expired config now e) eqn:Ee; [|done].
    assert (me_id e ∈ sset_of_list (map me_id (List.filter (expired config now) es))) as Hin.
    { apply elem_of_sset_of_list, list_elem_of_fmap_2. apply elem_of_filterb. done. }
    rewrite Hd in Hin. by apply elem_of_nil in Hin.
  - intros Hf. assert (List.filter (expired config now) es = []) as ->; [|done].
    destruct (List.filter (expired config now) es) as [|e l] eqn:E; [done|].
    assert (e ∈ List.filter (expired config now) es) as He by (rewrite E; left).
    apply elem_of_filterb in He as [He Hx]. rewrite <- Hf in He. apply elem_of_filterb in He as [_ He].
    by rewrite Hx in He.
Qed.

(** The filter, whichever of its branches it takes. *)
Lemma filter_expired_spec config now (pkg : MemoryContextPackage J) :
  0 < eventEntityTtlDays config ->
  FilterExpiredEventEntities config now pkg =
  (mkMemoryContextPackage (pk_messages pkg)
     (RewriteMemoryText (dropped_ids config now (pk_entities pkg)) (memoryText pkg))
     (List.filter (fun e => negb (expired config now e)) (pk_entities pkg))
     (List.filter (fun r => negb (dangles (dropped_ids config now (pk_entities pkg)) r)) (pk_relations pkg))
     (payloadRefs pkg) (citations pkg) (pk_metadata pkg),
   length (dropped_ids config now (pk_entities pkg))).
Proof.
  intros Httl. unfold EntityDecay.FilterExpiredEventEntities. destruct (Z.leb_spec (eventEntityTtlDays config) 0); [lia|].
  assert (forall rs : list (MemoryRelation J), List.filter (fun r => negb (dangles [] r)) rs = rs) as Hr
    by (intros rs; by apply filterb_all).
  assert (dropped_ids config now (pk_entities pkg) = [] ->
    (pkg, 0%nat) = (mkMemoryContextPackage (pk_messages pkg) (memoryText pkg)
      (List.filter (fun e => negb (expired config now e)) (pk_entities pkg))
      (pk_relations pkg) (payloadRefs pkg) (citations pkg) (pk_metadata pkg), 0%nat)) as Hno
    by (intros Hd; rewrite (proj1 (filter_nothing_expired _ _ _) Hd); by destruct pkg).
  destruct (eventEntityTypes config) as [|ty tys] eqn:Et.
  { assert (forall e, expired config now e = false) as Hx by (intros e; unfold EntityDecay.expired; by rewrite Et).
    assert (dropped_ids config now (pk_entities pkg) = []) as Hd.
    { apply filter_nothing_expired, filterb_all. intros e _. by rewrite Hx. }
    rewrite Hd, Hr. by apply Hno. }
  destruct (pk_entities pkg) as [|e es] eqn:Ee.
  { cbn. rewrite Hr. by apply Hno. }
  destruct (dropped_ids config now (e :: es)) as [|d ds] eqn:Ed; [|done].
  rewrite Hr. done.
Qed.

(** The package that reaches the prompt is consistent.  When its relations link
    entities it holds, then after the filter they still do; exactly the entities
    that are not expired are left; the lines of the memory text are the former ones
    without those that name a dropped id; the result is the number of ids dropped;
    and filtering again at the same time changes nothing. *)
Theorem expiry_consistent (config : MemoryConfig) (now : Z) (pkg pkg1 : MemoryContextPackage J) (n : nat) :
  0 < eventEntityTtlDays config ->
  (forall r, r ∈ pk_relations pkg ->
     fromEntityId r ∈ map me_id (pk_entities pkg) /\ toEntityId r ∈ map me_id (pk_entities pkg)) ->
  FilterExpiredEventEntities config now pkg = (pkg1, n) ->
  (forall e, e ∈ pk_entities pkg1 <-> e ∈ pk_entities pkg /\ expired config now e = false) /\
  (forall r, r ∈ pk_relations pkg1 ->
     r ∈ pk_relations pkg /\
     fromEntityId r ∈ map me_id (pk_entities pkg1) /\ toEntityId r ∈ map me_id (pk_entities pkg1)) /\
  (n <> 0%nat -> getlines (memoryText pkg1) =
     List.filter (keep_line (dropped_ids config now (pk_entities pkg))) (getlines (memoryText pkg))) /\
  n = length (dropped_ids config now (pk_entities pkg)) /\
  FilterExpiredEventEntities config now pkg1 = (pkg1, 0%nat).
Proof.
  intros Httl Hlink E. rewrite filter_expired_spec in E by done.
  set (D := dropped_ids config now (pk_entities pkg)) in *. injection E as <- <-. cbn.
  assert (forall id, id ∈ map me_id (pk_entities pkg) -> list_has id D = false ->
    id ∈ map me_id (List.filter (fun e => negb (expired config now e)) (pk_entities pkg))) as Hkeep.
  { intros id (e & -> & He)%list_elem_of_fmap Hd. apply list_elem_of_fmap_2, elem_of_filterb.
    split; [done|]. destruct (expired config now e) eqn:Ex; [|done]. apply list_has_false in Hd. destruct Hd.
    apply elem_of_sset_of_list, list_elem_of_fmap_2, elem_of_filterb. done. }
  split_and!.
  - intros e. rewrite elem_of_filterb. by rewrite negb_true_iff.
  - intros r [Hr Hd]%elem_of_filterb. apply negb_true_iff, orb_false_iff in Hd as [Hf Ht].
    destruct (Hlink r Hr). split_and!; [done | by apply Hkeep..].
  - intros Hn. apply rewrite_lines. by destruct D.
  - done.
  - rewrite filter_expired_spec by done.
    cbn [pk_messages memoryText pk_entities pk_relations payloadRefs citations pk_metadata].
    assert (forall es : list (MemoryEntity J), dropped_ids config now
      (List.filter (fun e => negb (expired config now e)) es) = []) as Hnone.
    { intros es. apply filter_nothing_expired, filterb_all. by intros e [_ He]%elem_of_filterb. }
    rewrite Hnone. cbn [RewriteMemoryText length]. do 2 f_equal; apply filterb_all; [|done].
    by intros e [_ He]%elem_of_filterb.
Qed.
End DecayFacts.

(** ** Witness *)

#[local] Instance ex_json0 : Json JsonTree.json := JsonTree.instance [].

(** Days since a common epoch, months of 31 days. *)
Definition ex_mktime (t : tm) : Z := ((tm_year t * 12 + tm_mon t) * 31 + tm_mday t) * 86400.
Definition ex_entity (id ty updated : string) : MemoryEntity JsonTree.json :=
  mkMemoryEntity id "a" ty id "" (S754_zero false) true "" "" [] (j_object ∅) "" updated.
Definition ex_relation (a b : string) : MemoryRelation JsonTree.json :=
  mkMemoryRelation "r" "a" a "about" b (S754_zero false) [] (j_object ∅) "" "".
Definition ex_config : MemoryConfig :=
  mkMemoryConfig true "" "" "" "" "" 0 0 0 0 0 0 false 0 [] false "" "" "" "" "" "" 0 (S754_zero false) 0
    ["event"] 7 default_ConfigNode.
Definition ex_package : MemoryContextPackage JsonTree.json :=
  mkMemoryContextPackage []
    ("Entities" +:+ nl +:+ "- rain (event, storm): wet (confidence=1)" +:+ nl +:+ "- tea (preference, green): likes"
     +:+ nl +:+ "- tea before rain (confidence=1)" +:+ nl)
    [ex_entity "rain" "event" "2026-01-01 10:00:00"; ex_entity "tea" "preference" ""]
    [ex_relation "tea" "rain"; ex_relation "tea" "tea"] [] [] (j_object ∅).
Definition ex_now : Z := ex_mktime (mkTm 126 1 1 0 0 0).

Example ex_text_left :
  memoryText (FilterExpiredEventEntities ex_mktime ex_config ex_now ex_package).1 =
  "Entities" +:+ nl +:+ "- tea (preference, green): likes" +:+ nl.
Proof. vm_compute. reflexivity. Qed.

Lemma expiry_consistent_witness :
  exists pkg1, FilterExpiredEventEntities ex_mktime ex_config ex_now ex_package = (pkg1, 1%nat) /\
    (forall r, r ∈ pk_relations pkg1 -> toEntityId r ∈ map me_id (pk_entities pkg1)).
Proof.
  eexists. split; [vm_compute; reflexivity|].
  eapply (expiry_consistent ex_mktime ex_config ex_now ex_package _ 1).
  - reflexivity.
  - intros r Hr. cbn in Hr. repeat (apply elem_of_cons in Hr as [->|Hr]; [cbn; set_solver|]).
    by apply elem_of_nil in Hr.
  - vm_compute. reflexivity.
Defined.
