(* ===== verification/HttpMemory.v ===== *)
(** * The memory server client (src/memory/http_memory_runtime.cpp)

    Requests with retries behind a circuit breaker, and the JSON the client
    exchanges with the server.  libcurl is the class [Curl] of Transport; the
    system clock is a parameter. *)
From Stdlib Require Import ZArith Lia String Ascii List Floats.SpecFloat.
From stdpp Require Import base decidable list strings gmap sets.
From S2P Require Import Prelude Numbers Encoding Types JsonLib MemoryTypes EntityDecay Transport.
Open Scope Z_scope.

(** ** State *)

Record CircuitState := mkCircuitState {
  consecutiveFailures : Z;
  openUntilMs : Z;
  cb_appendFailures : Z;
  cb_writeFailures : Z;
  cb_buildContextFailures : Z
}.
Definition fresh_circuit : CircuitState := mkCircuitState 0 0 0 0 0.

Record HttpMemoryRuntime := mkHttpMemoryRuntime {
  hm_config : MemoryConfig;
  serverUrl_ : string;
  apiKey_ : string;
  timeoutSeconds_ : Z;
  maxRetries_ : Z;
  circuitThreshold_ : Z;
  circuitCooldownMs_ : Z;
  circuit_ : CircuitState
}.

(** The constructor; [None] where the multiplication of the cooldown overflows. *)
Definition http_runtime_new (config : MemoryConfig) : option HttpMemoryRuntime :=
  cooldown ← int_result (serverCircuitCooldownSeconds config * 1000);
  let url := serverUrl config in
  Some (mkHttpMemoryRuntime config
          (if back_is "/" url then str_take (String.length url - 1) url else url)
          (serverApiKey config) (serverTimeoutSeconds config) (serverMaxRetries config)
          (serverCircuitThreshold config) cooldown fresh_circuit).

Definition set_circuit (c : CircuitState) (rt : HttpMemoryRuntime) : HttpMemoryRuntime :=
  mkHttpMemoryRuntime (hm_config rt) (serverUrl_ rt) (apiKey_ rt) (timeoutSeconds_ rt) (maxRetries_ rt)
    (circuitThreshold_ rt) (circuitCooldownMs_ rt) c.
Definition set_failures (n : Z) (c : CircuitState) : CircuitState :=
  mkCircuitState n (openUntilMs c) (cb_appendFailures c) (cb_writeFailures c) (cb_buildContextFailures c).
Definition set_open (t : Z) (c : CircuitState) : CircuitState :=
  mkCircuitState (consecutiveFailures c) t (cb_appendFailures c) (cb_writeFailures c) (cb_buildContextFailures c).
(** The counters [GetStats] reports. *)
Definition append_failed (rt : HttpMemoryRuntime) : HttpMemoryRuntime :=
  let c := circuit_ rt in
  set_circuit (mkCircuitState (consecutiveFailures c) (openUntilMs c) (cb_appendFailures c + 1)
                 (cb_writeFailures c) (cb_buildContextFailures c)) rt.
Definition write_failed (rt : HttpMemoryRuntime) : HttpMemoryRuntime :=
  let c := circuit_ rt in
  set_circuit (mkCircuitState (consecutiveFailures c) (openUntilMs c) (cb_appendFailures c)
                 (cb_writeFailures c + 1) (cb_buildContextFailures c)) rt.
Definition build_failed (rt : HttpMemoryRuntime) : HttpMemoryRuntime :=
  let c := circuit_ rt in
  set_circuit (mkCircuitState (consecutiveFailures c) (openUntilMs c) (cb_appendFailures c)
                 (cb_writeFailures c) (cb_buildContextFailures c + 1)) rt.

Record HttpResponse := mkHttpResponse {
  hr_status : Z;
  hr_body : string;
  hr_isRetryable : bool;
  hr_isCurlError : bool
}.
Definition no_response : HttpResponse := mkHttpResponse 0 "" false false.

(** ** Requests *)

Section Http.
Context {X : Type} `{Curl X}.
(** [system_clock::now()] in milliseconds. *)
Variable now_ms : X -> Z.

Definition auth_header (rt : HttpMemoryRuntime) : list string :=
  if str_empty (apiKey_ rt) then [] else ["Authorization: Bearer " +:+ apiKey_ rt].

Definition memory_request (rt : HttpMemoryRuntime) (path : string) (headers : list string) (body : string)
    : CurlRequest :=
  mkCurlRequest (serverUrl_ rt +:+ path) (headers ++ auth_header rt) body (timeoutSeconds_ rt)
    (timeoutSeconds_ rt) false true "" "" false "".

Definition http_response (resp : CurlResponse) : HttpResponse :=
  mkHttpResponse (statusCode resp) (rs_body resp)
    (if isCurlError resp then IsRetryableCurlError (curlCode resp)
     else if 400 <=? statusCode resp then IsRetryableHttpStatus (statusCode resp) else false)
    (isCurlError resp).

Definition DoHttpPostOnce (rt : HttpMemoryRuntime) (path jsonBody : string) (x : X) : X * HttpResponse :=
  let '(x1, resp) :=
    PerformBody (memory_request rt path ["Content-Type: application/json"; "Accept: application/json"] jsonBody) x in
  (x1, http_response resp).
Definition DoHttpGetOnce (rt : HttpMemoryRuntime) (path : string) (x : X) : X * HttpResponse :=
  let '(x1, resp) := PerformBody (memory_request rt path ["Accept: application/json"] "") x in
  (x1, http_response resp).

Definition memory_policy (rt : HttpMemoryRuntime) : RetryPolicy := mkRetryPolicy (maxRetries_ rt) 400 3000 true.

Definition succeeded (resp : HttpResponse) : bool :=
  (200 <=? hr_status resp) && (hr_status resp <? 400) && negb (hr_isCurlError resp).

(** A failure is counted once per call, and opens the circuit at the threshold. *)
Definition count_failure (rt : HttpMemoryRuntime) (x : X) : HttpMemoryRuntime :=
  let c := set_failures (consecutiveFailures (circuit_ rt) + 1) (circuit_ rt) in
  set_circuit (if circuitThreshold_ rt <=? consecutiveFailures c
               then set_open (now_ms x + circuitCooldownMs_ rt) c else c) rt.

(** The loop [HttpPost] and [HttpGet] have in common; [n] attempts are left. *)
Fixpoint http_attempts (once : X -> X * HttpResponse) (n attempt : nat) (rt : HttpMemoryRuntime) (x : X)
    : HttpMemoryRuntime * X * res HttpResponse :=
  match n with
  | O => (rt, x, Val no_response)
  | S n =>
      let '(x1, resp) := once x in
      if succeeded resp then (set_circuit (set_failures 0 (circuit_ rt)) rt, x1, Val resp)
      else if negb (hr_isRetryable resp) || Nat.eqb n 0 then (count_failure rt x1, x1, Val resp)
      else
        let '(x2, slept) := log_and_sleep attempt (memory_policy rt) x1 in
        match slept with
        | None => (rt, x2, Undefined)
        | Some _ => http_attempts once n (S attempt) rt x2
        end
  end.

Definition http_call (once : X -> X * HttpResponse) (rt : HttpMemoryRuntime) (x : X)
    : HttpMemoryRuntime * X * res HttpResponse :=
  if now_ms x <? openUntilMs (circuit_ rt) then (rt, x, Val no_response)
  else http_attempts once (Z.to_nat (1 + maxRetries_ rt)) 0 rt x.

Definition HttpPost (path jsonBody : string) (rt : HttpMemoryRuntime) (x : X)
    : HttpMemoryRuntime * X * res HttpResponse := http_call (DoHttpPostOnce rt path jsonBody) rt x.
Definition HttpGet (path : string) (rt : HttpMemoryRuntime) (x : X)
    : HttpMemoryRuntime * X * res HttpResponse := http_call (DoHttpGetOnce rt path) rt x.
End Http.

(** ** JSON *)

Section Codec.
Context {J : Type} `{Json J}.

Definition IsSuccessEnvelope (j : J) : bool :=
  match jfield "ok" j with
  | Some v => match json_view v with JBool b => b | _ => false end
  | None => false
  end.

Definition ExtractError (j : J) : outcome string :=
  match jfield "error" j with
  | Some v =>
      match json_view v with
      | JString s => Ok s
      | JObject m => match m !! "message" with Some t => get_string t | None => Ok "unknown error" end
      | _ => Ok "unknown error"
      end
  | None => Ok "unknown error"
  end.

Definition EventTypeToString (t : MemoryEventType) : string :=
  match t with
  | SESSION_STARTED => "session_started"
  | SESSION_ENDED => "session_ended"
  | MESSAGE_APPENDED => "message_appended"
  | TOOL_CALL_STARTED => "tool_call_started"
  | TOOL_CALL_FINISHED => "tool_call_finished"
  | PAYLOAD_OFFLOADED => "payload_offloaded"
  | CONSOLIDATION_REQUESTED => "consolidation_requested"
  | CONSOLIDATION_COMPLETED => "consolidation_completed"
  end.

Definition SerializeEvent (event : MemoryEvent) : J :=
  j_fields [("type", j_string (EventTypeToString (ev_type event))); ("agentId", j_string (ev_agentId event));
            ("sessionId", j_string (ev_sessionId event)); ("role", j_string (ev_role event));
            ("content", j_string (ev_content event)); ("toolCallId", j_string (ev_toolCallId event));
            ("toolName", j_string (ev_toolName event)); ("payloadRef", j_string (ev_payloadRef event));
            ("storeCursor", j_string (ev_storeCursor event)); ("metadata", j_object ∅);
            ("timestamp", j_string (ev_timestamp event))].

Definition string_array (l : list string) : J := j_array (map j_string l).

Definition SerializeContextRequest (q : MemoryContextRequest J) : J :=
  j_fields [("agentId", j_string (cq_agentId q)); ("sessionId", j_string (cq_sessionId q));
            ("query", j_string (cq_query q)); ("tokenBudget", j_int (cq_tokenBudget q));
            ("includeSections", string_array (cq_includeSections q)); ("metadata", cq_metadata q)].
Definition SerializePayloadWriteRequest (q : MemoryPayloadWriteRequest J) : J :=
  j_fields [("agentId", j_string (pw_agentId q)); ("sessionId", j_string (pw_sessionId q));
            ("content", j_string (pw_content q)); ("contentType", j_string (pw_contentType q));
            ("toolCallId", j_string (pw_toolCallId q)); ("toolName", j_string (pw_toolName q));
            ("metadata", pw_metadata q)].
Definition SerializeConsolidationRequest (q : MemoryConsolidationRequest J) : J :=
  j_fields [("agentId", j_string (cs_agentId q)); ("sessionId", j_string (cs_sessionId q));
            ("maxEvents", j_int (maxEvents q)); ("forceReprocess", j_bool (forceReprocess q));
            ("excludedSessionIds", string_array (excludedSessionIds q)); ("metadata", cs_metadata q)].
Definition SerializeSearchRequest (q : MemorySearchRequest J) : J :=
  j_fields [("agentId", j_string (sq_agentId q)); ("sessionId", j_string (sq_sessionId q));
            ("query", j_string (sq_query q)); ("limit", j_int (sq_limit q));
            ("includeSections", string_array (sq_includeSections q)); ("metadata", sq_metadata q)].

(** [if (j.contains(key) && j[key].is_array())] a loop over its elements. *)
Definition over_array {A} (decode : J -> outcome A) (key : string) (j : J) : outcome (list A) :=
  match array_field key j with Some l => outcome_map decode l | None => Ok [] end.
Definition over_metadata (j : J) : outcome J := over Ok "metadata" (j_object ∅) j.

Definition decode_message (m : J) : outcome MemoryMessage :=
  role <-- over get_string "role" "" m ;; content <-- over get_string "content" "" m ;;
  toolCallId <-- over get_string "toolCallId" "" m ;; toolName <-- over get_string "toolName" "" m ;;
  payloadRef <-- over get_string "payloadRef" "" m ;;
  Ok (mkMemoryMessage role content toolCallId toolName payloadRef).

Definition decode_entity (e : J) : outcome (MemoryEntity J) :=
  id <-- over get_string "id" "" e ;; agentId <-- over get_string "agentId" "" e ;;
  entityType <-- over get_string "entityType" "" e ;; name <-- over get_string "name" "" e ;;
  summary <-- over get_string "summary" "" e ;;
  confidence <-- over json_get_float "confidence" (S754_zero false) e ;;
  isActive <-- over get_bool "isActive" true e ;;
  byId <-- over get_string "supersededByEntityId" "" e ;; ofId <-- over get_string "supersededEntityId" "" e ;;
  refs <-- over_array get_string "sourceRefs" e ;; metadata <-- over_metadata e ;;
  createdAt <-- over get_string "createdAt" "" e ;; updatedAt <-- over get_string "updatedAt" "" e ;;
  Ok (mkMemoryEntity id agentId entityType name summary confidence isActive byId ofId refs metadata
        createdAt updatedAt).

Definition decode_relation (r : J) : outcome (MemoryRelation J) :=
  id <-- over get_string "id" "" r ;; agentId <-- over get_string "agentId" "" r ;;
  fromId <-- over get_string "fromEntityId" "" r ;; type <-- over get_string "relationType" "" r ;;
  toId <-- over get_string "toEntityId" "" r ;;
  confidence <-- over json_get_float "confidence" (S754_zero false) r ;;
  refs <-- over_array get_string "sourceRefs" r ;; metadata <-- over_metadata r ;;
  createdAt <-- over get_string "createdAt" "" r ;; updatedAt <-- over get_string "updatedAt" "" r ;;
  Ok (mkMemoryRelation id agentId fromId type toId confidence refs metadata createdAt updatedAt).

Definition decode_payload (p : J) : outcome (MemoryPayloadRef J) :=
  agentId <-- over get_string "agentId" "" p ;; sessionId <-- over get_string "sessionId" "" p ;;
  uri <-- over get_string "uri" "" p ;; contentType <-- over get_string "contentType" "" p ;;
  summary <-- over get_string "summary" "" p ;; toolName <-- over get_string "toolName" "" p ;;
  originalChars <-- over json_get_int "originalChars" 0 p ;; metadata <-- over_metadata p ;;
  createdAt <-- over get_string "createdAt" "" p ;;
  Ok (mkMemoryPayloadRef agentId sessionId uri contentType summary toolName originalChars metadata createdAt).

Definition DeserializeContextPackage (j : J) : outcome (MemoryContextPackage J) :=
  match jfield "context" j with
  | None => Ok default_MemoryContextPackage
  | Some c =>
      messages <-- over_array decode_message "messages" c ;;
      text <-- over get_string "memoryText" "" c ;;
      entities <-- over_array decode_entity "entities" c ;;
      relations <-- over_array decode_relation "relations" c ;;
      refs <-- over_array decode_payload "payloadRefs" c ;;
      citations <-- over_array get_string "citations" c ;;
      metadata <-- over_metadata c ;;
      Ok (mkMemoryContextPackage messages text entities relations refs citations metadata)
  end.

Definition DeserializePayloadWriteResult (j : J) : outcome (MemoryPayloadWriteResult J) :=
  ok <-- over get_bool "succeeded" false j ;; offloaded <-- over get_bool "offloaded" false j ;;
  replacement <-- over get_string "replacementContent" "" j ;;
  payload <-- (match jfield "payload" j with
               | Some p => if is_object p then decode_payload p else Ok default_MemoryPayloadRef
               | None => Ok default_MemoryPayloadRef
               end) ;;
  Ok (mkMemoryPayloadWriteResult ok offloaded payload replacement).

Definition decode_hit (h : J) : outcome (MemorySearchHit J) :=
  id <-- over get_string "id" "" h ;; type <-- over get_string "type" "" h ;;
  content <-- over get_string "content" "" h ;; score <-- over json_get_float "score" (S754_zero false) h ;;
  refs <-- over_array get_string "sourceRefs" h ;; metadata <-- over_metadata h ;;
  Ok (mkMemorySearchHit id type content score refs metadata).

Definition DeserializeSearchHits (j : J) : outcome (list (MemorySearchHit J)) := over_array decode_hit "hits" j.

Definition DeserializeStats (j : J) : outcome (MemoryStats J) :=
  match jfield "stats" j with
  | None => Ok default_MemoryStats
  | Some s =>
      events <-- over json_get_int "events" 0 s ;; payloads <-- over json_get_int "payloads" 0 s ;;
      summaries <-- over json_get_int "summaries" 0 s ;; entities <-- over json_get_int "entities" 0 s ;;
      relations <-- over json_get_int "relations" 0 s ;; metadata <-- over_metadata s ;;
      Ok (mkMemoryStats events payloads summaries entities relations 0 0 0 metadata)
  end.

(** A usable response: every way out of the [try] blocks. *)
Definition envelope (resp : HttpResponse) : outcome J :=
  if hr_status resp =? 200 then
    j <-- json_parse (hr_body resp) ;;
    if IsSuccessEnvelope j then Ok j else msg <-- ExtractError j ;; Throw msg
  else Throw "HTTP".
End Codec.

(** ** Operations *)

Section Operations.
Context {J : Type} `{Json J} {X : Type} `{Curl X}.
Variable now_ms : X -> Z.
(** [mktime] and [time] of EntityDecay. *)
Variable mktime : tm -> Z.
Variable time : X -> Z.

(** An operation of the runtime: [Exc] is an exception that leaves it. *)
Definition Op (A : Type) : Type := HttpMemoryRuntime -> X -> HttpMemoryRuntime * X * res A.

(** [dump], the request, and what is made of the response. *)
Definition posting {A} (path : string) (body : J)
    (handle : HttpMemoryRuntime -> HttpResponse -> X -> HttpMemoryRuntime * A) : Op A :=
  fun rt x =>
    match json_dump None body with
    | Throw e => (rt, x, Exc e)
    | Ok text =>
        match HttpPost now_ms path text rt x with
        | (rt1, x1, Val resp) => let '(rt2, a) := handle rt1 resp x1 in (rt2, x1, Val a)
        | (rt1, x1, Exc e) => (rt1, x1, Exc e)
        | (rt1, x1, Undefined) => (rt1, x1, Undefined)
        end
    end.
Definition getting {A} (path : string) (handle : HttpMemoryRuntime -> HttpResponse -> A) : Op A :=
  fun rt x =>
    match HttpGet now_ms path rt x with
    | (rt1, x1, Val resp) => (rt1, x1, Val (handle rt1 resp))
    | (rt1, x1, Exc e) => (rt1, x1, Exc e)
    | (rt1, x1, Undefined) => (rt1, x1, Undefined)
    end.

Definition sanitize_event (e : MemoryEvent) : MemoryEvent :=
  mkMemoryEvent (ev_type e) (ev_agentId e) (ev_sessionId e) (FixStringUTF8 (ev_role e))
    (FixStringUTF8 (ev_content e)) (FixStringUTF8 (ev_toolCallId e)) (FixStringUTF8 (ev_toolName e))
    (FixStringUTF8 (ev_payloadRef e)) (ev_storeCursor e) (ev_timestamp e).

Definition AppendEvent (event : MemoryEvent) : Op bool :=
  posting "/v1/events" (SerializeEvent (sanitize_event event))
    (fun rt resp _ => match envelope (J := J) resp with
                      | Ok _ => (rt, true) | Throw _ => (append_failed rt, false) end).

Definition BuildContext (q : MemoryContextRequest J) : Op (MemoryContextPackage J) :=
  posting "/v1/context" (SerializeContextRequest q)
    (fun rt resp x =>
       match (j <-- envelope resp ;; DeserializeContextPackage j) with
       | Ok pkg => (rt, (FilterExpiredEventEntities mktime (hm_config rt) (time x) pkg).1)
       | Throw _ => (build_failed rt, default_MemoryContextPackage)
       end).

Definition WritePayload (q : MemoryPayloadWriteRequest J) : Op (MemoryPayloadWriteResult J) :=
  posting "/v1/payloads"
    (SerializePayloadWriteRequest
       (mkMemoryPayloadWriteRequest (pw_agentId q) (pw_sessionId q) (FixStringUTF8 (pw_content q))
          (FixStringUTF8 (pw_contentType q)) (pw_toolCallId q) (FixStringUTF8 (pw_toolName q)) (pw_metadata q)))
    (fun rt resp _ =>
       match (j <-- envelope resp ;; DeserializePayloadWriteResult j) with
       | Ok r => (rt, r) | Throw _ => (write_failed rt, default_MemoryPayloadWriteResult) end).

Definition ReadPayload (uri : string) : Op string := fun rt x =>
  let pathPart := if starts_with "file://" uri then str_drop 7 uri else uri in
  getting ("/v1/payloads/" +:+ UrlEncode pathPart x)
    (fun _ resp =>
       match (j <-- envelope (J := J) resp ;; over get_string "content" "" j) with
       | Ok s => s | Throw _ => "" end) rt x.

Definition Consolidate (q : MemoryConsolidationRequest J) : Op bool :=
  posting "/v1/consolidate" (SerializeConsolidationRequest q)
    (fun rt resp _ =>
       (rt, is_ok (j <-- envelope (J := J) resp ;;
                   _ <-- over json_get_int "processedEvents" 0 j ;; _ <-- over json_get_int "savedSummaries" 0 j ;;
                   _ <-- over json_get_int "savedEntities" 0 j ;; over json_get_int "savedRelations" 0 j))).

Definition SearchMemory (q : MemorySearchRequest J) : Op (list (MemorySearchHit J)) :=
  posting "/v1/search" (SerializeSearchRequest q)
    (fun rt resp _ =>
       (rt, match (j <-- envelope resp ;; DeserializeSearchHits j) with Ok hits => hits | Throw _ => [] end)).

(** Stats of the server with the client's failures added, or those alone. *)
Definition add_failures (rt : HttpMemoryRuntime) (s : MemoryStats J) : MemoryStats J :=
  let c := circuit_ rt in
  mkMemoryStats (st_events s) (st_payloads s) (st_summaries s) (st_entities s) (st_relations s)
    (appendFailures s + cb_appendFailures c) (writeFailures s + cb_writeFailures c)
    (buildContextFailures s + cb_buildContextFailures c) (st_metadata s).
Definition GetStats : Op (MemoryStats J) :=
  getting "/v1/stats"
    (fun rt resp =>
       add_failures rt
         (match (j <-- envelope resp ;; DeserializeStats j) with Ok s => s | Throw _ => default_MemoryStats end)).
End Operations.

(** ** The circuit breaker *)

(** A call that reached the server: when it ended, and whether it succeeded. *)
Record CallRecord := mkCallRecord { call_end : Z; call_ok : bool }.

(** The failures since the last success; the newest call is first. *)
Fixpoint failures_in_row (h : list CallRecord) : Z :=
  match h with
  | [] => 0
  | c :: h => if call_ok c then 0 else failures_in_row h + 1
  end.

(** What the breaker promises: it is open for the cooldown after a failure that is at
    least the [threshold]-th in a row. *)
Definition breaker_open (threshold cooldown : Z) (h : list CallRecord) (now : Z) : bool :=
  match h with
  | [] => false
  | c :: _ => negb (call_ok c) && (threshold <=? failures_in_row h) && (now <? call_end c + cooldown)
  end.

Section Breaker.
Context {X : Type} `{Curl X}.
Variable now_ms : X -> Z.

(** The retry loop without a breaker. *)
Fixpoint tries (once : X -> X * HttpResponse) (n attempt : nat) (policy : RetryPolicy) (x : X)
    : X * res HttpResponse :=
  match n with
  | O => (x, Val no_response)
  | S n =>
      let '(x1, resp) := once x in
      if succeeded resp || negb (hr_isRetryable resp) || Nat.eqb n 0 then (x1, Val resp)
      else
        let '(x2, slept) := log_and_sleep attempt policy x1 in
        match slept with
        | None => (x2, Undefined)
        | Some _ => tries once n (S attempt) policy x2
        end
  end.

(** A call of a client with the breaker of [breaker_open] around that loop, with the
    history of the calls so far. *)
Definition guarded_call (threshold cooldown : Z) (policy : RetryPolicy) (once : X -> X * HttpResponse)
    (h : list CallRecord) (x : X) : list CallRecord * X * res HttpResponse :=
  if breaker_open threshold cooldown h (now_ms x) then (h, x, Val no_response)
  else
    match tries once (Z.to_nat (1 + maxRetries policy)) 0 policy x with
    | (x1, Val resp) => (mkCallRecord (now_ms x1) (succeeded resp) :: h, x1, Val resp)
    | (x1, r) => (h, x1, r)
    end.

(** Calls one after the other: their responses, and what is left. *)
Fixpoint http_calls (calls : list (X -> X * HttpResponse)) (rt : HttpMemoryRuntime) (x : X)
    : HttpMemoryRuntime * X * res (list HttpResponse) :=
  match calls with
  | [] => (rt, x, Val [])
  | once :: calls =>
      match http_call now_ms once rt x with
      | (rt1, x1, Val resp) =>
          match http_calls calls rt1 x1 with
          | (rt2, x2, Val resps) => (rt2, x2, Val (resp :: resps))
          | (rt2, x2, r) => (rt2, x2, r)
          end
      | (rt1, x1, _) => (rt1, x1, Undefined)
      end
  end.
Fixpoint guarded_calls (threshold cooldown : Z) (policy : RetryPolicy) (calls : list (X -> X * HttpResponse))
    (h : list CallRecord) (x : X) : list CallRecord * X * res (list HttpResponse) :=
  match calls with
  | [] => (h, x, Val [])
  | once :: calls =>
      match guarded_call threshold cooldown policy once h x with
      | (h1, x1, Val resp) =>
          match guarded_calls threshold cooldown policy calls h1 x1 with
          | (h2, x2, Val resps) => (h2, x2, Val (resp :: resps))
          | (h2, x2, r) => (h2, x2, r)
          end
      | (h1, x1, _) => (h1, x1, Undefined)
      end
  end.

(** The clock does not go back, whatever is done. *)
Definition clock_forward (calls : list (X -> X * HttpResponse)) : Prop :=
  (forall x, 0 <= now_ms x) /\
  (forall once x, once ∈ calls -> now_ms x <= now_ms (once x).1) /\
  (forall ms x, now_ms x <= now_ms (sleep_ms ms x)) /\
  (forall n x, now_ms x <= now_ms (random_upto n x).1).

(** The numbers of the distribution are in its range. *)
Definition random_in_range : Prop := forall n (x : X), 0 <= n -> 0 <= (random_upto n x).2 <= n.

Lemma backoff_clock attempt policy (x : X) :
  (forall n x, now_ms x <= now_ms (random_upto n x).1) ->
  now_ms x <= now_ms (ComputeBackoffDelayMs attempt policy x).1.
Proof.
  intros Hr. unfold ComputeBackoffDelayMs. destruct (double_times _ _); [|done].
  destruct (withJitter policy); [|done]. destruct (_ <? 0); [done|].
  specialize (Hr (Z.quot (Z.min z (maxDelayMs policy)) 2) x). by destruct (random_upto _ x).
Qed.

Lemma sleep_clock attempt policy (x : X) :
  (forall n x, now_ms x <= now_ms (random_upto n x).1) -> (forall ms x, now_ms x <= now_ms (sleep_ms ms x)) ->
  now_ms x <= now_ms (log_and_sleep attempt policy x).1.
Proof.
  intros Hr Hs.
  assert (forall x, now_ms x <= now_ms (SleepBackoff attempt policy x).1) as Hb.
  { intros y. unfold SleepBackoff. pose proof (backoff_clock attempt policy y Hr) as Hc.
    destruct (ComputeBackoffDelayMs attempt policy y) as [y1 [ms|]]; [|done]. cbn in *. specialize (Hs ms y1). lia. }
  unfold log_and_sleep. destruct (logs_info x); [|apply Hb].
  pose proof (backoff_clock attempt policy x Hr) as Hc.
  destruct (ComputeBackoffDelayMs attempt policy x) as [x1 [ms|]]; [|done]. cbn in *. specialize (Hb x1). lia.
Qed.

Lemma sleep_defined attempt policy (x : X) :
  random_in_range ->
  0 <= baseDelayMs policy -> baseDelayMs policy * 2 ^ Z.of_nat attempt < 2 ^ 31 -> 0 <= maxDelayMs policy < 2 ^ 30 ->
  exists x1, log_and_sleep attempt policy x = (x1, Some tt).
Proof.
  intros Hr Hb Hd Hm.
  assert (forall x, exists x1, SleepBackoff attempt policy x = (x1, Some tt)) as Hs.
  { intros y. unfold SleepBackoff. destruct (backoff_defined attempt policy y Hr Hb Hd Hm) as (y1 & d & -> & _).
    by eexists. }
  unfold log_and_sleep. destruct (logs_info x); [|apply Hs].
  destruct (backoff_defined attempt policy x Hr Hb Hd Hm) as (x1 & d & -> & _). apply Hs.
Qed.

Lemma tries_clock once n attempt policy (x : X) :
  (forall x, now_ms x <= now_ms (once x).1) ->
  (forall ms x, now_ms x <= now_ms (sleep_ms ms x)) -> (forall n x, now_ms x <= now_ms (random_upto n x).1) ->
  now_ms x <= now_ms (tries once n attempt policy x).1.
Proof.
  intros Ho Hs Hr. revert attempt x; induction n as [|n IH]; intros attempt x; cbn [tries]; [done|].
  specialize (Ho x). destruct (once x) as [x1 resp]. cbn in Ho. destruct (_ || _); [done|].
  pose proof (sleep_clock attempt policy x1 Hr Hs) as Hl.
  destruct (log_and_sleep attempt policy x1) as [x2 [u|]]; cbn in *; [specialize (IH (S attempt) x2)|]; lia.
Qed.

Lemma tries_defined once n attempt rt (x : X) :
  random_in_range -> (attempt + n <= 23)%nat ->
  exists x1 resp, tries once n attempt (memory_policy rt) x = (x1, Val resp).
Proof.
  intros Hr. revert attempt x; induction n as [|n IH]; intros attempt x Hn; cbn [tries]; [by eexists _, _|].
  destruct (once x) as [x1 resp]. destruct (Nat.eqb_spec n 0) as [->|Hn0].
  { rewrite orb_true_r. by eexists _, _. }
  destruct (_ || _); [by eexists _, _|].
  assert (2 ^ Z.of_nat attempt <= 2 ^ 21) by (apply Z.pow_le_mono_r; lia).
  destruct (sleep_defined attempt (memory_policy rt) x1) as (x2 & ->); cbn; [done | lia..|]. apply IH. lia.
Qed.

(** What a call leaves in the breaker. *)
Definition settle (rt : HttpMemoryRuntime) (x1 : X) (r : res HttpResponse) : HttpMemoryRuntime :=
  match r with
  | Val resp => if succeeded resp then set_circuit (set_failures 0 (circuit_ rt)) rt else count_failure now_ms rt x1
  | _ => rt
  end.

Lemma attempts_tries once n attempt rt (x : X) :
  http_attempts now_ms once (S n) attempt rt x =
  let '(x1, r) := tries once (S n) attempt (memory_policy rt) x in (settle rt x1 r, x1, r).
Proof.
  revert attempt x; induction n as [|n IH]; intros attempt x.
  - cbn. destruct (once x) as [x1 resp]. unfold settle.
    destruct (succeeded resp) eqn:E; cbn; rewrite ?orb_true_r; cbn; by rewrite E.
  - cbn [http_attempts tries]. destruct (once x) as [x1 resp].
    destruct (succeeded resp) eqn:E; cbn [orb]; [cbn; by rewrite E|].
    destruct (negb (hr_isRetryable resp) || Nat.eqb (S n) 0); [cbn; by rewrite E|].
    destruct (log_and_sleep attempt (memory_policy rt) x1) as [x2 [u|]]; [|done].
    apply IH.
Qed.

(** The runtime's counters tell the history [h]. *)
Definition tells (rt : HttpMemoryRuntime) (h : list CallRecord) (x : X) : Prop :=
  consecutiveFailures (circuit_ rt) = failures_in_row h /\
  match h with
  | mkCallRecord t false :: _ =>
      if circuitThreshold_ rt <=? failures_in_row h then openUntilMs (circuit_ rt) = t + circuitCooldownMs_ rt
      else openUntilMs (circuit_ rt) <= now_ms x
  | _ => openUntilMs (circuit_ rt) <= now_ms x
  end.

Lemma tells_open rt h x :
  tells rt h x ->
  (now_ms x <? openUntilMs (circuit_ rt)) = breaker_open (circuitThreshold_ rt) (circuitCooldownMs_ rt) h (now_ms x).
Proof.
  intros [_ Ho]. unfold breaker_open.
  destruct h as [|[t [|]] h]; cbn [call_ok call_end negb andb]; [by apply Z.ltb_ge..|].
  destruct (_ <=? _); cbn [andb]; [by rewrite Ho | by apply Z.ltb_ge].
Qed.

Lemma settle_tells rt h x x1 resp :
  tells rt h x -> openUntilMs (circuit_ rt) <= now_ms x -> now_ms x <= now_ms x1 ->
  tells (settle rt x1 (Val resp)) (mkCallRecord (now_ms x1) (succeeded resp) :: h) x1.
Proof.
  intros [Hn _] Ho Hx. unfold tells. cbn [settle failures_in_row call_ok].
  destruct (succeeded resp); [cbn; split; [done | lia]|].
  unfold count_failure. cbn [circuit_ set_circuit consecutiveFailures set_failures circuitThreshold_ circuitCooldownMs_].
  rewrite Hn. destruct (_ <=? _); cbn; split; try done. lia.
Qed.

Lemma settle_policy rt x1 r :
  circuitThreshold_ (settle rt x1 r) = circuitThreshold_ rt /\
  circuitCooldownMs_ (settle rt x1 r) = circuitCooldownMs_ rt /\
  maxRetries_ (settle rt x1 r) = maxRetries_ rt.
Proof. destruct r; [|done..]. cbn. by destruct (succeeded _). Qed.

Lemma http_call_guarded once rt (x : X) h :
  clock_forward [once] -> random_in_range -> 0 <= maxRetries_ rt <= 22 -> tells rt h x ->
  exists h1 x1 resp,
    guarded_call (circuitThreshold_ rt) (circuitCooldownMs_ rt) (memory_policy rt) once h x = (h1, x1, Val resp) /\
    exists rt1, http_call now_ms once rt x = (rt1, x1, Val resp) /\ tells rt1 h1 x1 /\
      circuitThreshold_ rt1 = circuitThreshold_ rt /\ circuitCooldownMs_ rt1 = circuitCooldownMs_ rt /\
      maxRetries_ rt1 = maxRetries_ rt.
Proof.
  intros (_ & Ho & Hs & Hr) Hrand Hm Ht. unfold guarded_call, http_call.
  rewrite <- (tells_open rt h x Ht). destruct (Z.ltb_spec (now_ms x) (openUntilMs (circuit_ rt))).
  { eexists _, _, _. split; [done|]. by eexists. }
  replace (maxRetries (memory_policy rt)) with (maxRetries_ rt) by done.
  destruct (tries_defined once (Z.to_nat (1 + maxRetries_ rt)) 0 rt x Hrand) as (x1 & resp & E); [lia|].
  assert (now_ms x <= now_ms x1) as Hx.
  { pose proof (tries_clock once (Z.to_nat (1 + maxRetries_ rt)) 0 (memory_policy rt) x) as Hc.
    rewrite E in Hc. apply Hc; [|done..]. intros y. apply Ho. by left. }
  replace (Z.to_nat (1 + maxRetries_ rt)) with (S (Z.to_nat (maxRetries_ rt))) in * by lia.
  rewrite attempts_tries, E. eexists _, _, _. split; [done|]. eexists. split; [done|].
  split; [by apply (settle_tells rt h x) | apply settle_policy].
Qed.

Lemma http_calls_guarded calls rt (x : X) h :
  clock_forward calls -> random_in_range -> 0 <= maxRetries_ rt <= 22 -> tells rt h x ->
  exists h1 x1 resps rt1,
    guarded_calls (circuitThreshold_ rt) (circuitCooldownMs_ rt) (memory_policy rt) calls h x = (h1, x1, Val resps) /\
    http_calls calls rt x = (rt1, x1, Val resps) /\ tells rt1 h1 x1 /\
    circuitThreshold_ rt1 = circuitThreshold_ rt /\ circuitCooldownMs_ rt1 = circuitCooldownMs_ rt.
Proof.
  revert rt x h; induction calls as [|once calls IH]; intros rt x h Hc Hrand Hm Ht.
  { by eexists _, _, _, _. }
  destruct Hc as (H0 & Ho & Hs & Hr). cbn [http_calls guarded_calls].
  destruct (http_call_guarded once rt x h) as (h1 & x1 & resp & -> & rt1 & -> & Ht1 & E1 & E2 & E3);
    [|done..|].
  { split_and!; [done | | done..]. intros ? y ->%list_elem_of_singleton. apply Ho. left. }
  destruct (IH rt1 x1 h1) as (h2 & x2 & resps & rt2 & Eg & Ehc & Ht2 & E4 & E5); [|done| by rewrite E3 | done|].
  { split_and!; [done | | done..]. intros f y Hf. apply Ho. by right. }
  unfold memory_policy in *. rewrite E1, E2, E3 in Eg. rewrite Eg, Ehc, <- E1, <- E2. by eexists _, _, _, _.
Qed.

(** C20.  The circuit breaker.  From a fresh runtime any sequence of requests has the
    responses, and leaves the world, of the plain retry loop behind the breaker of
    [breaker_open]: a call is answered without a transfer exactly when the last call
    that was let through failed as at least the threshold-th failure in a row and the
    cooldown since it has not passed, and every other call is made.  In particular
    every call returns; the counter of the runtime is the number of failures since
    the last success.  The clock must not go back, and the jitter be in range; up to
    22 retries the delays do not overflow. *)
Theorem circuit_breaker_refines (rt : HttpMemoryRuntime) (calls : list (X -> X * HttpResponse)) (x : X) :
  clock_forward calls -> random_in_range -> 0 <= maxRetries_ rt <= 22 -> circuit_ rt = fresh_circuit ->
  exists h x1 resps rt1,
    guarded_calls (circuitThreshold_ rt) (circuitCooldownMs_ rt) (memory_policy rt) calls [] x = (h, x1, Val resps) /\
    http_calls calls rt x = (rt1, x1, Val resps) /\
    consecutiveFailures (circuit_ rt1) = failures_in_row h /\
    (now_ms x1 <? openUntilMs (circuit_ rt1)) =
      breaker_open (circuitThreshold_ rt) (circuitCooldownMs_ rt) h (now_ms x1).
Proof.
  intros Hc Hrand Hm Hf.
  destruct (http_calls_guarded calls rt x [] Hc Hrand Hm) as (h & x1 & resps & rt1 & Eg & Eh & Ht & E1 & E2).
  { unfold tells. rewrite Hf. split; [done|]. apply Hc. }
  exists h, x1, resps, rt1. split_and!; [done.. | apply Ht|].
  rewrite <- E1, <- E2. by apply tells_open.
Qed.
End Breaker.

(** ** What the server sends *)

Section Documents.
Context {J : Type} `{Json J}.

Definition message_json (m : MemoryMessage) : J :=
  j_fields [("role", j_string (mm_role m)); ("content", j_string (mm_content m));
            ("toolCallId", j_string (mm_toolCallId m)); ("toolName", j_string (mm_toolName m));
            ("payloadRef", j_string (mm_payloadRef m))].
Definition entity_json (e : MemoryEntity J) : J :=
  j_fields [("id", j_string (me_id e)); ("agentId", j_string (me_agentId e));
            ("entityType", j_string (entityType e)); ("name", j_string (me_name e));
            ("summary", j_string (me_summary e)); ("confidence", j_float (me_confidence e));
            ("isActive", j_bool (isActive e)); ("supersededByEntityId", j_string (supersededByEntityId e));
            ("supersededEntityId", j_string (supersededEntityId e)); ("sourceRefs", string_array (me_sourceRefs e));
            ("metadata", me_metadata e); ("createdAt", j_string (me_createdAt e));
            ("updatedAt", j_string (me_updatedAt e))].
Definition relation_json (r : MemoryRelation J) : J :=
  j_fields [("id", j_string (mr_id r)); ("agentId", j_string (mr_agentId r));
            ("fromEntityId", j_string (fromEntityId r)); ("relationType", j_string (relationType r));
            ("toEntityId", j_string (toEntityId r)); ("confidence", j_float (mr_confidence r));
            ("sourceRefs", string_array (mr_sourceRefs r)); ("metadata", mr_metadata r);
            ("createdAt", j_string (mr_createdAt r)); ("updatedAt", j_string (mr_updatedAt r))].
Definition payload_json (p : MemoryPayloadRef J) : J :=
  j_fields [("agentId", j_string (mp_agentId p)); ("sessionId", j_string (mp_sessionId p));
            ("uri", j_string (mp_uri p)); ("contentType", j_string (mp_contentType p));
            ("summary", j_string (mp_summary p)); ("toolName", j_string (mp_toolName p));
            ("originalChars", j_int (originalChars p)); ("metadata", mp_metadata p);
            ("createdAt", j_string (mp_createdAt p))].
Definition package_json (pkg : MemoryContextPackage J) : J :=
  j_fields [("messages", j_array (map message_json (pk_messages pkg))); ("memoryText", j_string (memoryText pkg));
            ("entities", j_array (map entity_json (pk_entities pkg)));
            ("relations", j_array (map relation_json (pk_relations pkg)));
            ("payloadRefs", j_array (map payload_json (payloadRefs pkg)));
            ("citations", string_array (citations pkg)); ("metadata", pk_metadata pkg)].
Definition context_json (pkg : MemoryContextPackage J) : J :=
  j_fields [("ok", j_bool true); ("context", package_json pkg)].

(** The numbers of a package fit their types. *)
Definition package_ok (pkg : MemoryContextPackage J) : Prop :=
  (forall e, e ∈ pk_entities pkg -> is_float (me_confidence e)) /\
  (forall r, r ∈ pk_relations pkg -> is_float (mr_confidence r)) /\
  (forall p, p ∈ payloadRefs pkg -> is_int (originalChars p)).

Context `{!JsonLaws J}.

Lemma over_array_j_fields {A} (decode : J -> outcome A) (k : string) (l : list (string * J)) :
  over_array decode k (j_fields l) =
  match assoc_last k l with
  | Some v => match json_view v with JArray l => outcome_map decode l | _ => Ok [] end
  | None => Ok []
  end.
Proof.
  unfold over_array. rewrite array_field_j_fields. destruct (assoc_last k l); [|done]. by destruct (json_view j).
Qed.

Lemma outcome_map_strings (l : list string) : outcome_map get_string (map (j_string : string -> J) l) = Ok l.
Proof. apply outcome_map_ok. intros s _. apply get_string_j_string. Qed.

Lemma get_float_j_float (f : spec_float) : is_float f -> json_get_float (j_float f : J) = Ok f.
Proof. intros Hf. apply get_float_ok; [apply view_j_float | done]. Qed.

Local Ltac field :=
  first [rewrite over_j_fields | rewrite over_array_j_fields]; cbn [assoc_last String.eqb Ascii.eqb Bool.eqb];
  rewrite ?get_string_j_string, ?get_bool_j_bool, ?view_j_array, ?outcome_map_strings,
    ?get_float_j_float, ?get_int_j_int by done;
  cbn [obind].

Lemma message_back m : decode_message (message_json m) = Ok m.
Proof. unfold decode_message, message_json. repeat field. by destruct m. Qed.

Lemma entity_back e : is_float (me_confidence e) -> decode_entity (entity_json e) = Ok e.
Proof. intros Hf. unfold decode_entity, entity_json, over_metadata, string_array. repeat field. by destruct e. Qed.

Lemma relation_back r : is_float (mr_confidence r) -> decode_relation (relation_json r) = Ok r.
Proof. intros Hf. unfold decode_relation, relation_json, over_metadata, string_array. repeat field. by destruct r. Qed.

Lemma payload_back p : is_int (originalChars p) -> decode_payload (payload_json p) = Ok p.
Proof. intros Hp. unfold decode_payload, payload_json, over_metadata. repeat field. by destruct p. Qed.

Lemma package_back pkg : package_ok pkg -> DeserializeContextPackage (context_json pkg) = Ok pkg.
Proof.
  intros (He & Hr & Hp). unfold DeserializeContextPackage, context_json. rewrite jfield_j_fields.
  cbn [assoc_last String.eqb Ascii.eqb Bool.eqb]. unfold package_json, over_metadata, string_array.
  repeat field. rewrite (outcome_map_ok _ message_json) by (intros; apply message_back). cbn [obind].
  rewrite (outcome_map_ok _ entity_json) by (intros; by apply entity_back, He). cbn [obind].
  rewrite (outcome_map_ok _ relation_json) by (intros; by apply relation_back, Hr). cbn [obind].
  rewrite (outcome_map_ok _ payload_json) by (intros; by apply payload_back, Hp). cbn [obind].
  by destruct pkg.
Qed.

Lemma envelope_ok (j : J) (resp : HttpResponse) :
  hr_status resp = 200 -> json_parse (hr_body resp) = Ok j -> IsSuccessEnvelope j = true -> envelope resp = Ok j.
Proof. intros Hs Hp Hk. unfold envelope. rewrite Hs, Hp. cbn. by rewrite Hk. Qed.

Lemma context_envelope pkg : IsSuccessEnvelope (context_json pkg) = true.
Proof. unfold IsSuccessEnvelope, context_json. rewrite jfield_j_fields. cbn. by rewrite view_j_bool. Qed.

Lemma event_plain (e : MemoryEvent) :
  utf8 (ev_agentId e) -> utf8 (ev_sessionId e) -> utf8 (ev_storeCursor e) -> utf8 (ev_timestamp e) ->
  json_plain (SerializeEvent (sanitize_event e) : J).
Proof.
  intros Ha Hs Hc Ht. apply json_plain_fields. intros k v Hk.
  plain_fields; (split; [by apply utf8_ascii|]); try (apply json_plain_string; cbn; auto with jw; fail).
  - apply json_plain_string. destruct (ev_type _); by apply utf8_ascii.
  - apply json_plain_object. intros ? ?. by rewrite lookup_empty.
Qed.
End Documents.

Section MemoryCalls.
Context {J : Type} `{JsonLaws J} {X : Type} `{Curl X}.
Variable now_ms : X -> Z.
Variable mktime : tm -> Z.
Variable time : X -> Z.
Local Notation BuildContext := (BuildContext (J := J) (X := X) now_ms mktime time).
Local Notation AppendEvent := (AppendEvent (J := J) (X := X) now_ms).

Lemma http_post_ok path text (x x1 : X) rt resp :
  openUntilMs (circuit_ rt) <= now_ms x -> 0 <= maxRetries_ rt ->
  PerformBody (memory_request rt path ["Content-Type: application/json"; "Accept: application/json"] text) x
    = (x1, resp) -> statusCode resp = 200 -> isCurlError resp = false ->
  HttpPost now_ms path text rt x =
  (set_circuit (set_failures 0 (circuit_ rt)) rt, x1, Val (mkHttpResponse 200 (rs_body resp) false false)).
Proof.
  intros Ho Hm E Hs Hc. unfold HttpPost, http_call. destruct (Z.ltb_spec (now_ms x) (openUntilMs (circuit_ rt))); [lia|].
  replace (Z.to_nat (1 + maxRetries_ rt)) with (S (Z.to_nat (maxRetries_ rt))) by lia. cbn [http_attempts].
  unfold DoHttpPostOnce. rewrite E. unfold http_response. rewrite Hs, Hc. done.
Qed.

(** A context reaches the framework as the server keeps it.  When the server
    answers the posted request with the document of a package whose numbers fit their
    types, [BuildContext] returns that package, field by field, less the expired event
    entities and what names them, and the failures in a row are forgotten. *)
Theorem context_received (rt : HttpMemoryRuntime) (q : MemoryContextRequest J) (pkg : MemoryContextPackage J)
    (text body : string) (indent : option nat) (x x1 : X) (resp : CurlResponse) :
  json_dump None (SerializeContextRequest q) = Ok text ->
  openUntilMs (circuit_ rt) <= now_ms x -> 0 <= maxRetries_ rt ->
  PerformBody (memory_request rt "/v1/context" ["Content-Type: application/json"; "Accept: application/json"] text) x
    = (x1, resp) -> statusCode resp = 200 -> isCurlError resp = false ->
  rs_body resp = body -> json_dump indent (context_json pkg) = Ok body ->
  json_plain (context_json pkg) -> package_ok pkg ->
  BuildContext q rt x =
  (set_circuit (set_failures 0 (circuit_ rt)) rt, x1,
   Val (FilterExpiredEventEntities mktime (hm_config rt) (time x1) pkg).1).
Proof.
  intros Hq Ho Hm E Hs Hc <- Hb Hp Hok. unfold HttpMemory.BuildContext, posting. rewrite Hq.
  rewrite (http_post_ok _ _ _ _ _ _ Ho Hm E Hs Hc).
  rewrite (envelope_ok (context_json pkg)); [|done | by eapply parse_dump | apply context_envelope].
  cbn [obind]. rewrite package_back by done. done.
Qed.

(** Appending an event never throws.  Whatever bytes its role, content, tool name
    and payload reference hold, an event with UTF-8 ids and dates is sent repaired,
    and every ending of the request, time-outs, error pages and unreadable documents
    included, is the [bool] returned: on [false] exactly one append failure is
    counted, on [true] none. *)
Theorem append_event_total (rt : HttpMemoryRuntime) (event : MemoryEvent) (x : X) :
  utf8 (ev_agentId event) -> utf8 (ev_sessionId event) ->
  utf8 (ev_storeCursor event) -> utf8 (ev_timestamp event) ->
  random_in_range (X := X) -> maxRetries_ rt <= 22 ->
  exists text rt1 x1 b,
    json_dump None (SerializeEvent (sanitize_event event) : J) = Ok text /\
    AppendEvent event rt x = (rt1, x1, Val b) /\
    cb_appendFailures (circuit_ rt1) = cb_appendFailures (circuit_ rt) + (if b then 0 else 1) /\
    (now_ms x < openUntilMs (circuit_ rt) -> x1 = x /\ b = false).
Proof.
  intros Ha Hs Hc Ht Hr Hm. destruct (dump_ok None _ (event_plain event Ha Hs Hc Ht)) as (text & Hd).
  exists text. unfold HttpMemory.AppendEvent, posting. rewrite Hd. unfold HttpPost, http_call.
  destruct (Z.ltb_spec (now_ms x) (openUntilMs (circuit_ rt))) as [Hlt|Hge].
  { eexists _, x, false. split_and!; done. }
  destruct (Z.to_nat (1 + maxRetries_ rt)) as [|n] eqn:En.
  { eexists _, x, false. split_and!; [done..| lia]. }
  rewrite attempts_tries.
  destruct (tries_defined (DoHttpPostOnce rt "/v1/events" text) (S n) 0 rt x Hr) as (x1 & resp & ->); [lia|].
  assert (forall r, cb_appendFailures (circuit_ (settle now_ms rt x1 r)) = cb_appendFailures (circuit_ rt)) as Hk.
  { intros [r| |]; [|done..]. cbn. destruct (succeeded r); [done|]. unfold count_failure.
    by destruct (_ <=? _). }
  destruct (envelope resp).
  - exists (settle now_ms rt x1 (Val resp)), x1, true. split_and!; [done | done | rewrite Hk; lia | lia].
  - exists (append_failed (settle now_ms rt x1 (Val resp))), x1, false. split_and!; [done | done | | lia].
    change (cb_appendFailures (circuit_ (settle now_ms rt x1 (Val resp))) + 1
      = cb_appendFailures (circuit_ rt) + 1). by rewrite Hk.
Qed.
End MemoryCalls.

(** ** Witnesses *)

Ltac plain_node :=
  first
    [ apply json_plain_string | by (eapply plain_int; apply view_j_int) | by (eapply plain_bool; apply view_j_bool)
    | by (eapply plain_float; [apply view_j_float | split; [reflexivity | exact I]])
    | apply json_plain_fields; intros ? ? ?; plain_fields; (split; [by apply utf8_ascii|])
    | apply json_plain_object; let Hx := fresh in intros ? ? Hx; by rewrite lookup_empty in Hx
    | apply json_plain_array; let Hx := fresh in
        intros ? Hx; cbn in Hx; repeat (apply elem_of_cons in Hx as [->|Hx]; [|]); [..| by apply elem_of_nil in Hx] ].

Section Example.
Context {J : Type} `{JsonLaws J}.
Definition ex_entity (id ty : string) : MemoryEntity J :=
  mkMemoryEntity id "a" ty "" "" (S754_finite false 4503599627370496 (-52)) true "" "" ["s:1"] (j_object ∅) "" "".
Definition ex_package : MemoryContextPackage J :=
  mkMemoryContextPackage [mkMemoryMessage "user" "hi" "" "" ""] "- rain (event, x)"
    [ex_entity "rain" "event"; ex_entity "tea" "drink"] [] [] ["c"] (j_object ∅).

Lemma ex_package_ok : package_ok ex_package.
Proof.
  assert (is_float (S754_finite false 4503599627370496 (-52))) as Hone
    by (split; [by split | by exists (S754_finite false 8388608 (-23))]).
  split_and!; intros e He; cbn in He; [|by apply elem_of_nil in He..].
  do 2 (apply elem_of_cons in He as [->|He]; [exact Hone|]). by apply elem_of_nil in He.
Qed.

Lemma ex_package_plain : json_plain (context_json ex_package).
Proof. repeat plain_node; by apply utf8_ascii. Qed.
End Example.

#[local] Instance ex_json0 : Json JsonTree.json := JsonTree.instance [].
#[local] Instance ex_laws : JsonLaws JsonTree.json := JsonTree.laws [] ltac:(by intros ? ?%elem_of_nil).

Definition ex_reply : string := JsonTree.dump (context_json ex_package).

(** A world that is its clock; a request takes 5 ms. *)
#[local] Instance ex_curl : Curl Z := {|
  curl_handle := fun _ => true;
  curl_easy_perform := fun _ x => (x + 5, [ex_reply], CURLE_OK, 200);
  curl_easy_strerror := fun _ => "";
  curl_easy_escape := fun s => s;
  curl_easy_unescape := Some;
  curl_elapse := fun x => x;
  random_upto := fun _ x => (x, 0);
  sleep_ms := fun ms x => x + Z.max 0 ms;
  logs_info := fun _ => false
|}.
Definition ex_clock (x : Z) : Z := Z.max 0 x.
Definition ex_memory : MemoryConfig :=
  mkMemoryConfig true "" "" "" "" "http://s/" 0 0 0 0 0 0 false 0 [] false "" "" "" "" "" "" 0 (S754_zero false) 0
    ["event"] 7 default_ConfigNode.
Definition ex_runtime : HttpMemoryRuntime := mkHttpMemoryRuntime ex_memory "http://s" "" 5 1 2 1000 fresh_circuit.
Definition ex_call (status : Z) (x : Z) : Z * HttpResponse :=
  (x + 5, mkHttpResponse status "" (IsRetryableHttpStatus status) false).
Definition ex_calls : list (Z -> Z * HttpResponse) := [ex_call 503; ex_call 404; ex_call 200; ex_call 200].

(** The first call is tried twice and fails, the second too, the others are skipped. *)
Example ex_responses :
  (fun '(rt, x, r) => (x, openUntilMs (circuit_ rt),
     match r with Val l => map hr_status l | _ => [] end)) (http_calls ex_clock ex_calls ex_runtime 0)
  = (415, 1415, [503; 404; 0; 0]).
Proof. vm_compute. reflexivity. Qed.

Lemma circuit_breaker_refines_witness :
  exists h x1 resps rt1,
    guarded_calls ex_clock 2 1000 (memory_policy ex_runtime) ex_calls [] 0 = (h, x1, Val resps) /\
    http_calls ex_clock ex_calls ex_runtime 0 = (rt1, x1, Val resps).
Proof.
  destruct (circuit_breaker_refines ex_clock ex_runtime ex_calls 0) as (h & x1 & resps & rt1 & Hg & Hc & _).
  - unfold clock_forward, ex_clock. cbn. split_and!; intros; try lia.
    repeat match goal with Hin : _ ∈ _ |- _ => apply elem_of_cons in Hin as [->|Hin]; [cbn; lia|] end.
    by apply elem_of_nil in H.
  - intros n x Hn. cbn. lia.
  - cbn. lia.
  - reflexivity.
  - exists h, x1, resps, rt1. split; [exact Hg | exact Hc].
Defined.

Definition ex_query : MemoryContextRequest JsonTree.json :=
  mkMemoryContextRequest "a" "s" "rain?" 100 [] (j_object ∅).

Lemma context_received_witness :
  BuildContext ex_clock (fun _ => 0) (fun x => x) ex_query ex_runtime 0 =
  (ex_runtime, 5, Val (FilterExpiredEventEntities (fun _ => 0) ex_memory 5 ex_package).1).
Proof.
  apply (context_received ex_clock (fun _ => 0) (fun x => x) ex_runtime ex_query ex_package
    (JsonTree.dump (SerializeContextRequest ex_query)) ex_reply None 0 5
    (mkCurlResponse 200 ex_reply CURLE_OK false "")); try reflexivity; try (cbn; lia).
  - apply ex_package_plain.
  - apply ex_package_ok.
Defined.

Definition ex_event : MemoryEvent :=
  mkMemoryEvent MESSAGE_APPENDED "a" "s" "user" (String "255" "hi") "" "" "" "" "".

Lemma append_event_total_witness :
  exists text rt1 x1 b,
    json_dump None (SerializeEvent (sanitize_event ex_event) : JsonTree.json) = Ok text /\
    AppendEvent (J := JsonTree.json) ex_clock ex_event ex_runtime 0 = (rt1, x1, Val b).
Proof.
  destruct (append_event_total (J := JsonTree.json) ex_clock ex_runtime ex_event 0)
    as (text & rt1 & x1 & b & Hd & Ha & _); try by apply utf8_ascii.
  - intros n x Hn. cbn. lia.
  - cbn. lia.
  - exists text, rt1, x1, b. split; [exact Hd | exact Ha].
Defined.
