(* ===== verification/MemoryRuntime.v ===== *)
(** * The memory runtime interface (include/memory_runtime.h)

    What the framework asks of a memory runtime, as a class with the laws both back ends
    keep, and its client: the callbacks a session hands to its context engine
    (src/session/session_manager.cpp), and the tool that reads a stored payload back
    (memory_read_payload_tool.cpp).  HttpMemory is an instance here, BuiltinMemory in its
    own file. *)
From Stdlib Require Import ZArith Lia String Ascii List.
From stdpp Require Import base decidable list strings gmap.
From S2P Require Import Prelude Numbers Encoding Types JsonLib MemoryTypes EntityDecay Transport HttpMemory ContextEngine ContextEngineFacts JsonStorage HistoryStore.
Open Scope Z_scope.

(** What a model client of the host answers. *)
Record MemoryModelResult := mkModelResult {
  mmr_text : string;
  mmr_httpStatus : Z;
  mmr_errorCode : string;
  mmr_errorMessage : string;
  mmr_providerError : string
}.
(** A [MemoryModelClient]: the call it makes. *)
Definition ModelClient (X : Type) : Type := string -> X -> X * res MemoryModelResult.

(** [R] is the state of the runtime, [X] that of the world. *)
Class MemoryRuntime (R J X : Type) `{Json J} := {
  rt_config : R -> MemoryConfig;
  rt_AppendEvent : MemoryEvent -> R -> X -> R * X * res bool;
  rt_BuildContext : MemoryContextRequest J -> R -> X -> R * X * res (MemoryContextPackage J);
  rt_WritePayload : MemoryPayloadWriteRequest J -> R -> X -> R * X * res (MemoryPayloadWriteResult J);
  rt_ReadPayload : string -> R -> X -> R * X * res string;
  rt_Consolidate : MemoryConsolidationRequest J -> R -> X -> R * X * res bool;
  (** The overload with a model; [None] is the null pointer. *)
  rt_ConsolidateWith : MemoryConsolidationRequest J -> option (ModelClient X) -> R -> X -> R * X * res bool;
  rt_SearchMemory : MemorySearchRequest J -> R -> X -> R * X * res (list (MemorySearchHit J));
  rt_GetStats : R -> X -> R * X * res (MemoryStats J)
}.

(** What a runtime promises the session: an event that is not stored is counted, once, and
    the context it builds has been through the filter of expired event entities, or is
    empty and counted. *)
Class MemoryRuntimeLaws (R J X : Type) `{MemoryRuntime R J X} (mktime : tm -> Z) := {
  append_failures : R -> Z;
  build_failures : R -> Z;
  append_counted e r x r1 x1 ok :
    rt_AppendEvent e r x = (r1, x1, Val ok) ->
    append_failures r1 = append_failures r + (if ok : bool then 0 else 1) /\ rt_config r1 = rt_config r;
  context_filtered q r x r1 x1 pkg :
    rt_BuildContext q r x = (r1, x1, Val pkg) -> rt_config r1 = rt_config r /\
    (build_failures r1 = build_failures r /\
       (exists pkg0 now, pkg = (FilterExpiredEventEntities mktime (rt_config r) now pkg0).1) \/
     build_failures r1 = build_failures r + 1 /\ pkg = default_MemoryContextPackage)
}.

(** ** The HTTP runtime *)

Section Http.
Context {J X : Type} `{Json J, Curl X} (now_ms : X -> Z) (mktime : tm -> Z) (time : X -> Z).

(** The model given to a consolidation is ignored: the server has its own. *)
Definition http_runtime : MemoryRuntime HttpMemoryRuntime J X := {|
  rt_config := hm_config;
  rt_AppendEvent := HttpMemory.AppendEvent (J := J) now_ms;
  rt_BuildContext := HttpMemory.BuildContext now_ms mktime time;
  rt_WritePayload := HttpMemory.WritePayload now_ms;
  rt_ReadPayload := HttpMemory.ReadPayload (J := J) now_ms;
  rt_Consolidate := HttpMemory.Consolidate now_ms;
  rt_ConsolidateWith := fun q _ => HttpMemory.Consolidate now_ms q;
  rt_SearchMemory := HttpMemory.SearchMemory now_ms;
  rt_GetStats := HttpMemory.GetStats now_ms
|}.

Definition same_counters (rt rt1 : HttpMemoryRuntime) : Prop :=
  hm_config rt1 = hm_config rt /\ cb_appendFailures (circuit_ rt1) = cb_appendFailures (circuit_ rt) /\
  cb_buildContextFailures (circuit_ rt1) = cb_buildContextFailures (circuit_ rt).

Lemma count_failure_counters (rt : HttpMemoryRuntime) (x : X) : same_counters rt (count_failure now_ms rt x).
Proof. unfold count_failure. cbn. by destruct (circuitThreshold_ rt <=? _). Qed.

Lemma http_attempts_counters once n attempt (rt rt1 : HttpMemoryRuntime) (x x1 : X) (r : res HttpResponse) :
  http_attempts now_ms once n attempt rt x = (rt1, x1, r) -> same_counters rt rt1.
Proof.
  revert attempt rt x. induction n as [|n IH]; intros attempt rt x; cbn [http_attempts]; [by intros [= <- _ _]|].
  intros E. repeat case_match; simplify_eq; try done; try (by eapply IH);
    try (apply count_failure_counters); by destruct rt.
Qed.

Lemma posting_counters {A} (path : string) (body : J) handle (rt rt1 : HttpMemoryRuntime) (x x1 : X) (a : A) :
  posting now_ms path body handle rt x = (rt1, x1, Val a) ->
  exists rt0 resp, same_counters rt rt0 /\ handle rt0 resp x1 = (rt1, a).
Proof.
  unfold posting, HttpPost, http_call. destruct (json_dump None body) as [text|]; [|done].
  destruct (now_ms x <? openUntilMs (circuit_ rt)).
  - destruct (handle rt no_response x) as [rt2 b] eqn:E. intros [= <- <- <-]. by exists rt, no_response.
  - destruct (http_attempts _ _ _ _ rt x) as [[rt0 x0] [resp| |]] eqn:E; try done.
    destruct (handle rt0 resp x0) as [rt2 b] eqn:Eh. intros [= <- <- <-].
    exists rt0, resp. split; [by eapply http_attempts_counters | done].
Qed.

Definition http_runtime_laws : @MemoryRuntimeLaws HttpMemoryRuntime J X _ http_runtime mktime.
Proof.
  refine {| append_failures := fun rt : HttpMemoryRuntime => cb_appendFailures (circuit_ rt);
            build_failures := fun rt : HttpMemoryRuntime => cb_buildContextFailures (circuit_ rt) |}.
  - intros e r x r1 x1 ok E. apply posting_counters in E as (rt0 & resp & (Hc & Ha & _) & Hh). cbn in *.
    destruct (envelope resp); simplify_eq; cbn; rewrite ?Ha, ?Hc; split; (lia || done).
  - intros q r x r1 x1 pkg E. apply posting_counters in E as (rt0 & resp & (Hc & _ & Hb) & Hh). cbn in *.
    destruct (j <-- envelope resp ;; DeserializeContextPackage j) as [pkg0|]; simplify_eq; cbn.
    + split; [done|]. left. split; [done|]. rewrite <- Hc. by eexists _, _.
    + split; [done|]. right. by rewrite Hb.
Defined.
End Http.

(** ** The memory of a session *)

(** The configuration the shared runtime is created with ([InitMemoryRuntime]). *)
Definition set_data_path (p : string) (c : MemoryConfig) : MemoryConfig :=
  mkMemoryConfig (mc_enabled c) (mc_mode c) (mc_provider c) p (serverUrl c) (serverApiKey c)
    (serverTimeoutSeconds c) (serverMaxRetries c) (serverCircuitThreshold c) (serverCircuitCooldownSeconds c)
    (tokenBudget c) (offloadToolResultChars c) (enablePayloadOffload c) (idleConsolidationSeconds c)
    (excludedConsolidationSessionIds c) (modelEnabled c) (modelFormatType c) (modelBaseUrl c) (modelApiKey c)
    (mc_modelName c) (modelOrganization c) (modelAnthropicVersion c) (modelTimeoutSeconds c) (modelTemperature c)
    (modelMaxTokens c) (eventEntityTypes c) (eventEntityTtlDays c) (mc_extraParams c).
Definition set_provider (p : string) (c : MemoryConfig) : MemoryConfig :=
  mkMemoryConfig (mc_enabled c) (mc_mode c) p (mc_dataPath c) (serverUrl c) (serverApiKey c)
    (serverTimeoutSeconds c) (serverMaxRetries c) (serverCircuitThreshold c) (serverCircuitCooldownSeconds c)
    (tokenBudget c) (offloadToolResultChars c) (enablePayloadOffload c) (idleConsolidationSeconds c)
    (excludedConsolidationSessionIds c) (modelEnabled c) (modelFormatType c) (modelBaseUrl c) (modelApiKey c)
    (mc_modelName c) (modelOrganization c) (modelAnthropicVersion c) (modelTimeoutSeconds c) (modelTemperature c)
    (modelMaxTokens c) (eventEntityTypes c) (eventEntityTtlDays c) (mc_extraParams c).

Definition runtime_config (config : AgentConfig) : MemoryConfig :=
  let c := memoryConfig config in
  let c := if str_empty (mc_dataPath c) then set_data_path (dataBasePath config) c else c in
  if String.eqb (mc_mode c) "server" then set_provider "http.server" c else c.

Definition InitMemoryRuntime {R : Type} (create : MemoryConfig -> outcome (option R)) (config : AgentConfig)
    : option R :=
  if negb (mc_enabled (memoryConfig config)) then None
  else match create (runtime_config config) with Ok r => r | Throw _ => None end.

Definition set_agent_id (agentId : string) (e : MemoryEvent) : MemoryEvent :=
  mkMemoryEvent (ev_type e) agentId (ev_sessionId e) (ev_role e) (ev_content e) (ev_toolCallId e)
    (ev_toolName e) (ev_payloadRef e) (ev_storeCursor e) (ev_timestamp e).

(** What the callbacks of every session share: the runtime, when there is one, and the
    local history. *)
Record MemoryWorld (R X : Type) := mkMemoryWorld {
  mw_runtime : option R;
  mw_history : option HistoryStore;
  mw_x : X
}.
Arguments mkMemoryWorld {R X}.
Arguments mw_runtime {R X}.
Arguments mw_history {R X}.
Arguments mw_x {R X}.

Section Session.
Context {R J X : Type} `{MR : MemoryRuntime R J X}.




(** The callback of [SetMemoryEventSink]: the runtime, or the local history without one.
    A lost event is only logged. *)
Definition sink_event (agentId now : string) (event : MemoryEvent) (w : MemoryWorld R X)
    : MemoryWorld R X * res unit :=
  match mw_runtime w with
  | Some r =>
      let '(r1, x1, a) := rt_AppendEvent (set_agent_id agentId event) r (mw_x w) in
      (mkMemoryWorld (Some r1) (mw_history w) x1,
       match a with Val _ => Val tt | Exc e => Exc e | Undefined => Undefined end)
  | None =>
      match mw_history w with
      | Some hs =>
          let '(hs1, o) := HistoryStore.AppendEvent (J := J) now event hs in
          (mkMemoryWorld None (Some hs1) (mw_x w), match o with Ok _ => Val tt | Throw e => Exc e end)
      | None => (w, Val tt)
      end
  end.

Fixpoint sink_events (agentId now : string) (es : list MemoryEvent) (w : MemoryWorld R X)
    : MemoryWorld R X * res unit :=
  match es with
  | [] => (w, Val tt)
  | e :: es =>
      match sink_event agentId now e w with
      | (w1, Val _) => sink_events agentId now es w1
      | r => r
      end
  end.

(** The context engine of a new session ([FindOrCreateEntry]). *)
Definition session_context (config : AgentConfig) (sessionId storagePath : string) : ContextConfig :=
  let c := contextConfig config in
  mkContextConfig (maxContextTokens c) (maxMessages c) sessionId storagePath (storageType c) (enableSummarization c).

Section Engine.
Context {S : Type} `{ContextStorage S}.

Definition session_engine (config : AgentConfig) (sessionId storagePath : string) (open : ContextConfig -> S)
    (w : MemoryWorld R X) : Engine S :=
  let e := (Initialize open (engine_new (session_context config sessionId storagePath))).1 in
  SetMemoryEventSink (match mw_runtime w, mw_history w with None, None => false | _, _ => true end) e.

(** [AddMessage] with the sink; an exception of the sink leaves it, with the message
    added. *)
Definition session_add (agentId now : string) (m : Message) (s : Engine S * MemoryWorld R X)
    : Engine S * MemoryWorld R X * res unit :=
  let '(e1, es) := AddMessage now s.1 m in
  let '(w1, a) := sink_events agentId now es s.2 in (e1, w1, a).

Fixpoint session_add_all (agentId : string) (l : list (string * Message)) (s : Engine S * MemoryWorld R X)
    : Engine S * MemoryWorld R X * res unit :=
  match l with
  | [] => (s, Val tt)
  | (now, m) :: l =>
      match session_add agentId now m s with
      | (e1, w1, Val _) => session_add_all agentId l (e1, w1)
      | r => r
      end
  end.
End Engine.
End Session.

(** ** memory_read_payload *)

Section ReadPayloadTool.
Context {R J X : Type} `{MR : MemoryRuntime R J X}.

Definition MakeError (msg : string) : outcome string :=
  json_dump None (j_fields [("ok", j_bool false); ("error", j_string msg)] : J).
Definition MakeOk (ref content : string) : outcome string :=
  json_dump None (j_fields [("ok", j_bool true); ("ref", j_string ref); ("content", j_string content);
                            ("chars", j_int (int_cast (Z.of_nat (String.length content))))] : J).

(** The [ref] of the call, or the message of the error. *)
Definition payload_ref (input : string) : string + string :=
  match json_parse input with
  | Throw e => inl ("invalid JSON: " +:+ e)
  | Ok j => match string_field (J := J) "ref" j with Some ref => inr ref | None => inl "'ref' string is required" end
  end.

Definition res_of {A} (o : outcome A) : res A := match o with Ok a => Val a | Throw e => Exc e end.

Definition MemoryReadPayload (runtime : option R) (input : string) (x : X) : option R * X * res string :=
  match runtime with
  | None => (None, x, res_of (MakeError "memory runtime is not available in this context"))
  | Some r =>
      match payload_ref input with
      | inl msg => (Some r, x, res_of (MakeError msg))
      | inr ref =>
          match rt_ReadPayload ref r x with
          | (r1, x1, Val content) =>
              (Some r1, x1, res_of (if str_empty content then MakeError ("payload not found or empty: " +:+ ref)
                                    else MakeOk ref content))
          | (r1, x1, Exc e) => (Some r1, x1, Exc e)
          | (r1, x1, Undefined) => (Some r1, x1, Undefined)
          end
      end
  end.
End ReadPayloadTool.

(** ** What the laws give a session *)

Section RuntimeFacts.
Context {R J X : Type} `{MR : MemoryRuntime R J X} {mktime : tm -> Z} `{!MemoryRuntimeLaws R J X mktime}.





Context {S : Type} `{ContextStorage S}.

Definition losses (oks : list bool) : Z := Z.of_nat (length (List.filter negb oks)).
Lemma losses_nil : losses [] = 0.
Proof. done. Qed.

Lemma session_add_runtime (agentId now : string) (m : Message) (e : Engine S) (r : R) hs (x : X) s1 :
  has_memoryEventSink_ e = true ->
  session_add agentId now m (e, mkMemoryWorld (Some r) hs x) = (s1, Val tt) ->
  exists r1 x1 oks, s1 = ((AddMessage now e m).1, mkMemoryWorld (Some r1) hs x1) /\
    length oks = (if IsValidMessage m then 1 else 0)%nat /\ append_failures r1 = append_failures r + losses oks.
Proof.
  intros Hs. unfold session_add, AddMessage. cbn [fst snd].
  destruct (IsValidMessage m); cbn [negb].
  - rewrite Hs. cbn [sink_events]. unfold sink_event. cbn [mw_runtime mw_x mw_history].
    destruct (rt_AppendEvent _ r x) as [[r1 x1] [ok| |]] eqn:E; [|done|done]. intros [= <-].
    exists r1, x1, [ok]. split; [done|]. split; [done|]. apply append_counted in E as [-> _].
    by destruct ok.
  - cbn. intros [= <-]. exists r, x, []. split; [done|]. split; [done|]. rewrite losses_nil. lia.
Qed.

Lemma AddMessage_sink (now : string) (e : Engine S) (m : Message) :
  has_memoryEventSink_ (AddMessage now e m).1 = has_memoryEventSink_ e.
Proof. unfold AddMessage. by destruct (negb (IsValidMessage m)). Qed.

Lemma AddMessage_buffer (now : string) (e : Engine S) (m : Message) :
  memoryBuffer_ (AddMessage now e m).1 = memoryBuffer_ e ++ (if IsValidMessage m then [stamp now m] else []).
Proof. unfold AddMessage. destruct (IsValidMessage m); cbn; [done | by rewrite app_nil_r]. Qed.

(** No message is lost without a trace.  While the messages of a session are added
    with a memory runtime, each valid one is in the engine's buffer, in order and time
    stamped, and offered to the runtime once; the counter of failed appends grows by
    exactly the number of those the runtime did not take. *)
Theorem losses_counted (agentId : string) (l : list (string * Message)) (e e1 : Engine S) (r : R)
    (hs : option HistoryStore) (x : X) (w1 : MemoryWorld R X) :
  has_memoryEventSink_ e = true ->
  session_add_all agentId l (e, mkMemoryWorld (Some r) hs x) = ((e1, w1), Val tt) ->
  memoryBuffer_ e1 = memoryBuffer_ e ++ stored_messages l /\
  exists r1 oks, mw_runtime w1 = Some r1 /\ length oks = length (stored_messages l) /\
    append_failures r1 = append_failures r + losses oks.
Proof.
  revert e r x. induction l as [|[now m] l IH]; intros e r x Hs E; cbn [session_add_all] in E.
  { injection E as <- <-. rewrite app_nil_r. split; [done|]. exists r, []. split; [done|]. split; [done|]. rewrite losses_nil. lia. }
  destruct (session_add agentId now m _) as [[e0 w0] [[]| |]] eqn:Ea; [|done|done].
  destruct (session_add_runtime agentId now m e r hs x (e0, w0) Hs Ea) as (r0 & x0 & oks & [= -> ->] & Hl & Hf).
  destruct (IH _ r0 x0 ltac:(by rewrite AddMessage_sink) E) as (Hb & r1 & oks1 & Hr & Hl1 & Hf1).
  rewrite Hb, AddMessage_buffer, <- app_assoc. unfold stored_messages in *. cbn [List.filter].
  split; [by destruct (IsValidMessage m)|]. exists r1, (oks ++ oks1). split; [done|]. split.
  - rewrite length_app, Hl, Hl1. by destruct (IsValidMessage m).
  - rewrite Hf1, Hf. unfold losses. rewrite List.filter_app, length_app. lia.
Qed.
End RuntimeFacts.

(** ** The local history of a session without a runtime *)

Definition message_entry (i : nat) (m : Message) : HistoryEntry :=
  mkHistoryEntry (Z.of_nat i + 1) (m_timestamp m) (m_role m) (m_content m) (m_toolCallId m) (m_toolName m)
    (m_payloadRef m).

Section HistoryFacts.
Context {R J X : Type} `{MR : MemoryRuntime R J X} `{JLaws : !JsonLaws J}.
Context {S : Type} `{ContextStorage S}.

(** The events of a run of [AddMessage] calls, with the time of each. *)
Definition session_events (sessionId : string) (l : list (string * Message)) : list (string * MemoryEvent) :=
  map (fun nm => (nm.1, message_event sessionId (stamp nm.1 nm.2))) (List.filter (fun nm => IsValidMessage nm.2) l).

Lemma session_add_history (agentId : string) (l : list (string * Message)) (e : Engine S) (hs hs1 : HistoryStore) (x : X) :
  has_memoryEventSink_ e = true ->
  append_all (J := J) (session_events (cc_sessionId (e_config e)) l) hs = (hs1, Ok tt) ->
  exists e1, session_add_all (R := R) (J := J) agentId l (e, mkMemoryWorld None (Some hs) x)
      = ((e1, mkMemoryWorld None (Some hs1) x), Val tt) /\
    memoryBuffer_ e1 = memoryBuffer_ e ++ stored_messages l.
Proof.
  revert e hs. induction l as [|[now m] l IH]; intros e hs Hs E.
  { injection E as <-. exists e. by rewrite app_nil_r. }
  unfold session_events, stored_messages in E |- *. cbn [List.filter fst snd session_add_all] in E |- *.
  unfold session_add, AddMessage. cbn [fst snd]. destruct (IsValidMessage m) eqn:Hv; cbn [negb].
  - rewrite Hs. cbn [sink_events]. unfold sink_event. cbn [mw_runtime mw_history mw_x].
    cbn [map append_all fst snd] in E. destruct (HistoryStore.AppendEvent _ _ hs) as [hs0 [[]|]]; [|done].
    destruct (IH (mkEngine (e_config e) (memoryBuffer_ e ++ [stamp now m])
      ((fun st => SaveMessage st (stamp now m)) <$> storage_ e) (memoryContextProvider_ e) true) hs0 eq_refl E)
      as (e1 & -> & Hb).
    exists e1. split; [done|]. rewrite Hb. cbn [memoryBuffer_]. by rewrite <- app_assoc.
  - cbn [sink_events]. by apply IH.
Qed.

Lemma event_logged (i : nat) (now sessionId : string) (m : Message) :
  logged (Z.of_nat i + 1) (now, message_event sessionId (stamp now m)) = message_entry i (stamp now m).
Proof.
  unfold logged, message_entry. cbn. unfold stamp. destruct (str_empty (m_timestamp m)) eqn:E; [|by rewrite E].
  cbn. by destruct (str_empty now).
Qed.

Lemma events_logged (sessionId : string) (l : list (string * Message)) :
  logged_all (session_events sessionId l) = imap message_entry (stored_messages l).
Proof.
  unfold logged_all, session_events, stored_messages.
  rewrite (List.filter_ext (fun '(_, m) => IsValidMessage m) (fun nm => IsValidMessage nm.2)) by (by intros []).
  generalize (List.filter (fun nm : string * Message => IsValidMessage nm.2) l) as k. intros k.
  change (map ?f k) with (f <$> k). rewrite !imap_fmap. apply imap_ext. intros i [now m] _. cbn -[logged].
  apply event_logged.
Qed.

(** Without a memory runtime the conversation itself is the memory.  The messages
    added to a session whose texts are UTF-8 are all taken, and reading the local history
    after any cursor gives exactly the later valid messages, in order, numbered from [1],
    with role, content, tool fields and time. *)
Theorem messages_recorded (agentId : string) (l : list (string * Message)) (e : Engine S) (x : X) :
  has_memoryEventSink_ e = true ->
  Forall utf8_event (session_events (cc_sessionId (e_config e)) l) -> Z.of_nat (length l) < 2 ^ 31 ->
  exists e1 hs1,
    session_add_all (R := R) (J := J) agentId l (e, mkMemoryWorld None (Some fresh_store) x)
      = ((e1, mkMemoryWorld None (Some hs1) x), Val tt) /\
    memoryBuffer_ e1 = memoryBuffer_ e ++ stored_messages l /\
    forall k, ReadUnprocessedHistory (J := J) false k hs1
      = Some (drop (Z.to_nat k) (imap message_entry (stored_messages l))).
Proof.
  intros Hs Hu Hl. set (evs := session_events (cc_sessionId (e_config e)) l) in *.
  assert (Z.of_nat (length evs) < 2 ^ 31) as Hn.
  { unfold evs, session_events. rewrite length_map.
    pose proof (filterb_length (fun nm : string * Message => IsValidMessage nm.2) l). lia. }
  destruct (append_all_ok (J := J) [] evs fresh_store fresh_ok Hu Hn) as (hs1 & E & Hd & _).
  destruct (session_add_history agentId l e fresh_store hs1 x Hs E) as (e1 & Ha & Hb).
  exists e1, hs1. split; [exact Ha|]. split; [exact Hb|]. intros k. rewrite <- (events_logged (cc_sessionId (e_config e))).
  by apply store_unprocessed.
Qed.
End HistoryFacts.

(** ** Examples *)

#[local] Instance ex_json1 : Json JsonTree.json := JsonTree.instance [].
#[local] Instance ex_laws1 : JsonLaws JsonTree.json := JsonTree.laws [] ltac:(by intros ? ?%elem_of_nil).
#[local] Existing Instance HttpMemory.ex_curl.
#[local] Instance ex_http : MemoryRuntime HttpMemoryRuntime JsonTree.json Z :=
  http_runtime HttpMemory.ex_clock (fun _ => 0) (fun x => x).
#[local] Instance ex_http_laws : MemoryRuntimeLaws HttpMemoryRuntime JsonTree.json Z (fun _ => 0) :=
  http_runtime_laws HttpMemory.ex_clock (fun _ => 0) (fun x => x).

Definition ex_world (r : option HttpMemoryRuntime) (hs : option HistoryStore) : MemoryWorld HttpMemoryRuntime Z :=
  mkMemoryWorld r hs 0.


#[local] Instance ex_disk_storage : ContextStorage JsonDisk := json_storage (J := JsonTree.json).
Definition ex_engine : Engine JsonDisk := mkEngine ContextEngineFacts.ex_cfg [] None None true.

Lemma losses_counted_witness :
  exists w1 r1 oks, (session_add_all (J := JsonTree.json) "a" (map (pair "t0") ex_turn)
      (ex_engine, ex_world (Some ex_runtime) None)).1.2 = w1 /\
    mw_runtime w1 = Some r1 /\ length oks = 5%nat /\ append_failures r1 = losses oks.
Proof.
  destruct (session_add_all (J := JsonTree.json) "a" (map (pair "t0") ex_turn) (ex_engine, ex_world (Some ex_runtime) None))
    as [[e1 w1] a] eqn:E.
  assert (a = Val tt) as -> by (vm_compute in E; by injection E).
  destruct (losses_counted (mktime := fun _ => 0) "a" (map (pair "t0") ex_turn) ex_engine e1 ex_runtime None 0 w1 eq_refl E)
    as (_ & r1 & oks & Hr & Hl & Hf).
  exists w1, r1, oks. split; [reflexivity|]. split; [exact Hr|]. split; [exact Hl | exact Hf].
Defined.

Lemma messages_recorded_witness :
  exists hs1, (session_add_all (R := HttpMemoryRuntime) (J := JsonTree.json) "a" (map (pair "t0") ex_turn)
      (ex_engine, ex_world None (Some fresh_store))).1.2 = ex_world None (Some hs1) /\
    ReadUnprocessedHistory (J := JsonTree.json) false 4 hs1
      = Some [mkHistoryEntry 5 "t0" "assistant" "noon" "" "" ""].
Proof.
  destruct (messages_recorded (R := HttpMemoryRuntime) (J := JsonTree.json) "a" (map (pair "t0") ex_turn) ex_engine 0)
    as (e1 & hs1 & E & _ & Hr).
  - reflexivity.
  - unfold session_events. apply Forall_forall. intros ev Hev. vm_compute in Hev.
    repeat (apply elem_of_cons in Hev as [->|Hev]; [split_and!; apply utf8_ascii; reflexivity|]).
    by apply elem_of_nil in Hev.
  - reflexivity.
  - exists hs1. unfold ex_world. rewrite E. split; [reflexivity | rewrite (Hr 4); reflexivity].
Defined.

(** The tool returns what the runtime has, or says why not. *)
Example ex_read_payload :
  (MemoryReadPayload (J := JsonTree.json) (Some ex_runtime) "{" 0).2
  = Val (JsonTree.dump (j_fields [("ok", j_bool false); ("error", j_string "invalid JSON: parse_error")])).
Proof. vm_compute. reflexivity. Qed.
