(* ===== verification/BuiltinMemory.v ===== *)
(** * The builtin memory runtime (src/memory/builtin_memory_runtime.cpp, type_bridge.cpp)

    An adapter between the runtime interface and the agent-memory-cpp library.  The
    library is a submodule whose code is not in the repository: it is the class
    [AgentMemory], with records for the fields of its structs the bridge reads and
    writes.  Every conversion of the bridge is a definition. *)
From Stdlib Require Import ZArith Lia String Ascii List Floats.SpecFloat.
From stdpp Require Import base decidable list strings gmap.
From S2P Require Import Prelude Numbers Encoding Types JsonLib MemoryTypes EntityDecay Transport HttpMemory MemoryRuntime ContextEngine ContextEngineFacts JsonStorage.
Open Scope Z_scope.

(** ** The library's types *)

Module AgentMemory.
Inductive EventType :=
  | A_SESSION_STARTED | A_SESSION_ENDED | A_MESSAGE_APPENDED | A_TOOL_CALL_STARTED | A_TOOL_CALL_FINISHED
  | A_PAYLOAD_OFFLOADED | A_CONSOLIDATION_REQUESTED | A_CONSOLIDATION_COMPLETED.

Record Config := mkConfig {
  ac_dataPath : string; ac_tokenBudget : Z; ac_offloadThresholdChars : Z; ac_enablePayloadOffload : bool;
  ac_model_enabled : bool; ac_formatType : string; ac_baseUrl : string; ac_apiKey : string; ac_modelName : string;
  ac_organization : string; ac_anthropicVersion : string; ac_timeoutSeconds : Z; ac_temperature : spec_float;
  ac_maxTokens : Z
}.

Section Types.
Context {J : Type}.
Record Event := mkEvent {
  ae_type : EventType; ae_agentId : string; ae_sessionId : string; ae_role : string; ae_content : string;
  ae_toolCallId : string; ae_toolName : string; ae_payloadRef : string; ae_storeCursor : string; ae_metadata : J;
  ae_timestamp : string
}.
Record Entity := mkEntity {
  an_id : string; an_agentId : string; an_entityType : string; an_name : string; an_summary : string;
  an_confidence : spec_float; an_isActive : bool; an_supersededBy : string; an_superseded : string;
  an_sourceRefs : list string; an_metadata : J; an_createdAt : string; an_updatedAt : string
}.
Record Relation := mkRelation {
  al_id : string; al_agentId : string; al_from : string; al_relationType : string; al_to : string;
  al_confidence : spec_float; al_sourceRefs : list string; al_metadata : J; al_createdAt : string;
  al_updatedAt : string
}.
Record PayloadRef := mkPayloadRef {
  ap_agentId : string; ap_sessionId : string; ap_uri : string; ap_contentType : string; ap_summary : string;
  ap_toolName : string; ap_originalChars : Z; ap_metadata : J; ap_createdAt : string
}.
Record Msg := mkMsg {
  am_role : string; am_content : string; am_toolCallId : string; am_toolName : string; am_payloadRef : string
}.
Record ContextPackage := mkContextPackage {
  ak_messages : list Msg; ak_memoryText : string; ak_entities : list Entity; ak_relations : list Relation;
  ak_payloadRefs : list PayloadRef; ak_citations : list string; ak_metadata : J
}.
Record ContextRequest := mkContextRequest {
  aq_agentId : string; aq_sessionId : string; aq_query : string; aq_tokenBudget : Z;
  aq_includeSections : list string; aq_metadata : J
}.
Record PayloadWriteRequest := mkPayloadWriteRequest {
  aw_agentId : string; aw_sessionId : string; aw_content : string; aw_contentType : string;
  aw_toolCallId : string; aw_toolName : string; aw_metadata : J
}.
Record PayloadWriteResult := mkPayloadWriteResult {
  ar_succeeded : bool; ar_offloaded : bool; ar_payload : PayloadRef; ar_replacementContent : string
}.
Record ConsolidationRequest := mkConsolidationRequest {
  ag_agentId : string; ag_sessionId : string; ag_maxEvents : Z; ag_forceReprocess : bool;
  ag_excludedSessionIds : list string; ag_metadata : J
}.
Record SearchRequest := mkSearchRequest {
  as_agentId : string; as_sessionId : string; as_query : string; as_limit : Z; as_includeSections : list string;
  as_metadata : J
}.
Record SearchHit := mkSearchHit {
  ah_id : string; ah_type : string; ah_content : string; ah_score : spec_float; ah_sourceRefs : list string;
  ah_metadata : J
}.
Record Stats := mkStats {
  at_events : Z; at_payloads : Z; at_summaries : Z; at_entities : Z; at_relations : Z; at_metadata : J
}.
End Types.
Arguments Event : clear implicits.
Arguments Entity : clear implicits.
Arguments Relation : clear implicits.
Arguments PayloadRef : clear implicits.
Arguments ContextPackage : clear implicits.
Arguments ContextRequest : clear implicits.
Arguments PayloadWriteRequest : clear implicits.
Arguments PayloadWriteResult : clear implicits.
Arguments ConsolidationRequest : clear implicits.
Arguments SearchRequest : clear implicits.
Arguments SearchHit : clear implicits.
Arguments Stats : clear implicits.

Record ModelInvokeResult := mkInvokeResult {
  ai_text : string; ai_httpStatus : Z; ai_errorCode : string; ai_errorMessage : string; ai_providerError : string
}.
(** The library's model client. *)
Definition Client (X : Type) : Type := string -> X -> X * res ModelInvokeResult.
End AgentMemory.
Import AgentMemory.

(** The operations of the library; each answers whether it succeeded, with what, and may
    throw. *)
Class AgentMemory (I J X : Type) := {
  am_create : Config -> X -> X * res I;
  am_AppendEvent : Event J -> I -> X -> I * X * res bool;
  am_BuildContext : ContextRequest J -> I -> X -> I * X * res (option (ContextPackage J));
  am_WritePayload : PayloadWriteRequest J -> I -> X -> I * X * res (PayloadWriteResult J);
  am_ReadPayload : string -> I -> X -> I * X * res (option string);
  am_Consolidate : ConsolidationRequest J -> I -> X -> I * X * res bool;
  am_ConsolidateWith : ConsolidationRequest J -> option (AgentMemory.Client X) -> I -> X -> I * X * res bool;
  am_SearchMemory : SearchRequest J -> I -> X -> I * X * res (option (list (SearchHit J)));
  am_GetStats : I -> X -> I * X * res (option (Stats J))
}.

(** ** The bridge *)

Definition ToAgentEventType (t : MemoryEventType) : EventType :=
  match t with
  | SESSION_STARTED => A_SESSION_STARTED
  | SESSION_ENDED => A_SESSION_ENDED
  | MESSAGE_APPENDED => A_MESSAGE_APPENDED
  | TOOL_CALL_STARTED => A_TOOL_CALL_STARTED
  | TOOL_CALL_FINISHED => A_TOOL_CALL_FINISHED
  | PAYLOAD_OFFLOADED => A_PAYLOAD_OFFLOADED
  | CONSOLIDATION_REQUESTED => A_CONSOLIDATION_REQUESTED
  | CONSOLIDATION_COMPLETED => A_CONSOLIDATION_COMPLETED
  end.

Definition ToAgentMemoryConfig (c : MemoryConfig) : Config :=
  mkConfig (mc_dataPath c) (tokenBudget c) (offloadToolResultChars c) (enablePayloadOffload c) (modelEnabled c)
    (modelFormatType c) (modelBaseUrl c) (modelApiKey c) (mc_modelName c) (modelOrganization c)
    (modelAnthropicVersion c) (modelTimeoutSeconds c) (modelTemperature c) (modelMaxTokens c).

Section Bridge.
Context {J : Type} `{Json J}.

Definition FromAgentEntity (e : Entity J) : MemoryEntity J :=
  mkMemoryEntity (an_id e) (an_agentId e) (an_entityType e) (an_name e) (an_summary e) (an_confidence e)
    (an_isActive e) (an_supersededBy e) (an_superseded e) (an_sourceRefs e) (an_metadata e) (an_createdAt e)
    (an_updatedAt e).
Definition FromAgentRelation (r : Relation J) : MemoryRelation J :=
  mkMemoryRelation (al_id r) (al_agentId r) (al_from r) (al_relationType r) (al_to r) (al_confidence r)
    (al_sourceRefs r) (al_metadata r) (al_createdAt r) (al_updatedAt r).
Definition FromAgentPayloadRef (p : PayloadRef J) : MemoryPayloadRef J :=
  mkMemoryPayloadRef (ap_agentId p) (ap_sessionId p) (ap_uri p) (ap_contentType p) (ap_summary p) (ap_toolName p)
    (ap_originalChars p) (ap_metadata p) (ap_createdAt p).
Definition FromAgentMessage (m : Msg) : MemoryMessage :=
  mkMemoryMessage (am_role m) (am_content m) (am_toolCallId m) (am_toolName m) (am_payloadRef m).
Definition FromAgentContextPackage (p : ContextPackage J) : MemoryContextPackage J :=
  mkMemoryContextPackage (map FromAgentMessage (ak_messages p)) (ak_memoryText p)
    (map FromAgentEntity (ak_entities p)) (map FromAgentRelation (ak_relations p))
    (map FromAgentPayloadRef (ak_payloadRefs p)) (ak_citations p) (ak_metadata p).
Definition FromAgentPayloadWriteResult (r : PayloadWriteResult J) : MemoryPayloadWriteResult J :=
  mkMemoryPayloadWriteResult (ar_succeeded r) (ar_offloaded r) (FromAgentPayloadRef (ar_payload r))
    (ar_replacementContent r).
Definition FromAgentSearchHit (h : SearchHit J) : MemorySearchHit J :=
  mkMemorySearchHit (ah_id h) (ah_type h) (ah_content h) (ah_score h) (ah_sourceRefs h) (ah_metadata h).
(** The counters of failures keep their default. *)
Definition FromAgentStats (s : Stats J) : MemoryStats J :=
  mkMemoryStats (at_events s) (at_payloads s) (at_summaries s) (at_entities s) (at_relations s) 0 0 0 (at_metadata s).

(** Events have no metadata in the repository: the empty object. *)
Definition ToAgentEvent (e : MemoryEvent) : Event J :=
  mkEvent (ToAgentEventType (ev_type e)) (ev_agentId e) (ev_sessionId e) (ev_role e) (ev_content e)
    (ev_toolCallId e) (ev_toolName e) (ev_payloadRef e) (ev_storeCursor e) (j_object ∅) (ev_timestamp e).
Definition ToAgentContextRequest (q : MemoryContextRequest J) : ContextRequest J :=
  mkContextRequest (cq_agentId q) (cq_sessionId q) (cq_query q) (cq_tokenBudget q) (cq_includeSections q)
    (cq_metadata q).
Definition ToAgentPayloadWriteRequest (q : MemoryPayloadWriteRequest J) : PayloadWriteRequest J :=
  mkPayloadWriteRequest (pw_agentId q) (pw_sessionId q) (pw_content q) (pw_contentType q) (pw_toolCallId q)
    (pw_toolName q) (pw_metadata q).
Definition ToAgentConsolidationRequest (q : MemoryConsolidationRequest J) : ConsolidationRequest J :=
  mkConsolidationRequest (cs_agentId q) (cs_sessionId q) (maxEvents q) (forceReprocess q) (excludedSessionIds q)
    (cs_metadata q).
Definition ToAgentSearchRequest (q : MemorySearchRequest J) : SearchRequest J :=
  mkSearchRequest (sq_agentId q) (sq_sessionId q) (sq_query q) (sq_limit q) (sq_includeSections q) (sq_metadata q).
End Bridge.

(** ** The runtime *)

Record BuiltinMemoryRuntime (I : Type) := mkBuiltin {
  bm_config : MemoryConfig;
  impl_ : I;
  appendFailures_ : Z;
  writeFailures_ : Z;
  buildContextFailures_ : Z
}.
Arguments mkBuiltin {I}.
Arguments bm_config {I}.
Arguments impl_ {I}.
Arguments appendFailures_ {I}.
Arguments writeFailures_ {I}.
Arguments buildContextFailures_ {I}.

Section Runtime.
Context {I J X : Type} `{Json J, AgentMemory I J X} (mktime : tm -> Z) (time : X -> Z).
Local Notation R := (BuiltinMemoryRuntime I).

Definition builtin_new (config : MemoryConfig) (x : X) : X * res R :=
  match am_create (ToAgentMemoryConfig config) x with
  | (x1, Val i) => (x1, Val (mkBuiltin config i 0 0 0))
  | (x1, Exc e) => (x1, Exc e)
  | (x1, Undefined) => (x1, Undefined)
  end.

Definition set_impl (i : I) (r : R) : R :=
  mkBuiltin (bm_config r) i (appendFailures_ r) (writeFailures_ r) (buildContextFailures_ r).
Definition count_append (r : R) : R :=
  mkBuiltin (bm_config r) (impl_ r) (appendFailures_ r + 1) (writeFailures_ r) (buildContextFailures_ r).
Definition count_write (r : R) : R :=
  mkBuiltin (bm_config r) (impl_ r) (appendFailures_ r) (writeFailures_ r + 1) (buildContextFailures_ r).
Definition count_build (r : R) : R :=
  mkBuiltin (bm_config r) (impl_ r) (appendFailures_ r) (writeFailures_ r) (buildContextFailures_ r + 1).

(** A call of the library, and what is made of its answer. *)
Definition calling {A B} (call : I -> X -> I * X * res A) (handle : A -> R -> X -> R * B) (r : R) (x : X)
    : R * X * res B :=
  match call (impl_ r) x with
  | (i, x1, Val a) => let '(r1, b) := handle a (set_impl i r) x1 in (r1, x1, Val b)
  | (i, x1, Exc e) => (set_impl i r, x1, Exc e)
  | (i, x1, Undefined) => (set_impl i r, x1, Undefined)
  end.

(** The fields that are repaired are those of the HTTP runtime. *)
Definition AppendEvent (event : MemoryEvent) : R -> X -> R * X * res bool :=
  calling (am_AppendEvent (ToAgentEvent (sanitize_event event)))
    (fun ok r _ => (if ok then r else count_append r, ok)).

Definition BuildContext (q : MemoryContextRequest J) : R -> X -> R * X * res (MemoryContextPackage J) :=
  calling (am_BuildContext (ToAgentContextRequest q))
    (fun a r x =>
       match a with
       | None => (count_build r, default_MemoryContextPackage)
       | Some p => (r, (FilterExpiredEventEntities mktime (bm_config r) (time x) (FromAgentContextPackage p)).1)
       end).

Definition sanitize_payload (q : MemoryPayloadWriteRequest J) : MemoryPayloadWriteRequest J :=
  mkMemoryPayloadWriteRequest (pw_agentId q) (pw_sessionId q) (FixStringUTF8 (pw_content q))
    (FixStringUTF8 (pw_contentType q)) (pw_toolCallId q) (FixStringUTF8 (pw_toolName q)) (pw_metadata q).

Definition WritePayload (q : MemoryPayloadWriteRequest J) : R -> X -> R * X * res (MemoryPayloadWriteResult J) :=
  calling (am_WritePayload (ToAgentPayloadWriteRequest (sanitize_payload q)))
    (fun a r _ => (if ar_succeeded a then r else count_write r, FromAgentPayloadWriteResult a)).

Definition ReadPayload (uri : string) : R -> X -> R * X * res string :=
  calling (am_ReadPayload uri) (fun a r _ => (r, default "" a)).

Definition Consolidate (q : MemoryConsolidationRequest J) : R -> X -> R * X * res bool :=
  calling (am_Consolidate (ToAgentConsolidationRequest q)) (fun ok r _ => (r, ok)).

(** [AgentMemoryModelClientAdapter]. *)
Definition adapter (hostClient : ModelClient X) : AgentMemory.Client X := fun prompt x =>
  match hostClient prompt x with
  | (x1, Val m) => (x1, Val (mkInvokeResult (mmr_text m) (mmr_httpStatus m) (mmr_errorCode m) (mmr_errorMessage m)
                              (mmr_providerError m)))
  | (x1, Exc e) => (x1, Exc e)
  | (x1, Undefined) => (x1, Undefined)
  end.

Definition ConsolidateWith (q : MemoryConsolidationRequest J) (client : option (ModelClient X))
    : R -> X -> R * X * res bool :=
  calling (am_ConsolidateWith (ToAgentConsolidationRequest q) (adapter <$> client)) (fun ok r _ => (r, ok)).

Definition SearchMemory (q : MemorySearchRequest J) : R -> X -> R * X * res (list (MemorySearchHit J)) :=
  calling (am_SearchMemory (ToAgentSearchRequest q))
    (fun a r _ => (r, match a with Some hits => map FromAgentSearchHit hits | None => [] end)).

Definition GetStats : R -> X -> R * X * res (MemoryStats J) :=
  calling am_GetStats
    (fun a r _ => (r,
       match a with
       | None => default_MemoryStats
       | Some s =>
           let s := FromAgentStats s in
           mkMemoryStats (st_events s) (st_payloads s) (st_summaries s) (st_entities s) (st_relations s)
             (appendFailures s + appendFailures_ r) (writeFailures s + writeFailures_ r)
             (buildContextFailures s + buildContextFailures_ r) (st_metadata s)
       end)).

#[export] Instance builtin_runtime : MemoryRuntime R J X := {|
  rt_config := bm_config;
  rt_AppendEvent := AppendEvent;
  rt_BuildContext := BuildContext;
  rt_WritePayload := WritePayload;
  rt_ReadPayload := ReadPayload;
  rt_Consolidate := Consolidate;
  rt_ConsolidateWith := ConsolidateWith;
  rt_SearchMemory := SearchMemory;
  rt_GetStats := GetStats
|}.
End Runtime.

(** ** It keeps the promises of the interface *)

Section Laws.
Context {I J X : Type} `{Json J, AgentMemory I J X} (mktime : tm -> Z) (time : X -> Z).
Local Notation R := (BuiltinMemoryRuntime I).

Lemma calling_val {A B} (call : I -> X -> I * X * res A) (handle : A -> R -> X -> R * B) (r r1 : R) (x x1 : X) (b : B) :
  calling call handle r x = (r1, x1, Val b) <->
  exists i a, call (impl_ r) x = (i, x1, Val a) /\ handle a (set_impl i r) x1 = (r1, b).
Proof.
  unfold calling. destruct (call (impl_ r) x) as [[i x0] [a| |]].
  - destruct (handle a (set_impl i r) x0) as [r0 b0] eqn:Eh. split.
    + intros [= <- <- <-]. by exists i, a.
    + intros (i' & a' & [= <- <- <-] & Eh'). congruence.
  - split; [done | by intros (? & ? & ? & _)].
  - split; [done | by intros (? & ? & ? & _)].
Qed.

Definition builtin_laws : @MemoryRuntimeLaws R J X _ (builtin_runtime mktime time) mktime.
Proof.
  refine {| append_failures := appendFailures_ : R -> Z; build_failures := buildContextFailures_ : R -> Z |}.
  - intros e r x r1 x1 ok (i & a & _ & E)%calling_val. destruct a; simplify_eq; cbn; split; (lia || done).
  - intros q r x r1 x1 pkg (i & a & _ & E)%calling_val. destruct a as [p|]; simplify_eq; cbn.
    + split; [done|]. left. split; [done|]. by eexists _, _.
    + split; [done|]. by right.
Defined.

(** ** What a session's messages are to the library *)

(** A run of [AppendEvent] calls of the library; an exception ends it. *)
Fixpoint library_appends (es : list (Event J)) (i : I) (x : X) : I * X * res (list bool) :=
  match es with
  | [] => (i, x, Val [])
  | e :: es =>
      match am_AppendEvent e i x with
      | (i1, x1, Val ok) =>
          match library_appends es i1 x1 with
          | (i2, x2, Val oks) => (i2, x2, Val (ok :: oks))
          | r => r
          end
      | (i1, x1, Exc e) => (i1, x1, Exc e)
      | (i1, x1, Undefined) => (i1, x1, Undefined)
      end
  end.

(** The library's event of a stored message. *)
Definition library_event (agentId sessionId : string) (m : Message) : Event J :=
  mkEvent A_MESSAGE_APPENDED agentId sessionId (FixStringUTF8 (m_role m)) (FixStringUTF8 (m_content m))
    (FixStringUTF8 (m_toolCallId m)) (FixStringUTF8 (m_toolName m)) (FixStringUTF8 (m_payloadRef m)) "" (j_object ∅)
    (m_timestamp m).

Context {S : Type} `{ContextStorage S}.
#[local] Instance section_runtime : MemoryRuntime R J X := builtin_runtime mktime time.

Lemma library_append (agentId sessionId : string) (m : Message) (r r1 : R) (x x1 : X) (ok : bool) :
  AppendEvent (set_agent_id agentId (message_event sessionId m)) r x = (r1, x1, Val ok) ->
  exists i, am_AppendEvent (library_event agentId sessionId m) (impl_ r) x = (i, x1, Val ok) /\ impl_ r1 = i /\
    appendFailures_ r1 = appendFailures_ r + losses [ok].
Proof.
  intros (i & a & E & Eh)%calling_val. exists i. destruct a; simplify_eq; (split; [exact E|]); cbn;
    (split; [done|]); unfold losses; cbn; lia.
Qed.

(** C22.  The library sees the conversation.  When the messages of a session are added
    with the builtin runtime, the library gets exactly one event for each valid message,
    in the order they were added: of the kind of an appended message, under the agent's
    and the session's id, stamped, with every text repaired to UTF-8; its state is what
    those calls make of it, and the events it refuses are the runtime's count of failed
    appends. *)
Theorem library_sees_conversation (agentId : string) (l : list (string * Message)) (e e1 : Engine S) (r : R)
    (hs : option HistoryStore.HistoryStore) (x : X) (w1 : MemoryWorld R X) :
  has_memoryEventSink_ e = true ->
  session_add_all agentId l (e, mkMemoryWorld (Some r) hs x) = ((e1, w1), Val tt) ->
  exists r1 oks, w1 = mkMemoryWorld (Some r1) hs (mw_x w1) /\
    library_appends (map (library_event agentId (cc_sessionId (e_config e))) (stored_messages l)) (impl_ r) x
      = (impl_ r1, mw_x w1, Val oks) /\
    appendFailures_ r1 = appendFailures_ r + losses oks.
Proof.
  revert e r x. induction l as [|[now m] l IH]; intros e r x Hs E; cbn [session_add_all] in E.
  { injection E as <- <-. exists r, []. split; [done|]. split; [done|]. unfold losses. cbn. lia. }
  unfold session_add, AddMessage in E. unfold stored_messages in *. cbn [fst snd List.filter] in *.
  destruct (IsValidMessage m) eqn:Hv; cbn [negb] in E; [|by apply IH in E].
  rewrite Hs in E. cbn [sink_events] in E. unfold sink_event in E. cbn [mw_runtime mw_x mw_history] in E.
  destruct (rt_AppendEvent _ r x) as [[r0 x0] [ok| |]] eqn:Ea; [|done|done].
  apply library_append in Ea as (i & Ea & <- & Hf).
  apply IH in E as (r1 & oks & Hw & El & Hf1); [|done]. cbn [e_config] in El.
  exists r1, (ok :: oks). split; [done|]. cbn [map library_appends]. rewrite Ea, El. split; [done|].
  rewrite Hf1, Hf. unfold losses. cbn [List.filter]. destruct ok; cbn [negb length]; lia.
Qed.
End Laws.

(** ** Examples *)

#[local] Instance ex_json2 : Json JsonTree.json := JsonTree.instance [].

(** A library that keeps a log of events, at most three of them. *)
#[local] Instance ex_agent_memory : AgentMemory (list (Event JsonTree.json)) JsonTree.json Z := {|
  am_create := fun _ x => (x, Val []);
  am_AppendEvent := fun e log x =>
    if decide (length log < 3)%nat then (log ++ [e], x + 1, Val true) else (log, x + 1, Val false);
  am_BuildContext := fun _ log x => (log, x, Val None);
  am_WritePayload := fun q log x =>
    (log, x, Val (mkPayloadWriteResult false false
                    (mkPayloadRef (aw_agentId q) (aw_sessionId q) "" "" "" "" 0 (j_object ∅) "") ""));
  am_ReadPayload := fun _ log x => (log, x, Val None);
  am_Consolidate := fun _ log x => (log, x, Val true);
  am_ConsolidateWith := fun _ _ log x => (log, x, Val true);
  am_SearchMemory := fun _ log x => (log, x, Val None);
  am_GetStats := fun log x => (log, x, Val (Some (mkStats (Z.of_nat (length log)) 0 0 0 0 (j_object ∅))))
|}.
#[local] Instance ex_builtin :
    MemoryRuntime (BuiltinMemoryRuntime (list (Event JsonTree.json))) JsonTree.json Z :=
  builtin_runtime (fun _ => 0) (fun x => x).
#[local] Instance ex_disk_storage2 : ContextStorage JsonStorage.JsonDisk := JsonStorage.json_storage (J := JsonTree.json).

Definition ex_empty_runtime : BuiltinMemoryRuntime (list (Event JsonTree.json)) :=
  mkBuiltin ex_memory [] 0 0 0.

Lemma library_sees_conversation_witness :
  exists r1 oks, (session_add_all (J := JsonTree.json) "a" (map (pair "t0") ContextEngineFacts.ex_turn)
      (ex_engine, mkMemoryWorld (Some ex_empty_runtime) None 0)).1.2 = mkMemoryWorld (Some r1) None 5 /\
    map ae_role (impl_ r1) = ["user"; "assistant"; "tool"] /\ appendFailures_ r1 = losses oks.
Proof.
  destruct (session_add_all (J := JsonTree.json) "a" (map (pair "t0") ContextEngineFacts.ex_turn)
      (ex_engine, mkMemoryWorld (Some ex_empty_runtime) None 0)) as [[e1 w1] a] eqn:E.
  assert (a = Val tt) as -> by (vm_compute in E; by injection E).
  destruct (library_sees_conversation (fun _ => 0) (fun x => x) "a" (map (pair "t0") ContextEngineFacts.ex_turn)
    ex_engine e1 ex_empty_runtime None 0 w1 eq_refl E) as (r1 & oks & Hw & El & Hf).
  assert (map ae_role (impl_ r1) = ["user"; "assistant"; "tool"] /\ mw_x w1 = 5) as [Hr Hx].
  { generalize dependent (impl_ r1). generalize dependent (mw_x w1). intros x1 Hw i El. vm_compute in El.
    by simplify_eq. }
  exists r1, oks. split; [by rewrite <- Hx|]. split; [exact Hr | exact Hf].
Defined.
