(* ===== verification/HtmlPages.v ===== *)
(** * Result pages of search engines (src/tools/builtin_tools/web_search_tool.cpp)

    The expressions the scrapers hand to std::regex, as lists of items with a
    backtracking matcher that has the priorities of ECMAScript; the text helpers; and the
    parser of each engine's page.  A page written in the format of DuckDuckGo's lite
    site is read back. *)
From Stdlib Require Import ZArith NArith Lia String Ascii List.
From stdpp Require Import base decidable list strings gmap.
From S2P Require Import Prelude Numbers Encoding Types JsonLib Transport.
Open Scope Z_scope.

(** ** Expressions *)

(** Every expression used is a sequence of characters without case, repeated classes of
    characters and groups that are captured. *)
Inductive item :=
  | Lit (c : ascii)
  | Rep (greedy : bool) (least : nat) (most : option nat) (p : ascii -> bool)
  | WordB
  | Open
  | Close.

Definition lit (s : string) : list item := map Lit (String.list_ascii_of_string s).
Definition quote : list item := [Lit DQUOTE].
Definition star (p : ascii -> bool) : list item := [Rep true 0 None p].
Definition plus (p : ascii -> bool) : list item := [Rep true 1 None p].
Definition group (r : list item) : list item := [Open] ++ r ++ [Close].
Definition but (cs : string) : ascii -> bool := fun c => negb (occurs c cs).
Definition any : ascii -> bool := fun _ => true.
(** [[\s\S]*?]. *)
Definition lazily : list item := [Rep false 0 None any].
Definition lazily_between (lo hi : nat) : list item := [Rep false lo (Some hi) any].

Definition is_word (c : ascii) : bool :=
  in_range 97 122 c || in_range 65 90 c || in_range 48 57 c || Ascii.eqb c "_".
Definition word_opt (o : option ascii) : bool := match o with Some c => is_word c | None => false end.
Definition head (s : string) : option ascii := match s with "" => None | String c _ => Some c end.

Section Rep.
Context {A : Type} (p : ascii -> bool) (greedy : bool) (k : option ascii -> string -> option A).

(** A class repeated, then what follows: more first when greedy. *)
Fixpoint rep (least : nat) (most : option nat) (prev : option ascii) (s : string) : option A :=
  let stop := match least with O => k prev s | S _ => None end in
  match s with
  | "" => stop
  | String c s' =>
      if p c && negb (bool_decide (most = Some 0%nat)) then
        let more := rep (pred least) (pred <$> most) (Some c) s' in
        if greedy then match more with Some a => Some a | None => stop end
        else match stop with Some a => Some a | None => more end
      else stop
  end.
End Rep.

(** The captures of a match at the start of [s], with what is left; [start] is where the
    open group began and [prev] the character before [s]. *)
Fixpoint matches (r : list item) (start : string) (caps : list string) (prev : option ascii) (s : string)
    : option (list string * string) :=
  match r with
  | [] => Some (caps, s)
  | Lit c :: r =>
      match s with
      | String d s' => if Ascii.eqb (tolower c) (tolower d) then matches r start caps (Some d) s' else None
      | "" => None
      end
  | Rep greedy least most p :: r => rep p greedy (matches r start caps) least most prev s
  | WordB :: r => if xorb (word_opt prev) (word_opt (head s)) then matches r start caps prev s else None
  | Open :: r => matches r s caps prev s
  | Close :: r => matches r start (caps ++ [str_take (String.length start - String.length s) start]) prev s
  end.

(** [regex_search]: the captures of the first match. *)
Fixpoint search_from (r : list item) (prev : option ascii) (s : string) : option (list string) :=
  match matches r "" [] prev s with
  | Some (caps, _) => Some caps
  | None => match s with "" => None | String c s' => search_from r (Some c) s' end
  end.
Definition search_first (r : list item) (s : string) : option (list string) := search_from r None s.

(** [sregex_iterator] over an expression that does not match the empty string: after a
    match, [skip] of its characters are passed over. *)
Fixpoint find_all (r : list item) (skip : nat) (prev : option ascii) (s : string) : list (list string) :=
  match s with
  | "" => []
  | String c s' =>
      match skip with
      | S n => find_all r n (Some c) s'
      | O =>
          match matches r "" [] prev s with
          | Some (caps, rest) => caps :: find_all r (String.length s' - String.length rest) (Some c) s'
          | None => find_all r 0 (Some c) s'
          end
      end
  end.
Definition iterate (r : list item) (s : string) : list (list string) := find_all r 0 None s.

(** [regex_replace] with a fixed text. *)
Fixpoint replace_from (r : list item) (t : string) (skip : nat) (prev : option ascii) (s : string) : string :=
  match s with
  | "" => ""
  | String c s' =>
      match skip with
      | S n => replace_from r t n (Some c) s'
      | O =>
          match matches r "" [] prev s with
          | Some (_, rest) => t +:+ replace_from r t (String.length s' - String.length rest) (Some c) s'
          | None => String c (replace_from r t 0 (Some c) s')
          end
      end
  end.
Definition regex_replace (r : list item) (t s : string) : string := replace_from r t 0 None s.

Definition cap (i : nat) (caps : list string) : string := nth i caps "".

(** ** Text *)

(** The character of the entity whose name and semicolon start [s], and how long they
    are. *)
Definition entity (s : string) : option (ascii * nat) :=
  match find_char ";" s 0 with
  | None => None
  | Some n =>
      if Nat.ltb 7 n then None
      else
        let ent := str_take n s in
        let named (t : string) := String.eqb ent t in
        if named "amp" then Some ("&"%char, S n)
        else if named "lt" then Some ("<"%char, S n)
        else if named "gt" then Some (">"%char, S n)
        else if named "quot" then Some (DQUOTE, S n)
        else if named "#39" || named "apos" then Some ("'"%char, S n)
        else if named "nbsp" then Some (" "%char, S n)
        else None
  end.

Fixpoint html_decode (skip : nat) (s : string) : string :=
  match s with
  | "" => ""
  | String c s' =>
      match skip with
      | S n => html_decode n s'
      | O =>
          if Ascii.eqb c "&" then
            match entity s' with
            | Some (d, n) => String d (html_decode n s')
            | None => String c (html_decode 0 s')
            end
          else String c (html_decode 0 s')
      end
  end.
Definition HtmlDecodeBasic (s : string) : string := html_decode 0 s.

Definition tagRe : list item := lit "<" ++ plus (but ">") ++ lit ">".
Definition wsRe : list item := plus is_space.

(** The text between the first and the last character that is not a blank. *)
Definition trim4 (s : string) : option string :=
  match find_if (fun c => negb (is_space4 c)) s, find_last_if (fun c => negb (is_space4 c)) s with
  | Some a, Some b => Some (substr s a (b - a + 1))
  | _, _ => None
  end.

Definition StripTags (s : string) : string :=
  let t := regex_replace tagRe " " s in
  let t := regex_replace wsRe " " t in
  match trim4 t with None => "" | Some t => HtmlDecodeBasic t end.

(** ** Rows *)

Record WebSearchResult := mkSearchResult { sr_title : string; sr_url : string; sr_snippet : string }.

Definition result_number (n : nat) : string := "Result " +:+ nat_to_string n.
Definition or_number (title : string) (n : nat) : string := if str_empty title then result_number n else title.

Section Pages.
Context {X : Type} `{Curl X} (x : X).

Definition DecodeDDGRedirect (href : string) : string :=
  match find_str "uddg=" href 0 with
  | None => if starts_with "//" href then "https:" +:+ href else href
  | Some pos =>
      let pos := (pos + 5)%nat in
      UrlDecode (match find_char "&" href pos with None => str_drop pos href | Some e => substr href pos (e - pos) end) x
  end.

Definition ddg_linkRe : list item :=
  lit "<a" ++ plus is_space ++ star (but ">") ++ lit "href=" ++ quote ++ group (plus (but dq)) ++ quote
  ++ star (but ">") ++ lit "class='result-link'" ++ star (but ">") ++ lit ">" ++ group lazily ++ lit "</a>".
Definition ddg_snippetRe : list item :=
  lit "<td" ++ plus is_space ++ lit "class='result-snippet'" ++ star (but ">") ++ lit ">" ++ group lazily ++ lit "</td>".

(** The first [maxResults] of what a parser that pairs by index has found. *)
Definition take_rows {A} (row : nat -> A -> WebSearchResult) (maxResults : Z) (l : list A) : list WebSearchResult :=
  imap row (take (Z.to_nat (Z.min (Z.of_nat (length l)) maxResults)) l).

Definition snippet_at (snippets : list (list string)) (i : nat) : string :=
  match snippets !! i with Some s => StripTags (cap 0 s) | None => "" end.

Definition ParseDdgLiteResults (body : string) (maxResults : Z) : list WebSearchResult :=
  let links := iterate ddg_linkRe body in
  let snippets := iterate ddg_snippetRe body in
  take_rows (fun i link =>
    mkSearchResult (or_number (StripTags (cap 1 link)) (S i)) (DecodeDDGRedirect (cap 0 link)) (snippet_at snippets i))
    maxResults links.

Definition sogou_titleRe : list item :=
  lit "<a" ++ plus (but ">") ++ lit "name=" ++ quote ++ lit "dttl" ++ quote ++ plus (but ">") ++ lit "href=" ++ quote
  ++ group (lit "/link?url=" ++ plus (but dq)) ++ quote ++ star (but ">") ++ lit ">" ++ group (lazily_between 5 400)
  ++ lit "</a>".
Definition sogou_snippetRe : list item :=
  lit "class=" ++ quote ++ lit "fz-mid space-txt" ++ star (but dq) ++ quote ++ star (but ">") ++ lit ">"
  ++ group (lazily_between 5 1000) ++ lit "</div>".

Definition ParseSogouResults (body : string) (maxResults : Z) : list WebSearchResult :=
  let titles := iterate sogou_titleRe body in
  let snippets := iterate sogou_snippetRe body in
  take_rows (fun i t =>
    mkSearchResult (or_number (StripTags (cap 1 t)) (S i)) ("https://www.sogou.com" +:+ cap 0 t) (snippet_at snippets i))
    maxResults titles.

Definition bing_blockRe : list item :=
  lit "<li" ++ plus (but ">") ++ lit "class=" ++ quote ++ star (but dq) ++ [WordB] ++ lit "b_algo" ++ [WordB]
  ++ star (but dq) ++ quote ++ star (but ">") ++ lit ">" ++ group lazily ++ lit "</li>".
Definition bing_titleRe : list item :=
  lit "<h2" ++ star (but ">") ++ lit ">" ++ star is_space ++ lit "<a" ++ plus (but ">") ++ lit "href=" ++ quote
  ++ group (plus (but dq)) ++ quote ++ star (but ">") ++ lit ">" ++ group lazily ++ lit "</a>".
Definition bing_snippetRe : list item :=
  lit "<p" ++ star (but ">") ++ lit ">" ++ group lazily ++ lit "</p>".

(** A loop that looks at candidates until enough rows are found. *)
Fixpoint collect {A} (row : nat -> A -> option WebSearchResult) (maxResults : Z) (l : list A)
    (rows : list WebSearchResult) : list WebSearchResult :=
  match l with
  | [] => rows
  | a :: l =>
      if Z.of_nat (length rows) <? maxResults then
        collect row maxResults l (match row (length rows) a with Some r => rows ++ [r] | None => rows end)
      else rows
  end.

Definition bing_row (n : nat) (caps : list string) : option WebSearchResult :=
  let block := cap 0 caps in
  match search_first bing_titleRe block with
  | None => None
  | Some tm =>
      Some (mkSearchResult (or_number (StripTags (cap 1 tm)) (S n)) (HtmlDecodeBasic (cap 0 tm))
              (match search_first bing_snippetRe block with Some sm => StripTags (cap 0 sm) | None => "" end))
  end.
Definition ParseBingResults (body : string) (maxResults : Z) : list WebSearchResult :=
  collect bing_row maxResults (iterate bing_blockRe body) [].

(** [s?]. *)
Definition optional (c : ascii) : list item := [Rep true 0 (Some 1%nat) (fun d => Ascii.eqb (tolower c) (tolower d))].
Definition baidu_titleRe : list item :=
  lit "<h3" ++ star (but ">") ++ lit ">" ++ star is_space ++ lit "<a" ++ plus (but ">") ++ lit "href=" ++ quote
  ++ group (lit "http" ++ optional "s" ++ lit "://" ++ plus (but dq)) ++ quote ++ star (but ">") ++ lit ">"
  ++ group (lazily_between 5 400) ++ lit "</a>".
Definition baidu_row (_ : nat) (caps : list string) : option WebSearchResult :=
  let href := cap 0 caps in
  if has_sub "baidu.com" href && negb (has_sub "/link?url=" href) then None
  else
    let title := StripTags (cap 1 caps) in
    if str_empty title then None else Some (mkSearchResult title href "").
Definition ParseBaiduResults (body : string) (maxResults : Z) : list WebSearchResult :=
  collect baidu_row maxResults (iterate baidu_titleRe body) [].

Context {J : Type} `{Json J}.

Definition underscores (s : string) : string := str_map (fun c => if Ascii.eqb c " " then "_"%char else c) s.
Definition wikipedia_row (_ : nat) (item : J) : option WebSearchResult :=
  match string_field "title" item with
  | None => None
  | Some title =>
      Some (mkSearchResult title ("https://en.wikipedia.org/wiki/" +:+ UrlEncode (underscores title) x)
              (match string_field "snippet" item with Some s => StripTags s | None => "" end))
  end.
Definition ParseWikipediaResults (jsonBody : string) (maxResults : Z) : list WebSearchResult :=
  if str_empty jsonBody then []
  else match json_parse jsonBody with
       | Throw _ => []
       | Ok j =>
           match jfield "query" j with
           | Some q => match array_field "search" q with
                       | Some items => collect wikipedia_row maxResults items []
                       | None => []
                       end
           | None => []
           end
       end.
End Pages.

(** ** The matcher *)

Definition all_in (p : ascii -> bool) (s : string) : Prop := forall c, occurs c s = true -> p c = true.

Lemma all_in_cons (p : ascii -> bool) (c : ascii) (s : string) :
  all_in p (String c s) <-> p c = true /\ all_in p s.
Proof.
  unfold all_in. cbn [occurs]. split.
  - intros Ha. split; [apply Ha; by rewrite Ascii.eqb_refl | intros d Hd; apply Ha; by rewrite Hd, orb_true_r].
  - intros [Hc Hs] d [Hd%Ascii.eqb_eq|Hd]%orb_true_iff; [by subst | by apply Hs].
Qed.

Lemma but_spec (c : ascii) (s : string) : occurs c s = false <-> all_in (but (String c "")) s.
Proof.
  unfold all_in, but. split.
  - intros Ho d Hd. cbn. rewrite orb_false_r. apply negb_true_iff, Ascii.eqb_neq. intros ->. congruence.
  - intros Ha. destruct (occurs c s) eqn:E; [|done]. apply Ha in E. cbn in E. by rewrite Ascii.eqb_refl in E.
Qed.

Section RepFacts.
Context {A : Type} (p : ascii -> bool) (k : option ascii -> string -> option A).

(** What is repeated, and what is left to the continuation. *)
Lemma rep_inv (greedy : bool) (v : A) (s : string) : forall (least : nat) (most : option nat) (prev : option ascii),
  rep p greedy k least most prev s = Some v ->
  exists a b prev1, s = a +:+ b /\ all_in p a /\ k prev1 b = Some v.
Proof.
  assert (forall least prev s, match least with O => k prev s | S _ => None end = Some v ->
    exists a b prev1, s = a +:+ b /\ all_in p a /\ k prev1 b = Some v) as Hstop.
  { intros [|?] ? ? E; [|done]. by eexists "", _, _. }
  induction s as [|c s IH]; intros least most prev; cbn [rep]; [by apply Hstop|].
  destruct (p c && _) eqn:Ep; [|by apply Hstop].
  apply andb_true_iff in Ep as [Ep _].
  assert (forall q, rep p greedy k q (pred <$> most) (Some c) s = Some v ->
    exists a b prev1, String c s = a +:+ b /\ all_in p a /\ k prev1 b = Some v) as Hmore.
  { intros q (a & b & prev1 & -> & Ha & Hk)%IH. exists (String c a), b, prev1. split; [done|]. split; [|done].
    by apply all_in_cons. }
  destruct greedy.
  - destruct (rep p true k _ _ _ s) eqn:E; [|by apply Hstop]. intros [= ->]. by eapply Hmore.
  - destruct (match least with O => _ | S _ => None end) eqn:E; [|by apply Hmore]. intros [= ->]. by eapply Hstop.
Qed.

(** Greedy: the longest repetition the continuation accepts. *)
Lemma rep_all_fail (least : nat) (s : string) : forall prev,
  (forall a b prev1, s = a +:+ b -> all_in p a -> k prev1 b = None) -> rep p true k least None prev s = None.
Proof.
  revert least. induction s as [|c s IH]; intros least prev Hf; cbn [rep].
  - destruct least; [by apply (Hf "") | done].
  - assert (match least with O => k prev (String c s) | S _ => None end = None) as Hs
      by (destruct least; [by apply (Hf "") | done]).
    destruct (p c) eqn:Ep; cbn [andb]; [|done]. rewrite bool_decide_false by done. cbn [negb fmap option_fmap option_map].
    rewrite IH; [done|]. intros a b prev1 -> Ha. apply (Hf (String c a)); [done | by apply all_in_cons].
Qed.

Lemma rep_greedy (a b : string) (v : A) (least : nat) (prev : option ascii) :
  all_in p a -> (least <= String.length a)%nat -> (forall prev1, k prev1 b = Some v) ->
  (forall b1 b2 prev1, b = b1 +:+ b2 -> b1 <> "" -> all_in p b1 -> k prev1 b2 = None) ->
  rep p true k least None prev (a +:+ b) = Some v.
Proof.
  intros Ha Hl Hk Hf. revert least prev Ha Hl. induction a as [|c a IH]; intros least prev Ha Hl.
  - cbn in Hl. assert (least = O) as -> by lia. change ("" +:+ b) with b.
    destruct b as [|c b]; cbn [rep]; [by apply Hk|].
    destruct (p c) eqn:Ep; cbn [andb]; [|by apply Hk]. rewrite bool_decide_false by done.
    cbn [negb pred fmap option_fmap option_map]. rewrite rep_all_fail; [by apply Hk|].
    intros b1 b2 prev1 -> Hb. apply (Hf (String c b1)); [done..|by apply all_in_cons].
  - apply all_in_cons in Ha as [Hc Ha]. cbn in Hl. change (String c a +:+ b) with (String c (a +:+ b)). cbn [rep].
    rewrite Hc, bool_decide_false by done. cbn [andb negb fmap option_fmap option_map].
    rewrite IH; [done | done | lia].
Qed.

(** Lazy: the shortest one. *)
Lemma rep_lazy (a b : string) (v : A) (prev : option ascii) :
  all_in p a -> (forall prev1, k prev1 b = Some v) ->
  (forall a1 a2 prev1, a = a1 +:+ a2 -> a2 <> "" -> k prev1 (a2 +:+ b) = None) ->
  rep p false k 0 None prev (a +:+ b) = Some v.
Proof.
  intros Ha Hk Hf. revert prev Ha Hf. induction a as [|c a IH]; intros prev Ha Hf.
  - change ("" +:+ b) with b. destruct b; cbn [rep]; rewrite Hk; [done | by destruct (_ && _)].
  - apply all_in_cons in Ha as [Hc Ha]. change (String c a +:+ b) with (String c (a +:+ b)). cbn [rep].
    rewrite Hc, bool_decide_false by done. cbn [andb negb pred fmap option_fmap option_map].
    pose proof (Hf "" (String c a) prev eq_refl ltac:(done)) as Hn. cbn in Hn. rewrite Hn.
    apply IH; [done|]. intros a1 a2 prev1 -> H2. by apply (Hf (String c a1)).
Qed.
End RepFacts.

Lemma lower_app (a b : string) : lower (a +:+ b) = lower a +:+ lower b.
Proof. unfold lower. induction a as [|c a IH]; cbn; [done | by rewrite IH]. Qed.

Lemma has_sub_skip (q : string) (c : ascii) (s : string) : has_sub q s = true -> has_sub q (String c s) = true.
Proof. intros (a & b & ->)%has_sub_spec. apply has_sub_spec. by exists (String c a), b. Qed.

Lemma has_sub_app_r (q a b : string) : has_sub q b = true -> has_sub q (a +:+ b) = true.
Proof. induction a; [done|]. intros Hb. apply has_sub_skip. auto. Qed.

Lemma has_sub_start (q s : string) : starts_with q s = true -> has_sub q s = true.
Proof. intros [t ->]%starts_with_spec. apply has_sub_spec. by exists "", t. Qed.

(** Whether the expression's first literal can match a text [w] before [rest], when
    [rest] starts with a character the literal has only in front. *)
Definition ends_at (d : ascii) (rest : string) : Prop := match rest with "" => True | String c _ => c = d end.

Lemma lit_starts (q : string) (r : list item) (d : ascii) (w rest start : string) caps (prev : option ascii) v :
  matches (lit q ++ r) start caps prev (w +:+ rest) = Some v ->
  ends_at d rest -> occurs (tolower d) (lower q) = false ->
  starts_with (lower q) (lower w) = true.
Proof.
  intros E Hd. revert prev w E. induction q as [|c q IH]; intros prev w E Ho; [done|].
  cbn in Ho. apply orb_false_iff in Ho as [Hc Ho].
  destruct w as [|e w].
  - cbn in E. destruct rest as [|e rest]; [done|]. cbn in Hd. subst e.
    destruct (Ascii.eqb_spec (tolower c) (tolower d)) as [Hcd|]; [|done].
    rewrite Hcd, Ascii.eqb_refl in Hc. done.
  - cbn in E. destruct (Ascii.eqb_spec (tolower c) (tolower e)) as [Hce|]; [|done].
    cbn [lower str_map starts_with]. change (str_map tolower q) with (lower q). change (str_map tolower w) with (lower w).
    rewrite Hce, Ascii.eqb_refl. cbn. by apply (IH (Some e)).
Qed.

(** The same with one character of the literal consumed first. *)
Lemma lit_starts_cons (c : ascii) (q : string) (r : list item) (d : ascii) (w rest start : string) caps prev v :
  matches (lit (String c q) ++ r) start caps prev (w +:+ rest) = Some v -> w <> "" ->
  ends_at d rest -> occurs (tolower d) (lower q) = false ->
  starts_with (lower (String c q)) (lower w) = true.
Proof.
  intros E Hw Hd Ho. destruct w as [|e w]; [done|]. cbn in E.
  destruct (Ascii.eqb_spec (tolower c) (tolower e)) as [Hce|]; [|done].
  cbn [lower str_map starts_with]. rewrite Hce, Ascii.eqb_refl. cbn.
  by apply (lit_starts q r d w rest start caps (Some e) v).
Qed.

Lemma lit_inv (q : string) (r : list item) start caps (prev : option ascii) (s : string) v :
  matches (lit q ++ r) start caps prev s = Some v ->
  exists u s1 prev1, s = u +:+ s1 /\ lower u = lower q /\ matches r start caps prev1 s1 = Some v.
Proof.
  revert prev s. induction q as [|c q IH]; intros prev s E; [by eexists "", s, prev|].
  cbn in E. destruct s as [|e s]; [done|].
  destruct (Ascii.eqb_spec (tolower c) (tolower e)) as [Hce|]; [|done].
  apply IH in E as (u & s1 & prev1 & -> & Hu & E). exists (String e u), s1, prev1. split; [done|]. split; [|done].
  cbn. unfold lower in Hu. by rewrite Hu, Hce.
Qed.

Lemma lit_here (q : string) (r : list item) start caps rest v :
  (forall prev, matches r start caps prev rest = v) ->
  forall prev, matches (lit q ++ r) start caps prev (q +:+ rest) = v.
Proof.
  intros Hr. induction q as [|c q IH]; intros prev; [by apply Hr|]. cbn. rewrite Ascii.eqb_refl. apply IH.
Qed.

(** ** The iterator *)

Definition blocked (r : list item) (w rest : string) : Prop :=
  forall a b prev, w = a +:+ b -> b <> "" -> matches r "" [] prev (b +:+ rest) = None.

Lemma blocked_cons r c w rest : blocked r (String c w) rest -> blocked r w rest.
Proof. intros Hb a b prev -> Hn. by apply (Hb (String c a)). Qed.

Lemma find_all_blocked (r : list item) (w rest : string) (l : list (list string)) :
  blocked r w rest -> (forall prev, find_all r 0 prev rest = l) -> forall prev, find_all r 0 prev (w +:+ rest) = l.
Proof.
  intros Hb Hl. induction w as [|c w IH]; intros prev; [by apply Hl|].
  change (String c w +:+ rest) with (String c (w +:+ rest)). cbn [find_all].
  pose proof (Hb "" (String c w) prev eq_refl ltac:(done)) as Hn. cbn in Hn. rewrite Hn. apply IH. by eapply blocked_cons.
Qed.

Lemma find_all_skip (r : list item) (w rest : string) (l : list (list string)) :
  (forall prev, find_all r 0 prev rest = l) -> forall prev, find_all r (String.length w) prev (w +:+ rest) = l.
Proof. intros Hl. induction w as [|c w IH]; intros prev; [by apply Hl|]. cbn. apply IH. Qed.

Lemma find_all_hit (r : list item) (w rest : string) (caps : list string) (l : list (list string)) :
  w <> "" -> (forall prev, matches r "" [] prev (w +:+ rest) = Some (caps, rest)) ->
  (forall prev, find_all r 0 prev rest = l) -> forall prev, find_all r 0 prev (w +:+ rest) = caps :: l.
Proof.
  intros Hw Hm Hl prev. destruct w as [|c w]; [done|]. specialize (Hm prev).
  change (String c w +:+ rest) with (String c (w +:+ rest)) in *. cbn [find_all]. rewrite Hm. f_equal.
  rewrite str_length_app, Nat.add_sub. by apply find_all_skip.
Qed.

(** A text without the first literal of the expression is passed over. *)
Lemma blocked_lit (c : ascii) (q : string) (r : list item) (w rest : string) :
  has_sub (lower (String c q)) (lower w) = false -> ends_at "<" rest -> occurs "<" (lower q) = false ->
  blocked (lit (String c q) ++ r) w rest.
Proof.
  intros Hs He Ho a b prev -> Hb. destruct (matches _ _ _ _ _) as [v|] eqn:E; [|done].
  eapply lit_starts_cons in E; [|done|exact He|exact Ho].
  rewrite lower_app, has_sub_app_r in Hs; [done | by apply has_sub_start].
Qed.

Lemma inside (d : ascii) (u b rest s : string) :
  b +:+ rest = u +:+ s -> ends_at d rest -> occurs d u = false -> exists b', b = u +:+ b' /\ s = b' +:+ rest.
Proof.
  revert b. induction u as [|c u IH]; intros b E Hd Ho; [by exists b|].
  cbn in Ho. apply orb_false_iff in Ho as [Hc Ho]. destruct b as [|e b].
  - destruct rest as [|e rest]; [done|]. cbn in E, Hd. injection E as -> _. subst d.
    by rewrite Ascii.eqb_refl in Hc.
  - injection E as -> E. destruct (IH b E Hd Ho) as (b' & -> & ->). by exists b'.
Qed.

Lemma occurs_lower (d : ascii) (u : string) : occurs (tolower d) (lower u) = false -> occurs d u = false.
Proof.
  induction u as [|c u IH]; [done|]. cbn. intros [Hc Hu]%orb_false_iff. rewrite (IH Hu), orb_false_r.
  destruct (Ascii.eqb_spec d c) as [->|]; [|done]. by rewrite Ascii.eqb_refl in Hc.
Qed.

Lemma blocked_tag (name attr : string) (c : ascii) (r : list item) (w rest : string) :
  has_sub (lower (String c attr)) (lower w) = false -> ends_at "<" rest ->
  occurs "<" (lower name) = false -> occurs "<" (lower (String c attr)) = false ->
  blocked (lit (String "<" name) ++ plus is_space ++ lit (String c attr) ++ r) w rest.
Proof.
  intros Hs He Hn Ha a b prev -> Hb. destruct (matches _ _ _ _ _) as [v|] eqn:E; [|done]. exfalso.
  apply lit_inv in E as (u & s1 & p1 & Eu & Hu & E). unfold plus in E. cbn [app matches] in E.
  apply rep_inv in E as (sp & s2 & p2 & -> & Hsp & E).
  destruct b as [|e b]; [done|]. destruct u as [|e' u]; [done|].
  cbn in Eu, Hu. injection Eu as <- Eu. injection Hu as _ Hu.
  destruct (inside "<" u b rest _ Eu He) as (b1 & -> & E1); [by apply occurs_lower; change (occurs "<" (str_map tolower u) = false); rewrite Hu|].
  destruct (inside "<" sp b1 rest s2 (eq_sym E1) He) as (b2 & -> & ->).
  { destruct (occurs "<" sp) eqn:Eo; [|done]. by apply Hsp in Eo. }
  apply (lit_starts (String c attr) r "<" b2 rest "" [] p2 v) in E; [|exact He|exact Ha].
  apply has_sub_start in E. rewrite lower_app, has_sub_app_r in Hs; [done|].
  change (String e (u +:+ sp +:+ b2)) with (String e "" +:+ (u +:+ sp +:+ b2)).
  rewrite !lower_app. by do 3 apply has_sub_app_r.
Qed.

(** ** A page of DuckDuckGo's lite site *)

Record DdgItem := mkDdgItem {
  di_before : string;
  di_href : string;
  di_title : string;
  di_between : string;
  di_snippet : string
}.
Definition quoted (s : string) : string := dq +:+ s +:+ dq.
Definition ddg_link (i : DdgItem) : string :=
  "<a rel=" +:+ quoted "nofollow" +:+ " href=" +:+ quoted (di_href i) +:+ " class='result-link'>" +:+ di_title i +:+ "</a>".
Definition ddg_snippet (i : DdgItem) : string := "<td class='result-snippet'>" +:+ di_snippet i +:+ "</td>".
Definition ddg_text (i : DdgItem) : string := di_before i +:+ ddg_link i +:+ di_between i +:+ ddg_snippet i.
Definition ddg_page (l : list DdgItem) (after : string) : string := fold_right (fun i s => ddg_text i +:+ s) after l.

(** Markup in which no other result begins. *)
Definition no_result (s : string) : Prop :=
  has_sub "<a" (lower s) = false /\ has_sub "class='result-snippet'" (lower s) = false.

(** What a page may hold: markup between the results without links of its own, an address
    without quotes and brackets, and texts that do not close their element. *)
Definition ddg_item_ok (i : DdgItem) : Prop :=
  no_result (di_before i) /\ no_result (di_between i) /\ no_result (di_snippet i) /\
  has_sub "class='result-snippet'" (lower (di_title i)) = false /\
  has_sub "</td>" (lower (di_snippet i)) = false /\ has_sub "</a>" (lower (di_title i)) = false /\
  di_href i <> "" /\ occurs DQUOTE (di_href i) = false /\ has_sub "class='result-snippet'" (lower (di_href i)) = false /\
  occurs ">" (di_href i) = false /\ has_sub "href=" (lower (di_href i)) = false.

Definition any_all (s : string) : all_in any s := fun _ _ => eq_refl.

Lemma closed_lazily (c : ascii) (q t rest start : string) caps (prev : option ascii) :
  has_sub (lower (String c q)) (lower t) = false -> occurs "<" (lower q) = false -> c = "<"%char ->
  matches (group lazily ++ lit (String c q)) start caps prev (t +:+ String c q +:+ rest)
  = Some (caps ++ [t], rest).
Proof.
  intros Hs Ho ->. cbn [group lazily app matches]. rewrite rep_lazy with (v := (caps ++ [t], rest)); [done|..].
  - apply any_all.
  - intros prev1. cbn [matches]. rewrite str_length_app, Nat.add_sub, str_take_app, <- (app_nil_r (lit _)).
    by apply lit_here.
  - intros a1 a2 prev1 -> H2. cbn [matches]. destruct (matches _ _ _ _ _) as [v|] eqn:E; [|done]. exfalso.
    rewrite <- (app_nil_r (lit _)) in E. change (String "<" q +:+ rest) with (String "<" (q +:+ rest)) in E.
    eapply lit_starts_cons in E; [|done|done|exact Ho].
    rewrite lower_app, has_sub_app_r in Hs; [done | by apply has_sub_start].
Qed.

(** Anything up to the end of the tag, then a literal: its last occurrence is found. *)
Lemma star_lit (a z t start : string) (c : ascii) (q : string) (r : list item) caps (v : list string * string) :
  occurs ">" (a +:+ String c q +:+ z) = false -> occurs ">" (lower (String c q)) = false ->
  has_sub (lower (String c q)) (lower (q +:+ z)) = false ->
  (forall prev, matches r start caps prev (z +:+ String ">" t) = Some v) ->
  forall prev, matches (star (but ">") ++ lit (String c q) ++ r) start caps prev
    (a +:+ String c q +:+ z +:+ String ">" t) = Some v.
Proof.
  intros Ho Hq Hs Hr prev. rewrite occurs_app in Ho. apply orb_false_iff in Ho as [Ha Ho].
  unfold star. cbn [app matches]. apply rep_greedy.
  - by apply but_spec.
  - lia.
  - intros p1. by apply lit_here.
  - intros b1 b2 p1 E Hb Hp. destruct (matches _ _ _ _ _) as [v1|] eqn:E1; [|done]. exfalso.
    rewrite <- str_app_assoc in E.
    destruct (inside ">" b1 (String c q +:+ z) (String ">" t) b2 E eq_refl) as (b3 & Eb & ->); [by apply but_spec|].
    apply (lit_starts (String c q) r ">" b3 (String ">" t) start caps p1 v1) in E1; [|done|exact Hq].
    destruct b1 as [|e b1]; [done|]. injection Eb as -> Eb. rewrite Eb, lower_app, has_sub_app_r in Hs; [done|].
    by apply has_sub_start.
Qed.

Lemma no_sub (q s : string) : has_sub q s = false <-> find_sub q s = None.
Proof.
  unfold has_sub, find_str. rewrite decide_True by lia. cbn [str_drop]. by destruct (find_sub q s).
Qed.

Lemma no_sub_sep (q a b : string) (c : ascii) :
  q <> "" -> occurs c q = false -> has_sub q a = false -> has_sub q b = false -> has_sub q (a +:+ String c b) = false.
Proof. rewrite !no_sub. intros Hq Hc Ha Hb. by rewrite find_sub_sep, Hb. Qed.

Lemma link_match (i : DdgItem) (rest : string) : ddg_item_ok i ->
  forall prev, matches ddg_linkRe "" [] prev (ddg_link i +:+ rest) = Some ([di_href i; di_title i], rest).
Proof.
  intros (_ & _ & _ & _ & _ & Ht & Hn & Hq & _ & Hg & Hh) prev.
  assert (ddg_link i +:+ rest = "<a" +:+ " " +:+ ("rel=" +:+ quoted "nofollow" +:+ " ") +:+ "href="
    +:+ (dq +:+ di_href i +:+ dq +:+ " class='result-link'") +:+ String ">" (di_title i +:+ "</a>" +:+ rest)) as ->.
  { unfold ddg_link, quoted. by rewrite !str_app_assoc. }
  unfold ddg_linkRe. apply lit_here. clear prev. intros prev. unfold plus at 1. cbn [app matches]. apply rep_greedy.
  - intros c. cbn. rewrite orb_false_r. by intros ->%Ascii.eqb_eq.
  - cbn. lia.
  - intros p1. apply star_lit; [| reflexivity | |].
    + unfold quoted. rewrite !occurs_app. cbn. rewrite Hg. reflexivity.
    + rewrite !lower_app. apply (no_sub_sep "href=" "ref=" _ DQUOTE); [done..|].
      by apply (no_sub_sep "href=" (lower (di_href i)) _ DQUOTE).
    + intros p2. rewrite str_app_assoc. unfold quote at 1. apply (lit_here dq). clear p1 p2. intros p1.
      unfold group at 1, plus at 1. cbn [app matches]. rewrite str_app_assoc. apply rep_greedy.
      * by apply but_spec.
      * destruct (di_href i); [done|]. cbn. lia.
      * intros p2. cbn [matches]. rewrite str_length_app, Nat.add_sub, str_take_app.
        unfold quote. rewrite str_app_assoc. apply (lit_here dq). intros p3.
        apply (star_lit " " "" (di_title i +:+ "</a>" +:+ rest)); [reflexivity..|].
        intros p4. unfold star. cbn [app matches]. apply (rep_greedy _ _ ""); [done | cbn; lia | |].
        -- intros p5. apply (lit_here ">"). intros p6. by apply closed_lazily.
        -- intros b1 b2 p5 E Hb Hp. destruct b1 as [|e b1]; [done|]. injection E as <- _.
           by apply all_in_cons in Hp as [? _].
      * intros b1 b2 p2 E Hb Hp. destruct b1 as [|e b1]; [done|]. injection E as <- _.
        by apply all_in_cons in Hp as [? _].
  - intros b1 b2 p1 E Hb Hp. destruct b1 as [|e b1]; [done|]. injection E as <- _.
    by apply all_in_cons in Hp as [? _].
Qed.

Lemma snippet_match (i : DdgItem) (rest : string) : ddg_item_ok i ->
  forall prev, matches ddg_snippetRe "" [] prev (ddg_snippet i +:+ rest) = Some ([di_snippet i], rest).
Proof.
  intros (_ & _ & _ & _ & Hs & _) prev. unfold ddg_snippetRe, ddg_snippet.
  change ("<td class='result-snippet'>" +:+ ?t) with ("<td" +:+ " " +:+ "class='result-snippet'" +:+ ">" +:+ t).
  rewrite !str_app_assoc. apply lit_here. clear prev. intros prev. unfold plus at 1. cbn [app matches].
  apply rep_greedy.
  - intros c. cbn. rewrite orb_false_r. by intros ->%Ascii.eqb_eq.
  - cbn. lia.
  - intros p1. apply lit_here. intros p2. unfold star. cbn [app matches]. apply (rep_greedy _ _ ""); [done | cbn; lia | |].
    + intros p3. apply (lit_here ">"). intros p4. by apply closed_lazily.
    + intros b1 b2 p3 E Hb Hp. destruct b1 as [|e b1]; [done|]. injection E as <- _.
      by apply all_in_cons in Hp as [? _].
  - intros b1 b2 p1 E Hb Hp. destruct b1 as [|e b1]; [done|]. injection E as <- _.
    by apply all_in_cons in Hp as [? _].
Qed.

Lemma link_blocked (w rest : string) : has_sub "<a" (lower w) = false -> ends_at "<" rest -> blocked ddg_linkRe w rest.
Proof. intros Hw He. by apply (blocked_lit "<" "a"). Qed.

Lemma snippet_blocked (w rest : string) :
  has_sub "class='result-snippet'" (lower w) = false -> ends_at "<" rest -> blocked ddg_snippetRe w rest.
Proof. intros Hw He. by apply (blocked_tag "td" "lass='result-snippet'" "c"). Qed.

Section PageFacts.
Variables (l : list DdgItem) (after : string).
Hypothesis Hl : Forall ddg_item_ok l.
Hypothesis Hafter : no_result after.

Lemma page_links prev : find_all ddg_linkRe 0 prev (ddg_page l after) = map (fun i => [di_href i; di_title i]) l.
Proof.
  revert prev. induction Hl as [|i l' Hi Hl' IH]; cbn [ddg_page fold_right map].
  { intros prev. rewrite <- (str_app_nil_r after). apply find_all_blocked; [by apply link_blocked; [apply Hafter|]|done]. }
  specialize (IH Hl'). pose proof Hi as (Hb & Hm & Hs & _). intros prev. unfold ddg_text. rewrite !str_app_assoc. revert prev.
  apply find_all_blocked; [by apply link_blocked; [apply Hb|]|].
  apply find_all_hit; [done | intros; by apply link_match|].
  apply find_all_blocked; [by apply link_blocked; [apply Hm|]|].
  intros prev. unfold ddg_snippet. rewrite !str_app_assoc, <- (str_app_assoc _ (di_snippet i)). revert prev.
  apply find_all_blocked; [|intros prev; exact (IH (Some ">"%char))].
  apply link_blocked; [|done]. rewrite lower_app.
  apply (no_sub_sep "<a" "<td class='result-snippet'" (lower (di_snippet i)) ">"); try done. apply Hs.
Qed.

Lemma page_snippets prev : find_all ddg_snippetRe 0 prev (ddg_page l after) = map (fun i => [di_snippet i]) l.
Proof.
  revert prev. induction Hl as [|i l' Hi Hl' IH]; cbn [ddg_page fold_right map].
  { intros prev. rewrite <- (str_app_nil_r after). apply find_all_blocked; [by apply snippet_blocked; [apply Hafter|]|done]. }
  specialize (IH Hl'). pose proof Hi as (Hb & Hm & _ & Ht & _ & _ & _ & _ & Hh & _). intros prev. unfold ddg_text.
  rewrite !str_app_assoc. revert prev.
  apply find_all_blocked; [by apply snippet_blocked; [apply Hb|]|].
  match goal with |- context [ddg_link i +:+ ?t] => set (rest := t) end.
  assert (forall prev, find_all ddg_snippetRe 0 prev rest = [di_snippet i] :: map (fun i => [di_snippet i]) l') as Hr.
  { apply find_all_blocked; [by apply snippet_blocked; [apply Hm|]|].
    apply find_all_hit; [done | intros; by apply snippet_match | exact IH]. }
  assert (ddg_link i +:+ rest = ("<a rel=" +:+ quoted "nofollow" +:+ " href=" +:+ quoted (di_href i)
    +:+ " class='result-link'>" +:+ di_title i) +:+ "</a>" +:+ rest) as -> by (unfold ddg_link; by rewrite !str_app_assoc).
  apply find_all_blocked; [|intros prev; exact (Hr (Some ">"%char))].
  apply snippet_blocked; [|done]. unfold quoted. rewrite !lower_app.
  apply (no_sub_sep _ "<a rel=" _ DQUOTE); [done..|]. apply (no_sub_sep _ "nofollow" _ DQUOTE); [done..|].
  apply (no_sub_sep _ " href=" _ DQUOTE); [done..|]. rewrite str_app_assoc.
  apply (no_sub_sep _ (lower (di_href i)) _ DQUOTE); [done..|].
  by apply (no_sub_sep _ " class='result-link'" _ ">").
Qed.
End PageFacts.

(** The scraper reads what the search site writes.  On a page in DuckDuckGo's lite
    format, whatever harmless markup stands around the results, the parser finds exactly
    the results, in order, as many as asked for: the title without its tags (or its
    number), the snippet without its tags, and the address; an address wrapped in the
    site's redirect comes out as it went in. *)
Theorem ddg_page_parsed {X : Type} `{Curl X} (x : X) (l : list DdgItem) (after : string) (maxResults : Z) :
  Forall ddg_item_ok l -> no_result after ->
  ParseDdgLiteResults x (ddg_page l after) maxResults
  = imap (fun n i => mkSearchResult (or_number (StripTags (di_title i)) (S n)) (DecodeDDGRedirect x (di_href i))
                       (StripTags (di_snippet i)))
      (take (Z.to_nat (Z.min (Z.of_nat (length l)) maxResults)) l) /\
  forall u token, curl_handle x = true -> curl_easy_unescape (curl_easy_escape u) = Some u ->
    occurs "&" (curl_easy_escape u) = false ->
    DecodeDDGRedirect x ("//duckduckgo.com/l/?uddg=" +:+ curl_easy_escape u +:+ "&amp;rut=" +:+ token) = u.
Proof.
  intros Hl Ha. split.
  - unfold ParseDdgLiteResults, take_rows, iterate. rewrite page_links, page_snippets by done. rewrite length_map.
    change (map ?f ?k) with (f <$> k). rewrite <- fmap_take, imap_fmap. apply imap_ext. intros n i Hi. cbn.
    unfold snippet_at. rewrite list_lookup_fmap. apply lookup_take_Some in Hi as [-> _]. done.
  - intros u token Hh He Ho. unfold DecodeDDGRedirect, find_str. rewrite decide_True by lia. cbn [str_drop].
    change (find_sub "uddg=" _) with (Some 20%nat). cbn [fmap option_fmap option_map Nat.add].
    unfold find_char, find_if_from. change (str_drop 25 _) with (curl_easy_escape u +:+ String "&" ("amp;rut=" +:+ token)).
    rewrite find_if_app; [|intros d Hd; apply Ascii.eqb_neq; congruence | done]. cbn [fmap option_fmap option_map].
    unfold substr. change (str_drop 25 _) with (curl_easy_escape u +:+ String "&" ("amp;rut=" +:+ token)).
    rewrite Nat.add_comm, Nat.add_sub, str_take_app. unfold UrlDecode. by rewrite Hh, He.
Qed.

(** ** Examples *)

#[local] Instance ex_curl_pages : Curl unit := {|
  curl_handle := fun _ => true;
  curl_easy_perform := fun _ x => (x, [], CURLE_OK, 200);
  curl_easy_strerror := fun _ => "";
  curl_easy_escape := fun s => s;
  curl_easy_unescape := Some;
  curl_elapse := fun x => x;
  random_upto := fun _ x => (x, 0);
  sleep_ms := fun _ x => x;
  logs_info := fun _ => false
|}.

(** Markup with back quotes for double ones. *)
Definition html (s : string) : string := str_map (fun c => if Ascii.eqb c "`" then DQUOTE else c) s.

Definition ex_item : DdgItem :=
  mkDdgItem "<tr><td>1.&nbsp;</td><td> " "//duckduckgo.com/l/?uddg=https://sqltest.net/&amp;rut=0" "<b>SQL</b> Test"
    "</td></tr><tr><td>&nbsp;</td>" " Generate &amp; edit <b>data</b>
      online. ".

Lemma ddg_page_parsed_witness :
  ParseDdgLiteResults tt (ddg_page [ex_item; ex_item] "</tr></table>") 1
  = [mkSearchResult "SQL Test" "https://sqltest.net/" "Generate & edit data online."].
Proof.
  rewrite (proj1 (ddg_page_parsed tt [ex_item; ex_item] "</tr></table>" 1
    ltac:(repeat constructor; done) ltac:(split; reflexivity))).
  vm_compute. reflexivity.
Defined.

Example ex_bing :
  ParseBingResults (html "<li class=`x b_algo` data-id>  <h2 class=``><a target=`_blank` href=`https://b/ck?a&amp;u=1` h=`I`>SQL Fiddle &amp; practice</a></h2> <p class=`b`>Free <b>online</b></p></li><li class=`b_algox`><h2><a href=`u`>no</a></h2></li>") 8
  = [mkSearchResult "SQL Fiddle & practice" "https://b/ck?a&u=1" "Free online"].
Proof. vm_compute. reflexivity. Qed.

Example ex_sogou :
  ParseSogouResults (html "<a name=`dttl` target=`_blank` href=`/link?url=S1&amp;k=2` id=`s`> <em>T</em>itle one </a></h3><div class=`fz-mid space-txt base` id=`c`>A snippet</div>") 8
  = [mkSearchResult "T itle one" "https://www.sogou.com/link?url=S1&amp;k=2" "A snippet"].
Proof. vm_compute. reflexivity. Qed.

Example ex_baidu :
  ParseBaiduResults (html "<h3 class=`t`> <a data=`1` href=`https://quote.eastmoney.com/x` target=`_blank`>Shares of today</a></h3><h3><a class=`n` href=`http://news.baidu.com/`>News page</a></h3>") 8
  = [mkSearchResult "Shares of today" "https://quote.eastmoney.com/x" ""].
Proof. vm_compute. reflexivity. Qed.
