(* ===== verification/WebSearch.v ===== *)
(** * Web search (src/tools/builtin_tools/web_search_tool.cpp, web_fetch_tool.cpp)

    The cooldown of each engine, the retries, the tests for challenge pages, the cache of
    results, the five engines and the tool that routes a query to them.  The process-wide
    variables are the record [SearchState]; a call of the tool holds no lock of its own,
    and the mutex of an engine makes its waits sequential. *)
From Stdlib Require Import ZArith NArith Lia ZifyBool String Ascii List.
From stdpp Require Import base decidable list strings gmap.
From S2P Require Import Prelude Numbers Encoding Types JsonLib Transport Files HtmlPages.
Open Scope Z_scope.

(** ** What is kept between calls *)

Definition kUserAgents : list string := [
  "Mozilla/5.0 (Windows NT 10.0; Win64; x64) AppleWebKit/537.36 (KHTML, like Gecko) Chrome/124.0.0.0 Safari/537.36";
  "Mozilla/5.0 (Windows NT 10.0; Win64; x64; rv:127.0) Gecko/20100101 Firefox/127.0";
  "Mozilla/5.0 (Macintosh; Intel Mac OS X 14_5) AppleWebKit/537.36 (KHTML, like Gecko) Chrome/124.0.0.0 Safari/537.36";
  "Mozilla/5.0 (X11; Linux x86_64) AppleWebKit/537.36 (KHTML, like Gecko) Chrome/124.0.0.0 Safari/537.36";
  "Mozilla/5.0 (Macintosh; Intel Mac OS X 14_5; rv:127.0) Gecko/20100101 Firefox/127.0"].

Definition kDdgCooldownSec : Z := 8.
Definition kBingCooldownSec : Z := 15.
Definition kWikiCooldownSec : Z := 1.
Definition kBaiduCooldownSec : Z := 5.
Definition kSogouCooldownSec : Z := 8.
Definition kMaxAttempts : nat := 3.
Definition kTtlSeconds : Z := 300.
(** A time is in nanoseconds of [steady_clock]. *)
Definition second : Z := 1000000000.

Record CacheEntry := mkCacheEntry { ce_rows : list WebSearchResult; expiresAt : Z }.

Record SearchState := mkSearchState {
  lastCall : gmap string Z;
  entries_ : gmap string CacheEntry;
  user_agent : option string
}.
Definition set_lastCall (m : gmap string Z) (st : SearchState) : SearchState :=
  mkSearchState m (entries_ st) (user_agent st).
Definition set_entries (m : gmap string CacheEntry) (st : SearchState) : SearchState :=
  mkSearchState (lastCall st) m (user_agent st).
Definition set_agent (a : string) (st : SearchState) : SearchState :=
  mkSearchState (lastCall st) (entries_ st) (Some a).

(** The slot of an engine, with its interval in seconds. *)
Definition CooldownFor (engine : string) : string * Z :=
  if String.eqb engine "duckduckgo" then ("duckduckgo", kDdgCooldownSec)
  else if String.eqb engine "bing" then ("bing", kBingCooldownSec)
  else if String.eqb engine "baidu" then ("baidu", kBaiduCooldownSec)
  else if String.eqb engine "sogou" then ("sogou", kSogouCooldownSec)
  else ("wikipedia", kWikiCooldownSec).

(** The time point a slot starts with is the epoch of the clock. *)
Definition last_call (slot : string) (st : SearchState) : Z := default 0 (lastCall st !! slot).

(** ** Tests for challenge pages *)

Record WebSearchHttpResponse := mkSearchResponse { wr_status : Z; wr_body : string; wr_err : string; wr_isCurlError : bool }.

Definition one_of (l : list Z) (status : Z) : bool := existsb (Z.eqb status) l.
Definition marked (markers : list string) (body : string) : bool := existsb (fun m => has_sub m body) markers.

Definition IsDDGChallenge (status : Z) (body : string) : bool :=
  one_of [202; 418; 429; 503] status || marked ["/anomaly.js"; "challenge-form"; "duckduckgo.com/anomaly.js"] body.
Definition IsBingChallenge (status : Z) (body : string) : bool :=
  one_of [403; 429; 503] status
  || marked ["CfConfig"; "class=" +:+ quoted "captcha"; "/challenge/verify"; "BingBot"; "/identity/"] body.
Definition IsBaiduChallenge (status : Z) (body : string) : bool :=
  one_of [403; 429; 503] status
  || marked ["百度安全验证"; "百度验证"; "waptcha"; "safecheck"; "请输入验证码"; "网络不给力"; "/captcha/"] body.
Definition IsSogouChallenge (status : Z) (body : string) : bool :=
  one_of [403; 429; 503] status
  || marked ["antispider"; "用户您好"; "请输入验证码"; "/captcha/"; "sogou_vr_captcha"] body.

Definition ShouldRetry (resp : WebSearchHttpResponse) (challengeDetected : bool) : bool :=
  wr_isCurlError resp || (wr_status resp =? 429) || (wr_status resp =? 503).

Definition ComputeBackoffMs (attempt : Z) : Z :=
  if attempt <? 0 then 0 else Z.shiftl 1000 (Z.min attempt 10).

(** ** The language of a query *)

Definition in_cjk (cp : N) : bool :=
  ((0x3000 <=? cp) && (cp <=? 0x9FFF) || (0xF900 <=? cp) && (cp <=? 0xFAFF) || (0xFF00 <=? cp) && (cp <=? 0xFFEF))%N.
Definition three_bytes (c b1 b2 : ascii) : N :=
  N.lor (N.lor (N.shiftl (N.land (byte_of c) 0x0F) 12) (N.shiftl (N.land (byte_of b1) 0x3F) 6)) (N.land (byte_of b2) 0x3F).

(** The loop over [i]; [skip] bytes are still to be passed over. *)
Fixpoint cjk_loop (skip : nat) (s : string) : bool :=
  match s with
  | "" => false
  | String c s' =>
      match skip with
      | S n => cjk_loop n s'
      | O =>
          if (byte_of c <? 0x80)%N then cjk_loop 0 s'
          else
            match s' with
            | String b1 (String b2 _) =>
                if in_range 0xE3 0xEF c then
                  if in_cjk (three_bytes c b1 b2) then true else cjk_loop 2 s'
                else if in_range 0xC0 0xDF c then cjk_loop 1 s'
                else if (0xF0 <=? byte_of c)%N then cjk_loop 3 s'
                else cjk_loop 0 s'
            | _ =>
                if in_range 0xC0 0xDF c then cjk_loop 1 s'
                else if (0xF0 <=? byte_of c)%N then cjk_loop 3 s'
                else cjk_loop 0 s'
            end
      end
  end.
Definition ContainsCJK (query : string) : bool := cjk_loop 0 query.

Section Search.
Context {X : Type} `{Curl X} (now_ns : X -> Z) (random_device : X -> X * Z).

(** What a function of the tool does: to the process-wide state and to the world. *)
Definition Step (A : Type) : Type := SearchState -> X -> SearchState * X * A.

Definition CooldownBefore (engine : string) (st : SearchState) (x : X) : SearchState * X :=
  let '(slot, minIntervalSec) := CooldownFor engine in
  let elapsed := (now_ns x - last_call slot st) ÷ second in
  let x := if elapsed <? minIntervalSec then sleep_ms ((minIntervalSec - int_cast elapsed) * 1000) x else x in
  (set_lastCall (<[slot := now_ns x]> (lastCall st)) st, x).

Definition PickUserAgent : Step string := fun st x =>
  match user_agent st with
  | Some ua => (st, x, ua)
  | None =>
      let '(x, rd) := random_device x in
      let ua := nth (Z.to_nat (rd mod 5)) kUserAgents "" in
      (set_agent ua st, x, ua)
  end.

(** ** Requests *)

Definition accept_headers : list string := [
  "Accept: text/html,application/xhtml+xml,application/xml;q=0.9,*/*;q=0.8";
  "Accept-Language: en-US,en;q=0.9,zh-CN;q=0.8"].
Definition search_response (resp : CurlResponse) : WebSearchHttpResponse :=
  mkSearchResponse (statusCode resp) (rs_body resp) (if isCurlError resp then curlErrorStr resp else "") (isCurlError resp).

Definition HttpGetOnce (url : string) (timeoutSec : Z) (ua referer : string) (cookies : bool) (noProxy : string) (x : X)
    : X * WebSearchHttpResponse :=
  let '(x, resp) := PerformBody (mkCurlRequest url (("User-Agent: " +:+ ua) :: accept_headers) "" 10 timeoutSec true false
    ua referer cookies noProxy) x in
  (x, search_response resp).

Definition HttpPostOnce (url body : string) (timeoutSec : Z) (ua referer : string) (cookies : bool) (x : X)
    : X * WebSearchHttpResponse :=
  let '(x, resp) := PerformBody (mkCurlRequest url
    (("User-Agent: " +:+ ua) :: "Content-Type: application/x-www-form-urlencoded" :: accept_headers) body 10 timeoutSec
    true false ua referer cookies "") x in
  (x, search_response resp).

(** [n] attempts are left after number [attempt]. *)
Fixpoint get_attempts (once : X -> X * WebSearchHttpResponse) (challenge : Z -> string -> bool) (n : nat) (attempt : Z)
    (x : X) : X * WebSearchHttpResponse :=
  let '(x, last) := once x in
  if negb (ShouldRetry last (challenge (wr_status last) (wr_body last))) then (x, last)
  else match n with
       | O => (x, last)
       | S n => get_attempts once challenge n (attempt + 1) (sleep_ms (ComputeBackoffMs attempt) x)
       end.
Definition HttpGetWithRetry (url : string) (timeoutSec : Z) (ua referer : string) (cookies : bool)
    (challenge : option (Z -> string -> bool)) (noProxy : string) (x : X) : X * WebSearchHttpResponse :=
  get_attempts (HttpGetOnce url timeoutSec ua referer cookies noProxy) (default (fun _ _ => false) challenge)
    (kMaxAttempts - 1) 0 x.

(** ** The cache *)

Definition cache_key (engine query : string) : string := engine +:+ "|" +:+ query.
Definition Lookup (engine query : string) (st : SearchState) (x : X) : SearchState * option (list WebSearchResult) :=
  let key := cache_key engine query in
  match entries_ st !! key with
  | None => (st, None)
  | Some e => if expiresAt e <=? now_ns x then (set_entries (delete key (entries_ st)) st, None) else (st, Some (ce_rows e))
  end.
Definition Store (engine query : string) (rows : list WebSearchResult) (ttlSeconds : Z) (st : SearchState) (x : X)
    : SearchState :=
  set_entries (<[cache_key engine query := mkCacheEntry rows (now_ns x + ttlSeconds * second)]> (entries_ st)) st.

(** ** The engines *)

Record EngineOutcome := mkOutcome { oc_ok : bool; errMsg : string; oc_rows : list WebSearchResult; oc_engine : string }.

(** What every engine does past the cache: the cooldown, the request [fetch], the tests on
    the answer and the parser.  [name] stands for the engine in its messages. *)
Definition engine_ask (engine name : string) (fetch : Step WebSearchHttpResponse)
    (challenge : option (Z -> string -> bool)) (parse : X -> string -> list WebSearchResult) (zero query : string)
    : Step EngineOutcome := fun st x =>
  let failed msg := mkOutcome false msg [] engine in
  let '(st, x) := CooldownBefore engine st x in
  let '(st, x, resp) := fetch st x in
  if wr_isCurlError resp then (st, x, failed (name +:+ " http error: " +:+ wr_err resp))
  else if match challenge with Some f => f (wr_status resp) (wr_body resp) | None => false end then
    (st, x, failed (name +:+ " anti-bot challenge (status " +:+ to_string (wr_status resp) +:+ ")"))
  else if negb (wr_status resp =? 200) then
    (st, x, failed (name +:+ " non-200 status: " +:+ to_string (wr_status resp)))
  else
    match parse x (wr_body resp) with
    | [] => (st, x, failed (name +:+ zero))
    | rows => (Store engine query rows kTtlSeconds st x, x, mkOutcome true "" rows engine)
    end.

Definition engine_call (engine name : string) (fetch : Step WebSearchHttpResponse)
    (challenge : option (Z -> string -> bool)) (parse : X -> string -> list WebSearchResult) (zero query : string)
    : Step EngineOutcome := fun st x =>
  match Lookup engine query st x with
  | (st, Some rows) => (st, x, mkOutcome true "" rows engine)
  | (st, None) => engine_ask engine name fetch challenge parse zero query st x
  end.

(** A request by [HttpGetWithRetry] with the agent of the process. *)
Definition fetch_get (url : X -> string) (timeoutSec : Z) (referer : string) (challenge : option (Z -> string -> bool))
    (noProxy : string) : Step WebSearchHttpResponse := fun st x =>
  let u := url x in
  let '(st, x, ua) := PickUserAgent st x in
  let '(x, resp) := HttpGetWithRetry u timeoutSec ua referer true challenge noProxy x in
  (st, x, resp).

Definition ddg_fetch (query : string) (timeoutSec : Z) : Step WebSearchHttpResponse := fun st x =>
  let body := "q=" +:+ UrlEncode query x in
  let '(st, x, ua) := PickUserAgent st x in
  let '(x, resp) := HttpPostOnce "https://lite.duckduckgo.com/lite/" body timeoutSec ua
                      "https://lite.duckduckgo.com/" true x in
  (st, x, resp).

Definition SearchDuckDuckGo (query : string) (maxResults timeoutSec : Z) : Step EngineOutcome :=
  engine_call "duckduckgo" "ddg" (ddg_fetch query timeoutSec) (Some IsDDGChallenge)
    (fun x body => ParseDdgLiteResults x body maxResults) " parsed zero results" query.

Context {J : Type} `{Json J}.

Definition SearchWikipedia (query : string) (maxResults timeoutSec : Z) : Step EngineOutcome :=
  engine_call "wikipedia" "wikipedia"
    (fetch_get (fun x => "https://en.wikipedia.org/w/api.php?action=query&list=search&srsearch=" +:+ UrlEncode query x
                  +:+ "&format=json&srprop=snippet&srlimit=" +:+ to_string maxResults +:+ "&origin=*")
       timeoutSec "https://en.wikipedia.org/" None "")
    None (fun x body => ParseWikipediaResults (J := J) x body maxResults) " zero results" query.

Definition SearchBaidu (query : string) (maxResults timeoutSec : Z) : Step EngineOutcome :=
  engine_call "baidu" "baidu"
    (fetch_get (fun x => "https://www.baidu.com/s?wd=" +:+ UrlEncode query x +:+ "&ie=utf-8&tn=baidurt&rn="
                  +:+ to_string maxResults)
       timeoutSec "https://www.baidu.com/" (Some IsBaiduChallenge) "baidu.com")
    (Some IsBaiduChallenge) (fun _ body => ParseBaiduResults body maxResults) " parsed zero results" query.

Definition SearchSogou (query : string) (maxResults timeoutSec : Z) : Step EngineOutcome :=
  engine_call "sogou" "sogou"
    (fetch_get (fun x => "https://www.sogou.com/web?query=" +:+ UrlEncode query x +:+ "&ie=utf8&oe=utf8&rn="
                  +:+ to_string maxResults)
       timeoutSec "https://www.sogou.com/" (Some IsSogouChallenge) "")
    (Some IsSogouChallenge) (fun _ body => ParseSogouResults body maxResults) " parsed zero results" query.

Definition SearchBing (query : string) (maxResults timeoutSec : Z) : Step EngineOutcome :=
  engine_call "bing" "bing"
    (fetch_get (fun x => "https://www.bing.com/search?q=" +:+ UrlEncode query x)
       timeoutSec "https://www.bing.com/" (Some IsBingChallenge) "")
    (Some IsBingChallenge) (fun _ body => ParseBingResults body maxResults) " parsed zero results" query.

(** ** The tool *)

Definition EngineFn : Type := string -> Z -> Z -> Step EngineOutcome.
Definition engines_for (query : string) : list EngineFn :=
  if ContainsCJK query then [SearchBaidu; SearchSogou] else [SearchDuckDuckGo; SearchWikipedia; SearchBing].

(** The query with the limits, as they are in the input. *)
Definition int_of (key : string) (dflt : Z) (j : J) : outcome Z :=
  match jfield key j with
  | Some v => if is_number_integer v then json_get_int v else Ok dflt
  | None => Ok dflt
  end.
Definition search_input (input : string) : outcome (string * Z * Z) :=
  if front_is "{" input then
    j <-- json_parse input ;;
    let query := default "" (string_field (J := J) "query" j) in
    maxResults <-- int_of "max_results" 8 j ;;
    timeoutSec <-- int_of "timeout" 15 j ;;
    Ok (query, maxResults, timeoutSec)
  else Ok (input, 8, 15).

Definition bounded (lo hi z : Z) : Z := if hi <? Z.max lo z then hi else Z.max lo z.

(** The loop over the engines: the outcome chosen, or the errors. *)
Fixpoint try_engines (engines : list EngineFn) (query : string) (maxResults timeoutSec : Z) (errs : list string)
    : Step (list string + EngineOutcome) := fun st x =>
  match engines with
  | [] => (st, x, inl errs)
  | fn :: engines =>
      let '(st, x, outcome) := fn query maxResults timeoutSec st x in
      if oc_ok outcome then (st, x, inr outcome)
      else try_engines engines query maxResults timeoutSec (errs ++ [oc_engine outcome +:+ ": " +:+ errMsg outcome]) st x
  end.

Definition failure_text (query : string) (errs : list string) : string :=
  "Error: all search engines failed for query: " +:+ query
  +:+ string_concat (map (fun e => nl +:+ "  - " +:+ e) errs)
  +:+ nl +:+ "Note: the agent's outbound IP appears flagged by all engines. Consider waiting ~60s before retrying, using web_fetcher on a URL you already know, or rephrasing the query rather than re-searching with the same terms.".

Definition row_text (i : nat) (r : WebSearchResult) : string :=
  nat_to_string (S i) +:+ ". " +:+ sr_title r +:+ nl
  +:+ (if str_empty (sr_url r) then "" else "   URL: " +:+ sr_url r +:+ nl)
  +:+ (if str_empty (sr_snippet r) then "" else "   Snippet: " +:+ sr_snippet r +:+ nl).
Definition results_text (query engine : string) (rows : list WebSearchResult) : string :=
  "Search results (" +:+ engine +:+ ") for: " +:+ query +:+ nl +:+ string_concat (imap row_text rows).

Definition WebSearch (input : string) : Step string := fun st x =>
  match search_input input with
  | Throw e => (st, x, "Error: invalid JSON input: " +:+ e)
  | Ok (query, maxResults, timeoutSec) =>
      match trim4 query with
      | None => (st, x, "Error: query is required and cannot be empty")
      | Some query =>
          let '(st, x, r) := try_engines (engines_for query) query (bounded 1 20 maxResults) (bounded 5 30 timeoutSec) [] st x in
          (st, x, match r with
                  | inl errs => failure_text query errs
                  | inr chosen => results_text query (oc_engine chosen) (oc_rows chosen)
                  end)
      end
  end.

(** ** web_fetcher *)

Definition ExtractUrl (input : string) : string :=
  match json_parse input with
  | Ok j => default input (string_field (J := J) "url" j)
  | Throw _ => input
  end.
Definition FetchUrl (url : string) (x : X) : X * string :=
  let '(x, resp) := PerformBody (mkCurlRequest url [] "" 0 10 true false "CppAgentFramework/1.0" "" false "") x in
  (x, if isCurlError resp then "Error: " +:+ curlErrorStr resp else rs_body resp).
Definition WebFetch (input : string) (x : X) : X * string := FetchUrl (ExtractUrl input) x.
End Search.

(** ** The language of a query, by code points *)

(** UTF-8. *)
Definition chr (n : N) : ascii := ascii_of_N n.
Definition encode_point (cp : N) : string :=
  let cont n := chr (0x80 + n mod 64) in
  (if cp <? 0x80 then String (chr cp) ""
   else if cp <? 0x800 then String (chr (0xC0 + cp / 64)) (String (cont cp) "")
   else if cp <? 0x10000 then String (chr (0xE0 + cp / 4096)) (String (cont (cp / 64)) (String (cont cp) ""))
   else String (chr (0xF0 + cp / 262144)) (String (cont (cp / 4096)) (String (cont (cp / 64)) (String (cont cp) ""))))%N.

Lemma byte_chr (n : N) : (n < 256)%N -> byte_of (chr n) = n.
Proof. apply N_ascii_embedding. Qed.

Lemma lor_shift (a b n : N) : (b < 2 ^ n)%N -> N.lor (N.shiftl a n) b = (a * 2 ^ n + b)%N.
Proof.
  intros Hb. assert (N.land (N.shiftl a n) b = 0%N) as Hl.
  { apply N.bits_inj. intros i. rewrite N.land_spec, N.bits_0. destruct (N.lt_ge_cases i n) as [Hi|Hi].
    - by rewrite N.shiftl_spec_low.
    - rewrite <- (N.mod_small b (2 ^ n)) by done. by rewrite N.mod_pow2_bits_high, andb_false_r. }
  rewrite <- N.lxor_lor, <- N.add_nocarry_lxor by done. by rewrite N.shiftl_mul_pow2.
Qed.

Lemma land_low (a n k : N) : (n < 2 ^ k)%N -> N.land (a * 2 ^ k + n) (N.ones k) = n.
Proof.
  intros Hn. rewrite N.land_ones, N.add_comm, N.Div0.mod_add. by apply N.mod_small.
Qed.

Lemma three_bytes_point (cp : N) : (0x800 <= cp < 0x10000)%N ->
  three_bytes (chr (0xE0 + cp / 4096)) (chr (0x80 + (cp / 64) mod 64)) (chr (0x80 + cp mod 64)) = cp.
Proof.
  intros Hcp. unfold three_bytes.
  assert (cp / 4096 < 16)%N by (apply N.Div0.div_lt_upper_bound; lia).
  pose proof (N.mod_lt (cp / 64) 64 ltac:(lia)). pose proof (N.mod_lt cp 64 ltac:(lia)).
  rewrite !byte_chr by lia.
  assert (N.land (0xE0 + cp / 4096) 0x0F = cp / 4096 /\ N.land (0x80 + (cp / 64) mod 64) 0x3F = (cp / 64) mod 64 /\
    N.land (0x80 + cp mod 64) 0x3F = cp mod 64)%N as (-> & -> & ->).
  { split; [apply (land_low 14 _ 4) | split; apply (land_low 2 _ 6)]; cbn; lia. }
  rewrite (N.shiftl_mul_pow2 (_ mod 64)). rewrite lor_shift by (cbn; lia).
  change (2 ^ 12)%N with (64 * 2 ^ 6)%N. rewrite N.mul_assoc, <- N.mul_add_distr_r, <- N.shiftl_mul_pow2.
  rewrite lor_shift by (cbn; lia). change (2 ^ 6)%N with 64%N.
  assert (cp / 4096 = cp / 64 / 64)%N as -> by (by rewrite N.Div0.div_div).
  pose proof (N.div_mod' (cp / 64) 64). pose proof (N.div_mod' cp 64). lia.
Qed.

Lemma in_range_byte (lo hi n : N) : (n < 256)%N -> in_range lo hi (chr n) = ((lo <=? n) && (n <=? hi))%N.
Proof. intros Hn. unfold in_range. by rewrite byte_chr. Qed.

Lemma not_cjk_low (cp : N) : (cp < 0x3000)%N -> in_cjk cp = false.
Proof. intros Hcp. unfold in_cjk. lia. Qed.
Lemma not_cjk_high (cp : N) : (0x10000 <= cp)%N -> in_cjk cp = false.
Proof. intros Hcp. unfold in_cjk. lia. Qed.

Lemma cont_step (n : N) (s : string) : cjk_loop 0 (String (chr (0x80 + n mod 64)) s) = cjk_loop 0 s.
Proof.
  pose proof (N.mod_lt n 64 ltac:(lia)). cbn [cjk_loop].
  rewrite !in_range_byte, !byte_chr by lia.
  assert ((0x80 + n mod 64 <? 0x80) = false /\ (0xE3 <=? 0x80 + n mod 64) = false /\ (0xC0 <=? 0x80 + n mod 64) = false
    /\ (0xF0 <=? 0x80 + n mod 64) = false)%N as (-> & -> & -> & ->) by (generalize dependent (n mod 64)%N; lia).
  cbn [andb]. by destruct s as [|? [|? ?]].
Qed.

Lemma lead_step (n : N) (b : ascii) (s : string) : (n < 32)%N -> cjk_loop 0 (String (chr (0xC0 + n)) (String b s)) = cjk_loop 0 s.
Proof.
  intros Hn. cbn [cjk_loop]. rewrite !in_range_byte, !byte_chr by lia.
  assert ((0xC0 + n <? 0x80) = false /\ (0xE3 <=? 0xC0 + n) = false /\ (0xC0 <=? 0xC0 + n) = true
    /\ (0xC0 + n <=? 0xDF) = true)%N as (-> & -> & -> & ->) by lia. by destruct s.
Qed.

Lemma lead4_step (n : N) (b c d : ascii) (s : string) : (n < 5)%N ->
  cjk_loop 0 (String (chr (0xF0 + n)) (String b (String c (String d s)))) = cjk_loop 0 s.
Proof.
  intros Hn. cbn [cjk_loop]. rewrite !in_range_byte, !byte_chr by lia.
  by assert ((0xF0 + n <? 0x80) = false /\ (0xF0 + n <=? 0xEF) = false /\ (0xF0 + n <=? 0xDF) = false
    /\ (0xF0 <=? 0xF0 + n) = true)%N as (-> & -> & -> & ->) by lia; rewrite !andb_false_r.
Qed.

Lemma three_step (cp : N) (s : string) : (0x800 <= cp < 0x10000)%N ->
  cjk_loop 0 (String (chr (0xE0 + cp / 4096)) (String (chr (0x80 + (cp / 64) mod 64)) (String (chr (0x80 + cp mod 64)) s)))
  = in_cjk cp || cjk_loop 0 s.
Proof.
  intros Hcp. assert (cp / 4096 < 16)%N by (apply N.Div0.div_lt_upper_bound; lia).
  set (b1 := chr (0x80 + _)). set (b2 := chr (0x80 + _)). cbn [cjk_loop].
  rewrite !in_range_byte, !byte_chr by lia.
  assert ((0xE0 + cp / 4096 <? 0x80) = false /\ (0xE0 + cp / 4096 <=? 0xEF) = true /\ (0xE0 + cp / 4096 <=? 0xDF) = false
    /\ (0xF0 <=? 0xE0 + cp / 4096) = false)%N as (-> & -> & -> & ->) by (generalize dependent (cp / 4096)%N; lia).
  rewrite andb_true_r, andb_false_r.
  destruct (N.leb_spec 0xE3 (0xE0 + cp / 4096)) as [H3|H3].
  - unfold b1, b2. rewrite three_bytes_point by done. by destruct (in_cjk cp).
  - rewrite not_cjk_low.
    + change (cjk_loop 0 (String b1 (String b2 s)) = cjk_loop 0 s). unfold b1, b2. by rewrite cont_step, cont_step.
    + pose proof (N.div_mod' cp 4096). pose proof (N.mod_lt cp 4096 ltac:(lia)). lia.
Qed.

(** The routing of a query by language is by its characters.  The byte loop answers
    whether any code point of a UTF-8 text is in one of the three ranges of the CJK
    blocks, for every text, whatever surrounds them. *)
Theorem contains_cjk_spec (cps : list N) : Forall (fun cp => cp < 0x110000)%N cps ->
  ContainsCJK (string_concat (map encode_point cps)) = existsb in_cjk cps.
Proof.
  unfold ContainsCJK. induction 1 as [|cp cps Hcp _ IH]; [done|]. cbn [map string_concat fold_right existsb].
  rewrite <- IH. fold (string_concat (map encode_point cps)). set (s := string_concat _). unfold encode_point.
  repeat case_match; cbn [String.append].
  - cbn [cjk_loop]. rewrite byte_chr by lia. assert ((cp <? 0x80) = true)%N as -> by lia.
    by rewrite not_cjk_low by lia.
  - assert (cp / 64 < 32)%N by (apply N.Div0.div_lt_upper_bound; lia). rewrite lead_step by lia.
    by rewrite not_cjk_low by lia.
  - rewrite three_step by lia. by destruct (in_cjk cp).
  - assert (cp / 262144 < 5)%N by (apply N.Div0.div_lt_upper_bound; lia). rewrite lead4_step by lia.
    by rewrite not_cjk_high by lia.
Qed.

(** ** How the engines are treated *)

(** What is known of the world: the clock does not go back, a sleep lasts, and only a
    transfer sends a request, at most one. *)
Class NetWorld (X : Type) `{Curl X} (now_ns : X -> Z) (random_device : X -> X * Z) (requests : X -> nat) : Prop := {
  perform_world opts x : let x1 := (curl_easy_perform opts x).1.1.1 in
    (requests x1 <= S (requests x))%nat /\ now_ns x <= now_ns x1;
  sleep_world ms x : requests (sleep_ms ms x) = requests x /\
    now_ns x + Z.max 0 ms * 1000000 <= now_ns (sleep_ms ms x);
  device_world x : requests (random_device x).1 = requests x /\ now_ns x <= now_ns (random_device x).1
}.

Section Polite.
Context {X : Type} `{NetWorld X} {J : Type} `{Json J}.
Local Notation Step := (Step (X := X)).

(** A call that is no more than [n] requests and waiting. *)
Definition moves (n : nat) (x x1 : X) : Prop :=
  (requests x1 <= requests x + n)%nat /\ now_ns x <= now_ns x1.
Lemma moves_refl x : moves 0 x x.
Proof. unfold moves. lia. Qed.
Lemma moves_trans n m x x1 x2 : moves n x x1 -> moves m x1 x2 -> moves (n + m) x x2.
Proof. unfold moves. lia. Qed.
Lemma moves_mono n m x x1 : (n <= m)%nat -> moves n x x1 -> moves m x x1.
Proof. unfold moves. lia. Qed.

Lemma perform_moves req (x : X) : moves 1 x (PerformBody req x).1.
Proof.
  unfold PerformBody. destruct (negb (curl_handle x)); [unfold moves; cbn; lia|].
  pose proof (perform_world (ApplyOptions req) x) as Hp.
  destruct (curl_easy_perform (ApplyOptions req) x) as [[[x1 chunks] rc] code]. cbn in *. unfold moves. lia.
Qed.

Lemma sleep_moves ms (x : X) : moves 0 x (sleep_ms ms x).
Proof. pose proof (sleep_world ms x). unfold moves. lia. Qed.

Lemma get_once_moves url t ua referer cookies noProxy (x : X) :
  moves 1 x (HttpGetOnce url t ua referer cookies noProxy x).1.
Proof.
  unfold HttpGetOnce. pose proof (perform_moves (mkCurlRequest url (("User-Agent: " +:+ ua) :: accept_headers) "" 10 t true
    false ua referer cookies noProxy) x) as Hp. by destruct (PerformBody _ x).
Qed.

Lemma attempts_moves once challenge n attempt (x : X) :
  (forall x, moves 1 x (once x).1) -> moves (S n) x (get_attempts once challenge n attempt x).1.
Proof.
  intros Ho. revert attempt x. induction n as [|n IH]; intros attempt x; cbn [get_attempts];
    pose proof (Ho x) as Hx; destruct (once x) as [x1 last]; cbn [fst] in *.
  - by destruct (negb _).
  - destruct (negb _); [by apply (moves_mono 1); [lia|]|].
    eapply (moves_trans 1 (S n)); [exact Hx|]. eapply (moves_trans 0); [apply sleep_moves | apply IH].
Qed.

(** Whether a request function leaves the cooldowns and the cache alone. *)
Definition fetches (n : nat) (f : Step WebSearchHttpResponse) : Prop :=
  forall st x st1 x1 resp, f st x = (st1, x1, resp) ->
    lastCall st1 = lastCall st /\ entries_ st1 = entries_ st /\ moves n x x1.

Lemma agent_frame st (x : X) st1 x1 ua : PickUserAgent random_device st x = (st1, x1, ua) ->
  lastCall st1 = lastCall st /\ entries_ st1 = entries_ st /\ moves 0 x x1.
Proof.
  unfold PickUserAgent. destruct (user_agent st); [intros [= <- <- _]; by split_and!; [..|apply moves_refl]|].
  pose proof (device_world x) as Hd. destruct (random_device x) as [x2 rd]. intros [= <- <- _].
  split_and!; [done..|]. unfold moves. cbn in Hd. lia.
Qed.

Lemma get_fetches url t referer challenge noProxy :
  fetches 3 (fetch_get random_device url t referer challenge noProxy).
Proof.
  intros st x st1 x1 resp. unfold fetch_get. destruct (PickUserAgent _ st x) as [[st0 x0] ua] eqn:E.
  apply agent_frame in E as (Hl & He & Hm). unfold HttpGetWithRetry.
  pose proof (attempts_moves (HttpGetOnce (url x) t ua referer true noProxy) (default (fun _ _ => false) challenge)
    (kMaxAttempts - 1) 0 x0 (get_once_moves (url x) t ua referer true noProxy)) as Ha.
  destruct (get_attempts _ _ _ _ x0) as [x2 r]. intros [= <- <- _]. split_and!; [done..|].
  by apply (moves_trans 0 3 x x0).
Qed.

Lemma ddg_fetches query t : fetches 3 (ddg_fetch random_device query t).
Proof.
  intros st x st1 x1 resp. unfold ddg_fetch, HttpPostOnce. destruct (PickUserAgent _ st x) as [[st0 x0] ua] eqn:E.
  apply agent_frame in E as (Hl & He & Hm).
  match goal with |- context [PerformBody ?req x0] => pose proof (perform_moves req x0) as Hp end.
  destruct (PerformBody _ x0) as [x2 r]. intros [= <- <- _]. split_and!; [done..|].
  apply (moves_mono 1); [lia|]. by apply (moves_trans 0 1 x x0).
Qed.

(** The recorded calls are in the past. *)
Definition clocked (st : SearchState) (x : X) : Prop := forall s, last_call s st <= now_ns x.
Definition interval (slot : string) : Z := (CooldownFor slot).2 * second.
Definition spaced (s : string) (st st1 : SearchState) : Prop :=
  last_call s st + interval s <= last_call s st1.

Lemma cooldown_spec slot st (x : X) : (CooldownFor slot).1 = slot -> clocked st x ->
  let st1 := (CooldownBefore now_ns slot st x).1 in let x1 := (CooldownBefore now_ns slot st x).2 in
  moves 0 x x1 /\ clocked st1 x1 /\ spaced slot st st1 /\ entries_ st1 = entries_ st /\
  (forall s, s <> slot -> last_call s st1 = last_call s st).
Proof.
  intros Hslot Hc. unfold CooldownBefore, spaced, interval.
  assert (0 <= (CooldownFor slot).2 <= 15) as Hmin by (unfold CooldownFor; repeat case_match; by cbn).
  destruct (CooldownFor slot) as [slot' least]. cbn in Hslot, Hmin. subst slot'. cbn zeta.
  set (elapsed := (now_ns x - last_call slot st) ÷ second).
  pose proof (Hc slot) as Hl.
  assert (0 <= elapsed /\ elapsed * second <= now_ns x - last_call slot st) as [H0e He].
  { unfold elapsed. rewrite Z.quot_div_nonneg by (unfold second; lia).
    pose proof (Z.mul_div_le (now_ns x - last_call slot st) second ltac:(unfold second; lia)).
    pose proof (Z.div_pos (now_ns x - last_call slot st) second ltac:(lia) ltac:(unfold second; lia)). lia. }
  set (x1 := if elapsed <? least then _ else x).
  assert (moves 0 x x1 /\ last_call slot st + least * second <= now_ns x1) as [Hm Hs].
  { unfold x1. destruct (Z.ltb_spec elapsed least) as [Hlt|Hge].
    - split; [apply sleep_moves|].
      pose proof (sleep_world ((least - int_cast elapsed) * 1000) x) as [_ Hw].
      rewrite int_cast_id in Hw |- * by lia. unfold second in *. lia.
    - split; [apply moves_refl|]. unfold second in *. nia. }
  clearbody x1. split_and!; [done| | | done|].
  - intros s. unfold last_call. cbn. destruct (decide (s = slot)) as [->|Hn].
    + by rewrite lookup_insert_eq.
    + rewrite lookup_insert_ne by done. pose proof (Hc s) as Hcs. unfold last_call in Hcs. unfold moves in Hm. lia.
  - unfold last_call at 2. cbn. rewrite lookup_insert_eq. cbn. lia.
  - intros s Hn. unfold last_call. cbn. by rewrite lookup_insert_ne.
Qed.

(** An engine with slot [s]: it is spaced, or it sends nothing. *)
Definition polite (s : string) (f : Step EngineOutcome) : Prop :=
  forall st x st1 x1 oc, clocked st x -> f st x = (st1, x1, oc) ->
    clocked st1 x1 /\ (forall s', s' <> s -> last_call s' st1 = last_call s' st) /\
    (last_call s st1 = last_call s st /\ requests x1 = requests x \/
     spaced s st st1 /\ (requests x1 <= requests x + 3)%nat).

Lemma clocked_same st st1 (x x1 : X) : lastCall st1 = lastCall st -> now_ns x <= now_ns x1 -> clocked st x -> clocked st1 x1.
Proof. intros E Hn Hc s. unfold clocked, last_call in *. rewrite E. specialize (Hc s). lia. Qed.

Lemma lookup_frame engine query st (x : X) : lastCall (Lookup now_ns engine query st x).1 = lastCall st.
Proof. unfold Lookup. repeat case_match; done. Qed.

Lemma engine_polite engine name fetch challenge parse zero query :
  (CooldownFor engine).1 = engine -> fetches 3 fetch ->
  polite engine (engine_call now_ns engine name fetch challenge parse zero query).
Proof.
  intros Hslot Hf st x st1 x1 oc Hc. unfold engine_call.
  pose proof (lookup_frame engine query st x) as Hlk.
  destruct (Lookup now_ns engine query st x) as [st0 [rows|]]; cbn [fst] in Hlk.
  - intros [= <- <- _]. split; [by eapply clocked_same|]. unfold last_call. rewrite Hlk. split; [done | by left].
  - unfold engine_ask. assert (clocked st0 x) as Hc0 by by eapply clocked_same.
    pose proof (cooldown_spec engine st0 x Hslot Hc0) as Hcd.
    destruct (CooldownBefore now_ns engine st0 x) as [st2 x2]. cbn [fst snd] in Hcd. cbn zeta in Hcd.
    destruct Hcd as ([Hr2 Hn2] & Hc2 & Hs2 & _ & Ho2).
    destruct (fetch st2 x2) as [[st3 x3] resp] eqn:E. apply Hf in E as (E3 & _ & [Hr3 Hn3]).
    assert (forall st4, lastCall st4 = lastCall st3 ->
      clocked st4 x3 /\ (forall s', s' <> engine -> last_call s' st4 = last_call s' st) /\
      (last_call engine st4 = last_call engine st /\ requests x3 = requests x \/
       spaced engine st st4 /\ (requests x3 <= requests x + 3)%nat)) as Hend.
    { intros st4 E4. assert (forall s, last_call s st4 = last_call s st2) as El
        by (intros s; unfold last_call; by rewrite E4, E3).
      split; [intros s; rewrite El; specialize (Hc2 s); lia|]. split.
      - intros s' Hs'. rewrite El, Ho2 by done. unfold last_call. by rewrite Hlk.
      - right. split; [|lia]. unfold spaced in *. rewrite El. unfold last_call in *. by rewrite Hlk in Hs2. }
    intros E. repeat case_match; simplify_eq; by apply Hend.
Qed.

Definition route (query : string) : list string :=
  if ContainsCJK query then ["baidu"; "sogou"] else ["duckduckgo"; "wikipedia"; "bing"].

Lemma route_nodup query : NoDup (route query).
Proof. apply (bool_decide_unpack _). unfold route. by destruct (ContainsCJK query). Qed.

Lemma route_polite query m t :
  Forall2 (fun s fn => polite s (fn query m t)) (route query) (engines_for now_ns random_device (J := J) query).
Proof.
  unfold route, engines_for. destruct (ContainsCJK query); repeat first [apply Forall2_nil_2 | apply Forall2_cons_2];
    (apply engine_polite; [done|]); first [apply get_fetches | apply ddg_fetches].
Qed.

(** The slots of [slots] that were called between two states. *)
Definition called (st st1 : SearchState) (slots : list string) : list string :=
  List.filter (fun s => negb (last_call s st1 =? last_call s st)) slots.

Lemma interval_pos s : 0 < interval s.
Proof. unfold interval, CooldownFor. repeat case_match; reflexivity. Qed.

Lemma called_same st st' st1 slots : (forall s, s ∈ slots -> last_call s st = last_call s st') ->
  called st st1 slots = called st' st1 slots.
Proof.
  intros Hs. unfold called. induction slots as [|s slots IH]; [done|]. cbn.
  rewrite (Hs s) by set_solver. by rewrite IH by set_solver.
Qed.

Lemma try_engines_polite slots fns query m t errs st (x : X) st1 x1 r :
  Forall2 (fun s fn => polite s (fn query m t)) slots fns -> NoDup slots -> clocked st x ->
  try_engines fns query m t errs st x = (st1, x1, r) ->
  clocked st1 x1 /\ (forall s, s ∉ slots -> last_call s st1 = last_call s st) /\
  (forall s, last_call s st1 = last_call s st \/ spaced s st st1) /\
  (requests x1 <= requests x + 3 * length (called st st1 slots))%nat.
Proof.
  intros Hp. revert errs st x. induction Hp as [|s fn slots fns Hs Hp IH]; intros errs st x Hnd Hc E; cbn [try_engines] in E.
  { injection E as <- <- _. split_and!; [done | done | by left | lia]. }
  apply NoDup_cons in Hnd as [Hns Hnd]. destruct (fn query m t st x) as [[st0 x0] oc] eqn:Ef.
  destruct (Hs _ _ _ _ _ Hc Ef) as (Hc0 & Ho & Hcase).
  assert (exists rest, clocked st1 x1 /\ (forall s', s' ∉ slots -> last_call s' st1 = last_call s' st0) /\
    (forall s', last_call s' st1 = last_call s' st0 \/ spaced s' st0 st1) /\
    rest = length (called st0 st1 slots) /\ (requests x1 <= requests x0 + 3 * rest)%nat)
    as (rest & Hc1 & Ho1 & Hs1 & Hrest & Hr1).
  { destruct (oc_ok oc).
    - injection E as <- <- _. eexists. split; [done|]. split; [done|]. split; [by left|]. split; [done | lia].
    - destruct (IH _ _ _ Hnd Hc0 E) as (? & ? & ? & ?). by eexists. }
  rewrite (called_same st0 st) in Hrest by (intros s' Hs'; apply Ho; by intros ->).
  split; [done|]. split.
  { intros s' [Hn1 Hn2]%not_elem_of_cons. by rewrite Ho1, Ho. }
  split.
  - intros s'. destruct (decide (s' = s)) as [->|Hn].
    + unfold spaced in *. rewrite (Ho1 s Hns). destruct Hcase as [[-> _]|[? _]]; [by left | by right].
    + unfold spaced in *. rewrite <- (Ho s' Hn). apply Hs1.
  - cbn [called List.filter]. fold (called st st1 slots). rewrite (Ho1 s Hns).
    destruct Hcase as [[-> Hr]|[Hsp Hr]].
    + rewrite Z.eqb_refl. cbn [negb]. lia.
    + pose proof (interval_pos s). unfold spaced in Hsp.
      destruct (Z.eqb_spec (last_call s st0) (last_call s st)); [lia|]. cbn [negb length]. lia.
Qed.

(** The query an input searches for. *)
Definition searched (input : string) : option string :=
  match search_input (J := J) input with Ok (query, _, _) => trim4 query | Throw _ => None end.

(** The engines are asked politely.  A search, whatever it finds, sends requests only
    to engines of the query's route, which it marks as called, at most three each, and none
    when there is no query; and an engine is never called again before its interval (8, 15,
    1, 5 or 8 seconds) has passed since the call before, by the clock that does not go
    back. *)
Theorem search_polite (input : string) (st st1 : SearchState) (x x1 : X) (answer : string) :
  clocked st x -> WebSearch now_ns random_device (J := J) input st x = (st1, x1, answer) ->
  clocked st1 x1 /\
  (forall s, last_call s st1 = last_call s st \/ last_call s st + interval s <= last_call s st1) /\
  match searched input with
  | None => st1 = st /\ x1 = x
  | Some query =>
      (forall s, s ∉ route query -> last_call s st1 = last_call s st) /\
      (requests x1 <= requests x + 3 * length (called st st1 (route query)))%nat
  end.
Proof.
  intros Hc E. unfold WebSearch in E. unfold searched.
  destruct (search_input input) as [[[query m] t]|e]; [|injection E as <- <- _; split_and!; [done | by left | done..]].
  destruct (trim4 query) as [q|]; [|injection E as <- <- _; split_and!; [done | by left | done..]].
  destruct (try_engines _ _ _ _ _ st x) as [[st2 x2] r] eqn:Et. injection E as <- <- _.
  eapply (try_engines_polite (route q)) in Et as (H1' & H2' & H3' & H4');
    [|apply route_polite | apply route_nodup | done].
  by split_and!.
Qed.
End Polite.

(** ** What a search answers *)

Section Answers.
Context {X : Type} `{Curl X} (now_ns : X -> Z) (random_device : X -> X * Z) {J : Type} `{Json J}.

(** Every entry of the cache holds some rows, twenty at most. *)
Definition some_rows (m : Z) (rows : list WebSearchResult) : Prop := 1 <= Z.of_nat (length rows) <= m.
Definition cache_ok (st : SearchState) : Prop := map_Forall (fun _ e => some_rows 20 (ce_rows e)) (entries_ st).

Lemma take_rows_length {A} row m (l : list A) : 0 <= m -> Z.of_nat (length (take_rows row m l)) <= m.
Proof. intros Hm. unfold take_rows. rewrite length_imap, length_take. lia. Qed.

Lemma collect_length {A} row m (l : list A) rows :
  Z.of_nat (length rows) <= m -> Z.of_nat (length (collect row m l rows)) <= m.
Proof.
  revert rows. induction l as [|a l IH]; intros rows Hr; cbn [collect]; [done|].
  destruct (Z.ltb_spec (Z.of_nat (length rows)) m); [|done]. apply IH.
  destruct (row _ a); [rewrite length_app; cbn; lia | done].
Qed.

(** What an engine does for the answer: rows within the limit, or a failure under its
    name; rows that were not asked for now come from the cache. *)
Definition answers (engine : string) (query : string) (m : Z) (f : Step (X := X) EngineOutcome) : Prop :=
  forall st x st1 x1 oc, cache_ok st -> f st x = (st1, x1, oc) ->
    cache_ok st1 /\ oc_engine oc = engine /\
    (forall k, k <> cache_key engine query -> entries_ st1 !! k = entries_ st !! k) /\
    (oc_ok oc = true -> some_rows 20 (oc_rows oc) /\
       (entries_ st !! cache_key engine query = None -> some_rows m (oc_rows oc))).

Lemma ask_answers engine name fetch challenge parse zero query m st (x : X) st1 x1 oc :
  (forall st x, entries_ (fetch st x).1.1 = entries_ st) ->
  (forall x body, Z.of_nat (length (parse x body)) <= m) ->
  engine_ask now_ns engine name fetch challenge parse zero query st x = (st1, x1, oc) ->
  oc_engine oc = engine /\
  (entries_ st1 = entries_ st /\ oc_ok oc = false \/
   exists rows t, entries_ st1 = <[cache_key engine query := mkCacheEntry rows t]> (entries_ st) /\
     oc_ok oc = true /\ oc_rows oc = rows /\ some_rows m rows).
Proof.
  intros Hf Hp. unfold engine_ask. destruct (CooldownBefore now_ns engine st x) as [st2 x2] eqn:Ec.
  assert (entries_ st2 = entries_ st) as E2
    by (unfold CooldownBefore in Ec; destruct (CooldownFor engine); by injection Ec as <- _).
  pose proof (Hf st2 x2) as E3. destruct (fetch st2 x2) as [[st3 x3] resp]. cbn [fst] in E3. rewrite E2 in E3.
  destruct (wr_isCurlError resp); [intros [= <- _ <-]; split; [done | by left]|].
  destruct (match challenge with Some f => f _ _ | None => false end); [intros [= <- _ <-]; split; [done | by left]|].
  destruct (negb _); [intros [= <- _ <-]; split; [done | by left]|].
  pose proof (Hp x3 (wr_body resp)) as Hl.
  destruct (parse x3 (wr_body resp)) as [|r rows]; intros [= <- _ <-]; (split; [done|]); [by left|].
  right. eexists (r :: rows), _. cbn. rewrite E3. split_and!; [done..|]. unfold some_rows. cbn in *. lia.
Qed.

Lemma engine_answers engine name fetch challenge parse zero query m :
  1 <= m <= 20 -> (forall st x, entries_ (fetch st x).1.1 = entries_ st) ->
  (forall x body, Z.of_nat (length (parse x body)) <= m) ->
  answers engine query m (engine_call now_ns engine name fetch challenge parse zero query).
Proof.
  intros Hm Hf Hp st x st1 x1 oc Hok. unfold engine_call, Lookup.
  destruct (entries_ st !! cache_key engine query) as [e|] eqn:E.
  - destruct (expiresAt e <=? now_ns x).
    + intros Ea. apply ask_answers with (m := m) in Ea as (He & Ha); [|done..]. cbn [entries_ set_entries] in Ha.
      assert (forall k, k <> cache_key engine query -> delete (cache_key engine query) (entries_ st) !! k = entries_ st !! k)
        as Hd by (intros k Hk; by rewrite lookup_delete_ne).
      unfold cache_ok. destruct Ha as [[-> ->]|(rows & t & -> & _ & -> & Hr)].
      * split_and!; [by apply map_Forall_delete | done | done | done].
      * split_and!; [|done| |]; [|intros k Hk; by rewrite lookup_insert_ne, Hd | intros _; split; [|done]].
        -- apply map_Forall_insert_2; [|by apply map_Forall_delete]. unfold some_rows in *. cbn. lia.
        -- unfold some_rows in *. lia.
    + intros [= <- <- <-]. split_and!; [done..|]. intros _. split; [by apply (Hok _ _ E) | done].
  - intros Ea. apply ask_answers with (m := m) in Ea as (He & Ha); [|done..].
    unfold cache_ok. destruct Ha as [[-> ->]|(rows & t & -> & _ & -> & Hr)]; [by split_and!|].
    split_and!; [|done| |]; [|intros k Hk; by rewrite lookup_insert_ne | intros _; split; [|done]].
    + apply map_Forall_insert_2; [|done]. unfold some_rows in *. cbn. lia.
    + unfold some_rows in *. lia.
Qed.

Lemma agent_entries st (x : X) : entries_ (PickUserAgent random_device st x).1.1 = entries_ st.
Proof. unfold PickUserAgent. destruct (user_agent st); [done|]. by destruct (random_device x). Qed.

Lemma get_entries url t referer challenge noProxy st (x : X) :
  entries_ (fetch_get random_device url t referer challenge noProxy st x).1.1 = entries_ st.
Proof.
  unfold fetch_get. pose proof (agent_entries st x) as He. destruct (PickUserAgent _ st x) as [[st0 x0] ua].
  by destruct (HttpGetWithRetry _ _ _ _ _ _ _ x0).
Qed.

Lemma ddg_entries query t st (x : X) : entries_ (ddg_fetch random_device query t st x).1.1 = entries_ st.
Proof.
  unfold ddg_fetch. pose proof (agent_entries st x) as He. destruct (PickUserAgent _ st x) as [[st0 x0] ua].
  by destruct (HttpPostOnce _ _ _ _ _ _ x0).
Qed.

Lemma wikipedia_length (x : X) body m : 0 <= m -> Z.of_nat (length (ParseWikipediaResults (J := J) x body m)) <= m.
Proof. intros Hm. unfold ParseWikipediaResults. repeat case_match; try (cbn; lia). by apply collect_length. Qed.

Lemma route_answers query m t : 1 <= m <= 20 ->
  Forall2 (fun s fn => answers s query m (fn query m t)) (route query) (engines_for now_ns random_device (J := J) query).
Proof.
  intros Hm. unfold route, engines_for.
  destruct (ContainsCJK query); repeat first [apply Forall2_nil_2 | apply Forall2_cons_2];
    (apply engine_answers; [done | intros; first [apply get_entries | apply ddg_entries] |]); intros x body.
  - by apply collect_length; cbn; lia.
  - apply take_rows_length. lia.
  - apply take_rows_length. lia.
  - apply wikipedia_length. lia.
  - by apply collect_length; cbn; lia.
Qed.

Lemma cache_key_inj a b query : cache_key a query = cache_key b query -> a = b.
Proof.
  unfold cache_key. intros E. assert (String.length a = String.length b) as Hl.
  { apply (f_equal String.length) in E. rewrite !str_length_app in E. lia. }
  rewrite <- (str_take_app a ("|" +:+ query)), E, Hl. apply str_take_app.
Qed.

Lemma try_engines_answers slots fns query m t errs st (x : X) st1 x1 r :
  Forall2 (fun s fn => answers s query m (fn query m t)) slots fns -> NoDup slots -> cache_ok st ->
  try_engines fns query m t errs st x = (st1, x1, r) ->
  cache_ok st1 /\
  match r with
  | inl errs' => exists es, errs' = errs ++ es /\ Forall2 (fun s e => starts_with (s +:+ ": ") e = true) slots es
  | inr oc => oc_engine oc ∈ slots /\ some_rows 20 (oc_rows oc) /\
      ((forall s, s ∈ slots -> entries_ st !! cache_key s query = None) -> some_rows m (oc_rows oc))
  end.
Proof.
  intros Hp. revert errs st x. induction Hp as [|s fn slots fns Hs Hp IH]; intros errs st x Hnd Hc E; cbn [try_engines] in E.
  { injection E as <- _ <-. split; [done|]. exists []. by rewrite app_nil_r. }
  apply NoDup_cons in Hnd as [Hns Hnd]. destruct (fn query m t st x) as [[st0 x0] oc] eqn:Ef.
  destruct (Hs _ _ _ _ _ Hc Ef) as (Hc0 & He & Ho & Hok). destruct (oc_ok oc).
  - injection E as <- _ <-. destruct (Hok eq_refl) as [H20 Hm]. split; [done|]. rewrite He.
    split; [by left|]. split; [done|]. intros Hn. apply Hm, Hn. by left.
  - apply IH in E as [Hc1 Hr]; [|done..]. split; [done|]. destruct r as [errs'|oc'].
    + destruct Hr as (es & -> & Hes). eexists (_ :: es). rewrite <- app_assoc. split; [done|].
      constructor; [|done]. rewrite He, <- str_app_assoc. apply starts_with_app.
    + destruct Hr as (Hin & H20 & Hm). split; [by right|]. split; [done|]. intros Hn. apply Hm. intros s' Hs'.
      rewrite Ho; [apply Hn; by right|]. intros ->%cache_key_inj. done.
Qed.

Lemma bounded_range lo hi z : lo <= hi -> lo <= bounded lo hi z <= hi.
Proof. intros Hl. unfold bounded. destruct (Z.ltb_spec hi (Z.max lo z)); lia. Qed.

(** What a search answers.  Input that is not JSON, or has no query, is said so.
    Otherwise the answer lists between one and twenty rows of one engine of the route the
    query's language chooses (no more than asked for, unless an engine of the route had
    them in the cache), or it fails with one line for each engine of the route, in order.
    The cache keeps its promise that every entry has between one and twenty rows. *)
Theorem search_answers (input answer : string) (st st1 : SearchState) (x x1 : X) :
  cache_ok st -> WebSearch now_ns random_device (J := J) input st x = (st1, x1, answer) ->
  cache_ok st1 /\
  match search_input (J := J) input with
  | Throw e => answer = "Error: invalid JSON input: " +:+ e
  | Ok (text, m, _) =>
      match trim4 text with
      | None => answer = "Error: query is required and cannot be empty"
      | Some query =>
          (exists engine rows, engine ∈ route query /\ answer = results_text query engine rows /\ some_rows 20 rows /\
             ((forall s, s ∈ route query -> entries_ st !! cache_key s query = None) -> some_rows (bounded 1 20 m) rows)) \/
          (exists errs, answer = failure_text query errs /\
             Forall2 (fun s e => starts_with (s +:+ ": ") e = true) (route query) errs)
      end
  end.
Proof.
  intros Hc E. unfold WebSearch in E.
  destruct (search_input input) as [[[text m] t]|e]; [|by injection E as <- _ <-].
  destruct (trim4 text) as [query|]; [|by injection E as <- _ <-].
  destruct (try_engines _ _ _ _ _ st x) as [[st2 x2] r] eqn:Et. injection E as <- _ <-.
  pose proof (bounded_range 1 20 m ltac:(lia)) as Hm.
  eapply (try_engines_answers (route query)) in Et as [H1' H2']; [|by apply route_answers | apply route_nodup | done].
  split; [done|]. destruct r as [errs|oc].
  - right. destruct H2' as (es & -> & Hes). by exists es.
  - left. exists (oc_engine oc), (oc_rows oc). by destruct H2' as (? & ? & ?).
Qed.
End Answers.

(** ** Examples *)

#[local] Instance ex_json_search : Json JsonTree.json := JsonTree.instance [].

(** A world with a clock in nanoseconds and a count of requests; every page holds one
    result of the lite site. *)
#[local] Instance ex_curl_search : Curl (Z * nat) := {|
  curl_handle := fun _ => true;
  curl_easy_perform := fun _ '(t, n) => ((t + 1000, S n), [ddg_page [ex_item; ex_item] ""], CURLE_OK, 200);
  curl_easy_strerror := fun _ => "";
  curl_easy_escape := fun s => s;
  curl_easy_unescape := Some;
  curl_elapse := fun x => x;
  random_upto := fun _ x => (x, 0);
  sleep_ms := fun ms '(t, n) => (t + Z.max 0 ms * 1000000, n);
  logs_info := fun _ => false
|}.
#[local] Instance ex_world_search : NetWorld (Z * nat) fst (fun x => (x, 7)) snd.
Proof. split; [intros opts [t n] | intros ms [t n] | intros [t n]]; cbn; lia. Qed.

Definition ex_start : SearchState := mkSearchState {[ "duckduckgo" := 5000000000 ]} ∅ None.

Lemma search_polite_witness :
  exists st1 x1 answer, WebSearch fst (fun x => (x, 7)) (J := JsonTree.json) " sql " ex_start (6000000000, 0%nat) = (st1, x1, answer) /\
    5000000000 + 8 * second <= last_call "duckduckgo" st1.
Proof.
  destruct (WebSearch fst (fun x => (x, 7)) (J := JsonTree.json) " sql " ex_start (6000000000, 0%nat)) as [[st1 x1] answer] eqn:E.
  exists st1, x1, answer. split; [reflexivity|].
  destruct (search_polite (J := JsonTree.json) (requests := snd) " sql " ex_start st1 (6000000000, 0%nat) x1 answer) as (_ & Hs & _); [|exact E|].
  - intros s. unfold last_call, ex_start. cbn [lastCall fst]. destruct (decide (s = "duckduckgo")) as [->|Hn].
    + vm_compute. discriminate.
    + rewrite lookup_singleton_ne by congruence. cbn. lia.
  - destruct (Hs "duckduckgo") as [He|He]; [|exact He]. exfalso.
    assert (last_call "duckduckgo" st1 = 13000000000) as H1 by (vm_compute in E; injection E as <- _ _; reflexivity).
    rewrite H1 in He. vm_compute in He. discriminate.
Defined.

Lemma search_answers_witness :
  exists st1 x1 answer, WebSearch fst (fun x => (x, 7)) (J := JsonTree.json) "sql" ex_start (6000000000, 0%nat) = (st1, x1, answer) /\
    cache_ok st1 /\ answer <> "Error: query is required and cannot be empty".
Proof.
  destruct (WebSearch fst (fun x => (x, 7)) (J := JsonTree.json) "sql" ex_start (6000000000, 0%nat)) as [[st1 x1] answer] eqn:E.
  exists st1, x1, answer. split; [reflexivity|].
  destruct (search_answers (J := JsonTree.json) fst (fun x => (x, 7)) "sql" answer ex_start st1 (6000000000, 0%nat) x1
    (map_Forall_empty _) E) as [Hc _].
  split; [exact Hc|]. vm_compute in E. injection E as _ _ <-. discriminate.
Defined.

Lemma contains_cjk_spec_witness : ContainsCJK (string_concat (map encode_point [233; 128640; 26085; 120]))%N = true.
Proof. rewrite contains_cjk_spec by (repeat constructor; lia). reflexivity. Defined.

(** The cache does not know how many rows were asked for: after a search for two rows, one
    for one row gets two. *)
Definition ex_two : SearchState * (Z * nat) * EngineOutcome :=
  SearchDuckDuckGo fst (fun x => (x, 7)) "sql" 2 15 ex_start (6000000000, 0%nat).
Example ex_cached_limit :
  length (oc_rows (SearchDuckDuckGo fst (fun x => (x, 7)) "sql" 1 15 ex_two.1.1 ex_two.1.2).2) = 2%nat.
Proof. vm_compute. reflexivity. Qed.
