(* ===== verification/Calendar.v ===== *)
(** * Calendar time

    [std::gmtime] and [timegm] on the proleptic Gregorian calendar, and the proof that
    they are inverse; what the cron watcher relies on. *)
From Stdlib Require Import ZArith Lia.
From stdpp Require Import base tactics.
From S2P Require Import Prelude.
Open Scope Z_scope.

(** [std::tm]: the year counts from 1900, the month from 0 and the day of the week from
    Sunday. *)
Record TM := mkTM {
  t_year : Z;
  t_mon : Z;
  t_mday : Z;
  t_hour : Z;
  t_min : Z;
  t_sec : Z;
  t_wday : Z
}.
Definition set_t_sec (s : Z) (t : TM) : TM := mkTM (t_year t) (t_mon t) (t_mday t) (t_hour t) (t_min t) s (t_wday t).
Definition next_min (t : TM) : TM :=
  mkTM (t_year t) (t_mon t) (t_mday t) (t_hour t) (t_min t + 1) (t_sec t) (t_wday t).

(** Days before a year that starts in March, and before a month of it. *)
Definition year_days (y : Z) : Z := 365 * y + y / 4 - y / 100 + y / 400.
Definition month_days (mp : Z) : Z := (153 * mp + 2) / 5.

(** The days from 1970-01-01 to the first of a month, which need not be in [0..11]. *)
Definition month_start (year mon : Z) : Z :=
  let y := year + mon / 12 in
  let m := mon mod 12 in
  let y' := if m <? 2 then y - 1 else y in
  let mp := if m <? 2 then m + 10 else m - 2 in
  year_days y' + month_days mp - 719468.

Definition timegm (t : TM) : Z :=
  (month_start (t_year t + 1900) (t_mon t) + t_mday t - 1) * 86400 + t_hour t * 3600 + t_min t * 60 + t_sec t.

(** The year that starts in March, the month of it and the day, of a day counted from
    0000-03-01. *)
Definition civil (z : Z) : Z * Z * Z :=
  let era := z / 146097 in
  let doe := z - era * 146097 in
  let yoe := (doe - doe / 1460 + doe / 36524 - doe / 146096) / 365 in
  let doy := doe - (365 * yoe + yoe / 4 - yoe / 100) in
  let mp := (5 * doy + 2) / 153 in
  (yoe + era * 400, mp, doy - month_days mp + 1).

Definition gmtime (t : Z) : TM :=
  let days := t / 86400 in
  let sod := t mod 86400 in
  let '(y, mp, d) := civil (days + 719468) in
  let mon := if mp <? 10 then mp + 2 else mp - 10 in
  let year := if mp <? 10 then y else y + 1 in
  mkTM (year - 1900) mon d (sod / 3600) (sod mod 3600 / 60) (sod mod 60) ((days + 4) mod 7).

(** ** They are inverse *)

Lemma yoe_bounds doe : 0 <= doe <= 146096 ->
  let yoe := (doe - doe / 1460 + doe / 36524 - doe / 146096) / 365 in
  0 <= yoe <= 399 /\ 0 <= doe - (365 * yoe + yoe / 4 - yoe / 100) <= 365.
Proof.
  intros Hd yoe. subst yoe. Z.to_euclidean_division_equations. lia.
Qed.

Lemma year_days_era y era : year_days (y + era * 400) = year_days y + 146097 * era.
Proof. unfold year_days. Z.to_euclidean_division_equations. lia. Qed.

Lemma month_bounds doy : 0 <= doy <= 365 ->
  let mp := (5 * doy + 2) / 153 in 0 <= mp <= 11 /\ 0 <= doy - month_days mp <= 30.
Proof. intros Hd mp. subst mp. unfold month_days. Z.to_euclidean_division_equations. lia. Qed.

Lemma civil_spec z y mp d : civil z = (y, mp, d) ->
  0 <= mp <= 11 /\ 1 <= d <= 31 /\ year_days y + month_days mp + d - 1 = z.
Proof.
  unfold civil. set (era := z / 146097). set (doe := z - era * 146097).
  assert (0 <= doe <= 146096) as Hd.
  { unfold doe, era. pose proof (Z.div_mod z 146097 ltac:(lia)). pose proof (Z.mod_pos_bound z 146097 ltac:(lia)). lia. }
  pose proof (yoe_bounds doe Hd) as [Hy Hdoy]. set (yoe := (doe - _ + _ - _) / 365) in *.
  set (doy := doe - (365 * yoe + _ - _)) in *. pose proof (month_bounds doy Hdoy) as [Hm Hday].
  intros [= <- <- <-]. split; [done|]. split; [lia|]. rewrite year_days_era.
  assert (doe = year_days yoe + doy) as E.
  { unfold doy, year_days. rewrite (Z.div_small yoe 400) by lia. lia. }
  unfold doe in E. lia.
Qed.

(** Every field of a broken-down time is in its range. *)
Lemma gmtime_ranges t : 0 <= t_mon (gmtime t) <= 11 /\ 1 <= t_mday (gmtime t) <= 31 /\ 0 <= t_hour (gmtime t) <= 23 /\
  0 <= t_min (gmtime t) <= 59 /\ 0 <= t_sec (gmtime t) <= 59 /\ 0 <= t_wday (gmtime t) <= 6.
Proof.
  unfold gmtime. destruct (civil _) as [[y mp] d] eqn:E. apply civil_spec in E as (Hm & Hd & _).
  cbn [t_mon t_mday t_hour t_min t_sec t_wday].
  split; [destruct (Z.ltb_spec mp 10); lia|]. split; [done|].
  assert (0 <= t mod 86400 < 86400) by (apply Z.mod_pos_bound; lia).
  assert (0 <= (t / 86400 + 4) mod 7 < 7) by (apply Z.mod_pos_bound; lia).
  Z.to_euclidean_division_equations. lia.
Qed.

Lemma month_start_civil y mp d z : civil z = (y, mp, d) ->
  month_start (if mp <? 10 then y else y + 1) (if mp <? 10 then mp + 2 else mp - 10) + d - 1 = z - 719468.
Proof.
  intros (Hm & Hd & Hz)%civil_spec. unfold month_start. destruct (Z.ltb_spec mp 10).
  - rewrite Z.div_small, Z.mod_small by lia. destruct (Z.ltb_spec (mp + 2) 2); [lia|].
    rewrite Z.add_0_r, Z.add_simpl_r. lia.
  - rewrite Z.div_small, Z.mod_small by lia. destruct (Z.ltb_spec (mp - 10) 2); [|lia].
    rewrite Z.add_0_r, Z.add_simpl_r, Z.sub_add. lia.
Qed.

Lemma timegm_gmtime t : timegm (gmtime t) = t.
Proof.
  unfold timegm, gmtime. destruct (civil _) as [[y mp] d] eqn:E. apply month_start_civil in E.
  cbn [t_year t_mon t_mday t_hour t_min t_sec]. rewrite Z.sub_add, E.
  pose proof (Z.div_mod t 86400 ltac:(lia)). Z.to_euclidean_division_equations. lia.
Qed.

Lemma timegm_next_min t : timegm (next_min t) = timegm t + 60.
Proof. unfold timegm, next_min. cbn. lia. Qed.
Lemma timegm_set_sec s t : timegm (set_t_sec s t) = timegm t - t_sec t + s.
Proof. unfold timegm, set_t_sec. cbn. lia. Qed.
Lemma gmtime_sec t : t_sec (gmtime t) = t mod 60.
Proof.
  unfold gmtime. destruct (civil _) as [[y mp] d]. cbn. Z.to_euclidean_division_equations. lia.
Qed.

Example ex_epoch : gmtime 0 = mkTM 70 0 1 0 0 0 4.
Proof. reflexivity. Qed.
Example ex_leap_day : gmtime 1709208330 = mkTM 124 1 29 12 5 30 4.
Proof. reflexivity. Qed.
