(* ===== verification/Cron.v ===== *)
(** * Cron expressions (examples/jiuwenClaw/cron_watcher.cpp)

    [MatchesField], [MatchesCronExpression] and [CalculateNextFire], against a reference
    semantics of expressions: the next fire time is the first matching minute. *)
From Stdlib Require Import ZArith Lia String Ascii List.
From stdpp Require Import base decidable list strings pretty.
From S2P Require Import Prelude Numbers Calendar.
Open Scope Z_scope.

(** ** Fields *)

Definition rbind {A B} (m : res A) (k : A -> res B) : res B :=
  match m with Val a => k a | Exc e => Exc e | Undefined => Undefined end.

(** [std::stoi], with the exception of libstdc++. *)
Definition stoi_res (s : string) : res Z := match stoi s with Some z => Val z | None => Exc "stoi" end.

(** The pieces [std::getline] gives with a comma for a delimiter. *)
Fixpoint commas_aux (cur s : string) : list string :=
  match s with
  | "" => if str_empty cur then [] else [cur]
  | String c s' => if Ascii.eqb c "," then cur :: commas_aux "" s' else commas_aux (cur +:+ String c "") s'
  end.
Definition commas (s : string) : list string := commas_aux "" s.

(** The loop over [v]; [v += step] overflows when it leaves [int]. *)
Fixpoint step_loop (fuel : nat) (v step maxVal value : Z) : res bool :=
  if maxVal <? v then Val false
  else if v =? value then Val true
  else match int_result (v + step), fuel with
       | Some v, S n => step_loop n v step maxVal value
       | _, _ => Undefined
       end.

Definition wildcard (field : string) : bool := String.eqb field "*" || String.eqb field "?".

(** A field without a comma. *)
Definition plain_field (field : string) (value minVal maxVal : Z) : res bool :=
  match find_char "-" field 0 with
  | Some dashPos =>
      rbind (stoi_res (str_take dashPos field)) (fun start =>
      rbind (stoi_res (str_drop (dashPos + 1) field)) (fun stop =>
      Val ((start <=? value) && (value <=? stop))))
  | None =>
      match find_char "/" field 0 with
      | Some slashPos =>
          let base := str_take slashPos field in
          rbind (stoi_res (str_drop (slashPos + 1) field)) (fun step =>
          if step <=? 0 then Val false
          else
            rbind (if String.eqb base "*" then Val minVal else stoi_res base) (fun start =>
            step_loop (Z.to_nat (maxVal - start + 1)) start step maxVal value))
      | None => rbind (stoi_res field) (fun target => Val (value =? target))
      end
  end.

(** The recursive call on a piece, which has no comma. *)
Definition piece_matches (part : string) (value minVal maxVal : Z) : res bool :=
  if wildcard part then Val true else plain_field part value minVal maxVal.

Fixpoint any_matches (parts : list string) (value minVal maxVal : Z) : res bool :=
  match parts with
  | [] => Val false
  | part :: parts =>
      rbind (piece_matches part value minVal maxVal) (fun b =>
      if b : bool then Val true else any_matches parts value minVal maxVal)
  end.

Definition MatchesField (field : string) (value minVal maxVal : Z) : res bool :=
  if wildcard field then Val true
  else if occurs "," field then any_matches (commas field) value minVal maxVal
  else plain_field field value minVal maxVal.

(** ** Expressions *)

Record Fields := mkFields { minStr : string; hourStr : string; dayStr : string; monthStr : string; weekdayStr : string }.

(** The five words read from the expression. *)
Definition read_fields (cronExpr : string) : option Fields :=
  match words cronExpr with
  | a :: b :: c :: d :: e :: _ => Some (mkFields a b c d e)
  | _ => None
  end.

(** [&&] of calls that may throw. *)
Definition rand (a b : res bool) : res bool := rbind a (fun a => if a : bool then b else Val false).

Definition MatchesCronExpression (cronExpr : string) (tm : TM) : res bool :=
  match read_fields cronExpr with
  | None => Val false
  | Some f =>
      rand (MatchesField (minStr f) (t_min tm) 0 59)
        (rand (MatchesField (hourStr f) (t_hour tm) 0 23)
           (rand (MatchesField (dayStr f) (t_mday tm) 1 31)
              (rand (MatchesField (monthStr f) (t_mon tm + 1) 1 12)
                 (MatchesField (weekdayStr f) (t_wday tm) 0 6))))
  end.

Definition day_matches (f : Fields) (tm : TM) : res bool :=
  let dom := MatchesField (dayStr f) (t_mday tm) 1 31 in
  let dow := MatchesField (weekdayStr f) (t_wday tm) 0 6 in
  match wildcard (dayStr f), wildcard (weekdayStr f) with
  | true, true => Val true
  | true, false => dow
  | false, true => dom
  | false, false => rbind dom (fun a => rbind dow (fun b => Val (a || b)))
  end.

Definition minute_matches (f : Fields) (tm : TM) : res bool :=
  rbind (day_matches f tm) (fun dayMatches =>
  rand (MatchesField (minStr f) (t_min tm) 0 59)
    (rand (MatchesField (hourStr f) (t_hour tm) 0 23)
       (rand (Val dayMatches) (MatchesField (monthStr f) (t_mon tm + 1) 1 12)))).

(** The loop; [n] minutes are left. *)
Fixpoint next_loop (n : nat) (f : Fields) (afterTime : Z) (tm : TM) : res Z :=
  match n with
  | O => Val (afterTime + 60)
  | S n =>
      let currentTime := timegm tm in
      if currentTime =? -1 then Val (afterTime + 60)
      else
        let tm := gmtime currentTime in
        rbind (minute_matches f tm) (fun m =>
        if m : bool then Val currentTime else next_loop n f afterTime (next_min tm))
  end.

Definition kYearMinutes : nat := Z.to_nat 525600.

Definition CalculateNextFire (cronExpr : string) (afterTime : Z) : res Z :=
  match read_fields cronExpr with
  | None => Val (afterTime + 60)
  | Some f => next_loop kYearMinutes f afterTime (next_min (set_t_sec 0 (gmtime afterTime)))
  end.

(** ** Reference semantics *)

(** One item of a list: every value, a number, a range, every so many from a start. *)
Inductive citem := CAll | CNum (n : Z) | CRange (a b : Z) | CEvery (base : option Z) (step : Z).

Definition item_ok (i : citem) : Prop :=
  let num n := 0 <= n < 2 ^ 30 in
  match i with
  | CAll => True
  | CNum n => num n
  | CRange a b => num a /\ num b
  | CEvery base step => match base with Some b => num b | None => True end /\ 0 < step < 2 ^ 30
  end.

Definition print_item (i : citem) : string :=
  match i with
  | CAll => "*"
  | CNum n => to_string n
  | CRange a b => to_string a +:+ "-" +:+ to_string b
  | CEvery base step => match base with Some b => to_string b | None => "*" end +:+ "/" +:+ to_string step
  end.

Definition item_sem (lo hi v : Z) (i : citem) : bool :=
  match i with
  | CAll => true
  | CNum n => v =? n
  | CRange a b => (a <=? v) && (v <=? b)
  | CEvery base step => let start := default lo base in (start <=? v) && (v <=? hi) && ((v - start) mod step =? 0)
  end.

(** A list of items, with commas between. *)
Fixpoint print_items (i : citem) (l : list citem) : string :=
  match l with [] => print_item i | j :: l => print_item i +:+ "," +:+ print_items j l end.
Definition cfield : Type := citem * list citem.
Definition print_field (f : cfield) : string := print_items f.1 f.2.
Definition field_ok (f : cfield) : Prop := Forall item_ok (f.1 :: f.2).
Definition field_sem (lo hi : Z) (f : cfield) (v : Z) : bool := existsb (item_sem lo hi v) (f.1 :: f.2).
Definition field_any (f : cfield) : bool := match f with (CAll, []) => true | _ => false end.

Record Cron := mkCron { c_min : cfield; c_hour : cfield; c_dom : cfield; c_mon : cfield; c_dow : cfield }.
Definition cron_ok (c : Cron) : Prop :=
  field_ok (c_min c) /\ field_ok (c_hour c) /\ field_ok (c_dom c) /\ field_ok (c_mon c) /\ field_ok (c_dow c).
Definition print_cron (c : Cron) : string :=
  print_field (c_min c) +:+ " " +:+ print_field (c_hour c) +:+ " " +:+ print_field (c_dom c) +:+ " "
  +:+ print_field (c_mon c) +:+ " " +:+ print_field (c_dow c).

(** The rule of cron: with both days restricted, either may match. *)
Definition cron_sem (c : Cron) (t : TM) : bool :=
  let dom := field_sem 1 31 (c_dom c) (t_mday t) in
  let dow := field_sem 0 6 (c_dow c) (t_wday t) in
  field_sem 0 59 (c_min c) (t_min t) && field_sem 0 23 (c_hour c) (t_hour t) && field_sem 1 12 (c_mon c) (t_mon t + 1) &&
  (if field_any (c_dom c) || field_any (c_dow c) then dom && dow else dom || dow).

(** ** The fields follow the reference *)

Lemma step_loop_spec (fuel : nat) (v step maxVal value : Z) :
  0 <= v -> 0 < step < 2 ^ 30 -> maxVal < 2 ^ 30 -> maxVal - v < Z.of_nat fuel ->
  step_loop fuel v step maxVal value
  = Val ((v <=? value) && (value <=? maxVal) && ((value - v) mod step =? 0)).
Proof.
  revert v. induction fuel as [|fuel IH]; intros v Hv Hs Hm Hf; cbn [step_loop].
  { destruct (Z.ltb_spec maxVal v); [|lia]. f_equal. symmetry. destruct (Z.leb_spec v value); [|done].
    by destruct (Z.leb_spec value maxVal); [lia|]. }
  destruct (Z.ltb_spec maxVal v).
  { f_equal. symmetry. destruct (Z.leb_spec v value); [|done]. by destruct (Z.leb_spec value maxVal); [lia|]. }
  destruct (Z.eqb_spec v value) as [<-|Hne].
  { rewrite Z.sub_diag, Z.mod_0_l by lia. destruct (Z.leb_spec v v); [|lia]. by destruct (Z.leb_spec v maxVal); [|lia]. }
  rewrite int_result_ok by lia. rewrite IH by lia. f_equal.
  destruct (Z.leb_spec v value), (Z.leb_spec (v + step) value); cbn [andb]; try done; try lia.
  - f_equal. f_equal. replace (value - v) with (value - (v + step) + 1 * step) by lia. by rewrite Z.mod_add by lia.
  - rewrite Z.mod_small by lia. destruct (Z.eqb_spec (value - v) 0); [lia|]. by rewrite andb_false_r.
Qed.

Lemma stoi_num n : 0 <= n < 2 ^ 30 -> stoi_res (to_string n) = Val n.
Proof. intros Hn. unfold stoi_res. by rewrite stoi_to_string by lia. Qed.

Lemma wildcard_print i : wildcard (print_item i) = true -> item_ok i -> i = CAll.
Proof.
  intros Hw Hi. unfold wildcard in Hw. destruct i as [|n|a b|base step]; cbn in *; [done|exfalso..].
  - apply orb_true_iff in Hw as [Hw%String.eqb_eq|Hw%String.eqb_eq]; pose proof (digits_only n) as Hd; rewrite Hw in Hd.
    + by specialize (Hd "*"%char ltac:(lia) eq_refl).
    + by specialize (Hd "?"%char ltac:(lia) eq_refl).
  - apply orb_true_iff in Hw as [Hw%String.eqb_eq|Hw%String.eqb_eq]; apply (f_equal (occurs "-")) in Hw;
      rewrite occurs_app in Hw; cbn in Hw; by rewrite orb_true_r in Hw.
  - apply orb_true_iff in Hw as [Hw%String.eqb_eq|Hw%String.eqb_eq]; apply (f_equal (occurs "/")) in Hw;
      rewrite occurs_app in Hw; cbn in Hw; by rewrite orb_true_r in Hw.
Qed.

Lemma plain_field_item i v lo hi : item_ok i -> i <> CAll -> 0 <= lo -> hi < 2 ^ 30 ->
  plain_field (print_item i) v lo hi = Val (item_sem lo hi v i).
Proof.
  intros Hi Hn Hlo Hhi. destruct i as [|n|a b|base step]; [done|..]; cbn [print_item item_ok item_sem] in *; unfold plain_field.
  - rewrite !find_char_none by (apply digits_only; [lia|done]). by rewrite stoi_num.
  - destruct Hi as [Ha Hb]. change ("-" +:+ ?t) with (String "-" t).
    rewrite find_char_first by (apply digits_only; [lia|done]). rewrite str_take_app, str_drop_app_S.
    by rewrite !stoi_num.
  - destruct Hi as [Hb Hs]. set (bs := match base with Some b => to_string b | None => "*" end).
    assert (occurs "-" bs = false /\ occurs "/" bs = false) as [Hb1 Hb2]
      by (unfold bs; destruct base; [split; apply digits_only; [lia|done|lia|done] | done]).
    rewrite find_char_none.
    2:{ rewrite !occurs_app, Hb1, (digits_only step) by (lia || done). done. }
    change ("/" +:+ ?t) with (String "/" t). rewrite find_char_first, str_take_app, str_drop_app_S by done.
    rewrite stoi_num by lia. cbn [rbind]. destruct (Z.leb_spec step 0); [lia|].
    assert ((if String.eqb bs "*" then Val lo else stoi_res bs) = Val (default lo base)) as ->.
    { unfold bs. destruct base as [b|]; [|done]. destruct (String.eqb_spec (to_string b) "*") as [E|]; [|by apply stoi_num].
      pose proof (digits_only b "*" ltac:(lia) eq_refl) as Hd. by rewrite E in Hd. }
    cbn [rbind]. apply step_loop_spec; try lia; destruct base; cbn in *; lia.
Qed.

Lemma piece_item i v lo hi : item_ok i -> 0 <= lo -> hi < 2 ^ 30 ->
  piece_matches (print_item i) v lo hi = Val (item_sem lo hi v i).
Proof.
  intros Hi Hlo Hhi. unfold piece_matches. destruct (wildcard (print_item i)) eqn:Hw.
  - by apply wildcard_print in Hw as ->.
  - apply plain_field_item; try done. by intros ->.
Qed.

(** A printed item has none of the characters that separate items and fields. *)
Lemma item_char (d : ascii) i : item_ok i -> digit_of d = None -> occurs d "*-/" = false -> occurs d (print_item i) = false.
Proof.
  intros Hi Hd Ho. cbn in Ho. apply orb_false_iff in Ho as [H1 [H2 [H3 _]%orb_false_iff]%orb_false_iff].
  destruct i as [|n|a b|base step]; cbn [item_ok print_item] in *.
  - cbn. by rewrite H1.
  - apply digits_only; [lia|done].
  - rewrite !occurs_app, !digits_only by (lia || done). cbn. by rewrite H2.
  - rewrite !occurs_app, (digits_only step) by (lia || done). cbn. rewrite H3.
    destruct base; [rewrite digits_only by (lia || done) | cbn; rewrite H1]; done.
Qed.

Lemma item_not_empty i : print_item i <> "".
Proof.
  destruct i as [|n|a b|base step]; cbn; [done | apply to_string_not_empty | |].
  - pose proof (to_string_not_empty a). by destruct (to_string a).
  - destruct base as [b|]; [|done]. pose proof (to_string_not_empty b). by destruct (to_string b).
Qed.

Lemma commas_aux_app cur a s : occurs "," a = false -> commas_aux cur (a +:+ s) = commas_aux (cur +:+ a) s.
Proof.
  revert cur. induction a as [|c a IH]; intros cur Ha; [by rewrite str_app_nil_r|].
  cbn [occurs] in Ha. apply orb_false_iff in Ha as [Hc Ha]. cbn. rewrite Ascii.eqb_sym in Hc. rewrite Hc, IH by done.
  by rewrite str_app_assoc.
Qed.

Lemma commas_items i l : Forall item_ok (i :: l) -> commas (print_items i l) = map print_item (i :: l).
Proof.
  unfold commas. revert i. induction l as [|j l IH]; intros i [Hi Hl]%Forall_cons.
  - cbn [print_items map]. rewrite <- (str_app_nil_r (print_item i)) at 1. rewrite commas_aux_app by by apply item_char.
    cbn. pose proof (item_not_empty i). by destruct (print_item i).
  - cbn [print_items]. rewrite commas_aux_app by by apply item_char. cbn. f_equal. by apply IH.
Qed.

Lemma any_items l v lo hi : Forall item_ok l -> 0 <= lo -> hi < 2 ^ 30 ->
  any_matches (map print_item l) v lo hi = Val (existsb (item_sem lo hi v) l).
Proof.
  intros Hl Hlo Hhi. induction Hl as [|i l Hi Hl IH]; [done|]. cbn [map any_matches existsb].
  rewrite piece_item by done. cbn [rbind]. destruct (item_sem lo hi v i); [done | exact IH].
Qed.

Lemma field_spec f v lo hi : field_ok f -> 0 <= lo -> hi < 2 ^ 30 ->
  MatchesField (print_field f) v lo hi = Val (field_sem lo hi f v).
Proof.
  intros Hf Hlo Hhi. destruct f as [i [|j l]]; unfold field_ok, print_field, field_sem in *; cbn [fst snd] in *.
  - apply Forall_cons in Hf as [Hi _]. cbn [print_items existsb]. rewrite orb_false_r.
    pose proof (piece_item i v lo hi Hi Hlo Hhi) as Hp. unfold piece_matches in Hp. unfold MatchesField.
    destruct (wildcard _); [done|]. by rewrite item_char.
  - rewrite <- any_items, <- commas_items by done. unfold MatchesField.
    assert (occurs "," (print_items i (j :: l)) = true) as Ho by (cbn [print_items]; by rewrite !occurs_app, orb_true_r).
    rewrite Ho. destruct (wildcard _) eqn:Hw; [|done]. unfold wildcard in Hw.
    by apply orb_true_iff in Hw as [Hw%String.eqb_eq|Hw%String.eqb_eq]; rewrite Hw in Ho.
Qed.

Lemma wildcard_field f : field_ok f -> wildcard (print_field f) = field_any f.
Proof.
  intros Hf. destruct f as [i [|j l]]; unfold field_ok, print_field, field_any in *; cbn [fst snd print_items] in *.
  - apply Forall_cons in Hf as [Hi _]. destruct (wildcard (print_item i)) eqn:Hw; [by apply wildcard_print in Hw as ->|].
    by destruct i.
  - assert (occurs "," (print_item i +:+ "," +:+ print_items j l) = true) as Ho by (by rewrite !occurs_app, orb_true_r).
    destruct (wildcard _) eqn:Hw; [|by destruct i].
    by apply orb_true_iff in Hw as [Hw%String.eqb_eq|Hw%String.eqb_eq]; rewrite Hw in Ho.
Qed.

Lemma words_aux_app cur a s : (forall c, occurs c a = true -> is_space c = false) ->
  words_aux cur (a +:+ s) = words_aux (cur +:+ a) s.
Proof.
  revert cur. induction a as [|c a IH]; intros cur Ha; [by rewrite str_app_nil_r|].
  cbn. rewrite (Ha c) by (cbn; by rewrite Ascii.eqb_refl). rewrite IH.
  - by rewrite str_app_assoc.
  - intros d Hd. apply Ha. cbn. by rewrite Hd, orb_true_r.
Qed.

Lemma words_cons a s : a <> "" -> (forall c, occurs c a = true -> is_space c = false) ->
  words (a +:+ " " +:+ s) = a :: words s.
Proof. intros Hn Ha. unfold words. rewrite words_aux_app by done. cbn. by destruct a. Qed.

Lemma words_one a : a <> "" -> (forall c, occurs c a = true -> is_space c = false) -> words a = [a].
Proof.
  intros Hn Ha. unfold words. rewrite <- (str_app_nil_r a) at 1. rewrite words_aux_app by done. cbn. by destruct a.
Qed.

Lemma items_word i l : Forall item_ok (i :: l) ->
  print_items i l <> "" /\ forall c, occurs c (print_items i l) = true -> is_space c = false.
Proof.
  assert (forall i, item_ok i -> forall c, occurs c (print_item i) = true -> is_space c = false) as Hi.
  { clear i; intros i Hi c Hc. destruct (is_space c) eqn:Es; [|done]. rewrite item_char in Hc; [done|done|..];
      destruct c as [[] [] [] [] [] [] [] []]; done. }
  revert i. induction l as [|j l IH]; intros i [Hok Hl]%Forall_cons; cbn [print_items].
  - split; [apply item_not_empty | by apply Hi].
  - split; [pose proof (item_not_empty i); by destruct (print_item i)|]. intros c Hc. rewrite !occurs_app in Hc.
    apply orb_true_iff in Hc as [Hc|[Hc|Hc]%orb_true_iff]; [by eapply Hi | | by apply (IH j)].
    cbn in Hc. rewrite orb_false_r in Hc. by apply Ascii.eqb_eq in Hc as ->.
Qed.

Lemma read_cron c : cron_ok c -> read_fields (print_cron c)
  = Some (mkFields (print_field (c_min c)) (print_field (c_hour c)) (print_field (c_dom c)) (print_field (c_mon c))
            (print_field (c_dow c))).
Proof.
  intros (H1 & H2 & H3 & H4 & H5). apply items_word in H1 as [? ?], H2 as [? ?], H3 as [? ?], H4 as [? ?], H5 as [? ?].
  unfold read_fields, print_cron. by rewrite !words_cons, words_one.
Qed.

(** ** The next fire time *)

Definition cron_fields (c : Cron) : Fields :=
  mkFields (print_field (c_min c)) (print_field (c_hour c)) (print_field (c_dom c)) (print_field (c_mon c))
    (print_field (c_dow c)).

Lemma minute_spec c t : cron_ok c -> minute_matches (cron_fields c) t = Val (cron_sem c t).
Proof.
  intros (H1 & H2 & H3 & H4 & H5). unfold minute_matches, day_matches, cron_fields, cron_sem.
  cbn [minStr hourStr dayStr monthStr weekdayStr].
  rewrite !wildcard_field, !field_spec by done.
  assert (forall f lo hi v, field_any f = true -> field_sem lo hi f v = true) as Hany
    by (intros [[] []] lo hi v; done).
  set (m := field_sem 0 59 _ _). set (h := field_sem 0 23 _ _). set (mo := field_sem 1 12 _ _).
  pose proof (Hany (c_dom c) 1 31 (t_mday t)) as Hd. pose proof (Hany (c_dow c) 0 6 (t_wday t)) as Hw.
  set (d := field_sem 1 31 _ _) in *. set (w := field_sem 0 6 _ _) in *. clearbody m h mo d w.
  destruct (field_any (c_dom c)), (field_any (c_dow c)); cbn; rewrite ?Hd, ?Hw by done;
    destruct m, h, mo, d, w; done.
Qed.

Definition minute_of (afterTime k : Z) : Z := 60 * (afterTime / 60) + 60 * k.

Lemma next_loop_spec c afterTime n : cron_ok c -> forall k tm, timegm tm = minute_of afterTime k ->
  exists r, next_loop n (cron_fields c) afterTime tm = Val r /\
    ((exists j, k <= j < k + Z.of_nat n /\ r = minute_of afterTime j /\ cron_sem c (gmtime r) = true /\
        forall i, k <= i < j -> cron_sem c (gmtime (minute_of afterTime i)) = false) \/
     (r = afterTime + 60 /\ forall i, k <= i < k + Z.of_nat n -> cron_sem c (gmtime (minute_of afterTime i)) = false)).
Proof.
  intros Hc. induction n as [|n IH]; intros k tm Ht; cbn [next_loop].
  { eexists. split; [done|]. right. split; [done | lia]. }
  rewrite Ht. destruct (Z.eqb_spec (minute_of afterTime k) (-1)); [unfold minute_of in *; lia|].
  rewrite minute_spec by done. cbn [rbind]. destruct (cron_sem c _) eqn:Es.
  - eexists. split; [done|]. left. exists k. split; [lia|]. split; [done|]. split; [done | lia].
  - destruct (IH (k + 1) (next_min (gmtime (minute_of afterTime k)))) as (r & -> & Hr).
    { rewrite timegm_next_min, timegm_gmtime. unfold minute_of. lia. }
    eexists. split; [done|]. destruct Hr as [(j & Hj & Hr & Hs & Hf)|[Hr Hf]].
    + left. exists j. split; [lia|]. split; [done|]. split; [done|]. intros i Hi.
      destruct (decide (i = k)) as [->|]; [done | apply Hf; lia].
    + right. split; [done|]. intros i Hi. destruct (decide (i = k)) as [->|]; [done | apply Hf; lia].
Qed.

(** What the search ends with. *)
Lemma next_fire_found (c : Cron) (afterTime : Z) : cron_ok c ->
  exists r, CalculateNextFire (print_cron c) afterTime = Val r /\
    ((exists k, 1 <= k <= 525600 /\ r = minute_of afterTime k /\ afterTime < r /\ cron_sem c (gmtime r) = true /\
        forall i, 1 <= i < k -> cron_sem c (gmtime (minute_of afterTime i)) = false) \/
     (r = afterTime + 60 /\ forall i, 1 <= i <= 525600 -> cron_sem c (gmtime (minute_of afterTime i)) = false)).
Proof.
  intros Hc. unfold CalculateNextFire. rewrite read_cron by done.
  destruct (next_loop_spec c afterTime kYearMinutes Hc 1 (next_min (set_t_sec 0 (gmtime afterTime)))) as (r & Er & Hr).
  { rewrite timegm_next_min, timegm_set_sec, timegm_gmtime, gmtime_sec. unfold minute_of.
    pose proof (Z.div_mod afterTime 60 ltac:(lia)). lia. }
  exists r. split; [exact Er|]. unfold kYearMinutes in Hr. rewrite Z2Nat.id in Hr by lia.
  destruct Hr as [(j & Hj & -> & Hs & Hf)|[-> Hf]].
  - left. exists j. split; [lia|]. split; [done|]. split; [|done]. unfold minute_of.
    pose proof (Z.mod_pos_bound afterTime 60 ltac:(lia)). pose proof (Z.div_mod afterTime 60 ltac:(lia)). lia.
  - right. split; [done|]. intros i Hi. apply Hf. lia.
Qed.

(** C23.  The next fire time is the first minute that matches.  For every expression of
    lists of numbers, ranges and steps, the search ends with a time: the first full
    minute after [afterTime] whose UTC fields the expression allows under the rules of
    cron (either day field is enough when both are restricted), or one minute later when
    none of the next 525600 minutes is. *)
Theorem next_fire_earliest (c : Cron) (afterTime : Z) : cron_ok c ->
  exists r, CalculateNextFire (print_cron c) afterTime = Val r /\
    ((exists k, 1 <= k <= 525600 /\ r = minute_of afterTime k /\ afterTime < r /\ cron_sem c (gmtime r) = true /\
        forall i, 1 <= i < k -> cron_sem c (gmtime (minute_of afterTime i)) = false) \/
     (r = afterTime + 60 /\ forall i, 1 <= i <= 525600 -> cron_sem c (gmtime (minute_of afterTime i)) = false)).
Proof. exact (next_fire_found c afterTime). Qed.

(** ** Examples *)

(** Every quarter of an hour on weekdays from nine to five. *)
Definition ex_cron : Cron :=
  mkCron (CEvery None 15, []) (CRange 9 17, []) (CAll, []) (CAll, []) (CRange 1 5, []).

Lemma ex_cron_ok : cron_ok ex_cron.
Proof. repeat (apply conj || apply Forall_cons || apply Forall_nil || exact I); cbn; lia. Defined.

(** From Sunday the fourth of January 1970 to Monday at nine. *)
Lemma next_fire_earliest_witness :
  cron_ok ex_cron /\ print_cron ex_cron = "*/15 9-17 * * 1-5" /\
  exists r, CalculateNextFire (print_cron ex_cron) 345599 = Val r /\ r = 378000 /\ 345599 < r.
Proof.
  split; [exact ex_cron_ok|]. split; [vm_compute; reflexivity|].
  destruct (next_fire_earliest ex_cron 345599 ex_cron_ok) as (r & Er & Hr). exists r. split; [exact Er|].
  assert (r = 378000) as -> by (vm_compute in Er; by injection Er). by split.
Defined.
