(* ===== verification/CronJobs.v ===== *)
(** * Reminders (examples/jiuwenClaw/cron_watcher.cpp, tools/cron_tool.cpp)

    The tool that adds, lists and removes reminders in the jobs file, and the watcher that
    fires them.  A check of the file is shown to refine what a reminder means. *)
From Stdlib Require Import ZArith Lia String Ascii List Floats.SpecFloat.
From stdpp Require Import base decidable list strings gmap pretty.
From S2P Require Import Prelude Numbers Encoding JsonLib Files Calendar Cron.
Open Scope Z_scope.

(** ** Values of a JSON document *)

(** [static_cast<time_t>(double)]: toward zero, undefined when it does not fit. *)
Definition trunc_double (f : spec_float) : res Z :=
  match f with
  | S754_zero _ => Val 0
  | S754_finite s m e =>
      let a := if 0 <=? e then Z.pos m * 2 ^ e else Z.pos m / 2 ^ (- e) in
      let z := if s then - a else a in
      if (- 2 ^ 63 <=? z) && (z <? 2 ^ 63) then Val z else Undefined
  | _ => Undefined
  end.
Definition positive (f : spec_float) : bool := SFltb (S754_zero false) f.

Definition res_of {A} (o : outcome A) : res A := match o with Ok a => Val a | Throw e => Exc e end.

Section Values.
Context {J : Type} `{Json J}.

Definition wrap64 (z : Z) : Z := (z + 2 ^ 63) mod 2 ^ 64 - 2 ^ 63.
(** [get<time_t>()]. *)
Definition get_long (j : J) : res Z :=
  match json_view j with
  | JInt z => Val (wrap64 z)
  | JFloat f => trunc_double f
  | _ => Exc (json_type_error j)
  end.
Definition value_long (key : string) (dflt : Z) (j : J) : res Z :=
  match json_view j with
  | JObject m => match m !! key with Some v => get_long v | None => Val dflt end
  | _ => Exc (json_type_error j)
  end.

(** [job[key] = v] on an object. *)
Definition set_field (key : string) (v j : J) : J :=
  match json_view j with JObject m => j_object (<[key := v]> m) | _ => j end.
End Values.

(** What the watcher asks of the program around it: the session manager, and the flag that
    ends it. *)
Class CronHost (X : Type) := {
  session_busy : string -> X -> bool;
  (** [Invoke]: whether it succeeded, with the content, or the message of the error. *)
  session_invoke : string -> string -> X -> X * (bool * string);
  still_running : X -> bool
}.

Definition kCronSessionId : string := "__CRON__".

Section Watcher.
Context {X J : Type} `{FileSystem X, CronHost X, Json J} (jobsPath : string) (intervalSeconds : Z).

(** ** Firing *)

Definition cron_prompt (message : string) : string :=
  "You have been triggered by a scheduled cron event:" +:+ nl +:+ nl
  +:+ "**Event**: " +:+ message +:+ nl +:+ nl
  +:+ "INSTRUCTIONS:" +:+ nl
  +:+ "1. Understand the context of this event." +:+ nl
  +:+ "2. Execute the appropriate action based on what this reminder is about." +:+ nl
  +:+ "3. If this requires updating files or state, use your tools to do so." +:+ nl.

Definition HandleEvent (message : string) (x : X) : X * string :=
  if session_busy kCronSessionId x then (x, "Agent is busy")
  else let '(x, (_, text)) := session_invoke kCronSessionId (cron_prompt message) x in (x, text).

Record JobView := mkJobView { jv_type : string; jv_next : Z; jv_interval : spec_float }.

(** The fields of a job that is not skipped.  The default [0] makes [next_fire] an
    [int]. *)
Definition read_job (job : J) : outcome (option JobView) :=
  removed <-- value_bool "removed" false job ;;
  if removed : bool then Ok None
  else
    fired <-- value_bool "fired" false job ;;
    over <-- (if fired : bool then (t <-- value_str "type" "" job ;; Ok (String.eqb t "one-time")) else Ok false) ;;
    if over : bool then Ok None
    else
      type <-- value_str "type" "" job ;;
      next <-- value_int "next_fire" 0 job ;;
      intervalSec <-- value_of json_get_double "every_seconds" (S754_zero false) job ;;
      Ok (Some (mkJobView type next intervalSec)).

(** Whether the job fires now; a cron job whose minute has passed gets a new time
    instead.  The flag between is [modified]. *)
Definition should_fire (now : Z) (v : JobView) (job : J) : res (J * bool * bool) :=
  if String.eqb (jv_type v) "one-time" then
    rbind (res_of (value_int "at" 0 job)) (fun at_ => Val (job, false, (0 <? at_) && (at_ <=? now)))
  else if String.eqb (jv_type v) "recurring" then Val (job, false, (0 <? jv_next v) && (jv_next v <=? now))
  else if String.eqb (jv_type v) "cron" then
    rbind (res_of (value_str "cron_expr" "" job)) (fun expr =>
    if negb (str_empty expr) && (0 <? jv_next v) && (jv_next v <=? now) then
      rbind (MatchesCronExpression expr (gmtime now)) (fun m =>
      if m : bool then Val (job, false, true)
      else
        rbind (CalculateNextFire expr now) (fun next =>
        rbind (res_of (value_str "id" "unknown" job)) (fun _ =>
        Val (set_field "next_fire" (j_int next) job, true, false))))
    else Val (job, false, false))
  else Val (job, false, false).

(** What is written back for a job that was delivered. *)
Definition after_fire (now : Z) (v : JobView) (job : J) : res (J * bool) :=
  if String.eqb (jv_type v) "one-time" then Val (set_field "removed" (j_bool true) job, true)
  else if String.eqb (jv_type v) "cron" then
    rbind (res_of (value_str "cron_expr" "" job)) (fun expr =>
    rbind (CalculateNextFire expr now) (fun next =>
    Val (set_field "fired" (j_bool false) (set_field "next_fire" (j_int next) job), true)))
  else if String.eqb (jv_type v) "recurring" then
    rbind (value_long "next_fire" now job) (fun originalNext =>
    rbind (if positive (jv_interval v) then trunc_double (jv_interval v) else Val 60) (fun interval =>
    Val (set_field "fired" (j_bool false) (set_field "next_fire" (j_int (originalNext + interval)) job), true)))
  else Val (job, false).

(** One turn of the loop; [None] is the return of the function when the watcher was
    stopped. *)
Definition check_job (now : Z) (job : J) (x : X) : X * res (option (J * bool)) :=
  match res_of (read_job job) with
  | Exc e => (x, Exc e)
  | Undefined => (x, Undefined)
  | Val None => (x, Val (Some (job, false)))
  | Val (Some v) =>
      match should_fire now v job with
      | Exc e => (x, Exc e)
      | Undefined => (x, Undefined)
      | Val (job, modified, fire) =>
          if negb (fire && still_running x) then (x, Val (Some (job, modified)))
          else
            match rbind (res_of (value_str "message" "Timer Fired" job)) (fun msg =>
                  rbind (res_of (value_str "id" "unknown" job)) (fun _ => Val msg)) with
            | Exc e => (x, Exc e)
            | Undefined => (x, Undefined)
            | Val msg =>
                let '(x, response) := HandleEvent msg x in
                if String.eqb response "Agent is busy" then (x, Val (Some (job, modified)))
                else
                  match after_fire now v job with
                  | Exc e => (x, Exc e)
                  | Undefined => (x, Undefined)
                  | Val (job, m) => (x, Val (if still_running x then Some (job, modified || m) else None))
                  end
            end
      end
  end.

Fixpoint check_jobs (now : Z) (jobs : list J) (x : X) : X * res (option (list J * bool)) :=
  match jobs with
  | [] => (x, Val (Some ([], false)))
  | job :: jobs =>
      match check_job now job x with
      | (x, Val (Some (job, m))) =>
          match check_jobs now jobs x with
          | (x, Val (Some (jobs, m'))) => (x, Val (Some (job :: jobs, m || m')))
          | r => r
          end
      | (x, Val None) => (x, Val None)
      | (x, Exc e) => (x, Exc e)
      | (x, Undefined) => (x, Undefined)
      end
  end.

(** The loop that erases what is done, from the last job to the first. *)
Fixpoint erase_done (jobs : list J) : outcome (list J * bool) :=
  match jobs with
  | [] => Ok ([], false)
  | job :: jobs =>
      rest <-- erase_done jobs ;;
      let '(kept, m) := rest in
      removed <-- value_bool "removed" false job ;;
      gone <-- (if removed : bool then (t <-- value_str "type" "" job ;; Ok (String.eqb t "one-time")) else Ok false) ;;
      if gone : bool then
        _ <-- value_str "message" "" job ;;
        _ <-- value_str "id" "unknown" job ;;
        Ok (kept, true)
      else Ok (job :: kept, m)
  end.

(** The file is truncated before the document is written out. *)
Definition save_jobs (j : J) (x : X) : X * outcome unit :=
  match json_dump (Some 2%nat) j with
  | Ok text => ((fs_write jobsPath text x).1, Ok tt)
  | Throw e => ((fs_write jobsPath "" x).1, Throw e)
  end.

Definition read_document (x : X) : outcome J := json_parse (default "" (fs_read jobsPath x)).

(** [CheckAndFireCrons]; the exceptions of the JSON library are caught, that of
    [fs::exists] is not. *)
Definition CheckAndFireCrons (x : X) : X * res unit :=
  match fs_exists jobsPath x with
  | Throw e => (x, Exc e)
  | Ok false => (x, Val tt)
  | Ok true =>
      match read_document x with
      | Throw _ => (x, Val tt)
      | Ok j =>
          if negb (is_array j) then (x, Val tt)
          else
            let now := unix_time x in
            match check_jobs now (elements_of j) x with
            | (x, Undefined) => (x, Undefined)
            | (x, Exc _) => (x, Val tt)
            | (x, Val None) => (x, Val tt)
            | (x, Val (Some (jobs, modified))) =>
                match erase_done jobs with
                | Throw _ => (x, Val tt)
                | Ok (jobs, erased) =>
                    if modified || erased then ((save_jobs (j_array jobs) x).1, Val tt) else (x, Val tt)
                end
            end
      end
  end.

(** ** Sleeping *)

(** [while (actualNext <= now) actualNext += step]; with a step of [0] it does not end. *)
Definition catch_up (actualNext step now : Z) : res Z :=
  if now <? actualNext then Val actualNext
  else if step <=? 0 then Undefined
  else Val (actualNext + step * ((now - actualNext) / step + 1)).

Definition earlier (earliestNext next : Z) : Z :=
  if (earliestNext =? 0) || (next <? earliestNext) then next else earliestNext.

Definition next_of (now earliestNext : Z) (job : J) : res Z :=
  rbind (res_of (read_job job)) (fun o =>
  match o with
  | None => Val earliestNext
  | Some v =>
      if String.eqb (jv_type v) "one-time" then
        Val (if now <? jv_next v then earlier earliestNext (jv_next v) else earliestNext)
      else if String.eqb (jv_type v) "recurring" then
        if jv_next v <=? 0 then Val earliestNext
        else
          rbind (if jv_next v <=? now then
                   rbind (if positive (jv_interval v) then trunc_double (jv_interval v) else Val 60) (fun step =>
                   catch_up (jv_next v) step now)
                 else Val (jv_next v)) (fun actualNext =>
          Val (earlier earliestNext actualNext))
      else if String.eqb (jv_type v) "cron" then
        rbind (res_of (value_str "cron_expr" "" job)) (fun expr =>
        if str_empty expr || (jv_next v <=? 0) then Val earliestNext
        else
          rbind (if jv_next v <=? now then CalculateNextFire expr now else Val (jv_next v)) (fun actualNext =>
          Val (earlier earliestNext actualNext)))
      else Val earliestNext
  end).

Fixpoint earliest (now earliestNext : Z) (jobs : list J) : res Z :=
  match jobs with
  | [] => Val earliestNext
  | job :: jobs => rbind (next_of now earliestNext job) (fun e => earliest now e jobs)
  end.

Definition CalculateSleepDuration (x : X) : res Z :=
  match fs_exists jobsPath x with
  | Throw e => Exc e
  | Ok false => Val intervalSeconds
  | Ok true =>
      match read_document x with
      | Throw _ => Val intervalSeconds
      | Ok j =>
          match elements_of j with
          | [] => Val intervalSeconds
          | jobs =>
              let now := unix_time x in
              match earliest now 0 jobs with
              | Val e => Val (if now <? e then Z.min intervalSeconds (e - now) else intervalSeconds)
              | Exc _ => Val intervalSeconds
              | Undefined => Undefined
              end
          end
      end
  end.

(** One turn of [Run]: the time waited, and the check. *)
Definition run_once (wait : Z -> X -> X) (x : X) : X * res unit :=
  match CalculateSleepDuration x with
  | Exc e => (x, Exc e)
  | Undefined => (x, Undefined)
  | Val sleepSec =>
      let x := wait (if sleepSec <=? 0 then 1 else sleepSec) x in
      if still_running x then CheckAndFireCrons x else (x, Val tt)
  end.
End Watcher.

(** ** The tool *)

(** Calls whose results depend on the machine: the time zone, and [std::get_time] and
    [strftime] with their formats. *)
Class LocalTime (X : Type) := {
  get_time : string -> string -> option TM;
  mktime : TM -> X -> Z;
  local_text : Z -> X -> string
}.

Section Tool.
Context {X J : Type} `{FileSystem X, LocalTime X, Json J} (dataFile : string).

Definition GenerateJobId (x : X) : string := "job_" +:+ to_string (unix_time x).

Definition ParseISOTime (iso : string) (isUTC : bool) (x : X) : Z :=
  let z := back_is "Z" iso in
  let isUTC := z || isUTC in
  let input := if z then str_take (String.length iso - 1) iso else iso in
  let parsed := match get_time "%Y-%m-%dT%H:%M:%S" input with
                | Some tm => Some tm
                | None => get_time "%Y-%m-%d %H:%M:%S" input
                end in
  match parsed with
  | None => 0
  | Some tm => if isUTC then (let result := timegm tm in if result =? -1 then 0 else result) else mktime tm x
  end.

(** The jobs there are; anything that is no array is taken for none. *)
Definition read_jobs (x : X) : res (list J) :=
  rbind (res_of (fs_exists dataFile x)) (fun b =>
  if b : bool then
    match json_parse (default "" (fs_read dataFile x)) with
    | Ok j => Val (elements_of j)
    | Throw _ => Val []
    end
  else Val []).

Definition text_field (k s : string) : string * J := (k, j_string s).

(** The members that say when a job fires, or the message of the error. *)
Definition job_time (everySeconds : spec_float) (atTime cronExpr tz : string) (x : X)
    : res (string + list (string * J)) :=
  if positive everySeconds then
    rbind (trunc_double everySeconds) (fun every =>
    Val (inr [text_field "type" "recurring"; ("every_seconds", j_float everySeconds);
              ("next_fire", j_int (unix_time x + every))]))
  else if negb (str_empty atTime) then
    let hasOffset := match find_char "+" atTime 11, find_char "-" atTime 11 with None, None => false | _, _ => true end in
    let isUTC := back_is "Z" atTime || hasOffset || str_empty tz in
    let targetTime := ParseISOTime atTime isUTC x in
    if targetTime =? 0 then
      Val (inl "Error: Invalid datetime format for 'at'. Use ISO format like 2026-01-15T14:00:00Z")
    else if targetTime <=? unix_time x then
      Val (inl ("Error: The specified time '" +:+ atTime +:+ "' is in the past."))
    else Val (inr [text_field "type" "one-time"; ("at", j_int targetTime); ("next_fire", j_int targetTime)])
  else if negb (str_empty cronExpr) then
    rbind (CalculateNextFire cronExpr (unix_time x)) (fun next =>
    Val (inr [text_field "type" "cron"; text_field "cron_expr" cronExpr; ("next_fire", j_int next);
              text_field "timezone" "UTC"]))
  else Val (inl "Error: Must specify one of: every_seconds, at, or cron_expr for adding a reminder.").

Definition AddReminder (message : string) (everySeconds : spec_float) (atTime cronExpr tz : string) (x : X)
    : X * res string :=
  match rbind (read_jobs x) (fun jobs =>
        rbind (job_time everySeconds atTime cronExpr tz x) (fun t => Val (jobs, t))) with
  | Exc e => (x, Exc e)
  | Undefined => (x, Undefined)
  | Val (_, inl error) => (x, Val error)
  | Val (jobs, inr time) =>
      let jobId := GenerateJobId x in
      let text := if str_empty message then "Reminder" else message in
      let job := j_fields ([text_field "id" jobId; text_field "message" text; ("created_at", j_int (unix_time x));
                            ("fired", j_bool false)] ++ time) in
      match save_jobs dataFile (j_array (jobs ++ [job])) x with
      | (x, Throw e) => (x, Exc e)
      | (x, Ok _) =>
          (x, rbind (value_long "next_fire" (unix_time x) job) (fun nextFire =>
              rbind (res_of (value_str "type" "" job)) (fun type =>
              Val ("Reminder scheduled successfully!" +:+ nl
                   +:+ "Job ID: " +:+ jobId +:+ nl
                   +:+ "Message: " +:+ text +:+ nl
                   +:+ "Next fire: " +:+ local_text nextFire x +:+ nl
                   +:+ "Type: " +:+ type))))
      end
  end.

(** The lines of a job in the list; one that fired or is removed has none. *)
Definition list_job (x : X) (job : J) : outcome string :=
  fired <-- value_bool "fired" false job ;;
  if fired : bool then Ok ""
  else
    removed <-- value_bool "removed" false job ;;
    if removed : bool then Ok ""
    else
      id <-- value_str "id" "unknown" job ;;
      message <-- value_str "message" "" job ;;
      type <-- value_str "type" "" job ;;
      nextFire <-- value_int "next_fire" 0 job ;;
      Ok ("* ID: " +:+ id +:+ nl +:+ "  Message: " +:+ message +:+ nl +:+ "  Type: " +:+ type +:+ nl
          +:+ (if 0 <? nextFire then "  Next fire: " +:+ local_text nextFire x +:+ nl else "") +:+ nl).

Definition list_header : string := "Scheduled reminders:" +:+ nl +:+ nl.

Definition ListReminders (x : X) : res string :=
  match fs_exists dataFile x with
  | Throw e => Exc e
  | Ok false => Val "No scheduled reminders."
  | Ok true =>
      match (jobs <-- json_parse (J := J) (default "" (fs_read dataFile x)) ;;
             match elements_of jobs with
             | [] => Ok "No scheduled reminders."
             | l => texts <-- outcome_map (list_job x) l ;;
                    let result := list_header +:+ string_concat texts in
                    Ok (if String.eqb result list_header then "No active reminders." else result)
             end) with
      | Ok s => Val s
      | Throw e => Val ("Error reading reminders: " +:+ e)
      end
  end.

(** The first job with the id is marked. *)
Fixpoint mark_removed (jobId : string) (jobs : list J) : outcome (option (list J)) :=
  match jobs with
  | [] => Ok None
  | job :: jobs =>
      id <-- value_str "id" "" job ;;
      if String.eqb id jobId then Ok (Some (set_field "removed" (j_bool true) job :: jobs))
      else rest <-- mark_removed jobId jobs ;; Ok (cons job <$> rest)
  end.
Fixpoint keep_active (jobs : list J) : outcome (list J) :=
  match jobs with
  | [] => Ok []
  | job :: jobs =>
      removed <-- value_bool "removed" false job ;;
      gone <-- (if removed : bool then Ok true else value_bool "fired" false job) ;;
      kept <-- keep_active jobs ;;
      Ok (if gone : bool then kept else job :: kept)
  end.

(** A document that nothing was pushed to is null. *)
Definition pushed (l : list J) : J := match l with [] => j_null | _ => j_array l end.

Definition RemoveReminder (jobId : string) (x : X) : X * res string :=
  match fs_exists dataFile x with
  | Throw e => (x, Exc e)
  | Ok false => (x, Val ("No reminders found with ID: " +:+ jobId))
  | Ok true =>
      let failed e := "Error removing reminder: " +:+ e in
      match json_parse (default "" (fs_read dataFile x)) with
      | Throw e => (x, Val (failed e))
      | Ok j =>
          if negb (is_array j) then (x, Val "Invalid reminder data.")
          else
            match mark_removed jobId (elements_of j) with
            | Throw e => (x, Val (failed e))
            | Ok None => (x, Val ("No reminder found with ID: " +:+ jobId))
            | Ok (Some jobs) =>
                match keep_active jobs with
                | Throw e => (x, Val (failed e))
                | Ok kept =>
                    match save_jobs dataFile (pushed kept) x with
                    | (x, Ok _) => (x, Val ("Reminder " +:+ jobId +:+ " removed successfully."))
                    | (x, Throw e) => (x, Val (failed e))
                    end
                end
            end
      end
  end.

Record CronInput := mkCronInput {
  ci_action : string; ci_message : string; ci_every : spec_float; ci_at : string; ci_expr : string; ci_tz : string;
  ci_job_id : string
}.
Definition cron_input (input : string) : outcome CronInput :=
  j <-- json_parse (J := J) input ;;
  action <-- value_str "action" "" j ;;
  message <-- value_str "message" "" j ;;
  everySeconds <-- value_of json_get_double "every_seconds" (S754_zero false) j ;;
  atTime <-- value_str "at" "" j ;;
  cronExpr <-- value_str "cron_expr" "" j ;;
  tz <-- value_str "timezone" "" j ;;
  jobId <-- value_str "job_id" "" j ;;
  Ok (mkCronInput action message everySeconds atTime cronExpr tz jobId).

Definition CronInvoke (input : string) (x : X) : X * res string :=
  match cron_input input with
  | Throw e =>
      (x, Val ("Error: Invalid JSON input. Expected: {" +:+ dq +:+ "action" +:+ dq +:+ ": " +:+ dq +:+ "add|list|remove" +:+ dq
               +:+ ", ...}" +:+ nl +:+ "Details: " +:+ e))
  | Ok i =>
      if str_empty (ci_action i) then (x, Val "Error: 'action' parameter is required. Use 'add', 'list', or 'remove'.")
      else if String.eqb (ci_action i) "add" then
        AddReminder (ci_message i) (ci_every i) (ci_at i) (ci_expr i) (ci_tz i) x
      else if String.eqb (ci_action i) "list" then (x, ListReminders x)
      else if String.eqb (ci_action i) "remove" then
        if str_empty (ci_job_id i) then (x, Val "Error: 'job_id' parameter is required for remove action.")
        else RemoveReminder (ci_job_id i) x
      else (x, Val ("Error: Invalid action '" +:+ ci_action i +:+ "'. Use 'add', 'list', or 'remove'."))
  end.
End Tool.

(** ** What a reminder means *)

Inductive JobKind :=
  | OneTime (at_ : Z)
  | Recurring (every : spec_float) (next : Z)
  | OnCron (c : Cron) (next : Z).
Record Job := mkJob { jb_id : string; jb_message : string; jb_created : Z; jb_kind : JobKind }.

(** The members [AddReminder] writes. *)
Definition kind_fields {J} `{Json J} (k : JobKind) : list (string * J) :=
  match k with
  | OneTime t => [text_field "type" "one-time"; ("at", j_int t); ("next_fire", j_int t)]
  | Recurring every next =>
      [text_field "type" "recurring"; ("every_seconds", j_float every); ("next_fire", j_int next)]
  | OnCron c next =>
      [text_field "type" "cron"; text_field "cron_expr" (print_cron c); ("next_fire", j_int next);
       text_field "timezone" "UTC"]
  end.
Definition job_json {J} `{Json J} (j : Job) : J :=
  j_fields ([text_field "id" (jb_id j); text_field "message" (jb_message j); ("created_at", j_int (jb_created j));
             ("fired", j_bool false)] ++ kind_fields (jb_kind j)).

(** The bounds within which the 32 bits of [next_fire] are enough: clocks up to the year
    2035 and intervals up to two years. *)
Definition kClockEnd : Z := 2 ^ 31 - 2 ^ 26.
Definition job_ok (j : Job) : Prop :=
  match jb_kind j with
  | OneTime t => 0 < t < 2 ^ 31
  | Recurring every next => 0 < next < 2 ^ 31 /\ positive every = true /\ is_double every /\
      exists s, trunc_double every = Val s /\ 0 < s < 2 ^ 26
  | OnCron c next => 0 < next < 2 ^ 31 /\ cron_ok c
  end.
Definition utf8_job (j : Job) : Prop := utf8 (jb_id j) /\ utf8 (jb_message j).

Definition next_fire (k : JobKind) : Z := match k with OneTime t => t | Recurring _ n => n | OnCron _ n => n end.

(** *** As the watcher decides: all five fields have to match for a cron job to fire. *)
Definition cron_all (c : Cron) (t : TM) : bool :=
  field_sem 0 59 (c_min c) (t_min t) && field_sem 0 23 (c_hour c) (t_hour t) && field_sem 1 31 (c_dom c) (t_mday t) &&
  field_sem 1 12 (c_mon c) (t_mon t + 1) && field_sem 0 6 (c_dow c) (t_wday t).

Definition fires (now : Z) (j : Job) : bool :=
  (next_fire (jb_kind j) <=? now) &&
  match jb_kind j with OnCron c _ => cron_all c (gmtime now) | _ => true end.

Definition set_kind (k : JobKind) (j : Job) : Job := mkJob (jb_id j) (jb_message j) (jb_created j) k.
Definition value_or {A} (d : A) (r : res A) : A := match r with Val a => a | _ => d end.

(** What the watcher leaves of a job by a check at [now]: a reminder that fired is done, a recurring
    one comes again, and a cron job whose time has come gets its next one, fired or not. *)
Definition remaining (now : Z) (j : Job) : option Job :=
  if now <? next_fire (jb_kind j) then Some j
  else
    match jb_kind j with
    | OneTime _ => None
    | Recurring every next => Some (set_kind (Recurring every (next + value_or 0 (trunc_double every))) j)
    | OnCron c _ => Some (set_kind (OnCron c (value_or 0 (CalculateNextFire (print_cron c) now))) j)
    end.

(** *** As reminders are meant, by the rules of cron *)

(** The job is to be sent by a check at [now]: its time has come, and the minute of the
    check is one its expression allows. *)
Definition due (now : Z) (j : Job) : bool :=
  (next_fire (jb_kind j) <=? now) &&
  match jb_kind j with OnCron c _ => cron_sem c (gmtime now) | _ => true end.

(** The first minute after [now] that the expression allows, if the next 525600 have one,
    and the next minute otherwise. *)
Definition next_minute (c : Cron) (now n : Z) : Prop :=
  (exists k, 1 <= k <= 525600 /\ n = minute_of now k /\ cron_sem c (gmtime n) = true /\
     forall i, 1 <= i < k -> cron_sem c (gmtime (minute_of now i)) = false) \/
  (n = now + 60 /\ forall i, 1 <= i <= 525600 -> cron_sem c (gmtime (minute_of now i)) = false).

(** What a check at [now] is to leave of a job: a job whose time has not come stays, a
    reminder that came is done, a recurring one comes again after its whole seconds, and
    a cron job, sent or missed, in the next minute its expression allows. *)
Inductive kept (now : Z) : Job -> option Job -> Prop :=
  | kept_later j : now < next_fire (jb_kind j) -> kept now j (Some j)
  | kept_done id msg created t : t <= now -> kept now (mkJob id msg created (OneTime t)) None
  | kept_recurring id msg created every next s : next <= now -> trunc_double every = Val s ->
      kept now (mkJob id msg created (Recurring every next)) (Some (mkJob id msg created (Recurring every (next + s))))
  | kept_cron id msg created c next n : next <= now -> next_minute c now n ->
      kept now (mkJob id msg created (OnCron c next)) (Some (mkJob id msg created (OnCron c n))).

(** At most one of the day fields is restricted: there the rules of cron and the watcher
    agree. *)
Definition one_day_field (j : Job) : Prop :=
  match jb_kind j with OnCron c _ => field_any (c_dom c) || field_any (c_dow c) = true | _ => True end.

Lemma fires_due now j : one_day_field j -> fires now j = due now j.
Proof.
  unfold one_day_field, fires, due. destruct (jb_kind j) as [t|every next|c next]; [done..|].
  intros Hd. f_equal. unfold cron_all, cron_sem. rewrite Hd.
  set (a := field_sem 0 59 _ _). set (b := field_sem 0 23 _ _). set (d := field_sem 1 31 _ _).
  set (e := field_sem 1 12 _ _). set (f := field_sem 0 6 _ _). clearbody a b d e f. by destruct a, b, d, e, f.
Qed.

Lemma remaining_kept now j : job_ok j -> kept now j (remaining now j).
Proof.
  intros Hj. unfold remaining, job_ok in *. destruct (Z.ltb_spec now (next_fire (jb_kind j))) as [|Hle]; [by apply kept_later|].
  destruct j as [id msg created [t|every next|c next]]; cbn [jb_kind next_fire] in *.
  - by apply kept_done.
  - destruct Hj as (_ & _ & _ & s & Es & _). rewrite Es. by apply kept_recurring.
  - destruct Hj as (_ & Hc). destruct (next_fire_found c now Hc) as (r & -> & Hr). apply kept_cron; [done|].
    destruct Hr as [(k & Hk & Hr & _ & Hs)|Hr]; [left; by exists k | by right].
Qed.

Lemma remaining_all_kept now l : Forall job_ok l -> Forall2 (kept now) l (map (remaining now) l).
Proof. induction 1; constructor; [by apply remaining_kept | done]. Qed.
Lemma remaining_list now l : omap id (map (remaining now) l) = omap (remaining now) l.
Proof. induction l as [|j l IH]; [done|]. cbn [map omap list_omap]. change (id (remaining now j)) with (remaining now j). destruct (remaining now j); [f_equal|]; exact IH. Qed.
Lemma remaining_one_day now l : Forall one_day_field l -> Forall one_day_field (omap (remaining now) l).
Proof.
  intros Hl. rewrite Forall_forall in Hl |- *. intros j' (j & Hin & Er)%list_elem_of_omap. assert (one_day_field j) as Hj by auto. clear Hl.
  unfold remaining in Er. destruct (now <? _); [by injection Er as <-|]. unfold one_day_field in *.
  destruct (jb_kind j); [done|..]; by injection Er as <-.
Qed.
Lemma filter_due now l : Forall one_day_field l -> List.filter (fires now) l = List.filter (due now) l.
Proof. induction 1 as [|j l Hj _ IH]; [done|]. cbn. by rewrite IH, fires_due. Qed.

Lemma expression_spec c t : cron_ok c -> MatchesCronExpression (print_cron c) t = Val (cron_all c t).
Proof.
  intros Hc. unfold MatchesCronExpression. rewrite read_cron by done. destruct Hc as (H1 & H2 & H3 & H4 & H5).
  cbn [minStr hourStr dayStr monthStr weekdayStr]. rewrite !field_spec by done. unfold cron_all.
  set (a := field_sem 0 59 _ _). set (b := field_sem 0 23 _ _). set (c1 := field_sem 1 31 _ _).
  set (d := field_sem 1 12 _ _). set (e := field_sem 0 6 _ _). clearbody a b c1 d e. by destruct a, b, c1, d, e.
Qed.

Lemma next_fire_bounds c now : cron_ok c -> 0 <= now ->
  exists n, CalculateNextFire (print_cron c) now = Val n /\ now < n <= now + 31536060.
Proof.
  intros Hc Hn. destruct (next_fire_found c now Hc) as (r & Er & Hr). exists r. split; [done|].
  pose proof (Z.mod_pos_bound now 60 ltac:(lia)). pose proof (Z.div_mod now 60 ltac:(lia)).
  destruct Hr as [(k & Hk & -> & Hlt & _)|[-> _]]; unfold minute_of in *; lia.
Qed.

Lemma print_cron_nonempty c : cron_ok c -> str_empty (print_cron c) = false.
Proof.
  intros (Hm & _). apply items_word in Hm as [Hm _]. unfold print_cron, print_field.
  by destruct (print_items (c_min c).1 (c_min c).2).
Qed.

Section Refinement.
Context {J : Type} `{JL : JsonLaws J}.

Lemma value_long_fields key dflt (l : list (string * J)) :
  value_long key dflt (j_fields l) = match assoc_last key l with Some v => get_long v | None => Val dflt end.
Proof.
  pose proof (jfield_j_fields key l) as Hf. unfold value_long, jfield, j_fields in *.
  rewrite view_j_object in *. by rewrite Hf.
Qed.

Lemma set_field_fields key v (l : list (string * J)) : set_field key v (j_fields l) = j_fields (l ++ [(key, v)]).
Proof. unfold set_field, j_fields. rewrite view_j_object. by rewrite fold_left_app. Qed.

Lemma fields_ext (l k : list (string * J)) : (forall key, assoc_last key l = assoc_last key k) -> j_fields l = j_fields k.
Proof.
  intros He. unfold j_fields. f_equal. apply map_eq. intros key.
  pose proof (jfield_j_fields key l) as Hl. pose proof (jfield_j_fields key k) as Hk.
  unfold j_fields in *. rewrite jfield_j_object in Hl, Hk. by rewrite Hl, Hk.
Qed.

(** Setting a member that is there replaces its value. *)
Lemma fields_set k (v : J) (l1 l2 : list (string * J)) w :
  assoc_last k l2 = None -> set_field k v (j_fields (l1 ++ (k, w) :: l2)) = j_fields (l1 ++ (k, v) :: l2).
Proof.
  intros Hk. rewrite set_field_fields. apply fields_ext. intros key. rewrite !assoc_last_app. cbn [assoc_last].
  destruct (String.eqb_spec k key) as [<-|Hn]; [by rewrite Hk|]. by destruct (assoc_last key l2).
Qed.

Lemma set_next_recurring id msg created every n m :
  set_field "next_fire" (j_int n) (job_json (mkJob id msg created (Recurring every m)) : J)
  = job_json (mkJob id msg created (Recurring every n)).
Proof. by apply (fields_set "next_fire" (j_int n) [_; _; _; _; _; _] []). Qed.
Lemma set_next_cron id msg created c n m :
  set_field "next_fire" (j_int n) (job_json (mkJob id msg created (OnCron c m)) : J)
  = job_json (mkJob id msg created (OnCron c n)).
Proof. by apply (fields_set "next_fire" (j_int n) [_; _; _; _; _; _] [_]). Qed.
Lemma set_not_fired j : set_field "fired" (j_bool false) (job_json j : J) = job_json j.
Proof. apply (fields_set "fired" (j_bool false) [_; _; _]). by destruct (jb_kind j). Qed.

Definition job_view (j : Job) : JobView :=
  mkJobView (match jb_kind j with OneTime _ => "one-time" | Recurring _ _ => "recurring" | OnCron _ _ => "cron" end)
    (next_fire (jb_kind j)) (match jb_kind j with Recurring every _ => every | _ => S754_zero false end).

Lemma get_long_int z : - 2 ^ 63 <= z < 2 ^ 63 -> get_long (j_int z : J) = Val z.
Proof. intros Hz. unfold get_long. rewrite view_j_int. unfold wrap64. rewrite Z.mod_small by lia. f_equal. lia. Qed.

Ltac fields := unfold job_json, kind_fields, value_str, value_bool, text_field;
  rewrite ?value_of_fields, ?value_int_j_fields, ?value_long_fields;
  cbn [assoc_last app String.eqb Ascii.eqb Bool.eqb jb_kind jb_id jb_message jb_created obind]; rewrite ?get_bool_j_bool, ?get_string_j_string.

Lemma read_job_json j : job_ok j -> read_job (job_json j : J) = Ok (Some (job_view j)).
Proof.
  intros Hj. unfold read_job, job_view, job_ok in *. destruct j as [id msg created [t|every next|c next]]; cbn [jb_kind] in *;
    fields; cbn [obind].
  - rewrite get_int_j_int by lia. done.
  - destruct Hj as (Hn & _). rewrite get_int_j_int by lia. cbn [obind].
    by rewrite (get_double_ok _ every) by apply view_j_float.
  - destruct Hj as (Hn & _). rewrite get_int_j_int by lia. done.
Qed.

Lemma message_json d j : value_str "message" d (job_json j : J) = Ok (jb_message j).
Proof. destruct j as [? ? ? []]; by fields. Qed.
Lemma id_json d j : value_str "id" d (job_json j : J) = Ok (jb_id j).
Proof. destruct j as [? ? ? []]; by fields. Qed.

Lemma should_fire_json now j : job_ok j -> 0 <= now -> should_fire now (job_view j) (job_json j : J)
  = Val (if fires now j then (job_json j, false, true)
         else match jb_kind j with
              | OnCron _ n => if n <=? now then (job_json (default j (remaining now j)), true, false) else (job_json j, false, false)
              | _ => (job_json j, false, false)
              end).
Proof.
  intros Hj Hnow. unfold should_fire, fires, job_view, job_ok, remaining in *.
  destruct j as [id msg created [t|every next|c next]]; cbn [jb_kind jv_type jv_next jv_interval next_fire] in *.
  - fields. rewrite get_int_j_int by lia. cbn [res_of rbind String.eqb Ascii.eqb Bool.eqb]. rewrite andb_true_r.
    destruct (Z.ltb_spec 0 t); [|lia]. by destruct (t <=? now).
  - destruct Hj as (Hn & _). cbn [String.eqb Ascii.eqb Bool.eqb]. rewrite andb_true_r.
    destruct (Z.ltb_spec 0 next); [|lia]. by destruct (next <=? now).
  - destruct Hj as (Hn & Hc).
    assert (value_str "cron_expr" "" (job_json (mkJob id msg created (OnCron c next)) : J) = Ok (print_cron c)) as ->
      by by fields.
    cbn [res_of rbind String.eqb Ascii.eqb Bool.eqb].
    rewrite print_cron_nonempty by done.
    destruct (Z.ltb_spec 0 next); [|lia]. cbn [negb andb]. destruct (Z.leb_spec next now); [|done].
    rewrite expression_spec by done. cbn [rbind andb]. destruct (cron_all c (gmtime now)); [done|].
    destruct (next_fire_bounds c now Hc Hnow) as (n & En & _). rewrite En. cbn [rbind].
    assert (value_str "id" "unknown" (job_json (mkJob id msg created (OnCron c next)) : J) = Ok id) as -> by by fields.
    cbn [res_of rbind value_or]. destruct (Z.ltb_spec now next); [lia|]. by rewrite set_next_cron.
Qed.

(** The document a fired job is left with. *)
Definition fired_json (now : Z) (j : Job) : J :=
  match remaining now j with Some j' => job_json j' | None => set_field "removed" (j_bool true) (job_json j) end.

Lemma after_fire_json now j : job_ok j -> fires now j = true -> 0 <= now < kClockEnd ->
  after_fire now (job_view j) (job_json j : J) = Val (fired_json now j, true).
Proof.
  intros Hj Hf Hnow. unfold after_fire, fires, fired_json, remaining, job_view, job_ok in *.
  destruct j as [id msg created [t|every next|c next]]; cbn [jb_kind jv_type jv_next jv_interval next_fire] in *;
    apply andb_true_iff in Hf as [Hle Hf]; apply Z.leb_le in Hle; cbn [String.eqb Ascii.eqb Bool.eqb].
  - by destruct (Z.ltb_spec now t); [lia|].
  - destruct Hj as (Hn & -> & _ & s & Es & Hs).
    assert (value_long "next_fire" now (job_json (mkJob id msg created (Recurring every next)) : J) = Val next) as ->
      by (fields; by rewrite get_long_int by lia).
    rewrite Es. cbn [rbind value_or]. destruct (Z.ltb_spec now next); [lia|].
    by rewrite set_next_recurring, set_not_fired.
  - destruct Hj as (Hn & Hc). destruct (next_fire_bounds c now Hc ltac:(lia)) as (n & En & _).
    assert (value_str "cron_expr" "" (job_json (mkJob id msg created (OnCron c next)) : J) = Ok (print_cron c)) as ->
      by by fields.
    cbn [res_of rbind]. rewrite En. cbn [rbind value_or]. destruct (Z.ltb_spec now next); [lia|].
    by rewrite set_next_cron, set_not_fired.
Qed.

(** A session manager that is never busy, and notes the prompts it gets. *)
Context {X : Type} `{FileSystem X, CronHost X} (prompts : X -> list string).
Definition answering : Prop := forall x, session_busy kCronSessionId x = false /\ still_running x = true /\
  forall p, (session_invoke kCronSessionId p x).2.2 <> "Agent is busy" /\
    prompts (session_invoke kCronSessionId p x).1 = prompts x ++ [p].

Lemma check_job_json now j (x : X) : answering -> job_ok j -> 0 <= now < kClockEnd ->
  exists x1, check_job now (job_json j : J) x
    = (x1, Val (Some (fired_json now j, negb (now <? next_fire (jb_kind j))))) /\
    prompts x1 = prompts x ++ (if fires now j then [cron_prompt (jb_message j)] else []) /\
    (next_fire (jb_kind j) <= now \/ x1 = x).
Proof.
  intros Ha Hj Hnow. unfold check_job. rewrite read_job_json by done. cbn [res_of].
  rewrite should_fire_json by (done || lia). destruct (Ha x) as (Hb & Hr & Hi).
  destruct (fires now j) eqn:Hf.
  - rewrite Hr. cbn [negb andb]. rewrite message_json, id_json. cbn [res_of rbind]. unfold HandleEvent. rewrite Hb. specialize (Hi (cron_prompt (jb_message j))).
    destruct (session_invoke _ _ x) as [x1 [ok text]]. cbn in Hi. destruct Hi as [Ht Hp].
    destruct (String.eqb_spec text "Agent is busy"); [done|].
    rewrite after_fire_json by done.
    destruct (Ha x1) as (_ & -> & _). exists x1. cbn [orb]. unfold fires in Hf. apply andb_true_iff in Hf as [Hle _].
    rewrite Z.ltb_antisym, Hle. cbn [negb]. split; [done|]. split; [done|]. left. lia.
  - assert ((match jb_kind j with
      | OnCron _ n => if n <=? now then (job_json (default j (remaining now j)), true, false) else (job_json j, false, false)
      | _ => (job_json j : J, false, false) end)
      = (fired_json now j, negb (now <? next_fire (jb_kind j)), false)) as ->.
    { unfold fires, fired_json, remaining in *. destruct j as [id msg created [t|every next|c next]]; cbn [jb_kind next_fire] in *;
        rewrite ?andb_true_r in Hf; rewrite Z.ltb_antisym, ?Hf, ?negb_involutive; cbn [negb]; try done.
      by destruct (next <=? now). }
    cbn [negb andb]. exists x. rewrite app_nil_r. split; [done|]. split; [done | by right].
Qed.

Lemma check_jobs_json now l (x : X) : answering -> Forall job_ok l -> 0 <= now < kClockEnd ->
  exists x1, check_jobs now (map job_json l : list J) x
    = (x1, Val (Some (map (fired_json now) l, negb (forallb (fun j => now <? next_fire (jb_kind j)) l)))) /\
    prompts x1 = prompts x ++ map (fun j => cron_prompt (jb_message j)) (List.filter (fires now) l) /\
    (forallb (fun j => now <? next_fire (jb_kind j)) l = true -> x1 = x).
Proof.
  intros Ha Hl Hnow. revert x. induction Hl as [|j l Hj Hl IH]; intros x; cbn [map check_jobs forallb List.filter].
  { exists x. rewrite app_nil_r. done. }
  destruct (check_job_json now j x Ha Hj Hnow) as (x1 & E1 & Hp1 & Hx1). rewrite E1.
  destruct (IH x1) as (x2 & E2 & Hp2 & Hx2). rewrite E2. exists x2. split.
  - by destruct (now <? next_fire (jb_kind j)).
  - rewrite Hp2, Hp1, <- app_assoc. split; [by destruct (fires now j)|].
    intros [Hlt%Z.ltb_lt Hall]%andb_true_iff. destruct Hx1 as [Hle| ->]; [lia | by apply Hx2].
Qed.

Lemma erase_done_json now l : 0 <= now ->
  exists m, erase_done (map (fired_json now) l : list J) = Ok (map job_json (omap (remaining now) l), m) /\
    (forallb (fun j => now <? next_fire (jb_kind j)) l = true -> m = false).
Proof.
  intros Hnow. induction l as [|j l IH]; cbn [map erase_done forallb]; [by exists false|].
  destruct IH as (m & -> & Hm). cbn [obind]. cbn [omap list_omap].
  assert (forall j', value_bool "removed" false (job_json j' : J) = Ok false) as Hrem
    by (intros j'; destruct j' as [? ? ? []]; by fields).
  unfold fired_json. destruct (remaining now j) as [j'|] eqn:Er.
  - rewrite Hrem. cbn [obind]. exists m. split; [done|]. intros [_ Hall]%andb_true_iff. auto.
  - unfold remaining in Er. destruct (now <? next_fire (jb_kind j)) eqn:Hlt; [done|].
    destruct j as [id msg created [t|? ?|? ?]]; cbn [jb_kind] in Er; [|done..]. exists true. split; [|done].
    unfold job_json, kind_fields. cbn [jb_kind app]. rewrite set_field_fields. cbn [app]. by fields.
Qed.

(** ** What is written can be read *)

Lemma cron_char c d : cron_ok c -> occurs d (print_cron c) = true -> (byte_of d <= 127)%N.
Proof.
  assert (forall f, field_ok f -> forall e, occurs e (print_field f) = true -> is_Some (digit_of e) \/ occurs e ",*-/" = true) as Hfield.
  { intros [i l]. unfold field_ok, print_field. cbn [fst snd]. revert i.
    assert (forall i, item_ok i -> forall e, occurs e (print_item i) = true -> is_Some (digit_of e) \/ occurs e ",*-/" = true) as Hi.
    { intros i Hi e He. destruct (digit_of e) as [n|] eqn:Ed; [by left|]. right.
      destruct (occurs e "*-/") eqn:Eo.
      - destruct e as [[] [] [] [] [] [] [] []]; (discriminate Eo || reflexivity).
      - by rewrite item_char in He. }
    induction l as [|j l IH]; intros i [Hok Hl]%Forall_cons e He; cbn [print_items] in He; [by apply (Hi i)|].
    rewrite !occurs_app in He. apply orb_true_iff in He as [He|[He|He]%orb_true_iff]; [by apply (Hi i) | | by apply (IH j)].
    right. cbn in *. rewrite orb_false_r in He. by rewrite He. }
  intros (H1' & H2' & H3' & H4' & H5') Hd. unfold print_cron in Hd. rewrite !occurs_app in Hd.
  assert (is_Some (digit_of d) \/ occurs d ",*-/ " = true) as Hc.
  { assert (forall f, field_ok f -> occurs d (print_field f) = true -> is_Some (digit_of d) \/ occurs d ",*-/ " = true) as Hf.
    { intros f Hf Ho. destruct (Hfield f Hf d Ho) as [|Ho']; [by left|]. right. cbn in Ho' |- *.
      rewrite orb_false_r in Ho'. rewrite !orb_assoc in *. by rewrite Ho'. }
    assert (occurs d " " = true -> occurs d ",*-/ " = true) as Hs by (cbn; intros ->; by rewrite !orb_true_r).
    repeat (apply orb_true_iff in Hd as [Hd|Hd]; [first [by eapply Hf; [|exact Hd] | right; by apply Hs]|]).
    by eapply Hf; [|exact Hd]. }
  destruct d as [[] [] [] [] [] [] [] []]; try (vm_compute; discriminate); destruct Hc as [[n Hn]|Hc]; discriminate.
Qed.

Lemma plain_job j : job_ok j -> utf8_job j -> json_plain (job_json j : J).
Proof.
  intros Hj [Hid Hmsg]. unfold job_json, text_field. apply json_plain_fields. intros k v Hk.
  assert (forall s : string, (forall c, occurs c s = true -> (byte_of c <= 127)%N) -> json_plain (j_string s : J)) as Hs
    by (intros s Hs; by apply json_plain_string, ascii_utf8).
  destruct j as [id msg created [t|every next|c next]]; unfold job_ok in Hj; cbn [jb_kind jb_id jb_message jb_created kind_fields app text_field] in *;
    repeat (apply elem_of_cons in Hk as [[= -> ->]|Hk];
      [split; [by apply utf8_ascii|];
       first [by apply json_plain_string | by apply json_plain_string, utf8_ascii
             | by eapply plain_int, view_j_int | by eapply plain_bool; unfold j_bool; rewrite view_make
             | by eapply plain_float; [apply view_j_float | apply Hj]
             | apply Hs; intros d Hd; eapply cron_char; [apply Hj | exact Hd]]|]);
    by apply elem_of_nil in Hk.
Qed.

Lemma remaining_ok now j j' : 0 <= now < kClockEnd -> job_ok j -> utf8_job j -> remaining now j = Some j' -> job_ok j' /\ utf8_job j'.
Proof.
  intros Hnow Hj Hu. unfold remaining. destruct (Z.ltb_spec now (next_fire (jb_kind j))); [by intros [= <-]|].
  destruct j as [id msg created [t|every next|c next]]; unfold job_ok in *; cbn [jb_kind next_fire] in *; [done|..]; intros [= <-].
  - destruct Hj as (Hn & Hp & Hd & s & Es & Hs). rewrite Es. split; [|done]. cbn. unfold kClockEnd in *.
    split; [lia|]. split; [done|]. split; [done|]. by exists s.
  - destruct Hj as (Hn & Hc). destruct (next_fire_bounds c now Hc ltac:(lia)) as (n & En & Hb). rewrite En.
    split; [|done]. cbn. unfold kClockEnd in *. split; [lia | done].
Qed.

Lemma remaining_all_ok now l : 0 <= now < kClockEnd -> Forall job_ok l -> Forall utf8_job l ->
  Forall job_ok (omap (remaining now) l) /\ Forall utf8_job (omap (remaining now) l).
Proof.
  intros Hnow Hl Hu. rewrite !Forall_forall. rewrite Forall_forall in Hl, Hu.
  split; intros j' (j & Hin & Er)%list_elem_of_omap; by eapply remaining_ok; eauto.
Qed.
(** ** A check of the jobs file *)

Context {FL : FileSystemLaws X} (jobsPath : string).
Local Notation at_least_zero l now := (forallb (fun j => now <? next_fire (jb_kind j)) l).

(** The file holds these jobs. *)
Definition holds (x : X) (l : list Job) : Prop :=
  (exists t, fs_status jobsPath x = Ok t /\ t <> not_found) /\
  exists text, fs_read jobsPath x = Some text /\ json_parse text = Ok (j_array (map job_json l) : J).
(** The disk takes what is written, and a write sends no prompt. *)
Definition writable : Prop :=
  forall t x, (fs_write jobsPath t x).2 = true /\ prompts (fs_write jobsPath t x).1 = prompts x.

Lemma holds_exists x l : holds x l -> fs_exists jobsPath x = Ok true.
Proof. intros [(t & Et & Ht) _]. unfold fs_exists. rewrite Et. cbn [obind]. by rewrite bool_decide_eq_false_2. Qed.
Lemma holds_document x l : holds x l -> read_document jobsPath x = Ok (j_array (map job_json l) : J).
Proof. intros [_ (text & Er & Ep)]. unfold read_document. by rewrite Er. Qed.

Lemma saved_holds x l : writable -> Forall job_ok l -> Forall utf8_job l ->
  exists x1, save_jobs jobsPath (j_array (map job_json l) : J) x = (x1, Ok tt) /\ holds x1 l /\ prompts x1 = prompts x.
Proof.
  intros Hw Hl Hu. rewrite Forall_forall in Hl, Hu.
  assert (json_plain (j_array (map job_json l) : J)) as Hp.
  { apply json_plain_array. intros v (j & -> & Hj)%list_elem_of_fmap. auto using plain_job. }
  destruct (dump_ok (Some 2%nat) _ Hp) as [text Ed]. unfold save_jobs. rewrite Ed.
  destruct (Hw text x) as [Hok Hps]. destruct (fs_write jobsPath text x) as [x1 b] eqn:Ew. cbn in Hok, Hps. subst b.
  exists x1. split; [done|]. split; [|done]. split.
  - exists regular. split; [by eapply write_exists | done].
  - exists text. split; [by eapply write_read | by eapply parse_dump].
Qed.

Lemma remaining_all_later now l : at_least_zero l now = true -> omap (remaining now) l = l.
Proof.
  induction l as [|j l IH]; [done|]. cbn [forallb]. intros [Hj Hl]%andb_true_iff. cbn [omap list_omap].
  unfold remaining at 1. rewrite Hj. f_equal. by apply IH.
Qed.

Lemma elements_of_array (l : list J) : elements_of (j_array l) = l.
Proof. unfold elements_of. by rewrite view_j_array. Qed.

(** C24.  A check of the jobs file does what reminders mean.  When the agent is not busy
    and answers, the file can be read and written, the clock is before 2035 and no cron
    job restricts both day fields, the prompts of exactly those jobs go to the agent, in
    the order of the file, whose time has come and, of the cron jobs, whose expression
    allows the minute of the check under the rules of cron.  The file then holds the jobs
    that are left, a cron job with the first minute its expression allows next, also when
    its minute was missed and nothing was sent; and those are again jobs the watcher can
    read. *)
Theorem check_refines x l :
  holds x l -> Forall job_ok l -> Forall utf8_job l -> Forall one_day_field l ->
  0 <= unix_time x < kClockEnd -> answering -> writable ->
  exists x1 rest, CheckAndFireCrons (J := J) jobsPath x = (x1, Val tt) /\
    prompts x1 = prompts x ++ map (fun j => cron_prompt (jb_message j)) (List.filter (due (unix_time x)) l) /\
    Forall2 (kept (unix_time x)) l rest /\ holds x1 (omap id rest) /\
    Forall (fun j => job_ok j /\ utf8_job j /\ one_day_field j) (omap id rest).
Proof.
  intros Hh Hl Hu Hd Hnow Ha Hw. set (now := unix_time x) in *.
  destruct (remaining_all_ok now l Hnow Hl Hu) as [Hl' Hu'].
  assert (Forall (fun j => job_ok j /\ utf8_job j /\ one_day_field j) (omap (remaining now) l)) as Hall'.
  { pose proof (remaining_one_day now l Hd) as Hd'. rewrite Forall_forall in Hl', Hu', Hd' |- *. auto. }
  rewrite <- filter_due by done.
  enough (exists x1, CheckAndFireCrons (J := J) jobsPath x = (x1, Val tt) /\ holds x1 (omap (remaining now) l) /\
    prompts x1 = prompts x ++ map (fun j => cron_prompt (jb_message j)) (List.filter (fires now) l)) as (x1 & E & Hh1 & Hp1).
  { exists x1, (map (remaining now) l). rewrite remaining_list. split_and!; try done. by apply remaining_all_kept. }
  unfold CheckAndFireCrons. rewrite (holds_exists x l Hh), (holds_document x l Hh).
  unfold is_array. rewrite view_j_array. cbn [negb]. rewrite elements_of_array. fold now.
  destruct (check_jobs_json now l x Ha Hl Hnow) as (x1 & -> & Hp & Hx1).
  destruct (erase_done_json now l ltac:(lia)) as (m & -> & Hm).
  destruct (at_least_zero l now) eqn:Hall; cbn [negb orb].
  - rewrite Hm, Hx1 by done. exists x. rewrite remaining_all_later in * by done.
    split; [done|]. split; [done|]. by rewrite <- Hp, Hx1.
  - destruct (saved_holds x1 _ Hw Hl' Hu') as (x2 & -> & Hh2 & Hp2). exists x2. by rewrite Hp2.
Qed.

(** ** The time slept *)

(** When a job comes next, seen from [now]: an overdue one-time reminder is left to the
    next turn, a recurring one is counted on by whole intervals. *)
Definition comes (now : Z) (j : Job) : option Z :=
  match jb_kind j with
  | OneTime t => if now <? t then Some t else None
  | Recurring every n =>
      let step := value_or 0 (trunc_double every) in
      Some (if now <? n then n else n + step * ((now - n) / step + 1))
  | OnCron c n => Some (if now <? n then n else value_or 0 (CalculateNextFire (print_cron c) now))
  end.

Lemma comes_later now j t : job_ok j -> 0 <= now -> comes now j = Some t -> now < t.
Proof.
  intros Hj Hnow. unfold comes, job_ok in *. destruct (jb_kind j) as [a|every n|c n].
  - destruct (Z.ltb_spec now a); [|done]. intros [= <-]. lia.
  - destruct Hj as (Hn & _ & _ & s & -> & Hs). cbn [value_or]. intros [= <-]. destruct (Z.ltb_spec now n); [done|].
    pose proof (Z.div_mod (now - n) s ltac:(lia)). pose proof (Z.mod_pos_bound (now - n) s ltac:(lia)). nia.
  - destruct Hj as (Hn & Hc). destruct (next_fire_bounds c now Hc Hnow) as (m & -> & Hm). cbn [value_or]. intros [= <-].
    destruct (Z.ltb_spec now n); lia.
Qed.

Lemma next_of_json now e j : job_ok j -> 0 <= now ->
  next_of now e (job_json j : J) = Val (match comes now j with Some t => earlier e t | None => e end).
Proof.
  intros Hj Hnow. unfold next_of. rewrite read_job_json by done. cbn [res_of rbind].
  unfold job_view, comes, job_ok in *. destruct j as [id msg created [a|every n|c n]]; cbn [jb_kind jv_type jv_next jv_interval next_fire String.eqb Ascii.eqb Bool.eqb] in *.
  - by destruct (now <? a).
  - destruct Hj as (Hn & -> & _ & s & -> & Hs). cbn [rbind value_or].
    destruct (Z.leb_spec n 0); [lia|]. rewrite (Z.leb_antisym now n). destruct (now <? n) eqn:Hlt; cbn [negb rbind]; [done|].
    unfold catch_up. rewrite Hlt. by destruct (Z.leb_spec s 0); [lia|].
  - destruct Hj as (Hn & Hc).
    assert (value_str "cron_expr" "" (job_json (mkJob id msg created (OnCron c n)) : J) = Ok (print_cron c)) as -> by by fields.
    cbn [res_of rbind]. destruct (next_fire_bounds c now Hc Hnow) as (m & Em & _).
    rewrite print_cron_nonempty by done.
    destruct (Z.leb_spec n 0); [lia|]. cbn [orb]. rewrite (Z.leb_antisym now n), Em. by destruct (now <? n).
Qed.

(** The earliest of the times found so far and those of the jobs. *)
Lemma earliest_json now e l : Forall job_ok l -> 0 <= now -> e = 0 \/ now < e ->
  exists r, earliest now e (map job_json l : list J) = Val r /\
    (r = 0 \/ now < r) /\ (e <> 0 -> r <> 0 /\ r <= e) /\
    (forall j t, j ∈ l -> comes now j = Some t -> r <> 0 /\ r <= t) /\
    (r <> 0 -> r = e \/ exists j, j ∈ l /\ comes now j = Some r).
Proof.
  intros Hl Hnow. revert e. induction Hl as [|j l Hj Hl IH]; intros e He; cbn [map earliest].
  { exists e. split; [done|]. split; [done|]. split; [lia|]. split; [by intros ? ? ?%elem_of_nil | auto]. }
  rewrite next_of_json by done. cbn [rbind]. pose proof (comes_later now j) as Hlater.
  set (e' := match comes now j with Some t => earlier e t | None => e end).
  assert (He' : e' = e \/ comes now j = Some e') by (unfold e', earlier; destruct (comes now j); [by case_match; auto | auto]).
  assert (Hle : (e <> 0 -> e' <= e) /\ forall t, comes now j = Some t -> e' <= t).
  { unfold e', earlier. destruct (comes now j) as [t|]; [|split; [lia | done]].
    destruct (Z.eqb_spec e 0), (Z.ltb_spec t e); cbn [orb]; (split; [lia | intros ? [= <-]; lia]). }
  assert (Hz : e' = 0 \/ now < e') by (destruct He' as [->|E]; [done | right; by apply (Hlater e')]).
  assert (Hnz : (e <> 0 -> e' <> 0) /\ forall t, comes now j = Some t -> e' <> 0).
  { destruct He' as [E|E]; [|split; [|intros ? ?]; intros; specialize (Hlater e' Hj Hnow E); lia].
    split; [by rewrite E|]. intros t Et. specialize (Hlater t Hj Hnow Et). unfold e', earlier. rewrite Et.
    destruct (Z.eqb_spec e 0), (Z.ltb_spec t e); cbn [orb]; lia. }
  clearbody e'. destruct (IH e' Hz) as (r & Er & Hr1 & Hr2 & Hr3 & Hr4). exists r. split; [done|]. split; [done|].
  destruct Hle as [Hle1 Hle2], Hnz as [Hnz1 Hnz2]. split; [|split].
  - intros Hne. specialize (Hle1 Hne). destruct (Hr2 (Hnz1 Hne)). split; [done | lia].
  - intros j' t [->|Hin]%elem_of_cons Et; [|by apply (Hr3 j')]. specialize (Hle2 t Et). destruct (Hr2 (Hnz2 t Et)).
    split; [done | lia].
  - intros Hne. destruct (Hr4 Hne) as [->|(j' & Hin & Ej)].
    + destruct He' as [E|E]; [by left | right; exists j; split; [constructor | done]].
    + right. exists j'. split; [by constructor | done].
Qed.

(** The watcher never sleeps past a job: the time it sleeps is at most its interval
    and ends no later than the moment any job in the file comes next, it ends at such a
    moment when it is less than the interval, and it is never zero or less. *)
Theorem sleep_in_time x l intervalSeconds :
  holds x l -> Forall job_ok l -> 0 <= unix_time x -> 0 < intervalSeconds ->
  exists s, CalculateSleepDuration (J := J) jobsPath intervalSeconds x = Val s /\ 0 < s <= intervalSeconds /\
    (forall j t, j ∈ l -> comes (unix_time x) j = Some t -> unix_time x + s <= t) /\
    (s < intervalSeconds -> exists j, j ∈ l /\ comes (unix_time x) j = Some (unix_time x + s)).
Proof.
  intros Hh Hl Hnow Hi. unfold CalculateSleepDuration.
  rewrite (holds_exists x l Hh), (holds_document x l Hh), elements_of_array. set (now := unix_time x) in *.
  destruct (earliest_json now 0 l Hl Hnow ltac:(by left)) as (r & Er & Hr & _ & Hall & Hone).
  assert (Hsame : match map job_json l : list J with [] => Val intervalSeconds | a :: b =>
      match earliest now 0 (a :: b) with
      | Val e => Val (if now <? e then Z.min intervalSeconds (e - now) else intervalSeconds)
      | Exc _ => Val intervalSeconds | Undefined => Undefined end end
    = Val (if now <? r then Z.min intervalSeconds (r - now) else intervalSeconds)).
  { destruct l as [|j l]; [|cbn [map] in *; by rewrite Er]. cbn [map earliest] in *. injection Er as <-.
    destruct (Z.ltb_spec now 0); [lia | done]. }
  exists (if now <? r then Z.min intervalSeconds (r - now) else intervalSeconds). split; [exact Hsame|].
  destruct (Z.ltb_spec now r); (split; [lia|]); split.
  - intros j t Hj Ht. destruct (Hall j t Hj Ht). lia.
  - intros Hs. destruct (Hone ltac:(lia)) as [?|(j & Hj & Ej)]; [lia|]. exists j. split; [done|]. rewrite Ej. f_equal. lia.
  - intros j t Hj Ht. destruct (Hall j t Hj Ht). lia.
  - lia.
Qed.

(** ** Adding a reminder *)

Context `{LocalTime X}.

(** What the arguments of the tool ask for at a time. *)
Inductive asks (x : X) : spec_float -> string -> string -> string -> JobKind -> Prop :=
  | asks_every every at_ expr tz s : positive every = true -> is_double every -> trunc_double every = Val s ->
      0 < s < 2 ^ 26 -> asks x every at_ expr tz (Recurring every (unix_time x + s))
  | asks_at every at_ expr tz t : positive every = false -> at_ <> "" ->
      ParseISOTime at_ (back_is "Z" at_ || match find_char "+" at_ 11, find_char "-" at_ 11 with None, None => false | _, _ => true end
        || str_empty tz) x = t -> unix_time x < t < 2 ^ 31 -> asks x every at_ expr tz (OneTime t)
  | asks_cron every c tz next : positive every = false -> cron_ok c ->
      CalculateNextFire (print_cron c) (unix_time x) = Val next -> asks x every "" (print_cron c) tz (OnCron c next).

(** The jobs in the file, none when there is no file yet. *)
Definition stored (x : X) (l : list Job) : Prop := holds x l \/ fs_status jobsPath x = Ok not_found /\ l = [].

Lemma stored_read x l : stored x l -> read_jobs jobsPath x = Val (map job_json l : list J).
Proof.
  intros [Hh|[Hn ->]]; unfold read_jobs.
  - rewrite (holds_exists x l Hh). cbn [res_of rbind]. pose proof (holds_document x l Hh) as Hd. unfold read_document in Hd.
    by rewrite Hd, elements_of_array.
  - unfold fs_exists. rewrite Hn. cbn [obind]. by rewrite bool_decide_eq_true_2.
Qed.

Lemma asks_time x every at_ expr tz k : 0 <= unix_time x < kClockEnd -> asks x every at_ expr tz k ->
  job_time every at_ expr tz x = Val (inr (kind_fields k : list (string * J))) /\
  (forall id msg created, job_ok (mkJob id msg created k)) /\ unix_time x < next_fire k.
Proof.
  intros Hnow Ha. unfold kClockEnd in Hnow. unfold job_time, job_ok. cbn [jb_kind].
  destruct Ha as [every at_ expr tz s Hp Hd Es Hs|every at_ expr tz t Hp Hat Et Ht|every c tz next Hp Hc En];
    rewrite Hp; cbn [next_fire].
  - rewrite Es. cbn [rbind]. split; [done|]. split; [|lia]. intros _ _ _. split; [lia|]. eauto.
  - destruct at_ as [|a at_]; [done|]. cbn [str_empty negb]. set (at' := String a at_) in *.
    rewrite Et. destruct (Z.eqb_spec t 0); [lia|]. destruct (Z.leb_spec t (unix_time x)); [lia|].
    split; [done|]. split; [intros; lia | lia].
  - cbn [str_empty negb]. rewrite print_cron_nonempty, En by done. cbn [negb rbind].
    destruct (next_fire_bounds c (unix_time x) Hc ltac:(lia)) as (n & En' & Hn). rewrite En in En'. injection En' as ->.
    split; [done|]. split; [|lia]. intros _ _ _. split; [lia | done].
Qed.

Lemma job_id_utf8 x : 0 <= unix_time x -> utf8 (GenerateJobId x).
Proof. intros Hx. apply utf8_numbered; [by apply ascii_forallb | done]. Qed.

(** Adding a reminder appends one job to the file, with the message and the kind that
    was asked for, due after the present, and leaves the other jobs as they are; the file
    is again one the watcher reads. *)
Theorem add_refines x l message every at_ expr tz k :
  stored x l -> Forall job_ok l -> Forall utf8_job l -> 0 <= unix_time x < kClockEnd -> writable -> utf8 message ->
  asks x every at_ expr tz k ->
  let job := mkJob (GenerateJobId x) (if str_empty message then "Reminder" else message) (unix_time x) k in
  exists x1 reply, AddReminder (J := J) jobsPath message every at_ expr tz x = (x1, Val reply) /\
    holds x1 (l ++ [job]) /\ Forall job_ok (l ++ [job]) /\ Forall utf8_job (l ++ [job]) /\
    unix_time x < next_fire k.
Proof.
  intros Hst Hl Hu Hnow Hw Hmsg Ha job. destruct (asks_time x every at_ expr tz k Hnow Ha) as (Et & Hok & Hlater).
  assert (Forall job_ok (l ++ [job])) as Hl' by (apply Forall_app; split; [done | by repeat constructor; apply Hok]).
  assert (Forall utf8_job (l ++ [job])) as Hu'.
  { apply Forall_app. split; [done|]. constructor; [|done]. split; [apply job_id_utf8; lia|]. cbn.
    destruct (str_empty message); [by apply utf8_ascii | done]. }
  destruct (saved_holds x _ Hw Hl' Hu') as (x1 & Es & Hh & _). unfold AddReminder.
  rewrite (stored_read x l Hst), Et. cbn [rbind].
  rewrite map_app in Es. cbn [map] in Es. unfold job_json in Es at 2. cbn [jb_id jb_message jb_created jb_kind job] in Es. rewrite Es.
  assert (exists s, value_str "type" "" (job_json job : J) = Ok s) as [s Et'] by (subst job; destruct k; eexists; by fields).
  exists x1. eexists. split; [|done]. f_equal.
  change (j_fields _) with (job_json job : J).
  assert (value_long "next_fire" (unix_time x1) (job_json job : J) = Val (next_fire k)) as ->.
  { specialize (Hok "" "" 0). unfold job_ok in Hok. cbn [jb_kind] in Hok. subst job.
    destruct k as [t|ev n|c n]; cbn [next_fire] in *; fields; rewrite get_long_int; [done|lia|done|lia|done|lia]. }
  rewrite Et'. cbn [res_of rbind]. reflexivity.
Qed.
End Refinement.

(** ** Examples *)

Section Examples.
(** A disk and the prompts the agent got; an agent that is never busy. *)
Definition ex_world : Type := MemDisk.disk * list string.
#[local] Instance ex_files : FileSystem ex_world := {|
  fs_status := fun p x => fs_status p x.1;
  fs_file_size := fun p x => fs_file_size p x.1;
  fs_mtime := fun p x => fs_mtime p x.1;
  fs_create_directories := fun p x => ((fs_create_directories p x.1).1, x.2, Ok tt);
  fs_entries := fun p x => fs_entries p x.1;
  fs_read := fun p x => fs_read p x.1;
  fs_write := fun p t x => ((fs_write p t x.1).1, x.2, (fs_write p t x.1).2);
  unix_time := fun x => unix_time x.1
|}.
#[local] Instance ex_files_laws : FileSystemLaws ex_world.
Proof.
  split.
  - intros p t [d l] [d1 l1] [= <- <-]. exact (write_read (X := MemDisk.disk) p t d _ eq_refl).
  - intros p t [d l] [d1 l1] [= <- <-]. exact (write_exists (X := MemDisk.disk) p t d _ eq_refl).
  - intros p [d l]. apply (mtime_range (X := MemDisk.disk)).
  - intros [d l]. apply (time_range (X := MemDisk.disk)).
Qed.
#[local] Instance ex_host : CronHost ex_world := {|
  session_busy := fun _ _ => false;
  session_invoke := fun _ p x => ((x.1, x.2 ++ [p]), (true, "done"));
  still_running := fun _ => true
|}.
#[local] Instance ex_time : LocalTime ex_world := {|
  get_time := fun _ _ => None;
  mktime := fun _ _ => 0;
  local_text := fun t _ => to_string t
|}.
#[local] Instance ex_json : Json JsonTree.json := JsonTree.instance [].
#[local] Instance ex_laws : JsonLaws JsonTree.json := JsonTree.laws [] ltac:(by intros ? ?%elem_of_nil).

(** Sixty seconds as a double. *)
Definition ex_minute : spec_float := S754_finite false (60 * 2 ^ 47) (-47).

(** Monday at nine: a reminder that is due, a recurring one, and the quarter hours. *)
Definition ex_jobs : list Job :=
  [mkJob "a" "water the plants" 0 (OneTime 378000); mkJob "b" "stretch" 0 (Recurring ex_minute 377999);
   mkJob "c" "stand up" 0 (OnCron ex_cron 378000); mkJob "d" "go home" 0 (OneTime 400000)].
Definition ex_at (now : Z) : ex_world :=
  (MemDisk.mkDisk [("jobs", (match json_dump (Some 2%nat) (j_array (map job_json ex_jobs)) with Ok s => s | Throw _ => "" end, 0))] now, []).

Lemma ex_answering : answering (snd : ex_world -> list string).
Proof. by intros [d l]. Qed.
Lemma ex_writable : writable (snd : ex_world -> list string) "jobs".
Proof. by intros t [d l]. Qed.
Lemma ex_jobs_ok : Forall job_ok ex_jobs.
Proof.
  unfold ex_jobs. repeat (apply Forall_cons; split); try (by apply Forall_nil); unfold job_ok; cbn [jb_kind]; [lia| |split; [lia|exact ex_cron_ok]|lia].
  split; [lia|]. split; [by vm_compute|]. split; [by vm_compute|]. exists 60. split; [by vm_compute | lia].
Qed.
Lemma ex_jobs_utf8 : Forall utf8_job ex_jobs.
Proof. repeat (apply Forall_cons; split); try (by apply Forall_nil); split; by apply utf8_ascii. Qed.
Lemma ex_holds now : holds "jobs" (ex_at now) ex_jobs.
Proof.
  assert (json_plain (j_array (map job_json ex_jobs))) as Hp.
  { apply json_plain_array. intros v (j & -> & Hj)%list_elem_of_fmap. pose proof ex_jobs_ok as H.
    pose proof ex_jobs_utf8 as Hu. rewrite Forall_forall in H, Hu. by apply plain_job; [apply H | apply Hu]. }
  destruct (dump_ok (Some 2%nat) _ Hp) as [text Ed]. unfold ex_at. rewrite Ed.
  split; [by exists regular|]. exists text. split; [done|]. by apply (parse_dump (Some 2%nat)).
Qed.

Lemma ex_one_day : Forall one_day_field ex_jobs.
Proof. unfold ex_jobs. repeat (apply List.Forall_cons; [done|]). constructor. Qed.

Lemma check_refines_witness :
  holds "jobs" (ex_at 378000) ex_jobs /\
  exists x1 rest, CheckAndFireCrons (J := JsonTree.json) "jobs" (ex_at 378000) = (x1, Val tt) /\
    x1.2 = map cron_prompt ["water the plants"; "stretch"; "stand up"] /\
    Forall2 (kept 378000) ex_jobs rest /\ holds "jobs" x1 (omap id rest) /\ length (omap id rest) = 3%nat.
Proof.
  split; [apply ex_holds|].
  destruct (check_refines (J := JsonTree.json) snd "jobs" (ex_at 378000) ex_jobs (ex_holds _) ex_jobs_ok ex_jobs_utf8
              ex_one_day ltac:(by vm_compute) ex_answering ex_writable) as (x1 & rest & E & Hp & Hk & Hh & _).
  change (unix_time (ex_at 378000)) with 378000 in *.
  exists x1, rest. split; [exact E|]. split; [rewrite Hp; by vm_compute|]. split; [exact Hk|]. split; [exact Hh|].
  clear -Hk. unfold ex_jobs in Hk.
  repeat match goal with
  | Hf : Forall2 _ (_ :: _) _ |- _ => apply Forall2_cons_inv_l in Hf as (? & ? & ?Hj & Hf & ->)
  | Hf : Forall2 _ [] _ |- _ => apply Forall2_nil_inv_l in Hf as ->
  | Hj : kept _ _ _ |- _ => inversion Hj; clear Hj; subst; cbn in *; try lia
  end; reflexivity.
Defined.

(** With both day fields restricted the watcher misses a day the rules of cron allow:
    the thirteenth or a Friday, at midnight of Friday the second of January 1970. *)
Definition ex_both_days : Cron := mkCron (CNum 0, []) (CNum 0, []) (CNum 13, []) (CAll, []) (CNum 5, []).
Lemma both_days_missed :
  cron_ok ex_both_days /\ CalculateNextFire (print_cron ex_both_days) 0 = Val 86400 /\
  MatchesCronExpression (print_cron ex_both_days) (gmtime 86400) = Val false.
Proof.
  split; [repeat (apply conj || apply Forall_cons || apply Forall_nil || exact I); cbn; lia|].
  split; vm_compute; reflexivity.
Qed.

(** The job of the quarter hours, due at 378000 and looked at a minute later, is put off
    and not sent. *)
Lemma missed_minute_put_off :
  let j := mkJob "c" "stand up" 0 (OnCron ex_cron 378000) in
  due 378060 j = false /\
  exists x1, check_job (J := JsonTree.json) 378060 (job_json j) (ex_at 378060) =
    (x1, Val (Some (job_json (mkJob "c" "stand up" 0 (OnCron ex_cron 378900)), true))) /\ x1.2 = [].
Proof. split; [vm_compute; reflexivity|]. eexists. split; vm_compute; reflexivity. Qed.

Lemma sleep_in_time_witness :
  exists s, CalculateSleepDuration (J := JsonTree.json) "jobs" 3600 (ex_at 378000) = Val s /\ s = 59.
Proof.
  destruct (sleep_in_time (J := JsonTree.json) "jobs" (ex_at 378000) ex_jobs 3600 (ex_holds _) ex_jobs_ok
              ltac:(by vm_compute) ltac:(lia)) as (s & E & Hs & Hall & Hone).
  exists s. split; [exact E|].
  pose proof (Hall (mkJob "b" "stretch" 0 (Recurring ex_minute 377999)) 378059 ltac:(by right; left) ltac:(by vm_compute)) as Hb.
  change (unix_time (ex_at 378000)) with 378000 in *. destruct (Hone ltac:(lia)) as (j & Hj & Ej).
  remember (378000 + s) as r eqn:Hr. unfold ex_jobs in Hj. clear E Hall Hone.
  repeat (apply elem_of_cons in Hj as [->|Hj]; [vm_compute in Ej; simplify_eq; lia|]). by apply elem_of_nil in Hj.
Defined.

Lemma add_refines_witness :
  exists x1 reply, AddReminder (J := JsonTree.json) "jobs" "" ex_minute "" "" "" (ex_at 378000) = (x1, Val reply) /\
    holds "jobs" x1 (ex_jobs ++ [mkJob "job_378000" "Reminder" 378000 (Recurring ex_minute 378060)]).
Proof.
  destruct (add_refines (J := JsonTree.json) snd "jobs" (ex_at 378000) ex_jobs "" ex_minute "" "" "" (Recurring ex_minute 378060)
    ltac:(left; apply ex_holds) ex_jobs_ok ex_jobs_utf8 ltac:(by vm_compute) ex_writable ltac:(by apply utf8_ascii)) as (x1 & reply & E & Hh & _).
  { assert (unix_time (ex_at 378000) = 378000) as Ht by reflexivity.
    replace 378060 with (unix_time (ex_at 378000) + 60) by (rewrite Ht; reflexivity).
    apply asks_every; [by vm_compute | by vm_compute | by vm_compute | lia]. }
  exists x1, reply. split; [exact E | exact Hh].
Defined.
End Examples.
