(* ===== verification/AtomicFile.v ===== *)
(** * Files that are replaced as a whole

    How the example application saves its registries: the document goes to a file beside
    the old one, which is then renamed over it. *)
From Stdlib Require Import ZArith Lia String Ascii List.
From stdpp Require Import base decidable list strings gmap.
From S2P Require Import Prelude Encoding JsonLib Files.
Open Scope Z_scope.

(** ** The values of a map, in the order of their keys *)

Lemma NoDup_fields_of {V} (m : gmap string V) : NoDup (map fst (fields_of m)).
Proof.
  unfold fields_of. pose proof (sset_of_list_ok (map fst (map_to_list m))) as Hs. unfold sset_ok in Hs.
  induction Hs as [|k l Hs IH Hf]; [constructor|]. cbn [omap list_omap]. destruct (m !! k) as [v|]; [|exact IH]. cbn.
  constructor; [|exact IH]. intros ([k' w] & E & Hin)%list_elem_of_fmap. cbn in E. subst k'.
  apply list_elem_of_omap in Hin as (k' & Hin & E). destruct (m !! k'); [|done]. injection E as -> _.
  rewrite Forall_forall in Hf. by apply Hf, str_lt_irrefl in Hin.
Qed.

(** Values that carry their own key. *)
Lemma keyed_values {V} (key : V -> string) (m : gmap string V) : (forall k v, m !! k = Some v -> key v = k) ->
  NoDup (map key (map snd (fields_of m))) /\ forall v, v ∈ map snd (fields_of m) <-> m !! key v = Some v.
Proof.
  intros Hk. split.
  - assert (map key (map snd (fields_of m)) = map fst (fields_of m)) as ->; [|apply NoDup_fields_of].
    rewrite map_map. apply map_ext_in. intros [k v] Hin%list_elem_of_In%elem_of_fields_of. by apply Hk.
  - intros v. rewrite list_elem_of_fmap. split.
    + intros ([k w] & -> & Hin%elem_of_fields_of). cbn. by rewrite (Hk k w Hin).
    + intros Hv. exists (key v, v). split; [done|]. by apply elem_of_fields_of.
Qed.

(** ** Replacing a file *)

(** [fs::rename], which throws when it fails. *)
Class FileRename (X : Type) := { fs_rename : string -> string -> X -> X * outcome unit }.

Class FileRenameLaws (X : Type) `{FileSystem X, FileRename X} := {
  rename_read (p q t : string) (x x1 : X) :
    fs_rename p q x = (x1, Ok tt) -> fs_read p x = Some t -> fs_read q x1 = Some t;
  rename_exists (p q : string) (x x1 : X) :
    fs_rename p q x = (x1, Ok tt) -> fs_status p x = Ok regular -> fs_status q x1 = Ok regular
}.

Section Replace.
Context {X J : Type} `{FileSystem X, FileRename X, Json J}.

(** The members of an object, the elements of an array by their index, or the value
    itself under an empty key: what [items()] visits. *)
Definition items_of (j : J) : list (string * J) :=
  match json_view j with
  | JNull => []
  | JObject m => fields_of m
  | JArray l => imap (fun i v => (nat_to_string i, v)) l
  | _ => [("", j)]
  end.

(** A stream that does not open takes nothing, and the rename is tried all the same; the
    exceptions are logged. *)
Definition replace_file (path : string) (doc : J) (x : X) : X :=
  match (if str_empty (parent_path path) then (x, Ok tt) else fs_create_directories (parent_path path) x) with
  | (x, Throw _) => x
  | (x, Ok _) =>
      let tmp := path +:+ ".tmp" in
      match json_dump (Some 2%nat) doc with
      | Throw _ => (fs_write tmp "" x).1
      | Ok text => (fs_rename tmp path (fs_write tmp text x).1).1
      end
  end.

(** A disk that takes the file. *)
Definition takes (path : string) : Prop := forall x,
  (fs_create_directories (parent_path path) x).2 = Ok tt /\
  (forall t, (fs_write (path +:+ ".tmp") t x).2 = true) /\
  (fs_status (path +:+ ".tmp") x = Ok regular -> (fs_rename (path +:+ ".tmp") path x).2 = Ok tt).

(** The file holds a document. *)
Definition file_holds (path : string) (doc : J) (x : X) : Prop :=
  fs_exists path x = Ok true /\ exists text, fs_read path x = Some text /\ json_parse text = Ok doc.

Context {FL : FileSystemLaws X} {RL : FileRenameLaws X} {JL : JsonLaws J}.

Lemma replaced (path : string) (doc : J) (x : X) :
  takes path -> json_plain doc -> file_holds path doc (replace_file path doc x).
Proof.
  intros Ht Hp. unfold replace_file, file_holds. destruct (dump_ok (Some 2%nat) doc Hp) as [text Ed]. rewrite Ed.
  assert (exists x0, (if str_empty (parent_path path) then (x, Ok tt) else fs_create_directories (parent_path path) x) = (x0, Ok tt))
    as [x0 ->].
  { destruct (str_empty _); [by exists x|]. destruct (Ht x) as [Hc _].
    destruct (fs_create_directories (parent_path path) x) as [x0 r]. cbn in Hc. subst r. by exists x0. }
  destruct (Ht x0) as (_ & Hw & _). specialize (Hw text). destruct (fs_write (path +:+ ".tmp") text x0) as [x1 b] eqn:Ew.
  cbn in Hw. subst b. cbn [fst]. pose proof (write_read _ _ _ _ Ew) as Hr. pose proof (write_exists _ _ _ _ Ew) as He.
  destruct (Ht x1) as (_ & _ & Hn). specialize (Hn He). destruct (fs_rename (path +:+ ".tmp") path x1) as [x2 r] eqn:En.
  cbn in Hn. subst r. cbn [fst]. split.
  - unfold fs_exists. by rewrite (rename_exists _ _ _ _ En He).
  - exists text. split; [by eapply rename_read | by eapply parse_dump].
Qed.
End Replace.

(** A text map as a JSON object. *)
Section TextMaps.
Context {J : Type} `{JsonLaws J}.

Definition text_map (m : gmap string string) : J := j_object (j_string <$> m).

Lemma text_map_plain (m : gmap string string) :
  (forall k v, m !! k = Some v -> utf8 k /\ utf8 v) -> json_plain (text_map m).
Proof.
  intros Hm. apply json_plain_object. intros k v Hk. apply lookup_fmap_Some in Hk as (s & <- & Hk).
  destruct (Hm k s Hk). split; [done | by apply json_plain_string].
Qed.
End TextMaps.

(** ** The disk in memory *)

#[export] Instance mem_rename : FileRename MemDisk.disk := {|
  fs_rename := fun p q d =>
    match MemDisk.find p d with
    | None => (d, Throw "no such file")
    | Some (t, m) => (MemDisk.mkDisk ((q, (t, m)) :: List.filter (fun e => negb (String.eqb e.1 p)) (MemDisk.d_files d)) (MemDisk.d_clock d), Ok tt)
    end
|}.
#[export] Instance mem_rename_laws : FileRenameLaws MemDisk.disk.
Proof.
  split.
  - intros p q t x x1. cbn. destruct (MemDisk.find p x) as [[t0 m]|]; [|done]. intros [= <-] [= <-].
    unfold MemDisk.find. cbn. by rewrite String.eqb_refl.
  - intros p q x x1. cbn. destruct (MemDisk.find p x) as [[t0 m]|]; [|done]. intros [= <-] _.
    unfold MemDisk.find. cbn. by rewrite String.eqb_refl.
Qed.
Lemma mem_takes (path : string) : back_is "/" (path +:+ ".tmp") = false -> takes (X := MemDisk.disk) path.
Proof.
  intros Hp x. split; [done|]. split; [done|]. cbn. intros Hs. destruct (MemDisk.find (path +:+ ".tmp") x) as [[t m]|]; [done|].
  rewrite Hp in Hs. by destruct (str_empty (path +:+ ".tmp")).
Qed.
