(* ===== verification/Channels.v ===== *)
(** * Channels (examples/jiuwenClaw/channels)

    The registry of channels with its file (channel_manager.cpp), and the service that
    keeps a bot running for each of them (channel_service.cpp). *)
From Stdlib Require Import ZArith Lia String Ascii List.
From stdpp Require Import base decidable list strings gmap pretty.
From S2P Require Import Prelude Numbers Encoding JsonLib Files AtomicFile.
Open Scope Z_scope.

Record ChannelConfig := mkChannel {
  ch_id : string;
  ch_type : string;
  ch_name : string;
  ch_enabled : bool;
  ch_params : gmap string string
}.
Definition set_ch_id (id : string) (c : ChannelConfig) : ChannelConfig :=
  mkChannel id (ch_type c) (ch_name c) (ch_enabled c) (ch_params c).

(** ** The registry *)

Record ChannelManager := mkChannelManager {
  cm_path : string;
  channels_ : gmap string ChannelConfig;
  nextId_ : Z
}.
Definition fresh_channels (path : string) : ChannelManager := mkChannelManager path ∅ 1.
Definition set_channels (m : gmap string ChannelConfig) (s : ChannelManager) : ChannelManager :=
  mkChannelManager (cm_path s) m (nextId_ s).

Section Manager.
Context {X J : Type} `{FileSystem X, FileRename X, Json J}.

Definition channel_json (c : ChannelConfig) : J :=
  j_fields [("id", j_string (ch_id c)); ("type", j_string (ch_type c)); ("name", j_string (ch_name c));
            ("enabled", j_bool (ch_enabled c));
            ("params", if decide (ch_params c = ∅) then j_null else text_map (ch_params c))].

Definition channels_json (s : ChannelManager) : J :=
  j_array (map (fun e => channel_json e.2) (fields_of (channels_ s))).

Definition ChannelSaveToFile (s : ChannelManager) (x : X) : X :=
  if str_empty (cm_path s) then x else replace_file (cm_path s) (channels_json s) x.

(** [c.params[key] = value.get<std::string>()] for every item. *)
Fixpoint read_params (l : list (string * J)) (m : gmap string string) : outcome (gmap string string) :=
  match l with
  | [] => Ok m
  | (k, v) :: l => s <-- get_string v ;; read_params l (<[k := s]> m)
  end.

Definition read_channel (item : J) : outcome ChannelConfig :=
  id <-- value_str "id" "" item ;;
  type <-- value_str "type" "" item ;;
  name <-- value_str "name" "" item ;;
  enabled <-- value_bool "enabled" true item ;;
  params <-- match jfield "params" item with Some p => read_params (items_of p) ∅ | None => Ok ∅ end ;;
  Ok (mkChannel id type name enabled params).

(** What was read stays when an item throws. *)
Fixpoint read_channels (l : list J) (m : gmap string ChannelConfig) : gmap string ChannelConfig * outcome unit :=
  match l with
  | [] => (m, Ok tt)
  | item :: l =>
      match read_channel item with
      | Throw e => (m, Throw e)
      | Ok c => read_channels l (if str_empty (ch_id c) then m else <[ch_id c := c]> m)
      end
  end.

(** The number of an id, where it has one. *)
Definition id_number (id : string) : option Z :=
  if starts_with "channel_" id then stoi (str_drop 8 id) else None.
Definition recalc (next : Z) (id : string) : Z :=
  match id_number id with Some n => if next <=? n then n + 1 else next | None => next end.
Definition RecalcNextId (s : ChannelManager) : ChannelManager :=
  mkChannelManager (cm_path s) (channels_ s) (fold_left recalc (map fst (fields_of (channels_ s))) (nextId_ s)).

(** [fs::exists] is outside the [try]. *)
Definition ChannelLoad (s : ChannelManager) (x : X) : ChannelManager * outcome bool :=
  if str_empty (cm_path s) then (s, Ok false)
  else
    match fs_exists (cm_path s) x with
    | Throw e => (s, Throw e)
    | Ok false => (s, Ok false)
    | Ok true =>
        match json_parse (J := J) (default "" (fs_read (cm_path s) x)) with
        | Throw _ => (s, Ok false)
        | Ok j =>
            if negb (is_array j) then (s, Ok false)
            else
              match read_channels (elements_of j) ∅ with
              | (m, Throw _) => (mkChannelManager (cm_path s) m 1, Ok false)
              | (m, Ok _) => (RecalcNextId (mkChannelManager (cm_path s) m 1), Ok true)
              end
        end
    end.

Definition AddChannel (config : ChannelConfig) (s : ChannelManager) (x : X) : ChannelManager * X :=
  let '(c, next) := if str_empty (ch_id config)
                    then (set_ch_id ("channel_" +:+ to_string (nextId_ s)) config, nextId_ s + 1)
                    else (config, nextId_ s) in
  let s := mkChannelManager (cm_path s) (<[ch_id c := c]> (channels_ s)) next in
  (s, ChannelSaveToFile s x).

Definition UpdateChannel (id : string) (config : ChannelConfig) (s : ChannelManager) (x : X) : ChannelManager * X :=
  match channels_ s !! id with
  | None => (s, x)
  | Some _ =>
      let s := set_channels (<[id := set_ch_id id config]> (channels_ s)) s in
      (s, ChannelSaveToFile s x)
  end.

Definition RemoveChannel (id : string) (s : ChannelManager) (x : X) : ChannelManager * X :=
  let s := set_channels (delete id (channels_ s)) s in (s, ChannelSaveToFile s x).

Definition GetChannel (id : string) (s : ChannelManager) : option ChannelConfig := channels_ s !! id.
Definition GetAllChannels (s : ChannelManager) : list ChannelConfig := map snd (fields_of (channels_ s)).

Inductive channel_op :=
  | ChAdd (c : ChannelConfig)
  | ChUpdate (id : string) (c : ChannelConfig)
  | ChRemove (id : string)
  | ChSave.
Definition channel_step (op : channel_op) (s : ChannelManager) (x : X) : ChannelManager * X :=
  match op with
  | ChAdd c => AddChannel c s x
  | ChUpdate id c => UpdateChannel id c s x
  | ChRemove id => RemoveChannel id s x
  | ChSave => (s, ChannelSaveToFile s x)
  end.
Definition channel_run (ops : list channel_op) (s : ChannelManager) (x : X) : ChannelManager * X :=
  fold_left (fun c op => channel_step op c.1 c.2) ops (s, x).
End Manager.
Arguments channels_json {J} {_} _.

(** ** The registry survives a restart *)

Definition channel_ok (c : ChannelConfig) : Prop :=
  utf8 (ch_id c) /\ utf8 (ch_type c) /\ utf8 (ch_name c) /\
  forall k v, ch_params c !! k = Some v -> utf8 k /\ utf8 v.
Definition registry_ok (m : gmap string ChannelConfig) : Prop :=
  forall k c, m !! k = Some c -> ch_id c = k /\ str_empty k = false /\ channel_ok c.

(** An id made for a channel replaces none, while the numbers fit an [int]. *)
Definition ids_fresh (s : ChannelManager) : Prop :=
  nextId_ s < 2 ^ 31 -> channels_ s !! ("channel_" +:+ to_string (nextId_ s)) = None.

Lemma id_number_to_string n : - 2 ^ 31 <= n < 2 ^ 31 -> id_number ("channel_" +:+ to_string n) = Some n.
Proof. intros Hn. unfold id_number. cbn. by rewrite stoi_to_string. Qed.

Lemma recalc_above l next id n : id ∈ l -> id_number id = Some n -> n < fold_left recalc l next.
Proof.
  assert (forall l next, next <= fold_left recalc l next) as Hmono.
  { clear. induction l as [|k l IH]; intros next; cbn [fold_left]; [lia|]. etransitivity; [|apply IH].
    unfold recalc. destruct (id_number k) as [m|]; [|lia]. destruct (Z.leb_spec next m); lia. }
  intros Hin Hn. revert next. induction l as [|k l IH]; intros next; [by apply elem_of_nil in Hin|]. cbn [fold_left].
  apply elem_of_cons in Hin as [->|Hin]; [|by apply IH]. eapply Z.lt_le_trans; [|apply Hmono].
  unfold recalc. rewrite Hn. destruct (Z.leb_spec next n); lia.
Qed.

Lemma recalc_fresh (path : string) (m : gmap string ChannelConfig) :
  ids_fresh (RecalcNextId (mkChannelManager path m 1)).
Proof.
  unfold ids_fresh, RecalcNextId. cbn [nextId_ channels_ cm_path]. set (next := fold_left _ _ 1). intros Hn.
  destruct (m !! ("channel_" +:+ to_string next)) as [c|] eqn:E; [|done]. exfalso.
  assert (1 <= next) as Hpos.
  { unfold next. clear. generalize (map fst (fields_of m)). intros l.
    assert (forall k, k <= fold_left recalc l k) as H; [|apply H]. induction l as [|id l IH]; intros k; cbn [fold_left]; [lia|].
    etransitivity; [|apply IH]. unfold recalc. destruct (id_number id) as [n|]; [|lia]. destruct (Z.leb_spec k n); lia. }
  assert (next < next); [|lia]. unfold next at 2.
  apply (recalc_above _ 1 ("channel_" +:+ to_string next)); [|apply id_number_to_string; lia].
  apply list_elem_of_fmap. exists ("channel_" +:+ to_string next, c). split; [done|]. by apply elem_of_fields_of.
Qed.

Section Restart.
Context {X J : Type} `{FileSystemLaws X, FileRename X, !FileRenameLaws X, JsonLaws J}.

Lemma read_params_map (l : list (string * string)) (m : gmap string string) :
  read_params (map (fun e => (e.1, j_string e.2 : J)) l) m = Ok (fold_left (fun m e => <[e.1 := e.2]> m) l m).
Proof.
  revert m. induction l as [|[k v] l IH]; intros m; [done|]. cbn [map read_params fst snd fold_left].
  unfold get_string. rewrite view_j_string. cbn [obind]. apply IH.
Qed.

Lemma fields_of_fmap {A B} (f : A -> B) (m : gmap string A) :
  fields_of (f <$> m) = map (fun e => (e.1, f e.2)) (fields_of m).
Proof.
  unfold fields_of. assert (sset_of_list (map fst (map_to_list (f <$> m))) = sset_of_list (map fst (map_to_list m))) as ->.
  { apply sset_of_list_eq. intros k. rewrite !list_elem_of_fmap. split; intros ([k' v] & -> & Hin).
    - apply elem_of_map_to_list, lookup_fmap_Some in Hin as (w & _ & Hin). exists (k', w). split; [done|]. by apply elem_of_map_to_list.
    - exists (k', f v). split; [done|]. apply elem_of_map_to_list. apply elem_of_map_to_list in Hin. by rewrite lookup_fmap, Hin. }
  induction (sset_of_list _) as [|k l IH]; [done|]. cbn [omap list_omap]. rewrite lookup_fmap.
  destruct (m !! k) as [v|]; cbn; [|done]. by f_equal.
Qed.

Lemma read_channel_json c : read_channel (channel_json c : J) = Ok c.
Proof.
  unfold read_channel, channel_json, value_str, value_bool. rewrite !value_of_fields, jfield_j_fields.
  cbn [assoc_last String.eqb Ascii.eqb Bool.eqb obind]. unfold get_string, get_bool.
  rewrite !view_j_string, view_j_bool. cbn [obind]. destruct c as [id type name enabled params]. cbn [ch_params ch_id ch_type ch_name ch_enabled].
  destruct (decide (params = ∅)) as [->|_]; unfold items_of.
  - unfold j_null. by rewrite view_make.
  - unfold text_map. rewrite view_j_object, fields_of_fmap, read_params_map, insert_fields. done.
Qed.

Lemma read_channels_json (l : list (string * ChannelConfig)) m :
  (forall e, e ∈ l -> ch_id e.2 = e.1 /\ str_empty e.1 = false) ->
  read_channels (map (fun e => channel_json e.2) l : list J) m = (fold_left (fun m e => <[e.1 := e.2]> m) l m, Ok tt).
Proof.
  revert m. induction l as [|e l IH]; intros m Hl; [done|]. cbn [map read_channels fold_left]. rewrite read_channel_json.
  destruct (Hl e ltac:(left)) as [-> ->]. apply IH. intros e' He'. apply Hl. by right.
Qed.

Lemma channels_plain m path next : registry_ok m -> json_plain (channels_json (mkChannelManager path m next) : J).
Proof.
  intros Hm. apply json_plain_array. intros v ([k c] & -> & Hk)%list_elem_of_fmap. cbn [channels_] in Hk.
  apply elem_of_fields_of in Hk. destruct (Hm k c Hk) as (_ & _ & Hi & Ht & Hn & Hp). apply json_plain_fields.
  intros key w Hw. repeat (apply elem_of_cons in Hw as [[= -> ->]|Hw];
    [split; [by apply utf8_ascii|]; try first [by apply json_plain_string | by eapply plain_bool, view_j_bool]|]);
    [|by apply elem_of_nil in Hw].
  destruct (decide _); [eapply plain_null; unfold j_null; apply view_make | by apply text_map_plain].
Qed.

(** What a new process would load is what there is. *)
Definition agrees (s : ChannelManager) (x : X) : Prop :=
  channels_ (ChannelLoad (J := J) (fresh_channels (cm_path s)) x).1 = channels_ s.

Lemma saved_agrees s x : str_empty (cm_path s) = false -> takes (cm_path s) -> registry_ok (channels_ s) ->
  agrees s (ChannelSaveToFile (J := J) s x).
Proof.
  intros Hp Ht Hm. unfold agrees, ChannelSaveToFile, ChannelLoad. cbn [fresh_channels cm_path]. rewrite Hp.
  destruct (replaced (cm_path s) (channels_json s : J) x Ht) as (He & text & Er & Ep).
  { destruct s. by apply channels_plain. }
  rewrite He, Er. change (default "" (Some text)) with text. rewrite Ep. unfold is_array, elements_of, channels_json. rewrite view_j_array. cbn [negb].
  rewrite read_channels_json.
  - cbn [fst RecalcNextId channels_]. by rewrite insert_fields.
  - intros [k c] Hk%elem_of_fields_of. by destruct (Hm k c Hk) as (? & ? & _).
Qed.

Definition channel_op_ok (op : channel_op) : Prop :=
  match op with
  | ChAdd c => channel_ok c
  | ChUpdate id c => utf8 id /\ channel_ok c
  | _ => True
  end.

Lemma registry_insert m k c : registry_ok m -> ch_id c = k -> str_empty k = false -> channel_ok c -> registry_ok (<[k := c]> m).
Proof. intros Hm ? ? ? k' c' Hk'. apply lookup_insert_Some in Hk' as [[<- <-]|[_ Hk']]; [done | by apply Hm]. Qed.

Lemma channel_ok_id id c : utf8 id -> channel_ok c -> channel_ok (set_ch_id id c).
Proof. by intros Hid (_ & ?). Qed.

Definition channel_inv (s : ChannelManager) (x : X) : Prop :=
  registry_ok (channels_ s) /\ 0 <= nextId_ s /\ agrees s x.

Lemma channel_step_inv op s x : str_empty (cm_path s) = false -> takes (cm_path s) -> channel_op_ok op -> channel_inv s x ->
  let r := channel_step (J := J) op s x in channel_inv r.1 r.2 /\ cm_path r.1 = cm_path s.
Proof.
  intros Hp Ht Hop (Hm & Hn & Ha). destruct op as [c|id c|id|]; cbn [channel_step channel_op_ok] in *.
  - unfold AddChannel. destruct (str_empty (ch_id c)) eqn:Ee; cbn [fst snd cm_path].
    + set (id := "channel_" +:+ to_string (nextId_ s)).
      assert (registry_ok (<[ch_id (set_ch_id id c) := set_ch_id id c]> (channels_ s))) as Hm'.
      { apply registry_insert; [done|done|done|]. apply channel_ok_id; [|done]. apply utf8_numbered; [by apply ascii_forallb | done]. }
      split; [|done]. split; [done|]. cbn [nextId_]. split; [lia|]. by apply saved_agrees.
    + assert (registry_ok (<[ch_id c := c]> (channels_ s))) as Hm' by (by apply registry_insert).
      split; [|done]. split; [done|]. split; [done|]. by apply saved_agrees.
  - unfold UpdateChannel. destruct (channels_ s !! id) as [c0|] eqn:E; [|done]. cbn [fst snd].
    destruct (Hm id c0 E) as (_ & Hid & _). split; [|done].
    assert (registry_ok (<[id := set_ch_id id c]> (channels_ s))) as Hm'
      by (destruct Hop; apply registry_insert; [done|done|done|]; by apply channel_ok_id).
    split; [done|]. split; [done|]. by apply saved_agrees.
  - cbn [fst snd]. split; [|done].
    assert (registry_ok (delete id (channels_ s))) as Hm'
      by (intros k c Hk; apply lookup_delete_Some in Hk as [_ Hk]; by apply Hm).
    split; [done|]. split; [done|]. by apply saved_agrees.
  - split; [|done]. split; [done|]. split; [done|]. by apply saved_agrees.
Qed.

Lemma channel_run_inv ops s x : str_empty (cm_path s) = false -> takes (cm_path s) -> Forall channel_op_ok ops ->
  channel_inv s x -> let r := channel_run (J := J) ops s x in channel_inv r.1 r.2 /\ cm_path r.1 = cm_path s.
Proof.
  intros Hp Ht Hops. revert s x Hp Ht. induction Hops as [|op ops Hop Hops IH]; intros s x Hp Ht Hi; [done|].
  unfold channel_run in *. cbn [fold_left fst snd]. destruct (channel_step_inv op s x Hp Ht Hop Hi) as [Hi1 Hp1].
  destruct (channel_step op s x) as [s1 x1]. cbn [fst snd] in *. rewrite <- Hp1. apply IH; by rewrite ?Hp1.
Qed.

Lemma load_fresh path x : ids_fresh (ChannelLoad (J := J) (fresh_channels path) x).1 \/
  exists m, (ChannelLoad (J := J) (fresh_channels path) x) = (mkChannelManager path m 1, Ok false).
Proof.
  assert (ids_fresh (fresh_channels path)) as Hf by (intros _; apply lookup_empty).
  unfold ChannelLoad. cbn [cm_path fresh_channels]. destruct (str_empty path); [by left|].
  destruct (fs_exists path x) as [[]|e]; [|by left..]. destruct (json_parse _) as [j|e]; [|by left].
  destruct (negb _); [by left|]. destruct (read_channels _ ∅) as [m [u|e]]; [left; apply recalc_fresh | right; by exists m].
Qed.

(** Whatever is added, changed, removed and saved, a new process that loads the file
    has the same channels, and an id it makes for a new channel is none of theirs. *)
Theorem channels_survive_restart ops s x : str_empty (cm_path s) = false -> takes (cm_path s) ->
  Forall channel_op_ok ops -> channel_inv s x ->
  let '(s1, x1) := channel_run (J := J) ops s x in
  exists s2 b, ChannelLoad (J := J) (fresh_channels (cm_path s)) x1 = (s2, b) /\ channels_ s2 = channels_ s1 /\
    (b = Ok true -> ids_fresh s2).
Proof.
  intros Hp Ht Hops Hi. pose proof (channel_run_inv ops s x Hp Ht Hops Hi) as Hr.
  destruct (channel_run ops s x) as [s1 x1]. destruct Hr as [(_ & _ & Ha) Hp1]. cbn [fst snd] in *.
  unfold agrees in Ha. rewrite Hp1 in Ha.
  destruct (load_fresh (cm_path s) x1) as [Hf|[m E]]; [|rewrite E in *; exists (mkChannelManager (cm_path s) m 1), (Ok false)].
  - destruct (ChannelLoad _ x1) as [s2 b]. by exists s2, b.
  - done.
Qed.
End Restart.

(** ** Examples *)

Section Examples.
#[local] Instance ex_json : Json JsonTree.json := JsonTree.instance [].
#[local] Instance ex_laws : JsonLaws JsonTree.json := JsonTree.laws [] ltac:(by intros ? ?%elem_of_nil).

Definition ex_params : gmap string string := <["appId" := "i"]> ∅.
Definition ex_ops : list channel_op :=
  [ChAdd (mkChannel "" "feishu" "team" true ex_params); ChAdd (mkChannel "" "feishu" "other" false ∅); ChRemove "channel_1"].

Lemma ex_ops_ok : Forall channel_op_ok ex_ops.
Proof.
  repeat (apply Forall_cons; split); try apply Forall_nil; [| |exact I|exact I]; cbn [channel_op_ok];
    (split; [by apply utf8_ascii|]; split; [by apply utf8_ascii|]; split; [by apply utf8_ascii|]);
    cbn [ch_params]; unfold ex_params; intros k v Hk.
  - apply lookup_insert_Some in Hk as [[<- <-]|[_ Hk]]; [split; by apply utf8_ascii | by rewrite lookup_empty in Hk].
  - by rewrite lookup_empty in Hk.
Qed.

Lemma channels_survive_restart_witness :
  exists s2 b, ChannelLoad (J := JsonTree.json) (fresh_channels "c.json")
    (channel_run (J := JsonTree.json) ex_ops (fresh_channels "c.json") (MemDisk.mkDisk [] 0)).2 = (s2, b) /\
    GetAllChannels s2 = [mkChannel "channel_2" "feishu" "other" false ∅].
Proof.
  pose proof (channels_survive_restart (J := JsonTree.json) ex_ops (fresh_channels "c.json") (MemDisk.mkDisk [] 0)
    eq_refl (mem_takes "c.json" eq_refl) ex_ops_ok) as Ht.
  assert (channel_inv (J := JsonTree.json) (fresh_channels "c.json") (MemDisk.mkDisk [] 0)) as Hi.
  { split; [by intros k c Hk; cbn [channels_ fresh_channels] in Hk; rewrite lookup_empty in Hk|]. split; [cbn; lia | by vm_compute]. }
  specialize (Ht Hi). destruct (channel_run ex_ops _ _) as [s1 x1] eqn:Er. cbn [cm_path fresh_channels] in Ht.
  destruct Ht as (s2 & b & E & Ec & _). exists s2, b. split; [exact E|]. unfold GetAllChannels. rewrite Ec.
  assert (s1 = (channel_run (J := JsonTree.json) ex_ops (fresh_channels "c.json") (MemDisk.mkDisk [] 0)).1) as -> by (by rewrite Er).
  vm_compute. reflexivity.
Defined.
End Examples.
