(* ===== verification/PbFrame.v ===== *)
(** * Frames of the Feishu connection (examples/jiuwenClaw/adapters/feishu/feishu_channel.cpp)

    The encoder and decoder of protobuf frames, over bytes and 64-bit unsigned positions.
    What one side encodes the other decodes; a length close to 2^64 sends the decoder
    back to where it was. *)
From Stdlib Require Import NArith ZArith Lia String Ascii List.
From stdpp Require Import base decidable list strings.
From S2P Require Import Prelude.
Open Scope N_scope.

Definition byte (n : N) : ascii := ascii_of_N n.
Definition u64 (n : N) : N := n mod 2 ^ 64.
Definition size (s : string) : N := N.of_nat (String.length s).

(** [static_cast<int32_t>] of an unsigned number, and back. *)
Definition int32_of (n : N) : Z := ((Z.of_N n + 2 ^ 31) mod 2 ^ 32 - 2 ^ 31)%Z.
Definition u64_of (z : Z) : N := Z.to_N (z mod 2 ^ 64).

(** ** Varints *)

(** A number of 64 bits has at most ten groups of seven. *)
Fixpoint append_groups (n : nat) (value : N) : string :=
  match n with
  | O => ""
  | S n =>
      if 128 <=? value then String (byte (N.lor (N.land value 127) 128)) (append_groups n (N.shiftr value 7))
      else String (byte value) ""
  end.
Definition AppendVarint (out : string) (value : N) : string := out +:+ append_groups 10 value.

(** The loop, which ends with the input or at a shift of 64. *)
Fixpoint read_groups (n : nat) (s : string) (pos shift result : N) : N * N :=
  match n, s with
  | S n, String c s =>
      let b := byte_of c in
      let result := N.lor result (u64 (N.shiftl (N.land b 127) shift)) in
      if N.land b 128 =? 0 then (result, pos + 1) else read_groups n s (pos + 1) (shift + 7) result
  | _, _ => (result, pos)
  end.
Definition ReadVarint (s : string) (pos : N) : N * N := read_groups 10 (str_drop (N.to_nat pos) s) pos 0 0.

(** The sum that is compared, and the new position, wrap. *)
Definition ReadLengthDelimited (s : string) (pos : N) : string * N :=
  let '(len, pos) := ReadVarint s pos in
  let len := if size s <? u64 (pos + len) then u64 (size s + 2 ^ 64 - pos) else len in
  (str_take (N.to_nat (N.min len (size s))) (str_drop (N.to_nat pos) s), u64 (pos + len)).

(** ** Frames *)

Record Header := mkHeader { h_key : string; h_value : string }.
Record Frame := mkFrame {
  seqId : N;
  logId : N;
  service : Z;
  method : Z;
  f_headers : list Header;
  payload : string;
  payloadType : string
}.
Definition new_frame : Frame := mkFrame 0 0 0 0 [] "" "".

Definition field_tag (field wire : N) : N := N.lor (N.shiftl field 3) wire.
Definition varint_field (field value : N) : string := AppendVarint (AppendVarint "" (field_tag field 0)) value.
Definition bytes_field (field : N) (s : string) : string :=
  AppendVarint (AppendVarint "" (field_tag field 2)) (size s) +:+ s.

Definition encode_header (h : Header) : string := bytes_field 1 (h_key h) +:+ bytes_field 2 (h_value h).
Definition EncodeFrame (frame : Frame) : string :=
  varint_field 1 (seqId frame) +:+ varint_field 2 (logId frame) +:+ varint_field 3 (u64_of (service frame)) +:+
  varint_field 4 (u64_of (method frame)) +:+
  string_concat (map (fun h => bytes_field 5 (encode_header h)) (f_headers frame)) +:+
  (if str_empty (payload frame) then "" else bytes_field 8 (payload frame)).

(** The loop over a header; [None] when it has not ended after [fuel] turns. *)
Fixpoint header_loop (fuel : nat) (data : string) (hpos : N) (h : Header) : option Header :=
  if hpos <? size data then
    match fuel with
    | O => None
    | S fuel =>
        let '(htag, hpos) := ReadVarint data hpos in
        let hfield := int32_of (N.shiftr htag 3) in
        let hwire := N.land htag 7 in
        if hwire =? 2 then
          let '(sval, hpos) := ReadLengthDelimited data hpos in
          let h := if (hfield =? 1)%Z then mkHeader sval (h_value h)
                   else if (hfield =? 2)%Z then mkHeader (h_key h) sval else h in
          header_loop fuel data hpos h
        else if hwire =? 0 then header_loop fuel data (ReadVarint data hpos).2 h
        else header_loop fuel data hpos h
    end
  else Some h.

Definition set_number (field val : N) (f : Frame) : Frame :=
  if field =? 1 then mkFrame val (logId f) (service f) (method f) (f_headers f) (payload f) (payloadType f)
  else if field =? 2 then mkFrame (seqId f) val (service f) (method f) (f_headers f) (payload f) (payloadType f)
  else if field =? 3 then mkFrame (seqId f) (logId f) (int32_of val) (method f) (f_headers f) (payload f) (payloadType f)
  else if field =? 4 then mkFrame (seqId f) (logId f) (service f) (int32_of val) (f_headers f) (payload f) (payloadType f)
  else f.
Definition add_header (h : Header) (f : Frame) : Frame :=
  if str_empty (h_key h) then f
  else mkFrame (seqId f) (logId f) (service f) (method f) (f_headers f ++ [h]) (payload f) (payloadType f).
Definition set_payload (p : string) (f : Frame) : Frame :=
  mkFrame (seqId f) (logId f) (service f) (method f) (f_headers f) p (payloadType f).
Definition set_type (t : string) (f : Frame) : Frame :=
  mkFrame (seqId f) (logId f) (service f) (method f) (f_headers f) (payload f) t.

Definition set_data (fuel : nat) (field : N) (data : string) (f : Frame) : option Frame :=
  if field =? 5 then (fun h => add_header h f) <$> header_loop fuel data 0 (mkHeader "" "")
  else if (field =? 6) || (field =? 7) then Some (set_type data f)
  else if field =? 8 then Some (set_payload data f)
  else Some f.

Fixpoint frame_loop (fuel : nat) (s : string) (pos : N) (f : Frame) : option Frame :=
  if pos <? size s then
    match fuel with
    | O => None
    | S fuel =>
        let '(tag, pos) := ReadVarint s pos in
        let field := N.shiftr tag 3 mod 2 ^ 32 in
        let wireType := N.land tag 7 in
        if wireType =? 0 then
          let '(val, pos) := ReadVarint s pos in frame_loop fuel s pos (set_number field val f)
        else if wireType =? 2 then
          let '(data, pos) := ReadLengthDelimited s pos in
          match set_data fuel field data f with Some f => frame_loop fuel s pos f | None => None end
        else frame_loop fuel s pos f
    end
  else Some f.

(** The last header named [type]. *)
Definition type_of_headers (l : list Header) (dflt : string) : string :=
  fold_left (fun t h => if String.eqb (h_key h) "type" then h_value h else t) l dflt.
(** [None] is a decoder that has not ended. *)
Definition DecodeFrame (fuel : nat) (s : string) : option Frame :=
  (fun f => set_type (type_of_headers (f_headers f) (payloadType f)) f) <$> frame_loop fuel s 0 new_frame.

Definition MakePingFrame (serviceId : Z) : Frame := mkFrame 0 0 serviceId 0 [mkHeader "type" "ping"] "" "".

Example ex_ping : DecodeFrame 9 (EncodeFrame (MakePingFrame (-3))) = Some (set_type "ping" (MakePingFrame (-3))).
Proof. vm_compute. reflexivity. Qed.

(** ** Reading what was written *)

Lemma byte_of_byte (n : N) : n < 256 -> byte_of (byte n) = n.
Proof. intros Hn. unfold byte_of, byte. by apply N_ascii_embedding. Qed.

Lemma low_group (value : N) : N.land (N.lor (N.land value 127) 128) 127 = N.land value 127.
Proof.
  rewrite N.land_lor_distr_l, <- N.land_assoc. change (N.land 127 127) with 127. change (N.land 128 127) with 0. apply N.lor_0_r.
Qed.
Lemma high_bit (value : N) : N.land (N.lor (N.land value 127) 128) 128 = 128.
Proof. rewrite N.land_lor_distr_l, <- N.land_assoc. change (N.land 127 128) with 0. by rewrite N.land_0_r. Qed.

Lemma land_127 (value : N) : N.land value 127 = value mod 128.
Proof. change 127 with (N.ones 7). by rewrite N.land_ones. Qed.
Lemma group_byte (value : N) : N.lor (N.land value 127) 128 < 256.
Proof.
  pose proof (N.mod_lt value 128 ltac:(done)). rewrite land_127. generalize dependent (value mod 128). intros g Hg.
  destruct (N.eq_dec (N.lor g 128) 0) as [->|Hz]; [done|]. change 256 with (2 ^ 8). apply N.log2_lt_pow2; [lia|]. rewrite N.log2_lor.
  change (N.log2 128) with 7. apply N.max_lub_lt; [|done]. destruct (N.eq_dec g 0) as [->|]; [done|]. apply N.log2_lt_pow2; [lia|]. change (2 ^ 8) with 256. lia.
Qed.

Lemma split_group (value : N) : value = N.lor (N.land value 127) (N.shiftl (N.shiftr value 7) 7).
Proof.
  apply N.bits_inj. intros i. rewrite N.lor_spec, N.land_spec. change 127 with (N.ones 7).
  destruct (N.ltb_spec i 7) as [Hi|Hi].
  - rewrite N.shiftl_spec_low, N.ones_spec_low by done. by rewrite andb_true_r, orb_false_r.
  - rewrite N.shiftl_spec_high', N.ones_spec_high, N.shiftr_spec' by done. rewrite andb_false_r. cbn [orb].
    f_equal. lia.
Qed.

Lemma u64_small (n : N) : n < 2 ^ 64 -> u64 n = n.
Proof. apply N.mod_small. Qed.

Lemma read_append (n m : nat) (value pos shift result : N) (rest : string) :
  (1 <= n <= m)%nat -> value < 2 ^ (7 * N.of_nat n) -> value * 2 ^ shift < 2 ^ 64 ->
  read_groups m (append_groups n value +:+ rest) pos shift result
  = (N.lor result (N.shiftl value shift), pos + size (append_groups n value)).
Proof.
  revert m value pos shift result. induction n as [|n IH]; intros m value pos shift result Hn Hv Hs; [lia|].
  destruct m as [|m]; [lia|]. cbn [append_groups]. destruct (N.leb_spec 128 value) as [Hc|Hc].
  - cbn [String.append read_groups]. rewrite byte_of_byte, low_group, high_bit by apply group_byte.
    change (128 =? 0) with false. cbn iota.
    assert (Hdiv : N.shiftr value 7 * 128 <= value) by
      (rewrite N.shiftr_div_pow2; change (2 ^ 7) with 128; rewrite N.mul_comm; by apply N.mul_div_le).
    assert (Hlow : N.land value 127 <= value) by (rewrite land_127; by apply N.mod_le).
    destruct n as [|n']; [change (2 ^ (7 * N.of_nat 1)) with 128 in Hv; lia|]. set (n := S n') in *.
    rewrite IH.
    + rewrite u64_small by (rewrite N.shiftl_mul_pow2; nia). f_equal.
      * assert (N.shiftl value shift = N.lor (N.shiftl (N.land value 127) shift) (N.shiftl (N.shiftr value 7) (shift + 7))) as ->.
        { rewrite (split_group value) at 1. by rewrite N.shiftl_lor, N.shiftl_shiftl, (N.add_comm 7 shift). }
        by rewrite N.lor_assoc.
      * unfold size. cbn [String.length]. lia.
    + lia.
    + replace (7 * N.of_nat (S n)) with (7 + 7 * N.of_nat n) in Hv by lia. rewrite N.pow_add_r in Hv.
      change (2 ^ 7) with 128 in Hv. nia.
    + rewrite N.pow_add_r. change (2 ^ 7) with 128. nia.
  - cbn [String.append read_groups]. rewrite byte_of_byte by lia.
    rewrite land_127, N.mod_small by done. rewrite u64_small by (by rewrite N.shiftl_mul_pow2).
    assert (N.land value 128 = 0) as ->.
    { apply N.bits_inj_0. intros i. rewrite N.land_spec. change 128 with (2 ^ 7). rewrite N.pow2_bits_eqb.
      destruct (N.eqb_spec 7 i) as [<-|]; [|by rewrite andb_false_r]. rewrite andb_true_r.
      destruct (N.eq_dec value 0) as [->|]; [done|]. apply N.bits_above_log2. apply N.log2_lt_pow2; lia. }
    done.
Qed.

Lemma size_app (a b : string) : size (a +:+ b) = size a + size b.
Proof. unfold size. rewrite str_length_app. lia. Qed.
Lemma size_groups (v : N) : 1 <= size (append_groups 10 v).
Proof. cbn [append_groups]. destruct (128 <=? v); unfold size; cbn [String.length]; lia. Qed.

(** The reader stands before [rest]. *)
Definition here (s : string) (pos : N) (rest : string) : Prop := exists pre, s = pre +:+ rest /\ pos = size pre.

Lemma here_drop s pos rest : here s pos rest -> str_drop (N.to_nat pos) s = rest.
Proof. intros (pre & -> & ->). unfold size. rewrite Nat2N.id. apply str_drop_app. Qed.
Lemma here_next s pos a rest : here s pos (a +:+ rest) -> here s (pos + size a) rest.
Proof. intros (pre & -> & ->). exists (pre +:+ a). by rewrite str_app_assoc, size_app. Qed.
Lemma here_size s pos rest : here s pos rest -> size s = pos + size rest.
Proof. intros (pre & -> & ->). apply size_app. Qed.

Lemma ReadVarint_here s pos v rest : here s pos (append_groups 10 v +:+ rest) -> v < 2 ^ 64 ->
  ReadVarint s pos = (v, pos + size (append_groups 10 v)) /\ here s (pos + size (append_groups 10 v)) rest.
Proof.
  intros Hh Hv. split; [|by apply here_next]. unfold ReadVarint. rewrite (here_drop _ _ _ Hh).
  rewrite read_append; [by rewrite N.shiftl_0_r, N.lor_0_l | lia | | lia].
  eapply N.lt_trans; [exact Hv|]. by apply N.pow_lt_mono_r.
Qed.

Lemma ReadLengthDelimited_here s pos d rest : here s pos (append_groups 10 (size d) +:+ d +:+ rest) -> size s < 2 ^ 64 ->
  exists pos', ReadLengthDelimited s pos = (d, pos') /\ here s pos' rest.
Proof.
  intros Hh Hs. pose proof (here_size _ _ _ Hh) as E. rewrite !size_app in E. unfold ReadLengthDelimited.
  destruct (ReadVarint_here s pos (size d) (d +:+ rest) Hh ltac:(lia)) as [-> Hh1].
  set (pos1 := pos + size (append_groups 10 (size d))) in *. rewrite !u64_small by lia.
  destruct (N.ltb_spec (size s) (pos1 + size d)); [lia|]. exists (pos1 + size d). rewrite u64_small by lia.
  split; [|by apply here_next]. f_equal. rewrite N.min_l by lia. rewrite (here_drop _ _ _ Hh1).
  unfold size. rewrite Nat2N.id. apply str_take_app.
Qed.

Definition small_field (field : N) : Prop := 1 <= field < 16.

Lemma field_tag_parts field wire : small_field field -> wire < 8 ->
  field_tag field wire < 2 ^ 64 /\ N.shiftr (field_tag field wire) 3 = field /\ N.land (field_tag field wire) 7 = wire.
Proof.
  intros Hf Hw. unfold small_field in Hf.
  assert (field = 1 \/ field = 2 \/ field = 3 \/ field = 4 \/ field = 5 \/ field = 6 \/ field = 7 \/ field = 8 \/
    field = 9 \/ field = 10 \/ field = 11 \/ field = 12 \/ field = 13 \/ field = 14 \/ field = 15) as Hc by lia.
  assert (wire = 0 \/ wire = 1 \/ wire = 2 \/ wire = 3 \/ wire = 4 \/ wire = 5 \/ wire = 6 \/ wire = 7) as Hd by lia.
  repeat destruct Hc as [->|Hc]; [..|subst field]; repeat destruct Hd as [->|Hd]; subst; done.
Qed.

Lemma varint_field_eq field v : varint_field field v = append_groups 10 (field_tag field 0) +:+ append_groups 10 v.
Proof. done. Qed.
Lemma bytes_field_eq field s : bytes_field field s = append_groups 10 (field_tag field 2) +:+ append_groups 10 (size s) +:+ s.
Proof. unfold bytes_field, AppendVarint. cbn [String.append]. by rewrite str_app_assoc. Qed.

Lemma number_step fuel s pos field v rest : here s pos (varint_field field v +:+ rest) -> small_field field -> v < 2 ^ 64 ->
  exists pos', here s pos' rest /\ forall f, frame_loop (S fuel) s pos f = frame_loop fuel s pos' (set_number field v f).
Proof.
  intros Hh Hf Hv. pose proof (here_size _ _ _ Hh) as E. rewrite varint_field_eq, str_app_assoc in Hh. rewrite varint_field_eq, !size_app in E.
  destruct (field_tag_parts field 0 Hf ltac:(done)) as (Ht & Hn & Hw). cbn [frame_loop].
  pose proof (size_groups (field_tag field 0)). destruct (N.ltb_spec pos (size s)); [|lia].
  apply ReadVarint_here in Hh as [-> Hh]; [|done]. rewrite Hn, Hw. change (0 =? 0) with true. cbn iota.
  apply ReadVarint_here in Hh as [-> Hh]; [|done]. unfold small_field in Hf. rewrite N.mod_small by lia. eauto.
Qed.

Lemma data_step fuel s pos field d rest : here s pos (bytes_field field d +:+ rest) -> small_field field -> size s < 2 ^ 64 ->
  exists pos', here s pos' rest /\ forall f, frame_loop (S fuel) s pos f =
    match set_data fuel field d f with Some f => frame_loop fuel s pos' f | None => None end.
Proof.
  intros Hh Hf Hs. pose proof (here_size _ _ _ Hh) as E. rewrite bytes_field_eq, !str_app_assoc in Hh. rewrite bytes_field_eq, !size_app in E.
  destruct (field_tag_parts field 2 Hf ltac:(done)) as (Ht & Hn & Hw). cbn [frame_loop].
  pose proof (size_groups (field_tag field 2)). destruct (N.ltb_spec pos (size s)); [|lia].
  apply ReadVarint_here in Hh as [-> Hh]; [|done]. rewrite Hn, Hw. change (2 =? 0) with false. change (2 =? 2) with true. cbn iota.
  apply ReadLengthDelimited_here in Hh as (pos' & -> & Hh); [|done]. unfold small_field in Hf. rewrite N.mod_small by lia. eauto.
Qed.

Lemma header_step fuel s pos field d rest h : here s pos (bytes_field field d +:+ rest) -> small_field field -> size s < 2 ^ 64 ->
  exists pos', here s pos' rest /\ header_loop (S fuel) s pos h =
    header_loop fuel s pos' (if (Z.of_N field =? 1)%Z then mkHeader d (h_value h)
                             else if (Z.of_N field =? 2)%Z then mkHeader (h_key h) d else h).
Proof.
  intros Hh Hf Hs. pose proof (here_size _ _ _ Hh) as E. rewrite bytes_field_eq, !str_app_assoc in Hh. rewrite bytes_field_eq, !size_app in E.
  destruct (field_tag_parts field 2 Hf ltac:(done)) as (Ht & Hn & Hw). cbn [header_loop].
  pose proof (size_groups (field_tag field 2)). destruct (N.ltb_spec pos (size s)); [|lia].
  apply ReadVarint_here in Hh as [-> Hh]; [|done]. rewrite Hn, Hw. change (2 =? 2) with true. cbn iota.
  apply ReadLengthDelimited_here in Hh as (pos' & -> & Hh); [|done]. unfold small_field in Hf.
  assert (int32_of field = Z.of_N field) as -> by (unfold int32_of; rewrite Z.mod_small; lia). eauto.
Qed.

Lemma header_back fuel h : size (encode_header h) < 2 ^ 64 ->
  header_loop (S (S fuel)) (encode_header h) 0 (mkHeader "" "") = Some h.
Proof.
  intros Hs. assert (here (encode_header h) 0 (bytes_field 1 (h_key h) +:+ bytes_field 2 (h_value h) +:+ "")) as Hh
    by (exists ""; rewrite str_app_nil_r; done).
  destruct (header_step (S fuel) _ _ _ _ _ (mkHeader "" "") Hh ltac:(done) Hs) as (p1 & Hh1 & ->).
  destruct (header_step fuel _ _ _ _ _ (mkHeader (h_key h) "") Hh1 ltac:(done) Hs) as (p2 & Hh2 & Ep).
  cbn [Z.of_N Z.eqb Pos.eqb h_value] in *. rewrite Ep. cbn [h_key].
  pose proof (here_size _ _ _ Hh2) as E. rewrite N.add_0_r in E. destruct fuel; cbn [header_loop]; rewrite E, N.ltb_irrefl; by destruct h.
Qed.

(** The headers that have a key: the decoder drops the others. *)
Definition keyed (hs : list Header) : list Header := List.filter (fun h => negb (str_empty (h_key h))) hs.
Definition add_headers (hs : list Header) (f : Frame) : Frame :=
  mkFrame (seqId f) (logId f) (service f) (method f) (f_headers f ++ keyed hs) (payload f) (payloadType f).

Lemma headers_step hs fuel s pos rest :
  here s pos (string_concat (map (fun h => bytes_field 5 (encode_header h)) hs) +:+ rest) -> size s < 2 ^ 64 ->
  (2 <= fuel)%nat ->
  exists pos', here s pos' rest /\ forall f, frame_loop (List.length hs + fuel) s pos f = frame_loop fuel s pos' (add_headers hs f).
Proof.
  intros Hh Hs Hf. revert pos Hh. induction hs as [|h hs IH]; intros pos Hh.
  { exists pos. split; [done|]. intros f. unfold add_headers. rewrite app_nil_r. by destruct f. }
  cbn [map string_concat fold_right] in Hh. rewrite str_app_assoc in Hh.
  assert (size (encode_header h) < 2 ^ 64) as Hsh.
  { apply here_size in Hh. rewrite bytes_field_eq, !size_app in Hh. lia. }
  destruct (data_step (List.length hs + fuel) _ _ _ _ _ Hh ltac:(done) Hs) as (p1 & Hh1 & E).
  destruct (IH p1 Hh1) as (p2 & Hh2 & E2). exists p2. split; [done|]. intros f.
  cbn [List.length Nat.add]. rewrite E. unfold set_data. change (5 =? 5) with true. cbn iota.
  destruct (List.length hs + fuel)%nat as [|[|n]] eqn:En; [lia..|]. rewrite header_back by done. cbn [fmap option_fmap option_map].
  rewrite E2. f_equal. unfold add_header, add_headers, keyed. cbn [List.filter].
  destruct (str_empty (h_key h)); cbn [negb f_headers seqId logId service method payload payloadType]; [done|]. by rewrite <- app_assoc.
Qed.

Lemma int32_back z : (- 2 ^ 31 <= z < 2 ^ 31)%Z -> int32_of (u64_of z) = z /\ u64_of z < 2 ^ 64.
Proof.
  intros Hz. unfold int32_of, u64_of. pose proof (Z.mod_pos_bound z (2 ^ 64) ltac:(done)). rewrite Z2N.id by lia. split; [|lia].
  assert (((z mod 2 ^ 64 + 2 ^ 31) mod 2 ^ 32 = z + 2 ^ 31)%Z) as ->; [|lia].
  replace (z mod 2 ^ 64 + 2 ^ 31)%Z with (z + 2 ^ 31 + (- (z / 2 ^ 64) * 2 ^ 32) * 2 ^ 32)%Z
    by (pose proof (Z.div_mod z (2 ^ 64) ltac:(done)); lia).
  rewrite Z.mod_add by done. apply Z.mod_small. lia.
Qed.

(** The numbers have the widths of their types, and the encoded frame is not longer than
    a [size_t] can say. *)
Definition frame_ok (f : Frame) : Prop :=
  seqId f < 2 ^ 64 /\ logId f < 2 ^ 64 /\ (- 2 ^ 31 <= service f < 2 ^ 31)%Z /\ (- 2 ^ 31 <= method f < 2 ^ 31)%Z /\
  size (EncodeFrame f) < 2 ^ 64.

(** The value of the last header named "type", which there is not. *)
Definition has_type (hs : list Header) (t : string) : Prop :=
  (exists before after, hs = before ++ mkHeader "type" t :: after /\ Forall (fun h => h_key h <> "type") after) \/
  (t = "" /\ Forall (fun h => h_key h <> "type") hs).

Lemma type_of_headers_after hs t : Forall (fun h => h_key h <> "type") hs -> type_of_headers hs t = t.
Proof.
  unfold type_of_headers. intros Hf; revert t; induction Hf as [|h hs Hh _ IH]; intros t; [done|].
  cbn. rewrite IH. by destruct (String.eqb_spec (h_key h) "type").
Qed.

Lemma type_of_headers_spec hs : has_type hs (type_of_headers hs "").
Proof.
  induction hs as [|h hs IH] using rev_ind; [by right|]. unfold type_of_headers. rewrite fold_left_app. cbn.
  destruct (String.eqb_spec (h_key h) "type") as [E|E].
  - left. exists hs, []. split; [|done]. destruct h as [k v]. cbn in *. by subst.
  - destruct IH as [(before & after & Ehs & Ha)|[Et Ha]].
    + left. exists before, (after ++ [h]). split; [|by apply Forall_app; split; [|apply Forall_singleton]].
      rewrite Ehs at 1. by rewrite <- app_assoc.
    + right. split; [done|]. by apply Forall_app; split; [|apply Forall_singleton].
Qed.

Lemma type_of_keyed hs t : type_of_headers (keyed hs) t = type_of_headers hs t.
Proof.
  unfold type_of_headers, keyed. revert t; induction hs as [|[k v] hs IH]; intros t; [done|].
  cbn. destruct k as [|c k]; cbn; apply IH.
Qed.

(** What arrives of a frame. *)
Definition received (f : Frame) : Frame :=
  mkFrame (seqId f) (logId f) (service f) (method f) (keyed (f_headers f)) (payload f) (type_of_headers (f_headers f) "").

Lemma decode_encode (f : Frame) (fuel : nat) :
  frame_ok f -> (7 + List.length (f_headers f) <= fuel)%nat -> DecodeFrame fuel (EncodeFrame f) = Some (received f).
Proof.
  intros (Hq & Hl & Hsv & Hm & Hs) Hf. unfold DecodeFrame. set (s := EncodeFrame f) in *.
  destruct (int32_back _ Hsv) as [Es Hs']. destruct (int32_back _ Hm) as [Em Hm'].
  assert (here s 0 s) as H0 by (by exists ""). unfold s at 2, EncodeFrame in H0.
  replace fuel with (4 + (List.length (f_headers f) + (3 + (fuel - 7 - List.length (f_headers f)))))%nat by lia.
  set (k := (fuel - 7 - _)%nat). clearbody k. cbn [Nat.add].
  destruct (number_step (S (S (S (List.length (f_headers f) + S (S (S k))))))  _ _ _ _ _ H0 ltac:(done) Hq) as (p1 & H1 & ->).
  destruct (number_step (S (S (List.length (f_headers f) + S (S (S k))))) _ _ _ _ _ H1 ltac:(done) Hl) as (p2 & H2 & ->).
  destruct (number_step (S (List.length (f_headers f) + S (S (S k)))) _ _ _ _ _ H2 ltac:(done) Hs') as (p3 & H3 & ->).
  destruct (number_step (List.length (f_headers f) + S (S (S k))) _ _ _ _ _ H3 ltac:(done) Hm') as (p4 & H4 & ->).
  destruct (headers_step (f_headers f) (S (S (S k))) _ _ _ H4 Hs) as (p5 & H5 & ->); [lia|].
  set (g := add_headers _ _). assert (g = mkFrame (seqId f) (logId f) (service f) (method f) (keyed (f_headers f)) "" "") as ->.
  { unfold g, add_headers, set_number. cbn. by rewrite Es, Em. }
  assert (frame_loop (S (S (S k))) s p5 (mkFrame (seqId f) (logId f) (service f) (method f) (keyed (f_headers f)) "" "")
    = Some (mkFrame (seqId f) (logId f) (service f) (method f) (keyed (f_headers f)) (payload f) "")) as ->.
  { destruct (payload f) as [|c p] eqn:Ep; cbn [str_empty] in H5.
    - apply here_size in H5. rewrite N.add_0_r in H5. cbn [frame_loop]. by rewrite H5, N.ltb_irrefl.
    - rewrite <- (str_app_nil_r (bytes_field 8 _)) in H5.
      destruct (data_step (S (S k)) _ _ _ _ _ H5 ltac:(done) Hs) as (p6 & H6 & ->).
      cbn [set_data N.eqb Pos.eqb orb]. apply here_size in H6. rewrite N.add_0_r in H6. cbn [frame_loop]. by rewrite H6, N.ltb_irrefl. }
  cbn [fmap option_fmap option_map f_headers payloadType]. by rewrite type_of_keyed.
Qed.

(** C25.  What one side encodes the other decodes.  Any frame, those the program itself
    sends included (a ping, an acknowledgement: their [payloadType] is empty), comes back
    with its numbers (the signed ones too), its headers in order without those that have no
    key, and its payload byte by byte; the [payloadType] itself does not travel: the
    decoded one is the value of the last header named "type", or empty.  At most seven
    turns and one for each header are needed. *)
Theorem frame_roundtrip (f : Frame) (fuel : nat) :
  frame_ok f -> (7 + List.length (f_headers f) <= fuel)%nat ->
  exists t, has_type (f_headers f) t /\
    DecodeFrame fuel (EncodeFrame f) =
    Some (mkFrame (seqId f) (logId f) (service f) (method f) (keyed (f_headers f)) (payload f) t).
Proof.
  intros Hf Hl. exists (type_of_headers (f_headers f) ""). split; [apply type_of_headers_spec | by apply decode_encode].
Qed.

(** ** A frame the decoder does not finish *)

(** Field 1 with a length of 2^64 - 11: the position wraps to the start. *)
Definition stuck_frame : string := String (byte 10) (append_groups 10 (2 ^ 64 - 11)).

(** Eleven bytes from the network are enough to stop the reader for good: the
    position wraps around to the start of the frame, so the decoder never ends. *)
Theorem stuck_frame_loops (fuel : nat) : DecodeFrame fuel stuck_frame = None.
Proof.
  unfold DecodeFrame. assert (frame_loop fuel stuck_frame 0 new_frame = None) as ->; [|done].
  induction fuel as [|fuel IH]; [done|]. cbn [frame_loop].
  assert (ReadVarint stuck_frame 0 = (10, 1)) as -> by (vm_compute; reflexivity).
  assert (ReadLengthDelimited stuck_frame 1 = ("", 0)) as -> by (vm_compute; reflexivity).
  exact IH.
Qed.

(** The ping the program sends. *)
Lemma frame_roundtrip_witness :
  frame_ok (MakePingFrame (-3)) /\
  exists t, has_type [mkHeader "type" "ping"] t /\
    DecodeFrame 8 (EncodeFrame (MakePingFrame (-3))) = Some (mkFrame 0 0 (-3) 0 [mkHeader "type" "ping"] "" t).
Proof.
  assert (frame_ok (MakePingFrame (-3))) as Hok.
  { unfold frame_ok. split_and!; [done | done | cbn; lia | cbn; lia | cbn; lia | cbn; lia | done]. }
  split; [exact Hok|]. apply (frame_roundtrip (MakePingFrame (-3)) 8); [exact Hok | cbn; lia].
Defined.
