(* ===== verification/FeishuChannel.v ===== *)
(** * The Feishu connection (examples/jiuwenClaw/adapters/feishu/feishu_channel.cpp)

    Tokens, the discovery of the endpoint, the frames of the long connection, the
    acknowledgement and dispatch of events, and the sending of cards. *)
From Stdlib Require Import NArith ZArith Lia String Ascii List.
From stdpp Require Import base decidable list strings gmap.
From S2P Require Import Prelude Numbers Encoding JsonLib PbFrame.
Open Scope Z_scope.

Inductive ReadResult := ReadFail | ReadText | ReadBinary (data : string).

(** libcurl, the WebSocket client of httplib and the steady clock, in nanoseconds. *)
Class FeishuNet (X : Type) := {
  steady_now : X -> Z;
  (** A POST with its headers: the body of the response, [None] when there is no handle or
      the transfer fails. *)
  feishu_post : string -> list string -> string -> X -> X * option string;
  (** Whether the client is valid and connects. *)
  ws_connect : string -> X -> X * bool;
  ws_is_open : X -> bool;
  ws_send : string -> X -> X * bool;
  ws_read : X -> X * ReadResult;
  ws_close : X -> X;
  (** The milliseconds the acknowledgement took to build. *)
  biz_rt_ms : X -> Z
}.

Record FeishuConfig := mkFeishuConfig { appId : string; appSecret : string }.
Record FeishuState := mkFeishuState {
  fc_config : FeishuConfig;
  cachedToken_ : string;
  tokenExpiresAt_ : Z;
  wsUrl_ : string;
  serviceId_ : Z;
  pingInterval_ : Z;
  lastPing_ : Z
}.
Definition new_feishu (c : FeishuConfig) : FeishuState := mkFeishuState c "" 0 "" 0 120 0.
Definition set_token (t : string) (s : FeishuState) : FeishuState :=
  mkFeishuState (fc_config s) t (tokenExpiresAt_ s) (wsUrl_ s) (serviceId_ s) (pingInterval_ s) (lastPing_ s).
Definition set_expiry (e : Z) (s : FeishuState) : FeishuState :=
  mkFeishuState (fc_config s) (cachedToken_ s) e (wsUrl_ s) (serviceId_ s) (pingInterval_ s) (lastPing_ s).
Definition set_url (u : string) (s : FeishuState) : FeishuState :=
  mkFeishuState (fc_config s) (cachedToken_ s) (tokenExpiresAt_ s) u (serviceId_ s) (pingInterval_ s) (lastPing_ s).
Definition set_ping_interval (p : Z) (s : FeishuState) : FeishuState :=
  mkFeishuState (fc_config s) (cachedToken_ s) (tokenExpiresAt_ s) (wsUrl_ s) (serviceId_ s) p (lastPing_ s).
Definition set_service (i : Z) (s : FeishuState) : FeishuState :=
  mkFeishuState (fc_config s) (cachedToken_ s) (tokenExpiresAt_ s) (wsUrl_ s) i (pingInterval_ s) (lastPing_ s).
Definition set_last_ping (t : Z) (s : FeishuState) : FeishuState :=
  mkFeishuState (fc_config s) (cachedToken_ s) (tokenExpiresAt_ s) (wsUrl_ s) (serviceId_ s) (pingInterval_ s) t.

Definition kSecond : Z := 10 ^ 9.

Section Channel.
Context {X J : Type} `{FeishuNet X, Json J}.

Definition FeishuPost (url body : string) (x : X) : X * string :=
  let '(x, r) := feishu_post url ["Content-Type: application/json; charset=utf-8"] body x in (x, default "" r).

Definition token_request (c : FeishuConfig) : J :=
  j_fields [("app_id", j_string (appId c)); ("app_secret", j_string (appSecret c))].

(** The token is kept before the expiry is read. *)
Definition read_token (now : Z) (response : string) (s : FeishuState) : FeishuState * bool :=
  match json_parse (J := J) response with
  | Throw _ => (s, false)
  | Ok j =>
      match value_int "code" (-1) j with
      | Throw _ => (s, false)
      | Ok code =>
          if negb (code =? 0) then (s, false)
          else
            match value_str "tenant_access_token" "" j with
            | Throw _ => (s, false)
            | Ok token =>
                let s := set_token token s in
                match value_int "expire" 7200 j with
                | Throw _ => (s, false)
                | Ok expire => (set_expiry (now + (expire - 300) * kSecond) s, true)
                end
            end
      end
  end.

(** The clock is read before the request. *)
Definition EnsureToken (s : FeishuState) (x : X) : FeishuState * X * outcome bool :=
  let now := steady_now x in
  if negb (str_empty (cachedToken_ s)) && (now <? tokenExpiresAt_ s) then (s, x, Ok true)
  else
    match json_dump None (token_request (fc_config s)) with
    | Throw e => (s, x, Throw e)
    | Ok body =>
        let '(x, response) :=
          FeishuPost "https://open.feishu.cn/open-apis/auth/v3/tenant_access_token/internal" body x in
        if str_empty response then (s, x, Ok false)
        else let '(s, ok) := read_token now response s in (s, x, Ok ok)
    end.

(** [j.value(key, nlohmann::json::object())]. *)
Definition value_json (key : string) (j : J) : outcome J := value_of Ok key (j_object ∅) j.

(** The number after [service_id=] in the address. *)
Definition service_of_url (url : string) (old : Z) : Z :=
  match find_str "service_id=" url 0 with
  | None => old
  | Some qpos =>
      let valStart := (qpos + 11)%nat in
      let valEnd := default (String.length url) (find_char "&" url valStart) in
      default 1 (stoi (substr url valStart (valEnd - valStart)))
  end.

Definition read_endpoint (response : string) (s : FeishuState) : FeishuState * bool :=
  match json_parse (J := J) response with
  | Throw _ => (s, false)
  | Ok j =>
      match (code <-- value_int "code" (-1) j ;;
             if negb (code =? 0) then Ok None
             else data <-- value_json "data" j ;; url <-- value_str "URL" "" data ;; Ok (Some (data, url))) with
      | Throw _ | Ok None => (s, false)
      | Ok (Some (data, url)) =>
          let s := set_url url s in
          if str_empty url then (s, false)
          else
            match (cc <-- value_json "ClientConfig" data ;; value_int "PingInterval" 120 cc) with
            | Throw _ => (s, false)
            | Ok p => (set_service (service_of_url url (serviceId_ s)) (set_ping_interval p s), true)
            end
      end
  end.

Definition endpoint_request (c : FeishuConfig) : J :=
  j_fields [("AppID", j_string (appId c)); ("AppSecret", j_string (appSecret c))].

Definition DiscoverEndpoint (s : FeishuState) (x : X) : FeishuState * X * outcome bool :=
  match json_dump None (endpoint_request (fc_config s)) with
  | Throw e => (s, x, Throw e)
  | Ok body =>
      let '(x, response) := FeishuPost "https://open.feishu.cn/callback/ws/endpoint" body x in
      if str_empty response then (s, x, Ok false)
      else let '(s, ok) := read_endpoint response s in (s, x, Ok ok)
  end.

Definition ConnectWebSocket (s : FeishuState) (x : X) : FeishuState * X * bool :=
  let '(x, ok) := ws_connect (wsUrl_ s) x in
  if ok then (set_last_ping (steady_now x) s, x, true) else (s, x, false).

(** ** Frames *)

Definition SendFrame (frame : Frame) (x : X) : X * bool :=
  if ws_is_open x then ws_send (EncodeFrame frame) x else (x, false).

Definition pong_of (frame : Frame) : Frame :=
  mkFrame 0 (logId frame) (service frame) 0 [mkHeader "type" "pong"] (payload frame) "".

Definition HandleControlFrame (frame : Frame) (s : FeishuState) (x : X) : FeishuState * X :=
  if String.eqb (payloadType frame) "ping" then (s, (SendFrame (pong_of frame) x).1)
  else if String.eqb (payloadType frame) "pong" then (set_last_ping (steady_now x) s, x)
  else (s, x).

Definition ack_payload : string :=
  match json_dump None (j_fields [("code", j_int 200)]) with Ok t => t | Throw _ => "" end.
Definition ack_of (f : Frame) (ms : Z) : Frame :=
  mkFrame (seqId f) (logId f) (service f) (method f) (f_headers f ++ [mkHeader "biz_rt" (to_string ms)])
    ack_payload "".
Definition SendEventAck (eventFrame : Frame) (x : X) : X :=
  (ws_send (EncodeFrame (ack_of eventFrame (biz_rt_ms x))) x).1.

(** What a callback does with chat, message, sender and text. *)
Definition EventCallback : Type := string -> string -> string -> string -> FeishuState -> X -> FeishuState * X * outcome unit.

(** The text of an event: chat, message (read only for the callback), sender and text. *)
Definition event_text (eventPayload : string) : outcome (option (J * string * string * string)) :=
  event <-- json_parse (J := J) eventPayload ;;
  schema <-- value_str "schema" "" event ;;
  if negb (String.eqb schema "2.0") then Ok None
  else
    ev <-- value_json "event" event ;;
    msg <-- value_json "message" ev ;;
    sender <-- value_json "sender" ev ;;
    chatId <-- value_str "chat_id" "" msg ;;
    msgType <-- value_str "message_type" "" msg ;;
    contentStr <-- value_str "content" "" msg ;;
    sidObj <-- value_json "sender_id" sender ;;
    senderId <-- value_str "open_id" "" sidObj ;;
    if negb (String.eqb msgType "text") then Ok None
    else
      let textContent := match (c <-- json_parse (J := J) contentStr ;; value_str "text" "" c) with
                         | Ok t => t
                         | Throw _ => contentStr
                         end in
      if str_empty textContent then Ok None else Ok (Some (msg, chatId, senderId, textContent)).

(** Every exception is logged. *)
Definition DispatchEvent (callback : option EventCallback) (eventPayload : string) (s : FeishuState) (x : X)
    : FeishuState * X :=
  match event_text eventPayload, callback with
  | Ok (Some (msg, chatId, senderId, text)), Some callback =>
      match value_str "message_id" "" msg with
      | Ok messageId => (callback chatId messageId senderId text s x).1
      | Throw _ => (s, x)
      end
  | _, _ => (s, x)
  end.

Definition HandleDataFrame (callback : option EventCallback) (frame : Frame) (s : FeishuState) (x : X) : FeishuState * X :=
  if negb (String.eqb (payloadType frame) "event") then (s, x)
  else DispatchEvent callback (payload frame) s (SendEventAck frame x).

(** [None] when the decoder does not end. *)
Definition HandleFrame (callback : option EventCallback) (rawData : string) (s : FeishuState) (x : X)
    : option (FeishuState * X) :=
  frame ← DecodeFrame (7 + String.length rawData) rawData;
  Some (if method frame =? 0 then HandleControlFrame frame s x
        else if method frame =? 1 then HandleDataFrame callback frame s x
        else (s, x)).

(** One turn of the read loop; the flag says whether it goes on. *)
Definition read_turn (callback : option EventCallback) (s : FeishuState) (x : X) : option (FeishuState * X * bool) :=
  let '(x, result) := ws_read x in
  match result with
  | ReadFail => Some (s, x, false)
  | _ =>
      r ← match result with ReadBinary msg => HandleFrame callback msg s x | _ => Some (s, x) end;
      let '(s, x) := r in
      let now := steady_now x in
      if pingInterval_ s <=? Z.quot (now - lastPing_ s) kSecond
      then Some (set_last_ping now s, (SendFrame (MakePingFrame (serviceId_ s)) x).1, true)
      else Some (s, x, true)
  end.

Fixpoint RunReadLoop (fuel : nat) (callback : option EventCallback) (s : FeishuState) (x : X) : option (FeishuState * X) :=
  match fuel with
  | O => None
  | S fuel =>
      match read_turn callback s x with
      | None => None
      | Some (s, x, true) => RunReadLoop fuel callback s x
      | Some (s, x, false) => Some (s, x)
      end
  end.

(** ** Cards *)

Definition SendCardMessageToFeishu (chatId : string) (card : J) (s : FeishuState) (x : X) : FeishuState * X * outcome bool :=
  match EnsureToken s x with
  | (s, x, Throw e) => (s, x, Throw e)
  | (s, x, Ok false) => (s, x, Ok false)
  | (s, x, Ok true) =>
      match (content <-- json_dump None card ;;
             json_dump None (j_fields (J := J) [("receive_id", j_string chatId); ("msg_type", j_string "interactive");
                                                ("content", j_string content)])) with
      | Throw e => (s, x, Throw e)
      | Ok body =>
          let '(x, r) := feishu_post "https://open.feishu.cn/open-apis/im/v1/messages?receive_id_type=chat_id"
                           ["Content-Type: application/json"; "Authorization: Bearer " +:+ cachedToken_ s] body x in
          (s, x, Ok (match r with
                     | None => false
                     | Some response =>
                         match (j <-- json_parse (J := J) response ;; value_int "code" (-1) j) with
                         | Ok code => code =? 0
                         | Throw _ => false
                         end
                     end))
      end
  end.

(** [Start]: the state with its connection, [None] when it is not running. *)
Definition FeishuStart (config : FeishuConfig) (x : X) : X * outcome (option FeishuState) :=
  if str_empty (appId config) || str_empty (appSecret config) then (x, Ok None)
  else
    match DiscoverEndpoint (new_feishu config) x with
    | (_, x, Throw e) => (x, Throw e)
    | (_, x, Ok false) => (x, Ok None)
    | (s, x, Ok true) =>
        let '(s, x, ok) := ConnectWebSocket s x in (x, Ok (if ok then Some s else None))
    end.
End Channel.

(** ** An event is acknowledged and dispatched *)

Lemma headers_fit (f : Frame) : (List.length (f_headers f) <= String.length (EncodeFrame f))%nat.
Proof.
  unfold EncodeFrame. rewrite !str_length_app. enough (List.length (f_headers f) <=
    String.length (string_concat (map (fun h => bytes_field 5 (encode_header h)) (f_headers f))))%nat by lia.
  induction (f_headers f) as [|h l IH]; [done|]. cbn [map string_concat fold_right List.length]. rewrite str_length_app.
  fold (string_concat (map (fun h => bytes_field 5 (encode_header h)) l)).
  assert (1 <= String.length (bytes_field 5 (encode_header h)))%nat; [|lia].
  rewrite bytes_field_eq, !str_length_app. pose proof (size_groups (field_tag 5 2)). unfold size in *. lia.
Qed.

Section Events.
Context {X J : Type} `{FeishuNet X, JsonLaws J}.
Local Notation HandleFrame := (HandleFrame (J := J)).
Local Notation DispatchEvent := (DispatchEvent (J := J)).

(** The document of a text message. *)
Definition text_event (chat messageId sender content : string) : J :=
  j_fields [("schema", j_string "2.0");
            ("event", j_fields [("message", j_fields [("chat_id", j_string chat); ("message_type", j_string "text");
                                                      ("content", j_string content); ("message_id", j_string messageId)]);
                                ("sender", j_fields [("sender_id", j_fields [("open_id", j_string sender)])])])].
Definition text_content (text : string) : J := j_fields [("text", j_string text)].

Lemma text_event_read (payload content chat messageId sender text : string) : str_empty text = false ->
  json_parse payload = Ok (text_event chat messageId sender content) -> json_parse content = Ok (text_content text) ->
  exists msg, event_text (J := J) payload = Ok (Some (msg, chat, sender, text)) /\ value_str "message_id" "" msg = Ok messageId.
Proof.
  intros Ht Ep Ec. unfold event_text. rewrite Ep. cbn [obind]. unfold text_event, value_json, value_str.
  assert (forall s, get_string (j_string s : J) = Ok s) as Hg by (intros s; unfold get_string; by rewrite view_j_string).
  repeat (rewrite ?value_of_fields; cbn [assoc_last String.eqb Ascii.eqb Bool.eqb obind negb]; rewrite ?Hg).
  rewrite Ec. cbn [obind]. unfold text_content. rewrite value_of_fields. cbn [assoc_last String.eqb Ascii.eqb Bool.eqb]. rewrite Hg, Ht.
  eexists. split; [reflexivity|]. rewrite value_of_fields. cbn [assoc_last String.eqb Ascii.eqb Bool.eqb]. by rewrite Hg.
Qed.

(** A text message that arrives in a frame - with keys in all its headers, and typed by
    them - is acknowledged at once, with a frame the
    other side decodes to the numbers and headers of the event and the code 200, and then
    handed to the callback with its chat, id, sender and text. *)
Theorem text_message_acked (callback : EventCallback) (f : Frame) (s : FeishuState) (x : X) chat messageId sender content text :
  frame_ok f -> received f = f -> method f = 1 -> payloadType f = "event" -> str_empty text = false ->
  json_parse (payload f) = Ok (text_event chat messageId sender content) -> json_parse content = Ok (text_content text) ->
  (size (EncodeFrame (ack_of (J := J) f (biz_rt_ms x))) < 2 ^ 64)%N ->
  let ack := ack_of (J := J) f (biz_rt_ms x) in
  HandleFrame (Some callback) (EncodeFrame f) s x
    = Some (callback chat messageId sender text s (ws_send (EncodeFrame ack) x).1).1 /\
  DecodeFrame (7 + List.length (f_headers ack)) (EncodeFrame ack) = Some (set_type "event" ack).
Proof.
  intros Hf Hr Hm Ht Hne Ep Ec Hs ack. split.
  - unfold HandleFrame. rewrite decode_encode, Hr; [|done|pose proof (headers_fit f); lia]. cbn [mbind option_bind].
    rewrite Hm. change (1 =? 0) with false. change (1 =? 1) with true. cbn iota. unfold HandleDataFrame. rewrite Ht.
    cbn [String.eqb Ascii.eqb Bool.eqb negb]. unfold DispatchEvent.
    destruct (text_event_read _ _ _ _ _ _ Hne Ep Ec) as (msg & -> & ->). done.
  - destruct Hf as (Hq & Hl & Hsv & Hm' & _). rewrite decode_encode; [|by do 4 (split; [done|])|done]. f_equal.
    unfold received in *. destruct f as [q l sv m hs p ty]. cbn in *. injection Hr as Hk Hty.
    unfold ack, ack_of, set_type. cbn. unfold keyed, type_of_headers in *. rewrite List.filter_app, Hk, fold_left_app. cbn.
    by rewrite Hty, Ht.
Qed.
End Events.

(** ** Example *)

Section Example.
Definition ex_event_doc : JsonTree.json :=
  text_event (H0 := JsonTree.instance []) "oc_1" "om_1" "ou_1" "{content}".
Definition ex_content_doc : JsonTree.json := text_content (H0 := JsonTree.instance []) "hello".
#[local] Instance ex_json : Json JsonTree.json :=
  JsonTree.instance [("{event}", ex_event_doc); ("{content}", ex_content_doc)].
#[local] Instance ex_laws : JsonLaws JsonTree.json.
Proof.
  apply JsonTree.laws. intros e [->|[->|He%elem_of_nil]%elem_of_cons]%elem_of_cons; done.
Qed.
(** A network that notes the frames that are sent. *)
#[local] Instance ex_net : FeishuNet (list string) := {|
  steady_now := fun x => Z.of_nat (length x);
  feishu_post := fun _ _ _ x => (x, None);
  ws_connect := fun _ x => (x, true);
  ws_is_open := fun _ => true;
  ws_send := fun d x => (x ++ [d], true);
  ws_read := fun x => (x, ReadFail);
  ws_close := fun x => x;
  biz_rt_ms := fun _ => 0
|}.
Definition ex_event_frame : Frame := mkFrame 7 9 1 1 [mkHeader "type" "event"] "{event}" "event".

Lemma text_message_acked_witness : exists ack,
  HandleFrame (J := JsonTree.json) (Some (fun chat _ _ text s x => (s, x ++ [chat +:+ ": " +:+ text], Ok tt)))
    (EncodeFrame ex_event_frame) (new_feishu (mkFeishuConfig "id" "secret")) []
    = Some (new_feishu (mkFeishuConfig "id" "secret"), [EncodeFrame ack; "oc_1: hello"]) /\
  DecodeFrame 9 (EncodeFrame ack) = Some (set_type "event" ack) /\ seqId ack = 7%N.
Proof.
  exists (ack_of (J := JsonTree.json) ex_event_frame 0).
  destruct (text_message_acked (J := JsonTree.json) (fun chat _ _ text s x => (s, x ++ [chat +:+ ": " +:+ text], Ok tt)) ex_event_frame
    (new_feishu (mkFeishuConfig "id" "secret")) [] "oc_1" "om_1" "ou_1" "{content}" "hello") as [E D].
  - unfold frame_ok. split_and!; [done | done | cbn; lia | cbn; lia | cbn; lia | cbn; lia | by vm_compute].
  - done.
  - done.
  - done.
  - done.
  - by vm_compute.
  - by vm_compute.
  - by vm_compute.
  - split; [exact E|]. split; [exact D | done].
Defined.
End Example.
