(* ===== verification/FeishuBot.v ===== *)
(** * The Feishu bot (examples/jiuwenClaw/adapters/feishu/feishu_bot.cpp)

    Events handled once, the cards that stand for the output of the agent, and the two
    threads of a turn as a labelled transition system.  What a chat should see is stated
    from the outputs themselves ([Output], [shown_at_once], [shown_at_end]). *)
From Stdlib Require Import NArith ZArith Lia String Ascii List Sorting.Sorted.
From stdpp Require Import base decidable list strings gmap.
From S2P Require Import Prelude Numbers Encoding JsonLib PbFrame FeishuChannel.
Open Scope Z_scope.

(** ** Events that come again *)

Definition kFeishuDedupWindow : Z := 5 * 60 * kSecond.

Fixpoint drop_seen (now : Z) (seen : list (string * Z)) : list (string * Z) :=
  match seen with
  | e :: rest => if kFeishuDedupWindow <? now - e.2 then drop_seen now rest else seen
  | [] => []
  end.
Definition RegisterFeishuEventOnce (messageId : string) (now : Z) (seen : list (string * Z)) : list (string * Z) * bool :=
  let seen := drop_seen now seen in
  if existsb (fun e => String.eqb e.1 messageId) seen then (seen, false) else (seen ++ [(messageId, now)], true).

(** ** Text *)

Definition around (c : ascii) : bool := Ascii.eqb c " " || Ascii.eqb c NL || Ascii.eqb c CR.
Fixpoint trim_front_around (s : string) : string :=
  match s with String c s' => if around c then trim_front_around s' else s | "" => "" end.
Definition trim_back_around (s : string) : string :=
  match find_last_if (fun c => negb (around c)) s with Some i => str_take (S i) s | None => "" end.
Definition TrimAround (s : string) : string := trim_back_around (trim_front_around s).

Definition TryExtractTag (text tag : string) : option string :=
  match find_str tag text 0 with
  | None => None
  | Some pos => Some (TrimAround (str_drop (pos + String.length tag) text))
  end.

Definition TryExtractToolResponseTag (text : string) : option string :=
  match find_str "[TOOL_RESPONSE" text 0 with
  | None => None
  | Some pos =>
      match find_char "]" text pos with
      | None => None
      | Some close => Some (TrimAround (str_drop (close + 1) text))
      end
  end.

Definition kMaxToolResultChars : nat := 6000.
(** Bytes, not characters. *)
Definition LimitText (s : string) (maxChars : nat) : string :=
  if (String.length s <=? maxChars)%nat then s else str_take maxChars s +:+ nl +:+ "...（结果过长，已截断）".

(** The paragraphs from position [i]; [fuel] is a bound on their number. *)
Fixpoint paragraphs_from (fuel : nat) (text : string) (i : nat) : list string :=
  match fuel with
  | O => []
  | S fuel =>
      if (String.length text <=? i)%nat then []
      else
        match find_str (nl +:+ nl) text i with
        | None => let chunk := TrimAround (str_drop i text) in if str_empty chunk then [] else [chunk]
        | Some pos =>
            let chunk := TrimAround (substr text i (pos - i)) in
            (if str_empty chunk then [] else [chunk]) ++ paragraphs_from fuel text (pos + 2)
        end
  end.
Definition SplitParagraphs (text : string) : list string :=
  match paragraphs_from (S (String.length text)) text 0 with
  | [] => let t := TrimAround text in if str_empty t then [] else [t]
  | parts => parts
  end.

(** ** Cards *)

Definition kStatusProcessing : string := "处理中".
Definition kStatusComplete : string := "已完成".

Section Cards.
Context {J : Type} `{Json J}.

(** Scalars are dumped; [None] when that throws. *)
Definition JsonFieldAsString (j : J) (key : string) : outcome string :=
  match jfield key j with
  | None => Ok ""
  | Some v => match json_view v with JNull => Ok "" | JString s => Ok s | _ => json_dump None v end
  end.

Definition MakeMarkdownDiv (content : string) : J :=
  j_fields [("tag", j_string "div");
            ("text", j_fields [("tag", j_string "lark_md"); ("content", j_string content)])].
Definition MakeCard (elements : list J) : J :=
  j_fields [("config", j_fields [("wide_screen_mode", j_bool true)]); ("elements", j_array elements)].

Definition status_card (text : string) : J := MakeCard [MakeMarkdownDiv ("[状态] **" +:+ text +:+ "**")].
Definition tool_call_card (body : string) : J :=
  let name := match (j <-- json_parse (J := J) body ;; JsonFieldAsString j "name") with Ok n => n | Throw _ => body end in
  MakeCard [MakeMarkdownDiv ("[工具调用] " +:+ (if str_empty name then "tool" else name))].
Definition tool_result_card (result : string) : J :=
  MakeCard (MakeMarkdownDiv "[工具结果]" :: map MakeMarkdownDiv (SplitParagraphs (LimitText result kMaxToolResultChars))).
Definition final_cards (answer : string) : list J :=
  if str_empty answer then [] else [MakeCard [MakeMarkdownDiv answer]].

(** What a chunk of output does: the cards it sends, and the final text it leaves. *)
Definition RouteAgentStreamChunk (resp : string) : list J * option string :=
  if str_empty resp then ([], None)
  else
    match TryExtractTag resp "[TOOL_CALLS]" with
    | Some body => ([tool_call_card body], None)
    | None =>
        match TryExtractToolResponseTag resp with
        | Some body => ([tool_result_card body], None)
        | None =>
            match TryExtractTag resp "[FINAL]" with
            | Some body => ([], Some body)
            | None => ([], None)
            end
        end
    end.
End Cards.

(** What [InvokeChannel] gives. *)
Record InvokeResult := mkInvokeResult { ir_success : bool; ir_error : string; ir_content : string }.

Definition closing_text (finalText : string) (r : InvokeResult) : string :=
  if negb (str_empty finalText) then finalText
  else if ir_success r && negb (str_empty (ir_content r)) then ir_content r
  else if negb (str_empty (ir_error r)) then "Error: " +:+ ir_error r
  else "".

(** ** Turns

    For each event a worker thread runs the agent, whose output goes through the router,
    and a closing thread waits for its end.  The threads of all turns interleave. *)

Inductive closing := Waiting | FinalSent | Closed.
Record Turn := mkTurn { t_chat : string; t_final : string; t_result : option InvokeResult; t_close : closing }.
Record Bot := mkBot { b_seen : list (string * Z); b_turns : list Turn }.
Definition new_bot : Bot := mkBot [] [].

Section Turns.
Context {J : Type} `{Json J}.

(** What can be seen of turn [i]: a chunk its agent emits, the end of the agent, and a
    card that is handed to the channel.  The channel may fail to send it, or throw when it
    cannot be written as JSON; what the agent emits after that is up to the agent. *)
Inductive label :=
  | Chunk (i : nat) (c : string)
  | Done (i : nat) (r : InvokeResult)
  | Card (i : nat) (card : J).

(** [SendCard]: nothing is handed over for a chat without an id. *)
Definition to_chat (chat : string) (cards : list J) : list J := if str_empty chat then [] else cards.
Definition final_after (old : string) (c : string) : string := default old (RouteAgentStreamChunk (J := J) c).2.

Inductive bot_step : Bot -> list label -> Bot -> Prop :=
  | step_event id now chat b seen : RegisterFeishuEventOnce id now (b_seen b) = (seen, true) ->
      bot_step b (map (Card (length (b_turns b))) (to_chat chat [status_card kStatusProcessing]))
        (mkBot seen (b_turns b ++ [mkTurn chat "" None Waiting]))
  | step_duplicate id now b seen : RegisterFeishuEventOnce id now (b_seen b) = (seen, false) ->
      bot_step b [] (mkBot seen (b_turns b))
  | step_chunk i t c b : b_turns b !! i = Some t -> t_result t = None ->
      bot_step b (Chunk i c :: map (Card i) (to_chat (t_chat t) (RouteAgentStreamChunk c).1))
        (mkBot (b_seen b) (<[i := mkTurn (t_chat t) (final_after (t_final t) c) None (t_close t)]> (b_turns b)))
  | step_done i t r b : b_turns b !! i = Some t -> t_result t = None ->
      bot_step b [Done i r] (mkBot (b_seen b) (<[i := mkTurn (t_chat t) (t_final t) (Some r) (t_close t)]> (b_turns b)))
  | step_final i t r b : b_turns b !! i = Some t -> t_result t = Some r -> t_close t = Waiting ->
      bot_step b (map (Card i) (to_chat (t_chat t) (final_cards (closing_text (t_final t) r))))
        (mkBot (b_seen b) (<[i := mkTurn (t_chat t) (t_final t) (Some r) FinalSent]> (b_turns b)))
  | step_status i t r b : b_turns b !! i = Some t -> t_result t = Some r -> t_close t = FinalSent ->
      bot_step b (map (Card i) (to_chat (t_chat t) [status_card kStatusComplete]))
        (mkBot (b_seen b) (<[i := mkTurn (t_chat t) (t_final t) (Some r) Closed]> (b_turns b))).

Inductive bot_run : list label -> Bot -> Prop :=
  | run_start : bot_run [] new_bot
  | run_step tr b ls b1 : bot_run tr b -> bot_step b ls b1 -> bot_run (tr ++ ls) b1.

(** *** What a chat sees *)

Definition cards_of (i : nat) (tr : list label) : list J :=
  omap (fun l => match l with Card j c => if Nat.eqb j i then Some c else None | _ => None end) tr.
Definition chunks_of (i : nat) (tr : list label) : list string :=
  omap (fun l => match l with Chunk j c => if Nat.eqb j i then Some c else None | _ => None end) tr.

(** The end of the agent in the trace. *)
Definition ends_of (i : nat) (tr : list label) : list InvokeResult :=
  omap (fun l => match l with Done j r => if Nat.eqb j i then Some r else None | _ => None end) tr.
Definition result_of (i : nat) (tr : list label) : option InvokeResult := head (ends_of i tr).

(** What the threads have sent, by the code's own functions. *)
Definition closing_cards (finalText : string) (r : option InvokeResult) (c : closing) : list J :=
  match r, c with
  | Some r, FinalSent => final_cards (closing_text finalText r)
  | Some r, Closed => final_cards (closing_text finalText r) ++ [status_card kStatusComplete]
  | _, _ => []
  end.
Definition routed (chunks : list string) (r : option InvokeResult) (c : closing) : list J :=
  status_card kStatusProcessing :: concat (map (fun c => (RouteAgentStreamChunk c).1) chunks) ++
  closing_cards (fold_left final_after chunks "") r c.

(** *** What a chat should see

    Stated from what the agent emits (react_worker.cpp, ask_user_dispatcher.cpp,
    agent.cpp), without the functions that recognise it. *)
Inductive Output :=
  | OStatus (text : string)
  | ORefused (text : string)
  | OStream (text : string)
  | OQuestion (payload : string)
  | OCall (name body : string)
  | OResult (id observation : string)
  | OFinal (answer : string).

(** The chunk that is emitted. *)
Definition written (o : Output) : string :=
  match o with
  | OStatus text => nl +:+ "[STATUS] " +:+ text +:+ nl
  | ORefused text => "[STATUS] " +:+ text
  | OStream text => "[STREAM]" +:+ text
  | OQuestion payload => nl +:+ "[ASK_USER]" +:+ payload +:+ "[/ASK_USER]" +:+ nl
  | OCall _ body => nl +:+ "[TOOL_CALLS] " +:+ body +:+ nl
  | OResult id observation => nl +:+ "[TOOL_RESPONSE " +:+ id +:+ "] " +:+ observation +:+ nl
  | OFinal answer => nl +:+ "[FINAL] " +:+ answer +:+ nl
  end.

(** The tags looked for before the chunk's own. *)
Definition earlier_tags (o : Output) : list string :=
  match o with
  | OCall _ _ => []
  | OResult _ _ => ["[TOOL_CALLS]"]
  | OFinal _ => ["[TOOL_CALLS]"; "[TOOL_RESPONSE"]
  | _ => ["[TOOL_CALLS]"; "[TOOL_RESPONSE"; "[FINAL]"]
  end.

(** The text of the output holds none of those tags; a call is a JSON object with the
    name of the tool; an id has no bracket. *)
Definition output_ok (o : Output) : Prop :=
  Forall (fun t => find_str t (written o) 0 = None) (earlier_tags o) /\
  match o with
  | OCall name body =>
      TrimAround body = body /\ name <> "" /\
      exists j v : J, json_parse body = Ok j /\ jfield "name" j = Some v /\ json_view v = JString name
  | OResult id _ => occurs "]" id = false
  | _ => True
  end.

Definition bubble (texts : list string) : J := MakeCard (map MakeMarkdownDiv texts).
Definition opening : J := bubble ["[状态] **处理中**"].
Definition ending : J := bubble ["[状态] **已完成**"].

(** Calls and results are shown when they come; nothing else is. *)
Definition shown_at_once (o : Output) : list J :=
  match o with
  | OCall name _ => [bubble ["[工具调用] " +:+ name]]
  | OResult _ observation =>
      [bubble ("[工具结果]" :: SplitParagraphs (LimitText (TrimAround observation) kMaxToolResultChars))]
  | _ => []
  end.

(** The answer of the turn, the last one the agent has declared final. *)
Definition answer_of (outs : list Output) : option string :=
  last (omap (fun o => match o with OFinal answer => Some (TrimAround answer) | _ => None end) outs).

(** What is shown at the end: the answer, or else the content of a successful result, or
    else its error. *)
Inductive shown_at_end (outs : list Output) (r : InvokeResult) : list J -> Prop :=
  | end_answer answer : answer_of outs = Some answer -> answer <> "" -> shown_at_end outs r [bubble [answer]]
  | end_content : default "" (answer_of outs) = "" -> ir_success r = true -> ir_content r <> "" ->
      shown_at_end outs r [bubble [ir_content r]]
  | end_error : default "" (answer_of outs) = "" -> ir_success r = false \/ ir_content r = "" -> ir_error r <> "" ->
      shown_at_end outs r [bubble ["Error: " +:+ ir_error r]]
  | end_nothing : default "" (answer_of outs) = "" -> ir_success r = false \/ ir_content r = "" -> ir_error r = "" ->
      shown_at_end outs r [].

(** How far the closing thread has come. *)
Inductive closed_with (outs : list Output) : option InvokeResult -> closing -> list J -> Prop :=
  | closed_not r : closed_with outs r Waiting []
  | closed_answered r cards : shown_at_end outs r cards -> closed_with outs (Some r) FinalSent cards
  | closed_all r cards : shown_at_end outs r cards -> closed_with outs (Some r) Closed (cards ++ [ending]).

(** *** The trace and the code's functions *)

Definition turn_inv (tr : list label) (i : nat) (t : Turn) : Prop :=
  cards_of i tr = to_chat (t_chat t) (routed (chunks_of i tr) (t_result t) (t_close t)) /\
  t_final t = fold_left final_after (chunks_of i tr) "" /\
  (t_result t = None -> t_close t = Waiting) /\ ends_of i tr = option_list (t_result t).

Lemma to_chat_nil chat : to_chat chat [] = [].
Proof. unfold to_chat. by destruct (str_empty chat). Qed.
Lemma to_chat_app chat l l' : to_chat chat (l ++ l') = to_chat chat l ++ to_chat chat l'.
Proof. unfold to_chat. by destruct (str_empty chat). Qed.

Lemma seen_app i tr ls :
  cards_of i (tr ++ ls) = cards_of i tr ++ cards_of i ls /\ chunks_of i (tr ++ ls) = chunks_of i tr ++ chunks_of i ls /\
  ends_of i (tr ++ ls) = ends_of i tr ++ ends_of i ls.
Proof. split_and!; apply omap_app. Qed.

(** What the cards of one step show. *)
Lemma seen_cards i (l : list J) :
  cards_of i (map (Card i) l) = l /\ chunks_of i (map (Card i) l) = [] /\ ends_of i (map (Card i) l) = [].
Proof.
  induction l as [|c l (IHc & IHk & IHe)]; [done|]. cbn. fold (cards_of i (map (Card i) l)).
  rewrite IHc, Nat.eqb_refl. by split_and!.
Qed.

Definition label_turn (l : label) : nat := match l with Chunk i _ | Done i _ | Card i _ => i end.
Lemma quiet i ls : Forall (fun l => label_turn l <> i) ls -> cards_of i ls = [] /\ chunks_of i ls = [] /\ ends_of i ls = [].
Proof.
  induction 1 as [|l ls Hl _ (IHc & IHk & IHe)]; [done|]. unfold cards_of, chunks_of, ends_of in *.
  cbn [omap list_omap]. rewrite IHc, IHk, IHe.
  destruct l as [j c|j r|j c]; cbn [label_turn] in Hl; rewrite ?(proj2 (Nat.eqb_neq j i) Hl); done.
Qed.

(** A step of another turn leaves this one. *)
Lemma turn_quiet tr ls i t : Forall (fun l => label_turn l <> i) ls -> turn_inv tr i t -> turn_inv (tr ++ ls) i t.
Proof.
  intros Hq Hi. destruct (quiet i ls Hq) as (Hc & Hk & He), (seen_app i tr ls) as (Ec & Ek & Ee).
  unfold turn_inv. by rewrite Ec, Ek, Ee, Hc, Hk, He, !app_nil_r.
Qed.

Lemma labels_cards j (l : list J) i : i <> j -> Forall (fun l => label_turn l <> i) (map (Card j) l).
Proof. intros Hn. induction l; constructor; [cbn; congruence | done]. Qed.

(** A turn to which a step has added chunks, an end and cards. *)
Lemma turn_grows tr ls i t t' ch cards ends :
  chunks_of i ls = ch -> cards_of i ls = to_chat (t_chat t) cards -> ends_of i ls = ends -> t_chat t' = t_chat t ->
  routed (chunks_of i tr ++ ch) (t_result t') (t_close t') = routed (chunks_of i tr) (t_result t) (t_close t) ++ cards ->
  t_final t' = fold_left final_after ch (t_final t) -> (t_result t' = None -> t_close t' = Waiting) ->
  option_list (t_result t') = option_list (t_result t) ++ ends ->
  turn_inv tr i t -> turn_inv (tr ++ ls) i t'.
Proof.
  intros Hk Hc He Hchat Hr Hf Hw Hres (Ic & If & Iw & Ie). destruct (seen_app i tr ls) as (Ec & Ek & Ee).
  unfold turn_inv. rewrite Ec, Ek, Ee, Hk, Hc, He, Hchat, Hr, Ic, Ie, <- to_chat_app, Hf, If, fold_left_app.
  by split_and!.
Qed.

Definition unseen (tr : list label) (i : nat) : Prop := cards_of i tr = [] /\ chunks_of i tr = [] /\ ends_of i tr = [].

Lemma step_turns b ls b1 tr : bot_step b ls b1 ->
  (forall i t, b_turns b !! i = Some t -> turn_inv tr i t) ->
  (forall i, (length (b_turns b) <= i)%nat -> unseen tr i) ->
  forall i t, b_turns b1 !! i = Some t -> turn_inv (tr ++ ls) i t.
Proof.
  intros Hs Hinv Hnew i t Hi. destruct Hs as [id now chat b seen Hr|id now b seen Hr|j t0 c b Ht Hn|j t0 r b Ht Hn|j t0 r b Ht Hr Hc|j t0 r b Ht Hr Hc];
    cbn [b_turns] in Hi;
    try (apply list_lookup_insert_Some in Hi as [(-> & <- & _)|[Hne Hi]];
         [|apply turn_quiet; [repeat constructor; cbn; try congruence; apply labels_cards; congruence | by apply Hinv]]).
  - apply lookup_app_Some in Hi as [Hi|[Hle Hi]].
    + apply turn_quiet; [|by apply Hinv]. apply lookup_lt_Some in Hi. apply labels_cards. lia.
    + destruct (i - length (b_turns b))%nat as [|k] eqn:Ek; [|done]. injection Hi as <-.
      assert (i = length (b_turns b)) as -> by lia. destruct (Hnew (length (b_turns b)) ltac:(done)) as (Hc & Hk & He).
      destruct (seen_app (length (b_turns b)) tr (map (Card (length (b_turns b))) (to_chat chat [status_card kStatusProcessing]))) as (Ec & Ek' & Ee).
      destruct (seen_cards (length (b_turns b)) (to_chat chat [status_card kStatusProcessing])) as (Sc & Sk & Se).
      unfold turn_inv. by rewrite Ec, Ek', Ee, Sc, Sk, Se, Hc, Hk, He.
  - rewrite app_nil_r. by apply Hinv.
  - destruct (seen_cards i (to_chat (t_chat t0) (RouteAgentStreamChunk c).1)) as (Sc & Sk & Se).
    destruct (Hinv i t0 Ht) as (_ & _ & Hw & _).
    apply (turn_grows tr _ i t0 _ [c] (RouteAgentStreamChunk c).1 []); cbn [t_chat t_result t_close t_final]; try done; auto.
    + unfold chunks_of in *. cbn [omap list_omap]. by rewrite Nat.eqb_refl, Sk.
    + rewrite Hn, (Hw Hn). unfold routed. rewrite map_app, concat_app. cbn. by rewrite ?app_nil_r.
    + by rewrite Hn.
  - destruct (Hinv i t0 Ht) as (_ & _ & Hw & _).
    apply (turn_grows tr _ i t0 _ [] [] [r]); cbn [t_chat t_result t_close t_final]; try done; auto.
    + by rewrite to_chat_nil.
    + cbn. by rewrite Nat.eqb_refl.
    + rewrite (Hw Hn), Hn. unfold routed. cbn. by rewrite !app_nil_r.
    + by rewrite Hn.
  - destruct (Hinv i t0 Ht) as (_ & Hf & _), (seen_cards i (to_chat (t_chat t0) (final_cards (closing_text (t_final t0) r)))) as (Sc & Sk & Se).
    apply (turn_grows tr _ i t0 _ [] (final_cards (closing_text (t_final t0) r)) []); cbn [t_chat t_result t_close t_final]; rewrite ?Hr; try done; [|by apply Hinv].
    rewrite Hc, app_nil_r. unfold routed. cbn [closing_cards]. by rewrite app_nil_r, <- Hf.
  - destruct (seen_cards i (to_chat (t_chat t0) [status_card kStatusComplete])) as (Sc & Sk & Se).
    apply (turn_grows tr _ i t0 _ [] [status_card kStatusComplete] []); cbn [t_chat t_result t_close t_final]; rewrite ?Hr; try done; [|by apply Hinv].
    rewrite Hc, app_nil_r. unfold routed. cbn [closing_cards app]. by rewrite <- app_assoc.
Qed.

Lemma step_new b ls b1 tr : bot_step b ls b1 ->
  (forall i, (length (b_turns b) <= i)%nat -> unseen tr i) ->
  forall i, (length (b_turns b1) <= i)%nat -> unseen (tr ++ ls) i.
Proof.
  intros Hs Hnew i Hi. assert ((length (b_turns b) <= i)%nat /\ Forall (fun l => label_turn l <> i) ls) as [Hle Hq].
  { destruct Hs as [id now chat b seen Hr|id now b seen Hr|j t0 c b Ht Hn|j t0 r b Ht Hn|j t0 r b Ht Hr Hc|j t0 r b Ht Hr Hc];
      cbn [b_turns] in Hi; rewrite ?length_app, ?length_insert in Hi; cbn [length] in Hi; try (apply lookup_lt_Some in Ht);
      (split; [lia|]); try (constructor; [cbn; lia|]); try done; apply labels_cards; lia. }
  unfold unseen in *. destruct (seen_app i tr ls) as (-> & -> & ->), (quiet i ls Hq) as (-> & -> & ->), (Hnew i Hle) as (-> & -> & ->). done.
Qed.

(** *** The code's functions and the outputs *)

Lemma trim_front_app s t : trim_front_around s <> "" -> trim_front_around (s +:+ t) = trim_front_around s +:+ t.
Proof. induction s as [|c s IH]; [done|]. cbn. destruct (around c); [exact IH | done]. Qed.
Lemma trim_front_all s : trim_front_around s = "" -> trim_front_around (s +:+ nl) = "".
Proof. induction s as [|c s IH]; [done|]. cbn. destruct (around c); [exact IH | done]. Qed.
Lemma find_last_if_nl s : find_last_if (fun c => negb (around c)) (s +:+ nl) = find_last_if (fun c => negb (around c)) s.
Proof. induction s as [|c s IH]; [done|]. cbn [String.append find_last_if]. by rewrite IH. Qed.
Lemma find_last_if_lt p s i : find_last_if p s = Some i -> (i < String.length s)%nat.
Proof.
  revert i; induction s as [|c s IH]; intros i; cbn; [done|]. destruct (find_last_if p s) as [k|].
  - intros [= <-]. specialize (IH k eq_refl). lia.
  - destruct (p c); [|done]. intros [= <-]. lia.
Qed.
(** The blank before and the line break after a text are trimmed with the rest. *)
Lemma TrimAround_written s : TrimAround (" " +:+ s +:+ nl) = TrimAround s.
Proof.
  unfold TrimAround. change (trim_front_around (" " +:+ ?u)) with (trim_front_around u).
  destruct (decide (trim_front_around s = "")) as [E|E]; [by rewrite trim_front_all, E|].
  rewrite trim_front_app by done. unfold trim_back_around. rewrite find_last_if_nl.
  destruct (find_last_if _ (trim_front_around s)) as [k|] eqn:Ek; [|done].
  apply find_last_if_lt in Ek. apply str_take_app_le. lia.
Qed.

Lemma str_drop_behind a c r : str_drop (String.length a + 1) (a +:+ String c r) = r.
Proof. induction a as [|d a IH]; [done | exact IH]. Qed.
Lemma TryExtractTag_line tag text rest :
  find_str tag text 0 = Some 1%nat -> text = nl +:+ tag +:+ " " +:+ rest +:+ nl -> TryExtractTag text tag = Some (TrimAround rest).
Proof.
  intros Hf ->. unfold TryExtractTag. rewrite Hf. f_equal.
  change (nl +:+ ?s) with (String NL s). cbn [str_drop Nat.add]. rewrite str_drop_app. apply TrimAround_written.
Qed.

Lemma find_tag_line t rest : Ascii.eqb "[" NL = false ->
  find_str (String "[" t) (nl +:+ String "[" t +:+ rest) 0 = Some 1%nat.
Proof.
  intros _. rewrite find_str_0. change (nl +:+ ?s) with (String NL s). cbn [find_sub].
  change (starts_with (String "[" t) (String NL (String "[" t +:+ rest))) with false. cbv iota.
  by rewrite find_sub_here.
Qed.

Definition final_of (o : Output) : option string :=
  match o with OFinal answer => Some (TrimAround answer) | _ => None end.

Lemma route_output o : output_ok o -> RouteAgentStreamChunk (written o) = (shown_at_once o, final_of o).
Proof.
  intros [He Ho]. unfold RouteAgentStreamChunk.
  assert (str_empty (written o) = false) as -> by (by destruct o).
  destruct o as [text|text|text|payload|name body|id obs|answer]; cbn [earlier_tags] in He;
    repeat (apply Forall_cons in He as [?Ht He]).
  1-4: unfold TryExtractTag, TryExtractToolResponseTag; rewrite Ht, Ht0, Ht1; done.
  - rewrite (TryExtractTag_line "[TOOL_CALLS]" _ body) by (done || apply (find_tag_line "TOOL_CALLS]"); done).
    destruct Ho as (Hb & Hn & j & v & Hj & Hv & Hs). rewrite Hb. unfold tool_call_card, JsonFieldAsString.
    rewrite Hj. cbn [obind]. rewrite Hv, Hs. by rewrite (proj2 (str_empty_false name) Hn).
  - assert (TryExtractTag (written (OResult id obs)) "[TOOL_CALLS]" = None) as -> by (unfold TryExtractTag; by rewrite Ht).
    unfold TryExtractToolResponseTag. cbn [written].
    change (nl +:+ "[TOOL_RESPONSE " +:+ id +:+ "] " +:+ obs +:+ nl)
      with (nl +:+ "[TOOL_RESPONSE" +:+ (" " +:+ id +:+ "] " +:+ obs +:+ nl)).
    rewrite (find_tag_line "TOOL_RESPONSE") by done.
    change (nl +:+ "[TOOL_RESPONSE" +:+ (" " +:+ id +:+ "] " +:+ obs +:+ nl))
      with (nl +:+ ("[TOOL_RESPONSE " +:+ id) +:+ String "]" (" " +:+ obs +:+ nl)).
    rewrite (find_char_behind "]" nl ("[TOOL_RESPONSE " +:+ id)) by exact Ho.
    change (str_drop (String.length nl + String.length ("[TOOL_RESPONSE " +:+ id) + 1) (nl +:+ ?s))
      with (str_drop (String.length ("[TOOL_RESPONSE " +:+ id) + 1) s).
    rewrite str_drop_behind, TrimAround_written. done.
  - assert (TryExtractTag (written (OFinal answer)) "[TOOL_CALLS]" = None) as -> by (unfold TryExtractTag; by rewrite Ht).
    assert (TryExtractToolResponseTag (written (OFinal answer)) = None) as -> by (unfold TryExtractToolResponseTag; by rewrite Ht0).
    rewrite (TryExtractTag_line "[FINAL]" _ answer) by (done || apply (find_tag_line "FINAL]"); done). done.
Qed.

Lemma routed_outputs outs : Forall output_ok outs ->
  concat (map (fun c => (RouteAgentStreamChunk c).1) (map written outs)) = concat (map shown_at_once outs) /\
  fold_left final_after (map written outs) "" = default "" (answer_of outs).
Proof.
  unfold answer_of. change (fun o => match o with OFinal answer => Some (TrimAround answer) | _ => None end) with final_of.
  induction outs as [|o outs IH] using rev_ind; [done|]. intros [Hf Ho]%Forall_app.
  destruct (IH Hf) as [IHc IHf]. apply List.Forall_inv, route_output in Ho. rewrite !map_app, !concat_app, fold_left_app, omap_app, IHc, IHf.
  cbn [map concat fold_left omap list_omap]. unfold final_after. rewrite Ho. cbn [fst snd]. split; [done|].
  destruct (final_of o) as [a|]; cbn; [by rewrite last_snoc | by rewrite app_nil_r].
Qed.

Lemma closing_shown outs r : shown_at_end outs r (final_cards (closing_text (default "" (answer_of outs)) r)).
Proof.
  unfold closing_text, final_cards. destruct (str_empty (default "" (answer_of outs))) eqn:Ea; cbn [negb].
  - apply str_empty_spec in Ea. destruct (ir_success r) eqn:Es, (str_empty (ir_content r)) eqn:Ec; cbn [andb negb];
      first [apply str_empty_spec in Ec | apply str_empty_false in Ec as Ec'].
    2: { rewrite Ec. by apply end_content. }
    all: destruct (str_empty (ir_error r)) eqn:Er; cbn [negb];
      [apply str_empty_spec in Er; apply end_nothing | apply str_empty_false in Er; apply end_error]; auto.
  - rewrite Ea. apply str_empty_false in Ea. destruct (answer_of outs) as [a|] eqn:Eo; [|done]. by apply end_answer.
Qed.

(** C26.  However the threads of the turns interleave, of each turn of a chat with an id
    the channel is handed, in this order: the opening status; a card with the name for
    each tool call and one with the observation for each tool result, in the order the
    agent emits them, at once; and only after the end of the agent the answer - the last
    text declared final, or else the content or the error of the result, or no card - and
    then the closing status.  No other output is shown.  The agent's chunks are those its
    worker writes, and none holds a tag that is looked for before its own. *)
Theorem cards_in_order tr b i t outs : bot_run tr b -> b_turns b !! i = Some t -> t_chat t <> "" ->
  chunks_of i tr = map written outs -> Forall output_ok outs ->
  exists closing, cards_of i tr = opening :: concat (map shown_at_once outs) ++ closing /\
    closed_with outs (result_of i tr) (t_close t) closing.
Proof.
  intros Hrun Hi Hchat Houts Hok.
  assert ((forall i t, b_turns b !! i = Some t -> turn_inv tr i t) /\
    (forall i, (length (b_turns b) <= i)%nat -> unseen tr i)) as [Hinv _].
  { clear i t Hi Hchat Houts. induction Hrun as [|tr b ls b1 Hrun [IH1 IH2] Hs]; [by split|].
    split; [by eapply step_turns | by eapply step_new]. }
  destruct (Hinv i t Hi) as (Hc & _ & Hw & He). unfold result_of. rewrite Hc, He, Houts.
  unfold to_chat. rewrite (proj2 (str_empty_false _) Hchat). unfold routed.
  destruct (routed_outputs outs Hok) as [-> ->]. eexists. split; [reflexivity|].
  destruct (t_result t) as [r|], (t_close t); cbn [closing_cards option_list head]; try constructor;
    try (by specialize (Hw eq_refl)); apply closing_shown.
Qed.
(** The steps as a function of what happens, for examples. *)
Inductive happening :=
  | Event (id : string) (now : Z) (chat : string)
  | Emits (i : nat) (o : Output)
  | Ends (i : nat) (r : InvokeResult)
  | Closes (i : nat).

Definition happens (h : happening) (b : Bot) : option (list label * Bot) :=
  match h with
  | Event id now chat =>
      let '(seen, fresh) := RegisterFeishuEventOnce id now (b_seen b) in
      if fresh then Some (map (Card (length (b_turns b))) (to_chat chat [status_card kStatusProcessing]),
                          mkBot seen (b_turns b ++ [mkTurn chat "" None Waiting]))
      else Some ([], mkBot seen (b_turns b))
  | Emits i o =>
      t ← b_turns b !! i;
      match t_result t with
      | None => Some (Chunk i (written o) :: map (Card i) (to_chat (t_chat t) (RouteAgentStreamChunk (written o)).1),
                      mkBot (b_seen b) (<[i := mkTurn (t_chat t) (final_after (t_final t) (written o)) None (t_close t)]> (b_turns b)))
      | Some _ => None
      end
  | Ends i r =>
      t ← b_turns b !! i;
      match t_result t with
      | None => Some ([Done i r], mkBot (b_seen b) (<[i := mkTurn (t_chat t) (t_final t) (Some r) (t_close t)]> (b_turns b)))
      | Some _ => None
      end
  | Closes i =>
      t ← b_turns b !! i;
      match t_result t, t_close t with
      | Some r, Waiting => Some (map (Card i) (to_chat (t_chat t) (final_cards (closing_text (t_final t) r))),
                                 mkBot (b_seen b) (<[i := mkTurn (t_chat t) (t_final t) (Some r) FinalSent]> (b_turns b)))
      | Some r, FinalSent => Some (map (Card i) (to_chat (t_chat t) [status_card kStatusComplete]),
                                   mkBot (b_seen b) (<[i := mkTurn (t_chat t) (t_final t) (Some r) Closed]> (b_turns b)))
      | _, _ => None
      end
  end.

Fixpoint all_happen (hs : list happening) (b : Bot) : option (list label * Bot) :=
  match hs with
  | [] => Some ([], b)
  | h :: hs => '(ls, b1) ← happens h b; '(tr, b2) ← all_happen hs b1; Some (ls ++ tr, b2)
  end.

Lemma happens_step h b ls b1 : happens h b = Some (ls, b1) -> bot_step b ls b1.
Proof.
  destruct h as [id now chat|i o|i r|i]; cbn [happens].
  - destruct (RegisterFeishuEventOnce id now (b_seen b)) as [seen []] eqn:E; intros [= <- <-]; by econstructor.
  - destruct (b_turns b !! i) as [t|] eqn:Et; [|done]. cbn. destruct (t_result t) eqn:Er; [done|]. intros [= <- <-]. by constructor.
  - destruct (b_turns b !! i) as [t|] eqn:Et; [|done]. cbn. destruct (t_result t) eqn:Er; [done|]. intros [= <- <-]. by constructor.
  - destruct (b_turns b !! i) as [t|] eqn:Et; [|done]. cbn. destruct (t_result t) eqn:Er, (t_close t) eqn:Ec; try done;
      intros [= <- <-]; by econstructor.
Qed.

Lemma all_happen_run hs tr b tr1 b1 : bot_run tr b -> all_happen hs b = Some (tr1, b1) -> bot_run (tr ++ tr1) b1.
Proof.
  revert tr b tr1. induction hs as [|h hs IH]; intros tr b tr1 Hr; cbn [all_happen].
  - intros [= <- <-]. by rewrite app_nil_r.
  - destruct (happens h b) as [[ls b0]|] eqn:E; [|done]. cbn. destruct (all_happen hs b0) as [[tr0 b2]|] eqn:Ea; [|done].
    intros [= <- <-]. rewrite app_assoc. eapply IH; [|exact Ea]. eapply run_step; [exact Hr | by eapply happens_step].
Qed.
End Turns.

(** ** An event is handled once *)

(** The events as they come, with the clock at each: which are handled. *)
Fixpoint register_all (seen : list (string * Z)) (events : list (string * Z)) : list bool :=
  match events with
  | [] => []
  | (id, now) :: events => let '(seen, b) := RegisterFeishuEventOnce id now seen in b :: register_all seen events
  end.

(** The reference: an event is handled unless one with its id was within five minutes. *)
Definition handled_recently (handled : list (string * Z)) (id : string) (now : Z) : bool :=
  existsb (fun e => String.eqb e.1 id && (now - e.2 <=? kFeishuDedupWindow)) handled.
Fixpoint handle_all (handled : list (string * Z)) (events : list (string * Z)) : list bool :=
  match events with
  | [] => []
  | (id, now) :: events =>
      if handled_recently handled id now then false :: handle_all handled events
      else true :: handle_all ((id, now) :: handled) events
  end.

Definition in_time (a b : string * Z) : Prop := a.2 <= b.2.
Definition seen_inv (seen handled : list (string * Z)) (last : Z) : Prop :=
  (forall e, e ∈ handled -> e ∈ seen \/ kFeishuDedupWindow < last - e.2) /\
  (forall e, e ∈ seen -> e ∈ handled /\ e.2 <= last) /\ StronglySorted in_time seen.

Lemma drop_seen_elem now seen e : e ∈ seen -> e ∈ drop_seen now seen \/ kFeishuDedupWindow < now - e.2.
Proof.
  induction seen as [|e0 seen IH]; [auto|]. cbn [drop_seen]. destruct (Z.ltb_spec kFeishuDedupWindow (now - e0.2)); [|auto].
  intros [->|Hin]%elem_of_cons; [by right | auto].
Qed.
Lemma drop_seen_suffix now seen : exists l, seen = l ++ drop_seen now seen.
Proof.
  induction seen as [|e seen [l IH]]; [by exists []|]. cbn [drop_seen]. destruct (kFeishuDedupWindow <? now - e.2); [|by exists []].
  exists (e :: l). cbn. by rewrite <- IH.
Qed.
Lemma drop_seen_recent now seen e : StronglySorted in_time seen -> e ∈ drop_seen now seen -> now - e.2 <= kFeishuDedupWindow.
Proof.
  induction 1 as [|e0 seen Hs IH Hf]; [by intros ?%elem_of_nil|]. cbn [drop_seen].
  destruct (Z.ltb_spec kFeishuDedupWindow (now - e0.2)) as [Hlt|Hle]; [exact IH|].
  intros [->|Hin]%elem_of_cons; [done|]. rewrite Forall_forall in Hf. specialize (Hf e Hin). unfold in_time in Hf. lia.
Qed.

Lemma register_step seen handled last id now : seen_inv seen handled last -> last <= now ->
  let '(seen1, b) := RegisterFeishuEventOnce id now seen in
  b = negb (handled_recently handled id now) /\ seen_inv seen1 (if b then (id, now) :: handled else handled) now.
Proof.
  intros (H1 & H2 & H3) Hle. unfold RegisterFeishuEventOnce. destruct (drop_seen_suffix now seen) as [l El].
  set (kept := drop_seen now seen) in *.
  assert (Hkept : forall e, e ∈ kept -> e ∈ handled /\ e.2 <= now /\ now - e.2 <= kFeishuDedupWindow).
  { intros e He. destruct (H2 e) as [Hh Ht]; [rewrite El; apply elem_of_app; by right|]. split; [done|]. split; [lia|].
    by apply (drop_seen_recent now seen). }
  assert (Hall : forall e, e ∈ handled -> e ∈ kept \/ kFeishuDedupWindow < now - e.2).
  { intros e He. destruct (H1 e He) as [Hin|Hold]; [by apply drop_seen_elem | right; lia]. }
  assert (Hs : StronglySorted in_time kept) by (rewrite El in H3; clear -H3; induction l; [done | inversion H3; auto]).
  assert (Eb : existsb (fun e => String.eqb e.1 id) kept = handled_recently handled id now).
  { apply eq_bool_prop_intro. unfold handled_recently. rewrite !Is_true_true, !existsb_exists. split.
    - intros (e & He%list_elem_of_In & Eid). destruct (Hkept e He) as (Hh & _ & Hw). exists e. split; [by apply list_elem_of_In|].
      rewrite Eid. by apply Z.leb_le in Hw.
    - intros (e & He%list_elem_of_In & [Eid Hw%Z.leb_le]%andb_true_iff). exists e. split; [|done]. apply list_elem_of_In.
      destruct (Hall e He); [done | lia]. }
  rewrite Eb. destruct (handled_recently handled id now); (split; [done|]).
  - split; [done|]. split; [|done]. intros e He. by destruct (Hkept e He) as (? & ? & _).
  - split; [|split].
    + intros e [->|He]%elem_of_cons; [left; apply elem_of_app; right; by left|]. destruct (Hall e He); [left; apply elem_of_app; by left | by right].
    + intros e [He|He]%elem_of_app; [destruct (Hkept e He) as (? & ? & _); split; [by right | done]|].
      apply list_elem_of_singleton in He as ->. split; [by left | done].
    + clear -Hs Hkept. induction Hs as [|e kept Hs IH Hf]; [by repeat constructor|]. cbn [app]. constructor.
      * apply IH. intros e' He'. apply Hkept. by right.
      * apply Forall_app. split; [done|]. constructor; [|done]. unfold in_time. cbn. by destruct (Hkept e ltac:(left)) as (_ & ? & _).
Qed.

(** On a clock that does not run back, of the events that come with one id exactly
    those are handled that come more than five minutes after the last one handled: an
    event the server delivers again is not answered again. *)
Theorem events_once (events : list (string * Z)) :
  StronglySorted in_time events -> register_all [] events = handle_all [] events.
Proof.
  intros Hs. destruct events as [|[id0 now0] rest] eqn:Ee; [done|]. rewrite <- Ee in *.
  assert (forall events seen handled last, StronglySorted in_time events -> seen_inv seen handled last ->
    Forall (fun e => last <= e.2) events -> register_all seen events = handle_all handled events) as Hgen.
  { clear. intros evs. induction evs as [|[id now] evs IH]; intros seen handled last Hs Hi Hl; [done|]. cbn [register_all handle_all].
    inversion Hs as [|? ? Hs' Hf]; subst. inversion Hl as [|? ? Hle _]; subst. cbn in Hle.
    pose proof (register_step seen handled last id now Hi Hle) as Hr. destruct (RegisterFeishuEventOnce id now seen) as [seen1 b].
    destruct Hr as [-> Hi1]. destruct (handled_recently handled id now); cbn [negb] in *; f_equal; by eapply IH. }
  apply (Hgen events [] [] now0 Hs).
  - split; [by intros ? ?%elem_of_nil|]. split; [by intros ? ?%elem_of_nil | constructor].
  - rewrite Ee in *. inversion Hs as [|? ? _ Hf]; subst. constructor; [cbn; lia | exact Hf].
Qed.

(** ** The bot itself *)

Record FeishuBot := mkFeishuBot { bot_running : bool; bot_channel : option FeishuState }.
Definition new_feishu_bot : FeishuBot := mkFeishuBot false None.

Section Bot.
Context {X J : Type} `{FeishuNet X, Json J}.

(** The bot counts as running whether or not its channel connects. *)
Definition BotStart (config : FeishuConfig) (b : FeishuBot) (x : X) : FeishuBot * X * outcome unit :=
  if bot_running b then (b, x, Ok tt)
  else if str_empty (appId config) || str_empty (appSecret config) then (b, x, Ok tt)
  else
    match FeishuStart (J := J) config x with
    | (x, Throw e) => (b, x, Throw e)
    | (x, Ok channel) => (mkFeishuBot true channel, x, Ok tt)
    end.

Definition BotStop (b : FeishuBot) (x : X) : FeishuBot * X :=
  if negb (bot_running b) then (b, x)
  else (mkFeishuBot false None, match bot_channel b with Some _ => ws_close x | None => x end).
End Bot.

(** ** Examples *)

Section Examples.
Definition ex_times : list (string * Z) :=
  [("a", 0); ("b", 10 * kSecond); ("a", 299 * kSecond); ("a", 300 * kSecond); ("a", 301 * kSecond)].

Lemma events_once_witness : register_all [] ex_times = [true; true; false; false; true].
Proof.
  rewrite (events_once ex_times); [vm_compute; reflexivity|].
  unfold ex_times, kSecond. repeat constructor; unfold in_time; cbn; lia.
Defined.

(** Two turns whose threads interleave; the second runs to its end. *)
Definition ex_body : string := "{call}".
#[local] Instance ex_json_call : Json JsonTree.json :=
  JsonTree.instance [(ex_body, JsonTree.make (JObject {[ "name" := JsonTree.make (JString "grep") ]}))].
Definition ex_happenings : list happening :=
  [Event "a" 0 "chat"; Event "b" 1 "chat"; Emits 1 (OStatus "Thinking... (Iteration 1)"); Emits 0 (OCall "grep" ex_body);
   Emits 1 (OCall "grep" ex_body); Emits 1 (OResult "c1" " two lines"); Emits 0 (OStream "wait"); Emits 1 (OStream "do");
   Emits 1 (OFinal "done"); Ends 1 (mkInvokeResult true "" "unused"); Closes 1; Emits 0 (OResult "c2" "none"); Closes 1].
Definition ex_outs : list Output :=
  [OStatus "Thinking... (Iteration 1)"; OCall "grep" ex_body; OResult "c1" " two lines"; OStream "do"; OFinal "done"].

Lemma ex_outs_ok : Forall (output_ok (J := JsonTree.json)) ex_outs.
Proof.
  unfold ex_outs. repeat (apply List.Forall_cons; [split; [repeat constructor; vm_compute; reflexivity|]|]); try exact I; [| |constructor].
  - split; [vm_compute; reflexivity|]. split; [done|]. eexists _, _. split_and!; vm_compute; reflexivity.
  - vm_compute. reflexivity.
Qed.

Lemma cards_in_order_witness :
  exists tr b, all_happen (J := JsonTree.json) ex_happenings new_bot = Some (tr, b) /\
  cards_of 1 tr = [bubble ["[状态] **处理中**"]; bubble ["[工具调用] grep"]; bubble ["[工具结果]"; "two lines"];
                   bubble ["done"]; bubble ["[状态] **已完成**"]].
Proof.
  destruct (all_happen (J := JsonTree.json) ex_happenings new_bot) as [[tr b]|] eqn:E; [|vm_compute in E; discriminate].
  exists tr, b. split; [done|].
  assert (exists t, b_turns b !! 1%nat = Some t /\ t_chat t = "chat" /\ t_close t = Closed /\
    chunks_of 1 tr = map written ex_outs /\ result_of 1 tr = Some (mkInvokeResult true "" "unused")) as (t & Ht & Hch & Hcl & Hk & Hr).
  { vm_compute in E. injection E as <- <-. eexists. split; [reflexivity|]. by split_and!. }
  destruct (cards_in_order tr b 1 t ex_outs) as (closing & -> & Hclosed);
    [exact (all_happen_run ex_happenings [] new_bot tr b run_start E) | exact Ht | by rewrite Hch | exact Hk | exact ex_outs_ok|].
  rewrite Hr, Hcl in Hclosed. inversion Hclosed as [| |r cards Hend]; subst.
  inversion Hend as [a Ha|Hd|Hd|Hd]; subst; vm_compute in Ha || vm_compute in Hd; [|discriminate..].
  injection Ha as <-. reflexivity.
Defined.
End Examples.
