(* ===== verification/ChannelService.v ===== *)
(** * Channels that run (examples/jiuwenClaw/channels/channel_service.cpp)

    The service that starts, restarts and stops a bot for each channel, and the proof that
    after a reconciliation the bots are those the registry asks for. *)
From Stdlib Require Import NArith ZArith Lia String Ascii List.
From stdpp Require Import base decidable list strings gmap.
From S2P Require Import Prelude JsonLib Files AtomicFile Channels FeishuChannel FeishuBot.
Open Scope Z_scope.

(** The maps are unordered. *)
Record ChannelService := mkChannelService {
  feishuBots_ : gmap string FeishuBot;
  lastParams_ : gmap string (gmap string string);
  lastTypes_ : gmap string string;
  lastEnabled_ : gmap string bool
}.
Definition new_service : ChannelService := mkChannelService ∅ ∅ ∅ ∅.
Definition set_bots (b : gmap string FeishuBot) (s : ChannelService) : ChannelService :=
  mkChannelService b (lastParams_ s) (lastTypes_ s) (lastEnabled_ s).
Definition note_channel (cfg : ChannelConfig) (s : ChannelService) : ChannelService :=
  mkChannelService (feishuBots_ s) (<[ch_id cfg := ch_params cfg]> (lastParams_ s))
    (<[ch_id cfg := ch_type cfg]> (lastTypes_ s)) (<[ch_id cfg := ch_enabled cfg]> (lastEnabled_ s)).
Definition forget_channel (id : string) (s : ChannelService) : ChannelService :=
  mkChannelService (feishuBots_ s) (delete id (lastParams_ s)) (delete id (lastTypes_ s)) (delete id (lastEnabled_ s)).

Section Service.
Context {X J : Type} `{FeishuNet X, Json J}.
Variable iter : forall V : Type, gmap string V -> list (string * V).

Definition StopLocked (id : string) (s : ChannelService) (x : X) : ChannelService * X :=
  match feishuBots_ s !! id with
  | None => (s, x)
  | Some b => let '(_, x) := BotStop b x in (set_bots (delete id (feishuBots_ s)) s, x)
  end.

Definition credentials (params : gmap string string) : FeishuConfig :=
  mkFeishuConfig (default "" (params !! "appId")) (default "" (params !! "appSecret")).

Definition StartFeishuLocked (cfg : ChannelConfig) (s : ChannelService) (x : X) : ChannelService * X * outcome unit :=
  let c := credentials (ch_params cfg) in
  if str_empty (appId c) || str_empty (appSecret c) then (s, x, Ok tt)
  else
    match BotStart (J := J) c new_feishu_bot x with
    | (_, x, Throw e) => (s, x, Throw e)
    | (bot, x, Ok _) => (if bot_running bot then set_bots (<[ch_id cfg := bot]> (feishuBots_ s)) s else s, x, Ok tt)
    end.

Definition changed {V} `{EqDecision V} (old : option V) (new : V) : bool :=
  match old with Some o => negb (bool_decide (o = new)) | None => false end.

Definition ApplyChannel (cfg : ChannelConfig) (s : ChannelService) (x : X) : ChannelService * X * outcome unit :=
  let id := ch_id cfg in
  let typeChanged := changed (lastTypes_ s !! id) (ch_type cfg) in
  let paramsChanged := changed (lastParams_ s !! id) (ch_params cfg) in
  let wasRunning := bool_decide (is_Some (feishuBots_ s !! id)) in
  let '(s, x) := if wasRunning && (negb (ch_enabled cfg) || typeChanged || paramsChanged)
                 then StopLocked id s x else (s, x) in
  let s := note_channel cfg s in
  if negb (ch_enabled cfg) then (s, x, Ok tt)
  else
    match feishuBots_ s !! id with
    | Some _ => (s, x, Ok tt)
    | None => if String.eqb (ch_type cfg) "feishu" then StartFeishuLocked cfg s x else (s, x, Ok tt)
    end.

Fixpoint apply_channels (channels : list ChannelConfig) (s : ChannelService) (x : X) : ChannelService * X * outcome unit :=
  match channels with
  | [] => (s, x, Ok tt)
  | c :: channels =>
      match ApplyChannel c s x with
      | (s, x, Ok _) => apply_channels channels s x
      | r => r
      end
  end.

Definition StartAll (m : ChannelManager) (s : ChannelService) (x : X) : ChannelService * X * outcome unit :=
  apply_channels (GetAllChannels m) s x.

Definition StopAllBots (s : ChannelService) (x : X) : ChannelService * X :=
  (new_service, fold_left (fun x e => (BotStop e.2 x).2) (iter _ (feishuBots_ s)) x).

(** [Remove] of the service. *)
Definition RemoveBot (id : string) (s : ChannelService) (x : X) : ChannelService * X :=
  let '(s, x) := StopLocked id s x in (forget_channel id s, x).

Fixpoint remove_all (ids : list string) (s : ChannelService) (x : X) : ChannelService * X :=
  match ids with
  | [] => (s, x)
  | id :: ids => let '(s, x) := RemoveBot id s x in remove_all ids s x
  end.

Definition ReconcileAll (m : ChannelManager) (s : ChannelService) (x : X) : ChannelService * X * outcome unit :=
  let channels := GetAllChannels m in
  let currentIds := map ch_id channels in
  let toStop := List.filter (fun id => negb (existsb (String.eqb id) currentIds)) (map fst (iter _ (feishuBots_ s))) in
  let '(s, x) := remove_all toStop s x in
  apply_channels channels s x.

Definition ActiveBotIds (s : ChannelService) : list string :=
  map fst (List.filter (fun e => bot_running e.2) (iter _ (feishuBots_ s))).
End Service.
Arguments changed {V} {_} _ _.

(** ** The bots follow the registry *)

(** A channel for which a bot has to run. *)
Definition wanted (c : ChannelConfig) : Prop :=
  ch_enabled c = true /\ ch_type c = "feishu" /\
  appId (credentials (ch_params c)) <> "" /\ appSecret (credentials (ch_params c)) <> "".

(** A running bot whose connection, where it has one, was made with these credentials. *)
Definition runs_with (params : gmap string string) (b : FeishuBot) : Prop :=
  bot_running b = true /\ forall st, bot_channel b = Some st -> fc_config st = credentials params.

Definition service_inv (s : ChannelService) : Prop :=
  forall id b, feishuBots_ s !! id = Some b ->
    lastTypes_ s !! id = Some "feishu" /\
    exists p, lastParams_ s !! id = Some p /\ runs_with p b /\
      appId (credentials p) <> "" /\ appSecret (credentials p) <> "".

Section Follow.
Context {X J : Type} `{FeishuNet X, Json J}.
Variable iter : forall V : Type, gmap string V -> list (string * V).
Hypothesis iter_perm : forall V (m : gmap string V), iter V m ≡ₚ map_to_list m.
Local Notation ApplyChannel := (ApplyChannel (J := J)).
Local Notation apply_channels := (apply_channels (J := J)).

Lemma discover_config (s s1 : FeishuState) (x x1 : X) r : DiscoverEndpoint (J := J) s x = (s1, x1, r) -> fc_config s1 = fc_config s.
Proof.
  unfold DiscoverEndpoint. destruct (json_dump _ _); [|by intros [= <- _ _]]. destruct (FeishuPost _ _ _) as [x2 response].
  destruct (str_empty response); [by intros [= <- _ _]|].
  assert (fc_config (read_endpoint (J := J) response s).1 = fc_config s) as Hr by (unfold read_endpoint; by repeat case_match).
  destruct (read_endpoint response s) as [s2 ok]. by intros [= <- _ _].
Qed.

Lemma start_config (c : FeishuConfig) (x x1 : X) b : BotStart (J := J) c new_feishu_bot x = (b, x1, Ok tt) ->
  appId c <> "" -> appSecret c <> "" -> bot_running b = true /\ forall st, bot_channel b = Some st -> fc_config st = c.
Proof.
  intros E Ha Hs. unfold BotStart in E. cbn [bot_running new_feishu_bot] in E.
  assert (str_empty (appId c) || str_empty (appSecret c) = false) as Hc
    by (destruct c as [i k]; cbn in *; by destruct i, k).
  rewrite Hc in E. unfold FeishuStart in E. rewrite Hc in E.
  destruct (DiscoverEndpoint _ x) as [[s x2] [[]|e]] eqn:Ed; [| |done].
  - destruct (ConnectWebSocket s x2) as [[s2 x3] ok] eqn:Ec. injection E as <- <-. split; [done|]. cbn. intros st Hst.
    destruct ok; [|done]. injection Hst as <-. apply discover_config in Ed. unfold ConnectWebSocket in Ec.
    destruct (ws_connect _ _) as [x4 []]; by injection Ec as <- <-.
  - injection E as <- <-. by split.
Qed.

Lemma stop_bots id (s s1 : ChannelService) (x x1 : X) : StopLocked id s x = (s1, x1) ->
  feishuBots_ s1 = delete id (feishuBots_ s) /\ lastParams_ s1 = lastParams_ s /\ lastTypes_ s1 = lastTypes_ s.
Proof.
  unfold StopLocked. destruct (feishuBots_ s !! id) eqn:E; [destruct (BotStop f x)|]; intros [= <- <-]; [done|].
  by rewrite delete_id.
Qed.

(** After a channel is applied it has a bot exactly if it wants one, with the credentials
    it has now; the other channels keep theirs. *)
Lemma apply_spec cfg (s s1 : ChannelService) (x x1 : X) : service_inv s -> ApplyChannel cfg s x = (s1, x1, Ok tt) ->
  service_inv s1 /\
  (forall id, id <> ch_id cfg -> feishuBots_ s1 !! id = feishuBots_ s !! id) /\
  (wanted cfg -> exists b, feishuBots_ s1 !! ch_id cfg = Some b /\ runs_with (ch_params cfg) b) /\
  (~ wanted cfg -> feishuBots_ s1 !! ch_id cfg = None).
Proof.
  intros Hi E. unfold ApplyChannel in E. set (id := ch_id cfg) in *.
  set (stop := bool_decide (is_Some (feishuBots_ s !! id)) && _) in E.
  destruct (if stop then StopLocked id s x else (s, x)) as [s0 x0] eqn:Es0.
  assert (Hs0 : lastParams_ s0 = lastParams_ s /\ lastTypes_ s0 = lastTypes_ s /\
    (forall k, k <> id -> feishuBots_ s0 !! k = feishuBots_ s !! k) /\
    forall b, feishuBots_ s0 !! id = Some b -> ch_enabled cfg = true /\ ch_type cfg = "feishu" /\ runs_with (ch_params cfg) b /\
      appId (credentials (ch_params cfg)) <> "" /\ appSecret (credentials (ch_params cfg)) <> "").
  { destruct stop eqn:Est.
    - destruct (stop_bots _ _ _ _ _ Es0) as (Eb & Ep & Et). split; [done|]. split; [done|]. rewrite Eb. split.
      + intros k Hk. by rewrite lookup_delete_ne.
      + intros b Hb. by rewrite lookup_delete_eq in Hb.
    - injection Es0 as <- <-. split; [done|]. split; [done|]. split; [done|]. intros b Hb. destruct (Hi id b Hb) as (Ht & p & Hp & Hr & Hc).
      unfold stop in Est. rewrite bool_decide_eq_true_2 in Est by eauto. cbn [andb] in Est.
      apply orb_false_iff in Est as [[Hen Hty]%orb_false_iff Hpa]. rewrite Ht in Hty. rewrite Hp in Hpa. unfold changed in Hty, Hpa.
      apply negb_false_iff, bool_decide_eq_true in Hty, Hpa. apply negb_false_iff in Hen. subst p. by rewrite <- Hty. }
  destruct Hs0 as (Ep & Et & Hother & Hsame).
  assert (Hi0 : forall bots, (forall k, k <> id -> bots !! k = feishuBots_ s !! k) ->
    (forall b, bots !! id = Some b -> ch_type cfg = "feishu" /\ runs_with (ch_params cfg) b /\
      appId (credentials (ch_params cfg)) <> "" /\ appSecret (credentials (ch_params cfg)) <> "") ->
    service_inv (set_bots bots (note_channel cfg s0))).
  { intros bots Ho Hb k b Hk. cbn [set_bots note_channel feishuBots_ lastTypes_ lastParams_] in *. fold id. rewrite Ep, Et.
    destruct (decide (k = id)) as [->|Hne].
    - rewrite !lookup_insert_eq. destruct (Hb b Hk) as (-> & Hr & Hc). split; [done|]. by exists (ch_params cfg).
    - rewrite !lookup_insert_ne by done. apply Hi. by rewrite <- Ho. }
  destruct (ch_enabled cfg) eqn:Een; cbn [negb] in E.
  2:{ injection E as <- <-. assert (feishuBots_ s0 !! id = None) as Hnone.
      { destruct (feishuBots_ s0 !! id) as [b|] eqn:Eb; [|done]. by destruct (Hsame b eq_refl) as [? _]. }
      split; [|split; [exact Hother|split; [by intros [? _]; congruence | done]]].
      apply (Hi0 (feishuBots_ s0)); [done|]. intros b Hb. cbn in Hb. congruence. }
  cbn [feishuBots_ note_channel] in E. destruct (feishuBots_ s0 !! id) as [b|] eqn:Eb.
  - injection E as <- <-. destruct (Hsame b eq_refl) as (_ & Hty & Hr & Hc).
    split; [|split; [exact Hother|split]].
    + apply (Hi0 (feishuBots_ s0)); [done|]. intros b' Hb'. rewrite Eb in Hb'. by injection Hb' as <-.
    + intros _. by exists b.
    + intros Hw. destruct Hw. by split.
  - assert (forall s2 x2, (note_channel cfg s0, x0) = (s2, x2) -> ~ wanted cfg ->
      service_inv s2 /\ (forall k, k <> id -> feishuBots_ s2 !! k = feishuBots_ s !! k) /\
      (wanted cfg -> exists b, feishuBots_ s2 !! id = Some b /\ runs_with (ch_params cfg) b) /\
      (~ wanted cfg -> feishuBots_ s2 !! id = None)) as Hidle.
    { intros s2 x2 [= <- <-] Hw. split; [|split; [exact Hother|split; done]].
      apply (Hi0 (feishuBots_ s0)); [done|]. intros b Hb. cbn in Hb. congruence. }
    destruct (String.eqb_spec (ch_type cfg) "feishu") as [Hty|Hty].
    2:{ injection E as <- <-. apply (Hidle _ x0); [done|]. by intros (_ & ? & _). }
    unfold StartFeishuLocked in E. set (c := credentials (ch_params cfg)) in *.
    destruct (str_empty (appId c) || str_empty (appSecret c)) eqn:Hc.
    { injection E as <- <-. apply (Hidle _ x0); [done|]. intros (_ & _ & Ha & Hb). fold c in Ha, Hb.
      by destruct (appId c), (appSecret c). }
    assert (appId c <> "" /\ appSecret c <> "") as [Ha Hb] by (by destruct (appId c), (appSecret c)).
    destruct (BotStart c new_feishu_bot x0) as [[bot x2] [[]|e]] eqn:Ebot; [|done].
    destruct (start_config _ _ _ _ Ebot Ha Hb) as [Hrun Hcfg]. rewrite Hrun in E. injection E as <- <-.
    cbn [set_bots note_channel feishuBots_]. fold id. split; [|split; [|split]].
    + apply (Hi0 (<[id:=bot]> (feishuBots_ s0))).
      * intros k Hk. rewrite lookup_insert_ne by done. by apply Hother.
      * intros b Hbb. rewrite lookup_insert_eq in Hbb. injection Hbb as <-. done.
    + intros k Hk. rewrite lookup_insert_ne by done. by apply Hother.
    + intros _. exists bot. by rewrite lookup_insert_eq.
    + intros Hw. destruct Hw. by split.
Qed.

Lemma remove_all_spec ids (s s1 : ChannelService) (x x1 : X) : service_inv s -> remove_all ids s x = (s1, x1) ->
  service_inv s1 /\ forall id, feishuBots_ s1 !! id = if bool_decide (id ∈ ids) then None else feishuBots_ s !! id.
Proof.
  revert s x. induction ids as [|k ids IH]; intros s x Hi E; cbn [remove_all] in E; [injection E as <- <-; done|].
  destruct (RemoveBot k s x) as [s0 x0] eqn:Er. unfold RemoveBot in Er. destruct (StopLocked k s x) as [s2 x2] eqn:Es.
  injection Er as <- <-. destruct (stop_bots _ _ _ _ _ Es) as (Eb & Ep & Et).
  apply IH in E as [Hi1 Hb].
  - split; [done|]. intros id. rewrite Hb. cbn [forget_channel feishuBots_]. rewrite Eb.
    destruct (decide (id = k)) as [->|Hne].
    + rewrite (bool_decide_eq_true_2 (k ∈ k :: ids)) by left. rewrite lookup_delete_eq. by destruct (bool_decide _).
    + rewrite lookup_delete_ne by done. by rewrite (bool_decide_ext (id ∈ k :: ids) (id ∈ ids)) by set_solver.
  - intros id b Hid. cbn [forget_channel feishuBots_ lastTypes_ lastParams_] in *. rewrite Eb in Hid. rewrite Ep, Et.
    apply lookup_delete_Some in Hid as [Hne Hid]. rewrite !lookup_delete_ne by done. by apply Hi.
Qed.

Lemma apply_channels_spec channels (s s1 : ChannelService) (x x1 : X) : service_inv s -> NoDup (map ch_id channels) ->
  apply_channels channels s x = (s1, x1, Ok tt) ->
  service_inv s1 /\
  (forall id, id ∉ map ch_id channels -> feishuBots_ s1 !! id = feishuBots_ s !! id) /\
  (forall c, c ∈ channels -> (wanted c -> exists b, feishuBots_ s1 !! ch_id c = Some b /\ runs_with (ch_params c) b) /\
    (~ wanted c -> feishuBots_ s1 !! ch_id c = None)).
Proof.
  revert s x. induction channels as [|c channels IH]; intros s x Hi Hn E; cbn [ChannelService.apply_channels] in E.
  { injection E as <- <-. split; [done|]. split; [done|]. by intros c ?%elem_of_nil. }
  destruct (ApplyChannel c s x) as [[s0 x0] [[]|e]] eqn:Ea; [|done]. cbn [map] in Hn. apply NoDup_cons in Hn as [Hc Hn].
  destruct (apply_spec c _ _ _ _ Hi Ea) as (Hi0 & Ho & Hw & Hnw). destruct (IH _ _ Hi0 Hn E) as (Hi1 & Ho1 & Hw1).
  split; [done|]. split.
  - intros id [Hid Hid']%not_elem_of_cons. rewrite Ho1 by done. by apply Ho.
  - intros c' [->|Hin]%elem_of_cons; [|by apply Hw1]. by rewrite Ho1.
Qed.

Lemma registry_ids m : (forall k c, channels_ m !! k = Some c -> ch_id c = k) -> NoDup (map ch_id (GetAllChannels m)) /\
  forall c, c ∈ GetAllChannels m <-> channels_ m !! ch_id c = Some c.
Proof. apply keyed_values. Qed.

(** The bots are those the registry asks for. *)
Definition in_step (m : ChannelManager) (s : ChannelService) : Prop :=
  service_inv s /\
  forall id, match channels_ m !! id with
             | Some c => (wanted c -> exists b, feishuBots_ s !! id = Some b /\ runs_with (ch_params c) b) /\
                         (~ wanted c -> feishuBots_ s !! id = None)
             | None => feishuBots_ s !! id = None
             end.

#[global] Instance wanted_dec c : Decision (wanted c).
Proof. unfold wanted. apply _. Defined.

Lemma in_step_bot m s id b : in_step m s -> feishuBots_ s !! id = Some b ->
  exists c, channels_ m !! id = Some c /\ wanted c /\ runs_with (ch_params c) b.
Proof.
  intros [_ Hs] Hb. specialize (Hs id). destruct (channels_ m !! id) as [c|]; [|congruence]. destruct Hs as [Hy Hn].
  destruct (decide (wanted c)) as [Hw|Hw]; [|rewrite Hn in Hb by done; done]. destruct (Hy Hw) as (b' & Hb' & Hr).
  exists c. split; [done|]. split; [done|]. congruence.
Qed.

Lemma active_ids m s id : in_step m s -> id ∈ ActiveBotIds iter s <-> exists c, channels_ m !! id = Some c /\ wanted c.
Proof.
  intros Hs. unfold ActiveBotIds. rewrite list_elem_of_fmap. split.
  - intros ([id' b] & -> & Hf). apply list_elem_of_In, filter_In in Hf as [Hf _]. apply list_elem_of_In in Hf.
    rewrite iter_perm in Hf. apply elem_of_map_to_list in Hf. destruct (in_step_bot _ _ _ _ Hs Hf) as (c & ? & ? & _). by exists c.
  - intros (c & Hc & Hw). destruct Hs as [_ Hs]. specialize (Hs id). rewrite Hc in Hs. destruct (proj1 Hs Hw) as (b & Hb & Hr & _).
    exists (id, b). split; [done|]. apply list_elem_of_In, filter_In. split; [|done]. apply list_elem_of_In. rewrite iter_perm.
    by apply elem_of_map_to_list.
Qed.

(** Applying every channel of a registry to bots of its channels only. *)
Lemma apply_registry (m : ChannelManager) (s s1 : ChannelService) (x x1 : X) :
  (forall k c, channels_ m !! k = Some c -> ch_id c = k) -> service_inv s ->
  (forall id, channels_ m !! id = None -> feishuBots_ s !! id = None) ->
  apply_channels (GetAllChannels m) s x = (s1, x1, Ok tt) -> in_step m s1.
Proof.
  intros Hk Hi Hout E. destruct (registry_ids m Hk) as [Hn Hin].
  destruct (apply_channels_spec _ _ _ _ _ Hi Hn E) as (Hi1 & Ho & Hw). split; [done|]. intros id.
  destruct (channels_ m !! id) as [c|] eqn:Ec.
  - pose proof (Hk id c Ec) as Hid. subst id. apply Hw, Hin, Ec.
  - rewrite Ho; [by apply Hout|]. intros (c & -> & Hc%Hin)%list_elem_of_fmap. congruence.
Qed.

Lemma reconcile_spec (m : ChannelManager) (s s1 : ChannelService) (x x1 : X) :
  (forall k c, channels_ m !! k = Some c -> ch_id c = k) -> service_inv s ->
  ReconcileAll (J := J) iter m s x = (s1, x1, Ok tt) -> in_step m s1.
Proof.
  intros Hk Hi E. destruct (registry_ids m Hk) as [_ Hin]. unfold ReconcileAll in E.
  set (toStop := List.filter _ _) in E. destruct (remove_all toStop s x) as [s0 x0] eqn:Er.
  destruct (remove_all_spec _ _ _ _ _ Hi Er) as [Hi0 Hb0]. apply (apply_registry m s0 _ x0 x1 Hk Hi0); [|exact E].
  intros id Ec. rewrite Hb0. case_bool_decide as Hst; [done|].
  destruct (feishuBots_ s !! id) as [b|] eqn:Hb; [|done]. destruct Hst. unfold toStop. apply list_elem_of_In, filter_In. split.
  - apply list_elem_of_In, list_elem_of_fmap. exists (id, b). split; [done|]. rewrite iter_perm. by apply elem_of_map_to_list.
  - apply negb_true_iff. destruct (existsb _ _) eqn:Eex; [|done]. apply existsb_exists in Eex as (k & Hk' & ->%String.eqb_eq).
    apply list_elem_of_In, list_elem_of_fmap in Hk' as (c & -> & Hc%Hin). congruence.
Qed.

(** After a reconciliation the bots are those the registry asks for: a channel has a
    running bot exactly if it is there, enabled, of the Feishu type and has credentials,
    and a bot that is connected is so with the credentials its channel has now, however
    they and the other fields changed before. *)
Theorem bots_follow_registry (m : ChannelManager) (s s1 : ChannelService) (x x1 : X) :
  (forall k c, channels_ m !! k = Some c -> ch_id c = k) -> service_inv s ->
  ReconcileAll (J := J) iter m s x = (s1, x1, Ok tt) ->
  service_inv s1 /\
  (forall id, id ∈ ActiveBotIds iter s1 <-> exists c, channels_ m !! id = Some c /\ wanted c) /\
  (forall id c b, channels_ m !! id = Some c -> feishuBots_ s1 !! id = Some b -> runs_with (ch_params c) b).
Proof.
  intros Hk Hi E. pose proof (reconcile_spec m s s1 x x1 Hk Hi E) as Hs. split; [apply Hs|]. split.
  - intros id. by apply active_ids.
  - intros id c b Hc Hb. destruct (in_step_bot _ _ _ _ Hs Hb) as (c' & Hc' & _ & Hr). congruence.
Qed.
End Follow.

(** ** Example *)

Section Example.
#[local] Instance ex_json : Json JsonTree.json := JsonTree.instance [].
(** A network that does not answer. *)
#[local] Instance ex_net : FeishuNet nat := {|
  steady_now := fun x => Z.of_nat x;
  feishu_post := fun _ _ _ x => (S x, None);
  ws_connect := fun _ x => (x, false);
  ws_is_open := fun _ => false;
  ws_send := fun _ x => (x, false);
  ws_read := fun x => (x, ReadFail);
  ws_close := fun x => x;
  biz_rt_ms := fun _ => 0
|}.
Definition ex_iter (V : Type) (m : gmap string V) : list (string * V) := map_to_list m.
Definition ex_creds : gmap string string := <["appId" := "i"]> (<["appSecret" := "s"]> ∅).
Definition ex_registry : ChannelManager :=
  mkChannelManager "" (<["a" := mkChannel "a" "feishu" "team" true ex_creds]>
                       (<["b" := mkChannel "b" "feishu" "off" false ex_creds]> ∅)) 1.
(** A service on which [b] was applied while it was enabled. *)
Definition ex_service : ChannelService :=
  (ApplyChannel (J := JsonTree.json) (mkChannel "b" "feishu" "off" true ex_creds) new_service 0%nat).1.1.

Lemma bots_follow_registry_witness :
  ActiveBotIds ex_iter ex_service = ["b"] /\
  exists s1 x1, ReconcileAll (J := JsonTree.json) ex_iter ex_registry ex_service 0%nat = (s1, x1, Ok tt) /\
    forall id, id ∈ ActiveBotIds ex_iter s1 <-> exists c, channels_ ex_registry !! id = Some c /\ wanted c.
Proof.
  split; [vm_compute; reflexivity|].
  destruct (ReconcileAll (J := JsonTree.json) ex_iter ex_registry ex_service 0%nat) as [[s1 x1] r] eqn:E.
  assert (r = Ok tt) as -> by (vm_compute in E; by injection E).
  assert (service_inv ex_service) as Hi.
  { intros id b Hb. assert (feishuBots_ ex_service = <["b" := mkFeishuBot true None]> ∅) as Eb by (vm_compute; reflexivity).
    rewrite Eb in Hb. apply lookup_insert_Some in Hb as [[<- <-]|[_ Hb]]; [|by rewrite lookup_empty in Hb].
    split; [vm_compute; reflexivity|]. exists ex_creds. split; [vm_compute; reflexivity|]. by split. }
  assert (forall k c, channels_ ex_registry !! k = Some c -> ch_id c = k) as Hk.
  { intros k c Hc. cbn in Hc. apply lookup_insert_Some in Hc as [[<- <-]|[_ Hc]]; [done|].
    apply lookup_insert_Some in Hc as [[<- <-]|[_ Hc]]; [done | by rewrite lookup_empty in Hc]. }
  exists s1, x1. split; [done|]. intros id.
  by destruct (bots_follow_registry ex_iter (fun V m => reflexivity _) ex_registry ex_service s1 0%nat x1 Hk Hi E) as (_ & Hids & _).
Defined.
End Example.
