(* ===== verification/McpServers.v ===== *)
(** * The registry of MCP servers (examples/jiuwenClaw/mcp/mcp_server_manager.cpp)

    The entries the application keeps in mcp_servers.json, and what it hands to the
    framework ([McpManager]). *)
From Stdlib Require Import ZArith Lia String Ascii List.
From stdpp Require Import base decidable list strings gmap.
From S2P Require Import Prelude Encoding JsonLib Files AtomicFile ResourceManager McpManager.
Open Scope Z_scope.

Record McpServerEntry := mkMcpServerEntry {
  me_id : string;
  me_name : string;
  me_description : string;
  me_enabled : bool;
  me_type : string;
  me_url : string;
  me_endpoint : string;
  me_command : string;
  me_args : list string;
  me_env : gmap string string;
  me_headers : gmap string string;
  me_connectTimeout : Z;
  me_requestTimeout : Z
}.
Definition set_me_id (id : string) (e : McpServerEntry) : McpServerEntry :=
  mkMcpServerEntry id (me_name e) (me_description e) (me_enabled e) (me_type e) (me_url e) (me_endpoint e)
    (me_command e) (me_args e) (me_env e) (me_headers e) (me_connectTimeout e) (me_requestTimeout e).

Record McpServerManager := mkMcpServerManager { ms_path : string; ms_servers : gmap string McpServerEntry }.
Definition set_ms (m : gmap string McpServerEntry) (s : McpServerManager) : McpServerManager :=
  mkMcpServerManager (ms_path s) m.

Definition EntryToConfig (e : McpServerEntry) : McpServerConfig :=
  mkMcpServerConfig (me_id e) (me_name e) (me_description e) (me_enabled e) (me_type e) (me_url e) (me_endpoint e)
    (me_command e) (me_args e) (me_env e) (me_headers e) (me_connectTimeout e) (me_requestTimeout e).

Section Manager.
Context {X J : Type} `{FileSystem X, FileRename X, Json J}.

Definition entry_fields (e : McpServerEntry) : list (string * J) :=
  [("id", j_string (me_id e)); ("name", j_string (me_name e)); ("description", j_string (me_description e));
   ("enabled", j_bool (me_enabled e)); ("type", j_string (me_type e)); ("url", j_string (me_url e));
   ("endpoint", j_string (me_endpoint e)); ("command", j_string (me_command e));
   ("args", j_array (map j_string (me_args e))); ("connectTimeoutSeconds", j_int (me_connectTimeout e));
   ("requestTimeoutSeconds", j_int (me_requestTimeout e)); ("env", text_map (me_env e));
   ("headers", text_map (me_headers e))].
Definition server_entry_json (e : McpServerEntry) : J := j_fields (entry_fields e).

Definition servers_json (s : McpServerManager) : J :=
  j_fields [("version", j_int 1); ("servers", j_array (map (fun e => server_entry_json e.2) (fields_of (ms_servers s))))].

Definition ServerSaveToFile (s : McpServerManager) (x : X) : X :=
  if str_empty (ms_path s) then x else replace_file (ms_path s) (servers_json s) x.

(** The string members of an object under a key. *)
Definition string_members (key : string) (j : J) : gmap string string :=
  match jfield key j with
  | Some v =>
      match json_view v with
      | JObject m => omap (fun w => match json_view w with JString s => Some s | _ => None end) m
      | _ => ∅
      end
  | None => ∅
  end.

Definition read_entry (item : J) : outcome McpServerEntry :=
  id <-- value_str "id" "" item ;;
  name <-- value_str "name" "" item ;;
  description <-- value_str "description" "" item ;;
  enabled <-- value_bool "enabled" true item ;;
  type <-- value_str "type" "" item ;;
  url <-- value_str "url" "" item ;;
  endpoint <-- value_str "endpoint" "" item ;;
  command <-- value_str "command" "" item ;;
  connect <-- value_int "connectTimeoutSeconds" 3 item ;;
  request <-- value_int "requestTimeoutSeconds" 10 item ;;
  Ok (mkMcpServerEntry id name description enabled type url endpoint command
        (string_elements (default [] (array_field "args" item))) (string_members "env" item)
        (string_members "headers" item) connect request).

(** What was read stays when an item throws. *)
Fixpoint read_servers (l : list J) (m : gmap string McpServerEntry) : gmap string McpServerEntry * bool :=
  match l with
  | [] => (m, true)
  | item :: l =>
      if negb (is_object item) then read_servers l m
      else
        match read_entry item with
        | Throw _ => (m, false)
        | Ok e => read_servers l (if str_empty (me_id e) then m else <[me_id e := e]> m)
        end
  end.

(** A top-level array is the older form. *)
Definition servers_of (doc : J) : option (list J) :=
  if is_array doc then Some (elements_of doc) else array_field "servers" doc.

Definition ServerLoad (s : McpServerManager) (x : X) : McpServerManager * outcome bool :=
  if str_empty (ms_path s) then (s, Ok false)
  else
    match fs_exists (ms_path s) x with
    | Throw e => (s, Throw e)
    | Ok false => (s, Ok false)
    | Ok true =>
        match json_parse (J := J) (default "" (fs_read (ms_path s) x)) with
        | Throw _ => (s, Ok false)
        | Ok doc =>
            match servers_of doc with
            | None => (s, Ok false)
            | Some l => let '(m, ok) := read_servers l ∅ in (set_ms m s, Ok ok)
            end
        end
    end.

Definition AddServer (entry : McpServerEntry) (s : McpServerManager) (x : X) : McpServerManager * X :=
  if str_empty (me_id entry) then (s, x)
  else let s := set_ms (<[me_id entry := entry]> (ms_servers s)) s in (s, ServerSaveToFile s x).

Definition UpdateServer (id : string) (entry : McpServerEntry) (s : McpServerManager) (x : X) : McpServerManager * X :=
  match ms_servers s !! id with
  | None => (s, x)
  | Some _ => let s := set_ms (<[id := set_me_id id entry]> (ms_servers s)) s in (s, ServerSaveToFile s x)
  end.

(** [RemoveServer] saves also when there was none. *)
Definition DropServer (id : string) (s : McpServerManager) (x : X) : McpServerManager * X :=
  let s := set_ms (delete id (ms_servers s)) s in (s, ServerSaveToFile s x).

Definition GetAllServers (s : McpServerManager) : list McpServerEntry := map snd (fields_of (ms_servers s)).
Definition ToFrameworkConfigs (s : McpServerManager) : list McpServerConfig :=
  map EntryToConfig (List.filter me_enabled (GetAllServers s)).
Definition ToFrameworkConfig (id : string) (s : McpServerManager) : option McpServerConfig :=
  EntryToConfig <$> ms_servers s !! id.

Inductive server_op := SvAdd (e : McpServerEntry) | SvUpdate (id : string) (e : McpServerEntry) | SvRemove (id : string) | SvSave.
Definition server_step (op : server_op) (s : McpServerManager) (x : X) : McpServerManager * X :=
  match op with
  | SvAdd e => AddServer e s x
  | SvUpdate id e => UpdateServer id e s x
  | SvRemove id => DropServer id s x
  | SvSave => (s, ServerSaveToFile s x)
  end.
Definition server_run (ops : list server_op) (s : McpServerManager) (x : X) : McpServerManager * X :=
  fold_left (fun c op => server_step op c.1 c.2) ops (s, x).
End Manager.

(** ** The registry survives a restart *)

Definition texts_ok (m : gmap string string) : Prop := forall k v, m !! k = Some v -> utf8 k /\ utf8 v.
Definition entry_ok (e : McpServerEntry) : Prop :=
  Forall utf8 [me_id e; me_name e; me_description e; me_type e; me_url e; me_endpoint e; me_command e] /\
  Forall utf8 (me_args e) /\ texts_ok (me_env e) /\ texts_ok (me_headers e) /\
  is_int (me_connectTimeout e) /\ is_int (me_requestTimeout e).
Definition servers_ok (m : gmap string McpServerEntry) : Prop :=
  forall k e, m !! k = Some e -> me_id e = k /\ str_empty k = false /\ entry_ok e.

Section Restart.
Context {X J : Type} `{FileSystemLaws X, FileRename X, !FileRenameLaws X, JsonLaws J}.

Lemma string_members_text key (l : list (string * J)) m : assoc_last key l = Some (text_map m) ->
  string_members key (j_fields l) = m.
Proof.
  intros Hl. unfold string_members. rewrite jfield_j_fields, Hl. unfold text_map. rewrite view_j_object.
  apply map_eq. intros k. rewrite lookup_omap, lookup_fmap. destruct (m !! k) as [s|]; [|done]. cbn. by rewrite view_j_string.
Qed.

Lemma read_entry_json e : is_int (me_connectTimeout e) -> is_int (me_requestTimeout e) -> read_entry (server_entry_json e : J) = Ok e.
Proof.
  intros Hc Hr. unfold read_entry, server_entry_json, value_str, value_bool.
  rewrite (string_members_text "env" _ (me_env e)) by done. rewrite (string_members_text "headers" _ (me_headers e)) by done.
  assert (array_field "args" (j_fields (entry_fields e) : J) = Some (map j_string (me_args e))) as ->.
  { rewrite array_field_j_fields. cbn [assoc_last entry_fields String.eqb Ascii.eqb Bool.eqb]. by rewrite view_j_array. }
  change (default [] (Some ?l)) with l. rewrite !value_of_fields, !value_int_j_fields.
  cbn [assoc_last entry_fields String.eqb Ascii.eqb Bool.eqb obind default]. unfold get_string, get_bool. rewrite !view_j_string, view_j_bool.
  cbn [obind]. rewrite (get_int_ok _ (me_connectTimeout e)) by (apply view_j_int || done). cbn [obind].
  rewrite (get_int_ok _ (me_requestTimeout e)) by (apply view_j_int || done). cbn [obind].
  rewrite string_elements_map. by destruct e.
Qed.

Lemma read_servers_json (l : list (string * McpServerEntry)) m :
  (forall e, e ∈ l -> me_id e.2 = e.1 /\ str_empty e.1 = false /\ entry_ok e.2) ->
  read_servers (map (fun e => server_entry_json e.2) l : list J) m = (fold_left (fun m e => <[e.1 := e.2]> m) l m, true).
Proof.
  revert m. induction l as [|e l IH]; intros m Hl; [done|]. cbn [map read_servers fold_left].
  destruct (Hl e ltac:(left)) as (Hid & Hne & _ & _ & _ & _ & Hc & Hr).
  unfold is_object, server_entry_json at 1, j_fields. rewrite view_j_object. cbn [negb].
  rewrite read_entry_json, Hid, Hne by done. apply IH. intros e' He'. apply Hl. by right.
Qed.

Lemma entry_plain e : entry_ok e -> json_plain (server_entry_json e : J).
Proof.
  intros (Ht & Ha & He & Hh & _). rewrite !Forall_cons in Ht. destruct Ht as (? & ? & ? & ? & ? & ? & ? & _).
  apply json_plain_fields. intros k v Hk. unfold entry_fields in Hk.
  repeat (apply elem_of_cons in Hk as [[= -> ->]|Hk];
    [split; [by apply utf8_ascii|];
     first [by apply json_plain_string | by eapply plain_bool, view_j_bool | by eapply plain_int, view_j_int
           | by apply text_map_plain
           | apply json_plain_array; intros w (s & -> & Hs)%list_elem_of_fmap; rewrite Forall_forall in Ha; by apply json_plain_string, Ha]|]).
  by apply elem_of_nil in Hk.
Qed.

Lemma servers_plain s : servers_ok (ms_servers s) -> json_plain (servers_json s : J).
Proof.
  intros Hm. apply json_plain_fields. intros k v Hk. apply elem_of_cons in Hk as [[= -> ->]|Hk].
  { split; [by apply utf8_ascii | by eapply plain_int, view_j_int]. }
  apply list_elem_of_singleton in Hk as [= -> ->]. split; [by apply utf8_ascii|]. apply json_plain_array.
  intros w ([k e] & -> & He%elem_of_fields_of)%list_elem_of_fmap. apply entry_plain. by destruct (Hm k e He) as (_ & _ & ?).
Qed.

Definition servers_agree (s : McpServerManager) (x : X) : Prop :=
  ms_servers (ServerLoad (J := J) (mkMcpServerManager (ms_path s) ∅) x).1 = ms_servers s.

Lemma saved_agree s x : str_empty (ms_path s) = false -> takes (ms_path s) -> servers_ok (ms_servers s) ->
  servers_agree s (ServerSaveToFile (J := J) s x).
Proof.
  intros Hp Ht Hm. unfold servers_agree, ServerSaveToFile, ServerLoad. cbn [ms_path]. rewrite Hp.
  destruct (replaced (ms_path s) (servers_json s : J) x Ht (servers_plain s Hm)) as (He & text & Er & Ep).
  rewrite He, Er. change (default "" (Some text)) with text. rewrite Ep. unfold servers_of, is_array.
  assert (array_field "servers" (servers_json s : J) = Some (map (fun e => server_entry_json e.2) (fields_of (ms_servers s)))) as ->.
  { unfold servers_json. rewrite array_field_j_fields. cbn [assoc_last String.eqb Ascii.eqb Bool.eqb]. by rewrite view_j_array. }
  unfold servers_json at 1, j_fields. rewrite view_j_object.
  rewrite read_servers_json; [cbn [fst set_ms ms_servers]; by rewrite insert_fields|].
  intros [k e] Hk%elem_of_fields_of. by apply Hm.
Qed.

Definition server_op_ok (op : server_op) : Prop :=
  match op with SvAdd e => entry_ok e | SvUpdate id e => utf8 id /\ entry_ok e | _ => True end.
Definition server_inv (s : McpServerManager) (x : X) : Prop := servers_ok (ms_servers s) /\ servers_agree s x.

Lemma servers_insert m k e : servers_ok m -> me_id e = k -> str_empty k = false -> entry_ok e -> servers_ok (<[k := e]> m).
Proof. intros Hm ? ? ? k' e' Hk'. apply lookup_insert_Some in Hk' as [[<- <-]|[_ Hk']]; [done | by apply Hm]. Qed.

Lemma entry_ok_id id e : utf8 id -> entry_ok e -> entry_ok (set_me_id id e).
Proof. intros Hid (Ht & Hrest). split; [|exact Hrest]. inversion Ht; by constructor. Qed.

Lemma server_step_inv op s x : str_empty (ms_path s) = false -> takes (ms_path s) -> server_op_ok op -> server_inv s x ->
  let r := server_step (J := J) op s x in server_inv r.1 r.2 /\ ms_path r.1 = ms_path s.
Proof.
  intros Hp Ht Hop (Hm & Ha).
  assert (forall m, servers_ok m -> server_inv (set_ms m s) (ServerSaveToFile (J := J) (set_ms m s) x)) as Hsave
    by (intros m Hm'; split; [done | by apply saved_agree]).
  destruct op as [e|id e|id|]; cbn [server_step server_op_ok] in *.
  - unfold AddServer. destruct (str_empty (me_id e)) eqn:Ee; [done|]. split; [|done]. apply Hsave. by apply servers_insert.
  - unfold UpdateServer. destruct (ms_servers s !! id) as [e0|] eqn:E; [|done]. destruct (Hm id e0 E) as (_ & Hid & _), Hop.
    split; [|done]. apply Hsave. apply servers_insert; [done..|]. by apply entry_ok_id.
  - split; [|done]. apply Hsave. intros k e Hk. apply lookup_delete_Some in Hk as [_ Hk]. by apply Hm.
  - split; [|done]. split; [done | by apply saved_agree].
Qed.

Lemma server_run_inv ops s x : str_empty (ms_path s) = false -> takes (ms_path s) -> Forall server_op_ok ops ->
  server_inv s x -> let r := server_run (J := J) ops s x in server_inv r.1 r.2 /\ ms_path r.1 = ms_path s.
Proof.
  intros Hp Ht Hops. revert s x Hp Ht. induction Hops as [|op ops Hop Hops IH]; intros s x Hp Ht Hi; [done|].
  unfold server_run in *. cbn [fold_left fst snd]. destruct (server_step_inv op s x Hp Ht Hop Hi) as [Hi1 Hp1].
  destruct (server_step op s x) as [s1 x1]. cbn [fst snd] in *. rewrite <- Hp1. apply IH; by rewrite ?Hp1.
Qed.

(** Whatever servers are added, changed and removed, a new process that loads the
    file has the same ones and hands the same configurations to the framework. *)
Theorem servers_survive_restart ops s x : str_empty (ms_path s) = false -> takes (ms_path s) ->
  Forall server_op_ok ops -> server_inv s x ->
  let '(s1, x1) := server_run (J := J) ops s x in
  exists s2 b, ServerLoad (J := J) (mkMcpServerManager (ms_path s) ∅) x1 = (s2, b) /\
    GetAllServers s2 = GetAllServers s1 /\ ToFrameworkConfigs s2 = ToFrameworkConfigs s1.
Proof.
  intros Hp Ht Hops Hi. pose proof (server_run_inv ops s x Hp Ht Hops Hi) as Hr.
  destruct (server_run ops s x) as [s1 x1]. destruct Hr as [(_ & Ha) Hp1]. cbn [fst snd] in *.
  unfold servers_agree in Ha. rewrite Hp1 in Ha. destruct (ServerLoad _ x1) as [s2 b]. exists s2, b.
  unfold ToFrameworkConfigs, GetAllServers. cbn [fst] in Ha. by rewrite Ha.
Qed.
End Restart.

(** ** Example *)

Section Example.
#[local] Instance ex_json : Json JsonTree.json := JsonTree.instance [].
#[local] Instance ex_laws : JsonLaws JsonTree.json := JsonTree.laws [] ltac:(by intros ? ?%elem_of_nil).

Definition ex_entry (id : string) (enabled : bool) : McpServerEntry :=
  mkMcpServerEntry id "n" "" enabled "stdio" "" "" "npx" ["-y"] ∅ ∅ 3 10.
Definition ex_server_ops : list server_op := [SvAdd (ex_entry "a" true); SvAdd (ex_entry "b" false); SvUpdate "b" (ex_entry "" true); SvRemove "a"].

Lemma ex_entry_ok id b : utf8 id -> entry_ok (ex_entry id b).
Proof.
  intros Hid. assert (utf8 "n" /\ utf8 "" /\ utf8 "stdio" /\ utf8 "npx" /\ utf8 "-y") as (? & ? & ? & ? & ?)
    by (split_and!; by apply utf8_ascii).
  split; [by repeat constructor|]. split; [by repeat constructor|].
  split; [by intros k v Hk; cbn [me_env me_headers ex_entry] in Hk; rewrite lookup_empty in Hk|]. split; [by intros k v Hk; cbn [me_env me_headers ex_entry] in Hk; rewrite lookup_empty in Hk|]. split; unfold is_int; cbn; lia.
Qed.

Lemma servers_survive_restart_witness :
  exists s2 b, ServerLoad (J := JsonTree.json) (mkMcpServerManager "m.json" ∅)
    (server_run (J := JsonTree.json) ex_server_ops (mkMcpServerManager "m.json" ∅) (MemDisk.mkDisk [] 0)).2 = (s2, b) /\
    GetAllServers s2 = [ex_entry "b" true].
Proof.
  assert (Forall server_op_ok ex_server_ops) as Hops
    by (repeat (apply Forall_cons; split); try (by apply Forall_nil); cbn [server_op_ok];
        [apply ex_entry_ok | apply ex_entry_ok | split; [|apply ex_entry_ok] | exact I]; by apply utf8_ascii).
  assert (server_inv (J := JsonTree.json) (mkMcpServerManager "m.json" ∅) (MemDisk.mkDisk [] 0)) as Hi
    by (split; [intros k e Hk; cbn [ms_servers] in Hk; by rewrite lookup_empty in Hk | by vm_compute]).
  pose proof (servers_survive_restart (J := JsonTree.json) ex_server_ops (mkMcpServerManager "m.json" ∅) (MemDisk.mkDisk [] 0)
    eq_refl (mem_takes "m.json" eq_refl) Hops Hi) as Ht.
  destruct (server_run ex_server_ops _ _) as [s1 x1] eqn:Er. cbn [ms_path] in Ht. destruct Ht as (s2 & b & E & Eg & _).
  exists s2, b. split; [exact E|]. rewrite Eg.
  assert (s1 = (server_run (J := JsonTree.json) ex_server_ops (mkMcpServerManager "m.json" ∅) (MemDisk.mkDisk [] 0)).1) as -> by (by rewrite Er).
  vm_compute. reflexivity.
Defined.
End Example.
