(* ===== verification/HttpStream.v ===== *)
(** * Streamed answers (examples/jiuwenClaw/adapters/http_server/http_server.cpp)

    The callback that turns the output of the agent into server-sent events, the queue
    between the thread of the agent and the content provider of the response, and what a
    client reads: every event, in order, once, and then the result. *)
From Stdlib Require Import ZArith Lia String Ascii List.
From stdpp Require Import base decidable list strings gmap.
From S2P Require Import Prelude Encoding JsonLib FeishuBot.
Open Scope Z_scope.

(** ** From output to events *)

Fixpoint drop_front (p : ascii -> bool) (s : string) : string :=
  match s with String c s' => if p c then drop_front p s' else s | "" => "" end.
Definition is_blank_c (c : ascii) : bool := Ascii.eqb c " ".
Definition is_nl_c (c : ascii) : bool := Ascii.eqb c NL.
Definition blank_or_nl (c : ascii) : bool := is_blank_c c || is_nl_c c.

(** [[TOOL_RESPONSE]] or [[TOOL_RESPONSE id]], with the id before the payload. *)
Definition tool_response_data (resp : string) (pos : nat) : string :=
  let data :=
    match find_char "]" resp pos with
    | None => str_drop (pos + 14) resp
    | Some closeBracket =>
        let header := drop_front is_blank_c (substr resp (pos + 14) (closeBracket - pos - 14)) in
        let payload := drop_front is_blank_c (str_drop (closeBracket + 1) resp) in
        if str_empty header then payload else header +:+ ": " +:+ payload
    end in
  drop_front is_nl_c data.

Definition ask_user_data (resp : string) (pos : nat) : string :=
  let startData := (pos + 10)%nat in
  drop_front blank_or_nl
    (match find_str "[/ASK_USER]" resp pos with
     | Some endPos => substr resp startData (endPos - startData)
     | None => str_drop startData resp
     end).

(** The type and the data of an event; the first tag that occurs decides. *)
Definition classify (resp : string) : string * string :=
  match find_str "[STREAM]" resp 0 with
  | Some pos => ("stream", str_drop (pos + 8) resp)
  | None =>
  match find_str "[STATUS]" resp 0 with
  | Some pos => ("status", drop_front is_blank_c (str_drop (pos + 8) resp))
  | None =>
  match find_str "[TOOL_CALLS]" resp 0 with
  | Some pos => ("tool_call", drop_front blank_or_nl (str_drop (pos + 12) resp))
  | None =>
  match find_str "[TOOL_RESPONSE" resp 0 with
  | Some pos => ("tool_response", tool_response_data resp pos)
  | None =>
  match find_str "[ASK_USER]" resp 0 with
  | Some pos => ("ask_user", ask_user_data resp pos)
  | None =>
  match find_str "[FINAL]" resp 0 with
  | Some _ => ("done", "")
  | None => ("message", resp)
  end end end end end end.

(** The [data] lines of a text. *)
Fixpoint data_lines (cur s : string) : string :=
  match s with
  | "" => "data: " +:+ cur +:+ nl
  | String c s' => if Ascii.eqb c NL then "data: " +:+ cur +:+ nl +:+ data_lines "" s' else data_lines (cur +:+ String c "") s'
  end.

Section Stream.
Context {J : Type} `{Json J}.

Definition stream_data (eventType data : string) : outcome string :=
  if String.eqb eventType "stream" then (t <-- json_dump None (j_string data : J) ;; Ok ("data: " +:+ t +:+ nl))
  else Ok (data_lines "" data).
(** [None] when there is nothing to send. *)
Definition sse_event (resp : string) : outcome (option string) :=
  if str_empty resp then Ok None
  else
    let '(eventType, data) := classify resp in
    let data := str_filter (fun c => negb (Ascii.eqb c CR)) data in
    if str_empty data then Ok None
    else lines <-- stream_data eventType data ;; Ok (Some ("event: " +:+ eventType +:+ nl +:+ lines +:+ nl)).

Definition chat_result_json (sessionId : string) (r : InvokeResult) : J :=
  j_fields ([("session_id", j_string sessionId); ("success", j_bool (ir_success r)); ("content", j_string (ir_content r))]
            ++ (if ir_success r then [] else [("error", j_string (ir_error r))])).
Definition done_event (sessionId : string) (r : InvokeResult) : outcome string :=
  text <-- json_dump None (chat_result_json sessionId r) ;; Ok ("event: done" +:+ nl +:+ "data: " +:+ text +:+ nl +:+ nl).

(** ** The queue

    The callback and the content provider run under one mutex, so each is one step. *)
Record SseContext := mkSse {
  sse_events : list string;
  sse_done : option (string * InvokeResult);
  sse_out : string;
  sse_ended : bool;
  sse_failed : bool
}.
Definition new_sse : SseContext := mkSse [] None "" false false.

(** The callback; an exception goes to the agent. *)
Definition stream_callback (resp : string) (c : SseContext) : SseContext :=
  match sse_event resp with
  | Ok (Some e) => mkSse (sse_events c ++ [e]) (sse_done c) (sse_out c) (sse_ended c) (sse_failed c)
  | _ => c
  end.

Definition agent_done (sessionId : string) (r : InvokeResult) (c : SseContext) : SseContext :=
  mkSse (sse_events c) (Some (sessionId, r)) (sse_out c) (sse_ended c) (sse_failed c).

(** The writes of the provider; [sink] says whether the next write goes through. *)
Fixpoint write_events (sink : nat -> bool) (i : nat) (events : list string) (out : string) : list string * string * bool :=
  match events with
  | [] => ([], out, true)
  | e :: rest => if sink i then write_events sink (S i) rest (out +:+ e) else (events, out, false)
  end.

(** One call of the provider, once its wait is over. *)
Definition provide (sink : nat -> bool) (c : SseContext) : SseContext :=
  let '(rest, out, ok) := write_events sink 0 (sse_events c) (sse_out c) in
  if negb ok then mkSse rest (sse_done c) out true true
  else
    match sse_done c with
    | None => mkSse rest None out (sse_ended c) (sse_failed c)
    | Some (sessionId, r) =>
        match done_event sessionId r with
        | Ok e => if sink (length (sse_events c)) then mkSse rest (sse_done c) (out +:+ e) true (sse_failed c)
                  else mkSse rest (sse_done c) out true true
        | Throw _ => mkSse rest (sse_done c) out true true
        end
    end.

Inductive sse_label := LChunk (resp : string) | LDone (sessionId : string) (r : InvokeResult) | LProvide.
Inductive sse_step : SseContext -> sse_label -> SseContext -> Prop :=
  | step_callback c resp : sse_done c = None -> sse_step c (LChunk resp) (stream_callback resp c)
  | step_agent_done c sid r : sse_done c = None -> sse_step c (LDone sid r) (agent_done sid r c)
  | step_provide c sink : sse_ended c = false -> sse_events c <> [] \/ is_Some (sse_done c) -> sse_step c LProvide (provide sink c).
Inductive sse_run : list sse_label -> SseContext -> Prop :=
  | sse_start : sse_run [] new_sse
  | sse_next tr c l c1 : sse_run tr c -> sse_step c l c1 -> sse_run (tr ++ [l]) c1.
End Stream.

(** ** The client

    How a browser reads an event stream: fields of lines, an event at each blank line,
    the data lines joined. *)
Definition field_value (n : nat) (line : string) : string :=
  match str_drop n line with String c v => if is_blank_c c then v else String c v | "" => "" end.
Definition join_nl (l : list string) : string :=
  match l with [] => "" | s :: l => s +:+ string_concat (map (fun t => nl +:+ t) l) end.
Fixpoint client_lines (lines : list string) (ev : string) (data : list string) : list (string * string) :=
  match lines with
  | [] => []
  | l :: lines =>
      if str_empty l then
        match data with
        | [] => client_lines lines "" []
        | _ => (if str_empty ev then "message" else ev, join_nl data) :: client_lines lines "" []
        end
      else if starts_with "event:" l then client_lines lines (field_value 6 l) data
      else if starts_with "data:" l then client_lines lines ev (data ++ [field_value 5 l])
      else client_lines lines ev data
  end.
Definition sse_client (s : string) : list (string * string) := client_lines (getlines s) "" [].

(** The lines of a text, the last one too when it is empty. *)
Fixpoint pieces (cur s : string) : list string :=
  match s with
  | "" => [cur]
  | String c s' => if Ascii.eqb c NL then cur :: pieces "" s' else pieces (cur +:+ String c "") s'
  end.

Lemma data_lines_pieces cur s : data_lines cur s = string_concat (map (fun p => "data: " +:+ p +:+ nl) (pieces cur s)).
Proof.
  revert cur. induction s as [|c s IH]; intros cur; cbn [data_lines pieces map string_concat fold_right];
    [by rewrite str_app_nil_r|]. destruct (Ascii.eqb c NL); [|apply IH]. cbn [map string_concat fold_right].
  rewrite IH, !str_app_assoc. done.
Qed.

Lemma pieces_spec cur s : occurs NL cur = false ->
  join_nl (pieces cur s) = cur +:+ s /\ Forall (fun p => occurs NL p = false) (pieces cur s).
Proof.
  revert cur. induction s as [|c s IH]; intros cur Hc; cbn [pieces].
  { cbn. rewrite !str_app_nil_r. split; [done | by constructor]. }
  destruct (Ascii.eqb_spec c NL) as [->|Hne].
  - destruct (IH "" eq_refl) as [Hj Hp]. split; [|by constructor]. cbn [join_nl].
    assert (pieces "" s <> []) as Hn by (clear; generalize ""; induction s as [|d s IH]; intros cur; [done|]; cbn; by destruct (Ascii.eqb d NL)).
    destruct (pieces "" s) as [|p ps]; [done|]. cbn [join_nl map string_concat fold_right] in *. rewrite !str_app_assoc.
    cbn. f_equal. f_equal. exact Hj.
  - destruct (IH (cur +:+ String c "")) as [Hj Hp].
    { rewrite occurs_app, Hc. cbn [occurs orb]. rewrite orb_false_r. apply Ascii.eqb_neq. congruence. }
    split; [|done]. rewrite Hj, str_app_assoc. done.
Qed.

Lemma getlines_line l rest : occurs NL l = false -> getlines (l +:+ nl +:+ rest) = l :: getlines rest.
Proof. intros Hl. unfold getlines. by rewrite getlines_aux_line. Qed.

(** A blank line after data lines sends them. *)
Lemma client_data ev ps data rest : Forall (fun p => occurs NL p = false) ps -> data ++ ps <> [] ->
  client_lines (getlines (string_concat (map (fun p => "data: " +:+ p +:+ nl) ps) +:+ nl +:+ rest)) ev data
  = (if str_empty ev then "message" else ev, join_nl (data ++ ps)) :: client_lines (getlines rest) "" [].
Proof.
  intros Hp. revert data. induction Hp as [|p ps Hp _ IH]; intros data Hne; cbn [map string_concat fold_right].
  - rewrite app_nil_r in *. change (("" : string) +:+ nl +:+ rest) with (("" : string) +:+ (nl +:+ rest)).
    rewrite (getlines_line "") by done. cbn [client_lines str_empty]. by destruct data.
  - rewrite !str_app_assoc. change ("data: " +:+ (p +:+ ?r)) with (("data: " +:+ p) +:+ r).
    rewrite getlines_line by (by rewrite occurs_app). cbn [client_lines]. cbn [str_empty String.append starts_with Ascii.eqb Bool.eqb].
    change (field_value 5 (String "d" _)) with p. fold (string_concat (map (fun p => "data: " +:+ p +:+ nl) ps)).
    rewrite IH by (by destruct data). by rewrite <- app_assoc.
Qed.

Lemma client_frame ty ps rest : ty <> "" -> occurs NL ty = false -> Forall (fun p => occurs NL p = false) ps -> ps <> [] ->
  client_lines (getlines ("event: " +:+ ty +:+ nl +:+ string_concat (map (fun p => "data: " +:+ p +:+ nl) ps) +:+ nl +:+ rest)) "" []
  = (ty, join_nl ps) :: client_lines (getlines rest) "" [].
Proof.
  intros Hty Hn Hp Hne. change ("event: " +:+ (ty +:+ ?r)) with (("event: " +:+ ty) +:+ r).
  rewrite getlines_line by (by rewrite occurs_app). cbn [client_lines]. cbn [str_empty String.append starts_with Ascii.eqb Bool.eqb].
  change (field_value 6 (String "e" _)) with ty. rewrite client_data by (by destruct ps). cbn [app].
  by rewrite (proj2 (str_empty_false ty) Hty).
Qed.

Lemma classify_type resp : fst (classify resp) <> "" /\ occurs NL (fst (classify resp)) = false.
Proof. unfold classify. repeat case_match; split; done. Qed.

Section Delivered.
Context {J : Type} `{JsonLaws J}.

(** What a chunk of output is to the client. *)
Definition client_event (resp : string) : option (string * string) :=
  let '(eventType, data) := classify resp in
  let data := str_filter (fun c => negb (Ascii.eqb c CR)) data in
  if str_empty resp || str_empty data then None
  else if String.eqb eventType "stream" then
    match json_dump None (j_string data : J) with Ok t => Some (eventType, t) | Throw _ => None end
  else Some (eventType, data).

(** An event is what its chunk is to the client, and nothing else of the stream is touched. *)
Lemma sse_event_read resp rest :
  match sse_event (J := J) resp with
  | Ok (Some e) => exists v, client_event resp = Some v /\
      client_lines (getlines (e +:+ rest)) "" [] = v :: client_lines (getlines rest) "" []
  | _ => client_event resp = None
  end.
Proof.
  unfold sse_event, client_event. pose proof (classify_type resp) as [Ht Hn].
  destruct (classify resp) as [ty data]. cbn [fst] in Ht, Hn. destruct (str_empty resp); [done|].
  set (d := str_filter _ data). destruct (str_empty d); [done|]. cbn [orb]. unfold stream_data.
  destruct (String.eqb ty "stream").
  - destruct (json_dump None (j_string d)) as [t|?] eqn:Ed; [|done]. cbn [obind].
    eexists; split; [reflexivity|]. destruct (dump_one_line _ _ Ed) as [_ Hl].
    rewrite !str_app_assoc. pose proof (client_frame ty [t] rest Ht Hn) as Hf.
    cbn [map string_concat fold_right] in Hf. rewrite !str_app_assoc in Hf. cbn [join_nl map string_concat fold_right] in Hf.
    rewrite str_app_nil_r in Hf. apply Hf; [by repeat constructor | done].
  - cbn [obind]. eexists; split; [reflexivity|]. rewrite data_lines_pieces, !str_app_assoc.
    destruct (pieces_spec "" d eq_refl) as [Hj Hp]. cbn [String.append] in Hj. rewrite <- Hj at 2.
    apply client_frame; try done. clear. generalize "". induction d as [|c d IH]; intros cur; [done|].
    cbn [pieces]. by destruct (Ascii.eqb c NL).
Qed.

(** The events of the chunks of a run. *)
Definition chunk_event (l : sse_label) : option string :=
  match l with LChunk resp => match sse_event (J := J) resp with Ok (Some e) => Some e | _ => None end | _ => None end.
Definition chunks (tr : list sse_label) : list string :=
  omap (fun l => match l with LChunk resp => Some resp | _ => None end) tr.

Lemma write_events_spec sink i events out :
  let '(rest, out', ok) := write_events sink i events out in
  out' +:+ string_concat rest = out +:+ string_concat events /\ (ok = true -> rest = []).
Proof.
  revert i out. induction events as [|e events IH]; intros i out; cbn [write_events]; [done|].
  destruct (sink i); [|done]. specialize (IH (S i) (out +:+ e)). destruct (write_events _ _ _ _) as [[rest out'] ok].
  destruct IH as [-> ?]. split; [|done]. cbn [string_concat fold_right]. by rewrite str_app_assoc.
Qed.

(** What is queued and what is written make up the events, in order. *)
Definition sse_inv (tr : list sse_label) (c : SseContext) : Prop :=
  (forall sid r, LDone sid r ∈ tr <-> sse_done c = Some (sid, r)) /\
  (sse_failed c = false ->
   if sse_ended c then exists sid r e, sse_done c = Some (sid, r) /\ done_event (J := J) sid r = Ok e /\
                         sse_out c = string_concat (omap chunk_event tr) +:+ e
   else sse_out c +:+ string_concat (sse_events c) = string_concat (omap chunk_event tr)).

Lemma sse_inv_run tr c : sse_run (J := J) tr c -> sse_inv tr c.
Proof.
  induction 1 as [|tr c l c1 _ [Hd Hi] Hs]; [split; [|done]; intros ??; split; [by intros ?%elem_of_nil|done]|].
  destruct Hs as [c resp Hn | c sid r Hn | c sink He Hw].
  - assert (sse_done (stream_callback (J := J) resp c) = None) as Hn'
      by (unfold stream_callback; by destruct (sse_event resp) as [[?|]|]).
    split.
    { intros sid r. rewrite elem_of_app, list_elem_of_singleton, Hd, Hn, Hn'. split; [by intros [|]|done]. }
    unfold stream_callback. rewrite omap_app. cbn [omap list_omap chunk_event].
    destruct (sse_event resp) as [[e|]|]; cbn [sse_failed sse_ended sse_out sse_events sse_done]; intros Hf; specialize (Hi Hf);
      destruct (sse_ended c); try (destruct Hi as (? & ? & ? & ? & ?); congruence);
      rewrite ?app_nil_r; try done.
    rewrite !string_concat_app, <- Hi, !str_app_assoc. done.
  - split.
    { intros sid' r'. rewrite elem_of_app, list_elem_of_singleton, Hd, Hn. cbn [sse_done agent_done].
      split; [intros [|]; congruence | intros [= -> ->]; by right]. }
    rewrite omap_app. cbn [omap list_omap chunk_event agent_done sse_failed sse_ended sse_out sse_events sse_done]. intros Hf. specialize (Hi Hf).
    rewrite app_nil_r. destruct (sse_ended c); [|done]. destruct Hi as (? & ? & ? & ? & ?); congruence.
  - assert (sse_done (provide (J := J) sink c) = sse_done c) as Hn.
    { unfold provide. repeat case_match; cbn [sse_done]; congruence. }
    split.
    { intros sid r. rewrite elem_of_app, list_elem_of_singleton, Hd, Hn. split; [by intros [|]|by left]. }
    rewrite omap_app. cbn [omap list_omap chunk_event]. rewrite app_nil_r. rewrite He in Hi.
    pose proof (write_events_spec sink 0 (sse_events c) (sse_out c)) as Hw'. unfold provide.
    destruct (write_events sink 0 (sse_events c) (sse_out c)) as [[rest out] ok]. destruct Hw' as [Hw' Hok].
    destruct ok; cbn [negb]; [|done]. rewrite (Hok eq_refl) in *. cbn [string_concat fold_right] in Hw'. rewrite str_app_nil_r in Hw'.
    destruct (sse_done c) as [[sid r]|] eqn:Ed.
    + destruct (done_event sid r) as [e|?] eqn:Ee; [|done]. case_match; [|done]. cbn [sse_failed sse_ended sse_out sse_events sse_done].
      intros Hf. exists sid, r, e. by rewrite Hw', (Hi Hf).
    + cbn [sse_failed sse_ended sse_out sse_events]. intros Hf. rewrite He. cbn [string_concat fold_right].
      by rewrite str_app_nil_r, Hw', (Hi Hf).
Qed.

Lemma read_events tr rest :
  client_lines (getlines (string_concat (omap chunk_event tr) +:+ rest)) "" []
  = omap client_event (chunks tr) ++ client_lines (getlines rest) "" [].
Proof.
  induction tr as [|l tr IH]; [done|]. unfold chunks. cbn [omap list_omap]. fold (chunks tr).
  destruct l as [resp|sid r|]; cbn [chunk_event]; [|done|done]. cbn [omap list_omap].
  pose proof (sse_event_read resp (string_concat (omap chunk_event tr) +:+ rest)) as Hr.
  destruct (sse_event resp) as [[e|]|]; [|by rewrite Hr|by rewrite Hr]. destruct Hr as (v & -> & Hr).
  cbn [string_concat fold_right]. rewrite str_app_assoc. etransitivity; [exact Hr|]. cbn [app]. by f_equal.
Qed.

(** C29.  What a client of the stream reads.  However the thread of the agent and the
    provider of the response interleave, when the response ends and every write went
    through, the client has every chunk of output that is an event, in the order the agent
    produced them, once each, with its type and its text without carriage returns (lines
    and all), and then one [done] event with the result of the agent. *)
Theorem stream_delivered tr c sid r :
  sse_run (J := J) tr c -> LDone sid r ∈ tr -> sse_ended c = true -> sse_failed c = false ->
  exists text, json_dump None (chat_result_json sid r : J) = Ok text /\
    sse_client (sse_out c) = omap client_event (chunks tr) ++ [("done", text)].
Proof.
  intros Hr Hin He Hf. destruct (sse_inv_run _ _ Hr) as [Hd Hi]. specialize (Hi Hf). rewrite He in Hi.
  destruct Hi as (sid' & r' & e & Hs & Hde & Ho). apply Hd in Hin. rewrite Hin in Hs. injection Hs as <- <-.
  unfold done_event in Hde. destruct (json_dump None (chat_result_json sid r)) as [text|?] eqn:Et; [|done]. exists text. split; [done|].
  injection Hde as <-. unfold sse_client. rewrite Ho, read_events. f_equal.
  destruct (dump_one_line _ _ Et) as [_ Hl]. pose proof (client_frame "done" [text] "") as Hc.
  cbn [map string_concat fold_right join_nl] in Hc. rewrite !str_app_nil_r, !str_app_assoc in Hc.
  apply Hc; [done|done|by repeat constructor|done].
Qed.
End Delivered.

#[local] Instance ex_json : Json JsonTree.json := JsonTree.instance [].
#[local] Instance ex_laws : JsonLaws JsonTree.json := JsonTree.laws [] ltac:(by intros ? ?%elem_of_nil).
Definition ex_trace : list sse_label :=
  [LChunk "[STATUS] working"; LProvide; LChunk "[STREAM]ab"; LChunk ("two" +:+ nl +:+ "lines"); LDone "s" (mkInvokeResult true "" "ab"); LProvide].
Definition ex_end : SseContext :=
  provide (J := JsonTree.json) (fun _ => true) (agent_done "s" (mkInvokeResult true "" "ab")
    (stream_callback (J := JsonTree.json) ("two" +:+ nl +:+ "lines") (stream_callback (J := JsonTree.json) "[STREAM]ab"
      (provide (J := JsonTree.json) (fun _ => true) (stream_callback (J := JsonTree.json) "[STATUS] working" new_sse))))).

Lemma sse_ex_run : sse_run (J := JsonTree.json) ex_trace ex_end.
Proof.
  eapply (sse_next [_; _; _; _; _] _ LProvide); [|apply step_provide; [vm_compute; reflexivity | left; vm_compute; discriminate]].
  eapply (sse_next [_; _; _; _] _ (LDone _ _)); [|by apply step_agent_done].
  eapply (sse_next [_; _; _] _ (LChunk _)); [|by apply step_callback].
  eapply (sse_next [_; _] _ (LChunk _)); [|by apply step_callback].
  eapply (sse_next [_] _ LProvide); [|apply step_provide; [vm_compute; reflexivity | left; vm_compute; discriminate]].
  eapply (sse_next [] _ (LChunk _)); [apply sse_start|by apply step_callback].
Qed.

Lemma stream_delivered_witness :
  exists text, json_dump None (chat_result_json "s" (mkInvokeResult true "" "ab") : JsonTree.json) = Ok text /\
    sse_client (sse_out ex_end) = omap (client_event (J := JsonTree.json)) (chunks ex_trace) ++ [("done", text)].
Proof.
  apply (stream_delivered (J := JsonTree.json) ex_trace ex_end "s" (mkInvokeResult true "" "ab") sse_ex_run);
    [vm_compute; repeat (first [apply list_elem_of_here | apply list_elem_of_further]) | vm_compute; reflexivity | vm_compute; reflexivity].
Defined.
(** What that client reads. *)
Example ex_client : map fst (sse_client (sse_out ex_end)) = ["status"; "stream"; "message"; "done"].
Proof. vm_compute. reflexivity. Qed.
