(* ===== verification/HttpChannels.v ===== *)
(** * The channel endpoints (examples/jiuwenClaw/adapters/http_server/http_server.cpp)

    The replies of the server, and the handlers that list, create, change, delete and
    reload channels: each updates the registry (Channels.v) and then the service that runs
    the bots (ChannelService.v).  The theorem follows both through any requests, handled
    one after another: the registry and the service have a mutex each, and the handlers
    of two requests at once, which may come between the two changes, are not modelled. *)
From Stdlib Require Import ZArith Lia String Ascii List.
From stdpp Require Import base decidable list strings gmap pretty relations.
From S2P Require Import Prelude Numbers Encoding JsonLib Files AtomicFile Channels FeishuChannel FeishuBot ChannelService.
Open Scope Z_scope.

(** ** Replies *)

Record HttpReply := mkReply { rp_status : Z; rp_body : string }.

Section Replies.
Context {J : Type} `{Json J}.

(** [res.set_content(doc.dump(2), "application/json")] with a status; the status of a
    response nobody sets is 200. *)
Definition json_reply (status : Z) (doc : J) : outcome HttpReply :=
  text <-- json_dump (Some 2%nat) doc ;; Ok (mkReply status text).
Definition invalid_json (what : string) : outcome HttpReply :=
  json_reply 400 (j_fields [("error", j_string "Invalid JSON"); ("detail", j_string what)]).
(** The [catch] around a handler. *)
Definition caught (r : outcome HttpReply) : outcome HttpReply :=
  match r with Ok rp => Ok rp | Throw e => invalid_json e end.
Definition id_reply (status : Z) (id flag : string) : outcome HttpReply :=
  json_reply status (j_fields [("id", j_string id); (flag, j_bool true)]).
End Replies.

(** ** The server *)

Record HttpServerConfig := mkHttpServerConfig { hs_host : string; hs_port : Z; enableCors : bool; staticDir : string }.
Record HttpServer := mkHttpServer { hs_running : bool; url_ : string }.

Definition HttpStart (config : HttpServerConfig) (s : HttpServer) : HttpServer :=
  if hs_running s then s
  else mkHttpServer true ("http://" +:+ hs_host config +:+ ":" +:+ to_string (hs_port config)).
Definition HttpStop (s : HttpServer) : HttpServer := mkHttpServer false (url_ s).
(** What is answered before any handler, to a request with CORS enabled. *)
Definition pre_routing (config : HttpServerConfig) (verb : string) : option HttpReply :=
  if enableCors config && String.eqb verb "OPTIONS" then Some (mkReply 204 "") else None.

(** ** The handlers *)

Record Hub (X : Type) := mkHub { hub_channels : ChannelManager; hub_service : ChannelService; hub_world : X }.
Arguments mkHub {X} _ _ _.
Arguments hub_channels {X} _.
Arguments hub_service {X} _.
Arguments hub_world {X} _.

Section Handlers.
Context {X J : Type} `{FileSystem X, FileRename X, FeishuNet X, Json J}.
Variable iter : forall V : Type, gmap string V -> list (string * V).

Definition get_channels (h : Hub X) : outcome HttpReply :=
  json_reply 200 (j_array (map (fun c : ChannelConfig =>
    j_fields [("id", j_string (ch_id c)); ("type", j_string (ch_type c)); ("name", j_string (ch_name c));
              ("enabled", j_bool (ch_enabled c)); ("params", text_map (ch_params c))]) (GetAllChannels (hub_channels h))) : J).

(** The channel just added, looked for by its type and name. *)
Definition created_channel (ch : ChannelConfig) (m : ChannelManager) : option ChannelConfig :=
  List.find (fun c => String.eqb (ch_type c) (ch_type ch) && String.eqb (ch_name c) (ch_name ch)) (GetAllChannels m).

Definition post_channel (body : string) (h : Hub X) : Hub X * outcome HttpReply :=
  match (j <-- json_parse body ;; read_channel (J := J) j) with
  | Throw e => (h, invalid_json (J := J) e)
  | Ok ch =>
      let '(m, x) := AddChannel (J := J) ch (hub_channels h) (hub_world h) in
      match created_channel ch m with
      | None => (mkHub m (hub_service h) x, caught (J := J) (id_reply (J := J) 201 (ch_id ch) "created"))
      | Some c =>
          match ApplyChannel (J := J) c (hub_service h) x with
          | (s, x, Throw e) => (mkHub m s x, invalid_json (J := J) e)
          | (s, x, Ok _) => (mkHub m s x, caught (J := J) (id_reply (J := J) 201 (ch_id c) "created"))
          end
      end
  end.

Definition delete_channel (id : string) (h : Hub X) : Hub X * outcome HttpReply :=
  let '(m, x) := RemoveChannel (J := J) id (hub_channels h) (hub_world h) in
  let '(s, x) := RemoveBot id (hub_service h) x in
  (mkHub m s x, id_reply (J := J) 200 id "deleted").

(** The body of a change; the id is that of the path. *)
Definition channel_body (id : string) (j : J) : outcome ChannelConfig :=
  type <-- value_str "type" "" j ;;
  name <-- value_str "name" "" j ;;
  enabled <-- value_bool "enabled" true j ;;
  params <-- match jfield "params" j with Some p => read_params (items_of p) ∅ | None => Ok ∅ end ;;
  Ok (mkChannel id type name enabled params).

Definition put_channel (id body : string) (h : Hub X) : Hub X * outcome HttpReply :=
  match (j <-- json_parse body ;; channel_body id j) with
  | Throw e => (h, invalid_json (J := J) e)
  | Ok ch =>
      let '(m, x) := UpdateChannel (J := J) id ch (hub_channels h) (hub_world h) in
      match ApplyChannel (J := J) ch (hub_service h) x with
      | (s, x, Throw e) => (mkHub m s x, invalid_json (J := J) e)
      | (s, x, Ok _) => (mkHub m s x, caught (J := J) (id_reply (J := J) 200 id "updated"))
      end
  end.

(** Without a [try]: an exception goes to the server. *)
Definition reload_channels (h : Hub X) : Hub X * outcome HttpReply :=
  match ChannelLoad (J := J) (hub_channels h) (hub_world h) with
  | (m, Throw e) => (mkHub m (hub_service h) (hub_world h), Throw e)
  | (m, Ok _) =>
      match ReconcileAll (J := J) iter m (hub_service h) (hub_world h) with
      | (s, x, Throw e) => (mkHub m s x, Throw e)
      | (s, x, Ok _) =>
          (mkHub m s x, json_reply 200 (j_fields [("reloaded", j_bool true); ("active", j_array (map j_string (ActiveBotIds iter s)))] : J))
      end
  end.

Inductive channel_request :=
  | RqList
  | RqCreate (body : string)
  | RqChange (id body : string)
  | RqDelete (id : string)
  | RqReload.
Definition serve_channel (rq : channel_request) (h : Hub X) : Hub X * outcome HttpReply :=
  match rq with
  | RqList => (h, get_channels h)
  | RqCreate body => post_channel body h
  | RqChange id body => put_channel id body h
  | RqDelete id => delete_channel id h
  | RqReload => reload_channels h
  end.

(** What the application does before it serves: the registry is loaded and every bot
    started. *)
Definition open_hub (path : string) (x : X) : Hub X * outcome unit :=
  match ChannelLoad (J := J) (fresh_channels path) x with
  | (m, Throw e) => (mkHub m new_service x, Throw e)
  | (m, Ok _) => let '(s, x, r) := StartAll (J := J) m new_service x in (mkHub m s x, r)
  end.
End Handlers.

(** ** The bots stay in step with the registry *)

Definition keyed_by_id (m : ChannelManager) : Prop := forall k c, channels_ m !! k = Some c -> ch_id c = k.
(** The id under which [AddChannel] stores a channel. *)
Definition added_id (ch : ChannelConfig) (m : ChannelManager) : string :=
  if str_empty (ch_id ch) then "channel_" +:+ to_string (nextId_ m) else ch_id ch.

Section Step.
Context {X J : Type} `{FileSystem X, FileRename X, FeishuNet X, Json J}.
Variable iter : forall V : Type, gmap string V -> list (string * V).
Hypothesis iter_perm : forall V (m : gmap string V), iter V m ≡ₚ map_to_list m.

Lemma read_channels_keyed path (l : list J) m n : keyed_by_id (mkChannelManager path m n) ->
  keyed_by_id (mkChannelManager path (read_channels l m).1 n).
Proof.
  revert m. induction l as [|j l IH]; intros m Hm; cbn [read_channels]; [done|].
  destruct (read_channel j) as [c|]; [|done]. apply IH. destruct (str_empty (ch_id c)); [done|].
  intros k c' Hk. cbn [channels_] in Hk. apply lookup_insert_Some in Hk as [[<- <-]|[_ Hk]]; [done|]. by apply Hm in Hk.
Qed.

Lemma load_keyed (m m1 : ChannelManager) (x : X) r : keyed_by_id m -> ChannelLoad (J := J) m x = (m1, r) -> keyed_by_id m1.
Proof.
  intros Hm E. unfold ChannelLoad in E. destruct (str_empty (cm_path m)); [by injection E as <- _|].
  destruct (fs_exists (cm_path m) x) as [[]|]; try (by injection E as <- _). destruct (json_parse _) as [j|]; [|by injection E as <- _].
  destruct (negb (is_array j)); [by injection E as <- _|].
  assert (keyed_by_id (mkChannelManager (cm_path m) ∅ 1)) as Hz by (intros k c Hk; cbn [channels_] in Hk; by rewrite lookup_empty in Hk).
  pose proof (read_channels_keyed (cm_path m) (elements_of j) _ 1 Hz) as Hr. destruct (read_channels _ _) as [m' [[]|]]; by injection E as <- _.
Qed.

Lemma add_spec ch (m : ChannelManager) (x : X) :
  let c := set_ch_id (added_id ch m) ch in
  channels_ (AddChannel (J := J) ch m x).1 = <[ch_id c := c]> (channels_ m).
Proof.
  unfold AddChannel, added_id. destruct (str_empty (ch_id ch)) eqn:E; [done|]. cbn. f_equal. by destruct ch.
Qed.

Lemma channel_insert (m m1 : ChannelManager) c : keyed_by_id m -> channels_ m1 = <[ch_id c := c]> (channels_ m) -> keyed_by_id m1.
Proof. intros Hm E k c' Hk. rewrite E in Hk. apply lookup_insert_Some in Hk as [[<- <-]|[_ Hk]]; [done|]. by apply Hm. Qed.

(** The search after a creation finds the channel that was created, when no other one has
    its type and name. *)
Lemma created_spec ch (m : ChannelManager) (x : X) : keyed_by_id m ->
  (forall k c, channels_ m !! k = Some c -> ch_type c = ch_type ch -> ch_name c = ch_name ch -> k = added_id ch m) ->
  created_channel ch (AddChannel (J := J) ch m x).1 = Some (set_ch_id (added_id ch m) ch).
Proof.
  intros Hm Ho. pose proof (add_spec ch m x) as Ha. cbn zeta in Ha. set (m1 := (AddChannel ch m x).1) in *.
  pose proof (channel_insert m m1 _ Hm Ha) as Hk. destruct (registry_ids m1 Hk) as [_ Hin]. set (c := set_ch_id (added_id ch m) ch) in *.
  unfold created_channel. destruct (List.find _ _) as [d|] eqn:Ef.
  - f_equal. apply find_some in Ef as [Hd [Ht%String.eqb_eq Hn%String.eqb_eq]%andb_true_iff].
    apply list_elem_of_In, Hin in Hd. rewrite Ha in Hd. apply lookup_insert_Some in Hd as [[_ <-]|[Hne Hd]]; [done|].
    destruct Hne. by rewrite (Ho _ _ Hd Ht Hn).
  - assert (In c (GetAllChannels m1)) as Hc by (apply list_elem_of_In, Hin; rewrite Ha; apply lookup_insert_eq).
    pose proof (find_none _ _ Ef c Hc) as Hf. cbn in Hf. by rewrite !String.eqb_refl in Hf.
Qed.

(** A channel that is stored and applied keeps the bots in step. *)
Lemma apply_in_step c (m m1 : ChannelManager) (s s1 : ChannelService) (x x1 : X) :
  channels_ m1 = <[ch_id c := c]> (channels_ m) -> in_step m s ->
  ApplyChannel (J := J) c s x = (s1, x1, Ok tt) -> in_step m1 s1.
Proof.
  intros Em [Hi Hs] E. destruct (apply_spec _ _ _ _ _ Hi E) as (Hi1 & Ho & Hw). split; [done|]. intros id. rewrite Em.
  destruct (decide (id = ch_id c)) as [->|Hne]; [by rewrite lookup_insert_eq|]. rewrite lookup_insert_ne, Ho by done. apply Hs.
Qed.

Lemma remove_in_step id (m : ChannelManager) (s s1 : ChannelService) (x x1 x2 : X) : in_step m s -> RemoveBot id s x = (s1, x1) ->
  in_step (RemoveChannel (J := J) id m x2).1 s1.
Proof.
  intros [Hi Hs] E. destruct (remove_all_spec iter iter_perm [id] s s1 x x1 Hi) as [Hi1 Hb]; [cbn [remove_all]; by rewrite E|].
  split; [done|]. intros k. cbn [RemoveChannel fst channels_ set_channels]. rewrite Hb. destruct (decide (k = id)) as [->|Hne].
  - rewrite lookup_delete_eq. by rewrite bool_decide_eq_true_2 by left.
  - rewrite lookup_delete_ne by done. rewrite bool_decide_eq_false_2 by (by rewrite list_elem_of_singleton). apply Hs.
Qed.

(** A creation under a type and name that no other channel has, a change of a channel that
    is there. *)
Definition addressed (rq : channel_request) (h : Hub X) : Prop :=
  match rq with
  | RqCreate body => forall j ch, json_parse (J := J) body = Ok j -> read_channel j = Ok ch ->
      forall k c, channels_ (hub_channels h) !! k = Some c -> ch_type c = ch_type ch -> ch_name c = ch_name ch ->
      k = added_id ch (hub_channels h)
  | RqChange id _ => is_Some (channels_ (hub_channels h) !! id)
  | _ => True
  end.
(** A request that is served without an error. *)
Definition served (h h1 : Hub X) : Prop :=
  exists rq rp, addressed rq h /\ serve_channel (J := J) iter rq h = (h1, Ok rp) /\ rp_status rp < 400.

Lemma channel_body_id id (j : J) ch : channel_body id j = Ok ch -> ch_id ch = id.
Proof.
  unfold channel_body. destruct (value_str "type" _ _); [|done]. destruct (value_str "name" _ _); [|done].
  destruct (value_bool _ _ _); [|done]. cbn [obind]. destruct (match jfield "params" _ with Some _ => _ | None => _ end); [|done].
  by intros [= <-].
Qed.

Lemma invalid_json_status what rp : invalid_json (J := J) what = Ok rp -> rp_status rp = 400.
Proof. unfold invalid_json, json_reply. destruct (json_dump _ _); [|done]. by intros [= <-]. Qed.

Definition hub_ok (h : Hub X) : Prop := keyed_by_id (hub_channels h) /\ in_step (hub_channels h) (hub_service h).

Lemma served_ok h h1 : hub_ok h -> served h h1 -> hub_ok h1.
Proof.
  intros [Hk Hs] (rq & rp & Ha & E & Hst). destruct h as [m s x]. cbn [hub_channels hub_service] in *.
  destruct rq as [|body|id body|id|]; cbn [serve_channel] in E.
  - by injection E as <- _.
  - unfold post_channel in E. cbn [hub_channels hub_service hub_world] in E. cbn [addressed hub_channels] in Ha.
    destruct (json_parse body) as [j|] eqn:Ej; cbn [obind] in E;
      [|injection E as _ E; apply invalid_json_status in E; lia].
    destruct (read_channel j) as [ch|] eqn:Er; [|injection E as _ E; apply invalid_json_status in E; lia].
    pose proof (created_spec ch m x Hk (Ha j ch eq_refl Er)) as Hc. pose proof (add_spec ch m x) as Hadd. cbn zeta in Hadd.
    destruct (AddChannel ch m x) as [m1 x1]. cbn [fst] in Hc, Hadd. rewrite Hc in E.
    destruct (ApplyChannel _ s x1) as [[s1 x2] [[]|]] eqn:Eap; [|injection E as _ E; apply invalid_json_status in E; lia].
    injection E as <- _. split; [by eapply channel_insert|]. by eapply apply_in_step.
  - unfold put_channel in E. cbn [hub_channels hub_service hub_world] in E. cbn [addressed hub_channels] in Ha.
    destruct (j <-- json_parse body ;; channel_body id j) as [ch|] eqn:Eb; [|injection E as _ E; apply invalid_json_status in E; lia].
    assert (ch_id ch = id) as <-.
    { destruct (json_parse body); [|done]. by eapply channel_body_id. }
    unfold UpdateChannel in E. destruct Ha as [old Ha]. rewrite Ha in E.
    destruct (ApplyChannel ch s _) as [[s1 x2] [[]|]] eqn:Eap; [|injection E as _ E; apply invalid_json_status in E; lia].
    injection E as <- _. assert (set_ch_id (ch_id ch) ch = ch) as Hid by (by destruct ch). rewrite Hid in *.
    split; [by apply (channel_insert m _ ch)|]. eapply (apply_in_step ch m); [|exact Hs|exact Eap]. done.
  - unfold delete_channel in E. cbn [hub_channels hub_service hub_world] in E.
    destruct (RemoveChannel id m x) as [m1 x1] eqn:Em. destruct (RemoveBot id s x1) as [s1 x2] eqn:Es. injection E as <- _.
    split; [|change m1 with (m1, x1).1; rewrite <- Em; by eapply remove_in_step].
    injection Em as <- _. intros k c Hc. cbn [channels_ hub_channels set_channels] in Hc. apply lookup_delete_Some in Hc as [_ Hc]. by apply Hk.
  - unfold reload_channels in E. cbn [hub_channels hub_service hub_world] in E.
    destruct (ChannelLoad m x) as [m1 [b|]] eqn:El; [|done]. pose proof (load_keyed _ _ _ _ Hk El) as Hk1.
    destruct (ReconcileAll iter m1 s x) as [[s1 x1] [[]|]] eqn:Er; [|done]. injection E as <- _. split; [done|].
    by apply (reconcile_spec iter iter_perm m1 s s1 x x1 Hk1 (proj1 Hs)).
Qed.

(** C30.  However channels are created, changed, deleted and reloaded over HTTP, one
    request after another, the bots
    that run are those of the enabled Feishu channels with credentials that the registry
    holds, as long as a change names a channel that exists, a creation a type and name of
    its own, and no request fails. *)
Theorem requests_keep_step path (x : X) h0 h :
  open_hub (J := J) path x = (h0, Ok tt) -> rtc served h0 h ->
  forall id, id ∈ ActiveBotIds iter (hub_service h) <-> exists c, channels_ (hub_channels h) !! id = Some c /\ wanted c.
Proof.
  intros E Hr. assert (hub_ok h) as [_ Hs]; [|intros id; by apply active_ids].
  assert (hub_ok h0) as Hz; [|clear E; induction Hr; eauto using served_ok]. unfold open_hub in E.
  destruct (ChannelLoad (fresh_channels path) x) as [m [b|]] eqn:El; [|done].
  assert (keyed_by_id m) as Hk by (eapply load_keyed; [|exact El]; intros k c Hc; cbn [channels_ fresh_channels] in Hc; by rewrite lookup_empty in Hc).
  destruct (StartAll m new_service x) as [[s x1] r] eqn:Es. injection E as <- ->. split; [done|].
  eapply (apply_registry m new_service); [done| |intros id _; apply lookup_empty|exact Es].
  intros k c Hc. cbn in Hc. by rewrite lookup_empty in Hc.
Qed.

(** A change of a channel that does not exist is answered as one that was made: the
    registry stays as it is, but a bot starts for the channel. *)
Theorem unknown_channel_starts_bot id body j ch (h h1 : Hub X) rp :
  channels_ (hub_channels h) !! id = None -> service_inv (hub_service h) ->
  json_parse (J := J) body = Ok j -> channel_body id j = Ok ch -> wanted ch ->
  put_channel (J := J) id body h = (h1, Ok rp) -> rp_status rp = 200 ->
  hub_channels h1 = hub_channels h /\ exists b, feishuBots_ (hub_service h1) !! id = Some b /\ bot_running b = true.
Proof.
  intros Hn Hi Hj Hb Hw E Hst. unfold put_channel in E. rewrite Hj in E. cbn [obind] in E. rewrite Hb in E.
  pose proof (channel_body_id _ _ _ Hb) as Hid.
  unfold UpdateChannel in E. rewrite Hn in E.
  destruct (ApplyChannel ch (hub_service h) (hub_world h)) as [[s1 x2] [[]|]] eqn:Eap;
    [|injection E as _ E; apply invalid_json_status in E; lia].
  injection E as <- _. split; [done|]. destruct (apply_spec _ _ _ _ _ Hi Eap) as (_ & _ & Hy & _).
  destruct (Hy Hw) as (b & Hbot & Hr & _). rewrite Hid in Hbot. by exists b.
Qed.
End Step.

(** ** Example *)

Section Example.
#[local] Instance ex_json : Json JsonTree.json := JsonTree.instance [].
(** A network that does not answer. *)
#[local] Instance ex_net : FeishuNet MemDisk.disk := {|
  steady_now := fun _ => 0;
  feishu_post := fun _ _ _ x => (x, None);
  ws_connect := fun _ x => (x, false);
  ws_is_open := fun _ => false;
  ws_send := fun _ x => (x, false);
  ws_read := fun x => (x, ReadFail);
  ws_close := fun x => x;
  biz_rt_ms := fun _ => 0
|}.
Definition ex_doc (name : string) : JsonTree.json :=
  j_fields [("type", j_string "feishu"); ("name", j_string name);
            ("params", j_fields [("appId", j_string "i"); ("appSecret", j_string "s")])].
Definition ex_body (name : string) : string := match json_dump None (ex_doc name) with Ok t => t | Throw _ => "" end.
Definition ex_hub : Hub MemDisk.disk := (open_hub (J := JsonTree.json) "c.json" (MemDisk.mkDisk [] 0)).1.
Definition ex_serve (rq : channel_request) (h : Hub MemDisk.disk) : Hub MemDisk.disk :=
  (serve_channel (J := JsonTree.json) ex_iter rq h).1.
Definition ex_two : Hub MemDisk.disk := ex_serve (RqDelete "channel_1") (ex_serve (RqCreate (ex_body "b")) (ex_serve (RqCreate (ex_body "a")) ex_hub)).

Definition ex_agrees (id : string) : Prop :=
  id ∈ ActiveBotIds ex_iter (hub_service ex_two) <-> exists c, channels_ (hub_channels ex_two) !! id = Some c /\ wanted c.
Lemma requests_keep_step_witness : ex_agrees "channel_1" /\ ex_agrees "channel_2".
Proof.
  enough (forall id, ex_agrees id) as Hall by (by split).
  assert (forall rq h, addressed (J := JsonTree.json) rq h ->
    (exists rp, (serve_channel (J := JsonTree.json) ex_iter rq h).2 = Ok rp /\ rp_status rp < 400) ->
    served (J := JsonTree.json) ex_iter h (ex_serve rq h)) as Hs.
  { intros rq h Ha (rp & E & Hst). exists rq, rp. split; [done|]. split; [|done]. unfold ex_serve. rewrite <- E. by destruct (serve_channel _ _ _). }
  apply (requests_keep_step (J := JsonTree.json) ex_iter (fun V m => reflexivity _) "c.json" (MemDisk.mkDisk [] 0) ex_hub ex_two);
    [vm_compute; reflexivity|].
  eapply rtc_l; [apply (Hs (RqCreate (ex_body "a")))|eapply rtc_l; [apply (Hs (RqCreate (ex_body "b")))|eapply rtc_once, (Hs (RqDelete "channel_1"))]].
  - intros j ch _ _ k c Hc _ _. assert (channels_ (hub_channels ex_hub) = ∅) as Heq by (vm_compute; reflexivity); rewrite Heq in Hc; clear Heq.
    by rewrite lookup_empty in Hc.
  - eexists; split; [vm_compute; reflexivity|]; cbn; lia.
  - intros j ch Hj Hr k c Hc _ Hn. assert (json_parse (ex_body "b") = Ok (ex_doc "b")) as Heq by (vm_compute; reflexivity); rewrite Heq in Hj; clear Heq.
    injection Hj as <-. vm_compute in Hr. injection Hr as <-. cbn [ch_name] in Hn.
    assert (map_Forall (fun _ c => ch_name c <> "b") (channels_ (hub_channels (ex_serve (RqCreate (ex_body "a")) ex_hub)))) as Hf
      by (refine (bool_decide_unpack _ _); vm_compute; exact I).
    by destruct (Hf _ _ Hc).
  - eexists; split; [vm_compute; reflexivity|]; cbn; lia.
  - exact I.
  - eexists; split; [vm_compute; reflexivity|]; cbn; lia.
Defined.
(** The bot that still runs. *)
Example ex_active : ActiveBotIds ex_iter (hub_service ex_two) = ["channel_2"].
Proof. vm_compute. reflexivity. Qed.

(** A second channel of the same type and name is created, but the first one is applied
    and its id is the answer. *)
Example ex_same_name :
  ActiveBotIds ex_iter (hub_service (ex_serve (RqCreate (ex_body "a")) (ex_serve (RqCreate (ex_body "a")) ex_hub))) = ["channel_1"].
Proof. vm_compute. reflexivity. Qed.

Lemma unknown_channel_starts_bot_witness :
  hub_channels (put_channel (J := JsonTree.json) "x" (ex_body "a") ex_hub).1 = hub_channels ex_hub /\
  exists b, feishuBots_ (hub_service (put_channel (J := JsonTree.json) "x" (ex_body "a") ex_hub).1) !! "x" = Some b /\ bot_running b = true.
Proof.
  assert (exists rp, (put_channel (J := JsonTree.json) "x" (ex_body "a") ex_hub).2 = Ok rp /\ rp_status rp = 200) as (rp & E & Hst)
    by (eexists; split; [vm_compute; reflexivity | reflexivity]).
  eapply (unknown_channel_starts_bot (J := JsonTree.json) "x" (ex_body "a") (ex_doc "a") _ ex_hub _ rp).
  - vm_compute. reflexivity.
  - intros k b Hk. assert (feishuBots_ (hub_service ex_hub) = ∅) as Heq by (vm_compute; reflexivity); rewrite Heq in Hk; clear Heq. by rewrite lookup_empty in Hk.
  - vm_compute. reflexivity.
  - vm_compute. reflexivity.
  - split; [reflexivity|]. split; [reflexivity|]. split; vm_compute; discriminate.
  - rewrite <- E. by destruct (put_channel _ _ _).
  - exact Hst.
Defined.
End Example.
