(* ===== verification/HttpMcp.v ===== *)
(** * The MCP server endpoints (examples/jiuwenClaw/adapters/http_server/http_server.cpp)

    The handlers that list, create, change, delete and reload MCP servers.  Each one goes
    through the registry of the application (McpServers.v), the manager of the framework
    (McpManager.v), the tools of the live agent (AgentWorker.v) and, on a deletion, the
    configurations of all agents (AgentConfigStore.v). *)
From Stdlib Require Import ZArith Lia String Ascii List.
From stdpp Require Import base decidable list strings gmap relations.
From S2P Require Import Prelude Encoding Types JsonLib Files AtomicFile AgentConfigJson AgentConfigStore ToolBase ResourceManager AgentWorker McpManager McpServers HttpChannels.
Open Scope Z_scope.

Section Mcp.
Context {X F SF T J : Type} `{ToolFactories F SF T J} `{FileSystem X, FileRename X, Json J}.
Variable mcp_factory : ToolInfo -> nat -> F.
(** What the servers answer to a connection, by id. *)
Variable remote : string -> remote_answer (J := J).
Variable iter : forall V : Type, gmap string V -> list (string * V).

Record McpHub := mkMcpHub {
  mh_servers : McpServerManager;
  mh_mcp : McpState (F := F) (SF := SF) (J := J);
  (** The tools of the live agent, when there is one. *)
  mh_agent : option WorkerTools;
  mh_configs : ConfigStore J;
  mh_world : X
}.

(** [liveAgent->SyncMcpTools()]. *)
Definition sync_agent (st : McpState (F := F) (SF := SF) (J := J)) (a : option WorkerTools) : option WorkerTools :=
  (fun w => (SyncMcpTools (GetMcpToolNames (tools st)) w).1) <$> a.

(** [LoadMCPServers(ToFrameworkConfigs())] and, when it does not throw, the agent. *)
Definition apply_registry (m : McpServerManager) (x : X) (h : McpHub) : McpHub * outcome unit :=
  match McpManager.Load mcp_factory remote (ToFrameworkConfigs m) (mh_mcp h) with
  | (st, Throw e) => (mkMcpHub m st (mh_agent h) (mh_configs h) x, Throw e)
  | (st, Ok _) => (mkMcpHub m st (sync_agent st (mh_agent h)) (mh_configs h) x, Ok tt)
  end.

Definition bad_request (what : string) : outcome HttpReply := json_reply 400 (j_fields [("error", j_string what)] : J).
Definition or_bad (r : outcome HttpReply) : outcome HttpReply := match r with Ok rp => Ok rp | Throw e => bad_request e end.

Definition get_mcp_servers (h : McpHub) : outcome HttpReply :=
  let active := ActiveIds (mh_mcp h) in
  json_reply 200 (j_array (map (fun e =>
    j_fields (entry_fields e ++ [("connected", j_bool (me_enabled e && existsb (String.eqb (me_id e)) active))]))
    (GetAllServers (mh_servers h))) : J).

(** The members of a body. *)
Definition entry_body (id : string) (j : J) : outcome McpServerEntry :=
  name <-- value_str "name" "" j ;;
  description <-- value_str "description" "" j ;;
  enabled <-- value_bool "enabled" true j ;;
  type <-- value_str "type" "" j ;;
  url <-- value_str "url" "" j ;;
  endpoint <-- value_str "endpoint" "" j ;;
  command <-- value_str "command" "" j ;;
  connect <-- value_int "connectTimeoutSeconds" 3 j ;;
  request <-- value_int "requestTimeoutSeconds" 10 j ;;
  Ok (mkMcpServerEntry id name description enabled type url endpoint command
        (string_elements (default [] (array_field "args" j))) (string_members "env" j) (string_members "headers" j)
        connect request).

Definition post_mcp_server (body : string) (h : McpHub) : McpHub * outcome HttpReply :=
  match (j <-- json_parse body ;; id <-- value_str "id" "" j ;; entry_body id j) with
  | Throw e => (h, bad_request e)
  | Ok entry =>
      if str_empty (me_id entry) then (h, bad_request "id required")
      else
        let '(m, x) := AddServer (J := J) entry (mh_servers h) (mh_world h) in
        match apply_registry m x h with
        | (h, Throw e) => (h, bad_request e)
        | (h, Ok _) => (h, or_bad (id_reply (J := J) 201 (me_id entry) "created"))
        end
  end.

Definition put_mcp_server (id body : string) (h : McpHub) : McpHub * outcome HttpReply :=
  match (j <-- json_parse body ;; entry_body id j) with
  | Throw e => (h, bad_request e)
  | Ok entry =>
      let '(m, x) := UpdateServer (J := J) id entry (mh_servers h) (mh_world h) in
      match apply_registry m x h with
      | (h, Throw e) => (h, bad_request e)
      | (h, Ok _) => (h, or_bad (id_reply (J := J) 200 id "updated"))
      end
  end.

(** What is written for an agent that named the server. *)
Definition cascade_override (cfg : AgentConfig) (ids : list string) : J :=
  let mc := modelConfig cfg in
  j_fields [("id", j_string (ac_id cfg));
            ("modelConfig", j_fields [("baseUrl", j_string (baseUrl mc)); ("apiKey", j_string (apiKey mc));
               ("modelName", j_string (modelName mc)); ("formatType", j_string (FormatTypeToString (formatType mc)));
               ("provider", j_string (provider mc)); ("extraParams", ConfigNodeToJson (extraParams mc))]);
            ("mcpServerIds", j_strings ids)].
Fixpoint cascade (id : string) (cfgs : list AgentConfig) (s : ConfigStore J) : ConfigStore J * outcome unit :=
  match cfgs with
  | [] => (s, Ok tt)
  | cfg :: cfgs =>
      let ids := List.filter (fun k => negb (String.eqb k id)) (mcpServerIds cfg) in
      if Nat.eqb (length ids) (length (mcpServerIds cfg)) then cascade id cfgs s
      else
        match UpsertOverride iter (ac_id cfg) (cascade_override cfg ids) s with
        | (s, Throw e) => (s, Throw e)
        | (s, Ok _) => cascade id cfgs s
        end
  end.

(** Without a [try]. *)
Definition delete_mcp_server (id : string) (h : McpHub) : McpHub * outcome HttpReply :=
  let '(m, x) := DropServer (J := J) id (mh_servers h) (mh_world h) in
  let st := McpManager.RemoveServer id (mh_mcp h) in
  let a := sync_agent st (mh_agent h) in
  match cascade id (AgentConfigStore.List iter (mh_configs h)) (mh_configs h) with
  | (cs, Throw e) => (mkMcpHub m st a cs x, Throw e)
  | (cs, Ok _) => (mkMcpHub m st a cs x, id_reply (J := J) 200 id "deleted")
  end.

Definition reload_mcp_servers (h : McpHub) : McpHub * outcome HttpReply :=
  match ServerLoad (J := J) (mh_servers h) (mh_world h) with
  | (m, Throw e) => (mkMcpHub m (mh_mcp h) (mh_agent h) (mh_configs h) (mh_world h), Throw e)
  | (m, Ok _) =>
      match apply_registry m (mh_world h) h with
      | (h, Throw e) => (h, Throw e)
      | (h, Ok _) => (h, json_reply 200 (j_fields [("reloaded", j_bool true)] : J))
      end
  end.

Inductive mcp_route :=
  | MrList
  | MrCreate (body : string)
  | MrChange (id body : string)
  | MrDelete (id : string)
  | MrReload.
Definition serve_mcp (rq : mcp_route) (h : McpHub) : McpHub * outcome HttpReply :=
  match rq with
  | MrList => (h, get_mcp_servers h)
  | MrCreate body => post_mcp_server body h
  | MrChange id body => put_mcp_server id body h
  | MrDelete id => delete_mcp_server id h
  | MrReload => reload_mcp_servers h
  end.

(** What the application does when it starts. *)
Definition boot_mcp (path : string) (st : McpState (F := F) (SF := SF) (J := J)) (a : option WorkerTools)
    (cs : ConfigStore J) (x : X) : McpHub * outcome unit :=
  let h := mkMcpHub (mkMcpServerManager path ∅) st a cs x in
  match ServerLoad (J := J) (mh_servers h) x with
  | (m, Throw e) => (mkMcpHub m st a cs x, Throw e)
  | (m, Ok _) => match ToFrameworkConfigs m with [] => (mkMcpHub m st a cs x, Ok tt) | _ => apply_registry m x h end
  end.
End Mcp.

(** ** The servers that run and the tools of the agent *)

Section Steps.
Context {X F SF T J : Type} `{ToolFactories F SF T J} `{FileSystem X, FileRename X, Json J}.
Variable mcp_factory : ToolInfo -> nat -> F.
Variable remote : string -> remote_answer (J := J).
Variable iter : forall V : Type, gmap string V -> list (string * V).
Local Notation McpState := (McpState (F := F) (SF := SF) (J := J)).
Local Notation McpHub := (McpHub (X := X) (F := F) (SF := SF) (J := J)).

Definition keyed_servers (m : McpServerManager) : Prop := forall k e, ms_servers m !! k = Some e -> me_id e = k.
(** Only servers the registry enables run. *)
Definition runs_enabled (m : McpServerManager) (st : McpState) : Prop :=
  forall id p, servers_ st !! id = Some p -> exists e, ms_servers m !! id = Some e /\ me_enabled e = true.
Definition servers_ok (h : McpHub) : Prop :=
  keyed_servers (mh_servers h) /\ managed (mh_mcp h) /\ runs_enabled (mh_servers h) (mh_mcp h).

(** The live agent started with the tools [own].  It offers [toolNames_]: these are its own
    tools and the registered tools of MCP servers, and it keeps book of the latter. *)
Definition tools_synced (own : list string) (st : McpState) (a : option WorkerTools) : Prop :=
  exists w, a = Some w /\ (forall n, n ∈ ownedMcpTools_ w <-> n ∈ GetMcpToolNames (tools st)) /\
    forall n, n ∈ toolNames_ w <-> n ∈ own \/ n ∈ GetMcpToolNames (tools st).
(** No tool of a server is called like one of the agent's own. *)
Definition apart (own : list string) (st : McpState) : Prop := names_in (fun n => n ∉ own) (tools st).
Definition offers_apart (own : list string) (remote : string -> remote_answer (J := J)) : Prop :=
  forall id, answer_in (fun n => n ∉ own) (remote id).
Definition mcp_ok (own : list string) (h : McpHub) : Prop :=
  servers_ok h /\ apart own (mh_mcp h) /\ tools_synced own (mh_mcp h) (mh_agent h).

Lemma sync_synced own st0 st a : apart own st0 -> tools_synced own st0 a -> tools_synced own st (sync_agent st a).
Proof.
  intros Hap (w & -> & Ho & Ht). eexists. split; [reflexivity|].
  destruct (SyncMcpTools_spec (GetMcpToolNames (tools st)) w) as (Hown & Hnames & _). split; [exact Hown|].
  intros n. rewrite Hnames, Ho, Ht. specialize (Hap n). cbn beta in Hap.
  destruct (decide (n ∈ GetMcpToolNames (tools st))), (decide (n ∈ GetMcpToolNames (tools st0))); tauto.
Qed.

Lemma framework_configs m : keyed_servers m ->
  NoDup (map mcp_id (ToFrameworkConfigs m)) /\
  forall c, c ∈ ToFrameworkConfigs m -> exists e, ms_servers m !! mcp_id c = Some e /\ me_enabled e = true /\ c = EntryToConfig e.
Proof.
  intros Hk. destruct (keyed_values me_id (ms_servers m) Hk) as [Hn Hin]. unfold ToFrameworkConfigs, GetAllServers. split.
  - rewrite map_map. cbn [mcp_id EntryToConfig]. revert Hn. generalize (map snd (fields_of (ms_servers m))). induction l as [|e l IH]; [done|].
    cbn [map List.filter]. intros [He Hl]%NoDup_cons. destruct (me_enabled e); [|by apply IH]. cbn [map]. apply NoDup_cons. split; [|by apply IH].
    intros Hx. apply He. apply list_elem_of_fmap in Hx as (e' & -> & Hx). apply list_elem_of_fmap. exists e'. split; [done|].
    by apply elem_of_filterb in Hx as [Hx _].
  - intros c (e & -> & [Hx He]%elem_of_filterb)%list_elem_of_fmap. exists e. cbn [mcp_id EntryToConfig]. split; [|done]. by apply Hin.
Qed.

Lemma apply_registry_ok (answers : string -> remote_answer (J := J)) own m x (h h1 : McpHub) : keyed_servers m -> managed (mh_mcp h) ->
  offers_apart own answers -> apart own (mh_mcp h) -> tools_synced own (mh_mcp h) (mh_agent h) ->
  apply_registry mcp_factory answers m x h = (h1, Ok tt) ->
  mcp_ok own h1 /\ mh_servers h1 = m /\ mh_configs h1 = mh_configs h.
Proof.
  intros Hk Hm Hoff Hap Ht E. unfold apply_registry in E.
  pose proof (Load_names mcp_factory _ answers (ToFrameworkConfigs m) (mh_mcp h) Hoff Hap) as Hnames.
  destruct (McpManager.Load _ _ _ _) as [st [[]|]] eqn:El; [|done]. injection E as <-.
  destruct (framework_configs m Hk) as [Hn Hc]. destruct (load_runs_listed _ _ _ _ _ Hm Hn El) as (Hm1 & Hr & _).
  split; [|done]. split; [|split; [exact Hnames | exact (sync_synced own (mh_mcp h) st (mh_agent h) Hap Ht)]]. split; [done|]. split; [done|]. intros id p Hp.
  destruct (Hr id p Hp) as (c & Hin & <- & Hen). destruct (Hc c Hin) as (e & He & Hee & _). by exists e.
Qed.

Lemma read_servers_keyed (l : list J) m path : keyed_servers (mkMcpServerManager path m) ->
  keyed_servers (mkMcpServerManager path (read_servers l m).1).
Proof.
  revert m. induction l as [|j l IH]; intros m Hm; cbn [read_servers]; [done|]. destruct (negb (is_object j)); [by apply IH|].
  destruct (read_entry j) as [e|]; [|done]. apply IH. destruct (str_empty (me_id e)); [done|].
  intros k e' Hk. cbn [ms_servers] in Hk. apply lookup_insert_Some in Hk as [[<- <-]|[_ Hk]]; [done|]. by apply Hm in Hk.
Qed.

Lemma server_load_keyed (m m1 : McpServerManager) (x : X) r : keyed_servers m -> ServerLoad (J := J) m x = (m1, r) -> keyed_servers m1.
Proof.
  intros Hm E. unfold ServerLoad in E. destruct (str_empty (ms_path m)); [by injection E as <- _|].
  destruct (fs_exists (ms_path m) x) as [[]|]; try (by injection E as <- _). destruct (json_parse _) as [j|]; [|by injection E as <- _].
  destruct (servers_of j) as [l|]; [|by injection E as <- _].
  assert (keyed_servers (mkMcpServerManager (ms_path m) ∅)) as Hz by (intros k e Hk; cbn [ms_servers] in Hk; by rewrite lookup_empty in Hk).
  pose proof (read_servers_keyed l _ (ms_path m) Hz) as Hr. destruct (read_servers l ∅) as [m' ok]. by injection E as <- _.
Qed.

Lemma entry_body_id id (j : J) e : entry_body id j = Ok e -> me_id e = id.
Proof.
  unfold entry_body. repeat (match goal with |- context [(_ <-- ?m ;; _)] => destruct m; cbn [obind]; [|done] end). by intros [= <-].
Qed.

(** A request that is served without an error.  The servers may answer differently each
    time. *)
Definition mcp_served (own : list string) (h h1 : McpHub) : Prop :=
  exists remote rq rp, offers_apart own remote /\
    serve_mcp mcp_factory remote iter rq h = (h1, Ok rp) /\ rp_status rp < 400.

Lemma bad_request_status what rp : bad_request (J := J) what = Ok rp -> rp_status rp = 400.
Proof. unfold bad_request, json_reply. destruct (json_dump _ _); [|done]. by intros [= <-]. Qed.
Ltac refused E := injection E as _ E; apply bad_request_status in E; lia.

Lemma mcp_served_ok own h h1 : mcp_ok own h -> mcp_served own h h1 -> mcp_ok own h1.
Proof.
  intros ((Hk & Hm & Hr) & Hap & Ht) (rem & rq & rp & Hoff & E & Hst). destruct rq as [|body|id body|id|]; cbn [serve_mcp] in E.
  - by injection E as <- _.
  - unfold post_mcp_server in E. destruct (j <-- json_parse body ;; _) as [e|] eqn:Ee; [|refused E].
    destruct (str_empty (me_id e)) eqn:Eid; [refused E|]. destruct (AddServer e (mh_servers h) (mh_world h)) as [m x] eqn:Ea.
    unfold AddServer in Ea. rewrite Eid in Ea. injection Ea as <- _.
    destruct (apply_registry _ _ _ x h) as [h2 [[]|]] eqn:Er; [|refused E]. injection E as <- _.
    eapply (apply_registry_ok rem own _ x h); [|done|done|done|done|exact Er]. intros k e' Hk'. cbn [ms_servers set_ms] in Hk'.
    apply lookup_insert_Some in Hk' as [[<- <-]|[_ Hk']]; [done|]. by apply Hk.
  - unfold put_mcp_server in E. destruct (j <-- json_parse body ;; _) as [e|] eqn:Ee; [|refused E].
    destruct (UpdateServer id e (mh_servers h) (mh_world h)) as [m x] eqn:Ea.
    destruct (apply_registry _ _ m x h) as [h2 [[]|]] eqn:Er; [|refused E]. injection E as <- _.
    eapply (apply_registry_ok rem own m x h); [|done|done|done|done|exact Er]. unfold UpdateServer in Ea.
    destruct (ms_servers (mh_servers h) !! id); injection Ea as <- _; [|done]. intros k e' Hk'. cbn [ms_servers set_ms] in Hk'.
    apply lookup_insert_Some in Hk' as [[<- <-]|[_ Hk']]; [done|]. by apply Hk.
  - unfold delete_mcp_server in E. destruct (DropServer id (mh_servers h) (mh_world h)) as [m x] eqn:Ed. injection Ed as <- _.
    destruct (cascade iter id _ (mh_configs h)) as [cs [[]|]]; [|done]. injection E as <- _.
    destruct (StopServerLocked_frame id (mh_mcp h)) as [Hs Hl].
    split; [|split; [by apply (RemoveServer_names (fun n => n ∉ own)) | exact (sync_synced own (mh_mcp h) _ (mh_agent h) Hap Ht)]]. split; [|split].
    + intros k e Hk'. cbn [ms_servers set_ms mh_servers] in Hk'. apply lookup_delete_Some in Hk' as [_ Hk']. by apply Hk.
    + intros k p Hp. cbn [mh_mcp] in *. unfold RemoveServer in *. cbn [servers_ lastConfigs_ set_lastConfigs] in *. rewrite Hs in Hp. rewrite Hl.
      apply lookup_delete_Some in Hp as [Hne Hp]. rewrite lookup_delete_ne by done. by eapply Hm.
    + intros k p Hp. cbn [mh_mcp mh_servers ms_servers set_ms] in *. unfold RemoveServer in *. cbn [servers_ set_lastConfigs] in *. rewrite Hs in Hp.
      apply lookup_delete_Some in Hp as [Hne Hp]. rewrite lookup_delete_ne by done. by eapply Hr.
  - unfold reload_mcp_servers in E. destruct (ServerLoad (mh_servers h) (mh_world h)) as [m [b|]] eqn:El; [|done].
    destruct (apply_registry _ _ m _ h) as [h2 [[]|]] eqn:Er; [|done]. injection E as <- _.
    eapply (apply_registry_ok rem own m); [by eapply server_load_keyed|done|done|done|done|exact Er].
Qed.

(** C31.  MCP servers are created, changed, deleted and reloaded over HTTP, in any order,
    whatever the servers answer each time, as long as no server offers a tool called like
    one the live agent has of its own and no request fails.  Then a server that runs is one
    the registry has and enables, and the tools the agent offers ([toolNames_], from which
    it takes the schemas and the catalog of a turn) are exactly those it started with and
    the registered tools of servers: none of a running server is missing, none of a server
    that is gone is left, and none of its own is lost. *)
Theorem mcp_requests_consistent path (rm : ToolDomain F SF J) (w0 : WorkerTools) cs (x : X) h0 h :
  GetMcpToolNames rm = [] -> ownedMcpTools_ w0 = [] -> offers_apart (toolNames_ w0) remote ->
  boot_mcp mcp_factory remote path (mcp_initial rm) (Some w0) cs x = (h0, Ok tt) ->
  rtc (mcp_served (toolNames_ w0)) h0 h ->
  (forall id, id ∈ ActiveIds (mh_mcp h) -> exists e, ms_servers (mh_servers h) !! id = Some e /\ me_enabled e = true) /\
  exists w, mh_agent h = Some w /\
    forall n, n ∈ toolNames_ w <-> n ∈ toolNames_ w0 \/ n ∈ GetMcpToolNames (tools (mh_mcp h)).
Proof.
  intros Hrm Hw Hoff E Hrun. assert (mcp_ok (toolNames_ w0) h) as ((_ & _ & Hr) & _ & w & Hag & _ & Ht).
  { assert (mcp_ok (toolNames_ w0) h0) as Hz; [|clear E; induction Hrun; eauto using mcp_served_ok]. unfold boot_mcp in E. cbn [mh_servers] in E.
    destruct (ServerLoad (mkMcpServerManager path ∅) x) as [m [b|]] eqn:El; [|done].
    assert (keyed_servers m) as Hk by (eapply server_load_keyed; [|exact El]; intros k e Hk; cbn [ms_servers] in Hk; by rewrite lookup_empty in Hk).
    assert (managed (mcp_initial (F := F) (SF := SF) rm)) as Hm by (intros id p Hp; cbn in Hp; by rewrite lookup_empty in Hp).
    assert (apart (toolNames_ w0) (mcp_initial rm)) as Hap by (intros n Hn; cbn in Hn; rewrite Hrm in Hn; by apply elem_of_nil in Hn).
    assert (tools_synced (toolNames_ w0) (mcp_initial rm) (Some w0)) as Hsy.
    { exists w0. split; [done|]. cbn [mcp_initial tools]. rewrite Hrm, Hw. split; [done|]. intros n. rewrite elem_of_nil. tauto. }
    destruct (ToFrameworkConfigs m); [|by eapply (apply_registry_ok remote _ m x); [| | | | |exact E]].
    injection E as <-. split; [|by split]. split; [done|]. split; [done|]. intros id p Hp; cbn in Hp; by rewrite lookup_empty in Hp. }
  split; [|by exists w]. intros id Hid. unfold ActiveIds in Hid.
  apply list_elem_of_fmap in Hid as ([k p] & -> & [Hx _]%elem_of_filterb). apply elem_of_map_to_list in Hx. by apply (Hr k p).
Qed.

(** ** A server that is disabled and enabled again *)

Lemma load_stops cs (st st' : McpState) id : managed st -> NoDup (map mcp_id cs) -> id ∉ map mcp_id cs ->
  McpManager.Load mcp_factory remote cs st = (st', Ok tt) ->
  managed st' /\ servers_ st' !! id = None /\ lastConfigs_ st' !! id = lastConfigs_ st !! id.
Proof.
  intros Hm Hn Hid E. unfold McpManager.Load in E. destruct (stop_all_spec (to_remove cs st) st) as (Hs & Hl & Hm1).
  destruct (apply_all_spec _ _ _ _ _ _ (Hm1 Hm) Hn E) as (Hm2 & Hk & _). destruct (Hk id Hid) as [Hk1 Hk2]. split; [done|].
  split; [|by rewrite Hk2, Hl]. rewrite Hk1, Hs, lookup_delete_list. case_bool_decide as Hr; [done|].
  destruct (servers_ st !! id) as [p|] eqn:Ep; [|done]. destruct Hr. apply elem_of_to_remove.
  destruct (Hm _ _ Ep) as (c & Hc & _). split; [by eexists|done].
Qed.

Lemma apply_all_skips cs (st st' : McpState) id last r : managed st -> servers_ st !! id = None -> lastConfigs_ st !! id = Some last ->
  (forall c, c ∈ cs -> mcp_id c = id -> mcp_enabled c = true /\ ConfigChanged last c = false) ->
  apply_all mcp_factory remote cs st = (st', r) -> servers_ st' !! id = None.
Proof.
  revert st. induction cs as [|c cs IH]; intros st Hm Hs Hl Hc E; cbn [apply_all] in E; [by injection E as <- _|].
  destruct (McpManager.Apply mcp_factory (remote (mcp_id c)) c st) as [st1 r1] eqn:Ea.
  assert (managed st1 /\ servers_ st1 !! id = None /\ lastConfigs_ st1 !! id = Some last) as (Hm1 & Hs1 & Hl1).
  { destruct (decide (mcp_id c = id)) as [Hid|Hid].
    - destruct (Hc c ltac:(left) Hid) as [Hen Hch]. unfold McpManager.Apply in Ea. rewrite Hen, Hid, Hl, Hch in Ea. by injection Ea as <- _.
    - destruct (Apply_spec _ _ _ _ _ _ Hm Ea) as (Hm1 & Hk & _). destruct (Hk id ltac:(congruence)) as [-> ->]. done. }
  destruct r1 as [u|e]; [|by injection E as <- _]. eapply IH; try done. intros d Hd. apply Hc. by right.
Qed.

Lemma load_skips cs (st st' : McpState) id last r : managed st -> servers_ st !! id = None -> lastConfigs_ st !! id = Some last ->
  (forall c, c ∈ cs -> mcp_id c = id -> mcp_enabled c = true /\ ConfigChanged last c = false) ->
  McpManager.Load mcp_factory remote cs st = (st', r) -> servers_ st' !! id = None.
Proof.
  intros Hm Hs Hl Hc E. unfold McpManager.Load in E. destruct (stop_all_spec (to_remove cs st) st) as (Hs1 & Hl1 & Hm1).
  eapply apply_all_skips; [by apply Hm1| | |exact Hc|exact E]; [|by rewrite Hl1].
  rewrite Hs1, lookup_delete_list. by case_bool_decide.
Qed.

Lemma put_spec id body j e (h h1 : McpHub) rp : keyed_servers (mh_servers h) -> is_Some (ms_servers (mh_servers h) !! id) ->
  json_parse (J := J) body = Ok j -> entry_body id j = Ok e -> put_mcp_server mcp_factory remote id body h = (h1, Ok rp) -> rp_status rp < 400 ->
  ms_servers (mh_servers h1) = <[id := e]> (ms_servers (mh_servers h)) /\ keyed_servers (mh_servers h1) /\
  McpManager.Load mcp_factory remote (ToFrameworkConfigs (mh_servers h1)) (mh_mcp h) = (mh_mcp h1, Ok tt).
Proof.
  intros Hk [old Hold] Hj He E Hst. unfold put_mcp_server in E. rewrite Hj in E. cbn [obind] in E. rewrite He in E.
  unfold UpdateServer in E. rewrite Hold in E. pose proof (entry_body_id _ _ _ He) as Hid.
  assert (set_me_id id e = e) as Hset by (subst id; by destruct e). rewrite Hset in E.
  destruct (apply_registry _ _ _ _ h) as [h2 [[]|]] eqn:Er; [|refused E]. injection E as <- _.
  unfold apply_registry in Er. destruct (McpManager.Load _ _ _ _) as [st [[]|]] eqn:El; [|done]. injection Er as <-.
  cbn [mh_servers mh_mcp ms_servers set_ms] in *. split; [done|]. split; [|exact El]. intros k e' Hk'. cbn [ms_servers set_ms] in Hk'.
  apply lookup_insert_Some in Hk' as [[<- <-]|[_ Hk']]; [done|]. by apply Hk.
Qed.

(** Disabling a server and enabling it again with the settings it had leaves it
    stopped, although both changes are answered as made and the registry says enabled: the
    first one takes it from the list handed to the framework, which stops it but remembers
    its configuration, and the second one finds that configuration unchanged. *)
Theorem reenabled_server_stays_stopped id off on j1 j2 e1 e c (h h1 h2 : McpHub) rp1 rp2 :
  servers_ok h -> is_Some (ms_servers (mh_servers h) !! id) ->
  lastConfigs_ (mh_mcp h) !! id = Some c -> ConfigChanged c (EntryToConfig e) = false ->
  json_parse (J := J) off = Ok j1 -> entry_body id j1 = Ok e1 -> me_enabled e1 = false ->
  json_parse (J := J) on = Ok j2 -> entry_body id j2 = Ok e -> me_enabled e = true ->
  put_mcp_server mcp_factory remote id off h = (h1, Ok rp1) -> rp_status rp1 < 400 ->
  put_mcp_server mcp_factory remote id on h1 = (h2, Ok rp2) -> rp_status rp2 < 400 ->
  ms_servers (mh_servers h2) !! id = Some e /\ servers_ (mh_mcp h2) !! id = None.
Proof.
  intros (Hk & Hm & _) Hin Hl Hch Hj1 He1 Hoff Hj2 He Hon E1 Hs1 E2 Hs2.
  destruct (put_spec _ _ _ _ _ _ _ Hk Hin Hj1 He1 E1 Hs1) as (Hr1 & Hk1 & L1).
  assert (is_Some (ms_servers (mh_servers h1) !! id)) as Hin1 by (rewrite Hr1, lookup_insert_eq; by eexists).
  destruct (put_spec _ _ _ _ _ _ _ Hk1 Hin1 Hj2 He E2 Hs2) as (Hr2 & Hk2 & L2).
  destruct (framework_configs _ Hk1) as [Hn1 Hc1]. destruct (framework_configs _ Hk2) as [_ Hc2].
  assert (id ∉ map mcp_id (ToFrameworkConfigs (mh_servers h1))) as Hout.
  { intros (d & Hd & Hx)%list_elem_of_fmap. destruct (Hc1 d Hx) as (e' & He' & Hen & _). rewrite <- Hd, Hr1, lookup_insert_eq in He'. congruence. }
  destruct (load_stops _ _ _ id Hm Hn1 Hout L1) as (Hm1 & Hstop & Hlast).
  split; [by rewrite Hr2, lookup_insert_eq|]. eapply load_skips; [exact Hm1|exact Hstop|by rewrite Hlast| |exact L2].
  intros d Hd Hid. destruct (Hc2 d Hd) as (e' & He' & Hen & ->). rewrite Hid, Hr2, lookup_insert_eq in He'. injection He' as <-. done.
Qed.
End Steps.

(** ** The configurations of the agents after a deletion *)

Section Cascade.
Context {J : Type} `{JsonLaws J}.
Variable iter : forall V : Type, gmap string V -> list (string * V).
Hypothesis iter_perm : forall V (m : gmap string V), iter V m ≡ₚ map_to_list m.

Lemma clean_fields aid (l : list (string * J)) : clean_override aid (j_fields l) = j_fields (l ++ [("id", j_string aid)]).
Proof. unfold clean_override, j_fields. by rewrite view_j_object, fold_left_app. Qed.

Lemma is_object_fields (l : list (string * J)) : is_object (j_fields l) = true.
Proof. unfold is_object, j_fields. by rewrite view_j_object. Qed.

(** An override that names three members only: everything else is the default. *)
Lemma cascade_merge aid cfg ids (d merged : AgentConfig) :
  MergeAgentConfigFromJson (clean_override (J := J) aid (cascade_override cfg ids)) d = Ok merged ->
  mcpServerIds merged = ids /\ ac_id merged = aid /\ ac_name merged = ac_name d /\ maxIterations merged = maxIterations d /\
  defaultTools merged = defaultTools d /\ memoryConfig merged = memoryConfig d /\ skillDirectory merged = skillDirectory d.
Proof.
  unfold cascade_override. rewrite clean_fields. cbn [app]. set (mc := j_fields (("baseUrl", _) :: _)). unfold MergeAgentConfigFromJson.
  rewrite is_object_fields. cbn [negb]. rewrite !over_j_fields. unfold over_section, over_strings. rewrite !jfield_j_fields, !array_field_j_fields.
  cbn [assoc_last String.eqb Ascii.eqb Bool.eqb]. rewrite get_string_j_string. cbn [obind].
  destruct (MergeModelConfig mc (modelConfig d)) as [m|]; [|done]. cbn [obind]. intros [= <-].
  cbn [mcpServerIds ac_id ac_name maxIterations defaultTools memoryConfig skillDirectory].
  unfold j_strings. rewrite view_j_array, string_elements_map. done.
Qed.

Lemma override_spec k (j : J) (s s1 : ConfigStore J) : str_empty k = false -> UpsertOverride iter k j s = (s1, Ok tt) ->
  exists merged, MergeAgentConfigFromJson (clean_override k j) (default (blank_config k) (defaults_ s !! k)) = Ok merged /\
    current_ s1 = <[k := merged]> (current_ s) /\ defaults_ s1 = defaults_ s.
Proof.
  intros Hk E. unfold UpsertOverride in E. rewrite Hk in E. destruct (MergeAgentConfigFromJson _ _) as [merged|]; [|done].
  injection E as <-. exists merged. split; [done|].
  match goal with |- context [SaveLocked iter ?t] => destruct (SaveLocked_frame iter t) as (_ & -> & -> & _) end. done.
Qed.

Lemma filter_shorter id (l : list string) :
  Nat.eqb (length (List.filter (fun k => negb (String.eqb k id)) l)) (length l) = negb (existsb (String.eqb id) l).
Proof.
  assert (forall l, length (List.filter (fun k => negb (String.eqb k id)) l) <= length l)%nat as Hle
    by (intros l'; apply List.filter_length_le).
  induction l as [|k l IH]; [done|]. cbn [List.filter existsb length]. rewrite (String.eqb_sym id k).
  destruct (String.eqb k id); cbn [negb orb length]; [|exact IH]. apply Nat.eqb_neq. specialize (Hle l). lia.
Qed.

(** What the deletion of a server makes of the configuration of an agent. *)
Definition without (id : string) (d cfg cfg' : AgentConfig) : Prop :=
  if existsb (String.eqb id) (mcpServerIds cfg) then
    mcpServerIds cfg' = List.filter (fun k => negb (String.eqb k id)) (mcpServerIds cfg) /\ ac_id cfg' = ac_id cfg /\
    ac_name cfg' = ac_name d /\ maxIterations cfg' = maxIterations d /\ defaultTools cfg' = defaultTools d /\
    memoryConfig cfg' = memoryConfig d /\ skillDirectory cfg' = skillDirectory d
  else cfg' = cfg.

Lemma cascade_spec id cfgs (s s1 : ConfigStore J) :
  (forall cfg, cfg ∈ cfgs -> str_empty (ac_id cfg) = false /\ current_ s !! ac_id cfg = Some cfg) -> NoDup (map ac_id cfgs) ->
  cascade iter id cfgs s = (s1, Ok tt) ->
  (forall k, k ∉ map ac_id cfgs -> current_ s1 !! k = current_ s !! k) /\
  forall cfg, cfg ∈ cfgs -> exists cfg', current_ s1 !! ac_id cfg = Some cfg' /\
    without id (default (blank_config (ac_id cfg)) (defaults_ s !! ac_id cfg)) cfg cfg'.
Proof.
  revert s. induction cfgs as [|cfg cfgs IH]; intros s Hin Hn E; cbn [cascade] in E.
  { injection E as <-. split; [done|]. by intros cfg ?%elem_of_nil. }
  cbn [map] in Hn. apply NoDup_cons in Hn as [Hc Hn]. destruct (Hin cfg ltac:(left)) as [He Hcur]. rewrite filter_shorter in E.
  assert (Hstep : forall s0 cfg', current_ s0 = <[ac_id cfg := cfg']> (current_ s) -> defaults_ s0 = defaults_ s ->
    without id (default (blank_config (ac_id cfg)) (defaults_ s !! ac_id cfg)) cfg cfg' -> cascade iter id cfgs s0 = (s1, Ok tt) ->
    (forall k, k ∉ map ac_id (cfg :: cfgs) -> current_ s1 !! k = current_ s !! k) /\
    forall c, c ∈ cfg :: cfgs -> exists c', current_ s1 !! ac_id c = Some c' /\
      without id (default (blank_config (ac_id c)) (defaults_ s !! ac_id c)) c c').
  { intros s0 cfg' Hcs Hds Hw Ec. destruct (IH s0) as [Hout Hok]; try done.
    - intros c Hx. destruct (Hin c ltac:(by right)) as [Hce Hcc]. split; [done|]. rewrite Hcs, lookup_insert_ne; [done|].
      intros Heq. apply Hc. rewrite Heq. by apply list_elem_of_fmap_2.
    - rewrite Hds in Hok. split.
      + intros k [Hk1 Hk2]%not_elem_of_cons. rewrite Hout, Hcs by done. by rewrite lookup_insert_ne.
      + intros c [->|Hx]%elem_of_cons; [|by apply Hok]. exists cfg'. split; [|done]. rewrite Hout, Hcs by done. apply lookup_insert_eq. }
  destruct (existsb (String.eqb id) (mcpServerIds cfg)) eqn:Ex; cbn [negb] in E.
  - destruct (UpsertOverride _ _ _ s) as [s0 [[]|]] eqn:Eu; [|done]. destruct (override_spec _ _ _ _ He Eu) as (merged & Em & Hcs & Hds).
    apply (Hstep s0 merged); [done|done| |done]. unfold without. rewrite Ex.
    apply cascade_merge in Em as (-> & -> & -> & -> & -> & -> & ->). done.
  - apply (Hstep s cfg); [by rewrite insert_id|done| |done]. unfold without. by rewrite Ex.
Qed.
End Cascade.

Section Deleted.
Context {X F SF T J : Type} `{ToolFactories F SF T J} `{FileSystem X, FileRename X, JsonLaws J}.
Variable iter : forall V : Type, gmap string V -> list (string * V).
Hypothesis iter_perm : forall V (m : gmap string V), iter V m ≡ₚ map_to_list m.

(** A deletion takes the server from the configuration of every agent, and leaves the
    configurations that did not name it as they were.  In one that did, every setting that
    is not about the model falls back to the default of the agent, also one that an
    override had set. *)
Theorem deletion_cascades id (h h1 : McpHub (X := X) (F := F) (SF := SF) (J := J)) rp :
  (forall k cfg, current_ (mh_configs h) !! k = Some cfg -> ac_id cfg = k /\ str_empty k = false) ->
  delete_mcp_server iter id h = (h1, Ok rp) ->
  (forall k cfg', current_ (mh_configs h1) !! k = Some cfg' -> id ∉ mcpServerIds cfg') /\
  (forall k cfg, current_ (mh_configs h) !! k = Some cfg -> exists cfg', current_ (mh_configs h1) !! k = Some cfg' /\
     without id (default (blank_config k) (defaults_ (mh_configs h) !! k)) cfg cfg').
Proof.
  intros Hk E. unfold delete_mcp_server in E. destruct (DropServer id (mh_servers h) (mh_world h)) as [m x].
  destruct (cascade iter id _ (mh_configs h)) as [cs [[]|]] eqn:Ec; [|done]. injection E as <- _. cbn [mh_configs].
  assert (Hl : forall cfg, cfg ∈ AgentConfigStore.List iter (mh_configs h) <-> current_ (mh_configs h) !! ac_id cfg = Some cfg).
  { intros cfg. unfold AgentConfigStore.List. rewrite list_elem_of_fmap. split.
    - intros ([k c] & -> & Hx). rewrite iter_perm in Hx. apply elem_of_map_to_list in Hx. cbn. by rewrite (proj1 (Hk _ _ Hx)).
    - intros Hc. exists (ac_id cfg, cfg). split; [done|]. rewrite iter_perm. by apply elem_of_map_to_list. }
  assert (Hn : NoDup (map ac_id (AgentConfigStore.List iter (mh_configs h)))).
  { unfold AgentConfigStore.List. rewrite (iter_perm _ (current_ (mh_configs h))). rewrite map_map.
    rewrite (map_ext_in _ fst); [apply NoDup_fst_map_to_list|]. intros [k c] Hx%list_elem_of_In%elem_of_map_to_list. by apply Hk in Hx as [? _]. }
  destruct (cascade_spec iter id _ _ _ (fun cfg Hx => conj (proj2 (Hk _ _ (proj1 (Hl cfg) Hx))) (proj1 (Hl cfg) Hx)) Hn Ec) as [Hout Hok].
  assert (Hall : forall k cfg, current_ (mh_configs h) !! k = Some cfg -> exists cfg', current_ cs !! k = Some cfg' /\
     without id (default (blank_config k) (defaults_ (mh_configs h) !! k)) cfg cfg').
  { intros k cfg Hc. destruct (Hk _ _ Hc) as [<- _]. by apply Hok, Hl. }
  split; [|done]. intros k cfg' Hc'. destruct (current_ (mh_configs h) !! k) as [cfg|] eqn:Hc.
  - destruct (Hall k cfg Hc) as (c' & Hc1 & Hw). assert (c' = cfg') as -> by congruence. unfold without in Hw.
    destruct (existsb (String.eqb id) (mcpServerIds cfg)) eqn:Ex.
    + destruct Hw as [-> _]. rewrite elem_of_filterb, negb_true_iff, String.eqb_refl. by intros [_ ?].
    + subst cfg'. intros Hin%list_elem_of_In. apply not_true_iff_false in Ex. apply Ex, existsb_exists. exists id. by rewrite String.eqb_refl.
  - rewrite Hout in Hc'; [congruence|]. intros (cfg & -> & Hx%Hl)%list_elem_of_fmap. congruence.
Qed.
End Deleted.

(** ** Example *)

Section Example.
#[local] Instance ex_json : Json JsonTree.json := JsonTree.instance [].
#[local] Instance ex_laws : JsonLaws JsonTree.json := JsonTree.laws [] ltac:(by intros ? ?%elem_of_nil).
Definition ex_text (doc : JsonTree.json) : string := match json_dump None doc with Ok t => t | Throw _ => "" end.
Definition ex_entry_doc (enabled : bool) : JsonTree.json :=
  j_fields [("id", j_string "search"); ("url", j_string "http://h/mcp"); ("enabled", j_bool enabled)].
Definition ex_overridden : ConfigStore JsonTree.json :=
  (UpsertOverride ex_iter "a" (j_fields [("mcpServerIds", j_strings ["search"; "files"]); ("maxIterations", j_int 3)])
    (AgentConfigStore.Load ex_iter (RegisterDefault ex_default (fresh_config_store ∅ true true))).1).1.
Definition ex_boot := boot_mcp (X := MemDisk.disk) (F := ToolInfo) (SF := ToolInfo) (J := JsonTree.json)
  (fun i _ => i) ex_remote "m.json" (mcp_initial empty_tools) (Some (mkWorkerTools ["exec"] [])) ex_overridden (MemDisk.mkDisk [] 0).
Definition ex_run := serve_mcp (X := MemDisk.disk) (F := ToolInfo) (SF := ToolInfo) (J := JsonTree.json) (fun i _ => i) ex_remote ex_iter.
Definition ex_created := (ex_run (MrCreate (ex_text (ex_entry_doc true))) ex_boot.1).1.
Definition ex_off := (ex_run (MrChange "search" (ex_text (ex_entry_doc false))) ex_created).1.
Definition ex_on := (ex_run (MrChange "search" (ex_text (ex_entry_doc true))) ex_off).1.

Lemma ex_apart : offers_apart ["exec"] ex_remote.
Proof.
  intros id ok ts t E Ht. unfold ex_remote in E. repeat case_match; try discriminate E; injection E as <- <-;
    repeat (apply elem_of_cons in Ht as [->|Ht]; [refine (bool_decide_unpack _ _); vm_compute; exact I|]); by apply elem_of_nil in Ht.
Qed.

Lemma ex_served rq h : (exists rp, (ex_run rq h).2 = Ok rp /\ rp_status rp < 400) ->
  mcp_served (fun i _ => i) ex_iter ["exec"] h (ex_run rq h).1.
Proof.
  intros (rp & E & Hst). exists ex_remote, rq, rp. split; [apply ex_apart|]. split; [|done].
  rewrite <- E. unfold ex_run. by destruct (serve_mcp _ _ _ _ _).
Qed.

Lemma mcp_requests_consistent_witness :
  ActiveIds (mh_mcp ex_created) = ["search"] /\ toolNames_ <$> mh_agent ex_created = Some ["exec"; "find"] /\
  (forall id, id ∈ ActiveIds (mh_mcp ex_off) -> exists e, ms_servers (mh_servers ex_off) !! id = Some e /\ me_enabled e = true) /\
  exists w, mh_agent ex_off = Some w /\
    forall n, n ∈ toolNames_ w <-> n ∈ ["exec"] \/ n ∈ GetMcpToolNames (tools (mh_mcp ex_off)).
Proof.
  split; [vm_compute; reflexivity|]. split; [vm_compute; reflexivity|].
  apply (mcp_requests_consistent (X := MemDisk.disk) (F := ToolInfo) (SF := ToolInfo) (J := JsonTree.json) (fun i _ => i) ex_remote ex_iter
           "m.json" empty_tools (mkWorkerTools ["exec"] []) ex_overridden (MemDisk.mkDisk [] 0) ex_boot.1).
  - vm_compute. reflexivity.
  - reflexivity.
  - apply ex_apart.
  - vm_compute. reflexivity.
  - eapply rtc_l; [apply (ex_served (MrCreate (ex_text (ex_entry_doc true))))|
      eapply rtc_once, (ex_served (MrChange "search" (ex_text (ex_entry_doc false))))];
      (eexists; split; [vm_compute; reflexivity | reflexivity]).
Defined.

Lemma reenabled_server_stays_stopped_witness :
  exists e, ms_servers (mh_servers ex_on) !! "search" = Some e /\ me_enabled e = true /\ servers_ (mh_mcp ex_on) !! "search" = None.
Proof.
  assert (servers_ok ex_created) as Hok.
  { apply (mcp_served_ok (X := MemDisk.disk) (F := ToolInfo) (SF := ToolInfo) (J := JsonTree.json) (fun i _ => i) ex_remote ex_iter ["exec"] ex_boot.1);
      [|apply ex_served; eexists; split; [vm_compute; reflexivity | reflexivity]].
    split; [split; [|split]; intros k e Hk; vm_compute in Hk; by destruct k|].
    split; [intros n Hn; vm_compute in Hn; by apply elem_of_nil in Hn|].
    eexists. split; [vm_compute; reflexivity|]. split; intros n; vm_compute; [done|].
    split; [by left | intros [?|Hn]; [done | by apply elem_of_nil in Hn]]. }
  eexists. split; [vm_compute; reflexivity|]. split; [reflexivity|].
  eapply (reenabled_server_stays_stopped (X := MemDisk.disk) (F := ToolInfo) (SF := ToolInfo) (J := JsonTree.json) (fun i _ => i) ex_remote
    "search" (ex_text (ex_entry_doc false)) (ex_text (ex_entry_doc true)) (ex_entry_doc false) (ex_entry_doc true)
    _ _ _ ex_created ex_off ex_on); [exact Hok|..]; try (vm_compute; reflexivity); vm_compute; by eexists.
Defined.

Lemma deletion_cascades_witness :
  (maxIterations <$> current_ (mh_configs ex_created) !! "a") = Some 3 /\
  exists rp, delete_mcp_server ex_iter "search" ex_created = ((ex_run (MrDelete "search") ex_created).1, Ok rp) /\
  exists cfg, current_ (mh_configs (ex_run (MrDelete "search") ex_created).1) !! "a" = Some cfg /\
    mcpServerIds cfg = ["files"] /\ maxIterations cfg = 10.
Proof.
  split; [vm_compute; reflexivity|]. eexists. split; [vm_compute; reflexivity|].
  edestruct (deletion_cascades (X := MemDisk.disk) (F := ToolInfo) (SF := ToolInfo) (J := JsonTree.json) ex_iter (fun V m => reflexivity _)
    "search" ex_created (ex_run (MrDelete "search") ex_created).1) as [_ Hall]; [|vm_compute; reflexivity|].
  - intros k cfg Hc. assert (map_Forall (fun k c => ac_id c = k /\ str_empty k = false) (current_ (mh_configs ex_created))) as Hf
      by (refine (bool_decide_unpack _ _); vm_compute; exact I). by apply Hf.
  - edestruct (Hall "a") as (cfg & Hc & Hw); [vm_compute; reflexivity|]. exists cfg. split; [exact Hc|].
    vm_compute in Hw. tauto.
Defined.
End Example.
