(* ===== verification/HttpSessions.v ===== *)
(** * The session endpoints (examples/jiuwenClaw/adapters/http_server/http_server.cpp)

    The handlers about sessions, history, chats, answers, tools and skills, over the
    session manager (SessionManager.v).  What a request does to the manager is one of its
    actions; the theorem is that no request and no interleaving removes the default
    session. *)
From Stdlib Require Import ZArith Lia String Ascii List.
From stdpp Require Import base decidable list strings gmap sets pretty.
From S2P Require Import Prelude Numbers Encoding Types JsonLib SkillEngine Agent SessionManager CronJobs FeishuBot HttpStream HttpChannels.
Open Scope Z_scope.

Definition kHeartbeatSessionId : string := "__HEARTBEAT__".

Section Handlers.
Context {J : Type} `{Json J}.
Variable iter : forall V : Type, gmap string V -> list (string * V).
Local Notation reply := (outcome HttpReply).

(** ** Sessions *)

Definition GetSessionIds (m : Manager) : list string := map fst (iter _ (sessions_ m)).
(** [GetSessionMetadata]: nothing ever writes the metadata of a session. *)
Definition session_metadata (sessionId : string) (m : Manager) : gmap string string := ∅.

Definition get_health (m : Manager) : reply :=
  json_reply 200 (j_fields [("status", j_string "ok"); ("sessions", j_int (Z.of_nat (length (GetSessionIds m))))] : J).

Definition listed (id : string) : bool := negb (String.eqb id kHeartbeatSessionId || String.eqb id kCronSessionId).
Definition session_entry (m : Manager) (id : string) : J :=
  j_fields [("id", j_string id); ("busy", j_bool (SessionManager.IsSessionBusy id m));
            ("metadata", j_object (j_string <$> session_metadata id m))].
Definition get_sessions (m : Manager) : reply :=
  let shown := List.filter listed (GetSessionIds m) in
  json_reply 200 (j_fields [("sessions", j_array (map (session_entry m) shown)); ("count", j_int (Z.of_nat (length shown)))] : J).

(** The id of a new session; [ms] is the clock in milliseconds. *)
Definition new_session_id (id : string) (ms : Z) : string :=
  if str_empty id then "session_" +:+ to_string (Z.rem ms 10000) else id.
Definition post_session (body : string) (ms : Z) : option action * reply :=
  match (j <-- json_parse (J := J) body ;; value_str "id" "" j) with
  | Throw _ => (None, json_reply 400 (j_fields [("error", j_string "Invalid JSON")] : J))
  | Ok id =>
      let id := new_session_id id ms in
      (Some (AGetOrCreate id), id_reply (J := J) 201 id "created")
  end.

Definition undeletable (id : string) : bool :=
  String.eqb id kDefaultSessionId || String.eqb id kHeartbeatSessionId || String.eqb id kCronSessionId.
Definition delete_session (id : string) : option action * reply :=
  if undeletable id then (None, json_reply 400 (j_fields [("error", j_string "Cannot delete reserved session")] : J))
  else (Some (ANewRemove id), id_reply (J := J) 200 id "deleted").

Definition cancel_session (id : string) : option action * reply :=
  (Some ACancel, json_reply 200 (j_fields [("message", j_string "cancel requested"); ("session_id", j_string id)] : J)).

(** ** History *)

Definition history_call (tc : ToolCall) : J :=
  j_fields [("id", j_string (tc_id tc)); ("name", j_string (tc_name tc)); ("arguments", j_string (tc_argumentsJson tc))].
Definition history_entry (msg : Message) : J :=
  j_fields ([("role", j_string (m_role msg)); ("content", j_string (m_content msg))]
    ++ match m_toolCalls msg with [] => [] | l => [("tool_calls", j_array (map history_call l))] end
    ++ (if str_empty (m_toolCallId msg) then [] else [("tool_call_id", j_string (m_toolCallId msg))])
    ++ (if str_empty (m_toolName msg) then [] else [("tool_name", j_string (m_toolName msg))])).
(** [messages] are those of the context of the session, none when there is no such
    session. *)
Definition get_history (id : string) (messages : outcome (list Message)) : reply :=
  match (l <-- messages ;;
         json_reply 200 (j_fields [("session_id", j_string id); ("messages", j_array (map history_entry l));
                                   ("count", j_int (Z.of_nat (length l)))] : J)) with
  | Ok rp => Ok rp
  | Throw e => json_reply 500 (j_fields [("error", j_string "Failed to retrieve history"); ("detail", j_string e)] : J)
  end.

(** ** Chats *)

(** The session and the message of a chat, or the answer that refuses it. *)
Definition read_chat (body : string) : (string * string) + reply :=
  match (j <-- json_parse (J := J) body ;; sid <-- value_str "session_id" kDefaultSessionId j ;;
         msg <-- value_str "message" "" j ;; Ok (sid, msg)) with
  | Throw e => inr (invalid_json (J := J) e)
  | Ok (sid, msg) =>
      if str_empty msg then inr (json_reply 400 (j_fields [("error", j_string "message is required")] : J))
      else inl (sid, msg)
  end.
(** [invoke] is what the session manager answers. *)
Definition post_chat (invoke : string -> string -> string * InvokeResult) (body : string) : option action * reply :=
  match read_chat body with
  | inr r => (None, r)
  | inl (sid, msg) => let '(id, r) := invoke sid msg in (Some (ANewInvoke sid), json_reply 200 (chat_result_json id r : J))
  end.

(** ** Answers *)

(** [provide] is [ProvideUserResponse] when there is a live agent. *)
Definition post_answer (provide : option (string -> string -> bool)) (body : string) : reply :=
  let refuse e := json_reply 400 (j_fields [("ok", j_bool false); ("error", j_string e)] : J) in
  match (j <-- json_parse (J := J) body ;; rid <-- value_str "request_id" "" j ;; answer <-- value_str "answer" "" j ;; Ok (rid, answer)) with
  | Throw e => refuse e
  | Ok (rid, answer) =>
      if str_empty rid then refuse "request_id required"
      else if match provide with Some f => f rid answer | None => false end
      then json_reply 200 (j_fields [("ok", j_bool true)] : J)
      else json_reply 404 (j_fields [("ok", j_bool false); ("error", j_string "request_id not pending (already answered or expired)")] : J)
  end.

(** ** Tools and skills *)

Definition get_tools (tools : list string) : reply :=
  json_reply 200 (j_fields [("tools", j_array (map j_string tools)); ("count", j_int (Z.of_nat (length tools)))] : J).

Definition skill_fields (s : Skill) : list (string * J) :=
  [("id", j_string (sk_id s)); ("name", j_string (if str_empty (sk_name s) then sk_id s else sk_name s));
   ("description", j_string (sk_description s)); ("directory", j_string (sk_directory s))].
(** [None]: no live agent. *)
Definition get_skills (e : option SkillEngine) : reply :=
  let skills := match e with Some e => GetAllSkills e | None => [] end in
  json_reply 200 (j_fields [("skills", j_array (map (fun s => j_fields (skill_fields s)) skills));
                            ("count", j_int (Z.of_nat (length skills)));
                            ("root_dir", j_string (match e with Some e => rootDir_ e | None => "" end))] : J).
Definition get_skill (e : option SkillEngine) (id : string) : reply :=
  match e with
  | None => json_reply 404 (j_fields [("error", j_string "agent unavailable")] : J)
  | Some e =>
      let s := GetSkill id e in
      if str_empty (sk_id s) then json_reply 404 (j_fields [("error", j_string "skill not found"); ("id", j_string id)] : J)
      else json_reply 200 (j_fields (skill_fields s ++ [("body", j_string (sk_body s))]) : J)
  end.
End Handlers.

(** ** The reserved sessions *)

(** A reserved session that no call is about to erase. *)
Definition guarded (sid : string) (m : Manager) : Prop :=
  sid ∈ reservedSessions_ m /\ forall i, calls m !! i <> Some (Erasing sid).
Definition has_session (sid : string) (m : Manager) : Prop := is_Some (sessions_ m !! sid).
(** Nothing is erased, reserved or called. *)
Definition only_grows (m m' : Manager) : Prop :=
  reservedSessions_ m' = reservedSessions_ m /\ calls m' = calls m /\ forall sid, has_session sid m -> has_session sid m'.

Lemma create_grows sid m : only_grows m (FindOrCreateEntry sid m).1.
Proof.
  unfold only_grows, FindOrCreateEntry. destruct (sessions_ m !! sid) as [e|]; [done|]. cbn. split_and!; [done..|].
  intros s Hs. unfold has_session. cbn. destruct (decide (s = sid)) as [->|Hne]; [rewrite lookup_insert_eq; by eexists|].
  by rewrite lookup_insert_ne.
Qed.

Lemma bind_grows sid m m1 e a : bind_entry sid m = Some (m1, e, a) -> only_grows m m1.
Proof.
  unfold bind_entry. pose proof (create_grows sid m) as Hg. destruct (FindOrCreateEntry sid m) as [m0 e0]. cbn [fst] in Hg.
  destruct (entries m0 !! e0) as [en|]; [|done]. intros [= <- _ _]. by destruct (is_draining _ _).
Qed.

(** A move of one call. *)
Lemma move_guarded sid i c m m1 m' : guarded sid m -> only_grows m m1 -> m' = set_calls (<[i := c]> (calls m1)) m1 \/
    (reservedSessions_ m' = reservedSessions_ m1 /\ calls m' = <[i := c]> (calls m1) /\ sessions_ m' = sessions_ m1) ->
  c <> Erasing sid -> guarded sid m' /\ (has_session sid m -> has_session sid m').
Proof.
  intros [Hr Hc] (Er & Ec & Eg) Hm Hne.
  assert (reservedSessions_ m' = reservedSessions_ m1 /\ calls m' = <[i := c]> (calls m1) /\ sessions_ m' = sessions_ m1) as (Er' & Ec' & Es')
    by (destruct Hm as [->|]; done).
  split; [|intros Hs; unfold has_session; rewrite Es'; by apply Eg]. split; [by rewrite Er', Er|]. intros j Hj.
  rewrite Ec', Ec in Hj. apply list_lookup_insert_Some in Hj as [(_ & ? & _)|[_ Hj]]; [done|by apply (Hc j)].
Qed.

Lemma step_guarded sid i m m' : guarded sid m -> step i m = Some m' \/ step_throws i m = Some m' ->
  guarded sid m' /\ (has_session sid m -> has_session sid m').
Proof.
  intros Hg E. assert (only_grows m m) as Hm by done. pose proof Hg as [Hr Hc].
  assert (exists c, calls m !! i = Some c) as [c Ei].
  { destruct E as [E|E]; unfold step, step_throws in E; destruct (calls m !! i); eauto; done. }
  destruct E as [E|E]; [unfold step in E|unfold step_throws in E]; rewrite Ei in E.
  all: destruct c as [s|s|s|s e a|s e a|s e a|s e a ok|s e a ok|s e ok|s ok|s|s|s|s dir r|s r|s]; cbn in E; try discriminate E.
  all: try (injection E as <-; eapply move_guarded; [done|exact Hm|right; split_and!; reflexivity|done]).
  - destruct (_ && _) in E; injection E as <-; (eapply move_guarded; [done|exact Hm|right; split_and!; reflexivity|done]).
  - destruct (_ <? _) in E; [|done]. injection E as <-. eapply move_guarded; [done|exact Hm|right; split_and!; reflexivity|done].
  - destruct (bind_entry s m) as [[[m1 e] a]|] eqn:Eb; [|done]. injection E as <-.
    eapply move_guarded; [done|by eapply bind_grows|by left|done].
  - destruct (entries m !! e) as [en|]; [|done]. cbn in E. destruct (invokeMutex en); [done|]. injection E as <-.
    eapply move_guarded; [done|exact Hm|right; split_and!; reflexivity|done].
  - injection E as <-. eapply move_guarded; [done|exact Hm|right; split_and!; reflexivity|].
    destruct (str_empty s || bool_decide (s ∈ reservedSessions_ m)) eqn:Ex; [done|]. intros [= ->].
    rewrite bool_decide_eq_true_2 in Ex by done. by rewrite orb_true_r in Ex.
  - injection E as <-. assert (s <> sid) as Hne by (intros ->; by apply (Hc i)). split.
    + split; [done|]. intros j Hj. cbn in Hj. apply list_lookup_insert_Some in Hj as [(_ & ? & _)|[_ Hj]]; [done|by apply (Hc j)].
    + unfold has_session. cbn. by rewrite lookup_delete_ne.
  - injection E as <-. eapply (move_guarded sid i (Deleted s r)); [done|exact Hm| |done]. right. split_and!; (by repeat case_match).
  - destruct (sessions_ m !! s); [done|]. injection E as <-. eapply move_guarded; [done|exact Hm|right; split_and!; reflexivity|done].
Qed.

Lemma exec_guarded sid act m m' : guarded sid m -> exec act m = Some m' ->
  guarded sid m' /\ (has_session sid m -> has_session sid m').
Proof.
  intros Hg E. destruct act as [s|s|i|i|cfg b|s|s|]; cbn [exec] in E; try (by eapply step_guarded; eauto); injection E as <-.
  all: pose proof Hg as [Hr Hc].
  - split; [|done]. split; [done|]. intros j Hj. cbn in Hj. apply lookup_app_Some in Hj as [Hj|[_ Hj]]; [by apply (Hc j)|].
    apply list_lookup_singleton_Some in Hj as [_ Hj]. by destruct (initialized_ m).
  - split; [|done]. split; [done|]. intros j Hj. cbn in Hj. apply lookup_app_Some in Hj as [Hj|[_ Hj]]; [by apply (Hc j)|].
    by apply list_lookup_singleton_Some in Hj as [_ Hj].
  - unfold ReloadAgent. by destruct (initialized_ m), b.
  - destruct (create_grows s m) as (Er & Ec & Eg). unfold GetOrCreateSession. split; [|apply Eg]. unfold guarded. by rewrite Er, Ec.
  - unfold RegisterReservedSession. destruct (str_empty s); [done|]. split; [|done]. split; [cbn; set_solver|done].
  - done.
Qed.

Lemma steps_guarded sid allowed m m' : guarded sid m -> steps allowed m m' -> guarded sid m' /\ (has_session sid m -> has_session sid m').
Proof.
  intros Hg. induction 1 as [|m1 m2 _ [Hg1 Hs1] (act & _ & E)]; [done|]. destruct (exec_guarded _ _ _ _ Hg1 E) as [Hg2 Hs2]. auto.
Qed.

(** The application at its start: the manager restores the sessions of the disk and the
    default one, and two more ids are reserved. *)
Definition boot_sessions (absolute : string -> string) (dirs : list string) (creatable : string -> bool) (config : AgentConfig) : Manager :=
  RegisterReservedSession kCronSessionId (RegisterReservedSession kHeartbeatSessionId
    (Initialize absolute dirs creatable config manager_new)).
Definition reserved_ids : list string := [kDefaultSessionId; kHeartbeatSessionId; kCronSessionId].

Lemma restore_grows creatable l m : only_grows m (fold_left (restore creatable) l m).
Proof.
  revert m. induction l as [|s l IH]; intros m; [done|]. cbn [fold_left]. destruct (IH (restore creatable m s)) as (Er & Ec & Eg).
  assert (only_grows m (restore creatable m s)) as (Er0 & Ec0 & Eg0)
    by (unfold restore; destruct (creatable s); [apply create_grows|done]).
  split; [by rewrite Er|]. split; [by rewrite Ec|]. auto.
Qed.

Lemma boot_guarded absolute dirs creatable config sid : sid ∈ reserved_ids ->
  guarded sid (boot_sessions absolute dirs creatable config).
Proof.
  intros Hin. unfold boot_sessions, Initialize. set (names := _ ++ [kDefaultSessionId]).
  destruct (restore_grows creatable names (start_manager absolute config manager_new)) as (Er & Ec & _).
  set (m := fold_left _ names _) in *.
  assert (reservedSessions_ m = {[kDefaultSessionId]} /\ calls m = []) as [Er' Ec']
    by (rewrite Er, Ec; unfold start_manager; by destruct (0 <? _)).
  split.
  - cbn. rewrite Er'. unfold reserved_ids in Hin. set_solver.
  - intros i. cbn. by rewrite Ec'.
Qed.

(** C32.  Whatever clients and the application do, and however the calls interleave, the
    default session is there from the start on, and the sessions of the heartbeat and of
    reminders stay once they are there, with everything that is in them: a removal that
    names one of the three ends without an effect, over HTTP it is refused. *)
Theorem reserved_sessions_stay absolute dirs creatable config (m1 m2 : Manager) sid :
  creatable kDefaultSessionId = true -> sid ∈ reserved_ids ->
  steps (fun _ => true) (boot_sessions absolute dirs creatable config) m1 -> steps (fun _ => true) m1 m2 ->
  has_session kDefaultSessionId m1 /\ (has_session sid m1 -> has_session sid m2) /\
  (delete_session (J := JsonTree.json) (H := JsonTree.instance []) sid).1 = None.
Proof.
  intros Hc Hin H1 H2. split; [|split].
  - eapply (steps_guarded kDefaultSessionId); [|exact H1|]; [apply boot_guarded; by left|].
    assert (has_session kDefaultSessionId (fold_left (restore creatable) [kDefaultSessionId]
      (fold_left (restore creatable) (List.filter (fun d => negb (front_is "." d) && negb (str_empty d)) dirs) (start_manager absolute config manager_new)))) as Hd.
    { cbn [fold_left]. unfold restore at 1. rewrite Hc. unfold GetOrCreateSession, FindOrCreateEntry. set (m := fold_left _ _ _).
      unfold has_session. destruct (sessions_ m !! kDefaultSessionId) eqn:E; [by eexists|]. cbn. rewrite lookup_insert_eq. by eexists. }
    rewrite <- fold_left_app in Hd. exact Hd.
  - destruct (steps_guarded sid _ _ _ (boot_guarded absolute dirs creatable config sid Hin) H1) as [Hg _].
    by apply (steps_guarded sid (fun _ => true)).
  - unfold delete_session. assert (undeletable sid = true) as ->; [|done]. unfold reserved_ids in Hin.
    repeat (apply elem_of_cons in Hin as [->|Hin]); [done..|by apply elem_of_nil in Hin].
Qed.

(** ** Example *)

Section Example.
Definition ex_boot_sessions : Manager := boot_sessions (fun p => p) ["work"; ".tmp"] (fun _ => true) default_AgentConfig.
Definition ex_remove (m : Manager) : Manager := default m (exec_all [ANewRemove kDefaultSessionId; AStep 0] m).

Lemma reserved_sessions_stay_witness :
  has_session kDefaultSessionId (ex_remove ex_boot_sessions) /\ calls (ex_remove ex_boot_sessions) = [Removed kDefaultSessionId].
Proof.
  assert (steps (fun _ => true) ex_boot_sessions (ex_remove ex_boot_sessions)) as Hs.
  { eapply reach_step; [eapply reach_step; [apply reach_refl|]|].
    - exists (ANewRemove kDefaultSessionId). split; [done|]. reflexivity.
    - exists (AStep 0). split; [done|]. vm_compute. reflexivity. }
  split; [|vm_compute; reflexivity].
  exact (proj1 (reserved_sessions_stay (fun p => p) ["work"; ".tmp"] (fun _ => true) default_AgentConfig
    (ex_remove ex_boot_sessions) (ex_remove ex_boot_sessions) kDefaultSessionId eq_refl ltac:(by left) Hs (reach_refl _ _))).
Defined.
End Example.
