(* ===== verification/HttpAgents.v ===== *)
(** * The agent endpoints (examples/jiuwenClaw/adapters/http_server/http_server.cpp,
    ReloadAgent of examples/jiuwenClaw/main.cpp)

    The handlers that list, show, change, reset and reload the configurations of agents,
    over the configuration store (AgentConfigStore.v) and the session manager
    (SessionManager.v).  The theorem compares the configuration the live agent gets with
    the one the store keeps. *)
From Stdlib Require Import ZArith Lia String Ascii List.
From stdpp Require Import base decidable list strings gmap sets.
From S2P Require Import Prelude Encoding Types JsonLib AgentConfigJson AgentConfigStore Agent SessionManager HttpChannels.
Open Scope Z_scope.

Definition set_ac_id (id : string) (c : AgentConfig) : AgentConfig :=
  mkAgentConfig id (ac_name c) (ac_description c) (ac_version c) (ac_mode c) (modelConfig c) (promptTemplates c)
    (contextConfig c) (dreamConfig c) (memoryConfig c) (skillDirectory c) (maxIterations c) (dataBasePath c)
    (maxConcurrentSessions c) (defaultTools c) (toolDisclosureMode c) (toolSchemaTokenBudget c)
    (toolCatalogTokenBudget c) (alwaysOnTools c) (mcpServerIds c).

Section Agents.
Context {J : Type} `{Json J}.
Variable iter : forall V : Type, gmap string V -> list (string * V).
(** What the construction of an agent throws, if it does. *)
Variable constructs : AgentConfig -> option string.

Definition AgentHub : Type := ConfigStore J * Manager.

(** [ReloadAgent(cfg, &error)]: the error it reports. *)
Definition reload_live (cfg : AgentConfig) (m : Manager) : Manager * option string :=
  if negb (initialized_ m) then (m, Some "SessionManager not initialized")
  else
    match constructs cfg with
    | Some e => ((ReloadAgent cfg false m).1, Some e)
    | None => ((ReloadAgent cfg true m).1, None)
    end.

Definition get_agents (h : AgentHub) : outcome HttpReply :=
  let l := AgentConfigStore.List iter h.1 in
  json_reply 200 (j_fields [("agents", j_array (map AgentConfigToJson l)); ("count", j_int (Z.of_nat (length l)))] : J).
Definition agent_not_found (id : string) : outcome HttpReply :=
  json_reply 404 (j_fields [("error", j_string "agent not found"); ("id", j_string id)] : J).
Definition get_agent (id : string) (h : AgentHub) : outcome HttpReply :=
  match Get id h.1 with
  | None => agent_not_found id
  | Some cfg => json_reply 200 (AgentConfigToJson cfg : J)
  end.

Definition put_agent (id body : string) (h : AgentHub) : AgentHub * outcome HttpReply :=
  let '(cs, m) := h in
  match (j <-- json_parse body ;; base <-- MergeAgentConfigFromJson j (default (blank_config id) (Get id cs)) ;; Ok (j, base)) with
  | Throw e => (h, invalid_json (J := J) e)
  | Ok (j, base) =>
      let base := set_ac_id id base in
      match UpsertOverride iter id j cs with
      | (cs, Throw e) => ((cs, m), invalid_json (J := J) e)
      | (cs, Ok _) =>
          let liveId := ac_id (config_ m) in
          let live := String.eqb liveId id || str_empty liveId in
          let '(m, err) := if live then reload_live base m else (m, None) in
          match err with
          | Some e => ((cs, m), caught (J := J) (json_reply 500 (j_fields [("error", j_string "agent rebuild failed"); ("detail", j_string e)] : J)))
          | None => ((cs, m), caught (J := J) (json_reply 200 (j_fields [("id", j_string id); ("updated", j_bool true); ("reloaded", j_bool live)] : J)))
          end
      end
  end.

Definition delete_agent (id : string) (h : AgentHub) : AgentHub * outcome HttpReply :=
  let '(cs, m) := h in
  let cs := Remove iter id cs in
  let m := if String.eqb (ac_id (config_ m)) id
           then match Get id cs with Some cfg => (reload_live cfg m).1 | None => m end
           else m in
  ((cs, m), id_reply (J := J) 200 id "override_removed").

(** Without a [try]. *)
Definition reload_agents (h : AgentHub) : AgentHub * outcome HttpReply :=
  let '(cs, m) := h in
  match Load iter cs with
  | (cs, Throw e) => ((cs, m), Throw e)
  | (cs, Ok eff) =>
      let liveId := ac_id (config_ m) in
      let count := ("count", j_int (Z.of_nat (length (map_to_list eff)))) in
      match eff !! liveId with
      | None =>
          ((cs, m), json_reply 200 (j_fields [count; ("success", j_bool true); ("reloaded_id", j_null);
                      ("note", j_string "no entry for live agent in agents.json; left untouched")] : J))
      | Some cfg =>
          match reload_live cfg m with
          | (m, None) => ((cs, m), json_reply 200 (j_fields [count; ("reloaded_id", j_string liveId); ("success", j_bool true)] : J))
          | (m, Some e) => ((cs, m), json_reply 500 (j_fields [count; ("success", j_bool false); ("error", j_string e)] : J))
          end
      end
  end.

(** [ReloadAgent(agentId)] of the console and of the file watcher. *)
Definition reload_by_id (agentId : string) (h : AgentHub) : AgentHub * outcome bool :=
  let '(cs, m) := h in
  match Load iter cs with
  | (cs, Throw e) => ((cs, m), Throw e)
  | (cs, Ok _) =>
      let id := if negb (str_empty agentId) then agentId
                else if negb (str_empty (ac_id (config_ m))) then ac_id (config_ m) else "demo-agent" in
      match Get id cs with
      | None => ((cs, m), Ok false)
      | Some cfg => let '(m, err) := reload_live cfg m in ((cs, m), Ok (match err with None => true | Some _ => false end))
      end
  end.
End Agents.

(** ** The live configuration and the stored one *)

Section Divergence.
Context {J : Type} `{JsonLaws J}.
Variable iter : forall V : Type, gmap string V -> list (string * V).
Variable constructs : AgentConfig -> option string.

(** A member the document does not have stays as it was. *)
Lemma merge_keeps_iterations (j : J) (out c : AgentConfig) : jfield "maxIterations" j = None ->
  MergeAgentConfigFromJson j out = Ok c -> maxIterations c = maxIterations out.
Proof.
  intros Hf E. unfold MergeAgentConfigFromJson in E. destruct (negb (is_object j)); [by injection E as <-|].
  assert (forall (o : Z), over json_get_int "maxIterations" o j = Ok o) as Ho by (intros o; unfold over; by rewrite Hf).
  rewrite Ho in E. repeat (match type of E with context [(_ <-- ?m ;; _)] => destruct m; cbn [obind] in E; [|done] end).
  by injection E as <-.
Qed.

Lemma clean_field id (j : J) k : k <> "id" -> is_object j = true -> jfield k (clean_override id j) = jfield k j.
Proof.
  intros Hk Hj. unfold clean_override. rewrite jfield_j_object, lookup_insert_ne by done.
  unfold is_object in Hj. unfold jfield. by destruct (json_view j).
Qed.

Lemma merge_sets_iterations (j v : J) (out c : AgentConfig) : is_object j = true -> jfield "maxIterations" j = Some v ->
  MergeAgentConfigFromJson j out = Ok c -> json_get_int v = Ok (maxIterations c).
Proof.
  intros Ho Hf E. unfold MergeAgentConfigFromJson in E. rewrite Ho in E. cbn [negb] in E.
  assert (forall (o : Z), over json_get_int "maxIterations" o j = json_get_int v) as Hv by (intros o; unfold over; by rewrite Hf).
  rewrite Hv in E. destruct (json_get_int v) as [n|e].
  2:{ repeat (match type of E with context [(_ <-- ?m ;; _)] => destruct m; cbn [obind] in E; [|done] end). done. }
  repeat (match type of E with context [(_ <-- ?m ;; _)] => destruct m; cbn [obind] in E; [|done] end).
  by injection E as <-.
Qed.

(** One change of an agent: the live one is rebuilt from the store's entry with the members
    of the body laid over it, while the store keeps the default with the members of the
    body laid over it. *)
Lemma put_agent_spec id body (j : J) cs m cs1 m1 rp :
  let cur := default (blank_config id) (Get id cs) in
  str_empty id = false -> json_parse (J := J) body = Ok j -> is_object j = true ->
  put_agent iter constructs id body (cs, m) = ((cs1, m1), Ok rp) -> rp_status rp = 200 ->
  exists live stored,
    MergeAgentConfigFromJson j cur = Ok live /\
    MergeAgentConfigFromJson (clean_override id j) (default (blank_config id) (defaults_ cs !! id)) = Ok stored /\
    Get id cs1 = Some stored /\ defaults_ cs1 = defaults_ cs /\
    (ac_id (config_ m) = id -> config_ m1 = set_ac_id id live).
Proof.
  intros cur Hid Hj Ho E Hst. unfold put_agent in E. rewrite Hj in E. cbn [obind] in E. fold cur in E.
  assert (forall e rp, invalid_json (J := J) e = Ok rp -> rp_status rp = 200 -> False) as Hinv.
  { intros e r. unfold invalid_json, json_reply. destruct (json_dump _ _); [|done]. by intros [= <-]. }
  destruct (MergeAgentConfigFromJson j cur) as [live|e] eqn:El; cbn [obind] in E; [|apply (f_equal snd) in E; by eapply Hinv in E].
  destruct (UpsertOverride iter id j cs) as [cs' [[]|e]] eqn:Eu; [|apply (f_equal snd) in E; by eapply Hinv in E].
  assert (exists stored, MergeAgentConfigFromJson (clean_override id j) (default (blank_config id) (defaults_ cs !! id)) = Ok stored /\
    Get id cs' = Some stored /\ defaults_ cs' = defaults_ cs) as (stored & Hm & Hget & Hdef).
  { unfold UpsertOverride in Eu. rewrite Hid in Eu.
    destruct (MergeAgentConfigFromJson (clean_override id j) _) as [stored|e] eqn:Es; [|done].
    injection Eu as <-. exists stored. split; [done|]. unfold Get.
    match goal with |- context [SaveLocked iter ?t] => destruct (SaveLocked_frame iter t) as (_ & -> & -> & _) end.
    cbn [current_ set_current]. split; [apply lookup_insert_eq | done]. }
  exists live, stored. assert (cs1 = cs') as -> by (cbn zeta in E; by repeat case_match; simplify_eq).
  split; [done|]. split; [done|]. split; [done|]. split; [done|]. intros Hl. rewrite Hl, String.eqb_refl in E. cbn [orb] in E.
  assert (forall d, caught (J := J) (json_reply 500 d) = Ok rp -> False) as H500.
  { intros d Hd. unfold caught, json_reply in Hd. destruct (json_dump _ _); [by injection Hd as <-|by eapply Hinv in Hd]. }
  unfold reload_live in E. destruct (initialized_ m) eqn:Ei; cbn [negb] in E; [|apply (f_equal snd) in E; by apply H500 in E].
  destruct (constructs (set_ac_id id live)); [apply (f_equal snd) in E; by apply H500 in E|].
  apply (f_equal fst), (f_equal snd) in E. cbn in E. subst m1. unfold ReloadAgent. rewrite Ei. cbn [negb].
  unfold swap_agent. by destruct (str_empty _).
Qed.

(** C33.  The live agent and the store part over two changes in a row.  Whatever came before,
    after two accepted changes of the live agent the store holds - and a reload or the next
    process runs - the default with the last body laid over it, while the running agent has
    the default with the last two bodies laid over it, one after the other.  So a setting of
    the change before the last that the last body does not mention stays in the running
    agent and is forgotten by the store; and one that neither body mentions is back at the
    default in both, whatever an earlier change had set. *)
Theorem partial_update_diverges id body1 body2 (j1 j2 : J) cs m cs1 m1 cs2 m2 rp1 rp2 :
  str_empty id = false -> ac_id (config_ m) = id ->
  json_parse (J := J) body1 = Ok j1 -> is_object j1 = true -> json_parse (J := J) body2 = Ok j2 -> is_object j2 = true ->
  put_agent iter constructs id body1 (cs, m) = ((cs1, m1), Ok rp1) -> rp_status rp1 = 200 ->
  put_agent iter constructs id body2 (cs1, m1) = ((cs2, m2), Ok rp2) -> rp_status rp2 = 200 ->
  let dflt := default (blank_config id) (defaults_ cs !! id) in
  exists first live stored,
    MergeAgentConfigFromJson (clean_override id j1) dflt = Ok first /\
    MergeAgentConfigFromJson j2 first = Ok live /\ config_ m2 = set_ac_id id live /\
    MergeAgentConfigFromJson (clean_override id j2) dflt = Ok stored /\ Get id cs2 = Some stored /\
    (jfield "maxIterations" j2 = None ->
       maxIterations stored = maxIterations dflt /\
       match jfield "maxIterations" j1 with
       | Some v => json_get_int v = Ok (maxIterations (config_ m2))
       | None => maxIterations (config_ m2) = maxIterations dflt
       end).
Proof.
  intros Hid Hlive Hj1 Ho1 Hj2 Ho2 E1 Hs1 E2 Hs2 dflt.
  destruct (put_agent_spec id body1 j1 cs m cs1 m1 rp1 Hid Hj1 Ho1 E1 Hs1) as (l1 & first & _ & Hf & Hg1 & Hd1 & Hc1).
  destruct (put_agent_spec id body2 j2 cs1 m1 cs2 m2 rp2 Hid Hj2 Ho2 E2 Hs2) as (live & stored & Hl & Hst & Hg2 & _ & Hc2).
  rewrite Hg1 in Hl. rewrite Hd1 in Hst. fold dflt in Hf, Hst. cbn [default] in Hl.
  specialize (Hc2 ltac:(by rewrite (Hc1 Hlive))). exists first, live, stored. do 5 (split; [done|]).
  intros Hn. split; [eapply merge_keeps_iterations; [|exact Hst]; by rewrite clean_field|].
  rewrite Hc2. cbn [maxIterations set_ac_id]. rewrite (merge_keeps_iterations _ _ _ Hn Hl).
  assert (is_object (clean_override id j1) = true) as Hoc.
  { unfold clean_override, is_object. by rewrite view_j_object. }
  destruct (jfield "maxIterations" j1) as [v|] eqn:Ev.
  - eapply (merge_sets_iterations _ v); [exact Hoc | | exact Hf]. by rewrite clean_field.
  - eapply merge_keeps_iterations; [|exact Hf]. by rewrite clean_field.
Qed.
End Divergence.

Section Example.
#[local] Instance ex_json : Json JsonTree.json := JsonTree.instance [].
#[local] Instance ex_laws : JsonLaws JsonTree.json := JsonTree.laws [] ltac:(by intros ? ?%elem_of_nil).
Definition ex_body (doc : JsonTree.json) : string := match json_dump None doc with Ok t => t | Throw _ => "" end.
Definition ex_five : JsonTree.json := j_fields [("maxIterations", j_int 5)].
Definition ex_name : JsonTree.json := j_fields [("name", j_string "n")].
Definition ex_manager : Manager := Initialize (fun p => p) [] (fun _ => true) ex_default manager_new.
Definition ex_put (doc : JsonTree.json) := put_agent (J := JsonTree.json) ex_iter (fun _ => None) "a" (ex_body doc).
Definition ex_changed : AgentHub (J := JsonTree.json) := (ex_put ex_five (ex_override ex_three, ex_manager)).1.
Definition ex_after : AgentHub (J := JsonTree.json) := (ex_put ex_name ex_changed).1.

(** Set to five iterations, then renamed: five in the running agent, ten in the store; and
    after one more change that does not mention them, ten in both. *)
Lemma partial_update_diverges_witness :
  maxIterations (config_ (snd ex_after)) = 5 /\ (maxIterations <$> Get "a" (fst ex_after)) = Some 10 /\
  maxIterations (config_ (snd (ex_put ex_name ex_after).1)) = 10.
Proof.
  assert (exists rp, ex_put ex_five (ex_override ex_three, ex_manager) = (ex_changed, Ok rp) /\ rp_status rp = 200) as (rp1 & E1 & Hs1)
    by (eexists; split; [vm_compute; reflexivity | reflexivity]).
  assert (exists rp, ex_put ex_name ex_changed = (ex_after, Ok rp) /\ rp_status rp = 200) as (rp2 & E2 & Hs2)
    by (eexists; split; [vm_compute; reflexivity | reflexivity]).
  destruct (partial_update_diverges ex_iter (fun _ => None) "a" (ex_body ex_five) (ex_body ex_name) ex_five ex_name (ex_override ex_three) ex_manager
    (fst ex_changed) (snd ex_changed) (fst ex_after) (snd ex_after) rp1 rp2)
    as (first & live & stored & _ & _ & _ & _ & Hg & Hk); try reflexivity; try (vm_compute; reflexivity); try exact Hs1; try exact Hs2.
  { rewrite <- surjective_pairing. exact E1. }
  { rewrite <- !surjective_pairing. exact E2. }
  destruct Hk as [Hk1 Hk2]; [reflexivity|]. split; [|split; [|vm_compute; reflexivity]].
  - exact (f_equal (fun o => match o with Ok n => n | Throw _ => 0 end) (eq_sym Hk2)).
  - rewrite Hg. cbn [fmap option_fmap option_map]. rewrite Hk1. vm_compute. reflexivity.
Defined.
End Example.
