(* ===== verification/ConsoleText.v ===== *)
(** * Text of the console (examples/jiuwenClaw/utils/encoding.cpp, string_utils.cpp,
    agent_response_handler.cpp)

    What is typed is cleaned of control characters and repaired, and what an agent streams
    is repaired across the borders of its chunks.  The theorem says the chunks do not matter:
    the text that is printed is that of the whole, to the byte.  The conversions of the
    Windows build are not modelled; elsewhere they are the identity. *)
From Stdlib Require Import ZArith NArith Lia String Ascii List.
From stdpp Require Import base decidable list strings.
From S2P Require Import Prelude Numbers Encoding.
Open Scope N_scope.

(** ** Streaming *)

(** [expectedLength], by the high bits of the first byte. *)
Definition sequence_length (c : ascii) : option nat :=
  if N.land (byte_of c) 128 =? 0 then Some 1%nat
  else if N.land (byte_of c) 224 =? 192 then Some 2%nat
  else if N.land (byte_of c) 240 =? 224 then Some 3%nat
  else if N.land (byte_of c) 248 =? 240 then Some 4%nat
  else None.

(** The loop over [fullInput]: what is appended to the result, and what stays in the carry.
    [todo] bytes of a sequence are still to be copied, or to be left out when the sequence
    was not valid. *)
Fixpoint stream_loop (todo : nat) (keep : bool) (s : string) : string * string :=
  match s with
  | "" => ("", "")
  | String c s' =>
      match todo with
      | S k => let '(out, carry) := stream_loop k keep s' in (if keep then String c out else out, carry)
      | O =>
          match sequence_length c with
          | None => let '(out, carry) := stream_loop 0 true s' in (kReplacement +:+ out, carry)
          | Some n =>
              if Nat.ltb (String.length s') (n - 1) then ("", s)
              else
                let valid := all_cont (n - 1) s' in
                let '(out, carry) := stream_loop (n - 1) valid s' in
                (if valid then String c out else kReplacement +:+ out, carry)
          end
      end
  end.
Definition FixUTF8Streaming (str carryBuffer : string) : string * string := stream_loop 0 true (carryBuffer +:+ str).

(** ** Repair of a whole text *)

(** Bytes that are not part of a sequence are dropped; a sequence that is cut off ends the
    text. *)
Fixpoint repair_loop (copy : nat) (s : string) : string :=
  match s with
  | "" => ""
  | String c s' =>
      match copy with
      | S k => String c (repair_loop k s')
      | O =>
          match sequence_length c with
          | None => repair_loop 0 s'
          | Some n =>
              if Nat.ltb (String.length s') (n - 1) then ""
              else if all_cont (n - 1) s' then String c (repair_loop (n - 1) s') else repair_loop 0 s'
          end
      end
  end.
Definition FixUTF8 (str : string) : string := repair_loop 0 str.

(** ** Typed text *)

(** The buffer without its last character. *)
Fixpoint char_start (s : string) (idx : nat) : nat :=
  match idx with
  | O => O
  | S i => match String.get idx s with Some c => if IsCont c then char_start s i else idx | None => idx end
  end.
Definition backspace (buffer : string) : string :=
  if str_empty buffer then buffer else str_take (char_start buffer (String.length buffer - 1)) buffer.

Definition csi_final (c : ascii) : bool := in_range 65 122 c || Ascii.eqb c "@".
(** [escape]: inside an escape sequence that began with a bracket. *)
Fixpoint input_loop (escape : bool) (input buffer : string) : string :=
  match input with
  | "" => buffer
  | String c rest =>
      if escape then input_loop (negb (csi_final c)) rest buffer
      else if (byte_of c =? 8) || (byte_of c =? 127) then input_loop false rest (backspace buffer)
      else if byte_of c =? 27 then
        match rest with
        | String d rest' => if Ascii.eqb d "[" then input_loop true rest' buffer else input_loop false rest buffer
        | "" => buffer
        end
      else if (byte_of c <? 32) && negb (Ascii.eqb c CR || Ascii.eqb c NL || Ascii.eqb c TAB) then input_loop false rest buffer
      else input_loop false rest (buffer +:+ String c "")
  end.
Definition CleanInput (input : string) : string := input_loop false input "".

Definition TrimStr (str : string) : string :=
  match find_if (fun c => negb (is_space4 c)) str, find_last_if (fun c => negb (is_space4 c)) str with
  | Some first, Some last => substr str first (last - first + 1)
  | _, _ => ""
  end.

(** ** The printer of the background tasks *)

Record ResponseHandler := mkResponseHandler { utf8Carry_ : string; gotStreamText_ : bool; enableStreamCarry_ : bool }.
Definition new_handler (carry : bool) : ResponseHandler := mkResponseHandler "" false carry.
Definition ResetHandler (h : ResponseHandler) : ResponseHandler := mkResponseHandler "" false (enableStreamCarry_ h).

Fixpoint drop_blanks (s : string) : string :=
  match s with String c s' => if Ascii.eqb c " " then drop_blanks s' else s | "" => "" end.
Definition ExtractTagContent (s tag : string) : string :=
  match find_str tag s 0 with
  | None => ""
  | Some start_pos => drop_blanks (str_drop (start_pos + String.length tag) s)
  end.

(** What is printed for a chunk of output. *)
Definition HandleResponse (resp : string) (h : ResponseHandler) : ResponseHandler * string :=
  if str_empty resp then (h, "")
  else if has_sub "[TOOL_CALLS]" resp then (h, "")
  else if has_sub "[TOOL_RESPONSE]" resp then
    let content := ExtractTagContent resp "[TOOL_RESPONSE]" in
    (h, if str_empty content then "" else nl +:+ nl +:+ "**Tool Response**: " +:+ nl +:+ content +:+ nl)
  else if has_sub "[STREAM]" resp then
    let content := ExtractTagContent resp "[STREAM]" in
    if str_empty content then (h, "")
    else if enableStreamCarry_ h then
      let '(fixed, carry) := FixUTF8Streaming content (utf8Carry_ h) in (mkResponseHandler carry true true, fixed)
    else (mkResponseHandler (utf8Carry_ h) true false, content)
  else if has_sub "[STATUS]" resp then
    (h, nl +:+ ">> " +:+ TrimStr (ExtractTagContent resp "[STATUS]") +:+ nl)
  else if has_sub "[FINAL]" resp then
    (h, if gotStreamText_ h then "" else TrimStr (ExtractTagContent resp "[FINAL]"))
  else (h, resp).

(** ** The chunks do not matter *)

(** The repair of one chunk after the other, from a carry. *)
Fixpoint repaired_chunks (carry : string) (chunks : list string) : string * string :=
  match chunks with
  | [] => ("", carry)
  | c :: chunks =>
      let '(out, carry) := FixUTF8Streaming c carry in
      let '(rest, carry) := repaired_chunks carry chunks in (out +:+ rest, carry)
  end.

Lemma stream_keep keep s : stream_loop 0 keep s = stream_loop 0 true s.
Proof. by destruct s. Qed.

Lemma all_cont_app n a b : (n <= String.length a)%nat -> all_cont n (a +:+ b) = all_cont n a.
Proof.
  revert a. induction n as [|n IH]; intros a Hn; [done|]. destruct a as [|c a]; [cbn in Hn; lia|]. cbn in *. rewrite IH by lia. done.
Qed.


Lemma stream_app todo keep a b : (todo <= String.length a)%nat ->
  stream_loop todo keep (a +:+ b) =
  let '(out, carry) := stream_loop todo keep a in
  let '(out', carry') := stream_loop 0 true (carry +:+ b) in (out +:+ out', carry').
Proof.
  revert todo keep. induction a as [|c a IH]; intros todo keep Hn.
  { cbn in Hn. assert (todo = 0%nat) as -> by lia. cbn [stream_loop String.append]. rewrite stream_keep. by destruct (stream_loop 0 true b). }
  cbn [String.append stream_loop]. destruct todo as [|k].
  - destruct (sequence_length c) as [n|] eqn:Es.
    + destruct (Nat.ltb_spec (String.length a) (n - 1)) as [Hl|Hl].
      * cbn [String.append]. destruct (stream_loop 0 true (String c (a +:+ b))) as [o r] eqn:E. cbn [stream_loop] in E.
        rewrite Es in E. rewrite E. done.
      * rewrite str_length_app. destruct (Nat.ltb_spec (String.length a + String.length b) (n - 1)); [lia|].
        rewrite all_cont_app by lia. rewrite IH by lia. destruct (stream_loop (n - 1) _ a) as [o r].
        destruct (stream_loop 0 true (r +:+ b)) as [o' r']. destruct (all_cont (n - 1) a); [done|]. by rewrite str_app_assoc.
    + rewrite IH by lia. destruct (stream_loop 0 true a) as [o r]. destruct (stream_loop 0 true (r +:+ b)) as [o' r'].
      by rewrite str_app_assoc.
  - cbn in Hn. rewrite IH by lia. destruct (stream_loop k keep a) as [o r]. destruct (stream_loop 0 true (r +:+ b)) as [o' r'].
    by destruct keep.
Qed.

(** A carry is the start of a sequence. *)
Lemma stream_carry todo keep s : stream_loop 0 true (stream_loop todo keep s).2 = ("", (stream_loop todo keep s).2).
Proof.
  revert todo keep. induction s as [|c s IH]; intros todo keep; [done|]. cbn [stream_loop]. destruct todo as [|k].
  - destruct (sequence_length c) as [n|] eqn:Es.
    + destruct (Nat.ltb (String.length s) (n - 1)) eqn:El.
      * cbn [snd stream_loop]. by rewrite Es, El.
      * specialize (IH (n - 1)%nat (all_cont (n - 1) s)). by destruct (stream_loop (n - 1) _ s).
    + specialize (IH 0%nat true). by destruct (stream_loop 0 true s).
  - specialize (IH k keep). by destruct (stream_loop k keep s).
Qed.

Lemma stream_chunks_whole carry chunks : stream_loop 0 true carry = ("", carry) ->
  repaired_chunks carry chunks = stream_loop 0 true (carry +:+ string_concat chunks).
Proof.
  revert carry. induction chunks as [|c chunks IH]; intros carry Hc; cbn [repaired_chunks string_concat fold_right].
  - by rewrite str_app_nil_r.
  - unfold FixUTF8Streaming. rewrite <- (str_app_assoc carry c), (stream_app 0 true (carry +:+ c)) by lia. pose proof (stream_carry 0 true (carry +:+ c)) as Hr.
    destruct (stream_loop 0 true (carry +:+ c)) as [o r]. cbn [snd] in Hr. rewrite (IH r Hr). done.
Qed.

Lemma in_ascii c : byte_of c <= 127 -> sequence_length c = Some 1%nat.
Proof. intros Hc. unfold sequence_length. destruct c as [[] [] [] [] [] [] [] []]; try reflexivity; vm_compute in Hc; by destruct Hc. Qed.
Lemma in_two c : in_range 194 223 c = true -> sequence_length c = Some 2%nat.
Proof. by destruct c as [[] [] [] [] [] [] [] []]. Qed.
Lemma in_three c : in_range 224 239 c = true -> sequence_length c = Some 3%nat.
Proof. by destruct c as [[] [] [] [] [] [] [] []]. Qed.
Lemma in_four c : in_range 240 244 c = true -> sequence_length c = Some 4%nat.
Proof. by destruct c as [[] [] [] [] [] [] [] []]. Qed.

Lemma range_cont c : 128 <= byte_of c <= 191 -> IsCont c = true.
Proof. intros Hc. rewrite IsCont_tail. by apply in_range_spec. Qed.

(** Well-formed text passes as it is. *)
Lemma stream_utf8 s : utf8 s -> stream_loop 0 true s = (s, "") /\ repair_loop 0 s = s.
Proof.
  induction 1 as [|c s Hc Hs [IH1 IH2]|a b s Ha Hb Hs [IH1 IH2]|a b c s Hab Hc Hs [IH1 IH2]|a b c d s Hab Hc Hd Hs [IH1 IH2]];
    [done|..]; cbn [stream_loop repair_loop].
  - rewrite (in_ascii c Hc). cbn [Nat.sub Nat.ltb Nat.leb all_cont]. by rewrite IH1, IH2.
  - ranges. rewrite (in_two a) by (by apply in_range_spec). cbn [Nat.sub Nat.ltb Nat.leb all_cont String.length stream_loop repair_loop].
    rewrite (range_cont b) by lia. cbn [andb]. by rewrite IH1, IH2.
  - assert (224 <= byte_of a <= 239 /\ 128 <= byte_of b <= 191) as [Ha Hb]
      by (destruct Hab as [[? ?]|[[? ?]|[[? ?]|[? ?]]]]; ranges; lia).
    ranges. rewrite (in_three a) by (by apply in_range_spec). cbn [Nat.sub Nat.ltb Nat.leb all_cont String.length stream_loop repair_loop].
    rewrite (range_cont b), (range_cont c) by lia. cbn [andb]. by rewrite IH1, IH2.
  - assert (240 <= byte_of a <= 244 /\ 128 <= byte_of b <= 191) as [Ha Hb]
      by (destruct Hab as [[? ?]|[[? ?]|[? ?]]]; ranges; lia).
    ranges. rewrite (in_four a) by (by apply in_range_spec). cbn [Nat.sub Nat.ltb Nat.leb all_cont String.length stream_loop repair_loop].
    rewrite (range_cont b), (range_cont c), (range_cont d) by lia. cbn [andb]. by rewrite IH1, IH2.
Qed.

(** Repairing a stream chunk by chunk, with the carry, gives the same bytes and leaves
    the same carry as repairing the whole text at once, wherever it was cut; text that is
    well formed comes out unchanged and nothing stays behind. *)
Theorem chunks_do_not_matter chunks :
  repaired_chunks "" chunks = FixUTF8Streaming (string_concat chunks) "" /\
  (utf8 (string_concat chunks) -> repaired_chunks "" chunks = (string_concat chunks, "")).
Proof.
  assert (repaired_chunks "" chunks = FixUTF8Streaming (string_concat chunks) "") as Hw by (by apply stream_chunks_whole).
  split; [done|]. intros Hu. rewrite Hw. by apply stream_utf8.
Qed.

(** A text cut inside a character. *)
Lemma chunks_do_not_matter_witness :
  let euro := String (ascii_of_N 226) (String (ascii_of_N 130) (String (ascii_of_N 172) "")) in
  repaired_chunks "" ["a" +:+ str_take 2 euro; str_drop 2 euro +:+ "b"] = ("a" +:+ euro +:+ "b", "").
Proof.
  cbn zeta. set (euro := String (ascii_of_N 226) (String (ascii_of_N 130) (String (ascii_of_N 172) ""))).
  refine (proj2 (chunks_do_not_matter ["a" +:+ str_take 2 euro; str_drop 2 euro +:+ "b"]) _).
  apply utf8_ascii. vm_compute. reflexivity.
Defined.
(** Two bytes are lost where only the first is wrong. *)
Example ex_bad_lead : FixUTF8Streaming (String (ascii_of_N 195) "ab") "" = (kReplacement +:+ "b", "").
Proof. reflexivity. Qed.

(** ** Typed text *)

Definition printable (c : ascii) : bool :=
  ((32 <=? byte_of c) && negb (byte_of c =? 127)) || Ascii.eqb c CR || Ascii.eqb c NL || Ascii.eqb c TAB.
Fixpoint all_chars (p : ascii -> bool) (s : string) : bool :=
  match s with "" => true | String c s' => p c && all_chars p s' end.

Lemma all_chars_app p a b : all_chars p (a +:+ b) = all_chars p a && all_chars p b.
Proof. induction a as [|c a IH]; [done|]. cbn. by rewrite IH, andb_assoc. Qed.
Lemma all_chars_take p n s : all_chars p s = true -> all_chars p (str_take n s) = true.
Proof.
  revert n. induction s as [|c s IH]; intros [|n] Hs; try done. cbn in *. apply andb_true_iff in Hs as [-> Hs]. by apply IH.
Qed.

Lemma backspace_chars p buffer : all_chars p buffer = true -> all_chars p (backspace buffer) = true.
Proof. intros Hb. unfold backspace. destruct (str_empty buffer); [done|]. by apply all_chars_take. Qed.

Lemma clean_chars n escape input buffer : (String.length input <= n)%nat -> all_chars printable buffer = true ->
  all_chars printable (input_loop escape input buffer) = true.
Proof.
  revert escape input buffer. induction n as [|n IH]; intros escape input buffer Hn Hb;
    (destruct input as [|c rest]; [done|]); cbn [String.length] in Hn; [lia|].
  cbn [input_loop]. destruct escape; [apply IH; [lia|done]|].
  destruct ((byte_of c =? 8) || (byte_of c =? 127)) eqn:E1; [apply IH; [lia|by apply backspace_chars]|].
  destruct (byte_of c =? 27) eqn:E2.
  - destruct rest as [|d rest]; [done|]. cbn in Hn. destruct (Ascii.eqb d "["); apply IH; cbn; (lia || done).
  - destruct (_ && _) eqn:E3; apply IH; try (lia || done). rewrite all_chars_app, Hb. cbn [all_chars andb]. rewrite andb_true_r.
    unfold printable. apply orb_false_iff in E1 as [_ E1]. rewrite E1. cbn [negb]. rewrite andb_true_r.
    destruct (N.leb_spec 32 (byte_of c)) as [|Hlt]; [done|]. rewrite (proj2 (N.ltb_lt _ _)) in E3 by done. cbn [andb orb] in *.
    by apply negb_false_iff in E3.
Qed.

Lemma clean_plain input buffer : all_chars printable input = true -> input_loop false input buffer = buffer +:+ input.
Proof.
  revert buffer. induction input as [|c rest IH]; intros buffer Hi; [by rewrite str_app_nil_r|]. cbn [all_chars] in Hi.
  apply andb_true_iff in Hi as [Hc Hi]. cbn [input_loop].
  assert ((byte_of c =? 8) || (byte_of c =? 127) = false /\ (byte_of c =? 27) = false /\
    (byte_of c <? 32) && negb (Ascii.eqb c CR || Ascii.eqb c NL || Ascii.eqb c TAB) = false) as (-> & -> & ->)
    by (destruct c as [[] [] [] [] [] [] [] []]; vm_compute in Hc |- *; done).
  rewrite IH, str_app_assoc by done. done.
Qed.

(** What is left of typed text has no control characters - only tabs, line feeds and
    carriage returns - whatever escape sequences, deletions and stray bytes were typed, and
    text without any is left as it is. *)
Theorem cleaned_input input :
  all_chars printable (CleanInput input) = true /\ (all_chars printable input = true -> CleanInput input = input).
Proof. split; [by eapply clean_chars|]. intros Hi. unfold CleanInput. by rewrite clean_plain. Qed.

Lemma cleaned_input_witness : CleanInput ("a b" +:+ nl) = "a b" +:+ nl.
Proof. apply (proj2 (cleaned_input ("a b" +:+ nl))). reflexivity. Defined.
(** A character of two bytes goes with one backspace, and an escape sequence as a whole. *)
Example ex_clean : CleanInput ("x" +:+ String (ascii_of_N 195) (String (ascii_of_N 169) (String (ascii_of_N 8) (String (ascii_of_N 27) "[31my")))) = "xy".
Proof. reflexivity. Qed.
