(* ===== verification/Cli.v ===== *)
(** * The console of the example application (examples/jiuwenClaw/main.cpp)

    Options, the default agent, the commands of the prompt, what the callback of a turn
    prints, and how a typed line answers a question of the agent. *)
From Stdlib Require Import ZArith NArith Lia String Ascii List Floats.SpecFloat.
From stdpp Require Import base decidable list strings gmap.
From S2P Require Import Prelude Numbers Encoding Types JsonLib ToolParser SessionManager CronJobs HttpSessions Cron ConsoleText.
Open Scope Z_scope.

(** ** Options *)

Record Options := mkOptions {
  enableServer : bool;
  enableCli : bool;
  enableWatch : bool;
  serverHost : string;
  serverPort : Z;
  showUsage : bool
}.
Definition default_options : Options := mkOptions false true false "127.0.0.1" 8080 false.

(** The loop over [argv]; it ends at [--help], and throws on a port that is no number. *)
Fixpoint parse_args (args : list string) (o : Options) : outcome Options :=
  match args with
  | [] => Ok o
  | arg :: args =>
      if String.eqb arg "--server" then parse_args args (mkOptions true (enableCli o) (enableWatch o) (serverHost o) (serverPort o) (showUsage o))
      else if String.eqb arg "--no-cli" then parse_args args (mkOptions (enableServer o) false (enableWatch o) (serverHost o) (serverPort o) (showUsage o))
      else if String.eqb arg "--watch-config" then parse_args args (mkOptions (enableServer o) (enableCli o) true (serverHost o) (serverPort o) (showUsage o))
      else
        match args with
        | [] => Ok (if String.eqb arg "--help" then mkOptions (enableServer o) (enableCli o) (enableWatch o) (serverHost o) (serverPort o) true else o)
        | value :: rest =>
            if String.eqb arg "--port" then
              match stoi value with
              | Some p => parse_args rest (mkOptions (enableServer o) (enableCli o) (enableWatch o) (serverHost o) p (showUsage o))
              | None => Throw "stoi"
              end
            else if String.eqb arg "--host" then parse_args rest (mkOptions (enableServer o) (enableCli o) (enableWatch o) value (serverPort o) (showUsage o))
            else if String.eqb arg "--help" then Ok (mkOptions (enableServer o) (enableCli o) (enableWatch o) (serverHost o) (serverPort o) true)
            else parse_args args o
        end
  end.

(** ** The default agent *)

Definition template (file : string) : PromptResource := mkPromptResource FILE_PATH ("./examples/jiuwenClaw/templates/" +:+ file).
Definition demo_params : ConfigNode :=
  mkConfigNode (<["max_tokens" := CVInt 4096]> (<["temperature" := CVFloat (S754_zero false)]>
    (<["top_p" := CVFloat (S754_zero false)]> (<["tool_choice" := CVString "auto"]> ∅)))).
Definition demo_memory : MemoryConfig :=
  let d := default_MemoryConfig in
  mkMemoryConfig (mc_enabled d) (mc_mode d) (mc_provider d) (mc_dataPath d) (serverUrl d) (serverApiKey d) (serverTimeoutSeconds d)
    (serverMaxRetries d) (serverCircuitThreshold d) (serverCircuitCooldownSeconds d) (tokenBudget d) (offloadToolResultChars d)
    (enablePayloadOffload d) 60 [kHeartbeatSessionId; kCronSessionId] (modelEnabled d) (modelFormatType d) (modelBaseUrl d) (modelApiKey d)
    (mc_modelName d) (modelOrganization d) (modelAnthropicVersion d) (modelTimeoutSeconds d) (modelTemperature d) (modelMaxTokens d)
    (eventEntityTypes d) (eventEntityTtlDays d) (mc_extraParams d).
(** [availableTools] are those of the resource manager at that time. *)
Definition BuildAgentConfig (availableTools : list string) : AgentConfig :=
  mkAgentConfig "demo-agent" "Demo Agent" "" "" REACT
    (mkModelConfig "<YOUR_MODEL_BASE_URL>" "<YOUR_MODEL_API_KEY>" "<YOUR_MODEL_NAME>" "" OPENAI true demo_params default_RetryPolicy)
    (<["react_system" := template "REACT_SYSTEM.md"]> (<["agents" := template "AGENTS.md"]> (<["soul" := template "SOUL.md"]>
      (<["user" := template "USER.md"]> (<["tools_md" := template "TOOLS.md"]> ∅)))))
    (mkContextConfig 4096 50 kDefaultSessionId "" JSON_FILE false) default_DreamConfig demo_memory "./my_skills" (-1) "./data" 3
    availableTools SELECTIVE 0 0 [] [].

(** ** Commands *)

Inductive Command :=
  | CmdExit
  | CmdNothing
  | CmdSession (id : string)
  | CmdSessions
  | CmdReloadAll
  | CmdReloadChannels
  | CmdReloadAgent (id : string)
  | CmdReloadUsage
  | CmdConfig (id : string)
  | CmdQuery (text : string).

Definition trimmed_after (n : nat) (s : string) : string := if Nat.ltb n (String.length s) then TrimStr (str_drop n s) else "".
Definition starts (p s : string) : bool := String.eqb (substr s 0 (String.length p)) p.

Definition read_command (query : string) : Command :=
  if String.eqb query "/exit" then CmdExit
  else if str_empty query then CmdNothing
  else if starts "/session " query then
    let id := TrimStr (str_drop 9 query) in CmdSession (if str_empty id then kDefaultSessionId else id)
  else if String.eqb query "/sessions" then CmdSessions
  else if String.eqb query "/reload" || starts "/reload " query then
    let rest := trimmed_after 8 query in
    if str_empty rest then CmdReloadAll
    else if String.eqb rest "channels" then CmdReloadChannels
    else if String.eqb (substr rest 0 5) "agent" then CmdReloadAgent (trimmed_after 6 rest)
    else CmdReloadUsage
  else if String.eqb query "/config show" || starts "/config show " query then CmdConfig (trimmed_after 13 query)
  else
    let text := TrimStr (FixUTF8 (CleanInput query)) in
    if str_empty text then CmdNothing else CmdQuery text.

(** The actions of the session manager that a line of the prompt causes, and the session
    that is current after it. *)
Definition run_command (current : string) (c : Command) : option action * string :=
  match c with
  | CmdSession id => (Some (AGetOrCreate id), id)
  | CmdQuery _ => (Some (ANewInvoke current), current)
  | _ => (None, current)
  end.

(** ** Printing a turn *)

Record Printer := mkPrinter { utf8Carry : string; gotStreamText : bool }.
Definition new_printer : Printer := mkPrinter "" false.

Record AskPrompt := mkAskPrompt { ap_requestId : string; ap_question : string; ap_options : list string; ap_multiple : bool }.

Definition blank_nl (c : ascii) : bool := Ascii.eqb c " " || Ascii.eqb c NL.
Fixpoint skip_front (p : ascii -> bool) (s : string) : string :=
  match s with String c s' => if p c then skip_front p s' else s | "" => "" end.
Fixpoint skip_back (p : ascii -> bool) (s : string) : string :=
  match s with
  | "" => ""
  | String c s' => let r := skip_back p s' in if str_empty r && p c then "" else String c r
  end.

Section Printing.
Context {J : Type} `{Json J}.

(** The question in a chunk, for the thread that reads the answer; a payload that cannot be
    read is only logged. *)
Definition ask_prompt (payload : string) : option AskPrompt :=
  match (j <-- json_parse (J := J) payload ;;
         rid <-- value_str "request_id" "" j ;; question <-- value_str "question" "" j ;; multiple <-- value_bool "multiple" false j ;;
         Ok (mkAskPrompt rid question (string_elements (default [] (array_field "options" j))) multiple)) with
  | Ok p => if str_empty (ap_requestId p) then None else Some p
  | Throw _ => None
  end.

Definition tool_call_text (payload : string) : string :=
  match (j <-- json_parse (J := J) payload ;;
         id <-- value_str "id" "" j ;; name <-- value_str "name" "tool" j ;;
         args <-- match jfield "arguments" j with
                  | Some v => if is_string v then get_string v else json_dump (Some 2%nat) v
                  | None => Ok ""
                  end ;;
         Ok ((if str_empty id then "" else "ID: " +:+ id +:+ nl) +:+ "Name: " +:+ name +:+ nl
             +:+ (if str_empty args then "" else "Arguments:" +:+ nl +:+ args +:+ nl))) with
  | Ok t => nl +:+ nl +:+ "**Tool Call**:" +:+ nl +:+ t
  | Throw _ => nl +:+ nl +:+ "**Tool Call**:" +:+ nl +:+ payload +:+ nl
  end.

(** The callback: the state it leaves, what it prints, and the question it hands on. *)
Definition print_chunk (s : string) (p : Printer) : Printer * string * option AskPrompt :=
  if str_empty s then (p, "", None)
  else
  match find_str "[ASK_USER]" s 0 with
  | Some start =>
      (p, "", match find_str "[/ASK_USER]" s start with
              | Some fin => ask_prompt (substr s (start + 10) (fin - start - 10))
              | None => None
              end)
  | None =>
  match find_str "[TOOL_CALLS]" s 0 with
  | Some pos => (p, tool_call_text (TrimStr (skip_front blank_nl (str_drop (pos + 12) s))), None)
  | None =>
  match find_str "[TOOL_RESPONSE" s 0 with
  | Some pos =>
      (p, match find_char "]" s pos with
          | Some close => nl +:+ nl +:+ "**Tool Response**: " +:+ nl +:+ drop_blanks (str_drop (close + 1) s) +:+ nl
          | None => ""
          end, None)
  | None =>
  match find_str "[STREAM]" s 0 with
  | Some pos =>
      let cleanText := str_drop (pos + 8) s in
      if str_empty cleanText then (p, "", None)
      else let '(fixed, carry) := FixUTF8Streaming cleanText (utf8Carry p) in (mkPrinter carry true, fixed, None)
  | None =>
  match find_str "[STATUS]" s 0 with
  | Some pos => (p, nl +:+ ">> " +:+ TrimStr (drop_blanks (str_drop (pos + 8) s)) +:+ nl, None)
  | None =>
  match find_str "[FINAL]" s 0 with
  | Some pos =>
      (p, if gotStreamText p then "" else skip_back (fun c => Ascii.eqb c NL || Ascii.eqb c CR) (drop_blanks (str_drop (pos + 7) s)), None)
  | None => (p, s, None)
  end end end end end end.

Fixpoint print_chunks (l : list string) (p : Printer) : Printer * string :=
  match l with
  | [] => (p, "")
  | s :: l =>
      let '(p, out, _) := print_chunk s p in
      let '(p, rest) := print_chunks l p in (p, out +:+ rest)
  end.

(** ** Answering *)

(** The items of a line: a number is one of the options, or nothing when there is no such
    option; anything else is taken as text.  One pick is enough without [multiple]. *)
Fixpoint picks_of (options : list string) (multiple : bool) (items : list string) (picks : list string) : list string :=
  match items with
  | [] => picks
  | item :: items =>
      let picks := match stoi (TrimStr item) with
                   | Some idx => if (1 <=? idx) && (idx <=? Z.of_nat (length options))
                                 then picks ++ [default "" (options !! Z.to_nat (idx - 1))] else picks
                   | None => picks ++ [TrimStr item]
                   end in
      if negb multiple && negb (Nat.eqb (length picks) 0) then picks else picks_of options multiple items picks
  end.
Definition answer_json (p : AskPrompt) (line : string) : J :=
  if negb (Nat.eqb (length (ap_options p)) 0) && negb (str_empty line)
  then j_fields [("answers", j_array (map j_string (picks_of (ap_options p) (ap_multiple p) (commas line) [])))]
  else j_fields [("text", j_string line)].
(** [dump] throws on a line that is not UTF-8, out of the thread. *)
Definition answer_text (p : AskPrompt) (line : string) : outcome string := json_dump None (answer_json p line).
End Printing.

(** ** What reaches the agent and the screen *)

Lemma all_chars_drop p n s : all_chars p s = true -> all_chars p (str_drop n s) = true.
Proof. revert n. induction s as [|c s IH]; intros [|n] Hs; try done. cbn in *. apply andb_true_iff in Hs as [_ Hs]. by apply IH. Qed.
Lemma all_chars_substr p s a n : all_chars p s = true -> all_chars p (substr s a n) = true.
Proof. intros Hs. unfold substr. by apply all_chars_take, all_chars_drop. Qed.
Lemma all_chars_trim p s : all_chars p s = true -> all_chars p (TrimStr s) = true.
Proof.
  intros Hs. unfold TrimStr. destruct (find_if _ s); [|done]. destruct (find_last_if _ s); [|done]. by apply all_chars_substr.
Qed.
Lemma all_chars_repair p n s : all_chars p s = true -> all_chars p (repair_loop n s) = true.
Proof.
  revert n. induction s as [|c s IH]; intros n Hs; [done|]. cbn [all_chars] in Hs. apply andb_true_iff in Hs as [Hc Hs].
  cbn [repair_loop]. destruct n; [|cbn [all_chars]; by rewrite Hc, IH]. destruct (sequence_length c); [|by apply IH].
  destruct (Nat.ltb _ _); [done|]. destruct (all_cont _ s); [cbn [all_chars]; by rewrite Hc, IH|by apply IH].
Qed.

(** A line that is given to the agent is not empty and has no control characters, and a
    line of printable UTF-8 text that is no command and has no blanks around it is given to
    it as it was typed. *)
Theorem query_given (query : string) :
  (forall text, read_command query = CmdQuery text -> text <> "" /\ all_chars printable text = true) /\
  (utf8 query -> all_chars printable query = true -> TrimStr query = query -> query <> "" -> starts "/" query = false ->
   read_command query = CmdQuery query).
Proof.
  split.
  - intros text E. unfold read_command in E. repeat (case_match; try discriminate E).
    all: injection E as <-; split; [by intros Hz; rewrite Hz in * |].
    all: apply all_chars_trim, all_chars_repair; unfold CleanInput; by eapply clean_chars.
  - intros Hu Hp Ht Hne Hs. destruct query as [|c q]; [done|].
    assert (c <> "/"%char) as Hc by (intros ->; by destruct q).
    assert (forall p, starts (String "/" p) (String c q) = false) as Hst.
    { intros p. unfold starts, substr. cbn [str_drop str_take String.length]. apply String.eqb_neq. congruence. }
    assert (forall p, String.eqb (String c q) (String "/" p) = false) as Heq by (intros p; apply String.eqb_neq; congruence).
    unfold read_command. rewrite !Heq, !Hst. cbn [str_empty orb]. unfold CleanInput.
    rewrite clean_plain by done. cbn [String.append]. unfold FixUTF8. rewrite (proj2 (stream_utf8 _ Hu)), Ht. done.
Qed.

Section Printed.
Context {J : Type} `{Json J}.

(** Tags are recognised anywhere in a chunk.  A tag is a bracket and then text without a
    bracket or a newline. *)
Definition is_tag (tag : string) : Prop :=
  exists t, tag = String "[" t /\ occurs "[" t = false /\ occurs NL t = false.
Definition without (tags : list string) (text : string) : Prop := Forall (fun t => find_sub t text = None) tags.


(** Another tag in front of a text, and a line break after it, change nothing. *)
Lemma find_behind_tag t u text : is_tag (String "[" t) -> occurs "[" u = false ->
  starts_with (String "[" t) (String "[" (u +:+ text)) = false -> find_sub (String "[" t) text = None ->
  find_sub (String "[" t) (String "[" (u +:+ text)) = None.
Proof.
  intros Ht Hu Hs Hn. cbn [find_sub]. rewrite Hs. by rewrite find_sub_skip, Hn.
Qed.
Lemma find_before_nl tag text : is_tag tag -> find_sub tag text = None -> find_sub tag (text +:+ nl) = None.
Proof.
  intros (t & -> & _ & Hnl) Hn. change nl with (String NL ""). rewrite find_sub_sep by done. done.
Qed.

Definition early_tags : list string := ["[ASK_USER]"; "[TOOL_CALLS]"; "[TOOL_RESPONSE"].
Definition late_tags : list string := ["[STREAM]"; "[STATUS]"].
Lemma tags_are_tags : Forall is_tag (early_tags ++ late_tags).
Proof. repeat (apply Forall_cons; split; [eexists; split; [reflexivity | by split]|]); constructor. Qed.

(** What the worker sends of a piece of streamed text, and of the answer. *)
Definition stream_chunk (c : string) : string := "[STREAM]" +:+ c.
Definition final_chunk (answer : string) : string := nl +:+ "[FINAL] " +:+ answer +:+ nl.

Lemma find_in_stream c : without early_tags c -> Forall (fun t => find_str t (stream_chunk c) 0 = None) early_tags.
Proof.
  intros Hc. pose proof tags_are_tags as Ht. repeat (apply Forall_cons in Hc as [? Hc]).
  repeat (apply Forall_cons in Ht as [? Ht]). unfold stream_chunk.
  repeat (apply Forall_cons; split; [rewrite find_str_0; by apply (find_behind_tag _ "STREAM]")|]). constructor.
Qed.

Lemma find_in_final answer : without (early_tags ++ late_tags) answer ->
  Forall (fun t => find_str t (final_chunk answer) 0 = None) (early_tags ++ late_tags) /\
  find_str "[FINAL]" (final_chunk answer) 0 = Some 1%nat.
Proof.
  intros Ha. pose proof tags_are_tags as Ht. cbn [app early_tags late_tags] in *.
  repeat (apply Forall_cons in Ha as [? Ha]). repeat (apply Forall_cons in Ht as [? Ht]). split; [|done].
  assert (forall t, is_tag (String "[" t) -> find_sub (String "[" t) (String "[" ("FINAL] " +:+ answer +:+ nl)) = None ->
    find_str (String "[" t) (final_chunk answer) 0 = None) as Hnl.
  { intros t _ E. rewrite find_str_0. unfold final_chunk. change (nl +:+ ?s) with (String NL s).
    cbn [find_sub starts_with]. change (Ascii.eqb "[" NL) with false. cbn [andb]. 
    change ("[FINAL] " +:+ answer +:+ nl) with (String "[" ("FINAL] " +:+ answer +:+ nl)). by rewrite E. }
  repeat (apply Forall_cons; split;
    [apply Hnl; [done|]; apply (find_behind_tag _ "FINAL] "); [done | done | done | by apply find_before_nl]|]).
  constructor.
Qed.

(** What is printed of an answer that the worker has trimmed. *)
Lemma find_last_if_Some (p : ascii -> bool) s i : find_last_if p s = Some i ->
  exists a c b, s = a +:+ String c b /\ String.length a = i /\ p c = true.
Proof.
  revert i; induction s as [|c s IH]; intros i; cbn [find_last_if]; [done|].
  destruct (find_last_if p s) as [j|].
  - intros [= <-]. destruct (IH j eq_refl) as (a & d & b & -> & <- & Hd). by exists (String c a), d, b.
  - destruct (p c) eqn:Hc; [|done]. intros [= <-]. by exists "", c, s.
Qed.

Lemma find_if_drop (p : ascii -> bool) s i : find_if p s = Some i -> exists c r, str_drop i s = String c r /\ p c = true.
Proof.
  revert i; induction s as [|c s IH]; intros i; cbn [find_if]; [done|]. destruct (p c) eqn:Hc.
  - intros [= <-]. by exists c, s.
  - intros (j & Hj & ->)%fmap_Some. by apply IH.
Qed.
Lemma find_if_le (p : ascii -> bool) s i j : find_if p s = Some i -> find_last_if p s = Some j -> (i <= j)%nat.
Proof.
  revert i j; induction s as [|c s IH]; intros i j; cbn [find_if find_last_if]; [done|].
  destruct (p c) eqn:Hc; [intros [= <-]; lia|]. intros (k & Hk & ->)%fmap_Some.
  destruct (find_last_if p s) as [l|]; [|done]. intros [= <-]. specialize (IH k l Hk eq_refl). lia.
Qed.
Lemma str_drop_app_le n a b : (n <= String.length a)%nat -> str_drop n (a +:+ b) = str_drop n a +:+ b.
Proof. revert a; induction n as [|n IH]; intros [|c a] Hn; cbn in *; try done; try lia. apply IH. lia. Qed.

Lemma skip_back_last p a c : p c = false -> skip_back p (a +:+ String c "") = a +:+ String c "".
Proof.
  intros Hc. induction a as [|d a IH]; cbn; [by rewrite Hc|].
  rewrite IH. by destruct a.
Qed.
Lemma skip_back_more p a c : p c = true -> skip_back p (a +:+ String c "") = skip_back p a.
Proof. intros Hc. induction a as [|d a IH]; cbn; [by rewrite Hc|]. by rewrite IH. Qed.

Definition line_end (c : ascii) : bool := Ascii.eqb c NL || Ascii.eqb c CR.
Lemma trimmed_printed content : skip_back line_end (drop_blanks (" " +:+ ToolParser.TrimStr content +:+ nl)) = ToolParser.TrimStr content.
Proof.
  change (drop_blanks (" " +:+ ?s)) with (drop_blanks s). unfold ToolParser.TrimStr.
  destruct (find_if not_space content) as [f|] eqn:Ef; [|done].
  destruct (find_last_if not_space content) as [l|] eqn:El; [|done].
  pose proof (find_if_le _ _ _ _ Ef El) as Hle. apply find_if_drop in Ef as (d & r & Ed & Hd).
  apply find_last_if_Some in El as (a & c & b & -> & <- & Hc). unfold substr.
  rewrite str_drop_app_le in * by done. rewrite <- (str_length_drop f a).
  change (String c b) with (String c "" +:+ b). rewrite <- str_app_assoc.
  replace (String.length (str_drop f a) + 1)%nat with (String.length (str_drop f a +:+ String c ""))
    by (rewrite str_length_app; cbn; lia).
  rewrite str_take_app. unfold not_space, is_space4, is_blank in Hc, Hd.
  assert (exists t, str_drop f a +:+ String c "" = String d t) as [t Et].
  { destruct (str_drop f a) as [|d' m]; cbn in Ed |- *; injection Ed as -> _; by eexists. }
  assert (forall u, drop_blanks (str_drop f a +:+ String c "" +:+ u) = str_drop f a +:+ String c "" +:+ u) as Hfront.
  { intros u. rewrite <- str_app_assoc, Et. cbn. by destruct (Ascii.eqb d " "). }
  rewrite str_app_assoc, Hfront, <- str_app_assoc. change nl with (String NL "").
  rewrite skip_back_more by done. apply skip_back_last. unfold line_end.
  by destruct (Ascii.eqb c NL), (Ascii.eqb c CR), (Ascii.eqb c " "), (Ascii.eqb c TAB).
Qed.

(** A piece of streamed text: it is not empty (the worker sends no empty one) and holds
    none of the tags that are looked for before [STREAM]. *)
Definition streamed (c : string) : Prop := c <> "" /\ without early_tags c.

Lemma print_streamed c p : streamed c ->
  print_chunk (J := J) (stream_chunk c) p =
  (mkPrinter (FixUTF8Streaming c (utf8Carry p)).2 true, (FixUTF8Streaming c (utf8Carry p)).1, None).
Proof.
  intros [Hc Hw]. apply find_in_stream in Hw. apply Forall_cons in Hw as [Ha Hw].
  apply Forall_cons in Hw as [Ht Hw]. apply Forall_cons in Hw as [Hr _].
  unfold print_chunk. change (str_empty (stream_chunk c)) with false. cbv iota.
  assert (find_str "[STREAM]" (stream_chunk c) 0 = Some 0%nat) as -> by (rewrite find_str_0; apply find_sub_here).
  rewrite Ha, Ht, Hr. change (str_drop (0 + 8) (stream_chunk c)) with c.
  rewrite (proj2 (str_empty_false c) Hc). by destruct (FixUTF8Streaming c (utf8Carry p)).
Qed.

Lemma print_stream chunks p : Forall streamed chunks ->
  print_chunks (J := J) (map stream_chunk chunks) p =
  (mkPrinter (repaired_chunks (utf8Carry p) chunks).2 (gotStreamText p || negb (Nat.eqb (length chunks) 0)), (repaired_chunks (utf8Carry p) chunks).1).
Proof.
  intros Hf. revert p. induction Hf as [|c chunks Hc _ IH]; intros p; cbn [map print_chunks repaired_chunks length Nat.eqb negb].
  - rewrite orb_false_r. by destruct p.
  - rewrite (print_streamed c p Hc). rewrite IH.
    cbn [utf8Carry gotStreamText]. destruct (FixUTF8Streaming c (utf8Carry p)) as [o r]. cbn [fst snd].
    destruct (repaired_chunks r chunks) as [o' r']. by rewrite orb_true_r.
Qed.

Lemma print_final content p : without (early_tags ++ late_tags) (ToolParser.TrimStr content) ->
  print_chunk (J := J) (final_chunk (ToolParser.TrimStr content)) p =
  (p, if gotStreamText p then "" else ToolParser.TrimStr content, None).
Proof.
  intros Hw. apply find_in_final in Hw as [Hw Hf]. cbn [app early_tags late_tags] in Hw.
  apply Forall_cons in Hw as [Ha Hw]. apply Forall_cons in Hw as [Ht Hw]. apply Forall_cons in Hw as [Hr Hw].
  apply Forall_cons in Hw as [Hs Hw]. apply Forall_cons in Hw as [Hu _]. unfold print_chunk.
  change (str_empty (final_chunk (ToolParser.TrimStr content))) with false. cbv iota. rewrite Ha, Ht, Hr, Hs, Hu, Hf.
  change (str_drop (1 + 7) (final_chunk (ToolParser.TrimStr content))) with (" " +:+ ToolParser.TrimStr content +:+ nl).
  by rewrite trimmed_printed.
Qed.

Lemma print_chunks_app l l' p :
  print_chunks (J := J) (l ++ l') p =
  let '(p1, o1) := print_chunks (J := J) l p in let '(p2, o2) := print_chunks (J := J) l' p1 in (p2, o1 +:+ o2).
Proof.
  revert p; induction l as [|s l IH]; intros p; cbn [app print_chunks].
  - by destruct (print_chunks l' p).
  - destruct (print_chunk s p) as [[p1 o] q]. rewrite IH. destruct (print_chunks l p1) as [p2 o2].
    destruct (print_chunks l' p2). by rewrite str_app_assoc.
Qed.

(** C28.  The chunks the worker sends for an answer: "[STREAM]" and a piece of text, any
    number of times, then a line break, "[FINAL] ", the trimmed answer and a line break.
    When the pieces together are UTF-8, none of them holds a tag that is looked for before
    [STREAM], and the answer holds no tag looked for before [FINAL], the text that was
    streamed is printed to the byte, however it is cut into pieces, also inside a character,
    and the final answer that repeats it is not printed again; an answer that was not
    streamed is printed, to the byte, from the final chunk. *)
Theorem answer_printed_once chunks content :
  Forall streamed chunks -> utf8 (string_concat chunks) -> without (early_tags ++ late_tags) (ToolParser.TrimStr content) ->
  (print_chunks (J := J) (map stream_chunk chunks ++ [final_chunk (ToolParser.TrimStr content)]) new_printer).2 =
  match chunks with [] => ToolParser.TrimStr content | _ => string_concat chunks end.
Proof.
  intros Hf Hu Hw. rewrite print_chunks_app, print_stream by done. cbn [print_chunks]. rewrite print_final by done.
  cbn [fst snd utf8Carry gotStreamText new_printer]. rewrite (proj2 (chunks_do_not_matter chunks) Hu). cbn [fst].
  destruct chunks; cbn [length Nat.eqb negb orb snd]; by rewrite !str_app_nil_r.
Qed.
End Printed.

#[local] Instance ex_json : Json JsonTree.json := JsonTree.instance [].

Lemma query_given_witness : read_command "list my files" = CmdQuery "list my files".
Proof. by apply (proj2 (query_given "list my files")); [apply utf8_ascii; vm_compute|..]. Defined.

(** The second character is cut between two chunks. *)
Lemma answer_printed_once_witness :
  let e := String (ascii_of_N 195) (String (ascii_of_N 169) "") in
  (print_chunks (J := JsonTree.json)
     [stream_chunk (String "a" (String (ascii_of_N 195) "")); stream_chunk (String (ascii_of_N 169) "b");
      nl +:+ "[FINAL] a" +:+ e +:+ "b" +:+ nl] new_printer).2 = "a" +:+ e +:+ "b".
Proof.
  apply (answer_printed_once [String "a" (String (ascii_of_N 195) ""); String (ascii_of_N 169) "b"]
    (" a" +:+ String (ascii_of_N 195) (String (ascii_of_N 169) "") +:+ "b" +:+ nl)).
  - repeat (apply List.Forall_cons; [split; [done | repeat (apply List.Forall_cons; [reflexivity|]); apply List.Forall_nil]|]).
    apply List.Forall_nil.
  - apply utf8_ascii. reflexivity.
  - repeat (apply List.Forall_cons; [reflexivity|]). apply List.Forall_nil.
Defined.
