(* ===== verification/Notebook.v ===== *)
(** * Editing notebooks (examples/jiuwenClaw/tools/notebook_edit_tool.cpp)

    The tool that replaces, inserts and deletes cells of a Jupyter notebook in the text of
    its file: the scanner that takes the text apart into cells, and the writer that puts it
    together.  On notebooks of flat cells both fit together; on a notebook the tool itself
    makes, they do not. *)
From Stdlib Require Import ZArith Lia String Ascii List.
From stdpp Require Import base decidable list strings.
From S2P Require Import Prelude Numbers Files FileTools.
Open Scope Z_scope.

(** ** Cells *)

Definition escape_char (c : ascii) : string :=
  if Ascii.eqb c DQUOTE then String BSLASH dq
  else if Ascii.eqb c BSLASH then String BSLASH (String BSLASH "")
  else if Ascii.eqb c NL then String BSLASH "n"
  else if Ascii.eqb c CR then String BSLASH "r"
  else if Ascii.eqb c TAB then String BSLASH "t"
  else String c "".
Definition EscapeJson (input : string) : string := str_bind escape_char input.

Definition in_quotes (s : string) : string := dq +:+ s +:+ dq.
Definition CreateCell (cellType source : string) : string :=
  let escaped := EscapeJson source in
  if String.eqb cellType "code" then
    "    {" +:+ nl +:+ "      " +:+ in_quotes "cell_type" +:+ ": " +:+ in_quotes "code" +:+ "," +:+ nl
    +:+ "      " +:+ in_quotes "source" +:+ ": [" +:+ in_quotes escaped +:+ "]," +:+ nl
    +:+ "      " +:+ in_quotes "metadata" +:+ ": {}," +:+ nl
    +:+ "      " +:+ in_quotes "outputs" +:+ ": []," +:+ nl
    +:+ "      " +:+ in_quotes "execution_count" +:+ ": null" +:+ nl +:+ "    }"
  else
    "    {" +:+ nl +:+ "      " +:+ in_quotes "cell_type" +:+ ": " +:+ in_quotes cellType +:+ "," +:+ nl
    +:+ "      " +:+ in_quotes "source" +:+ ": [" +:+ in_quotes escaped +:+ "]," +:+ nl
    +:+ "      " +:+ in_quotes "metadata" +:+ ": {}" +:+ nl +:+ "    }".

(** The text up to the bracket that opens the cells. *)
Definition notebook_head : string :=
  "{" +:+ nl +:+ " " +:+ in_quotes "nbformat" +:+ ": 4," +:+ nl +:+ " " +:+ in_quotes "nbformat_minor" +:+ ": 5," +:+ nl
  +:+ " " +:+ in_quotes "metadata" +:+ ": {" +:+ nl
  +:+ "  " +:+ in_quotes "kernelspec" +:+ ": {" +:+ in_quotes "display_name" +:+ ": " +:+ in_quotes "Python 3" +:+ ", "
  +:+ in_quotes "language" +:+ ": " +:+ in_quotes "python" +:+ ", " +:+ in_quotes "name" +:+ ": " +:+ in_quotes "python3" +:+ "}," +:+ nl
  +:+ "  " +:+ in_quotes "language_info" +:+ ": {" +:+ in_quotes "name" +:+ ": " +:+ in_quotes "python" +:+ "}" +:+ nl +:+ " }," +:+ nl
  +:+ " ".
Definition CreateEmptyNotebook (cellType source : string) : string :=
  notebook_head +:+ in_quotes "cells" +:+ ": [" +:+ nl +:+ CreateCell cellType source +:+ nl +:+ " ]" +:+ nl +:+ "}".

(** The loop behind the bracket.  [cur] is the text from [cellStart] to the position;
    [depth] counts the brackets, [cellDepth] the braces. *)
Definition grow (c : ascii) (cur : option string) : option string := (fun t => t +:+ String c "") <$> cur.
Fixpoint cells_loop (s : string) (depth cellDepth : Z) (cur : option string) : list string :=
  match s with
  | "" => []
  | String c s =>
      if depth <=? 0 then []
      else if Ascii.eqb c "{" then
        cells_loop s depth (cellDepth + 1) (if depth =? 1 then Some "{" else grow c cur)
      else if Ascii.eqb c "}" then
        match grow c cur with
        | Some t => if cellDepth - 1 =? 0 then t :: cells_loop s depth (cellDepth - 1) None else cells_loop s depth (cellDepth - 1) (Some t)
        | None => cells_loop s depth (cellDepth - 1) None
        end
      else if Ascii.eqb c "[" then cells_loop s (depth + 1) cellDepth (grow c cur)
      else if Ascii.eqb c "]" then cells_loop s (depth - 1) cellDepth (grow c cur)
      else cells_loop s depth cellDepth (grow c cur)
  end.
Definition ExtractCells (content : string) : list string :=
  match find_str (in_quotes "cells") content 0 with
  | None => []
  | Some cellsStart =>
      match find_char "[" content cellsStart with
      | None => []
      | Some arrayStart => cells_loop (str_drop (arrayStart + 1) content) 1 0 None
      end
  end.

(** The text that is written, when the array is found. *)
Definition notebook_text (cells : list string) (originalContent : string) : option string :=
  cellsStart ← find_str (in_quotes "cells") originalContent 0;
  arrayStart ← find_char "[" originalContent cellsStart;
  arrayEnd ← find_char "]" originalContent arrayStart;
  Some (str_take (arrayStart + 1) originalContent +:+ nl +:+ join ("," +:+ nl) cells
        +:+ nl +:+ "  " +:+ str_drop arrayEnd originalContent).

(** ** Replacing *)

(** [s.replace(pos, n, t)] where [n] may reach the end. *)
Definition replace_upto (s : string) (pos : nat) (e : option nat) (t : string) : string :=
  str_take pos s +:+ t +:+ match e with Some e => str_drop e s | None => "" end.

Definition replace_source (newSource cell : string) : string :=
  match find_str (in_quotes "source") cell 0 with
  | None => cell
  | Some srcPos =>
      let colonPos := find_char ":" cell (srcPos + 8) in
      match find_if_from (fun c => negb (is_space4 c)) cell (npos_succ colonPos) with
      | None => cell
      | Some valStart =>
          let escapedSource := EscapeJson newSource in
          match str_at cell valStart with
          | Some "["%char =>
              match find_char "]" cell valStart with
              | Some e => replace_upto cell valStart (Some (e + 1)%nat) ("[" +:+ in_quotes escapedSource +:+ "]")
              (** [npos + 1 - valStart] wraps to more than the rest. *)
              | None => if Nat.eqb valStart 0 then str_replace cell 0 0 ("[" +:+ in_quotes escapedSource +:+ "]")
                        else replace_upto cell valStart None ("[" +:+ in_quotes escapedSource +:+ "]")
              end
          | _ => replace_upto cell valStart (find_if_from (fun c => Ascii.eqb c "," || Ascii.eqb c "}") cell valStart) (in_quotes escapedSource)
          end
      end
  end.

Definition replace_type (cellType cell : string) : string :=
  match find_str (in_quotes "cell_type") cell 0 with
  | None => cell
  | Some typePos =>
      let colonPos := find_char ":" cell (typePos + 11) in
      match find_if_from (fun c => negb (is_space4 c || Ascii.eqb c DQUOTE)) cell (npos_succ colonPos) with
      | None => cell
      | Some valStart =>
          match find_char DQUOTE cell valStart with
          | None => cell
          | Some valEnd =>
              if String.eqb (substr cell valStart (valEnd - valStart)) cellType then cell
              else str_replace cell valStart (valEnd - valStart) cellType
          end
      end
  end.

(** ** The tool *)

Definition is_notebook (filePath : string) : bool :=
  Nat.leb 6 (String.length filePath) && String.eqb (str_drop (String.length filePath - 6) filePath) ".ipynb".

(** The edit of the list of cells: the error, or the new list and what is reported.
    [None] where the iterator is before the first cell. *)
Definition edit_cells (editMode cellType newSource : string) (cellIndex : Z) (cells : list string)
    : option (string + list string * string) :=
  let cellCount := Z.of_nat (length cells) in
  let inside := (0 <=? cellIndex) && (cellIndex <? cellCount) in
  let out_of_range := "Error: cell_index " +:+ to_string cellIndex +:+ " out of range (notebook has " +:+ to_string cellCount +:+ " cells)" in
  if String.eqb editMode "delete" then
    if inside then Some (inr (take (Z.to_nat cellIndex) cells ++ drop (S (Z.to_nat cellIndex)) cells,
                              "Successfully deleted cell " +:+ to_string cellIndex +:+ " from "))
    else Some (inl out_of_range)
  else if String.eqb editMode "insert" then
    if cellIndex =? 2 ^ 31 - 1 then None
    else
      let insertAt := Z.min (cellIndex + 1) cellCount in
      if insertAt <? 0 then None
      else Some (inr (take (Z.to_nat insertAt) cells ++ CreateCell cellType newSource :: drop (Z.to_nat insertAt) cells,
                      "Successfully inserted cell at index " +:+ to_string insertAt +:+ " in "))
  else if inside then
    match cells !! Z.to_nat cellIndex with
    | Some cell => Some (inr (<[Z.to_nat cellIndex := replace_type cellType (replace_source newSource cell)]> cells,
                              "Successfully edited cell " +:+ to_string cellIndex +:+ " in "))
    | None => None
    end
  else Some (inl out_of_range).

Section Tool.
Context {X : Type} `{FileSystem X}.

Definition WriteNotebook (filePath : string) (cells : list string) (originalContent : string) (x : X) : X :=
  match notebook_text cells originalContent with
  | None => x
  | Some text => (fs_write filePath text x).1
  end.

Definition edit_existing (filePath editMode cellType newSource : string) (cellIndex : Z) (x : X) : X * res string :=
  match fs_read filePath x with
  | None => (x, Val ("Error: Cannot open file: " +:+ filePath))
  | Some content =>
      match edit_cells editMode cellType newSource cellIndex (ExtractCells content) with
      | None => (x, Undefined)
      | Some (inl e) => (x, Val e)
      | Some (inr (cells, report)) => (WriteNotebook filePath cells content x, Val (report +:+ filePath))
      end
  end.

Definition create_notebook (filePath cellType newSource : string) (x : X) : X * res string :=
  let '(x1, made) := fs_create_directories (parent_path filePath) x in
  match made with
  | Throw e => (x1, Exc e)
  | Ok _ =>
      let '(x2, opened) := fs_write filePath (CreateEmptyNotebook cellType newSource) x1 in
      (x2, Val (if opened : bool then "Successfully created " +:+ filePath +:+ " with 1 cell" else "Error: Cannot create file: " +:+ filePath))
  end.

Definition or_default (d s : string) : string := if str_empty s then d else s.

Definition NotebookInvoke (input : string) (x : X) : X * res string :=
  let filePath := ParseStringField input "path" in
  if str_empty filePath then (x, Val "Error: 'path' parameter is required")
  else if negb (is_notebook filePath) then (x, Val "Error: notebook_edit only works on .ipynb files. Use edit_file for other files.")
  else
    let cellIndex := ParseIntField input "cell_index" 0 in
    let newSource := ParseStringField input "new_source" in
    let cellType := or_default "code" (ParseStringField input "cell_type") in
    let editMode := or_default "replace" (ParseStringField input "edit_mode") in
    if negb (String.eqb cellType "code" || String.eqb cellType "markdown") then
      (x, Val ("Error: Invalid cell_type '" +:+ cellType +:+ "'. Use 'code' or 'markdown'."))
    else if negb (String.eqb editMode "replace" || String.eqb editMode "insert" || String.eqb editMode "delete") then
      (x, Val ("Error: Invalid edit_mode '" +:+ editMode +:+ "'. Use 'replace', 'insert', or 'delete'."))
    else
      match fs_exists filePath x with
      | Throw e => (x, Exc e)
      | Ok true => edit_existing filePath editMode cellType newSource cellIndex x
      | Ok false =>
          if String.eqb editMode "insert" then create_notebook filePath cellType newSource x
          else (x, Val ("Error: File not found: " +:+ filePath))
      end.
End Tool.

Definition ex_new : string := CreateEmptyNotebook "code" "print(1)".
Example ex_scan : ExtractCells ex_new =
  ["{}," +:+ nl +:+ "      " +:+ in_quotes "outputs" +:+ ": []," +:+ nl +:+ "      " +:+ in_quotes "execution_count" +:+ ": null" +:+ nl +:+ "    }"].
Proof. vm_compute. reflexivity. Qed.

(** ** Where the cells are *)

(** A text whose first [cells] key is the one behind [a]; the array's text begins with [m],
    up to the first closing bracket. *)
Definition array_at (a b m : string) : Prop :=
  find_sub (in_quotes "cells") (a +:+ in_quotes "cells") = Some (String.length a) /\ occurs "[" b = false /\ occurs "]" m = false.
Definition array_text (a b m tail : string) : string :=
  a +:+ in_quotes "cells" +:+ b +:+ "[" +:+ m +:+ "]" +:+ tail.

Section Array.
Context (a b m tail : string) (Hat : array_at a b m).
#[local] Set Default Proof Using "Hat".
Lemma cells_key : find_str (in_quotes "cells") (array_text a b m tail) 0 = Some (String.length a).
Proof.
  destruct Hat as (Hk & _). unfold find_str. rewrite decide_True by lia. cbn [str_drop].
  unfold array_text. rewrite <- (str_app_assoc a). by rewrite (find_sub_extend _ _ _ _ Hk).
Qed.
Lemma array_start : find_char "[" (array_text a b m tail) (String.length a) = Some (String.length (a +:+ in_quotes "cells" +:+ b)).
Proof.
  destruct Hat as (_ & Hb & _). unfold array_text. rewrite <- (str_app_assoc (in_quotes "cells") b).
  change ("[" +:+ ?t) with (String "[" t). rewrite find_char_behind.
  - by rewrite (str_length_app a).
  - rewrite occurs_app, Hb. reflexivity.
Qed.
Lemma array_text_front : array_text a b m tail = (a +:+ in_quotes "cells" +:+ b +:+ "[") +:+ m +:+ String "]" tail.
Proof. unfold array_text. by rewrite !str_app_assoc. Qed.
Lemma front_length : (String.length (a +:+ in_quotes "cells" +:+ b) + 1 = String.length (a +:+ in_quotes "cells" +:+ b +:+ "["))%nat.
Proof. rewrite !str_length_app. cbn. lia. Qed.

Lemma array_cells : ExtractCells (array_text a b m tail) = cells_loop (m +:+ String "]" tail) 1 0 None.
Proof. unfold ExtractCells. rewrite cells_key, array_start, front_length, array_text_front, str_drop_app. done. Qed.

Lemma array_rewritten cells :
  notebook_text cells (array_text a b m tail) =
  Some (array_text a b (nl +:+ join ("," +:+ nl) cells +:+ nl +:+ "  ") tail).
Proof.
  destruct Hat as (_ & _ & Hm). unfold notebook_text. rewrite cells_key. cbn [mbind option_bind]. rewrite array_start. cbn [mbind option_bind].
  assert (array_text a b m tail = (a +:+ in_quotes "cells" +:+ b) +:+ ("[" +:+ m) +:+ String "]" tail) as E
    by (unfold array_text; by rewrite !str_app_assoc).
  rewrite E at 1. rewrite find_char_behind by (rewrite occurs_app, Hm; reflexivity). cbn [mbind option_bind]. f_equal.
  rewrite front_length. rewrite array_text_front at 1. rewrite str_take_app.
  assert (str_drop (String.length (a +:+ in_quotes "cells" +:+ b) + String.length ("[" +:+ m)) (array_text a b m tail) = "]" +:+ tail) as ->.
  { rewrite E, <- str_length_app, <- (str_app_assoc (a +:+ in_quotes "cells" +:+ b) ("[" +:+ m)). apply str_drop_app. }
  unfold array_text. by rewrite !str_app_assoc.
Qed.
End Array.

(** ** Flat notebooks *)

(** Text without brackets and braces. *)
Definition plain (s : string) : Prop :=
  occurs "[" s = false /\ occurs "]" s = false /\ occurs "{" s = false /\ occurs "}" s = false.
Definition flat (cell : string) : Prop := exists body, cell = "{" +:+ body +:+ "}" /\ plain body.

Lemma plain_app s t : plain s -> plain t -> plain (s +:+ t).
Proof. intros (? & ? & ? & ?) (? & ? & ? & ?). unfold plain. rewrite !occurs_app. split_and!; by apply orb_false_iff. Qed.

Lemma plain_run s t depth cellDepth cur : plain s -> 0 < depth ->
  cells_loop (s +:+ t) depth cellDepth cur = cells_loop t depth cellDepth ((fun u => u +:+ s) <$> cur).
Proof.
  revert cur. induction s as [|c s IH]; intros cur (H1 & H2 & H3 & H4) Hd.
  { destruct cur; [|done]. cbn. by rewrite str_app_nil_r. }
  cbn [occurs] in *. apply orb_false_iff in H1 as [E1 H1], H2 as [E2 H2], H3 as [E3 H3], H4 as [E4 H4].
  rewrite Ascii.eqb_sym in E1, E2, E3, E4. cbn [String.append cells_loop]. rewrite E1, E2, E3, E4.
  rewrite (proj2 (Z.leb_gt depth 0)), IH by (lia || done). f_equal. destruct cur; [|done]. cbn. by rewrite str_app_assoc.
Qed.

Lemma flat_cell cell t : flat cell -> cells_loop (cell +:+ t) 1 0 None = cell :: cells_loop t 1 0 None.
Proof.
  intros (body & -> & Hb). cbn [String.append cells_loop Z.leb Z.compare Z.eqb Z.add Ascii.eqb Bool.eqb].
  rewrite str_app_assoc, plain_run by done. reflexivity.
Qed.

Lemma flat_array cells tail : Forall flat cells ->
  cells_loop ((nl +:+ join ("," +:+ nl) cells +:+ nl +:+ "  ") +:+ String "]" tail) 1 0 None = cells.
Proof.
  intros Hf. rewrite !str_app_assoc. rewrite plain_run by done. cbn [fmap option_fmap option_map].
  assert (Hend : cells_loop (nl +:+ "  " +:+ String "]" tail) 1 0 None = []) by (by destruct tail).
  induction Hf as [|c cells Hc Hf IH]; [exact Hend|]. destruct cells as [|d cells].
  - cbn [join]. rewrite flat_cell by done. by rewrite Hend.
  - rewrite join_cons, !str_app_assoc, flat_cell by done. f_equal. rewrite <- (str_app_assoc ","), plain_run by done. exact IH.
Qed.

Lemma flat_no_bracket cells : Forall flat cells -> occurs "]" (nl +:+ join ("," +:+ nl) cells +:+ nl +:+ "  ") = false.
Proof.
  intros Hf. assert (occurs "]" (join ("," +:+ nl) cells) = false) as Hj.
  { induction Hf as [|c cells (body & -> & _ & Hb & _) Hf IH]; [done|]. destruct cells as [|d cells].
    - cbn [join]. rewrite !occurs_app, Hb. done.
    - rewrite join_cons, !occurs_app, Hb, IH by done. done. }
  by rewrite !occurs_app, Hj.
Qed.

Section FlatNotebooks.
Context {X : Type} `{FileSystemLaws X}.

(** On a notebook whose array of cells this tool has written and whose cells are flat
    objects, an edit that the tool accepts writes exactly the edited list of cells and leaves
    the rest of the text alone; if the new cells are flat too, they are what the next call
    finds.  An edit it refuses changes nothing. *)
Theorem flat_notebook_edited p a b cells tail editMode cellType newSource i x :
  let file l := array_text a b (nl +:+ join ("," +:+ nl) l +:+ nl +:+ "  ") tail in
  array_at a b "" -> Forall flat cells -> fs_read p x = Some (file cells) ->
  match edit_cells editMode cellType newSource i cells with
  | None => (edit_existing p editMode cellType newSource i x).2 = Undefined
  | Some (inl e) => edit_existing p editMode cellType newSource i x = (x, Val e)
  | Some (inr (cells', report)) =>
      forall x', fs_write p (file cells') x = (x', true) ->
      edit_existing p editMode cellType newSource i x = (x', Val (report +:+ p)) /\
      fs_read p x' = Some (file cells') /\ (Forall flat cells' -> ExtractCells (file cells') = cells')
  end.
Proof.
  intros file Hat Hf Hr.
  assert (array_at a b (nl +:+ join ("," +:+ nl) cells +:+ nl +:+ "  ")) as Hat'.
  { destruct Hat as (? & ? & _). split_and!; [done..|]. by apply flat_no_bracket. }
  assert (ExtractCells (file cells) = cells) as Hx by (unfold file; by rewrite array_cells, flat_array).
  unfold edit_existing. rewrite Hr, Hx. destruct (edit_cells _ _ _ _ _) as [[e|[cells' report]]|]; [done| |done].
  intros x' Hw. unfold WriteNotebook. unfold file at 1. rewrite array_rewritten by done. fold (file cells'). rewrite Hw.
  split_and!; [done|by eapply write_read|]. intros Hf'. unfold file. rewrite array_cells, flat_array; [done..|].
  destruct Hat as (? & ? & _). split_and!; [done..|]. by apply flat_no_bracket.
Qed.
End FlatNotebooks.

(** ** A notebook the tool made *)

(** The rest of the text behind the list of the source. *)
Definition made_tail (code : bool) : string :=
  "," +:+ nl +:+ "      " +:+ in_quotes "metadata" +:+ ": {}"
  +:+ (if code then "," +:+ nl +:+ "      " +:+ in_quotes "outputs" +:+ ": []," +:+ nl +:+ "      " +:+ in_quotes "execution_count" +:+ ": null" else "")
  +:+ nl +:+ "    }" +:+ nl +:+ " ]" +:+ nl +:+ "}".
Definition made_type (code : bool) : string := if code then "code" else "markdown".
Definition made_array (code : bool) (source : string) : string :=
  nl +:+ "    {" +:+ nl +:+ "      " +:+ in_quotes "cell_type" +:+ ": " +:+ in_quotes (made_type code) +:+ "," +:+ nl
  +:+ "      " +:+ in_quotes "source" +:+ ": [" +:+ in_quotes (EscapeJson source).
(** What is left of the cell: the scanner starts it anew at the brace of the metadata. *)
Definition scanned (code : bool) : string :=
  "{}" +:+ (if code then "," +:+ nl +:+ "      " +:+ in_quotes "outputs" +:+ ": []," +:+ nl +:+ "      " +:+ in_quotes "execution_count" +:+ ": null" else "")
  +:+ nl +:+ "    }".
Definition lost (code : bool) : string := array_text notebook_head ": " (nl +:+ scanned code +:+ nl +:+ "  ") (made_tail code).

Lemma plain_escaped s : plain s -> plain (EscapeJson s).
Proof.
  induction s as [|c s IH]; intros (H1 & H2 & H3 & H4); [done|]. unfold EscapeJson. cbn [str_bind]. cbn [occurs] in *.
  apply orb_false_iff in H1 as [E1 H1], H2 as [E2 H2], H3 as [E3 H3], H4 as [E4 H4]. apply plain_app; [|by apply IH].
  unfold escape_char. repeat case_match; try (split_and!; reflexivity). split_and!; cbn [occurs]; by rewrite ?E1, ?E2, ?E3, ?E4.
Qed.

Lemma made_text code source : CreateEmptyNotebook (made_type code) source = array_text notebook_head ": " (made_array code source) (made_tail code).
Proof.
  unfold CreateEmptyNotebook, array_text, made_array, made_tail, CreateCell, in_quotes. destruct code; cbn [made_type].
  - change (String.eqb "code" "code") with true. cbv iota. rewrite !str_app_assoc. reflexivity.
  - change (String.eqb "markdown" "code") with false. cbv iota. rewrite !str_app_assoc. reflexivity.
Qed.

Lemma made_at code source : plain source -> array_at notebook_head ": " (made_array code source).
Proof.
  intros (_ & H2 & _)%plain_escaped. split_and!; [vm_compute; reflexivity|reflexivity|].
  unfold made_array, in_quotes. rewrite !occurs_app, H2. by destruct code.
Qed.

Lemma made_scan code h q : plain h -> plain q ->
  cells_loop (nl +:+ "    {" +:+ h +:+ "[" +:+ q +:+ "]" +:+ made_tail code) 1 0 None = [scanned code].
Proof.
  intros Hh Hq. change (cells_loop (nl +:+ "    {" +:+ ?t) 1 0 None) with (cells_loop t 1 1 (Some "{")).
  rewrite plain_run by done. cbn [fmap option_fmap option_map String.append].
  change (cells_loop (String "[" ?t) 1 1 (Some ?u)) with (cells_loop t 2 1 (Some (u +:+ "["))).
  rewrite plain_run by done. by destruct code.
Qed.

Lemma made_cells code source : plain source -> ExtractCells (CreateEmptyNotebook (made_type code) source) = [scanned code].
Proof.
  intros Hs. rewrite made_text, array_cells by (by apply made_at). apply plain_escaped in Hs. rewrite <- (made_scan code
    (nl +:+ "      " +:+ in_quotes "cell_type" +:+ ": " +:+ in_quotes (made_type code) +:+ "," +:+ nl +:+ "      " +:+ in_quotes "source" +:+ ": ")
    (in_quotes (EscapeJson source))).
  - unfold made_array, in_quotes. rewrite !str_app_assoc. by destruct code.
  - by destruct code.
  - unfold in_quotes. by repeat apply plain_app.
Qed.

Section OwnNotebook.
Context {X : Type} `{FileSystemLaws X}.

(** Replacing the cell of a notebook the tool itself made reports success and leaves a
    text that depends neither on the old nor on the new source: both are gone. *)
Theorem own_notebook_lost p code source editCode newSource x x' :
  plain source -> fs_read p x = Some (CreateEmptyNotebook (made_type code) source) -> fs_write p (lost code) x = (x', true) ->
  edit_existing p "replace" (made_type editCode) newSource 0 x = (x', Val ("Successfully edited cell 0 in " +:+ p)) /\
  fs_read p x' = Some (lost code).
Proof.
  intros Hs Hr Hw. split; [|by eapply write_read]. unfold edit_existing. rewrite Hr, made_cells by done.
  assert (edit_cells "replace" (made_type editCode) newSource 0 [scanned code] =
    Some (inr ([scanned code], "Successfully edited cell 0 in "))) as -> by (by destruct code, editCode).
  unfold WriteNotebook. rewrite made_text, array_rewritten by (by apply made_at). unfold lost in Hw. cbn [join]. by rewrite Hw.
Qed.
End OwnNotebook.

(** ** Examples *)

Definition ex_notebook (l : list string) : string :=
  array_text "{" ": " (nl +:+ join ("," +:+ nl) l +:+ nl +:+ "  ") (", " +:+ in_quotes "nbformat" +:+ ": 4}").
Definition ex_cell (source : string) : string :=
  "{" +:+ in_quotes "cell_type" +:+ ": " +:+ in_quotes "code" +:+ ", " +:+ in_quotes "source" +:+ ": " +:+ in_quotes source +:+ "}".
Definition ex_disk_with (text : string) : MemDisk.disk := MemDisk.mkDisk [("a.ipynb", (text, 5))] 100.

Lemma flat_notebook_edited_witness :
  let cells' := [ex_cell "x = 1"; ex_cell "z = 3"] in
  fs_read "a.ipynb" (edit_existing "a.ipynb" "delete" "code" "" 1 (ex_disk_with (ex_notebook [ex_cell "x = 1"; ex_cell "y = 2"; ex_cell "z = 3"]))).1 =
    Some (ex_notebook cells') /\ ExtractCells (ex_notebook cells') = cells'.
Proof.
  intros cells'.
  assert (forall s, plain s -> flat (ex_cell s)) as Hf.
  { intros s Hs. exists (in_quotes "cell_type" +:+ ": " +:+ in_quotes "code" +:+ ", " +:+ in_quotes "source" +:+ ": " +:+ in_quotes s).
    split; [unfold ex_cell; by rewrite !str_app_assoc|]. unfold in_quotes. by repeat apply plain_app. }
  destruct (flat_notebook_edited "a.ipynb" "{" ": " [ex_cell "x = 1"; ex_cell "y = 2"; ex_cell "z = 3"] (", " +:+ in_quotes "nbformat" +:+ ": 4}")
    "delete" "code" "" 1 (ex_disk_with (ex_notebook [ex_cell "x = 1"; ex_cell "y = 2"; ex_cell "z = 3"])) ltac:(vm_compute; done)
    ltac:(repeat constructor; by apply Hf) ltac:(vm_compute; done) _ eq_refl) as (-> & Hr & Hx).
  split; [exact Hr|]. apply Hx. repeat constructor; by apply Hf.
Defined.

Lemma own_notebook_lost_witness :
  fs_read "a.ipynb" (edit_existing "a.ipynb" "replace" "code" "print(2)" 0 (ex_disk_with (CreateEmptyNotebook "code" "print(1)"))).1 = Some (lost true).
Proof.
  destruct (own_notebook_lost "a.ipynb" true "print(1)" true "print(2)" (ex_disk_with (CreateEmptyNotebook "code" "print(1)"))
    _ ltac:(vm_compute; done) ltac:(vm_compute; done) eq_refl) as [E Hr].
  change (made_type true) with "code" in E. rewrite E. exact Hr.
Defined.

(** A line end arrives as two characters, and is written as a backslash and a letter. *)
Example ex_line_end :
  let j := "{" +:+ in_quotes "new_source" +:+ ": " +:+ in_quotes ("a" +:+ String BSLASH "n" +:+ "b") +:+ "}" in
  EscapeJson (ParseStringField j "new_source") = "a" +:+ String BSLASH (String BSLASH "n") +:+ "b".
Proof. vm_compute. reflexivity. Qed.

(** A comma in a string ends the source that is replaced. *)
Example ex_comma :
  replace_source "y" (ex_cell "f(a, b)") =
  "{" +:+ in_quotes "cell_type" +:+ ": " +:+ in_quotes "code" +:+ ", " +:+ in_quotes "source" +:+ ": " +:+ in_quotes "y" +:+ ", b)" +:+ dq +:+ "}".
Proof. vm_compute. reflexivity. Qed.
