(* ===== verification/ConfigWatcher.v ===== *)
(** * The watcher of configuration files (src/config/config_watcher.cpp)

    A thread that polls the modification times of files and calls back for each one that
    changed.  The wait between polls and the joining of the thread are not modelled. *)
From Stdlib Require Import ZArith Lia String Ascii List.
From stdpp Require Import base decidable list strings.
From S2P Require Import Prelude Files.
Open Scope Z_scope.

Section Watcher.
Context {X : Type} `{FileSystem X}.

Definition Callback : Type := string -> X -> X * outcome unit.
(** [lastMtime] is [None] for [file_time_type::min()], the time of no file. *)
Record Entry := mkEntry { e_path : string; e_cb : Callback; e_lastMtime : option Z }.
Record ConfigWatcher := mkConfigWatcher { cw_running : bool; cw_pollSeconds : Z; cw_entries : list Entry }.
Definition new_watcher : ConfigWatcher := mkConfigWatcher false 3 [].

(** [exists] and [last_write_time] with an [error_code]. *)
Definition sighting (path : string) (x : X) : option Z :=
  match fs_exists path x with
  | Ok true => match fs_mtime path x with Ok t => Some t | Throw _ => None end
  | _ => None
  end.

Definition Watch (path : string) (cb : Callback) (w : ConfigWatcher) (x : X) : ConfigWatcher :=
  mkConfigWatcher (cw_running w) (cw_pollSeconds w) (cw_entries w ++ [mkEntry path cb (sighting path x)]).
(** Whether the thread is started. *)
Definition Start (pollSeconds : Z) (w : ConfigWatcher) : ConfigWatcher * bool :=
  if cw_running w then (w, false)
  else (mkConfigWatcher true (if 0 <? pollSeconds then pollSeconds else 3) (cw_entries w), true).
Definition Stop (w : ConfigWatcher) : ConfigWatcher * bool :=
  if cw_running w then (mkConfigWatcher false (cw_pollSeconds w) (cw_entries w), true) else (w, false).

Definition sighted (e : Entry) (t : Z) : Entry := mkEntry (e_path e) (e_cb e) (Some t).
(** One turn of the inner loop, and whether the callback was called; what it throws is
    caught. *)
Definition poll_entry (e : Entry) (x : X) : Entry * X * bool :=
  match sighting (e_path e) x with
  | None => (e, x, false)
  | Some mt =>
      match e_lastMtime e with
      | None => (sighted e mt, x, false)
      | Some last => if mt =? last then (e, x, false) else (sighted e mt, (e_cb e (e_path e) x).1, true)
      end
  end.
Fixpoint poll_entries (l : list Entry) (x : X) : list Entry * X * list string :=
  match l with
  | [] => ([], x, [])
  | e :: l =>
      let '(e', x, fired) := poll_entry e x in
      let '(l', x, rest) := poll_entries l x in
      (e' :: l', x, if fired : bool then e_path e :: rest else rest)
  end.
(** The body of [Loop] up to the wait. *)
Definition poll (w : ConfigWatcher) (x : X) : ConfigWatcher * X * list string :=
  let '(l, x, fired) := poll_entries (cw_entries w) x in (mkConfigWatcher (cw_running w) (cw_pollSeconds w) l, x, fired).

(** ** A change is reported once *)

Definition differs (x : X) (e : Entry) : bool :=
  match sighting (e_path e) x, e_lastMtime e with Some mt, Some last => negb (mt =? last) | _, _ => false end.
(** The callbacks leave the watched files alone. *)
Definition callbacks_read (w : ConfigWatcher) : Prop :=
  forall e f x, e ∈ cw_entries w -> f ∈ cw_entries w -> sighting (e_path f) (e_cb e (e_path e) x).1 = sighting (e_path f) x.
Definition settled (x : X) (e : Entry) : Prop :=
  forall mt, sighting (e_path e) x = Some mt -> e_lastMtime e = Some mt.

Lemma settled_quiet l x : Forall (settled x) l -> poll_entries l x = (l, x, []).
Proof.
  induction 1 as [|e l He _ IH]; [done|]. cbn [poll_entries]. unfold poll_entry. destruct (sighting (e_path e) x) as [mt|] eqn:E.
  - rewrite (He mt E), Z.eqb_refl, IH. done.
  - by rewrite IH.
Qed.

Lemma poll_entry_path e x : e_path (poll_entry e x).1.1 = e_path e.
Proof. unfold poll_entry. by repeat case_match. Qed.

Lemma poll_entry_settled e x : settled x (poll_entry e x).1.1.
Proof.
  intros mt. rewrite poll_entry_path. intros Hmt. unfold poll_entry. rewrite Hmt. destruct (e_lastMtime e) as [last|] eqn:El; [|done].
  destruct (Z.eqb_spec mt last) as [->|]; [exact El|done].
Qed.

Lemma poll_entry_fired e x : (poll_entry e x).2 = differs x e.
Proof. unfold poll_entry, differs. destruct (sighting _ x); [|done]. destruct (e_lastMtime e); [|done]. by destruct (_ =? _). Qed.

Lemma poll_entries_spec (all : list Entry) l x :
  (forall e f x, e ∈ all -> f ∈ all -> sighting (e_path f) (e_cb e (e_path e) x).1 = sighting (e_path f) x) ->
  (forall e, e ∈ l -> e ∈ all) ->
  let '(l', x', fired) := poll_entries l x in
  fired = map e_path (List.filter (differs x) l) /\ (forall f, f ∈ all -> sighting (e_path f) x' = sighting (e_path f) x) /\
  Forall (settled x') l' /\ map e_path l' = map e_path l.
Proof.
  intros Hcb. revert x. induction l as [|e l IH]; intros x Hin; [done|]. cbn [poll_entries].
  pose proof (poll_entry_settled e x) as Hs. pose proof (poll_entry_fired e x) as Hf. pose proof (poll_entry_path e x) as Hp.
  assert (Hx : forall f, f ∈ all -> sighting (e_path f) (poll_entry e x).1.2 = sighting (e_path f) x).
  { intros f Hfa. unfold poll_entry. repeat case_match; cbn [fst snd]; try done. apply Hcb; [apply Hin; left|done]. }
  destruct (poll_entry e x) as [[e' x1] fired]. cbn [fst snd] in *. specialize (IH x1 ltac:(intros; apply Hin; by right)).
  destruct (poll_entries l x1) as [[l' x2] rest]. destruct IH as (-> & Hx2 & Hf2 & Hm). split_and!.
  - cbn [List.filter]. rewrite Hf. assert (List.filter (differs x1) l = List.filter (differs x) l) as Heq.
    { clear -Hx Hin. assert (forall f, f ∈ l -> differs x1 f = differs x f) as Hc
        by (intros f Hfl; unfold differs; rewrite Hx; [done|by apply Hin; right]).
      clear Hin. induction l as [|f l IH]; [done|]. cbn [List.filter]. rewrite Hc by left. rewrite IH; [done|]. intros; apply Hc; by right. }
    rewrite Heq. by destruct (differs x e).
  - intros f Hfa. by rewrite Hx2, Hx.
  - constructor; [|done]. intros mt. rewrite Hp. rewrite Hx2 by (apply Hin; left). intros Hmt.
    rewrite Hx in Hmt by (apply Hin; left). apply Hs. by rewrite Hp.
  - cbn [map]. by rewrite Hp, Hm.
Qed.
End Watcher.
Section Reports.
Context {X : Type} `{FileSystem X}.

(** A poll calls back for exactly the files whose modification time differs from the
    one last seen, in the order they are watched, also when a callback fails; the next poll,
    with the files as they are, calls nothing and changes nothing. *)
Theorem changes_reported_once (w : ConfigWatcher (X := X)) x :
  callbacks_read w ->
  let '(w', x', fired) := poll w x in
  fired = map e_path (List.filter (differs x) (cw_entries w)) /\ poll w' x' = (w', x', []).
Proof.
  intros Hcb. unfold poll. pose proof (poll_entries_spec (cw_entries w) (cw_entries w) x Hcb ltac:(done)) as Hs.
  destruct (poll_entries (cw_entries w) x) as [[l' x'] fired]. destruct Hs as (-> & _ & Hf & _). split; [done|].
  cbn [cw_entries cw_running cw_pollSeconds]. by rewrite settled_quiet.
Qed.

(** A file that appears after [Watch] is taken for seen without a call. *)
Lemma creation_not_reported e x mt : e_lastMtime e = None -> sighting (e_path e) x = Some mt -> poll_entry e x = (sighted e mt, x, false).
Proof. intros Hl Hm. unfold poll_entry. by rewrite Hm, Hl. Qed.
End Reports.

Definition ex_watch : ConfigWatcher (X := MemDisk.disk) :=
  (Start 0 (Watch "b" (fun _ x => (x, Throw "no")) (Watch "a" (fun _ x => (x, Ok tt)) new_watcher
    (MemDisk.mkDisk [("a", ("1", 5)); ("b", ("1", 5))] 9)) (MemDisk.mkDisk [("a", ("1", 5)); ("b", ("1", 5))] 9))).1.
Definition ex_edited : MemDisk.disk := MemDisk.mkDisk [("a", ("1", 5)); ("b", ("2", 8))] 9.
Lemma changes_reported_once_witness :
  let '(w, x, fired) := poll ex_watch ex_edited in fired = ["b"] /\ poll w x = (w, x, []).
Proof.
  assert (callbacks_read ex_watch) as Hc.
  { intros e f x [->|[->|[]%elem_of_nil]%elem_of_cons]%elem_of_cons _; done. }
  exact (changes_reported_once ex_watch ex_edited Hc).
Defined.
