(* ===== verification/Heartbeat.v ===== *)
(** * The heartbeat (examples/jiuwenClaw/heartbeat_manager.cpp)

    A thread that asks the model, in an interval, whether the heartbeat file calls for
    anything to be done, and gives the task to the agent in a session of its own. *)
From Stdlib Require Import ZArith Lia String Ascii List.
From stdpp Require Import base decidable list strings gmap pretty.
From S2P Require Import Prelude Numbers Types JsonLib Files ToolBase TurnState Calendar CronJobs HttpSessions.
Open Scope Z_scope.

(** ** The clock *)

(** Two digits, as [%m] and its like print them. *)
Definition two_digits (n : Z) : string := (if n <? 10 then "0" else "") +:+ to_string n.
Definition utc_text (tm : TM) : string :=
  to_string (1900 + t_year tm) +:+ "-" +:+ two_digits (t_mon tm + 1) +:+ "-" +:+ two_digits (t_mday tm) +:+ " "
  +:+ two_digits (t_hour tm) +:+ ":" +:+ two_digits (t_min tm) +:+ ":" +:+ two_digits (t_sec tm) +:+ " UTC".
Example ex_utc : utc_text (gmtime 86399) = "1970-01-01 23:59:59 UTC".
Proof. vm_compute. reflexivity. Qed.

(** ** Prompts *)

Definition jkey (k : string) : string := dq +:+ k +:+ dq.
Definition decision_prompt : string :=
  "You are a heartbeat coordinator. You review the heartbeat file and decide whether to wake the main agent." +:+ nl
  +:+ "To make a decision, you MUST output a JSON object with the EXACT format:" +:+ nl
  +:+ "{" +:+ jkey "name" +:+ ": " +:+ jkey "decision" +:+ ", " +:+ jkey "arguments" +:+ ": {" +:+ jkey "action" +:+ ": "
  +:+ jkey "run" +:+ " OR " +:+ jkey "skip" +:+ ", " +:+ jkey "tasks" +:+ ": " +:+ jkey "exact task text if run" +:+ "}}" +:+ nl
  +:+ "Do NOT wrap the JSON in markdown code blocks." +:+ nl.
Definition review_prompt (now : Z) (content : string) : string :=
  "Current Time: " +:+ utc_text (gmtime now) +:+ nl +:+ nl
  +:+ "Review the following HEARTBEAT.md and decide whether to run:" +:+ nl +:+ nl +:+ content.
Definition heartbeat_prompt (tasks : string) : string :=
  "HEARTBEAT ALERT: You are required to execute the following periodic task right now:" +:+ nl +:+ nl
  +:+ "**Task**: " +:+ tasks +:+ nl +:+ nl
  +:+ "INSTRUCTIONS:" +:+ nl
  +:+ "1. Execute the task above." +:+ nl
  +:+ "2. IMMEDIATELY after successful execution, update the heartbeat file:" +:+ nl
  +:+ "   - **IMPORTANT**: If the task is **recurring** or **periodic** (e.g., 'every day', 'every hour'), you must **KEEP IT IN ACTIVE TASKS**. Do NOT move it to 'Completed'." +:+ nl
  +:+ "   - ONLY move to 'Completed' if the task is explicitly a **one-time** task." +:+ nl
  +:+ "   - Use your file editing tools to make this update in `./data/HEARTBEAT.md`.".

(** ** The answer of the model *)

Section Decision.
Context {J : Type} `{Json J}.

(** [s.substr(start, end - start + 1)], whose length wraps when the end is before. *)
Definition braced (response : string) : option string :=
  match find_char "{" response 0, rfind_char "}" response with
  | Some start, Some fin =>
      Some (if Nat.leb start (fin + 1) then substr response start (fin + 1 - start) else str_drop start response)
  | _, _ => None
  end.

(** Whether to run, with the tasks; [Throw] where the name is no string. *)
Definition read_decision (response : string) : outcome (bool * string) :=
  match braced response with
  | None => Ok (false, "")
  | Some jsonStr =>
      match json_parse (J := J) jsonStr with
      | Throw _ => Ok (false, "")
      | Ok j =>
          match jfield "name" j with
          | None => Ok (false, "")
          | Some n =>
              name <-- get_string n ;;
              if negb (String.eqb name "decision") then Ok (false, "")
              else
                match jfield "arguments" j with
                | None => Ok (false, "")
                | Some args =>
                    match string_field "action" args with
                    | None => Ok (false, "")
                    | Some action => Ok (String.eqb action "run", default "" (string_field "tasks" args))
                    end
                end
          end
      end
  end.
End Decision.

(** ** The manager *)

Section Manager.
Context {X J M : Type} `{FileSystem X, CronHost X, Json J, LanguageModel M X J}.
(** [ResourceManager::CreateModel] with the configuration of the agent. *)
Variable create_model : X -> X * outcome M.
Variable path_ : string.

Definition empty_heartbeat : string :=
  "# Heartbeat Tasks" +:+ nl +:+ nl +:+ "## Active Tasks" +:+ nl +:+ nl +:+ "<!-- Add periodic tasks below -->" +:+ nl +:+ nl
  +:+ "## Completed" +:+ nl +:+ nl.
(** The constructor, up to the start of the thread. *)
Definition new_heartbeat (x : X) : X * outcome unit :=
  match fs_exists path_ x with
  | Throw e => (x, Throw e)
  | Ok true => (x, Ok tt)
  | Ok false =>
      let parentDir := parent_path path_ in
      let '(x, made) := if str_empty parentDir then (x, Ok tt) else fs_create_directories parentDir x in
      match made with
      | Throw e => (x, Throw e)
      | Ok _ => ((fs_write path_ empty_heartbeat x).1, Ok tt)
      end
  end.

Definition ReadFile (x : X) : string := default "" (fs_read path_ x).

(** A call that throws decides for nothing. *)
Definition DecideAction (content : string) (x : X) : X * (bool * string) :=
  match create_model x with
  | (x, Throw _) => (x, (false, ""))
  | (x, Ok model) =>
      match model_Format model decision_prompt [mkMessage "user" (review_prompt (unix_time x) content) [] "" "" "" ""] [] with
      | Throw _ => (x, (false, ""))
      | Ok formatted =>
          match model_Invoke model formatted x with
          | (x, _, Throw _) => (x, (false, ""))
          | (x, _, Ok response) =>
              (x, match read_decision (mr_content response) with Ok d => d | Throw _ => (false, "") end)
          end
      end
  end.

(** One turn of [Run], after the wait. *)
Definition heartbeat_check (x : X) : X :=
  let content := ReadFile x in
  if str_empty content then x
  else if session_busy kHeartbeatSessionId x then x
  else
    let '(x, (run, tasks)) := DecideAction content x in
    if run : bool then (session_invoke kHeartbeatSessionId (heartbeat_prompt tasks) x).1 else x.
Definition heartbeat_turn (wait : X -> X) (x : X) : X :=
  if still_running x then
    let x := wait x in
    if still_running x then heartbeat_check x else x
  else x.
End Manager.

(** ** A decision is taken as it is meant *)

Section Facts.
Context {J : Type} `{JsonLaws J}.

Lemma braced_object pre body post : occurs "{" pre = false -> occurs "}" post = false ->
  braced (pre +:+ ("{" +:+ body +:+ "}") +:+ post) = Some ("{" +:+ body +:+ "}").
Proof.
  intros Hpre Hpost. unfold braced. set (t := "{" +:+ body +:+ "}").
  change (pre +:+ t +:+ post) with (pre +:+ String "{" ((body +:+ "}") +:+ post)) at 1. rewrite find_char_first by done.
  assert (pre +:+ t +:+ post = (pre +:+ "{" +:+ body) +:+ String "}" post) as E by (unfold t; by rewrite !str_app_assoc).
  assert (rfind_char "}" (pre +:+ t +:+ post) = Some (String.length (pre +:+ "{" +:+ body))) as ->.
  { rewrite E. apply find_last_app; [done|]. intros d Hd. apply Ascii.eqb_neq. intros <-. congruence. }
  assert (String.length (pre +:+ "{" +:+ body) + 1 = String.length pre + String.length t)%nat as ->
    by (unfold t; rewrite !str_length_app; cbn; lia).
  rewrite (proj2 (Nat.leb_le _ _)) by lia. unfold substr. rewrite str_drop_app.
  replace (String.length pre + String.length t - String.length pre)%nat with (String.length t) by lia. by rewrite str_take_app.
Qed.

Definition decision_json (action tasks : string) : J :=
  j_fields [("name", j_string "decision"); ("arguments", j_fields [("action", j_string action); ("tasks", j_string tasks)])].

Lemma decision_read pre body post action tasks :
  occurs "{" pre = false -> occurs "}" post = false -> json_parse ("{" +:+ body +:+ "}") = Ok (decision_json action tasks) ->
  read_decision (J := J) (pre +:+ ("{" +:+ body +:+ "}") +:+ post) = Ok (String.eqb action "run", tasks).
Proof.
  intros Hpre Hpost Hp. unfold read_decision. rewrite braced_object, Hp by done. unfold decision_json. rewrite !jfield_j_fields. cbn [assoc_last].
  change (String.eqb "arguments" "name") with false. change (String.eqb "name" "name") with true. cbv iota. cbn [fst snd].
  rewrite get_string_j_string. cbn [obind]. change (String.eqb "decision" "decision") with true. cbn [negb].
  change (String.eqb "arguments" "arguments") with true. cbv iota. rewrite !string_field_j_fields. cbn [assoc_last].
  change (String.eqb "tasks" "action") with false. change (String.eqb "action" "action") with true. change (String.eqb "tasks" "tasks") with true.
  cbv iota. by rewrite !view_j_string.
Qed.

Section Wakes.
Context {X M : Type} `{FileSystem X, CronHost X, LanguageModel M X J}.
Variable create_model : X -> X * outcome M.
Variable path_ : string.

(** A turn of the heartbeat whose file is not empty and whose session is free gives the
    agent a task exactly when the model decided to run: then the decision's task, in the
    session of the heartbeat, whatever text stands around the decision.  With an empty file
    or a busy session the model is not even asked. *)
Theorem heartbeat_wakes_agent x :
  (ReadFile path_ x = "" \/ session_busy kHeartbeatSessionId x = true -> heartbeat_check create_model path_ x = x) /\
  forall x1 model formatted x2 chunks response pre body post action tasks,
  ReadFile path_ x <> "" -> session_busy kHeartbeatSessionId x = false -> create_model x = (x1, Ok model) ->
  model_Format model decision_prompt [mkMessage "user" (review_prompt (unix_time x1) (ReadFile path_ x)) [] "" "" "" ""] [] = Ok formatted ->
  model_Invoke model formatted x1 = (x2, chunks, Ok response) ->
  mr_content response = pre +:+ ("{" +:+ body +:+ "}") +:+ post -> occurs "{" pre = false -> occurs "}" post = false ->
  json_parse ("{" +:+ body +:+ "}") = Ok (decision_json action tasks) ->
  heartbeat_check create_model path_ x =
  if String.eqb action "run" then (session_invoke kHeartbeatSessionId (heartbeat_prompt tasks) x2).1 else x2.
Proof.
  split.
  - intros [Hf|Hb]; unfold heartbeat_check; [by rewrite Hf|]. rewrite Hb. by destruct (str_empty _).
  - intros x1 model formatted x2 chunks response pre body post action tasks Hf Hb Hc Hm Hi Hr Hpre Hpost Hp.
    unfold heartbeat_check, DecideAction. rewrite (proj2 (str_empty_false _) Hf), Hb, Hc, Hm, Hi, Hr.
    by rewrite (decision_read pre body post action tasks).
Qed.

(** Whatever goes wrong on the way to a decision, nothing is run. *)
Lemma no_decision_no_run content x : (DecideAction create_model content x).2.1 = true ->
  exists x1 model formatted x2 chunks response tasks, create_model x = (x1, Ok model) /\
    model_Invoke model formatted x1 = (x2, chunks, Ok response) /\ read_decision (J := J) (mr_content response) = Ok (true, tasks).
Proof.
  unfold DecideAction. destruct (create_model x) as [x1 [model|]]; [|done]. destruct (model_Format _ _ _ _) as [formatted|]; [|done].
  destruct (model_Invoke model formatted x1) as [[x2 chunks] [response|]] eqn:Ei; [|done].
  destruct (read_decision _) as [[run tasks]|] eqn:Ed; [|done]. cbn. intros ->. by exists x1, model, formatted, x2, chunks, response, tasks.
Qed.
End Wakes.
End Facts.

Section Example.
#[local] Existing Instances ex_files ex_host.
Definition ex_answers : list (string * JsonTree.json) :=
  [("{decision}", decision_json (H := JsonTree.instance []) "run" "water the plants")].
#[local] Instance ex_decisions : Json JsonTree.json := JsonTree.instance ex_answers.
#[local] Instance ex_decisions_laws : JsonLaws JsonTree.json := JsonTree.laws ex_answers ltac:(by intros ? ->%list_elem_of_singleton).
#[local] Instance ex_model : LanguageModel unit ex_world JsonTree.json := {|
  model_Format := fun _ _ _ _ => Ok "";
  model_Invoke := fun _ _ x => (x, [], Ok (mkModelResponse "I think: {decision} That is all." [] true "" false None))
|}.
Definition ex_heartbeat : ex_world := (MemDisk.mkDisk [("H.md", ("- water the plants", 5))] 100, []).

Lemma heartbeat_wakes_agent_witness :
  heartbeat_check (J := JsonTree.json) (M := unit) (fun x => (x, Ok tt)) "H.md" ex_heartbeat = (ex_heartbeat.1, [heartbeat_prompt "water the plants"]).
Proof.
  rewrite (proj2 (heartbeat_wakes_agent (J := JsonTree.json) (M := unit) (fun x => (x, Ok tt)) "H.md" ex_heartbeat)
    ex_heartbeat tt "" ex_heartbeat [] (mkModelResponse "I think: {decision} That is all." [] true "" false None)
    "I think: " "decision" " That is all." "run" "water the plants"); done.
Defined.
End Example.
