(* ===== verification/Notify.v ===== *)
(** * Desktop notifications (examples/jiuwenClaw/tools/notify_tool.cpp)

    The tool builds a line for the shell, or a script for PowerShell inside such a line.
    Read back with the quoting rules of both, the line says what was meant as long as the
    text has no character of those rules. *)
From Stdlib Require Import ZArith Lia String Ascii List.
From stdpp Require Import base decidable list strings gmap pretty.
From S2P Require Import Prelude Numbers JsonLib Files FileTools ExecTool.
Open Scope Z_scope.

(** ** Lines and scripts *)

Definition escape_quote (ch : ascii) : string := if Ascii.eqb ch SQUOTE then "''" else String ch "".
Definition EscapePowerShellString (input : string) : string := str_bind escape_quote input.

Definition kBalloonTipTimeoutMs : Z := 5000.
Definition kDisposeDelaySeconds : Z := 6.
Definition kIconLoadDelayMs : Z := 200.
Definition kPowerShellExePath : string := "C:\Windows\System32\WindowsPowerShell\v1.0\powershell.exe".

(** The script between the double quotes; the dollar signs of variables are escaped for the
    shell. *)
Definition CreateWslNotificationCommand (title message : string) : string :=
  "powershell.exe -WindowStyle Hidden -ExecutionPolicy Bypass -Command "
  +:+ dq +:+ "Add-Type -AssemblyName System.Windows.Forms; Add-Type -AssemblyName System.Drawing; "
  +:+ "\$n = New-Object System.Windows.Forms.NotifyIcon; \$n.Icon = [System.Drawing.SystemIcons]::Information; "
  +:+ "\$n.Visible = \$true; \$n.ShowBalloonTip(" +:+ to_string kBalloonTipTimeoutMs +:+ ", '"
  +:+ EscapePowerShellString title +:+ "', '" +:+ EscapePowerShellString message
  +:+ "', [System.Windows.Forms.ToolTipIcon]::Info); Start-Sleep -Seconds " +:+ to_string kDisposeDelaySeconds
  +:+ "; \$n.Dispose()" +:+ dq.

(** The script of the Windows build. *)
Definition BuildWinNotificationScript (title message : string) : string :=
  "$path = 'C:\Windows\System32\Shell32.dll'; Add-Type -AssemblyName System.Windows.Forms; "
  +:+ "Add-Type -AssemblyName System.Drawing; $icon = [System.Drawing.Icon]::ExtractAssociatedIcon($path); "
  +:+ "$obj = New-Object System.Windows.Forms.NotifyIcon; $obj.Icon = $icon; "
  +:+ "$obj.Text = '" +:+ EscapePowerShellString title +:+ "'; $obj.Visible = $true; "
  +:+ "Start-Sleep -Milliseconds " +:+ to_string kIconLoadDelayMs +:+ "; "
  +:+ "$obj.ShowBalloonTip(" +:+ to_string kBalloonTipTimeoutMs +:+ ", '"
  +:+ EscapePowerShellString title +:+ "', '" +:+ EscapePowerShellString message
  +:+ "', [System.Windows.Forms.ToolTipIcon]::Info); Start-Sleep -Seconds " +:+ to_string kDisposeDelaySeconds +:+ "; $obj.Dispose()".

Definition notify_line (title message : string) : string := "notify-send '" +:+ title +:+ "' '" +:+ message +:+ "'".

(** ** Sending *)

(** [std::system] with its status, and the line on [std::cerr]. *)
Class Desktop (X : Type) := {
  run_system : string -> X -> X * Z;
  show_error : string -> X -> X
}.

Section Notify.
Context {X J : Type} `{FileSystem X, Desktop X, Json J}.

(** The thread; what it throws is logged.  Outside Windows nothing happens where PowerShell
    is found and the machine is no WSL. *)
Definition SendNotification (title message : string) (x : X) : X :=
  let '(x, wsl) := run_system "grep -qi microsoft /proc/version 2>/dev/null" x in
  if wsl =? 0 then (run_system ("nohup " +:+ CreateWslNotificationCommand title message +:+ " </dev/null >/dev/null 2>&1 &") x).1
  else
    match fs_exists kPowerShellExePath x with
    | Throw _ => x
    | Ok true => x
    | Ok false =>
        let '(x, found) := run_system "which notify-send > /dev/null 2>&1" x in
        if found =? 0 then (run_system (notify_line title message +:+ " &") x).1
        else show_error (String (ascii_of_nat 7) "[ALERT] " +:+ title +:+ ": " +:+ message) x
    end.

Definition NotifyInvoke (input : string) (x : X) : X * string :=
  match (j <-- json_parse (J := J) input ;; title <-- value_str "title" "" j ;; message <-- value_str "message" "" j ;; Ok (title, message)) with
  | Throw e => (x, "Error: Invalid JSON input. Expected: {" +:+ dq +:+ "title" +:+ dq +:+ ": " +:+ dq +:+ "..." +:+ dq +:+ ", " +:+ dq +:+ "message"
                   +:+ dq +:+ ": " +:+ dq +:+ "..." +:+ dq +:+ "}" +:+ nl +:+ "Details: " +:+ e)
  | Ok (title, message) =>
      if str_empty title then (x, "Error: 'title' parameter is required.")
      else if str_empty message then (x, "Error: 'message' parameter is required.")
      else (SendNotification title message x, "Notification sent: " +:+ dq +:+ title +:+ dq +:+ " - " +:+ dq +:+ message +:+ dq)
  end.
End Notify.

(** ** Reading them back *)

(** The rest of a PowerShell literal and what follows it: two quotes stand for one. *)
Fixpoint ps_literal (s : string) : option (string * string) :=
  match s with
  | "" => None
  | String c s' =>
      if Ascii.eqb c SQUOTE then
        match s' with
        | String d s'' => if Ascii.eqb d SQUOTE then (fun r => (String SQUOTE r.1, r.2)) <$> ps_literal s'' else Some ("", s')
        | "" => Some ("", "")
        end
      else (fun r => (String c r.1, r.2)) <$> ps_literal s'
  end.

(** The rest of text in double quotes in the shell, up to the closing quote; [None] where
    something would be expanded. *)
Definition special (c : ascii) : bool := Ascii.eqb c "$" || Ascii.eqb c "`" || Ascii.eqb c DQUOTE || Ascii.eqb c BSLASH.
Fixpoint double_quoted (s : string) : option (string * string) :=
  match s with
  | "" => None
  | String c s' =>
      if Ascii.eqb c DQUOTE then Some ("", s')
      else if Ascii.eqb c BSLASH then
        match s' with
        | String d s'' =>
            if special d then (fun r => (String d r.1, r.2)) <$> double_quoted s''
            else if Ascii.eqb d NL then double_quoted s''
            else (fun r => (String c (String d r.1), r.2)) <$> double_quoted s''
        | "" => None
        end
      else if special c then None
      else (fun r => (String c r.1, r.2)) <$> double_quoted s'
  end.
Definition no_special (s : string) : Prop := any_char special s = false.

Lemma escaped_read s c rest : c <> SQUOTE -> ps_literal (EscapePowerShellString s +:+ String SQUOTE (String c rest)) = Some (s, String c rest).
Proof.
  intros Hc. apply Ascii.eqb_neq in Hc. induction s as [|d s IH]; [cbn -[Ascii.eqb]; by rewrite Hc|].
  unfold EscapePowerShellString in *. cbn [str_bind]. unfold escape_quote at 1. destruct (Ascii.eqb d SQUOTE) eqn:E.
  - apply Ascii.eqb_eq in E as ->. change (("''" +:+ ?a) +:+ ?b) with (String SQUOTE (String SQUOTE (a +:+ b))).
    cbn -[Ascii.eqb]. rewrite Ascii.eqb_refl, IH. done.
  - cbn -[Ascii.eqb]. by rewrite E, IH.
Qed.

Lemma no_special_run s t : no_special s -> double_quoted (s +:+ t) = (fun r => (s +:+ r.1, r.2)) <$> double_quoted t.
Proof.
  induction s as [|c s IH]; intros Hs; [change ("" +:+ t) with t; by destruct (double_quoted t) as [[]|]|]. unfold no_special in *. cbn [any_char] in Hs.
  apply orb_false_iff in Hs as [Hc Hs]. cbn [String.append double_quoted]. rewrite Hc. unfold special in Hc.
  apply orb_false_iff in Hc as [Hc Hb]. apply orb_false_iff in Hc as [_ Hd]. rewrite Hd, Hb, IH by done. by destruct (double_quoted t).
Qed.

Lemma no_special_escaped s : no_special s -> no_special (EscapePowerShellString s).
Proof.
  induction s as [|c s IH]; intros Hs; [done|]. unfold no_special, EscapePowerShellString in *. cbn [str_bind]. cbn [any_char] in Hs.
  apply orb_false_iff in Hs as [Hc Hs]. unfold escape_quote at 1. destruct (Ascii.eqb c SQUOTE); cbn [String.append any_char]; [exact (IH Hs)|].
  rewrite Hc. exact (IH Hs).
Qed.

(** Text that is read up to a quote behind it is read the same before other text. *)
Lemma double_quoted_prefix a a' t : double_quoted (a +:+ dq) = Some (a', "") ->
  double_quoted (a +:+ t) = (fun r => (a' +:+ r.1, r.2)) <$> double_quoted t.
Proof.
  remember (String.length a) as n eqn:En. revert a a' En. induction (lt_wf n) as [n _ IH]; intros a a' En Ha.
  destruct a as [|c a]; [injection Ha as <-; change ("" +:+ t) with t; by destruct (double_quoted t) as [[]|]|].
  cbn [String.append double_quoted] in Ha |- *. destruct (Ascii.eqb c DQUOTE) eqn:Eq.
  { injection Ha as _ Hd. by destruct a. }
  destruct (Ascii.eqb c BSLASH) eqn:Eb.
  - destruct a as [|d a]; [done|]. cbn [String.append] in Ha |- *.
    assert (forall b', double_quoted (a +:+ dq) = Some (b', "") ->
      double_quoted (a +:+ t) = (fun r => (b' +:+ r.1, r.2)) <$> double_quoted t) as IHa
      by (intros b'; apply (IH (String.length a)); [subst; cbn; lia|done]).
    destruct (special d); [|destruct (Ascii.eqb d NL); [by apply IHa|]].
    all: destruct (double_quoted (a +:+ dq)) as [[b' r']|]; [|done]; injection Ha as <- ->.
    all: rewrite (IHa b') by done; by destruct (double_quoted t).
  - destruct (special c); [done|]. destruct (double_quoted (a +:+ dq)) as [[b' r']|] eqn:E; [|done]. injection Ha as <- ->.
    rewrite (IH (String.length a)) with (a' := b'); [|subst; cbn; lia|done..]. by destruct (double_quoted t).
Qed.

(** ** What is shown *)

Lemma quote_chars_plain s : occurs SQUOTE s = false -> quote_chars s = s.
Proof.
  induction s as [|c s IH]; intros Hs; [done|]. cbn [occurs] in Hs. apply orb_false_iff in Hs as [Hc Hs]. cbn [quote_chars].
  rewrite Ascii.eqb_sym, Hc, IH by done. done.
Qed.

Definition ps_before : string :=
  "Add-Type -AssemblyName System.Windows.Forms; Add-Type -AssemblyName System.Drawing; "
  +:+ "$n = New-Object System.Windows.Forms.NotifyIcon; $n.Icon = [System.Drawing.SystemIcons]::Information; "
  +:+ "$n.Visible = $true; $n.ShowBalloonTip(5000, ".
Definition ps_after : string := ", [System.Windows.Forms.ToolTipIcon]::Info); Start-Sleep -Seconds 6; $n.Dispose()".
Definition balloon_script (title message : string) : string :=
  ps_before +:+ "'" +:+ EscapePowerShellString title +:+ "', '" +:+ EscapePowerShellString message +:+ "'" +:+ ps_after.
Definition wsl_words : string := "powershell.exe -WindowStyle Hidden -ExecutionPolicy Bypass -Command ".

(** Text without single quotes reaches [notify-send] as it is: the line is this one
    command with the title and the message for its words.  Text without dollar signs,
    backticks, double quotes and backslashes reaches PowerShell as it is: the shell hands on
    one script, whose two literals read back as the title and the message. *)
Theorem notification_shown title message :
  (occurs SQUOTE title = false -> occurs SQUOTE message = false ->
   sh_line (notify_line title message) = Some [mkSimple ["notify-send"; title; message] false]) /\
  (no_special title -> no_special message ->
   exists line, CreateWslNotificationCommand title message = wsl_words +:+ dq +:+ line /\
     double_quoted line = Some (balloon_script title message, "") /\
     forall c rest, c <> SQUOTE ->
       ps_literal (EscapePowerShellString title +:+ String SQUOTE (String c rest)) = Some (title, String c rest) /\
       ps_literal (EscapePowerShellString message +:+ String SQUOTE (String c rest)) = Some (message, String c rest)).
Proof.
  split.
  - intros Ht Hm. unfold sh_line, notify_line.
    assert (forall s, occurs SQUOTE s = false -> "'" +:+ s +:+ "'" = ShellQuote s) as Hq
      by (intros s Hs; unfold ShellQuote; by rewrite quote_chars_plain).
    assert ("notify-send '" +:+ title +:+ "' '" +:+ message +:+ "'" = "notify-send " +:+ ShellQuote title +:+ " " +:+ ShellQuote message +:+ "") as ->
      by (rewrite <- !Hq by done; rewrite !str_app_assoc; reflexivity).
    change "notify-send " with (String "n" "otify-send" +:+ " "). rewrite !str_app_assoc, sh_lex_word; [|done..|by apply plain_text_all].
    change (" " +:+ ?t) with (String " " t). rewrite sh_lex_blank, sh_lex_quote.
    change (" " +:+ ?t) with (String " " t). rewrite sh_lex_blank, sh_lex_quote. reflexivity.
  - intros Ht Hm. eexists. split; [unfold CreateWslNotificationCommand, wsl_words; rewrite ?str_app_assoc; reflexivity|]. split.
    + apply no_special_escaped in Ht, Hm.
      set (script_start := "Add-Type -AssemblyName System.Windows.Forms; Add-Type -AssemblyName System.Drawing; "
         +:+ "\$n = New-Object System.Windows.Forms.NotifyIcon; \$n.Icon = [System.Drawing.SystemIcons]::Information; "
         +:+ "\$n.Visible = \$true; \$n.ShowBalloonTip(" +:+ to_string kBalloonTipTimeoutMs +:+ ", '").
      set (script_end := "', [System.Windows.Forms.ToolTipIcon]::Info); Start-Sleep -Seconds " +:+ to_string kDisposeDelaySeconds +:+ "; \$n.Dispose()").
      transitivity (double_quoted (script_start +:+ EscapePowerShellString title +:+ "', '" +:+ EscapePowerShellString message +:+ script_end +:+ dq)).
      { reflexivity. }
      rewrite (double_quoted_prefix script_start (ps_before +:+ "'")) by (vm_compute; reflexivity).
      rewrite no_special_run by done. rewrite (double_quoted_prefix "', '" "', '") by reflexivity. rewrite no_special_run by done.
      rewrite (double_quoted_prefix script_end ("'" +:+ ps_after)) by (vm_compute; reflexivity).
      change (double_quoted dq) with (Some ("", "")). cbn [fmap option_fmap option_map fst snd]. unfold balloon_script.
      rewrite !str_app_assoc. by rewrite ?str_app_nil_r.
    + intros c rest Hc. split; by apply escaped_read.
Qed.

Lemma notification_shown_witness :
  sh_line (notify_line "Mail" "two new") = Some [mkSimple ["notify-send"; "Mail"; "two new"] false] /\
  exists line, CreateWslNotificationCommand "Mail" "it's here" = wsl_words +:+ dq +:+ line /\ double_quoted line = Some (balloon_script "Mail" "it's here", "").
Proof.
  split; [by apply (proj1 (notification_shown "Mail" "two new"))|].
  destruct (proj2 (notification_shown "Mail" "it's here") eq_refl eq_refl) as (line & Hl & Hs & _). by exists line.
Defined.
(** A title ends its word and begins a command of its own. *)
Example ex_injection : sh_line (notify_line "x' && reboot && true '" "m") =
  Some [mkSimple ["notify-send"; "x"] false; mkSimple ["reboot"] false; mkSimple ["true"; ""; "m"] false].
Proof. reflexivity. Qed.
