(* ===== verification/ToolCatalog.v ===== *)
(** * The tools as the model sees them

    Name, description and parameters of every tool the program constructs, as the
    constructors pass them to [Tool]. *)
From Stdlib Require Import String List.
From stdpp Require Import base list strings.
From S2P Require Import Prelude ToolBase.

(** ** Tools without a session (src/tools/builtin_tools/, examples/jiuwenClaw/tools/) *)

Definition timeInfoTool_info : ToolInfo := mkToolInfo "time_info"
  "Get the current date and time"
  [].
Definition webSearchTool_info : ToolInfo := mkToolInfo "web_search"
  ("Search the web for information. Returns ranked results with title, URL and snippet. For Chinese queries: tries Baidu (direct from local network) then Sogou then Wikipedia then Bing. For English/ASCII queries: tries DuckDuckGo then Wikipedia then Bing. Input JSON: {" +:+ dq +:+ "query" +:+ dq +:+ ": <string required>, " +:+ dq +:+ "max_results" +:+ dq +:+ ": <int optional 1-20, default 8>, " +:+ dq +:+ "timeout" +:+ dq +:+ ": <int optional 5-30, default 15>}. Usage guidance: issue ONE web_search call per turn; for details on a result, use web_fetcher on its URL. Do NOT issue multiple web_search calls with rephrased queries in the same turn — that pattern looks like a bot to search engines and triggers anti-bot challenges that block the agent's IP for everyone.")
  [mkToolParam "query" "The search query" "string" true;
   mkToolParam "max_results" "Maximum number of results (1-20, default 8)" "integer" false;
   mkToolParam "timeout" "Per-engine timeout in seconds (5-30, default 15)" "integer" false].
Definition webFetcherTool_info : ToolInfo := mkToolInfo "web_fetcher"
  "Fetches the content of a given URL"
  [mkToolParam "url" "The URL to fetch" "string" true].
Definition readFileTool_info : ToolInfo := mkToolInfo "read_file"
  "Read file contents with pagination. Input: JSON with 'path' (required), 'offset' (1-based line, default 1), 'limit' (max lines, default 2000). Output format: LINE_NUM|CONTENT. Truncated at ~128K chars."
  [mkToolParam "path" "The file path to read" "string" true;
   mkToolParam "offset" "1-based line number to start from" "integer" false;
   mkToolParam "limit" "Maximum lines to read (default 2000)" "integer" false].
Definition writeFileTool_info : ToolInfo := mkToolInfo "write_file"
  "Write content to a file. Overwrites existing files; creates parent directories as needed. Input: JSON with 'path' and 'content' (both required)."
  [mkToolParam "path" "The file path to write to" "string" true;
   mkToolParam "content" "The content to write" "string" true].
Definition editFileTool_info : ToolInfo := mkToolInfo "edit_file"
  "Edit a file by replacing old_text with new_text. Tolerates minor whitespace differences. Input: JSON with 'path', 'old_text' (required), 'new_text' (required), 'replace_all' (optional, default false)."
  [mkToolParam "path" "The file path to edit" "string" true;
   mkToolParam "old_text" "The text to find and replace" "string" true;
   mkToolParam "new_text" "The new text to replace with" "string" true;
   mkToolParam "replace_all" "Replace all occurrences (default false)" "boolean" false].
Definition fileStateTool_info : ToolInfo := mkToolInfo "file_state"
  "Manage file read/write state tracking for agent memory. Actions: check (check if file was read before editing), record_read (mark file as read), record_write (mark file as written), clear (clear all state). Input: JSON with 'action' (required), 'path' (for check/record_read/record_write)."
  [mkToolParam "action" "Action: check, record_read, record_write, or clear" "string" true;
   mkToolParam "path" "File path to track" "string" false].
Definition listDirTool_info : ToolInfo := mkToolInfo "list_dir"
  "List directory contents. Supports recursive listing. Auto-ignores common noise dirs (.git, node_modules, etc.). Input: JSON with 'path' (required), 'recursive' (default false), 'max_entries' (default 200)."
  [mkToolParam "path" "The directory path to list" "string" true;
   mkToolParam "recursive" "Recursively list all files" "boolean" false;
   mkToolParam "max_entries" "Maximum entries to return" "integer" false].
Definition globTool_info : ToolInfo := mkToolInfo "glob"
  "Find files matching a glob pattern (e.g. '*.py', 'test_*.cpp'). Results sorted by modification time (newest first). Skips .git, node_modules, __pycache__, etc. Input: JSON with 'pattern' (required), 'path' (default '.'), 'head_limit' (default 250), 'entry_type' (files|dirs|both, default files)."
  [mkToolParam "pattern" "Glob pattern to match" "string" true;
   mkToolParam "path" "Directory to search from" "string" false;
   mkToolParam "head_limit" "Max results to return (default 250)" "integer" false;
   mkToolParam "entry_type" "Match files, dirs, or both" "string" false].
Definition grepTool_info : ToolInfo := mkToolInfo "grep"
  "Search file contents with a regex pattern. Default output: matching file paths. Supports content mode (with context), count mode, glob/type filtering. Skips binary and files >2MB. Input: JSON with 'pattern' (required), 'path' (default '.'), 'output_mode' (files_with_matches|content|count), 'case_insensitive' (default false), 'glob' (file filter), 'head_limit' (default 250), 'context_before'/'context_after' (0-20)."
  [mkToolParam "pattern" "Regex or plain text pattern" "string" true;
   mkToolParam "path" "File or directory to search in" "string" false;
   mkToolParam "output_mode" "Output mode: files_with_matches, content, or count" "string" false;
   mkToolParam "case_insensitive" "Case-insensitive search" "boolean" false;
   mkToolParam "glob" "Optional file filter, e.g. '*.cpp'" "string" false;
   mkToolParam "head_limit" "Max results to return" "integer" false;
   mkToolParam "context_before" "Lines of context before match" "integer" false;
   mkToolParam "context_after" "Lines of context after match" "integer" false].
Definition execTool_info : ToolInfo := mkToolInfo "exec"
  "Execute a shell command and return its output. Use -y or --yes flags to avoid interactive prompts. Output is truncated at 10000 chars; timeout defaults to 60s. Input: JSON with 'command' (required), 'working_dir' (optional), 'timeout' (default 60, max 600)."
  [mkToolParam "command" "The shell command to execute" "string" true;
   mkToolParam "working_dir" "Optional working directory" "string" false;
   mkToolParam "timeout" "Timeout in seconds (default 60, max 600)" "integer" false].
Definition notebookEditTool_info : ToolInfo := mkToolInfo "notebook_edit"
  "Edit a Jupyter notebook (.ipynb) cell. Modes: replace (default), insert (after target index), delete. Input: JSON with 'path' (required), 'cell_index' (0-based, required), 'new_source' (for replace/insert), 'cell_type' (code|markdown, default code), 'edit_mode' (replace|insert|delete, default replace)."
  [mkToolParam "path" "Path to the .ipynb notebook file" "string" true;
   mkToolParam "cell_index" "0-based index of the cell to edit" "integer" true;
   mkToolParam "new_source" "New source content for the cell" "string" false;
   mkToolParam "cell_type" "Cell type: code or markdown" "string" false;
   mkToolParam "edit_mode" "Mode: replace, insert, or delete" "string" false].
Definition cronTool_info : ToolInfo := mkToolInfo "cron"
  "Schedule, list, and remove reminders. Use when user asks to set a reminder, list scheduled tasks, or remove a scheduled task."
  [mkToolParam "action" "Action: 'add', 'list', or 'remove'" "string" true;
   mkToolParam "message" "Reminder message" "string" false;
   mkToolParam "every_seconds" "Interval in seconds for recurring reminders" "integer" false;
   mkToolParam "at" "ISO datetime for one-time reminders (e.g. 2026-01-15T14:00:00Z). Default: UTC" "string" false;
   mkToolParam "cron_expr" ("Cron expression in UTC (e.g. " +:+ dq +:+ "0 9 * * 1-5" +:+ dq +:+ " for weekdays at 9am UTC)") "string" false;
   mkToolParam "job_id" "Job ID to remove (from list output)" "string" false;
   mkToolParam "timezone" "IANA timezone name (e.g. Asia/Shanghai). Default: UTC" "string" false].
Definition notifyTool_info : ToolInfo := mkToolInfo "notify"
  "Send a system notification to the user. Use this to display desktop notifications, popup messages, or alerts across all platforms (Windows, Linux, WSL)."
  [mkToolParam "title" "Notification title/header" "string" true;
   mkToolParam "message" "Notification body/message content" "string" true].

(** ** Tools of a session *)

Definition skillSearchTool_info : ToolInfo := mkToolInfo "skill_search"
  "Search for available skills and load their full instructions. Use when you need detailed guidance on a specific domain or task. Accepts JSON input with 'action' (search|load) and 'query' (search term or skill name)."
  [mkToolParam "action" "Action to perform: 'search' to find skills, 'load' to get full instructions" "string" true;
   mkToolParam "query" "Search query or skill name" "string" true].
Definition todoCreateTool_info : ToolInfo := mkToolInfo "todo_create"
  ("Create the initial todo list of tasks for the current run. Replaces any existing list. Input: JSON {" +:+ dq +:+ "items" +:+ dq +:+ ": [" +:+ dq +:+ "task 1" +:+ dq +:+ ", " +:+ dq +:+ "task 2" +:+ dq +:+ ", ...]}.")
  [mkToolParam "items" "An array of task descriptions (strings)" "array" true].
Definition todoCompleteTool_info : ToolInfo := mkToolInfo "todo_complete"
  ("Mark a task as completed by its index. Optionally include a short result. Input: JSON {" +:+ dq +:+ "index" +:+ dq +:+ ": <int>, " +:+ dq +:+ "result" +:+ dq +:+ ": <string optional>}.")
  [mkToolParam "index" "Zero-based task index" "integer" true;
   mkToolParam "result" "Short result/note" "string" false].
Definition todoInsertTool_info : ToolInfo := mkToolInfo "todo_insert"
  ("Insert a new task at a given index. Existing tasks shift down. Input: JSON {" +:+ dq +:+ "index" +:+ dq +:+ ": <int>, " +:+ dq +:+ "content" +:+ dq +:+ ": <string>}.")
  [mkToolParam "index" "Zero-based insertion index (use list length to append)" "integer" true;
   mkToolParam "content" "Task description" "string" true].
Definition todoRemoveTool_info : ToolInfo := mkToolInfo "todo_remove"
  ("Remove a task by its index. Remaining tasks renumber. Input: JSON {" +:+ dq +:+ "index" +:+ dq +:+ ": <int>}.")
  [mkToolParam "index" "Zero-based task index" "integer" true].
Definition todoListTool_info : ToolInfo := mkToolInfo "todo_list"
  "List all current todos with status and result. Input: empty JSON {} accepted."
  [].
Definition askUserTool_info : ToolInfo := mkToolInfo "ask_user"
  ("Ask the end user a structured question and wait up to 60s for their answer. Input: JSON {" +:+ dq +:+ "question" +:+ dq +:+ ": <string required>, " +:+ dq +:+ "options" +:+ dq +:+ ": [<string>...] optional, " +:+ dq +:+ "multiple" +:+ dq +:+ ": <bool optional, default false>, " +:+ dq +:+ "header" +:+ dq +:+ ": <string optional short label>}. Returns the user's answer (free text, or comma-joined selected option labels). Returns empty string on timeout.")
  [mkToolParam "question" "The question to ask the user" "string" true;
   mkToolParam "options" "Optional list of choices presented to the user" "array" false;
   mkToolParam "multiple" "Allow selecting multiple options (default false)" "boolean" false;
   mkToolParam "header" "Short header/label (max 30 chars)" "string" false].
Definition memoryReadPayloadTool_info : ToolInfo := mkToolInfo "memory_read_payload"
  ("Read full content from an offloaded memory payload reference. Input: JSON {" +:+ dq +:+ "ref" +:+ dq +:+ ": " +:+ dq +:+ "file://..." +:+ dq +:+ "}.")
  [mkToolParam "ref" "Payload reference returned in a tool message payload_ref" "string" true].
Definition toolSearchTool_info : ToolInfo := mkToolInfo "tool_search"
  "Discover and load tools by name. Use action='load' when you already know the tool name (pulls its full schema into the callable set for the next iteration); use action='search' with a query when you only have a need and no name in hand. When all tools are already visible in the catalog, search short-circuits (nothing to discover)."
  [mkToolParam "action" "Action: 'load' (enable a known tool) or 'search' (find tools by query)" "string" true;
   mkToolParam "query" "Tool name (for load) or search query (for search)" "string" true].
