(* ===== verification/DataDir.v ===== *)
(** * The data directory (src/utils/data_dir.cpp, examples/jiuwenClaw/utils/data_dir.cpp)

    Where the files of the program are.  The object is its base path; each operation holds
    the mutex while it reads it.  Both classes have the operations up to [GetFilePath]. *)
From Stdlib Require Import ZArith Lia String Ascii List.
From stdpp Require Import base decidable list strings.
From S2P Require Import Prelude Files.

(** ** Names *)

Definition unsafe (c : ascii) : bool :=
  Ascii.eqb c ":" || Ascii.eqb c "/" || Ascii.eqb c BSLASH || Ascii.eqb c " " || Ascii.eqb c "?" || Ascii.eqb c "*"
  || Ascii.eqb c DQUOTE || Ascii.eqb c "<" || Ascii.eqb c ">" || Ascii.eqb c "|".
Definition MakeSafeFilename (name : string) : string := str_map (fun c => if unsafe c then "_"%char else c) name.

(** ** Paths *)

Record DataDir := mkDataDir { basePath_ : string }.

Section Paths.
Context {X : Type} `{FileSystem X}.

Definition EnsureDirectory (path : string) (x : X) : X * outcome unit :=
  match fs_exists path x with
  | Throw e => (x, Throw e)
  | Ok true => (x, Ok tt)
  | Ok false => fs_create_directories path x
  end.
Definition ensured (path : string) (x : X) : X * outcome string :=
  let '(x, r) := EnsureDirectory path x in (x, _ <-- r ;; Ok path).

Definition new_data_dir (basePath : string) (x : X) : X * outcome DataDir :=
  let '(x, r) := EnsureDirectory basePath x in (x, _ <-- r ;; Ok (mkDataDir basePath)).
(** The path is changed also when the directory cannot be made. *)
Definition SetBasePath (path : string) (d : DataDir) (x : X) : DataDir * X * outcome unit :=
  let '(x, r) := EnsureDirectory path x in (mkDataDir path, x, r).
Definition GetBasePath (d : DataDir) : string := basePath_ d.
Definition GetPath (dataType : string) (d : DataDir) (x : X) : X * outcome string := ensured (basePath_ d +:+ "/" +:+ dataType) x.
Definition GetFilePath (dataType fileName : string) (d : DataDir) (x : X) : X * outcome string :=
  let '(x, r) := GetPath dataType d x in (x, dir <-- r ;; Ok (dir +:+ "/" +:+ fileName)).

Definition session_path (sessionId subPath : string) (d : DataDir) : string :=
  basePath_ d +:+ "/sessions/" +:+ MakeSafeFilename sessionId +:+ (if str_empty subPath then "" else "/" +:+ subPath).
Definition GetSessionPath (sessionId subPath : string) (d : DataDir) (x : X) : X * outcome string := ensured (session_path sessionId subPath d) x.
Definition GetSessionFilePath (sessionId fileName : string) (d : DataDir) (x : X) : X * outcome string :=
  let '(x, r) := GetSessionPath sessionId "" d x in (x, dir <-- r ;; Ok (dir +:+ "/" +:+ fileName)).
Definition GetMemoryPath (d : DataDir) : string := basePath_ d +:+ "/memory/MEMORY.md".
Definition GetHeartbeatPath (d : DataDir) : string := basePath_ d +:+ "/HEARTBEAT.md".
Definition GetCronJobsPath (d : DataDir) (x : X) : X * outcome string :=
  let '(x, r) := GetPath "cron" d x in (x, dir <-- r ;; Ok (dir +:+ "/jobs.json")).
End Paths.

(** ** Names are one component *)

Definition all_safe (s : string) : bool := str_empty (str_filter unsafe s).

Lemma safe_char c : unsafe (if unsafe c then "_"%char else c) = false.
Proof. by destruct (unsafe c) eqn:E. Qed.

(** A safe name has the length of the name and none of the characters that are special in
    a path; names that had none are kept, so making a name safe twice is making it safe. *)
Lemma MakeSafeFilename_spec name :
  all_safe (MakeSafeFilename name) = true /\ String.length (MakeSafeFilename name) = String.length name /\
  (all_safe name = true -> MakeSafeFilename name = name) /\ MakeSafeFilename (MakeSafeFilename name) = MakeSafeFilename name.
Proof.
  assert (forall s, all_safe (MakeSafeFilename s) = true) as Hs.
  { induction s as [|c s IH]; [done|]. unfold all_safe, MakeSafeFilename in *. cbn [str_map str_filter]. by rewrite safe_char. }
  assert (forall s, all_safe s = true -> MakeSafeFilename s = s) as Hid.
  { induction s as [|c s IH]; [done|]. unfold all_safe, MakeSafeFilename in *. cbn [str_map str_filter].
    destruct (unsafe c); [done|]. intros Hn. by rewrite IH. }
  split_and!; [apply Hs| |apply Hid|by apply Hid]. induction name as [|c s IH]; [done|]. unfold MakeSafeFilename in *. cbn. by rewrite IH.
Qed.

(** The session is one directory below the sessions: there is no further separator. *)
Lemma session_path_component sessionId d :
  occurs "/" (MakeSafeFilename sessionId) = false /\ session_path sessionId "" d = basePath_ d +:+ "/sessions/" +:+ MakeSafeFilename sessionId.
Proof.
  split; [|unfold session_path; cbn [str_empty]; by rewrite str_app_nil_r].
  induction sessionId as [|c s IH]; [done|]. unfold MakeSafeFilename in *. cbn [str_map occurs]. rewrite IH, orb_false_r.
  destruct (unsafe c) eqn:E; [done|]. apply Ascii.eqb_neq. intros <-. done.
Qed.

(** Two sessions share a directory, and the parent of all of them can be a session's. *)
Example ex_paths : map (fun s => session_path s "" (mkDataDir "./data")) ["a b"; "a_b"; ".."]
  = ["./data/sessions/a_b"; "./data/sessions/a_b"; "./data/sessions/.."].
Proof. reflexivity. Qed.
