(* ===== verification/Boot.v ===== *)
(** * The start of the program (examples/jiuwenClaw/main.cpp, the constructor of
    src/resource_manager/resource_manager.cpp, src/workers/agent_worker_factory.cpp)

    The tools, models and memory runtimes a new resource manager has, the tools the example
    adds, the worker class a configuration asks for, and the configuration the primary agent
    starts with. *)
From Stdlib Require Import ZArith Lia String Ascii List.
From stdpp Require Import base decidable list strings gmap.
From S2P Require Import Prelude Types JsonLib ToolBase ToolCatalog AgentConfigJson AgentWorker ResourceManager AgentConfigStore SessionManager HttpSessions Cli.
Open Scope Z_scope.

(** ** What a new resource manager holds *)

(** The classes of the tools, for the functions that construct them. *)
Inductive StatelessTool :=
  | TimeInfoTool | WebSearchTool | WebFetcherTool | ReadFileTool | WriteFileTool | EditFileTool | FileStateTool
  | ListDirTool | GlobTool | GrepTool | ExecTool | NotebookEditTool | CronTool | NotifyTool
  (** Registered when a server is connected, with what the server says of the tool. *)
  | MCPTool (info : ToolInfo).
Inductive SessionTool :=
  | SkillSearchTool | TodoCreateTool | TodoCompleteTool | TodoInsertTool | TodoRemoveTool | TodoListTool | AskUserTool
  | MemoryReadPayloadTool | ToolSearchTool (alwaysOnNames : list string).
Definition stateless_info (t : StatelessTool) : ToolInfo :=
  match t with
  | TimeInfoTool => timeInfoTool_info | WebSearchTool => webSearchTool_info | WebFetcherTool => webFetcherTool_info
  | ReadFileTool => readFileTool_info | WriteFileTool => writeFileTool_info | EditFileTool => editFileTool_info
  | FileStateTool => fileStateTool_info | ListDirTool => listDirTool_info | GlobTool => globTool_info | GrepTool => grepTool_info
  | ExecTool => execTool_info | NotebookEditTool => notebookEditTool_info | CronTool => cronTool_info | NotifyTool => notifyTool_info
  | MCPTool info => info
  end.
Definition session_info (t : SessionTool) : ToolInfo :=
  match t with
  | SkillSearchTool => skillSearchTool_info | TodoCreateTool => todoCreateTool_info | TodoCompleteTool => todoCompleteTool_info
  | TodoInsertTool => todoInsertTool_info | TodoRemoveTool => todoRemoveTool_info | TodoListTool => todoListTool_info
  | AskUserTool => askUserTool_info | MemoryReadPayloadTool => memoryReadPayloadTool_info
  | ToolSearchTool _ => toolSearchTool_info
  end.
(** The constructors throw nothing, and no tool has a schema of its own. *)
#[export] Instance tool_classes {J} `{Json J} : ToolFactories StatelessTool SessionTool ToolInfo J := {|
  run_factory := fun t => Ok (Some (stateless_info t));
  run_session_factory := fun t _ => Ok (Some (session_info t));
  tool_data := fun t => t;
  tool_schema := fun t => Ok (GetJsonSchema t)
|}.
Inductive ModelClass := OpenAIModel | AnthropicModel.
Inductive RuntimeClass := BuiltinMemoryRuntime | HttpMemoryRuntime.

Section Resources.
Context {J : Type}.
Definition Tools : Type := ToolDomain StatelessTool SessionTool J.

Definition stateless_tools : list (string * StatelessTool) :=
  [("time_info", TimeInfoTool); ("web_search", WebSearchTool); ("web_fetcher", WebFetcherTool); ("read_file", ReadFileTool);
   ("write_file", WriteFileTool); ("edit_file", EditFileTool); ("file_state", FileStateTool); ("list_dir", ListDirTool);
   ("glob", GlobTool); ("grep", GrepTool); ("exec", ExecTool)].
Definition session_tools : list (string * SessionTool) :=
  [("skill_search", SkillSearchTool); ("todo_create", TodoCreateTool); ("todo_complete", TodoCompleteTool); ("todo_insert", TodoInsertTool);
   ("todo_remove", TodoRemoveTool); ("todo_list", TodoListTool); ("ask_user", AskUserTool); ("memory_read_payload", MemoryReadPayloadTool)].
Definition demo_tools : list (string * StatelessTool) := [("notebook_edit", NotebookEditTool); ("cron", CronTool); ("notify", NotifyTool)].

Definition construct_tools (l : list (string * StatelessTool)) (rm : Tools) : Tools := fold_left (fun rm t => RegisterTool t.1 t.2 rm) l rm.
Definition RegisterBuiltinTools (rm : Tools) : Tools :=
  fold_left (fun rm t => RegisterSessionTool t.1 t.2 rm) session_tools (construct_tools stateless_tools rm).
Definition RegisterDemoTools (rm : Tools) : Tools := construct_tools demo_tools rm.

Definition RegisterBuiltinModels (d : ModelDomain ModelClass) : ModelDomain ModelClass :=
  RegisterModelFormat ANTHROPIC AnthropicModel (RegisterModelFormat OPENAI OpenAIModel d).

(** The constructor; [builtin] is the build option of the memory library. *)
Definition new_resources (builtin : bool) : Tools * ModelDomain ModelClass * MemoryDomain RuntimeClass :=
  let mem := mkMemoryDomain ∅ [] 0 in
  let mem := if builtin then RegisterMemoryRuntime "builtin.compat" BuiltinMemoryRuntime mem else mem in
  (RegisterBuiltinTools empty_tools, RegisterBuiltinModels (mkModelDomain (fun _ => None) ∅), RegisterMemoryRuntime "http.server" HttpMemoryRuntime mem).
End Resources.

(** ** The tool of progressive disclosure *)

(** The modes under which [Initialize] and [ReloadAgent] register [tool_search]. *)
Definition discloses (mode : ToolDisclosureMode) : bool :=
  match mode with PROGRESSIVE | SELECTIVE | AUTO => true | DISABLED => false end.

Definition register_tool_search {J} (config : AgentConfig) (rm : Tools (J := J)) : Tools :=
  if discloses (toolDisclosureMode config)
  then RegisterSessionTool "tool_search" (ToolSearchTool (ComputeAlwaysOnFor config)) rm else rm.

(** ** The worker of a mode *)

Inductive WorkerClass := ReactAgentWorker.
Definition CreateAgentWorker (config : AgentConfig) : outcome WorkerClass :=
  match ac_mode config with
  | REACT => Ok ReactAgentWorker
  | _ => Throw "AgentWorkMode PLAN_AND_EXECUTE / WORKFLOW are not implemented in this build"
  end.

(** ** The primary agent *)

Section Primary.
Context {J : Type} `{Json J} (iter : forall V : Type, gmap string V -> list (string * V)).

Definition boot_tools : Tools (J := J) := RegisterDemoTools (new_resources true).1.1.
Definition default_agent : AgentConfig := BuildAgentConfig (GetAvailableTools boot_tools).

(** The store that is filled, and the configuration the session manager gets; an exception
    of [Load] ends the program. *)
Definition boot_config (s : ConfigStore J) : outcome (ConfigStore J * AgentConfig) :=
  let defaultConfig := default_agent in
  match Load iter (RegisterDefault defaultConfig (SetPersistPath "./data/agents.json" s)) with
  | (s, Ok effective) => Ok (s, default defaultConfig (effective !! ac_id defaultConfig))
  | (_, Throw e) => Throw e
  end.
End Primary.

(** ** Facts *)

Definition tool_names : list string := map fst stateless_tools ++ map fst session_tools ++ map fst demo_tools.

(** Every tool is registered under its name, and under no other. *)
Lemma boot_tool_names {J} : GetAvailableTools (boot_tools (J := J)) ≡ₚ tool_names.
Proof.
  apply NoDup_Permutation; [refine (bool_decide_unpack _ _); vm_compute; exact I..|].
  assert (Forall (fun n => n ∈ tool_names) (GetAvailableTools (boot_tools (J := J)))) as H1
    by (refine (bool_decide_unpack _ _); vm_compute; exact I).
  assert (Forall (fun n => n ∈ GetAvailableTools (boot_tools (J := J))) tool_names) as H2
    by (refine (bool_decide_unpack _ _); vm_compute; exact I).
  rewrite Forall_forall in H1, H2. intros n. split; auto.
Qed.

(** ** The schemas *)

(** A description, distinct parameters with descriptions, and types of JSON Schema. *)
Definition described (t : ToolInfo) : Prop :=
  str_empty (description_ t) = false /\ NoDup (map tp_name (params_ t)) /\
  Forall (fun p => str_empty (tp_description p) = false /\ schema_type (tp_type p) = tp_type p) (params_ t).
Definition all_tools : list (string * ToolInfo) :=
  map (fun t => (t.1, stateless_info t.2)) (stateless_tools ++ demo_tools) ++ map (fun t => (t.1, session_info t.2)) session_tools ++
  [("tool_search", toolSearchTool_info)].
Lemma all_tools_described : Forall (fun t => t.1 = name_ t.2 /\ described t.2) all_tools.
Proof. refine (bool_decide_unpack _ _). vm_compute. exact I. Qed.

Section Offers.
Context {J : Type} `{JsonLaws J}.

Definition schema_of (t : ToolInfo) : ToolSchema J := mkToolSchema (name_ t) (description_ t) (GetJsonSchema t).

(** The registry once the session manager is initialised. *)
Definition started_tools (config : AgentConfig) : Tools (J := J) := register_tool_search config boot_tools.
(** The program's own tools in it. *)
Definition own_tools (config : AgentConfig) : list string :=
  tool_names ++ if discloses (toolDisclosureMode config) then ["tool_search"] else [].

Lemma started_probe config n :
  n ∈ own_tools config ->
  exists t, (n, t) ∈ all_tools /\ probe_schema n (started_tools config) = Ok (Some (schema_of t)).
Proof.
  assert (Forall (fun n => forall alwaysOn, exists t, (n, t) ∈ all_tools /\
    probe_schema n (RegisterSessionTool "tool_search" (ToolSearchTool alwaysOn) (boot_tools (J := J))) = Ok (Some (schema_of t)))
    (tool_names ++ ["tool_search"])) as Hs.
  { repeat (constructor; [intros; eexists; split; [|reflexivity]; apply list_elem_of_In; vm_compute; tauto|]); constructor. }
  assert (Forall (fun n => exists t, (n, t) ∈ all_tools /\ probe_schema n (boot_tools (J := J)) = Ok (Some (schema_of t)))
    tool_names) as Hd.
  { repeat (constructor; [eexists; split; [|reflexivity]; apply list_elem_of_In; vm_compute; tauto|]); constructor. }
  rewrite Forall_forall in Hs, Hd. unfold own_tools, started_tools, register_tool_search.
  destruct (discloses _); [intros Hn; by apply Hs|]. rewrite app_nil_r. apply Hd.
Qed.

Lemma boot_coherent : coherent (boot_tools (J := J)).
Proof. repeat first [apply RegisterTool_coherent | apply RegisterSessionTool_coherent | apply coherent_empty]. Qed.

(** What happens to the registry after that: any reads; tools of connected servers come
    and go under names that are not the program's; and an agent is reloaded with any mode
    of disclosure. *)
Definition runs_on (config : AgentConfig) (op : rm_op StatelessTool SessionTool) : Prop :=
  match op with
  | OpRegisterMcpTool n _ | OpUnregisterMcpTool n => n ∉ own_tools config
  | OpRegisterSessionTool n f => n = "tool_search" /\ exists alwaysOn, f = ToolSearchTool alwaysOn
  | OpRegisterTool _ _ => False
  | _ => True
  end.

(** A registry in which the program's tools are as at the start. *)
Definition keeps_own (config : AgentConfig) (rm : Tools (J := J)) : Prop :=
  coherent rm /\ forall n, n ∈ own_tools config -> probe_schema n rm = probe_schema n (started_tools config).

Lemma runs_on_keeps config op rm : runs_on config op -> keeps_own config rm -> keeps_own config (apply_op op rm).
Proof.
  intros Hop [Hc Hk]. split; [by apply apply_op_coherent|]. intros n Hn. rewrite <- (Hk n Hn).
  destruct op as [m f|m f|m f|m|m|ns|v m c]; cbn in Hop |- *; [done| | | | | |].
  - destruct Hop as [-> [alwaysOn ->]]. destruct (decide (n = "tool_search")) as [->|Hne].
    + rewrite (Hk _ Hn). destruct (started_probe config "tool_search" Hn) as (t & Ht & ->).
      assert (t = toolSearchTool_info) as ->; [|by unfold probe_schema, find_factory; cbn; rewrite lookup_insert_eq].
      apply list_elem_of_In in Ht. vm_compute in Ht. by repeat destruct Ht as [[= <-]|Ht].
    + apply probe_schema_factory. unfold find_factory. cbn. by rewrite lookup_insert_ne.
  - apply probe_schema_factory. unfold find_factory. cbn. rewrite lookup_insert_ne; [done|]. by intros ->.
  - apply probe_schema_factory. unfold find_factory. cbn. rewrite lookup_delete_ne; [done|]. by intros ->.
  - apply same_factories_probe, GetToolSchema_spec, Hc.
  - apply same_factories_probe, BuildToolSchemas_spec, Hc.
  - apply same_factories_probe, GetToolCatalog_spec, Hc.
Qed.

Lemma ops_keep config ops rm : Forall (runs_on config) ops -> keeps_own config rm -> keeps_own config (apply_ops ops rm).
Proof.
  intros Ho; revert rm; induction Ho as [|op ops Hop _ IH]; intros rm Hk; [done|].
  cbn. by apply IH, runs_on_keeps.
Qed.

Lemma started_keeps config : keeps_own config (started_tools config).
Proof.
  split; [|done]. unfold started_tools, register_tool_search.
  destruct (discloses _); [apply RegisterSessionTool_coherent|]; apply boot_coherent.
Qed.

(** No constructor throws, so no schema fails. *)
Lemma probe_total n (rm : Tools (J := J)) : exists o, probe_schema n rm = Ok o.
Proof. unfold probe_schema. destruct (find_factory n rm) as [[f|f]|]; cbn; by eexists. Qed.

(** What a schema of the registry says of its tool. *)
Definition offers (n : string) (s : ToolSchema J) : Prop :=
  exists t, (n, t) ∈ all_tools /\ ts_name s = n /\ ts_description s = description_ t /\ str_empty (ts_description s) = false /\
  NoDup (map tp_name (params_ t)) /\
  forall p, p ∈ params_ t ->
    (exists props ps, jfield "properties" (ts_parameters s) = Some props /\ jfield (tp_name p) props = Some ps /\
       string_field "type" ps = Some (tp_type p)) /\
    (tp_required p = true <-> exists req, array_field "required" (ts_parameters s) = Some req /\ tp_name p ∈ string_elements req).

Lemma schema_offers n t : (n, t) ∈ all_tools -> offers n (schema_of t).
Proof.
  intros Hin. pose proof all_tools_described as Hd. rewrite Forall_forall in Hd. destruct (Hd _ Hin) as (Hn & He & Hnd & Hp). cbn [fst snd] in *.
  exists t. split_and!; [done|by subst|done..|]. intros p Hpin. rewrite Forall_forall in Hp. destruct (Hp p Hpin) as [_ Ht].
  destruct (GetJsonSchema_describes (J := J) t p Hnd Hpin) as [(props & Hprops & ps & Hps & Hty) Hreq]. split; [|exact Hreq].
  exists props, ps. by rewrite <- Ht.
Qed.

(** C27.  Whatever happens to the registry after the start - reads of it, tools of connected
    servers coming and going under other names, reloads with any mode of disclosure -
    a worker that asks for the schemas of any list of names gets them, and every tool of the
    program among these names is offered to the model in its place, under the name it is
    called by, with its description and every parameter once: with a type of JSON Schema,
    and as required exactly when the tool requires it.  The tools are those of the
    constructor and of the example, and [tool_search] unless the agent's configuration
    disables progressive disclosure. *)
Theorem tools_offered (config : AgentConfig) (ops : list (rm_op StatelessTool SessionTool)) names :
  Forall (runs_on config) ops ->
  exists found, (BuildToolSchemas names (apply_ops ops (started_tools config))).2 = Ok (omap id found) /\
    Forall2 (fun n o => n ∈ own_tools config -> exists s, o = Some s /\ offers n s) names found.
Proof.
  intros Ho. destruct (ops_keep config ops _ Ho (started_keeps config)) as [Hc Hk].
  destruct (BuildToolSchemas_spec names _ Hc) as (-> & _ & _). clear Hc.
  generalize dependent (apply_ops ops (started_tools config)). clear Ho. intros rm Hk.
  induction names as [|n names (found & E & Hf)]; [by exists []|].
  destruct (probe_total n rm) as [o Eo]. exists (o :: found). cbn [probe_schemas]. rewrite Eo, E. split; [by destruct o|].
  constructor; [|done]. intros Hn. rewrite (Hk n Hn) in Eo. destruct (started_probe config n Hn) as (t & Ht & Et).
  exists (schema_of t). split; [congruence | by apply schema_offers].
Qed.
End Offers.

Section Start.
Context {J : Type} `{JsonLaws J} (iter : forall V : Type, gmap string V -> list (string * V)).
Hypothesis iter_perm : forall V (m : gmap string V), iter V m ≡ₚ map_to_list m.

(** The program starts with the built-in configuration of the primary agent when the
    file has no override for it, and with the override laid over that one when it has one;
    the built-in configuration offers every registered tool once, and its worker and its
    model can be made.  The program ends at its start only where some configuration of the
    file cannot be read. *)
Theorem primary_agent_starts (s : ConfigStore J) o :
  defaults_ s = ∅ -> read_overrides (default [] (array_field "agents" (ReadFileLocked (SetPersistPath "./data/agents.json" s)))) ∅ = (o, Ok tt) ->
  match boot_config iter s with
  | Ok (s', config) =>
      match o !! "demo-agent" with
      | None => config = default_agent (J := J)
      | Some j => MergeAgentConfigFromJson j (default_agent (J := J)) = Ok config
      end /\ Get "demo-agent" s' = Some config
  | Throw e => exists id, effective {["demo-agent" := default_agent (J := J)]} o id = Some (Throw e)
  end /\
  defaultTools (default_agent (J := J)) ≡ₚ tool_names /\ CreateAgentWorker (default_agent (J := J)) = Ok ReactAgentWorker /\
  pick_model (modelConfig (default_agent (J := J))) (new_resources (J := J) true).1.2 = Some OpenAIModel.
Proof.
  intros Hd Ho. split; [|split; [apply (boot_tool_names (J := J))|by split]].
  unfold boot_config. set (s1 := RegisterDefault _ _).
  assert (defaults_ s1 = {["demo-agent" := default_agent (J := J)]}) as Hd1 by (unfold s1, RegisterDefault; cbn [str_empty]; cbn; by rewrite Hd).
  pose proof (Load_effective iter iter_perm s1 o Ho) as Hl. destruct (Load iter s1) as [s2 [cur|e]]; [|by rewrite Hd1 in Hl].
  destruct Hl as (Hc & _ & _ & Hm). rewrite Hd1 in Hm. specialize (Hm "demo-agent"). unfold effective in Hm. rewrite lookup_singleton_eq in Hm.
  change (ac_id (default_agent (J := J))) with "demo-agent". unfold Get. rewrite Hc.
  destruct (o !! "demo-agent") as [j|]; cbn in Hm; destruct Hm as (c & E & ->); [split; [exact E|done]|]. injection E as <-. done.
Qed.
End Start.

Section Example.
#[local] Instance ex_json : Json JsonTree.json := JsonTree.instance [].
#[local] Instance ex_laws : JsonLaws JsonTree.json := JsonTree.laws [] ltac:(by intros ? ?%elem_of_nil).
(** A server's tool arrives, and the agent, in the default mode, asks for three tools. *)
Lemma tools_offered_witness :
  let find := MCPTool (mkToolInfo "find" "Finds" []) in
  let agent := default_agent (J := JsonTree.json) in
  let asked := ["todo_insert"; "find"; "tool_search"] in
  exists found, (BuildToolSchemas asked (apply_ops [OpRegisterMcpTool "find" find; OpGetToolSchema "grep"]
      (started_tools (J := JsonTree.json) agent))).2 = Ok (omap id found) /\
    Forall2 (fun n o => n ∈ own_tools agent -> exists s, o = Some s /\ offers n s) asked found.
Proof.
  intros find agent asked. apply (tools_offered (J := JsonTree.json) agent).
  apply Forall_cons; split; [|by apply Forall_cons; split; [|apply Forall_nil]].
  refine (bool_decide_unpack _ _). vm_compute. exact I.
Defined.
Lemma primary_agent_starts_witness :
  match boot_config ex_iter (fresh_config_store (J := JsonTree.json) ∅ true true) with
  | Ok (_, config) => config = default_agent (J := JsonTree.json)
  | Throw _ => False
  end.
Proof.
  pose (s := fresh_config_store (J := JsonTree.json) ∅ true true).
  assert (read_overrides (default [] (array_field "agents" (ReadFileLocked (SetPersistPath "./data/agents.json" s)))) ∅ = (∅, Ok tt)) as Ho
    by (vm_compute; reflexivity).
  destruct (primary_agent_starts ex_iter (fun V m => reflexivity _) s ∅ eq_refl Ho) as [Hb _].
  fold s. destruct (boot_config ex_iter s) as [[s' c]|e]; [by destruct Hb|]. destruct Hb as [id Hid]. unfold effective in Hid.
  rewrite lookup_empty in Hid. destruct (_ !! id); discriminate Hid.
Defined.
End Example.
