(* ===== verification/HostMemory.v ===== *)
(** * The model a consolidation is given (src/core/agent.cpp, HostMemoryModelClient)

    The consolidation thread wraps the agent's model as the model client of the memory
    runtime.  Here is that client, for any back end and over the OpenAI one, handed through
    the builtin runtime to its library. *)
From Stdlib Require Import ZArith Lia String Ascii List.
From stdpp Require Import base decidable list strings gmap sets.
From S2P Require Import Prelude Types Encoding JsonLib MemoryTypes ContextEngine Transport OpenAIModel MemoryRuntime BuiltinMemory.
Open Scope Z_scope.

Section Client.
Context {J : Type} `{Json J} {X : Type}.

(** A [Model]: [Format] without tools, and [Invoke] without callback and without
    cancellation. *)
Record HostModel := mkHostModel {
  hm_Format : string -> list Message -> outcome string;
  hm_Invoke : string -> X -> X * list string * res ModelResponse
}.

Definition update_instruction : string := "Follow the instructions in the user message precisely.".

(** What is made of the response. *)
Definition update_result (response : ModelResponse) : MemoryModelResult :=
  let empty := str_empty (mr_content response) in
  mkModelResult (mr_content response) 200 (if empty then "empty_response" else "")
    (if empty then "Model returned empty content" else "") "".

Definition GenerateMemoryUpdate (model_ : option HostModel) : ModelClient X := fun prompt x =>
  match model_ with
  | None => (x, Val (mkModelResult "" 0 "null_model" "No model provided" ""))
  | Some m =>
      match hm_Format m update_instruction [mkMessage "user" prompt [] "" "" "" ""] with
      | Throw e => (x, Exc e)
      | Ok formatted =>
          match hm_Invoke m formatted x with
          | (x1, _, Val response) => (x1, Val (update_result response))
          | (x1, _, Exc e) => (x1, Exc e)
          | (x1, _, Undefined) => (x1, Undefined)
          end
      end
  end.

(** [operator bool] of the result. *)
Definition accepted (r : MemoryModelResult) : bool :=
  str_empty (mmr_errorMessage r) && negb (str_empty (mmr_text r)).

(** The OpenAI back end as that model. *)
Definition openai_host `{Curl X} (config : ModelConfig) : HostModel :=
  mkHostModel (fun prompt messages => OpenAIModel.Format (J := J) config prompt messages [])
    (OpenAIModel.Invoke (J := J) config (fun _ => false)).
End Client.
Arguments HostModel : clear implicits.

(** ** Facts *)

Section Attempts.
Context {X : Type} `{Curl X}.

(** A call without cancellation ends with the response of one of its attempts, or it made
    none. *)
Lemma attempts_end (once : bool -> X -> X * list string * ModelResponse) (P : ModelResponse -> Prop) n attempt policy
    (x x1 : X) (chunks : list string) (out : ModelResponse) :
  (forall b x, P (once b x).2) -> P exhausted_response ->
  attempts (fun _ => false) once n attempt policy x = (x1, chunks, Val out) -> P out.
Proof.
  intros Ho He. revert attempt x x1 chunks. induction n as [|n IH]; intros attempt x x1 chunks; cbn [attempts].
  { intros [= _ _ <-]. done. }
  pose proof (Ho (Nat.eqb attempt 0) x) as Hx. destruct (once _ x) as [[x0 c] o]. cbn [snd] in Hx.
  destruct (_ || _ || _); [by intros [= _ _ <-]|].
  destruct (log_and_sleep attempt policy x0) as [x2 [u|]]; [|done].
  destruct (attempts _ _ n _ policy x2) as [[x3 more] r] eqn:E. intros [= -> _ ->]. by eapply IH.
Qed.

(** A provider that refuses: every transfer fails, or ends with an error status. *)
Definition refuses : Prop :=
  forall opts (x : X), let '(_, _, rc, code) := curl_easy_perform opts x in rc <> CURLE_OK \/ 400 <= code.

Definition failure (out : ModelResponse) : Prop := mr_finishReason out = "error" /\ mr_content out <> "".

Lemma stream_response_failure config ctx (resp : CurlResponse) :
  isCurlError resp = true \/ 400 <= statusCode resp -> failure (stream_response config ctx resp).
Proof.
  intros Hr. unfold stream_response, failure. destruct (isCurlError resp); [done|].
  destruct Hr as [?|Hr]; [done|]. rewrite (proj2 (Z.leb_le _ _) Hr). split; [done|]. cbn [mr_content].
  destruct (str_empty (fullText ctx)) eqn:E; [done | by apply str_empty_false].
Qed.

Lemma deliver_uncancelled {J} `{Json J} (stream : bool) (chunks : list string) ctx out (x : X) :
  exists ctx1 out1 x1,
    deliver (on_chunk (J := J) (fun _ : X => false) stream) chunks (ctx, out, false) x = ((ctx1, out1, false), x1, true).
Proof.
  revert ctx out x. induction chunks as [|c chunks IH]; intros ctx out x; cbn [deliver]; [by eexists _, _, _|].
  destruct (str_empty c); [apply IH|]. unfold on_chunk at 1. destruct (ProcessSSEChunk ctx c) as [ctx0 cs]. apply IH.
Qed.

Lemma once_failure {J} `{Json J} config (body : string) (stream : bool) (x : X) :
  refuses -> failure (DoInvokeOnce (J := J) config (fun _ => false) body stream x).2.
Proof.
  intros Hr. unfold DoInvokeOnce, PostStream. destruct (curl_handle x); cbn [negb]; [|by apply stream_response_failure; left].
  pose proof (Hr (ApplyOptions (chat_request config body)) x) as Hx.
  destruct (curl_easy_perform _ x) as [[[x1 chunks] rc] code].
  destruct (deliver_uncancelled (J := J) stream chunks initial_context [] x1) as (ctx1 & out1 & x2 & ->).
  cbn [snd]. apply stream_response_failure. unfold finish_transfer. cbn [isCurlError statusCode].
  destruct Hx as [Hx|Hx]; [left | by right]. by apply Z.eqb_neq in Hx as ->.
Qed.
End Attempts.

Section Outage.
Context {J X : Type} `{Json J, Curl X}.

(** C34.  An outage looks like a memory update.  When the provider refuses every request -
    transfers fail or end with an error status - a consolidation that asks the agent's
    model for an update is not told: whatever the retries, an answer it gets carries status
    200 and no error, its text is the message of the failure, so that it converts to
    [true] like an update, and the library of the builtin runtime is handed the same. *)
Theorem outage_looks_like_update (config : ModelConfig) (prompt : string) (x x1 : X) (r : MemoryModelResult) :
  refuses ->
  GenerateMemoryUpdate (Some (openai_host (J := J) config)) prompt x = (x1, Val r) ->
  mmr_httpStatus r = 200 /\ mmr_errorCode r = "" /\ accepted r = true /\
  (exists body chunks out, OpenAIModel.Invoke (J := J) config (fun _ => false) body x = (x1, chunks, Val out) /\
     mr_finishReason out = "error" /\ mr_content out = mmr_text r) /\
  adapter (GenerateMemoryUpdate (Some (openai_host (J := J) config))) prompt x =
    (x1, Val (AgentMemory.mkInvokeResult (mmr_text r) 200 "" "" "")).
Proof.
  intros Hr E. unfold adapter. rewrite E. unfold GenerateMemoryUpdate, openai_host in E. cbn [hm_Format hm_Invoke] in E.
  destruct (OpenAIModel.Format _ _ _ _) as [body|]; [|done].
  destruct (OpenAIModel.Invoke _ _ body x) as [[x0 chunks] [out| |]] eqn:Ei; [|done|done]. injection E as <- <-.
  assert (failure out) as [Hf Hc].
  { refine (attempts_end _ failure _ _ _ _ _ _ _ _ _ Ei); [|done]. intros b y. by apply once_failure. }
  apply str_empty_false in Hc. unfold update_result, accepted. cbn. rewrite Hc. split_and!; try done. by eexists _, _, _.
Qed.
End Outage.

(** ** Examples *)

#[local] Instance ex_json3 : Json JsonTree.json := JsonTree.instance [].

(** A provider that answers every request with status 500. *)
#[local] Instance ex_down : Curl nat := {|
  curl_handle := fun _ => true;
  curl_easy_perform := fun _ x => (S x, [], CURLE_OK, 500);
  curl_easy_strerror := fun _ => "";
  curl_easy_escape := fun s => s;
  curl_easy_unescape := Some;
  curl_elapse := fun x => x;
  random_upto := fun _ x => (x, 0);
  sleep_ms := fun _ x => x;
  logs_info := fun _ => false
|}.

(** After three requests. *)
Lemma outage_looks_like_update_witness :
  adapter (GenerateMemoryUpdate (Some (openai_host (J := JsonTree.json) default_ModelConfig))) "Update." 0%nat =
    (3%nat, Val (AgentMemory.mkInvokeResult "Error: HTTP 500" 200 "" "" "")).
Proof.
  refine (proj2 (proj2 (proj2 (proj2 (outage_looks_like_update (J := JsonTree.json) default_ModelConfig "Update." 0%nat 3%nat
    (mkModelResult "Error: HTTP 500" 200 "" "" "") _ _))))).
  - intros opts x. cbn. by right.
  - vm_compute. reflexivity.
Defined.
