(* ===== verification/McpConnection.v ===== *)
(** * MCP connections on demand (src/mcp/mcp_connection.cpp, mcp_tool.cpp, and the lookups
    of src/resource_manager/resource_manager.cpp)

    McpManager's heap of connections together with the client each owns.  The calls of a
    connection connect it when it is not, whoever disconnected it; a tool checks its
    connection before it calls, and other threads may act between the two. *)
From Stdlib Require Import ZArith Lia String Ascii List.
From stdpp Require Import base decidable list strings gmap sets.
From S2P Require Import Prelude Encoding Types JsonLib ToolBase ResourceManager McpManager Transport McpClient.
Open Scope Z_scope.

Section Connections.
Context {F SF T J : Type} `{ToolFactories F SF T J} `{Json J} {X : Type} `{Curl X}.
Variable mcp_factory : ToolInfo -> nat -> F.
Local Notation St := (McpState (F := F) (SF := SF) (J := J)).

(** [client_] of the connections. *)
Record Links := mkLinks {
  lk_mcp : St;
  lk_clients : gmap nat MCPClient
}.

(** [Connect] with what the server answers.  Without a transport for it, no client is
    made, and the connection keeps the one it has. *)
Definition link_connect (p : nat) (w : Links) (x : X) : Links * X * outcome unit :=
  match conns (lk_mcp w) !! p with
  | None => (w, x, Ok tt)
  | Some c =>
      if connected_ c then (w, x, Ok tt)
      else
        match transportType (conn_config c) with
        | STDIO => (w, x, Ok tt)
        | SSE | STREAMABLE_HTTP =>
            let '(client, x1, answer) := handshake (J := J) (conn_name c) (conn_config c) x in
            let '(st1, r) := Connect mcp_factory answer p (lk_mcp w) in
            (mkLinks st1 (<[p := client]> (lk_clients w)), x1, r)
        end
  end.

Definition link_disconnect (p : nat) (w : Links) : Links :=
  mkLinks (Disconnect p (lk_mcp w)) (delete p (lk_clients w)).

(** [MCPConfigManager::Remove]: the connection of a running server loses its client. *)
Definition link_remove (id : string) (w : Links) : Links :=
  mkLinks (RemoveServer id (lk_mcp w))
    (match servers_ (lk_mcp w) !! id with Some p => delete p (lk_clients w) | None => lk_clients w end).

Definition available (p : nat) (w : Links) : list (MCPToolInfo (J := J)) :=
  match conns (lk_mcp w) !! p with Some c => availableTools_ c | None => [] end.

(** Connecting first when the connection is down. *)
Definition on_demand (p : nat) (w : Links) (x : X) : Links * X * outcome unit :=
  if is_connected p (lk_mcp w) then (w, x, Ok tt) else link_connect p w x.

Definition ListTools (p : nat) (w : Links) (x : X) : Links * X * outcome (list string) :=
  let '(w1, x1, r) := on_demand p w x in
  (w1, x1, _ <-- r ;; Ok (map ti_name (available p w1))).

(** The data of the tool object it makes, if the server has the tool. *)
Definition GetTool (p : nat) (toolName : string) (w : Links) (x : X) : Links * X * outcome (option ToolInfo) :=
  let '(w1, x1, r) := on_demand p w x in
  (w1, x1, _ <-- r ;;
     Ok (if existsb (fun t => String.eqb (ti_name t) toolName) (available p w1)
         then Some (mkToolInfo toolName ("MCP Tool: " +:+ toolName)
                      [mkToolParam "input" "JSON input arguments" "string" true])
         else None)).

Definition has_link (p : nat) (w : Links) : bool := match lk_clients w !! p with Some _ => true | None => false end.

Definition CallTool (p : nat) (toolName arguments : string) (w : Links) (x : X) : Links * X * outcome MCPToolResult :=
  let needConnect := negb (has_link p w) || negb (is_connected p (lk_mcp w)) in
  let '(w1, x1, r) := if needConnect then link_connect p w x else (w, x, Ok tt) in
  match r with
  | Throw e => (w1, x1, Throw e)
  | Ok _ =>
      match lk_clients w1 !! p with
      | None => (w1, x1, Ok (mkMCPToolResult true ["MCP Client not initialized"]))
      | Some client =>
          let '(client1, x2, result) := connection_call (J := J) toolName arguments client x1 in
          (mkLinks (lk_mcp w1) (<[p := client1]> (lk_clients w1)), x2, result)
      end
  end.

(** [MCPTool::Invoke] in its two steps: the check, and what follows a check that passed. *)
Definition tool_check (p : nat) (w : Links) : bool := is_connected p (lk_mcp w).
Definition tool_call (name input : string) (p : nat) (w : Links) (x : X) : Links * X * outcome string :=
  let '(w1, x1, r) := CallTool p name input w x in
  (w1, x1, result <-- r ;; Ok (tool_output result)).
Definition tool_invoke (name input : string) (p : nat) (w : Links) (x : X) : Links * X * outcome string :=
  if tool_check p w then tool_call name input p w x
  else (w, x, Ok "Error: MCP Server not connected or invalid").

(** The registry's lookups of servers. *)
Definition GetMCPServer (name : string) (st : St) : option nat := mcpServers_ st !! name.
Definition HasMCPServer (name : string) (st : St) : bool :=
  match mcpServers_ st !! name with Some _ => true | None => false end.
Definition GetAvailableMCPServers (st : St) : list string := map fst (map_to_list (mcpServers_ st)).
Definition RemoveMCPServerRecord (id : string) (st : St) : St := set_mcpServers (delete id (mcpServers_ st)) st.

(** A connected connection has a client. *)
Definition linked (w : Links) : Prop := forall p, is_connected p (lk_mcp w) = true -> has_link p w = true.
End Connections.

(** ** Facts *)

Section ConnectionFacts.
Context {F SF T J : Type} `{ToolFactories F SF T J} `{JsonLaws J} {X : Type} `{Curl X}.
Variable mcp_factory : ToolInfo -> nat -> F.
Local Notation St := (McpState (F := F) (SF := SF) (J := J)).
Local Notation Links := (Links (F := F) (SF := SF) (J := J)).

(** While the connection is up, a tool is the client's call, and the registry is left
    alone. *)
Lemma connected_tool_invoke name input p (w : Links) (x : X) client :
  tool_check p w = true -> lk_clients w !! p = Some client ->
  exists client1 x1 r, MCPTool_Invoke (J := J) name input (Some client) x = (Some client1, x1, r) /\
    tool_invoke mcp_factory name input p w x = (mkLinks (lk_mcp w) (<[p := client1]> (lk_clients w)), x1, r).
Proof.
  intros Hc Hp. unfold tool_invoke, tool_call, CallTool, MCPTool_Invoke, has_link, tool_check in *. rewrite Hc, Hp. cbn.
  rewrite Hp. destruct (connection_call name input client x) as [[c1 x1] r]. by eexists _, _, _.
Qed.

Lemma Disconnect_conn p (st : St) conn :
  conns st !! p = Some conn ->
  conns (Disconnect p st) !! p = Some (mkMCPConnection (conn_name conn) (conn_config conn) false [] false).
Proof.
  intros Hp. unfold Disconnect. rewrite Hp. cbn. apply list_lookup_insert_eq. by eapply lookup_lt_Some.
Qed.

Lemma RemoveServer_conn id p (st : St) conn :
  servers_ st !! id = Some p -> conns st !! p = Some conn ->
  conns (RemoveServer id st) !! p = Some (mkMCPConnection (conn_name conn) (conn_config conn) false [] false) /\
  servers_ (RemoveServer id st) = delete id (servers_ st).
Proof.
  intros Hs Hp. unfold RemoveServer. cbn. destruct (StopServerLocked_frame id st) as [-> _].
  split; [|done]. unfold StopServerLocked. rewrite Hs. cbn. by apply Disconnect_conn.
Qed.

(** C36.  A removed server comes back.  A tool that has passed its check when another
    thread removes its server connects again when it calls: the tools the server lists are
    registered once more, although no server of that name is running or reported active,
    and removing it again does not take them out. *)
Theorem removed_server_comes_back (id name input : string) (p : nat) (w : Links) (conn : MCPConnection (J := J))
    (ts : list (MCPToolInfo (J := J))) (x x3 : X) :
  servers_ (lk_mcp w) !! id = Some p -> conns (lk_mcp w) !! p = Some conn ->
  transportType (conn_config conn) <> STDIO -> ep_url (conn_config conn) <> "" ->
  serves (conn_name conn) (conn_config conn) ts x x3 -> Forall (fun t => is_ok (mcp_tool_info t) = true) ts ->
  tool_check p w = true ->
  exists w2 x2 r, tool_call mcp_factory name input p (link_remove id w) x = (w2, x2, r) /\
    tool_check p w2 = true /\ servers_ (lk_mcp w2) !! id = None /\ id ∉ ActiveIds (lk_mcp w2) /\
    (forall t, t ∈ ts -> HasTool (ti_name t) (tools (lk_mcp w2)) = true) /\
    tools (RemoveServer id (lk_mcp w2)) = tools (lk_mcp w2).
Proof.
  intros Hs Hp Htr Hu Hserv Hts Hc.
  destruct (RemoveServer_conn id p (lk_mcp w) conn Hs Hp) as [Hp1 Hs1].
  set (w1 := link_remove id w). change (RemoveServer id (lk_mcp w)) with (lk_mcp w1) in Hp1, Hs1.
  destruct (connect_offers_tools mcp_factory (conn_name conn) (conn_config conn) ts x x3 p _ (lk_mcp w1) Hu Hserv Hts Hp1
    eq_refl eq_refl Htr) as (client & answer & st1 & conn1 & Eh & Ec & Hi & Hn & Hp2 & Hc2 & Ha & Htools).
  pose proof (Connect_frame mcp_factory answer p (lk_mcp w1)) as [Hs2 _]. rewrite Ec in Hs2. cbn [fst] in Hs2.
  assert (link_connect mcp_factory p w1 x = (mkLinks st1 (<[p := client]> (lk_clients w1)), x3, Ok tt)) as El.
  { unfold link_connect. rewrite Hp1. cbn [connected_ conn_name conn_config].
    destruct (transportType (conn_config conn)) eqn:Et; [done|..]; by rewrite Eh, Ec. }
  unfold tool_call, CallTool.
  assert (is_connected p (lk_mcp w1) = false) as -> by (unfold is_connected; by rewrite Hp1).
  rewrite orb_true_r. rewrite El. cbn [lk_clients]. rewrite lookup_insert, decide_True by done.
  destruct (connection_call name input client x3) as [[client1 x2] r]. eexists _, _, _. split; [reflexivity|].
  unfold tool_check, is_connected. cbn [lk_mcp]. rewrite Hp2.
  assert (servers_ st1 !! id = None) as Hnone by (rewrite Hs2, Hs1; apply lookup_delete_eq).
  split_and!; [done | done | | | ].
  - unfold ActiveIds. intros Hin. apply list_elem_of_In, in_map_iff in Hin as ([id' q] & Heq & Hin).
    apply filter_In in Hin as [Hin _]. cbn in Heq. subst id'. apply list_elem_of_In, elem_of_map_to_list in Hin. congruence.
  - intros t Ht. apply Htools. left. apply list_elem_of_In, in_map, list_elem_of_In, Ht.
  - unfold RemoveServer. by rewrite (StopServerLocked_idle id st1 Hnone).
Qed.
End ConnectionFacts.

(** ** Examples *)

#[local] Instance ex_json4 : Json JsonTree.json := JsonTree.instance [].
#[local] Instance ex_laws4 : JsonLaws JsonTree.json := JsonTree.laws [] ltac:(by intros ? ?%elem_of_nil).
#[local] Existing Instance McpClient.ex_curl.

(** The server "s" runs; its tool "find" is registered. *)
Definition ex_running : Links (F := ToolInfo) (SF := ToolInfo) (J := JsonTree.json) :=
  mkLinks
    (mkMcpState (RegisterMcpTool "find" (mkToolInfo "find" "Finds" []) empty_tools)
       [mkMCPConnection "s" ex_config true ex_tools true] {["s" := 0%nat]} {["s" := 0%nat]} ∅)
    {[0%nat := ex_client]}.

Lemma removed_server_comes_back_witness :
  HasTool "find" (tools (lk_mcp (link_remove "s" ex_running))) = false /\
  exists w2 x2, tool_call (fun i _ => i) "find" "{}" 0 (link_remove "s" ex_running) 0%nat =
      (w2, x2, Ok "MCP Tool Error: no match") /\
    HasTool "find" (tools (lk_mcp w2)) = true /\ "s" ∉ ActiveIds (lk_mcp w2).
Proof.
  split; [vm_compute; reflexivity|].
  destruct (removed_server_comes_back (fun i _ => i) "s" "find" "{}" 0 ex_running
    (mkMCPConnection "s" ex_config true ex_tools true) ex_tools 0%nat 3%nat) as (w2 & x2 & r & E & _ & _ & Ha & Ht & _).
  - vm_compute. reflexivity.
  - reflexivity.
  - discriminate.
  - discriminate.
  - eexists _, _, _, _, _, _, _, _, _.
    split_and!; [reflexivity | reflexivity | reflexivity | apply ex_perform | by apply ex_delivers | reflexivity
      | apply ex_perform | apply ex_perform | by apply ex_delivers].
  - by apply Forall_singleton.
  - reflexivity.
  - exists w2, x2. split; [|split; [apply (Ht (mkMCPToolInfo "find" "Finds" (j_object ∅))); by left | exact Ha]].
    rewrite E. vm_compute in E. injection E as _ _ <-. reflexivity.
Defined.
