(* ===== verification/Clock.v ===== *)
(** * Clocks (src/utils/time_utils.cpp, src/tools/builtin_tools/time_info_tool.cpp)

    How the current time is written for messages, prompts, the history and the model: the
    conversions of [strftime] the formats use, over the calendar of Calendar.v.  The time
    zone is the parameter [localtime]. *)
From Stdlib Require Import ZArith Lia String Ascii List.
From stdpp Require Import base decidable list strings pretty.
From S2P Require Import Prelude Numbers Types EntityDecay Calendar ToolBase ToolCatalog.
Open Scope Z_scope.

(** [%m] and the others of two digits. *)
Definition two (n : Z) : string := if n <? 10 then "0" +:+ to_string n else to_string n.

Definition weekday (n : Z) : string :=
  nth (Z.to_nat n) ["Sunday"; "Monday"; "Tuesday"; "Wednesday"; "Thursday"; "Friday"; "Saturday"] "?".

(** [%Y-%m-%d] and [%H:%M:%S]; no format is used for a year before 1000. *)
Definition date_text (t : TM) : string := to_string (t_year t + 1900) +:+ "-" +:+ two (t_mon t + 1) +:+ "-" +:+ two (t_mday t).
Definition clock_text (t : TM) : string := two (t_hour t) +:+ ":" +:+ two (t_min t) +:+ ":" +:+ two (t_sec t).

Definition NowUtcIso8601 (now : Z) : string :=
  date_text (gmtime now) +:+ "T" +:+ clock_text (gmtime now) +:+ "Z".

Section Local.
Variable localtime : Z -> TM.

Definition NowLocalHumanReadable (now : Z) : string := date_text (localtime now) +:+ " " +:+ clock_text (localtime now).
Definition NowLocalDateWithWeekday (now : Z) : string :=
  date_text (localtime now) +:+ " (" +:+ weekday (t_wday (localtime now)) +:+ ")".

(** [TimeInfoTool::Invoke]; the input is ignored. *)
Definition TimeInfo_Invoke (input : string) (now : Z) : string :=
  date_text (localtime now) +:+ " " +:+ clock_text (localtime now) +:+ " (Local Time)".
End Local.

(** ** Written times are read back *)

Definition all_digits (s : string) : Prop := forall c, occurs c s = true -> is_Some (digit_of c).

Lemma read_digits (a rest : string) :
  all_digits a -> a <> "" -> (digits 0 a < 2 ^ 31)%N -> no_digit rest ->
  read_int (a +:+ rest) = Some (Z.of_N (digits 0 a), rest).
Proof.
  intros Ha Hne Hlt Hrest. destruct a as [|c t]; [done|].
  destruct (Ha c) as [d Hd]; [cbn; by rewrite Ascii.eqb_refl|].
  destruct (digit_char c d Hd) as (Hs & Hm & Hp & _).
  unfold read_int, scan_number. change (String c t +:+ rest) with (String c (t +:+ rest)). cbn [skip_space].
  rewrite Hs, Hm, Hp. cbn iota beta. rewrite Hd. change (String c (t +:+ rest)) with (String c t +:+ rest).
  rewrite digits_app, after_digits_app by done.
  destruct (Z.leb_spec (- 2 ^ 31) (Z.of_N (digits 0 (String c t)))), (Z.ltb_spec (Z.of_N (digits 0 (String c t))) (2 ^ 31));
    try lia; done.
Qed.

(** Finitely many two-digit numbers. *)
Definition two_ok (n : Z) : bool :=
  forallb (fun c => match digit_of c with Some _ => true | None => false end) (list_ascii_of_string (two n))
  && (digits 0 (two n) =? Z.to_N n)%N && Nat.eqb (String.length (two n)) 2.

Lemma two_all_ok : forallb two_ok (seqZ 0 100) = true.
Proof. vm_compute. reflexivity. Qed.

Lemma two_facts n : 0 <= n < 100 ->
  all_digits (two n) /\ digits 0 (two n) = Z.to_N n /\ String.length (two n) = 2%nat.
Proof.
  intros Hn. pose proof two_all_ok as Hall. rewrite forallb_forall in Hall.
  specialize (Hall n). rewrite <- list_elem_of_In, elem_of_seqZ in Hall. specialize (Hall ltac:(lia)).
  unfold two_ok in Hall. apply andb_true_iff in Hall as [[Hd Hv%N.eqb_eq]%andb_true_iff Hl%Nat.eqb_eq].
  split; [|done]. intros c Hc. rewrite forallb_forall in Hd. specialize (Hd c).
  assert (In c (list_ascii_of_string (two n))) as Hin.
  { clear -Hc. induction (two n) as [|d s IH]; [done|]. cbn [occurs] in Hc. apply orb_true_iff in Hc as [Hc|Hc].
    - left. by apply Ascii.eqb_eq in Hc.
    - right. by apply IH. }
  specialize (Hd Hin). by destruct (digit_of c).
Qed.

Lemma read_two n rest : 0 <= n < 100 -> no_digit rest -> read_int (two n +:+ rest) = Some (n, rest).
Proof.
  intros Hn Hr. destruct (two_facts n Hn) as (Hd & Hv & Hl).
  rewrite read_digits, Hv by (done || (intros E; rewrite E in Hl; done) || (rewrite Hv; lia)).
  by rewrite Z2N.id by lia.
Qed.

(** A broken-down time of the years strftime writes with four digits. *)
Definition printable (t : TM) : Prop :=
  -900 <= t_year t < 8100 /\ 0 <= t_mon t <= 11 /\ 1 <= t_mday t <= 31 /\ 0 <= t_hour t <= 23 /\ 0 <= t_min t <= 59 /\
  0 <= t_sec t <= 60.

Lemma two_length n : 0 <= n < 100 -> String.length (two n) = 2%nat.
Proof. intros Hn. by destruct (two_facts n Hn) as (_ & _ & ?). Qed.

Lemma read_date_time (t : TM) (rest : string) : printable t ->
  read_int (date_text t +:+ rest) = Some (t_year t + 1900, "-" +:+ two (t_mon t + 1) +:+ "-" +:+ two (t_mday t) +:+ rest).
Proof.
  intros (Hy & _). unfold date_text. rewrite !str_app_assoc. unfold read_int. apply scan_number_to_string; [lia|done].
Qed.

(** The stream after the date. *)
Lemma read_date (t : TM) (rest : string) : printable t -> no_digit rest ->
  read_tm (date_text t +:+ rest) =
  ('(hour, s) ← read_int rest; s ← read_char s; '(min, s) ← read_int s; s ← read_char s; '(sec, _) ← read_int s;
   Some (mkTm (t_year t) (t_mon t) (t_mday t) hour min sec)).
Proof.
  intros Hp Hr. pose proof Hp as (Hy & Hm & Hd & _). unfold read_tm. rewrite read_date_time by done. cbn [mbind option_bind].
  change (read_char ("-" +:+ two (t_mon t + 1) +:+ "-" +:+ two (t_mday t) +:+ rest))
    with (Some (two (t_mon t + 1) +:+ "-" +:+ two (t_mday t) +:+ rest)). cbn [mbind option_bind].
  rewrite read_two by (lia || done). cbn [mbind option_bind].
  change (read_char ("-" +:+ two (t_mday t) +:+ rest)) with (Some (two (t_mday t) +:+ rest)). cbn [mbind option_bind].
  rewrite read_two by (lia || done). cbn [mbind option_bind].
  replace (t_year t + 1900 - 1900) with (t_year t) by lia. replace (t_mon t + 1 - 1) with (t_mon t) by lia. done.
Qed.

Lemma years_length : forallb (fun y => Nat.eqb (String.length (to_string y)) 4) (seqZ 1000 9000) = true.
Proof. vm_compute. reflexivity. Qed.

Lemma date_text_length (t : TM) : printable t -> String.length (date_text t) = 10%nat.
Proof.
  intros (Hy & Hm & Hd & _). unfold date_text. rewrite !str_length_app, !two_length by lia.
  pose proof years_length as Hall. rewrite forallb_forall in Hall.
  specialize (Hall (t_year t + 1900)). rewrite <- list_elem_of_In, elem_of_seqZ in Hall.
  apply Nat.eqb_eq in Hall as ->; [done | lia].
Qed.

Lemma clock_text_length (t : TM) : printable t -> String.length (clock_text t) = 8%nat.
Proof. intros (_ & _ & _ & Hh & Hmi & Hs). unfold clock_text. by rewrite !str_length_app, !two_length by lia. Qed.

Lemma read_clock (t : TM) (rest : string) : printable t -> no_digit rest ->
  ('(hour, s) ← read_int (" " +:+ clock_text t +:+ rest); s ← read_char s; '(min, s) ← read_int s; s ← read_char s;
   '(sec, _) ← read_int s; Some (mkTm (t_year t) (t_mon t) (t_mday t) hour min sec)) =
  Some (mkTm (t_year t) (t_mon t) (t_mday t) (t_hour t) (t_min t) (t_sec t)).
Proof.
  intros (_ & _ & _ & Hh & Hmi & Hs) Hr. unfold clock_text. rewrite !str_app_assoc.
  change (read_int (" " +:+ two (t_hour t) +:+ ":" +:+ two (t_min t) +:+ ":" +:+ two (t_sec t) +:+ rest))
    with (read_int (two (t_hour t) +:+ ":" +:+ two (t_min t) +:+ ":" +:+ two (t_sec t) +:+ rest)).
  rewrite read_two by (lia || done). cbn [mbind option_bind].
  change (read_char (":" +:+ two (t_min t) +:+ ":" +:+ two (t_sec t) +:+ rest)) with (Some (two (t_min t) +:+ ":" +:+ two (t_sec t) +:+ rest)).
  cbn [mbind option_bind]. rewrite read_two by (lia || done). cbn [mbind option_bind].
  change (read_char (":" +:+ two (t_sec t) +:+ rest)) with (Some (two (t_sec t) +:+ rest)). cbn [mbind option_bind].
  by rewrite read_two by (lia || done).
Qed.

(** What the clocks write is read back, or not at all.  The parser of the expiry of
    memory entities takes the local time as prompts write it, and as the time tool writes
    it, for exactly the instant [mktime] gives those fields; the UTC time as messages, the
    history and the consolidator's prompt carry it, it takes for no date, whatever the
    instant. *)
Theorem clock_texts_read (mktime : tm -> Z) (localtime : Z -> TM) (input : string) (now : Z) :
  let t := localtime now in
  printable t -> printable (gmtime now) ->
  let at_fields := mktime (mkTm (t_year t) (t_mon t) (t_mday t) (t_hour t) (t_min t) (t_sec t)) in
  ParseSqliteTimestamp mktime (NowLocalHumanReadable localtime now) = at_fields /\
  ParseSqliteTimestamp mktime (TimeInfo_Invoke localtime input now) = at_fields /\
  ParseSqliteTimestamp mktime (NowUtcIso8601 now) = 0.
Proof.
  cbn zeta. intros Hp Hg. unfold ParseSqliteTimestamp, NowLocalHumanReadable, TimeInfo_Invoke, NowUtcIso8601.
  rewrite !str_length_app, !date_text_length, !clock_text_length by done. cbn [String.length Nat.ltb Nat.leb Nat.add].
  split_and!.
  - rewrite <- (str_app_nil_r (clock_text (localtime now))). rewrite read_date by done. by rewrite read_clock.
  - rewrite read_date by done. by rewrite read_clock.
  - by rewrite read_date by done.
Qed.

(** ** Example *)

Example ex_time_tool : TimeInfo_Invoke gmtime "" 1735693323 = "2025-01-01 01:02:03 (Local Time)".
Proof. vm_compute. reflexivity. Qed.
Example ex_weekday : NowLocalDateWithWeekday gmtime 1735693323 = "2025-01-01 (Wednesday)".
Proof. vm_compute. reflexivity. Qed.

Lemma clock_texts_read_witness :
  NowUtcIso8601 1735693323 = "2025-01-01T01:02:03Z" /\
  ParseSqliteTimestamp (fun t => tm_hour t * 3600 + tm_min t * 60 + tm_sec t) (NowLocalHumanReadable gmtime 1735693323) = 3723 /\
  ParseSqliteTimestamp (fun t => tm_hour t * 3600 + tm_min t * 60 + tm_sec t) "2025-01-01T01:02:03Z" = 0.
Proof.
  assert (printable (gmtime 1735693323)) as Hp by (vm_compute; repeat split; discriminate).
  destruct (clock_texts_read (fun t => tm_hour t * 3600 + tm_min t * 60 + tm_sec t) gmtime "" 1735693323 Hp Hp)
    as (Hl & _ & Hu).
  split; [vm_compute; reflexivity|]. split; [exact Hl | exact Hu].
Defined.
