(* ===== verification/SessionAccess.v ===== *)
(** * What reaches a session (src/session/session_manager.cpp: SmWorkerEnv, the accessors,
    InvokeChannel, Shutdown)

    A call that runs a turn caches its entry in a thread-local, which the tools of the turn
    are resolved through; everything else looks the session up by its id.  An entry's
    context engine, todo list and dispatcher are named by the entry's pointer.  [Shutdown]
    is the stop of the agents the manager still knows. *)
From Stdlib Require Import ZArith Lia String Ascii List.
From stdpp Require Import base decidable list strings gmap sets.
From S2P Require Import Prelude Types SkillEngine TurnState AgentWorker Agent SessionManager.
Open Scope Z_scope.

(** ** The environment of a worker *)

(** [tlCurrentEntry_] of the thread of a call: set once the entry is found, cleared before
    the slot is given back. *)
Definition tlCurrentEntry (c : Call) : option nat :=
  match c with
  | Found _ e _ | Locked _ e _ | Working _ e _ | Returned _ e _ _ => Some e
  | _ => None
  end.
Definition current (i : nat) (m : Manager) : option nat := calls m !! i ≫= tlCurrentEntry.

(** [SessionManager::GetContextEngine], by the session's name. *)
Definition GetContextEngine (sessionId : string) (m : Manager) : option nat := sessions_ m !! sessionId.

(** [SmWorkerEnv::GetContextEngine], and the lookups of the todo list and the dispatcher,
    on the thread of call [i]. *)
Definition env_entry (i : nat) (sessionId : string) (m : Manager) : option nat :=
  match current i m with Some e => Some e | None => GetContextEngine sessionId m end.

(** [GetCurrentTurnState]: the proxy of the entry is made on first use. *)
Definition GetCurrentTurnState (i : nat) (m : Manager) (proxies : gmap nat TurnState) : gmap nat TurnState * option nat :=
  match current i m with
  | None => (proxies, None)
  | Some e => (match proxies !! e with Some _ => proxies | None => <[e := initial_turn]> proxies end, Some e)
  end.

(** [GetSessionMessages]; [all] is [GetAllMessages] of an entry's engine. *)
Definition GetSessionMessages (all : nat -> list Message) (sessionId : string) (m : Manager) : list Message :=
  match sessions_ m !! sessionId with Some e => all e | None => [] end.

(** ** Channels *)

Record ChannelMessage := mkChannelMessage {
  cm_channel : string;
  cm_chatId : string;
  cm_senderId : string;
  cm_sessionId : string;
  cm_content : string;
  cm_metadata : gmap string string
}.

Definition channel_session (msg : ChannelMessage) : string :=
  if str_empty (cm_sessionId msg) then MakeSessionKey (cm_channel msg) (cm_chatId msg) else cm_sessionId msg.

(** [InvokeChannel] begins the call that [Invoke] of the session begins. *)
Definition InvokeChannel (msg : ChannelMessage) : action := ANewInvoke (channel_session msg).

(** ** What an agent forwards *)

(** The worker's tools, when the agent has a worker, and its skill engine, when it has a
    skill directory. *)
Record AgentParts := mkAgentParts {
  worker_ : option WorkerTools;
  skillEngine_ : option SkillEngine
}.

Definition AgentAddTools (registered : string -> bool) (names : list string) (a : AgentParts) : AgentParts :=
  mkAgentParts (AddTools registered names <$> worker_ a) (skillEngine_ a).
Definition AgentSyncMcpTools (currentSet : list string) (a : AgentParts) : AgentParts * nat :=
  match worker_ a with
  | Some w => let '(w1, n) := SyncMcpTools currentSet w in (mkAgentParts (Some w1) (skillEngine_ a), n)
  | None => (a, 0%nat)
  end.
Definition GetRegisteredTools (a : AgentParts) : list string := match worker_ a with Some w => toolNames_ w | None => [] end.
Definition ListSkills (a : AgentParts) : list Skill := match skillEngine_ a with Some e => GetAllSkills e | None => [] end.
Definition AgentGetSkill (id : string) (a : AgentParts) : Skill :=
  match skillEngine_ a with Some e => GetSkill id e | None => empty_skill end.
Definition GetSkillRootDir (a : AgentParts) : string := match skillEngine_ a with Some e => rootDir_ e | None => "" end.

(** ** Shutdown *)

(** The active agent and those the sessions are bound to. *)
Definition known_agents (m : Manager) : list nat :=
  (if (agent_ m <? length (agents m))%nat then [agent_ m] else [])
  ++ omap (fun kv => en_agent <$> entries m !! kv.2) (map_to_list (sessions_ m)).

(** Sorting by address and erasing equal neighbours leaves each pointer once. *)
Definition deduplicated (l : list nat) : list nat := elements (list_to_set (C := gset nat) l).

Definition Shutdown (m : Manager) : Manager :=
  fold_left (fun m a => on_agent a Agent.Shutdown m) (deduplicated (known_agents m)) m.

(** ** A turn stays with its session *)

Lemma names_move i c' m m' :
  names_ok m -> ids m' = ids m -> sessions_ m' = sessions_ m -> calls m' = <[i := c']> (calls m) ->
  (forall sid e, call_entry c' = Some (sid, e) -> ids m !! e = Some sid) -> names_ok m'.
Proof.
  intros [Hs Hc] Hi Hse Hcs Hn. split; rewrite Hi, ?Hse; [done|].
  intros j c sid e Hj Hce. rewrite Hcs in Hj.
  apply list_lookup_insert_Some in Hj as [(_ & <- & _)|[_ Hj]]; eauto.
Qed.

Lemma FindOrCreateEntry_names sid m :
  names_ok m ->
  names_ok (FindOrCreateEntry sid m).1 /\ ids (FindOrCreateEntry sid m).1 !! (FindOrCreateEntry sid m).2 = Some sid.
Proof.
  intros [Hs Hc]. unfold FindOrCreateEntry.
  destruct (sessions_ m !! sid) as [e|] eqn:E; [split; [done | by apply Hs]|].
  unfold names_ok, ids. cbn. rewrite map_app. cbn. change (map en_sessionId (entries m)) with (ids m).
  assert (length (entries m) = length (ids m)) as -> by (unfold ids; by rewrite length_map).
  split; [|by rewrite lookup_app_r, Nat.sub_diag by lia]. split.
  - intros s e Hse. destruct (decide (s = sid)) as [->|Hne].
    + rewrite lookup_insert, decide_True in Hse by done. injection Hse as <-. apply lookup_snoc.
    + rewrite lookup_insert_ne in Hse by done. apply lookup_app_l_Some. eauto.
  - intros i c s e Hi Hce. apply lookup_app_l_Some. eauto.
Qed.

Lemma bind_entry_names sid m m1 e a :
  bind_entry sid m = Some (m1, e, a) -> names_ok m -> names_ok m1 /\ ids m1 !! e = Some sid.
Proof.
  unfold bind_entry. intros E Hm. apply (FindOrCreateEntry_names sid) in Hm.
  destruct (FindOrCreateEntry sid m) as [m0 e0]. destruct (entries m0 !! e0) as [en|]; [|done].
  injection E as <- <- <-. destruct (is_draining _ _); [|done].
  assert (ids (on_entry e0 (set_agent_of (agent_ m0)) m0) = ids m0) as Hi by (by apply ids_alter).
  destruct Hm as [Hm Hid]. unfold names_ok. by rewrite Hi.
Qed.

Lemma step_names i m m' : step i m = Some m' \/ step_throws i m = Some m' -> names_ok m -> names_ok m'.
Proof.
  intros E Hm. pose proof Hm as [Hs Hc].
  assert (exists c, calls m !! i = Some c) as [c Ei].
  { destruct E as [E|E]; unfold step, step_throws in E; destruct (calls m !! i); eauto; done. }
  pose proof (fun sid e => Hc i c sid e Ei) as Hce.
  destruct E as [E|E]; [unfold step in E|unfold step_throws in E]; rewrite Ei in E; step_cases c E.
  all: try (injection E as <-; eapply names_move; try done; try (by apply ids_alter); done).
  - destruct (_ && _) in E; injection E as <-; by eapply names_move.
  - destruct (_ <? _) in E; [|done]. injection E as <-. by eapply names_move.
  - destruct (bind_entry sid m) as [[[m1 e] a]|] eqn:Eb; [|done]. injection E as <-.
    destruct (bind_entry_names _ _ _ _ _ Eb Hm) as [Hm1 Hid].
    eapply (names_move i (Found sid e a) m1); try done. by intros ? ? [= <- <-].
  - destruct (entries m !! e) as [en|]; [|done]. cbn in E. destruct (invokeMutex en); [done|].
    injection E as <-. eapply names_move; try done. by apply ids_alter.
  - destruct (_ || _) in E; injection E as <-; by eapply names_move.
  - injection E as <-. split; cbn.
    + intros s e Hse. apply lookup_delete_Some in Hse as [_ Hse]. by apply Hs.
    + intros j c' s e Hj Hce'. apply list_lookup_insert_Some in Hj as [(_ & <- & _)|[_ Hj]]; [done|].
      by apply (Hc j c').
  - injection E as <-. destruct (match _ with Some _ => _ | None => _ end); by eapply names_move.
  - destruct (sessions_ m !! sid); [done|]. injection E as <-. by eapply names_move.
Qed.

Lemma exec_names act m m' : exec act m = Some m' -> names_ok m -> names_ok m'.
Proof.
  intros E Hm. destruct (exec_cases _ _ _ E) as [[i Hi]|Ho]; [by eapply step_names|].
  destruct act as [sid|sid|i|i|cfg b|sid|sid|]; cbn [exec] in E; try (by destruct (Ho i)); injection E as <-.
  - destruct Hm as [Hs Hc]. split; [done|]. intros j c s e Hj Hce.
    apply lookup_app_Some in Hj as [Hj|[_ Hj]]; [by eapply Hc|].
    apply list_lookup_singleton_Some in Hj as [_ <-]. by destruct (initialized_ m).
  - destruct Hm as [Hs Hc]. split; [done|]. intros j c s e Hj Hce.
    apply lookup_app_Some in Hj as [Hj|[_ Hj]]; [by eapply Hc|].
    by apply list_lookup_singleton_Some in Hj as [_ <-].
  - unfold ReloadAgent. by destruct (initialized_ m), b.
  - by apply FindOrCreateEntry_names.
  - unfold RegisterReservedSession. by destruct (str_empty sid).
  - done.
Qed.

(** What other threads do. *)
Definition of_others (i : nat) (act : action) : bool :=
  match act with AStep j | AThrow j => negb (Nat.eqb i j) | _ => true end.

Lemma others_keep_call i act m m' c :
  of_others i act = true -> exec act m = Some m' -> calls m !! i = Some c -> calls m' !! i = Some c.
Proof.
  intros Ha E Hi.
  assert (forall j, i <> j -> step j m = Some m' \/ step_throws j m = Some m' -> calls m' !! i = Some c) as Hstep.
  { intros j Hne Hj. apply step_slots in Hj as (? & c' & _ & -> & _). by rewrite list_lookup_insert_ne. }
  destruct act as [sid|sid|j|j|cfg b|sid|sid|] eqn:Eact;
    try (apply (Hstep j); [intros ->; cbn in Ha; by rewrite Nat.eqb_refl in Ha | cbn in E; tauto]);
    (destruct (exec_other act m m') as (_ & _ & [->|(d & _ & ->)]); subst act; [done | done | done | by apply lookup_app_l_Some]).
Qed.

Lemma tlCurrentEntry_call c e : tlCurrentEntry c = Some e -> exists sid, call_entry c = Some (sid, e).
Proof. destruct c; try done; intros [= ->]; by eexists. Qed.

(** C35.  A turn stays with its session.  Once a call has found the entry of its session,
    and until it clears it, whatever other calls do - removals of that very session, its
    creation again, reloads - every tool of the turn is given that entry, whose name is the
    session's: its engine, its todo list, its dispatcher and its turn state; other threads
    are given what the name is mapped to. *)
Theorem turn_stays_with_session absolute dirs creatable (config : AgentConfig) (m m' : Manager) (i e : nat) (c : Call) :
  steps (fun _ => true) (Initialize absolute dirs creatable config manager_new) m ->
  calls m !! i = Some c -> tlCurrentEntry c = Some e -> steps (of_others i) m m' ->
  exists sid, call_entry c = Some (sid, e) /\ calls m' !! i = Some c /\ ids m' !! e = Some sid /\
    (forall sid', env_entry i sid' m' = Some e) /\
    (forall proxies, exists ts, (GetCurrentTurnState i m' proxies).2 = Some e /\
       (GetCurrentTurnState i m' proxies).1 !! e = Some ts) /\
    (forall j sid', current j m' = None -> env_entry j sid' m' = sessions_ m' !! sid').
Proof.
  intros Hr Hi He Hs.
  assert (names_ok m) as Hm.
  { refine (reach_invariant _ names_ok _ _ _ m Hr); [apply Initialize_sessions|].
    intros m1 m2 Hm (act & _ & E). by eapply exec_names. }
  assert (names_ok m' /\ calls m' !! i = Some c) as [[_ Hn] Hi'].
  { refine (reach_invariant _ (fun m => names_ok m /\ calls m !! i = Some c) _ _ _ m' Hs); [done|].
    intros m1 m2 [Hm1 Hc1] (act & Ha & E). split; [by eapply exec_names | by eapply others_keep_call]. }
  destruct (tlCurrentEntry_call _ _ He) as [sid Hce]. exists sid.
  assert (current i m' = Some e) as Hcur by (unfold current; by rewrite Hi').
  split_and!; [done | done | by eapply Hn | | | ].
  - intros sid'. unfold env_entry. by rewrite Hcur.
  - intros proxies. unfold GetCurrentTurnState. rewrite Hcur. cbn.
    destruct (proxies !! e) as [ts|] eqn:E; [by exists ts|]. exists initial_turn.
    by rewrite lookup_insert, decide_True.
  - intros j sid' Hj. unfold env_entry. by rewrite Hj.
Qed.

(** ** What a shutdown reaches *)

Lemma stop_all (l : list nat) (m : Manager) :
  NoDup l ->
  let m1 := fold_left (fun m a => on_agent a Agent.Shutdown m) l m in
  (forall a ag, agents m !! a = Some ag ->
     agents m1 !! a = Some (if decide (a ∈ l) then Agent.Shutdown ag else ag)) /\
  entries m1 = entries m /\ sessions_ m1 = sessions_ m /\ calls m1 = calls m.
Proof.
  intros Hl. revert m. induction Hl as [|b l Hb _ IH]; intros m; cbn zeta; [done|]. cbn [fold_left].
  destruct (IH (on_agent b Agent.Shutdown m)) as (Ha & He & Hs & Hc). split; [|done].
  intros a ag Hag. destruct (decide (a = b)) as [->|Hne].
  - rewrite (Ha b (Agent.Shutdown ag)) by (cbn; by rewrite list_lookup_alter_eq, Hag).
    rewrite decide_False, decide_True by (done || by left). done.
  - rewrite (Ha a ag) by (cbn; by rewrite list_lookup_alter_ne).
    destruct (decide (a ∈ l)); [by rewrite decide_True by by right|].
    rewrite decide_False; [done | by intros [?|?]%elem_of_cons].
Qed.

Lemma elem_of_known a m :
  a ∈ known_agents m <->
  (a = agent_ m /\ (a < length (agents m))%nat) \/
  exists sid e en, sessions_ m !! sid = Some e /\ entries m !! e = Some en /\ en_agent en = a.
Proof.
  unfold known_agents. rewrite elem_of_app, list_elem_of_omap. split.
  - intros [Ha|([sid e] & Hs & Ha)].
    + left. destruct (Nat.ltb_spec (agent_ m) (length (agents m))); [|by apply elem_of_nil in Ha].
      by apply list_elem_of_singleton in Ha as ->.
    + right. apply elem_of_map_to_list in Hs. cbn in Ha. apply fmap_Some in Ha as (en & He & ->). by exists sid, e, en.
  - intros [[-> Hlt]|(sid & e & en & Hs & He & <-)].
    + left. destruct (Nat.ltb_spec (agent_ m) (length (agents m))); [by left | lia].
    + right. exists (sid, e). split; [by apply elem_of_map_to_list|]. cbn. by rewrite He.
Qed.

(** What a shutdown stops.  It cancels and stops, once each, exactly the active agent
    and the agents some session is bound to; every other agent runs on, in particular one
    that a call still in its turn holds after its session was removed or rebound, and no
    call is ended. *)
Theorem shutdown_stops_known (m : Manager) (a : nat) (ag : Agent) :
  agents m !! a = Some ag ->
  let m1 := Shutdown m in
  calls m1 = calls m /\
  ((a = agent_ m \/ exists sid e en, sessions_ m !! sid = Some e /\ entries m !! e = Some en /\ en_agent en = a) ->
     exists ag1, agents m1 !! a = Some ag1 /\ running_ ag1 = false /\
       cancelGeneration_ ag1 = (cancelGeneration_ ag + 100) mod 2 ^ 64) /\
  (a <> agent_ m -> (forall sid e en, sessions_ m !! sid = Some e -> entries m !! e = Some en -> en_agent en <> a) ->
     agents m1 !! a = Some ag).
Proof.
  intros Ha. cbn zeta. unfold Shutdown.
  destruct (stop_all (deduplicated (known_agents m)) m) as (Hag & _ & _ & Hc); [unfold deduplicated; apply NoDup_elements|].
  split; [done|]. rewrite (Hag a ag Ha).
  assert (a ∈ deduplicated (known_agents m) <-> a ∈ known_agents m) as Hd
    by (unfold deduplicated; by rewrite elem_of_elements, elem_of_list_to_set).
  split.
  - intros Hk. rewrite decide_True; [by eexists|]. apply Hd, elem_of_known.
    destruct Hk as [->|Hk]; [left; split; [done|]; by eapply lookup_lt_Some | by right].
  - intros Hne Hk. rewrite decide_False; [done|]. rewrite Hd, elem_of_known.
    intros [[? _]|(sid & e & en & Hs & He & Hen)]; [done | by eapply Hk].
Qed.

(** ** Examples *)

(** A turn runs on "s", "s" is removed and another call creates it again. *)
Definition ex_again : list action := whole_removal "s" 1 ++ [AGetOrCreate "s"].
Definition ex_turn_m : Manager := ex_run 2 ex_one_turn.
Definition ex_again_m : Manager := default manager_new (exec_all ex_again ex_turn_m).

Lemma turn_stays_with_session_witness :
  env_entry 0 "s" ex_again_m = Some 1%nat /\ GetContextEngine "s" ex_again_m = Some 2%nat /\
  ids ex_again_m !! 1%nat = Some "s".
Proof.
  destruct (turn_stays_with_session (fun p => p) [] (fun _ => true) (ex_config 2) ex_turn_m ex_again_m 0 1
    (Working "s" 1 0)) as (sid & Hs & _ & Hi & He & _).
  - apply (exec_all_steps _ ex_one_turn); vm_compute; reflexivity.
  - vm_compute. reflexivity.
  - reflexivity.
  - apply (exec_all_steps _ ex_again); vm_compute; reflexivity.
  - injection Hs as <-. split; [apply He|]. split; [vm_compute; reflexivity | exact Hi].
Defined.

(** The turn of "s" runs on, its session removed, the agent reloaded and the default
    session used: the agent of the turn is not stopped. *)
Definition ex_missed : Manager :=
  ex_run 2 (ex_one_turn ++ whole_removal "s" 1 ++
            [AReload (ex_config 2) true; ANewInvoke kDefaultSessionId; AStep 2; AStep 2]).

Lemma shutdown_stops_known_witness :
  exists ag, agents (Shutdown ex_missed) !! 0%nat = Some ag /\ running_ ag = true /\
    calls (Shutdown ex_missed) !! 0%nat = Some (Working "s" 1 0).
Proof.
  destruct (agents ex_missed !! 0%nat) as [ag|] eqn:E; [|vm_compute in E; discriminate].
  destruct (shutdown_stops_known ex_missed 0 ag E) as (Hc & _ & Hn). exists ag.
  split.
  - apply Hn; [vm_compute; discriminate|]. intros sid e en Hs He.
    apply elem_of_map_to_list in Hs.
    assert (Forall (fun kv => forall en, entries ex_missed !! kv.2 = Some en -> en_agent en <> 0%nat)
              (map_to_list (sessions_ ex_missed))) as Hall.
    { vm_compute. repeat constructor; intros en0 [= <-]; discriminate. }
    rewrite Forall_forall in Hall. by apply (Hall (sid, e) Hs).
  - split; [vm_compute in E; by injection E as <- | rewrite Hc; vm_compute; reflexivity].
Defined.
