(* ===== verification/Lifecycle.v ===== *)
(** * The application's life (examples/jiuwenClaw/main.cpp, main)

    Which services [main] starts and the order in which it stops them, while the other
    threads still act: requests reach the server, the watcher reloads the channels, the
    schedulers and the handlers of the server begin turns, the handlers of streamed chats
    and the bots leave turns to threads of their own, which they detach, and the calls of
    the sessions' manager advance.  A scheduler has one thread; its stop waits for the
    turn that thread is in.  Requests to other endpoints and the watcher's other files
    start and stop none of the services. *)
From Stdlib Require Import ZArith Lia String Ascii List.
From stdpp Require Import base decidable list strings gmap sets.
From S2P Require Import Prelude Types JsonLib Files AtomicFile Agent SessionManager SessionAccess Channels FeishuChannel FeishuBot ChannelService HttpChannels Cli.
Open Scope Z_scope.

(** Who begins a turn: a request, the bot of a channel, a scheduler. *)
Inductive Origin := FromHttp | FromBot (id : string) | FromCron | FromHeartbeat.

(** A step of the application: the next statement of [main]'s cleanup, a request to the
    channels, a change of the channels' file, a turn in the thread of its origin, a turn
    left to a detached thread, the start of the turn of the [k]-th of those threads, and
    a step of a call of the manager. *)
Inductive Move :=
  | Main
  | Request (rq : channel_request)
  | ChannelsChanged
  | Turn (from : Origin) (sessionId : string)
  | Accept (from : Origin) (sessionId : string)
  | Detached (k : nat)
  | Inside (i : nat) (throws : bool).

(** The statements of the cleanup. *)
Inductive Stop := StopWatcher | StopChannels | StopServer | StopCron | StopHeartbeat | ShutSessions.
#[export] Instance Stop_eq_dec : EqDecision Stop.
Proof. solve_decision. Defined.

Definition cleanup : list Stop :=
  [StopWatcher; StopChannels; StopServer; StopCron; StopHeartbeat; ShutSessions].

(** The thread of a scheduler: joined, or running, with the call of the last turn it
    began. *)
Inductive Worker := Joined | Running (last : option nat).

(** The calls that have left the manager. *)
Definition returned (i : nat) (m : Manager) : bool :=
  match calls m !! i with Some (Finished _ _) | Some (Escaped _) => true | _ => false end.
(** The thread is not inside a turn. *)
Definition between_turns (w : Worker) (m : Manager) : bool :=
  match w with Running (Some i) => returned i m | _ => true end.
Definition running (w : Worker) : bool := match w with Running _ => true | Joined => false end.

Section App.
Context {X J : Type} `{FileSystem X, FileRename X, FeishuNet X, Json J}.
Variable iter : forall V : Type, gmap string V -> list (string * V).

(** [ap_todo] is what the main thread has still to stop, [ap_detached] the turns left to
    detached threads that have not begun, [ap_begun] the calls begun. *)
Record App := mkApp {
  ap_watcher : bool;
  ap_http : option HttpServer;
  ap_hub : Hub X;
  ap_cron : Worker;
  ap_heartbeat : Worker;
  ap_sessions : Manager;
  ap_todo : list Stop;
  ap_detached : list (Origin * string);
  ap_begun : list (Origin * nat)
}.

(** What is running when the console or the wait of the daemon begins. *)
Definition boot_app (o : Options) (m : Manager) (x : X) : App * outcome unit :=
  let '(hub, r) := if enableServer o then open_hub (J := J) "./data/channels.json" x
                   else (mkHub (fresh_channels "") new_service x, Ok tt) in
  (mkApp (enableWatch o)
     (if enableServer o
      then Some (HttpStart (mkHttpServerConfig (serverHost o) (serverPort o) true "./examples/jiuwenClaw/web") (mkHttpServer false ""))
      else None)
     hub (Running None) (Running None) m cleanup [] [], r).

Definition set_hub (h : Hub X) (a : App) : App :=
  mkApp (ap_watcher a) (ap_http a) h (ap_cron a) (ap_heartbeat a) (ap_sessions a) (ap_todo a) (ap_detached a) (ap_begun a).
Definition set_sessions (m : Manager) (a : App) : App :=
  mkApp (ap_watcher a) (ap_http a) (ap_hub a) (ap_cron a) (ap_heartbeat a) m (ap_todo a) (ap_detached a) (ap_begun a).
Definition set_todo (l : list Stop) (a : App) : App :=
  mkApp (ap_watcher a) (ap_http a) (ap_hub a) (ap_cron a) (ap_heartbeat a) (ap_sessions a) l (ap_detached a) (ap_begun a).
Definition set_detached (l : list (Origin * string)) (a : App) : App :=
  mkApp (ap_watcher a) (ap_http a) (ap_hub a) (ap_cron a) (ap_heartbeat a) (ap_sessions a) (ap_todo a) l (ap_begun a).

Definition stop_watcher (a : App) : App :=
  mkApp false (ap_http a) (ap_hub a) (ap_cron a) (ap_heartbeat a) (ap_sessions a) (ap_todo a) (ap_detached a) (ap_begun a).
Definition stop_channels (h : Hub X) : Hub X :=
  let '(s, x) := StopAllBots iter (hub_service h) (hub_world h) in mkHub (hub_channels h) s x.
Definition stop_server (a : App) : App :=
  mkApp (ap_watcher a) (HttpStop <$> ap_http a) (ap_hub a) (ap_cron a) (ap_heartbeat a) (ap_sessions a) (ap_todo a) (ap_detached a) (ap_begun a).
(** The destructors of the schedulers join their threads: [None] while the thread is in
    a turn. *)
Definition stop_cron (a : App) : option App :=
  if between_turns (ap_cron a) (ap_sessions a)
  then Some (mkApp (ap_watcher a) (ap_http a) (ap_hub a) Joined (ap_heartbeat a) (ap_sessions a) (ap_todo a) (ap_detached a) (ap_begun a))
  else None.
Definition stop_heartbeat (a : App) : option App :=
  if between_turns (ap_heartbeat a) (ap_sessions a)
  then Some (mkApp (ap_watcher a) (ap_http a) (ap_hub a) (ap_cron a) Joined (ap_sessions a) (ap_todo a) (ap_detached a) (ap_begun a))
  else None.

Definition stop_service (s : Stop) (a : App) : option App :=
  match s with
  | StopWatcher => Some (stop_watcher a)
  | StopChannels => Some (set_hub (stop_channels (ap_hub a)) a)
  | StopServer => Some (stop_server a)
  | StopCron => stop_cron a
  | StopHeartbeat => stop_heartbeat a
  | ShutSessions => Some (set_sessions (Shutdown (ap_sessions a)) a)
  end.

(** The next statement of the cleanup. *)
Definition main_step (a : App) : option App :=
  match ap_todo a with
  | [] => None
  | s :: rest => stop_service s (set_todo rest a)
  end.

Definition serving (a : App) : bool := match ap_http a with Some s => hs_running s | None => false end.
Definition bot_alive (id : string) (a : App) : bool :=
  match feishuBots_ (hub_service (ap_hub a)) !! id with Some b => bot_running b | None => false end.

(** The thread that may begin a turn of its own now. *)
Definition may_begin (from : Origin) (a : App) : bool :=
  match from with
  | FromHttp => serving a
  | FromBot _ => false
  | FromCron => running (ap_cron a) && between_turns (ap_cron a) (ap_sessions a)
  | FromHeartbeat => running (ap_heartbeat a) && between_turns (ap_heartbeat a) (ap_sessions a)
  end.
(** The thread that may leave a turn to a detached one. *)
Definition may_accept (from : Origin) (a : App) : bool :=
  match from with FromHttp => serving a | FromBot id => bot_alive id a | _ => false end.

Definition begin_turn (from : Origin) (sid : string) (a : App) : option App :=
  m ← exec (ANewInvoke sid) (ap_sessions a);
  Some (mkApp (ap_watcher a) (ap_http a) (ap_hub a) (ap_cron a) (ap_heartbeat a) m (ap_todo a) (ap_detached a)
          (ap_begun a ++ [(from, length (calls (ap_sessions a)))])).
(** The scheduler's thread is in the turn it begins. *)
Definition busy_with (from : Origin) (i : nat) (a : App) : App :=
  mkApp (ap_watcher a) (ap_http a) (ap_hub a)
    (match from with FromCron => Running (Some i) | _ => ap_cron a end)
    (match from with FromHeartbeat => Running (Some i) | _ => ap_heartbeat a end)
    (ap_sessions a) (ap_todo a) (ap_detached a) (ap_begun a).

(** [None] is a move whose thread is not there, or waits. *)
Definition app_step (mv : Move) (a : App) : option App :=
  match mv with
  | Main => main_step a
  | Request rq => if serving a then Some (set_hub (serve_channel (J := J) iter rq (ap_hub a)).1 a) else None
  | ChannelsChanged => if ap_watcher a then Some (set_hub (reload_channels (J := J) iter (ap_hub a)).1 a) else None
  | Turn from sid =>
      if may_begin from a
      then begin_turn from sid (busy_with from (length (calls (ap_sessions a))) a) else None
  | Accept from sid =>
      if may_accept from a then Some (set_detached (ap_detached a ++ [(from, sid)]) a) else None
  | Detached k =>
      '(from, sid) ← ap_detached a !! k;
      begin_turn from sid (set_detached (delete k (ap_detached a)) a)
  | Inside i throws =>
      m ← exec (if throws : bool then AThrow i else AStep i) (ap_sessions a); Some (set_sessions m a)
  end.

Fixpoint app_steps (mvs : list Move) (a : App) : option App :=
  match mvs with
  | [] => Some a
  | mv :: mvs => a1 ← app_step mv a; app_steps mvs a1
  end.

(** ** What is stopped stays stopped *)

Definition stopped (s : Stop) (a : App) : Prop := s ∉ ap_todo a.

(** A request handled between the stop of the channels and that of the server. *)
Definition late (mv : Move) (a : App) : bool :=
  match mv with Request _ => bool_decide (StopChannels ∉ ap_todo a) | _ => false end.

Definition app_reaches : App -> App -> Prop :=
  reach (fun a a' => exists mv, late mv a = false /\ app_step mv a = Some a').

Definition scheduler (from : Origin) : bool := match from with FromCron | FromHeartbeat => true | _ => false end.
Definition worker_of (from : Origin) (a : App) : Worker :=
  match from with FromCron => ap_cron a | FromHeartbeat => ap_heartbeat a | _ => Joined end.

(** Each call a scheduler began has returned or is the one its thread is in. *)
Definition turns_ok (a : App) : Prop :=
  (forall from i, (from, i) ∈ ap_begun a -> scheduler from = true ->
     returned i (ap_sessions a) = true \/ worker_of from a = Running (Some i)) /\
  Forall (fun t => scheduler t.1 = false) (ap_detached a).

Definition stopped_ok (a : App) : Prop :=
  (stopped StopWatcher a -> ap_watcher a = false) /\
  (stopped StopChannels a -> feishuBots_ (hub_service (ap_hub a)) = ∅) /\
  (stopped StopServer a -> serving a = false) /\
  (stopped StopCron a -> ap_cron a = Joined) /\
  (stopped StopHeartbeat a -> ap_heartbeat a = Joined).

Definition on_course (a : App) : Prop := exists n, ap_todo a = drop n cleanup.

Lemma stopped_next s t rest a :
  ap_todo a = t :: rest -> s <> t -> stopped s (set_todo rest a) -> stopped s a.
Proof. unfold stopped. cbn. intros -> Hne Hs [?|?]%elem_of_cons; auto. Qed.

Lemma stop_service_ok s rest a a' :
  ap_todo a = s :: rest -> stop_service s (set_todo rest a) = Some a' ->
  ap_todo a' = rest /\ (stopped_ok a -> stopped_ok a').
Proof.
  intros Et E. assert (forall t, t <> s -> stopped t (set_todo rest a) -> stopped t a) as Hn.
  { intros t Hne. by eapply stopped_next. }
  unfold stopped_ok, stopped, serving in *. cbn in Hn.
  destruct s; cbn in E; unfold stop_cron, stop_heartbeat in E;
    repeat (destruct (between_turns _ _); [|discriminate E]); injection E as <-; cbn;
    (split; [done|]; intros (Hw & Hb & Hh & Hc & Hheart); split_and!; auto).
  by destruct (ap_http a).
Qed.

Lemma main_step_ok a a' : main_step a = Some a' -> stopped_ok a -> stopped_ok a'.
Proof.
  unfold main_step. destruct (ap_todo a) as [|s rest] eqn:Et; [done|]. intros E. by eapply stop_service_ok.
Qed.

Lemma main_step_course a a' : main_step a = Some a' -> on_course a -> on_course a'.
Proof.
  unfold main_step. destruct (ap_todo a) as [|s rest] eqn:Et; [done|]. intros E [n Hn].
  exists (S n). apply stop_service_ok in E as [-> _]; [|done].
  change (rest = drop (1 + n) cleanup). rewrite <- skipn_skipn, <- Hn, Et. done.
Qed.

(** The other moves stop nothing. *)
Lemma app_step_todo mv a a' : app_step mv a = Some a' -> mv <> Main -> ap_todo a' = ap_todo a.
Proof.
  intros E Hm. destruct mv as [|rq| |from sid|from sid|k|i throws]; cbn [app_step] in E; [done|..].
  - destruct (serving a); by simplify_option_eq.
  - destruct (ap_watcher a); by simplify_option_eq.
  - destruct (may_begin from a); unfold begin_turn in E; by simplify_option_eq.
  - destruct (may_accept from a); by simplify_option_eq.
  - destruct (ap_detached a !! k) as [[from sid]|]; unfold begin_turn in E; by simplify_option_eq.
  - by simplify_option_eq.
Qed.

Lemma app_step_course mv a a' : app_step mv a = Some a' -> on_course a -> on_course a'.
Proof.
  intros E [n Hn]. destruct mv; [apply (main_step_course a a' E); by exists n|..];
    exists n; by rewrite (app_step_todo _ a a' E).
Qed.

Lemma watcher_first a : on_course a -> stopped StopChannels a -> stopped StopWatcher a.
Proof.
  unfold stopped. intros [n ->] Hc Hw. apply Hc. clear Hc. destruct n as [|n]; [by right; left|].
  cbn in Hw. exfalso. apply list_elem_of_In, List.In_nth_error in Hw as [i Hi]. rewrite nth_error_skipn in Hi.
  by destruct (n + i)%nat as [|[|[|[|[|]]]]]; cbn in Hi; try rewrite nth_error_nil in Hi.
Qed.

Lemma app_step_ok mv a a' : late mv a = false -> app_step mv a = Some a' -> on_course a -> stopped_ok a -> stopped_ok a'.
Proof.
  intros Hl E Hco Ha. destruct mv as [|rq| |from sid|from sid|k|i throws]; cbn [app_step] in E.
  - by eapply main_step_ok.
  - destruct (serving a) eqn:Es; [|done]. injection E as <-. cbn in Hl. apply bool_decide_eq_false in Hl.
    destruct Ha as (Hw & Hb & Hh & Hc & Hheart). unfold stopped_ok, stopped, serving in *. cbn. by split_and!.
  - destruct (ap_watcher a) eqn:Ew; [|done]. injection E as <-.
    destruct Ha as (Hw & Hb & Hh & Hc & Hheart). unfold stopped_ok, stopped, serving in *. cbn.
    split_and!; try done. intros Hs. rewrite Hw in Ew; [done|]. by apply watcher_first.
  - destruct (may_begin from a) eqn:Em; [|done]. cbn in E. injection E as <-.
    destruct Ha as (Hw & Hb & Hh & Hc & Hheart). unfold stopped_ok, stopped, serving in *. cbn.
    split_and!; try done; intros Hs; destruct from; auto; cbn in Em;
      [by rewrite Hc in Em | by rewrite Hheart in Em].
  - destruct (may_accept from a); [|done]. injection E as <-. exact Ha.
  - destruct (ap_detached a !! k) as [[from sid]|]; [|done]. cbn in E. injection E as <-. exact Ha.
  - destruct (exec _ _); [|done]. injection E as <-. exact Ha.
Qed.

Lemma returned_stays i act m m' : exec act m = Some m' -> returned i m = true -> returned i m' = true.
Proof.
  unfold returned. intros E Hr. destruct (calls m !! i) as [c|] eqn:Ei; [|done].
  assert (of_others i act = true) as Ho.
  { destruct act as [| |j|j| | | |]; cbn [of_others]; try done; destruct (Nat.eqb_spec i j) as [<-|]; try done;
      exfalso; cbn [exec] in E; unfold step, step_throws in E; rewrite Ei in E; by destruct c. }
  by rewrite (others_keep_call i act m m' c Ho E Ei).
Qed.

Lemma Shutdown_calls m : calls (Shutdown m) = calls m.
Proof.
  unfold Shutdown. destruct (stop_all (deduplicated (known_agents m)) m) as (_ & _ & _ & Hc); [|exact Hc].
  unfold deduplicated. apply NoDup_elements.
Qed.

(** The moves that begin nothing. *)
Lemma turns_same a a' :
  ap_begun a' = ap_begun a -> ap_detached a' = ap_detached a ->
  (forall from, scheduler from = true -> worker_of from a' = worker_of from a \/ between_turns (worker_of from a) (ap_sessions a) = true) ->
  (forall i, returned i (ap_sessions a) = true -> returned i (ap_sessions a') = true) ->
  turns_ok a -> turns_ok a'.
Proof.
  intros Eb Ed Hw Hr [Hbegun Hdet]. unfold turns_ok. rewrite Eb, Ed. split; [|done].
  intros from i Hi Hs. destruct (Hbegun from i Hi Hs) as [Hret|Hrun]; [auto|].
  destruct (Hw from Hs) as [->|Hbt]; [auto|]. rewrite Hrun in Hbt. auto.
Qed.

Lemma begin_turn_ok from sid a a' :
  begin_turn from sid a = Some a' -> scheduler from = false \/ worker_of from a = Running (Some (length (calls (ap_sessions a)))) ->
  turns_ok a -> turns_ok a'.
Proof.
  unfold begin_turn. destruct (exec _ _) as [m|] eqn:Em; [|done]. cbn. intros [= <-] Hf [Hbegun Hdet].
  split; [|exact Hdet]. cbn [ap_begun ap_sessions]. intros f i [Hi|Hi%list_elem_of_singleton]%elem_of_app Hs.
  - destruct (Hbegun f i Hi Hs) as [Hret|Hrun]; [left; by eapply returned_stays | by right].
  - injection Hi as -> ->. destruct Hf as [Hf|Hf]; [congruence | right; exact Hf].
Qed.

Lemma stop_service_turns s rest a a' : stop_service s (set_todo rest a) = Some a' -> turns_ok a -> turns_ok a'.
Proof.
  intros E. assert (turns_ok a <-> turns_ok (set_todo rest a)) as -> by done. set (b := set_todo rest a) in *.
  apply turns_same; destruct s; cbn [stop_service] in E; unfold stop_cron, stop_heartbeat in E;
    repeat (destruct (between_turns _ _) eqn:?; [|discriminate E]); injection E as <-; try done;
    try (intros [| | |] ?; by auto).
  cbn. unfold returned. intros i. by rewrite Shutdown_calls.
Qed.

Lemma app_step_turns mv a a' : app_step mv a = Some a' -> turns_ok a -> turns_ok a'.
Proof.
  intros E. destruct mv as [|rq| |from sid|from sid|k|i throws]; cbn [app_step] in E.
  - unfold main_step in E. destruct (ap_todo a); [done|]. by eapply stop_service_turns.
  - destruct (serving a); [|done]. injection E as <-. by apply turns_same; auto.
  - destruct (ap_watcher a); [|done]. injection E as <-. by apply turns_same; auto.
  - destruct (may_begin from a) eqn:Em; [|done]. intros Ha. eapply begin_turn_ok; [exact E| |].
    + destruct from; cbn; auto.
    + revert Ha. apply turns_same; try done. intros f _. destruct f, from; auto; cbn in Em |- *; right;
        by apply andb_true_iff in Em as [_ ?].
  - destruct (may_accept from a) eqn:Em; [|done]. injection E as <-. intros [Hb Hd]. split; [exact Hb|].
    cbn. apply Forall_app. split; [done|]. constructor; [by destruct from | constructor].
  - destruct (ap_detached a !! k) as [[from sid]|] eqn:Ek; [|done]. cbn [mbind option_bind] in E. intros [Hb Hd].
    eapply begin_turn_ok; [exact E| |].
    + left. rewrite Forall_lookup in Hd. exact (Hd k _ Ek).
    + split; [exact Hb|]. cbn. by apply Forall_delete.
  - destruct (exec _ _) as [m|] eqn:Em; [|done]. cbn in E. injection E as <-. apply turns_same; auto.
    intros j. by eapply returned_stays.
Qed.

Lemma reaches_ok o m x a : app_reaches (boot_app o m x).1 a -> on_course a /\ stopped_ok a /\ turns_ok a.
Proof.
  intros Hr. refine (reach_invariant _ (fun a => on_course a /\ stopped_ok a /\ turns_ok a) _ _ _ a Hr).
  - unfold boot_app. destruct (if enableServer o then _ else _) as [hub r]. cbn.
    split; [by exists 0%nat|]. split; [|split; [intros ? ? []%elem_of_nil | constructor]].
    unfold stopped_ok, stopped. cbn. split_and!; intros Hs; exfalso; apply Hs; set_solver.
  - intros a1 a2 (Hc & Hs & Ht) (mv & Hl & E). split_and!; [by eapply app_step_course | by eapply app_step_ok | by eapply app_step_turns].
Qed.

Lemma last_stop a : on_course a -> stopped ShutSessions a -> ap_todo a = [].
Proof.
  unfold stopped. intros [n ->] Hs. do 6 (destruct n as [|n]; [exfalso; apply Hs; cbn; set_solver|]).
  cbn. by rewrite skipn_nil.
Qed.

(** C37.  The services are stopped before the sessions.  If no request to the channels is
    handled between the stop of the channels and that of the server, then once [main] has
    run the shutdown of the sessions, whatever it may have left to do, the only moves left
    to the application are steps of calls already begun and the starts of turns that had
    been left to detached threads: nothing else stops, no request is served, no watcher
    reloads, and no request, bot or scheduler begins a turn or leaves one.  The turns the
    schedulers began have all returned. *)
Theorem services_stopped_first (o : Options) (m : Manager) (x : X) (a : App) :
  app_reaches (boot_app o m x).1 a -> ShutSessions ∉ ap_todo a ->
  (forall mv a', app_step mv a = Some a' ->
     match mv with Detached k => (k < length (ap_detached a))%nat | Inside _ _ => True | _ => False end) /\
  (forall from i, (from, i) ∈ ap_begun a -> from = FromCron \/ from = FromHeartbeat ->
     returned i (ap_sessions a) = true).
Proof.
  intros Hr Hs. apply reaches_ok in Hr as (Hco & (Hw & Hb & Hh & Hc & Hheart) & Hbegun & _).
  apply last_stop in Hs as Et; [|done]. unfold stopped in *. rewrite Et in *.
  assert (forall s : Stop, s ∉ []) as Hnil by (intros s []%elem_of_nil).
  split.
  - intros mv a' E. destruct mv as [|rq| |from sid|from sid|k|]; cbn [app_step] in E; [..|done].
    + unfold main_step in E. by rewrite Et in E.
    + by rewrite Hh in E.
    + by rewrite Hw in E.
    + destruct from; cbn in E; [by rewrite Hh in E | done | by rewrite Hc in E | by rewrite Hheart in E].
    + destruct from as [|id| |]; cbn in E; [by rewrite Hh in E| |done..].
      unfold bot_alive in E. by rewrite Hb, lookup_empty in E.
    + destruct (ap_detached a !! k) eqn:Ek; [|done]. by eapply lookup_lt_Some.
  - intros from i Hi Hf. destruct (Hbegun from i Hi) as [Hret|Hrun]; [by destruct Hf as [-> | ->] | done |].
    destruct Hf as [-> | ->]; cbn in Hrun; [by rewrite Hc in Hrun | by rewrite Hheart in Hrun].
Qed.

(** A turn left to a detached thread outlives the stop: the thread begins it whatever
    [main] has stopped. *)
Lemma detached_begins (a : App) (k : nat) (from : Origin) (sid : string) :
  ap_detached a !! k = Some (from, sid) ->
  exists a', app_step (Detached k) a = Some a' /\
    calls (ap_sessions a') = calls (ap_sessions a) ++ [if initialized_ (ap_sessions a) then Arrived sid else Finished sid false].
Proof. intros Hk. cbn [app_step]. rewrite Hk. cbn. eexists. by split. Qed.

(** A late request can start what nothing stops: when the request, handled by the hub
    with its channels stopped, leaves a bot running, that bot still runs after [main] has
    shut the sessions down, and the turns it accepts begin. *)
Theorem late_request_outlives_shutdown (a : App) (rq : channel_request) (id sid : string) (b : FeishuBot) :
  ap_todo a = tl cleanup -> serving a = true ->
  between_turns (ap_cron a) (ap_sessions a) = true -> between_turns (ap_heartbeat a) (ap_sessions a) = true ->
  feishuBots_ (hub_service (serve_channel (J := J) iter rq (stop_channels (ap_hub a))).1) !! id = Some b ->
  bot_running b = true ->
  exists a', app_steps [Main; Request rq; Main; Main; Main; Main] a = Some a' /\ ap_todo a' = [] /\
    exists a'', app_steps [Accept (FromBot id) sid; Detached (length (ap_detached a))] a' = Some a'' /\
      calls (ap_sessions a'') = calls (ap_sessions a') ++ [if initialized_ (ap_sessions a') then Arrived sid else Finished sid false].
Proof.
  destruct a as [w http hub c heart m todo det begun]. cbn [ap_todo ap_hub ap_cron ap_heartbeat ap_sessions ap_detached].
  intros -> Hr Hc Hheart Hb Hrun.
  unfold serving in Hr. cbn [ap_http] in Hr. destruct http as [server|]; [|done].
  set (h := (serve_channel iter rq (stop_channels hub)).1) in *.
  exists (mkApp w (Some (HttpStop server)) h Joined Joined (Shutdown m) [] det begun). split.
  { cbn -[serve_channel stop_channels between_turns Shutdown]. unfold serving. cbn -[serve_channel stop_channels between_turns Shutdown]. rewrite Hr.
    cbn -[serve_channel stop_channels between_turns Shutdown]. fold h. unfold stop_cron, stop_heartbeat.
    cbn -[serve_channel stop_channels between_turns Shutdown]. rewrite Hc.
    cbn -[serve_channel stop_channels between_turns Shutdown]. unfold stop_heartbeat at 1.
    cbn -[serve_channel stop_channels between_turns Shutdown]. by rewrite Hheart. }
  split; [done|]. cbn [app_steps app_step may_accept]. unfold bot_alive. cbn [ap_hub]. rewrite Hb, Hrun.
  cbn [mbind option_bind set_detached ap_detached]. rewrite lookup_app_r by lia. rewrite Nat.sub_diag.
  cbn. eexists. split; [reflexivity | done].
Qed.
End App.

(** ** Examples *)

#[local] Instance ex_json5 : Json JsonTree.json := JsonTree.instance [].
#[local] Existing Instance HttpChannels.ex_net.

Definition ex_server : Options := mkOptions true false true "127.0.0.1" 8080 false.
Definition ex_app : App := (boot_app (J := JsonTree.json) ex_server (ex_start 2) (MemDisk.mkDisk [] 0)).1.
Definition ex_step := app_step (X := MemDisk.disk) (J := JsonTree.json) ex_iter.
Definition ex_steps := app_steps (X := MemDisk.disk) (J := JsonTree.json) ex_iter.

Lemma app_steps_reach mvs (a a' : App (X := MemDisk.disk)) :
  ex_steps mvs a = Some a' -> forallb (fun mv => match mv with Request _ => false | _ => true end) mvs = true ->
  app_reaches (J := JsonTree.json) ex_iter a a'.
Proof.
  revert a. induction mvs as [|mv mvs IH]; intros a E Hl; [injection E as <-; apply reach_refl|].
  cbn in E. destruct (app_step ex_iter mv a) as [a1|] eqn:E1; [|done]. cbn in Hl. apply andb_true_iff in Hl as [Hl1 Hl2].
  apply (reach_trans _ _ a1); [|by apply IH]. apply (reach_step _ _ a); [apply reach_refl|]. exists mv.
  split; [by destruct mv | done].
Qed.

(** A whole turn that waits for no other. *)
Definition ex_turn (i : nat) : list Move := replicate 8 (Inside i false).

(** The watcher reloads, the schedulers begin turns, the handler of a streamed chat
    leaves one to its thread while the services are stopped. *)
Definition ex_quiet : list Move :=
  [ChannelsChanged; Main; Accept FromHttp "s"; Main; Turn FromCron "__CRON__"; Main] ++ ex_turn 0 ++
  [Main; Turn FromHeartbeat "__HEARTBEAT__"] ++ ex_turn 1 ++ [Main; Main].

(** While the turn of its thread is under way the stop of the scheduler waits. *)
Example stop_waits :
  option_map (ex_step Main) (ex_steps [Main; Main; Turn FromCron "__CRON__"; Main; Inside 0 false] ex_app) = Some None.
Proof. vm_compute. reflexivity. Qed.

Lemma services_stopped_first_witness :
  exists a, ex_steps ex_quiet ex_app = Some a /\ length (calls (ap_sessions a)) = 2%nat /\ length (ap_detached a) = 1%nat /\
    (forall mv a', ex_step mv a = Some a' ->
       match mv with Detached k => (k < length (ap_detached a))%nat | Inside _ _ => True | _ => False end) /\
    (forall from i, (from, i) ∈ ap_begun a -> from = FromCron \/ from = FromHeartbeat ->
       returned i (ap_sessions a) = true).
Proof.
  destruct (ex_steps ex_quiet ex_app) as [a|] eqn:E; [|vm_compute in E; discriminate].
  exists a. split; [done|].
  assert (ap_todo a = [] /\ length (calls (ap_sessions a)) = 2%nat /\ length (ap_detached a) = 1%nat) as (Ht & Hl & Hd)
    by (vm_compute in E; by injection E as <-).
  split; [exact Hl|]. split; [exact Hd|].
  apply (services_stopped_first (J := JsonTree.json) ex_iter ex_server (ex_start 2) (MemDisk.mkDisk [] 0) a).
  - apply (app_steps_reach ex_quiet); [exact E | vm_compute; reflexivity].
  - rewrite Ht. by intros ?%elem_of_nil.
Defined.

(** The thread of the streamed chat begins its turn with the sessions shut down. *)
Lemma streamed_chat_outlives_shutdown :
  exists a a', ex_steps ex_quiet ex_app = Some a /\ ap_todo a = [] /\ ex_step (Detached 0) a = Some a' /\
    calls (ap_sessions a') !! 2%nat = Some (Arrived "s").
Proof.
  destruct (ex_steps ex_quiet ex_app) as [a|] eqn:E; [|vm_compute in E; discriminate].
  destruct (ex_step (Detached 0) a) as [a'|] eqn:E'; vm_compute in E; injection E as <-; vm_compute in E'; [|discriminate].
  eexists _, a'. injection E' as <-. split_and!; reflexivity.
Qed.

Lemma late_request_outlives_shutdown_witness :
  exists a' a'', option_bind _ _ (ex_steps [Main; Request (RqCreate (ex_body "a")); Main; Main; Main; Main]) (ex_step Main ex_app) = Some a' /\
    ap_todo a' = [] /\ ex_steps [Accept (FromBot "channel_1") "c"; Detached 0] a' = Some a''.
Proof.
  destruct (ex_step Main ex_app) as [a|] eqn:E; [|vm_compute in E; discriminate].
  assert (exists b, feishuBots_ (hub_service (serve_channel (J := JsonTree.json) ex_iter (RqCreate (ex_body "a"))
            (stop_channels ex_iter (ap_hub a))).1) !! "channel_1" = Some b /\ bot_running b = true /\
          ap_todo a = tl cleanup /\ serving a = true /\ ap_detached a = [] /\
          between_turns (ap_cron a) (ap_sessions a) = true /\ between_turns (ap_heartbeat a) (ap_sessions a) = true)
    as (b & Hb & Hr & H1 & Hs & Hd & Hc & Hh).
  { vm_compute in E. injection E as <-. eexists. split; [vm_compute; reflexivity|]. by split_and!. }
  destruct (late_request_outlives_shutdown (J := JsonTree.json) ex_iter a (RqCreate (ex_body "a")) "channel_1" "c" b H1 Hs Hc Hh Hb Hr)
    as (a' & E' & H6 & a'' & Ht & _).
  exists a', a''. split; [exact E'|]. split; [exact H6|]. rewrite Hd in Ht. exact Ht.
Defined.
